(* ===== verification/_CoqProject ===== *)
-Q . S2P
Prelude.v
JsMap.v
RateLimiter.v
Validation.v
Protocol.v
Arbiter.v
Engine.v
EngineInv.v
Telemetry.v
Status.v
Failures.v
Sessions.v
ServerUtils.v
Server.v
ServerInv.v
SshSession.v
SshTarget.v
Process.v
Tmux.v
SshTmux.v
Cmux.v
Config.v
Multiplexer.v
RuntimeFactory.v
ProxyCore.v
AgentCache.v
RelaySession.v
RelayOptions.v
RelayTls.v
RelayHealth.v
Client.v
ClientServer.v
ProxyAgents.v
ProxyDispatchers.v
HttpClient.v
ControlPlane.v
SshPreflight.v
Startup.v
Tui.v
TuiProfiles.v
TuiQa.v
TuiLaunch.v
TuiCommands.v
Orchestration.v
CliProxy.v
ProxyResolvers.v
ProxyFetch.v
NodePath.v
HttpSurface.v
WebApp.v
OrchestrationCli.v
BuildOrder.v
Extensions.v
RelayCli.v
Lockstep.v
ChildProcess.v
Soak.v
Fixtures.v
NetWrappers.v
ModuleLoader.v
Benchmark.v
