(* ===== verification/Prelude.v ===== *)
(** * CommandRelay: verification library

    CommandRelay is a bridge that lets remote clients watch and drive tmux and
    cmux panes over a WebSocket, with a relay in front of it, client
    libraries, a terminal and a web client, a family of packages that route
    requests through proxies, and the scripts around them.  This library is a
    shallow embedding of its TypeScript and JavaScript in Rocq: data are
    records and inductive types, code that may throw returns a [result], code
    that waits is cut at its [await]s into segments which the environment
    interleaves, and sockets, timers, child processes and files are events
    and answers.  Each definition keeps the name of the code it translates.

    ** How the parts interact

    A pane is captured by an adapter ([Tmux], [SshTmux], [Cmux]), chosen by
    the configuration ([Config], [RuntimeFactory]) and combined by the
    multiplexer ([Multiplexer]).  The engine ([Engine]) polls the panes that
    have subscribers, numbers each change and keeps a bounded history.  The
    server ([Server]) authenticates connections, limits their rates
    ([RateLimiter]), gives each pane one writer at a time ([Arbiter]), checks
    fields ([Validation], [Protocol]) and joins requests to the engine and
    the adapter.  The client library ([Client]), the terminal client ([Tui],
    [TuiCommands]) and the web page ([WebApp]) speak to it, directly or
    through the relay ([RelaySession]).  Requests that leave the program are
    routed by [ProxyCore] and carried by the agents, dispatchers, clients and
    resolvers on top of it.  The scripts test the whole ([Soak], [Fixtures],
    [Benchmark]), build it ([BuildOrder], [Lockstep]) and prepare work for
    agents ([Orchestration], [OrchestrationCli]) and extensions
    ([Extensions]).

    ** Files and the code they model

    Shared: this file (results, text, numbers, automation: [js_scope],
    generic lemmas on lists and strings) and [JsMap]
    (insertion-ordered [Map] and [Set]).

    Bridge, under [src/src]:
    - [RateLimiter]: [server/rate-limiter.ts]; [Validation]:
      [server/message-validation.ts], [server/input-policy.ts]; [Arbiter],
      [ServerUtils]: [server/bridge-server-utils.ts]; [Failures]:
      [server/bridge-runtime-failures.ts]; [Sessions]:
      [server/session-list-runtime-metadata.ts];
    - [Engine] with [EngineInv]: [bridge/bridge-engine.ts];
    - [Server] with [ServerInv]: [server/bridge-server.ts];
      [HttpSurface]: its HTTP handler, upgrade listener and [close], and
      [server/audit-log.ts];
    - [Telemetry], [Status]: [telemetry/bridge-telemetry.ts] and
      [telemetry/bridge-status.ts];
    - [SshSession], [SshTarget], [SshPreflight]: the files of [ssh/];
    - [Process] (programs that run commands), [ChildProcess] (a child given
      input), [Tmux]: [tmux/tmux-adapter.ts], [SshTmux]:
      [runtime/ssh-tmux-adapter.ts], [Cmux]: [runtime/cmux-adapter.ts],
      [Multiplexer] and [RuntimeFactory]: the other files of [runtime/];
    - [Config]: [config.ts]; [Startup]: [index.ts],
      [startup/startup-profile.ts]; [ControlPlane]: [control-plane/];
      [NetWrappers]: [net/outbound-http.ts], [net/proxy-agent-factory.ts];
    - [Orchestration]: the files of [orchestration/].

    Packages, under [src/packages]:
    - [Protocol]: [commandrelay-protocol]; [Client] and, with the server,
      [ClientServer]: [commandrelay-client]; [ModuleLoader]: its loader and
      that of the terminal client;
    - [RelaySession], [RelayOptions], [RelayTls], [RelayHealth], [RelayCli]:
      [commandrelay-relay-proxy];
    - [Tui], [TuiCommands], [TuiProfiles], [TuiLaunch], [TuiQa]:
      [commandrelay-tui];
    - [ProxyCore]: [proxy-core] and [net/proxy-router.ts]; [AgentCache]: the
      bounded caches of [proxy-agent] and [proxy-undici]; [ProxyAgents]:
      [proxy-agent], [proxy-runtime]; [ProxyDispatchers]: [proxy-undici];
      [HttpClient]: [proxy-http-client]; [ProxyFetch]: [proxy-fetch];
      [ProxyResolvers]: [proxy-axios], [proxy-got]; [CliProxy]: [cli-proxy].

    Application and scripts: [WebApp]: [apps/web/app.js]; [NodePath]: the
    POSIX path functions they share; [OrchestrationCli]:
    [scripts/orchestration]; [Extensions]: [scripts/extensions];
    [BuildOrder]: [scripts/packages/run-phase-ordered.mjs]; [Lockstep]:
    [scripts/release/check-proxy-lockstep-versions.ts]; [Soak]:
    [scripts/checkpoints/run-flaky-network-soak.ts]; [Fixtures]:
    [scripts/tmux-fixtures]; [Benchmark]: [scripts/perf/bridge-perf-common.ts].

    ** What the theorems show

    - Streaming.  A watcher is a faithful bounded view of the events numbered
      on it, in every interleaving ([EngineInv.stream_log_invariant]); a
      reader that resumes gets exactly what it missed
      ([EngineInv.attach_resumes_stream]), which is also what the soak probe
      counts ([Soak.reconnect_is_clean]); a change reaches every subscriber
      once ([EngineInv.poll_delivers_change]).
    - Authority.  Every keystroke sent to a pane belongs to a connected,
      authenticated client that may write there
      ([ServerInv.input_authorized]); the text of a pane reaches only
      connected, authenticated clients that asked for the pane
      ([ServerInv.output_entitled]); owners and subscribers are entitled
      clients; the terminal client and the web page ask only what they may
      ([TuiCommands.requests_entitled], [WebApp.web_input_entitled]).  [wp]
      in [ServerInv] carries the invariant through all the handlers; who hears
      a pane is an invariant of the engine ([EngineInv.heard_exec]).
    - Remote hosts.  A POSIX shell, described by its own metacharacters,
      reads the remote command line as the argument vector, the host
      is verified before tmux is reached, and only a clean [ssh-keygen] is
      believed ([SshTmux], [ChildProcess]).
    - Reference definitions.  The rate limiter, the bounded cache, the lane
      arbiter and the proxy rules decide like their specifications
      ([RateLimiter.limiter_refines_reference], [AgentCache.cache_is_lru],
      [Arbiter.lane_exclusive], [ProxyCore.shouldBypassProxy_iff]).
    - Requests.  Client requests, HTTP exchanges and fetches settle once, in
      every order of events, and a reply settles the request it answers
      ([Client.requests_settle_once], [HttpClient.exchange_settles_once],
      [ProxyFetch.fetchJson_settles], [ClientServer.reply_settles_request]).
    - Relay.  Traffic keeps its order, backlogs and connections keep their
      bounds, the statistics are exactly those of the trace, an upgrade is admitted exactly when its guards pass
      ([RelaySession]).
    - Confinement.  Files served lie in the static directory
      ([HttpSurface.static_files_confined], [Extensions.preview_confined]);
      the dispatcher starts allowlisted commands only
      ([Extensions.dispatch_allowlisted]); texts never become markup
      ([WebApp.page_text_is_not_markup]).
    - Configuration, parsing and texts.  Parsers accept exactly their
      grammar, what is printed is parsed back, options are within their
      ranges, and the task of a brief survives the tools
      ([Config.loadConfig_ok], [Protocol], [Tmux.listPanes_roundtrip],
      [RelayOptions.relay_from_env_ok],
      [OrchestrationCli.pipeline_carries_task]).
    - Scripts.  The build order is topological whenever one exists
      ([BuildOrder.build_order_correct]); a faithful fixture run passes
      ([Fixtures.faithful_run_passes]).

    Where the code does not do what it means to, the theorem states what it
    does, and its comment says so.

    ** Abstractions

    - Strings are lists of 8-bit characters; a string of JavaScript with
      characters above 255 is outside.  White space is that of [trim] among
      these characters.
    - Integers are unbounded [Z] where the code's doubles hold them exactly;
      where a double is observed, it is an exact dyadic or a binary64 of
      [SpecFloat] (percentiles), and [Infinity] is 2^1024 in [Fixtures].
      Metrics with two decimals are counted in hundredths.
    - A handler reads the clock once per uninterrupted segment, and its
      random draws are arguments.  Timers fire at any moment the environment
      chooses once they are armed.
    - Settings and options are values: nobody writes to an object after
      handing it over, except where the code itself does (watchers of the
      engine, agents and dispatchers, request options), which live in a
      store.  Listeners neither call back nor throw.  Promises that are
      awaited together settle in an order the environment chooses.
    - Look-ups in plain objects leave out the names of [Object.prototype].
    - Outside code is a parameter or an answer of the environment:
      [JSON.parse] and [JSON.stringify], [URL], [decodeURIComponent],
      [localeCompare], [net.isIP], hashes, [randomUUID], number formatting
      and [parseFloat], the UTF-8 decoder, the file system, child processes,
      [fetch], [import], the constructors of agents and dispatchers, and what
      tmux types ([Tmux.send_keys_documented] is what its manual says).  What
      a theorem needs of one of them is a hypothesis, met by a concrete
      function in its witness.  Writing the profile file does not fail.

    ** Fuel

    Recursion that is not structural has fuel that always suffices, and the
    theorems state results, not partial correctness: the number of entries
    when a cache evicts, the number of arguments in the parsers, the length
    of the string in [unescape], the number of packages in
    [BuildOrder.drain], the eight directories the code itself allows when it
    climbs, and the length of the path in [ModuleLoader].

    ** Not modelled

    - [src/utils/run-command.ts] (one call of [execFile]; its callers have
      its outcome as input), printing to the console, help texts and status
      icons, the terminal modes of the token prompt, the /health request of
      the terminal client.
    - Of the web page: finding nodes, drawing lists, focus, scrolling, toasts.
    - Of the scripts: starting servers and sockets for the soak, the Markdown
      reports, the floating-point statistics of the benchmarks and the
      runners that only call the benchmark client and print.  The remaining
      shell scripts only call tmux.
    - Test helpers, smoke scripts, type declarations, re-exports, and the
      mobile and desktop applications, which are written in other languages. *)

From Stdlib Require Export ZArith Ascii Lia.
From stdpp Require Export base tactics strings sorting option gmap list pretty.

Declare Scope js_scope.
Delimit Scope js_scope with js.
Open Scope Z_scope.

(** ** Results of code that may throw *)

(** [Ok v] is a normal return, [Throw e] an exception carrying [e]. *)
Inductive result (E A : Type) : Type :=
| Ok (v : A)
| Throw (e : E).
Arguments Ok {E A} v.
Arguments Throw {E A} e.

#[export] Instance result_eq_dec {E A} `{EqDecision E, EqDecision A} :
  EqDecision (result E A).
Proof. solve_decision. Defined.

#[export] Instance Ok_inj {E A} : Inj (=) (=) (@Ok E A).
Proof. by intros a b [= ->]. Qed.

Definition rbind {E A B} (m : result E A) (k : A -> result E B) : result E B :=
  match m with
  | Ok v => k v
  | Throw e => Throw e
  end.

Notation "'let!' x := m 'in' k" := (rbind m (fun x => k))
  (at level 10, x pattern, m at level 100, k at level 200) : js_scope.
Notation "'check!' b 'else' e ; k" := (if b then k else Throw e)
  (at level 10, b at level 100, e at level 100, k at level 200) : js_scope.

Lemma rbind_Ok {E A B} (m : result E A) (k : A -> result E B) v :
  rbind m k = Ok v <-> exists a, m = Ok a /\ k a = Ok v.
Proof. destruct m; simpl; naive_solver. Qed.

(** ** Strings

    A JavaScript string is a sequence of UTF-16 code units; here it is a
    [string], one [ascii] per code unit, so the model covers the strings whose
    code units are below 256 (Latin-1). *)

Abbreviation code c := (N_of_ascii c).

(** White space of [String.prototype.trim], below 256. *)
Definition is_space (c : ascii) : bool :=
  let n := code c in
  ((9 <=? n) && (n <=? 13))%N || (n =? 32)%N || (n =? 160)%N.

Fixpoint trim_start (s : string) : string :=
  match s with
  | String c r => if is_space c then trim_start r else s
  | EmptyString => EmptyString
  end.

Fixpoint trim_end (s : string) : string :=
  match s with
  | EmptyString => EmptyString
  | String c r =>
      match trim_end r with
      | EmptyString => if is_space c then EmptyString else String c EmptyString
      | r' => String c r'
      end
  end.

Definition trim (s : string) : string := trim_end (trim_start s).

#[global] Arguments trim : simpl never.

Definition is_empty (s : string) : bool :=
  match s with EmptyString => true | _ => false end.

(** [toUpperCase] below 256: a-z, U+00E0..U+00FE but U+00F7, and U+00DF, which becomes
    "SS".  U+00B5 and U+00FF have their upper case above 255: they are left as they are. *)
Definition upper_char (c : ascii) : string :=
  let n := code c in
  if ((97 <=? n) && (n <=? 122))%N || ((224 <=? n) && (n <=? 254) && negb (n =? 247))%N
  then String (ascii_of_N (n - 32)) EmptyString
  else if (n =? 223)%N then "SS" else String c EmptyString.

Fixpoint to_upper (s : string) : string :=
  match s with
  | EmptyString => EmptyString
  | String c r => (upper_char c +:+ to_upper r)%string
  end.

(** [toLowerCase] below 256: the letters A-Z and U+00C0..U+00DE but U+00D7. *)
Definition lower_char (c : ascii) : ascii :=
  let n := code c in
  if ((65 <=? n) && (n <=? 90) || (192 <=? n) && (n <=? 222) && negb (n =? 215))%N
  then ascii_of_N (n + 32) else c.

Fixpoint str_map (f : ascii -> ascii) (s : string) : string :=
  match s with
  | EmptyString => EmptyString
  | String c r => String (f c) (str_map f r)
  end.

Definition to_lower : string -> string := str_map lower_char.

#[global] Arguments to_lower : simpl never.

Fixpoint str_forallb (f : ascii -> bool) (s : string) : bool :=
  match s with
  | EmptyString => true
  | String c r => f c && str_forallb f r
  end.

(** [s.length]. *)
Definition str_len (s : string) : Z := Z.of_nat (String.length s).

(** [s.slice(n)] and [s.slice(0, n)] for [n >= 0]. *)
Fixpoint str_drop (n : nat) (s : string) : string :=
  match n, s with
  | O, _ => s
  | S n, String _ r => str_drop n r
  | S _, EmptyString => EmptyString
  end.

Fixpoint str_take (n : nat) (s : string) : string :=
  match n, s with
  | S n, String c r => String c (str_take n r)
  | _, _ => EmptyString
  end.

(** [s.startsWith(p)], [s.endsWith(p)], [s.includes(p)]. *)
Fixpoint starts_with (p s : string) : bool :=
  match p, s with
  | EmptyString, _ => true
  | String a p, String b s => Ascii.eqb a b && starts_with p s
  | String _ _, EmptyString => false
  end.

Definition ends_with (p s : string) : bool :=
  starts_with (String.rev p) (String.rev s).

Fixpoint includes (p s : string) : bool :=
  starts_with p s ||
  match s with
  | EmptyString => false
  | String _ r => includes p r
  end.

(** [s.indexOf(c)] for a one-character needle; [None] is -1. *)
Fixpoint index_of (c : ascii) (s : string) : option nat :=
  match s with
  | EmptyString => None
  | String d r => if Ascii.eqb c d then Some O else S <$> index_of c r
  end.

(** [s.lastIndexOf(c)]. *)
Fixpoint last_index_of (c : ascii) (s : string) : option nat :=
  match s with
  | EmptyString => None
  | String d r =>
      match last_index_of c r with
      | Some i => Some (S i)
      | None => if Ascii.eqb c d then Some O else None
      end
  end.

(** [s.split(c)] for a one-character separator; [parts.join(sep)]. *)
Fixpoint split_on (c : ascii) (s : string) : list string :=
  match s with
  | EmptyString => [EmptyString]
  | String d r =>
      if Ascii.eqb c d then EmptyString :: split_on c r
      else match split_on c r with
           | w :: ws => String d w :: ws
           | [] => [String d EmptyString]
           end
  end.

Fixpoint join (sep : string) (ws : list string) : string :=
  match ws with
  | [] => EmptyString
  | [w] => w
  | w :: ws => (w +:+ sep +:+ join sep ws)
  end.

Lemma str_app_cons c a b : (String c a +:+ b)%string = String c (a +:+ b)%string.
Proof. done. Qed.

Lemma str_app_nil_l s : ("" +:+ s)%string = s.
Proof. done. Qed.

Lemma str_app_nil_r s : (s +:+ "")%string = s.
Proof. induction s as [|c s IH]; [done|]. by rewrite str_app_cons, IH. Qed.

Lemma str_app_assoc a b c : (a +:+ (b +:+ c))%string = ((a +:+ b) +:+ c)%string.
Proof. induction a as [|x a IH]; [done|]. by rewrite !str_app_cons, IH. Qed.

Lemma str_app_length a b :
  String.length (a +:+ b)%string = (String.length a + String.length b)%nat.
Proof. induction a as [|x a IH]; [done|]. rewrite str_app_cons. simpl. by rewrite IH. Qed.

(** The quote characters by their codes, and a text in double quotes. *)
Definition squote : ascii := "039".
Definition dquote : ascii := "034".
Definition in_quotes (s : string) : string := (String dquote "" +:+ s +:+ String dquote "")%string.

(** Character classes of the regular expressions in use. *)
Definition is_alpha (c : ascii) : bool :=
  let n := code c in (((65 <=? n) && (n <=? 90)) || ((97 <=? n) && (n <=? 122)))%N.
Definition is_num (c : ascii) : bool := let n := code c in ((48 <=? n) && (n <=? 57))%N.
Definition is_alnum (c : ascii) : bool := is_alpha c || is_num c.

(** [c] is one of the characters of [cs]. *)
Definition one_of (cs : string) (c : ascii) : bool :=
  match index_of c cs with Some _ => true | None => false end.

(** The longest initial run of characters satisfying [f]. *)
Fixpoint take_while (f : ascii -> bool) (s : string) : string :=
  match s with
  | String c r => if f c then String c (take_while f r) else EmptyString
  | EmptyString => EmptyString
  end.

(** A line feed, as a string. *)
Definition newline_text : string := String "010" "".

(** [s.padStart(n, "0")]. *)
Fixpoint zeros (n : nat) : string :=
  match n with O => EmptyString | S n => String "0" (zeros n) end.
Definition padStart (n : nat) (s : string) : string := (zeros (n - String.length s) +:+ s)%string.

Lemma str_forallb_app f a b : str_forallb f (a +:+ b)%string = str_forallb f a && str_forallb f b.
Proof. induction a as [|c a IH]; [done|]. rewrite str_app_cons. simpl. by rewrite IH, andb_assoc. Qed.

Lemma str_forallb_impl (f g : ascii -> bool) s :
  (forall c, f c = true -> g c = true) -> str_forallb f s = true -> str_forallb g s = true.
Proof.
  intros Hfg. induction s as [|c s IH]; simpl; [done|].
  intros [Hc Hs]%andb_true_iff. rewrite Hfg, IH; done.
Qed.

Lemma take_while_app f a c b : str_forallb f a = true -> f c = false ->
  take_while f (a +:+ String c b)%string = a.
Proof.
  intros Ha Hc. induction a as [|d a IH]; [rewrite str_app_nil_l; simpl; by rewrite Hc|].
  simpl in Ha. apply andb_true_iff in Ha as [Hd Ha]. rewrite str_app_cons. simpl. by rewrite Hd, IH.
Qed.

Lemma index_of_None_forallb c s : index_of c s = None <-> str_forallb (fun d => negb (Ascii.eqb c d)) s = true.
Proof.
  induction s as [|d s IH]; simpl; [done|]. destruct (Ascii.eqb c d); simpl; [done|].
  rewrite <- IH. by destruct (index_of c s).
Qed.

(** Splitting at the first separator. *)
Lemma index_of_split c s i :
  index_of c s = Some i ->
  s = (str_take i s +:+ String c (str_drop (S i) s))%string /\ index_of c (str_take i s) = None.
Proof.
  revert i. induction s as [|d s IH]; intros i; simpl; [done|].
  destruct (Ascii.eqb_spec c d) as [->|Hne].
  - by intros [= <-].
  - destruct (index_of c s) as [j|] eqn:Hj; simpl; [|done]. intros [= <-].
    destruct (IH j eq_refl) as [H1 H2]. simpl. rewrite str_app_cons. split; [by f_equal|].
    destruct (Ascii.eqb_spec c d); [done|]. by rewrite H2.
Qed.

Lemma index_of_lt c s i : index_of c s = Some i -> (i < String.length s)%nat.
Proof.
  revert i. induction s as [|d s IH]; intros i; simpl; [done|].
  destruct (Ascii.eqb c d); [intros [= <-]; lia|].
  destruct (index_of c s) as [j|]; simpl; [|done]. intros [= <-]. specialize (IH j eq_refl). lia.
Qed.

Lemma str_drop_empty n s : str_drop n s = EmptyString -> (String.length s <= n)%nat.
Proof.
  revert s. induction n as [|n IH]; intros [|c s]; simpl; try lia; [done|]. intros Hd.
  specialize (IH s Hd). lia.
Qed.

Lemma index_of_app_sep c a b : index_of c a = None -> index_of c (a +:+ String c b)%string = Some (String.length a).
Proof.
  induction a as [|d a IH]; intros Ha.
  - rewrite str_app_nil_l. simpl. by rewrite Ascii.eqb_refl.
  - rewrite str_app_cons. simpl in Ha |- *. destruct (Ascii.eqb c d); [done|].
    rewrite IH; [done|]. by destruct (index_of c a).
Qed.

Lemma str_take_app a b : str_take (String.length a) (a +:+ b)%string = a.
Proof. induction a as [|c a IH]; [by destruct b|]. rewrite str_app_cons. simpl. by rewrite IH. Qed.

Lemma str_take_length n s : (n <= String.length s)%nat -> String.length (str_take n s) = n.
Proof.
  revert s. induction n as [|n IH]; intros [|c s] Hn; simpl in *; try done; [lia|]. rewrite IH; [done|lia].
Qed.

Lemma str_drop_app a b : str_drop (String.length a) (a +:+ b)%string = b.
Proof. induction a as [|c a IH]; [done|]. rewrite str_app_cons. simpl. done. Qed.

Lemma starts_with_iff p s : starts_with p s = true <-> exists b, s = (p +:+ b)%string.
Proof.
  revert s. induction p as [|a p IH]; intros s; simpl.
  - split; [|done]. intros _. exists s. by rewrite str_app_nil_l.
  - destruct s as [|b s]; simpl.
    + split; [done|]. intros [b Hb]. by rewrite str_app_cons in Hb.
    + rewrite andb_true_iff, IH. split.
      * intros [->%Ascii.eqb_eq [r ->]]. exists r. by rewrite str_app_cons.
      * intros [r Hr]. rewrite str_app_cons in Hr. injection Hr as -> ->.
        rewrite Ascii.eqb_refl. eauto.
Qed.

Lemma starts_with_app p b : starts_with p (p +:+ b)%string = true.
Proof. apply starts_with_iff. by exists b. Qed.

Lemma rev_app_acc s acc : String.rev_app s acc = (String.rev s +:+ acc)%string.
Proof.
  unfold String.rev. revert acc. induction s as [|c s IH]; intros acc; simpl; [done|].
  rewrite IH, (IH (String c "")), <- str_app_assoc. by rewrite str_app_cons, str_app_nil_l.
Qed.

Lemma rev_cons c s : String.rev (String c s) = (String.rev s +:+ String c "")%string.
Proof. unfold String.rev at 1. simpl. apply rev_app_acc. Qed.

Lemma rev_app a b : String.rev (a +:+ b)%string = (String.rev b +:+ String.rev a)%string.
Proof.
  induction a as [|c a IH]; [by rewrite str_app_nil_l, str_app_nil_r|].
  by rewrite str_app_cons, !rev_cons, IH, str_app_assoc.
Qed.

Lemma str_forallb_rev f s : str_forallb f (String.rev s) = str_forallb f s.
Proof.
  induction s as [|c s IH]; [done|]. rewrite rev_cons, str_forallb_app, IH. cbn. by rewrite andb_true_r, andb_comm.
Qed.

Lemma rev_involutive s : String.rev (String.rev s) = s.
Proof. induction s as [|c s IH]; [done|]. by rewrite rev_cons, rev_app, IH. Qed.

Lemma ends_with_iff p s : ends_with p s = true <-> exists a, s = (a +:+ p)%string.
Proof.
  unfold ends_with. rewrite starts_with_iff. split.
  - intros [b Hb]. exists (String.rev b).
    by rewrite <- (rev_involutive s), Hb, rev_app, rev_involutive.
  - intros [a ->]. exists (String.rev a). apply rev_app.
Qed.

(** A separator that the prefixes do not contain splits a string in one way. *)
Lemma sep_inj c a a' b b' :
  index_of c a = None -> index_of c a' = None ->
  (a +:+ String c b)%string = (a' +:+ String c b')%string -> a = a' /\ b = b'.
Proof.
  revert a'. induction a as [|d a IH]; intros [|d' a'] Ha Ha' Heq; simpl in Ha, Ha';
    rewrite ?str_app_cons, ?str_app_nil_l in Heq.
  - by injection Heq.
  - injection Heq as <- _. by rewrite Ascii.eqb_refl in Ha'.
  - injection Heq as -> _. by rewrite Ascii.eqb_refl in Ha.
  - injection Heq as -> Heq. destruct (Ascii.eqb c d'); [done|].
    destruct (IH a') as [-> ->]; [by destruct (index_of c a)|by destruct (index_of c a')|done|done].
Qed.

(** Splitting and joining. *)
Lemma split_on_sep c a b :
  index_of c a = None -> split_on c (a +:+ String c b)%string = a :: split_on c b.
Proof.
  induction a as [|d a IH]; intros Ha.
  - rewrite str_app_nil_l. simpl. by rewrite Ascii.eqb_refl.
  - rewrite str_app_cons. simpl in Ha |- *. destruct (Ascii.eqb c d); [done|].
    rewrite IH; [done|]. by destruct (index_of c a).
Qed.

Lemma split_on_not_nil c s : split_on c s <> [].
Proof. destruct s as [|d s]; simpl; [done|]. destruct (Ascii.eqb c d); [done|]. by destruct (split_on c s). Qed.

Lemma split_on_app c a b :
  split_on c (a +:+ String c b)%string = split_on c a ++ split_on c b.
Proof.
  induction a as [|d a IH].
  - rewrite str_app_nil_l. simpl. by rewrite Ascii.eqb_refl.
  - rewrite str_app_cons. simpl. destruct (Ascii.eqb c d); [by rewrite IH|].
    rewrite IH. pose proof (split_on_not_nil c a). by destruct (split_on c a).
Qed.

Lemma split_on_none c a : index_of c a = None -> split_on c a = [a].
Proof.
  induction a as [|d a IH]; intros Ha; [done|]. simpl in Ha |- *.
  destruct (Ascii.eqb c d); [done|]. rewrite IH; [done|]. by destruct (index_of c a).
Qed.

Lemma join_cons2 sep a b ws : join sep (a :: b :: ws) = (a +:+ sep +:+ join sep (b :: ws))%string.
Proof. done. Qed.

Lemma split_on_join c ws :
  ws <> [] -> Forall (fun w => index_of c w = None) ws ->
  split_on c (join (String c "") ws) = ws.
Proof.
  intros Hne. induction ws as [|a [|b ws] IH]; [done| |]; intros [Ha Hws]%Forall_cons.
  - by apply split_on_none.
  - rewrite join_cons2, str_app_cons, str_app_nil_l, split_on_sep by done. by rewrite IH.
Qed.

Lemma join_snoc_empty sep ws : ws <> [] -> join sep (ws ++ [EmptyString]) = (join sep ws +:+ sep)%string.
Proof.
  induction ws as [|w [|w' ws] IH]; intros Hne; [done| |].
  - cbn [app]. rewrite join_cons2. simpl. by rewrite str_app_nil_r.
  - cbn [app] in *. rewrite !join_cons2, IH by done. by rewrite !str_app_assoc.
Qed.

Lemma join_split c s : join (String c "") (split_on c s) = s.
Proof.
  induction s as [|d s IH]; [done|]. cbn [split_on].
  destruct (Ascii.eqb_spec c d) as [<-|_].
  - pose proof (split_on_not_nil c s). destruct (split_on c s) as [|w ws]; [done|].
    by rewrite join_cons2, str_app_nil_l, str_app_cons, str_app_nil_l, IH.
  - destruct (split_on c s) as [|w [|w' ws]]; [by rewrite <- IH| |].
    + simpl in IH |- *. by f_equal.
    + rewrite join_cons2 in IH |- *. by rewrite str_app_cons, IH.
Qed.

(** Text without white space at either end is not changed by [trim]. *)
Lemma trim_end_id a d : is_space d = false -> trim_end (a +:+ String d "")%string = (a +:+ String d "")%string.
Proof.
  intros Hd. induction a as [|c a IH]; [rewrite str_app_nil_l; simpl; by rewrite Hd|].
  rewrite str_app_cons. simpl. rewrite IH. by destruct a.
Qed.

Lemma trim_id s c r a d :
  s = String c r -> is_space c = false -> s = (a +:+ String d "")%string -> is_space d = false ->
  trim s = s.
Proof.
  intros Hs Hc Ha Hd. unfold trim. rewrite Hs at 1. simpl. rewrite Hc, <- Hs, Ha.
  by apply trim_end_id.
Qed.

Lemma trim_end_cons c s : is_space c = false -> trim_end (String c s) = String c (trim_end s).
Proof. intros Hc. simpl. rewrite Hc. by destruct (trim_end s). Qed.

Lemma trim_end_idem s : trim_end (trim_end s) = trim_end s.
Proof.
  induction s as [|c s IH]; [done|]. simpl. destruct (trim_end s) as [|d r] eqn:Hs.
  - destruct (is_space c) eqn:Hc; [done|]. simpl. by rewrite Hc.
  - change (trim_end (String c (String d r))) with (match trim_end (String d r) with
      | EmptyString => if is_space c then EmptyString else String c EmptyString | r' => String c r' end).
    by rewrite IH.
Qed.

Lemma trim_start_head s c r : trim_start s = String c r -> is_space c = false.
Proof.
  induction s as [|d s IH]; simpl; [done|]. destruct (is_space d) eqn:Hd; [done|]. by intros [= <- _].
Qed.

Lemma trim_idem s : trim (trim s) = trim s.
Proof.
  unfold trim. destruct (trim_start s) as [|c r] eqn:Hs; [done|].
  pose proof (trim_start_head s c r Hs) as Hc. rewrite trim_end_cons by done.
  cbn [trim_start]. rewrite Hc, trim_end_cons by done. by rewrite trim_end_idem.
Qed.

(** Only white space trims to nothing. *)
Lemma trim_start_empty s : trim_start s = EmptyString -> str_forallb is_space s = true.
Proof. induction s as [|c s IH]; simpl; [done|]. by destruct (is_space c). Qed.

Lemma trim_end_empty s : trim_end s = EmptyString -> str_forallb is_space s = true.
Proof.
  induction s as [|c s IH]; simpl; [done|]. destruct (trim_end s); [|done].
  destruct (is_space c); [by rewrite IH|done].
Qed.

Lemma trim_start_forallb f s : str_forallb f (trim_start s) = true ->
  (forall c, is_space c = true -> f c = true) -> str_forallb f s = true.
Proof.
  intros Hs Hf. induction s as [|c s IH]; simpl in *; [done|].
  destruct (is_space c) eqn:Hc; [by rewrite Hf, IH|done].
Qed.

Lemma trim_empty s : trim s = EmptyString -> str_forallb is_space s = true.
Proof. intros H%trim_end_empty. by eapply trim_start_forallb. Qed.

Lemma trim_end_forallb f s : str_forallb f s = true -> str_forallb f (trim_end s) = true.
Proof.
  induction s as [|c s IH]; [done|]. simpl. intros [Hc Hs]%andb_true_iff. specialize (IH Hs).
  destruct (trim_end s); [destruct (is_space c); [done|]; simpl; by rewrite Hc|]. simpl in *. by rewrite Hc.
Qed.

Lemma trim_forallb f s : str_forallb f s = true -> str_forallb f (trim s) = true.
Proof.
  intros Hs. apply trim_end_forallb. induction s as [|c s IH]; [done|]. simpl in *.
  apply andb_true_iff in Hs as [Hc Hs]. destruct (is_space c); [by apply IH|]. simpl. by rewrite Hc.
Qed.

Lemma trim_nonempty a c b : is_space c = false -> is_empty (trim (a +:+ String c b)%string) = false.
Proof.
  intros Hc. destruct (trim (a +:+ String c b)%string) eqn:Ht; [|done].
  apply trim_empty in Ht. rewrite str_forallb_app in Ht. simpl in Ht.
  rewrite Hc in Ht. by destruct (str_forallb is_space a).
Qed.

(** [Buffer.byteLength(s, "utf8")]: one byte below U+0080, two below U+0100. *)
Fixpoint utf8_byte_length (s : string) : Z :=
  match s with
  | EmptyString => 0
  | String c r => (if (code c <? 128)%N then 1 else 2) + utf8_byte_length r
  end.

(** ** Numbers

    A JavaScript number is a double: NaN, an infinity or a dyadic rational
    [m * 2^e].  The doubles are among the values of [num]; counters, sizes and
    clock readings, which the program keeps integral, are plain [Z]. *)

Inductive num : Type :=
| NaN
| Inf (negative : bool)
| Fin (m e : Z).

#[export] Instance num_eq_dec : EqDecision num.
Proof. solve_decision. Defined.

Abbreviation num_of_Z z := (Fin z 0).

(** [Number.isInteger] and the integer denoted. *)
Definition num_to_Z (n : num) : option Z :=
  match n with
  | Fin m e =>
      if 0 <=? e then Some (m * 2 ^ e)
      else if m mod 2 ^ (- e) =? 0 then Some (m / 2 ^ (- e)) else None
  | _ => None
  end.

Definition max_safe_integer : Z := 2 ^ 53 - 1.

(** [Number.isSafeInteger], with the integer denoted. *)
Definition num_safe_integer (n : num) : option Z :=
  match num_to_Z n with
  | Some z => if Z.abs z <=? max_safe_integer then Some z else None
  | None => None
  end.

(** Numeric equality [a === b] against an integer. *)
Definition num_is_Z (n : num) (z : Z) : bool :=
  match num_to_Z n with Some k => k =? z | None => false end.

(** Rounding of an integer to the nearest double, ties to even; [None] is an
    infinity. *)
Definition round_to_double (z : Z) : option Z :=
  let n := Z.abs z in
  let e := Z.log2 n - 52 in
  let r :=
    if e <=? 0 then n
    else
      let q := n / 2 ^ e in
      let d := 2 * (n mod 2 ^ e) in
      (if (d <? 2 ^ e) || ((d =? 2 ^ e) && Z.even q) then q else q + 1) * 2 ^ e in
  if r <? 2 ^ 1024 then Some (Z.sgn z * r) else None.

(** Comparison with an integer bound; NaN compares false. *)
Definition num_lt_Z (n : num) (z : Z) : bool :=
  match n with
  | NaN => false
  | Inf negative => negative
  | Fin m e => if 0 <=? e then m * 2 ^ e <? z else m <? z * 2 ^ (- e)
  end.
Definition num_gt_Z (n : num) (z : Z) : bool :=
  match n with
  | NaN => false
  | Inf negative => negb negative
  | Fin m e => if 0 <=? e then z <? m * 2 ^ e else z * 2 ^ (- e) <? m
  end.

(** Multiplication by an integer, exact while the result stays below [2^53]. *)
Definition num_times (n : num) (z : Z) : num :=
  match n with Fin m e => Fin (m * z) e | _ => n end.

(** [Math.trunc] of a finite number. *)
Definition trunc (m e : Z) : Z := if 0 <=? e then m * 2 ^ e else Z.quot m (2 ^ (- e)).

Definition digit_of (c : ascii) : option Z :=
  let n := code c in
  if ((48 <=? n) && (n <=? 57))%N then Some (Z.of_N n - 48) else None.

Definition is_digit (c : ascii) : bool :=
  match digit_of c with Some _ => true | None => false end.

(** The longest prefix of decimal digits, as a number; [None] when empty. *)
Fixpoint read_digits (acc : option Z) (s : string) : option Z :=
  match s with
  | String c r =>
      match digit_of c with
      | Some d => read_digits (Some (default 0 acc * 10 + d)) r
      | None => acc
      end
  | EmptyString => acc
  end.

(** [Number.parseInt(s, 10)] before rounding; [None] is NaN. *)
Definition parse_int_exact (s : string) : option Z :=
  match trim_start s with
  | String "-" r => Z.opp <$> read_digits None r
  | String "+" r => read_digits None r
  | r => read_digits None r
  end%char.

Definition parse_int (s : string) : num :=
  match parse_int_exact s with
  | None => NaN
  | Some z =>
      match round_to_double z with
      | Some r => num_of_Z r
      | None => Inf (z <? 0)
      end
  end.

(** [String(n)] for an integer below [10^21]: its decimal notation. *)
Definition int_to_string (n : Z) : string := pretty n.

Lemma digit_of_pretty m : (m < 10)%N -> digit_of (pretty_N_char m) = Some (Z.of_N m).
Proof.
  intros Hm.
  assert (Hmm : (m = 0 \/ m = 1 \/ m = 2 \/ m = 3 \/ m = 4 \/ m = 5 \/ m = 6 \/ m = 7 \/ m = 8 \/ m = 9)%N)
    by lia.
  by repeat destruct Hmm as [->|Hmm]; subst.
Qed.

Lemma read_digits_go x s : (0 < x)%N ->
  read_digits (Some 0) (pretty_N_go x s) = read_digits (Some (Z.of_N x)) s.
Proof.
  revert s. induction (N.lt_wf_0 x) as [x _ IH]; intros s Hx.
  rewrite pretty_N_go_step by done.
  assert (Hd : forall a, read_digits (Some a) (String (pretty_N_char (x `mod` 10)) s) =
      read_digits (Some (a * 10 + Z.of_N (x `mod` 10))) s).
  { intros a. simpl. by rewrite digit_of_pretty by (by apply N.mod_lt). }
  destruct (decide (x < 10)%N) as [Hs|Hb].
  - rewrite (N.div_small x 10) by done. rewrite pretty_N_go_0, Hd.
    by rewrite N.mod_small.
  - rewrite IH.
    + rewrite Hd. do 2 f_equal.
      pose proof (N.div_mod x 10). lia.
    + by apply N.div_lt.
    + apply N.div_str_pos. lia.
Qed.

Lemma pretty_go_head x s : (0 < x)%N ->
  exists c r d, pretty_N_go x s = String c r /\ digit_of c = Some d.
Proof.
  revert s. induction (N.lt_wf_0 x) as [x _ IH]; intros s Hx.
  rewrite pretty_N_go_step by done. destruct (decide (x < 10)%N) as [Hs|Hb].
  - rewrite (N.div_small x 10) by done. rewrite pretty_N_go_0.
    eexists _, _, _. split; [done|]. apply digit_of_pretty. by apply N.mod_lt.
  - apply IH; [by apply N.div_lt|apply N.div_str_pos; lia].
Qed.

(** The printed form of a non-negative integer starts with a digit and reads back. *)
Lemma int_to_string_head n : 0 <= n ->
  exists c r d, int_to_string n = String c r /\ digit_of c = Some d.
Proof.
  intros Hn. unfold int_to_string, pretty, pretty_Z.
  destruct n as [|n|n]; [by exists "0"%char, EmptyString, 0| |lia].
  unfold pretty, pretty_positive, pretty, pretty_N. case_decide; [done|]. by apply pretty_go_head.
Qed.

Lemma read_digits_head s c r d : s = String c r -> digit_of c = Some d ->
  read_digits None s = read_digits (Some 0) s.
Proof. intros -> Hc. simpl. by rewrite Hc. Qed.

Lemma parse_int_exact_to_string n : 0 <= n -> parse_int_exact (int_to_string n) = Some n.
Proof.
  intros Hn. destruct (int_to_string_head n Hn) as (c & r & d & Heq & Hd).
  assert (Hr : read_digits None (int_to_string n) = Some n).
  { rewrite (read_digits_head _ _ _ _ Heq Hd). unfold int_to_string, pretty, pretty_Z.
    destruct n as [|n|n]; [done| |lia]. unfold pretty, pretty_positive, pretty, pretty_N. case_decide; [done|].
    by rewrite read_digits_go. }
  unfold parse_int_exact. rewrite Heq in *.
  assert (Hs : is_space c = false /\ c <> "-"%char /\ c <> "+"%char).
  { clear Heq Hr. by destruct c as [[] [] [] [] [] [] [] []]. }
  destruct Hs as (Hs & Hm & Hp). cbn [trim_start]. rewrite Hs.
  rewrite <- Hr. clear -Hm Hp. by destruct c as [[] [] [] [] [] [] [] []].
Qed.

Lemma pretty_go_digits x s : str_forallb is_digit s = true -> str_forallb is_digit (pretty_N_go x s) = true.
Proof.
  revert s. induction (N.lt_wf_0 x) as [x _ IH]; intros s Hs.
  destruct (decide (x = 0)%N) as [->|Hx]; [by rewrite pretty_N_go_0|].
  rewrite pretty_N_go_step by lia. apply IH; [apply N.div_lt; lia|].
  cbn [str_forallb]. rewrite Hs, andb_true_r. unfold is_digit.
  rewrite digit_of_pretty; [done|]. by apply N.mod_lt.
Qed.

Lemma int_to_string_digits k : 0 <= k -> str_forallb is_digit (int_to_string k) = true.
Proof.
  intros Hk. unfold int_to_string, pretty, pretty_Z. destruct k as [|k|k]; [done| |lia].
  unfold pretty, pretty_positive, pretty, pretty_N. case_decide; [done|]. by apply pretty_go_digits.
Qed.

Lemma trim_nospace s : str_forallb (fun c => negb (is_space c)) s = true -> trim s = s.
Proof.
  intros Hs. destruct s as [|c r]; [done|].
  assert (Hend : exists a d, String c r = (a +:+ String d "")%string).
  { clear. revert c. induction r as [|d r IH]; intros c; [by exists EmptyString, c|].
    destruct (IH d) as (a & e & ->). exists (String c a), e. by rewrite str_app_cons. }
  destruct Hend as (a & d & Hd). pose proof Hs as Hs'. rewrite Hd, str_forallb_app in Hs'.
  simpl in Hs, Hs'. rewrite !andb_true_iff, !negb_true_iff in *.
  eapply trim_id; [done|apply Hs|done|apply Hs'].
Qed.

Lemma round_to_double_small n : 0 <= n <= max_safe_integer -> round_to_double n = Some n.
Proof.
  unfold max_safe_integer. intros Hn. unfold round_to_double.
  rewrite Z.abs_eq by lia.
  assert (Hl : Z.log2 n <= 52).
  { destruct (decide (n = 0)) as [->|]; [done|]. assert (Z.log2 n < 53); [|lia].
    apply Z.log2_lt_pow2; lia. }
  destruct (Z.leb_spec (Z.log2 n - 52) 0); [|lia].
  destruct (Z.ltb_spec n (2 ^ 1024)) as [_|Hb].
  - f_equal. destruct n; simpl; lia.
  - assert (2 ^ 53 <= 2 ^ 1024) by (apply Z.pow_le_mono_r; lia). lia.
Qed.

Lemma parse_int_to_string n : 0 <= n <= max_safe_integer -> parse_int (int_to_string n) = num_of_Z n.
Proof.
  intros Hn. unfold parse_int. rewrite parse_int_exact_to_string by lia.
  by rewrite round_to_double_small.
Qed.

Lemma num_to_Z_int z : num_to_Z (num_of_Z z) = Some z.
Proof. simpl. by rewrite Z.mul_1_r. Qed.

Lemma num_safe_integer_Some n z :
  num_safe_integer n = Some z <-> num_to_Z n = Some z /\ Z.abs z <= max_safe_integer.
Proof.
  unfold num_safe_integer. destruct (num_to_Z n) as [k|]; [|naive_solver].
  destruct (Z.leb_spec (Z.abs k) max_safe_integer); naive_solver lia.
Qed.

Lemma num_safe_integer_int z :
  Z.abs z <= max_safe_integer -> num_safe_integer (num_of_Z z) = Some z.
Proof. intros. apply num_safe_integer_Some. by rewrite num_to_Z_int. Qed.

Lemma num_is_Z_int a b : num_is_Z (num_of_Z a) b = (a =? b).
Proof. unfold num_is_Z. by rewrite num_to_Z_int. Qed.

Lemma num_lt_Z_int a z : num_lt_Z (num_of_Z a) z = (a <? z).
Proof. simpl. by rewrite Z.mul_1_r. Qed.

Lemma num_gt_Z_int a z : num_gt_Z (num_of_Z a) z = (z <? a).
Proof. simpl. by rewrite Z.mul_1_r. Qed.

#[global] Arguments num_to_Z : simpl never.
#[global] Arguments num_safe_integer : simpl never.
#[global] Arguments num_is_Z : simpl never.
#[global] Arguments parse_int : simpl never.
Create HintDb js discriminated.
#[export] Hint Resolve num_to_Z_int num_safe_integer_int : js.
#[export] Hint Rewrite num_to_Z_int num_is_Z_int : js.

(** ** Values of unknown type *)

Inductive jsval : Type :=
| JUndefined
| JNull
| JBool (b : bool)
| JNum (n : num)
| JStr (s : string)
| JArr (l : list jsval)
| JObj (fields : list (string * jsval)).

Abbreviation JInt z := (JNum (num_of_Z z)).

Definition is_record (v : jsval) : bool :=
  match v with JObj _ => true | _ => false end.

(** [Boolean(v)]. *)
Definition truthy (v : jsval) : bool :=
  match v with
  | JUndefined | JNull => false
  | JBool b => b
  | JNum n => match n with NaN => false | _ => negb (num_is_Z n 0) end
  | JStr s => negb (is_empty s)
  | JArr _ | JObj _ => true
  end.

Definition is_array (v : jsval) : bool :=
  match v with JArr _ => true | _ => false end.

(** Property reads: own fields by name, [undefined] when absent. *)
Fixpoint field (k : string) (fields : list (string * jsval)) : jsval :=
  match fields with
  | [] => JUndefined
  | (k', v) :: fields => if decide (k = k') then v else field k fields
  end.

(** A pane row as the runtime adapters hand it to the server: an object with
    fields of unknown type. *)
Abbreviation pane_row := (list (string * jsval)).

Definition str_or (d : string) (v : jsval) : string :=
  match v with JStr s => s | _ => d end.

(** ** Lists *)

(** The first element that satisfies [p]: there is none, or one place to split at. *)
Lemma first_split {A} (p : A -> bool) l :
  Forall (fun x => p x = false) l \/
  exists pre x post, l = pre ++ x :: post /\ Forall (fun y => p y = false) pre /\ p x = true.
Proof.
  induction l as [|x l IH]; [by left; constructor|]. destruct (p x) eqn:Hx.
  - right. exists [], x, l. split_and!; [done|constructor|done].
  - destruct IH as [IH|(pre & y & post & -> & Hpre & Hy)].
    + left. by constructor.
    + right. exists (x :: pre), y, post. split_and!; [done| |done]. by constructor.
Qed.

Lemma first_split_unique {A} (p : A -> bool) pre x post pre' x' post' :
  pre ++ x :: post = pre' ++ x' :: post' ->
  Forall (fun y => p y = false) pre -> Forall (fun y => p y = false) pre' ->
  p x = true -> p x' = true -> pre = pre' /\ x = x' /\ post = post'.
Proof.
  revert pre'. induction pre as [|d pre IH]; intros [|d' pre'] [= <- Hs] Hp Hp' Hx Hx'; try done.
  - apply Forall_cons in Hp' as [? _]. congruence.
  - apply Forall_cons in Hp as [? _]. congruence.
  - apply Forall_cons in Hp as [_ Hp], Hp' as [_ Hp'].
    by destruct (IH _ Hs Hp Hp' Hx Hx') as (-> & -> & ->).
Qed.

Section ListFacts.
Context {A : Type}.
Implicit Types l : list A.

Lemma filter_all (P : A -> Prop) `{!forall x, Decision (P x)} l :
  Forall P l -> filter P l = l.
Proof.
  induction 1; [done|]. rewrite filter_cons, decide_True by done. by f_equal.
Qed.

Lemma filter_none (P : A -> Prop) `{!forall x, Decision (P x)} l :
  Forall (fun x => ~ P x) l -> filter P l = [].
Proof.
  induction 1; [done|]. rewrite filter_cons, decide_False by done. done.
Qed.

Lemma list_filter_iff_in (P Q : A -> Prop) `{!forall x, Decision (P x), !forall x, Decision (Q x)} l :
  (forall x, x ∈ l -> P x <-> Q x) -> filter P l = filter Q l.
Proof.
  induction l as [|x l IH]; intros HPQ; [done|]. rewrite !filter_cons.
  rewrite IH by (intros; apply HPQ; set_solver).
  destruct (decide (P x)) as [HP|HP].
  - rewrite decide_True by (apply HPQ; set_solver). done.
  - rewrite decide_False by (rewrite <- HPQ; set_solver). done.
Qed.

Lemma Forall_filter_l (P Q : A -> Prop) `{!forall x, Decision (P x)} l :
  Forall Q l -> Forall Q (filter P l).
Proof.
  rewrite !Forall_forall. intros HQ x Hx%list_elem_of_filter. naive_solver.
Qed.

Lemma StronglySorted_filter (R : A -> A -> Prop) (P : A -> Prop)
    `{!forall x, Decision (P x)} l :
  StronglySorted R l -> StronglySorted R (filter P l).
Proof.
  induction 1; [constructor|]. rewrite filter_cons. case_decide; [|done].
  constructor; auto using Forall_filter_l.
Qed.

Lemma StronglySorted_weaken (R R' : A -> A -> Prop) l :
  (forall x y, R x y -> R' x y) -> StronglySorted R l -> StronglySorted R' l.
Proof.
  intros HR. induction 1 as [|x l Hs IH Hall]; constructor; [done|].
  eapply Forall_impl; [exact Hall|]. auto.
Qed.

Lemma StronglySorted_snoc (R : A -> A -> Prop) l x :
  StronglySorted R l -> Forall (fun y => R y x) l -> StronglySorted R (l ++ [x]).
Proof.
  induction 1 as [|y l Hs IH Hall]; intros Hx; simpl; [repeat constructor|].
  apply Forall_cons in Hx as [? ?]. constructor; [by auto|].
  apply Forall_app; auto.
Qed.
End ListFacts.

(** The last [n] elements. *)
Definition lastn {A} (n : nat) (l : list A) : list A := drop (length l - n) l.

Lemma lastn_length {A} n (l : list A) : length (lastn n l) = (n `min` length l)%nat.
Proof. unfold lastn. rewrite length_drop. lia. Qed.

Lemma lastn_snoc {A} n (l : list A) x :
  lastn n (l ++ [x]) =
    (if bool_decide (n < length (lastn n l ++ [x]))%nat then tail else id) (lastn n l ++ [x]).
Proof.
  rewrite length_app, lastn_length. unfold lastn. rewrite length_app. simpl.
  assert (Happ : drop (length l - n) l ++ [x] = drop (length l - n) (l ++ [x]))
    by by rewrite drop_app_le by lia.
  assert (Htail : forall m : list A, tail m = drop 1 m) by by intros [].
  rewrite Happ. case_bool_decide as H; simpl; [|f_equal; lia].
  rewrite Htail, drop_drop. f_equal. lia.
Qed.

(** ** Sorting

    [l.sort(cmp)] is stable; on a consistent comparator any stable sort computes
    the same list, and insertion is the simplest. *)

Section JsSort.
Context {A : Type} (cmp : A -> A -> Z).

Fixpoint sort_insert (x : A) (l : list A) : list A :=
  match l with
  | [] => [x]
  | y :: l' => if cmp x y <=? 0 then x :: l else y :: sort_insert x l'
  end.

Fixpoint js_sort (l : list A) : list A :=
  match l with
  | [] => []
  | x :: l => sort_insert x (js_sort l)
  end.

Lemma sort_insert_perm x l : sort_insert x l ≡ₚ x :: l.
Proof.
  induction l as [|y l IH]; simpl; [done|]. case_match; [done|].
  rewrite IH. by constructor.
Qed.

Lemma js_sort_perm l : js_sort l ≡ₚ l.
Proof. induction l as [|x l IH]; simpl; [done|]. by rewrite sort_insert_perm, IH. Qed.

Context (cmp_trans : forall x y z, cmp x y <= 0 -> cmp y z <= 0 -> cmp x z <= 0).
Context (cmp_total : forall x y, cmp x y <= 0 \/ cmp y x <= 0).

Lemma sort_insert_sorted x l :
  StronglySorted (fun a b => cmp a b <= 0) l ->
  StronglySorted (fun a b => cmp a b <= 0) (sort_insert x l).
Proof.
  induction 1 as [|y l Hs IH Hall]; simpl; [repeat constructor|].
  destruct (Z.leb_spec (cmp x y) 0).
  - constructor; [by constructor|]. constructor; [done|].
    eapply Forall_impl; [done|]. simpl. eauto.
  - constructor; [done|]. rewrite sort_insert_perm. constructor; [|done].
    destruct (cmp_total x y); [lia|done].
Qed.

Lemma js_sort_sorted l : StronglySorted (fun a b => cmp a b <= 0) (js_sort l).
Proof. induction l; simpl; [constructor|by apply sort_insert_sorted]. Qed.

Lemma js_sort_id l : StronglySorted (fun a b => cmp a b <= 0) l -> js_sort l = l.
Proof.
  induction 1 as [|x l Hs IH Hall]; simpl; [done|]. rewrite IH.
  destruct l as [|y l]; simpl; [done|].
  apply Forall_cons in Hall as [Hxy _].
  by rewrite (proj2 (Z.leb_le _ _)).
Qed.
End JsSort.

(** The order of strings: by code units. *)
Fixpoint str_order (a b : string) : Z :=
  match a, b with
  | EmptyString, EmptyString => 0
  | EmptyString, _ => -1
  | _, EmptyString => 1
  | String c r, String d s =>
      if (code c <? code d)%N then -1 else if (code d <? code c)%N then 1 else str_order r s
  end.

Lemma str_order_refl a : str_order a a = 0.
Proof. induction a as [|c a IH]; [done|]. simpl. by rewrite N.ltb_irrefl. Qed.

Lemma str_order_antisym a b : str_order a b <= 0 -> str_order b a <= 0 -> a = b.
Proof.
  revert b. induction a as [|c a IH]; intros [|d b]; simpl; try done.
  destruct (N.ltb_spec (code c) (code d)), (N.ltb_spec (code d) (code c)); try lia.
  intros Hab Hba. f_equal; [|by apply IH].
  assert (Hcd : code c = code d) by lia. rewrite <- (ascii_N_embedding c), <- (ascii_N_embedding d). by f_equal.
Qed.

Lemma str_order_total a b : str_order a b <= 0 \/ str_order b a <= 0.
Proof.
  revert b. induction a as [|c a IH]; intros [|d b]; simpl; [lia..|].
  destruct (N.ltb_spec (code c) (code d)), (N.ltb_spec (code d) (code c)); try lia. apply IH.
Qed.

Lemma str_order_trans a b c : str_order a b <= 0 -> str_order b c <= 0 -> str_order a c <= 0.
Proof.
  revert b c. induction a as [|x a IH]; intros [|y b] [|z c]; simpl; try lia.
  destruct (N.ltb_spec (code x) (code y)), (N.ltb_spec (code y) (code x)),
    (N.ltb_spec (code y) (code z)), (N.ltb_spec (code z) (code y)),
    (N.ltb_spec (code x) (code z)), (N.ltb_spec (code z) (code x)); try lia. by apply IH.
Qed.

(** Sorting strings forgets the order they came in. *)
Lemma js_sort_strings_perm l l' : l ≡ₚ l' -> js_sort str_order l = js_sort str_order l'.
Proof.
  intros Hp. apply (StronglySorted_unique_strong (fun a b => str_order a b <= 0)).
  - intros a b _ _. apply str_order_antisym.
  - apply js_sort_sorted; [apply str_order_trans|apply str_order_total].
  - apply js_sort_sorted; [apply str_order_trans|apply str_order_total].
  - by rewrite !js_sort_perm.
Qed.
