(* ===== verification/JsMap.v ===== *)
(** * Insertion-ordered maps and sets

    JavaScript's [Map] and [Set] iterate in insertion order, which the program
    observes (polling order, row order, eviction order), so they are modelled
    as association lists and lists rather than as [gmap] and [gset].  The
    lemmas give the usual lookup laws and the preservation of
    well-formedness (no key twice). *)

From S2P Require Import Prelude.

Section JsMap.
Context {K V : Type} `{EqDecision K}.
Implicit Types (m : list (K * V)) (k : K) (v : V).

(** [m.get(k)]. *)
Fixpoint jm_get k m : option V :=
  match m with
  | [] => None
  | (k', v) :: m => if decide (k = k') then Some v else jm_get k m
  end.

(** [m.has(k)]. *)
Definition jm_has k m : bool :=
  match jm_get k m with Some _ => true | None => false end.

(** [m.set(k, v)]: an existing key keeps its position. *)
Fixpoint jm_set k v m : list (K * V) :=
  match m with
  | [] => [(k, v)]
  | (k', v') :: m => if decide (k = k') then (k, v) :: m else (k', v') :: jm_set k v m
  end.

(** [m.delete(k)]. *)
Definition jm_delete k m : list (K * V) := filter (fun kv => kv.1 <> k) m.

(** Deleting, during iteration, every entry that satisfies a test. *)
Definition jm_delete_if (test : K -> V -> bool) m : list (K * V) :=
  filter (fun kv => test kv.1 kv.2 = false) m.

Definition jm_wf m : Prop := NoDup m.*1.

Lemma jm_get_In k v m : jm_get k m = Some v -> (k, v) ∈ m.
Proof.
  induction m as [|[k' v'] m IH]; simpl; [done|].
  case_decide; set_solver.
Qed.

Lemma jm_get_None k m : jm_get k m = None <-> k ∉ m.*1.
Proof.
  induction m as [|[k' v'] m IH]; simpl; [set_solver|].
  case_decide; set_solver.
Qed.

Lemma jm_In_get k v m : jm_wf m -> (k, v) ∈ m -> jm_get k m = Some v.
Proof.
  unfold jm_wf. induction m as [|[k' v'] m IH]; simpl; [set_solver|].
  intros [Hk Hnd]%NoDup_cons [[= -> ->]|Hin]%elem_of_cons; [by rewrite decide_True|].
  rewrite decide_False; [by auto|].
  intros ->. apply Hk, list_elem_of_fmap. by exists (k', v).
Qed.

Lemma jm_get_set_eq k v m : jm_get k (jm_set k v m) = Some v.
Proof.
  induction m as [|[k' v'] m IH]; simpl; [by rewrite decide_True|].
  case_decide; simpl; [by rewrite decide_True|by rewrite decide_False].
Qed.

Lemma jm_get_set_ne k k' v m : k <> k' -> jm_get k (jm_set k' v m) = jm_get k m.
Proof.
  intros Hne. induction m as [|[k'' v''] m IH]; simpl; [by rewrite decide_False|].
  case_decide as E; simpl; [subst k''; by rewrite !(decide_False (P := k = k'))|].
  by rewrite IH.
Qed.

Lemma jm_get_set k k' v m :
  jm_get k (jm_set k' v m) = if decide (k = k') then Some v else jm_get k m.
Proof. case_decide; subst; auto using jm_get_set_eq, jm_get_set_ne. Qed.

Lemma jm_get_delete k k' m :
  jm_get k (jm_delete k' m) = if decide (k = k') then None else jm_get k m.
Proof.
  unfold jm_delete. induction m as [|[k'' v''] m IH]; simpl; [by case_decide|].
  rewrite filter_cons. simpl.
  destruct (decide (k'' = k')) as [->|]; simpl.
  - rewrite (decide_False (P := k' <> k')) by naive_solver. rewrite IH.
    by repeat case_decide.
  - rewrite (decide_True (P := k'' <> k')) by done. simpl.
    destruct (decide (k = k'')) as [->|]; [by rewrite decide_False|done].
Qed.

Lemma jm_get_delete_if k test m :
  jm_wf m ->
  jm_get k (jm_delete_if test m) =
    v ← jm_get k m; if test k v then None else Some v.
Proof.
  unfold jm_wf, jm_delete_if. induction m as [|[k' v'] m IH]; simpl; [done|].
  intros [Hk Hnd]%NoDup_cons. specialize (IH Hnd). rewrite filter_cons. simpl.
  apply jm_get_None in Hk.
  destruct (test k' v') eqn:Ht; simpl; (destruct (decide (k = k')) as [->|]; simpl);
    rewrite ?Ht, ?IH, ?Hk; done.
Qed.

Lemma jm_set_keys k v m :
  (jm_set k v m).*1 = if decide (k ∈ m.*1) then m.*1 else m.*1 ++ [k].
Proof.
  induction m as [|[k' v'] m IH]; [done|]. cbn [jm_set].
  destruct (decide (k = k')) as [->|Hne]; csimpl.
  - rewrite decide_True by set_solver. done.
  - rewrite IH. destruct (decide (k ∈ m.*1)).
    + rewrite decide_True by set_solver. done.
    + rewrite decide_False by set_solver. done.
Qed.

Lemma jm_set_fresh k v m : jm_get k m = None -> jm_set k v m = m ++ [(k, v)].
Proof.
  rewrite jm_get_None. induction m as [|[k' v'] m IH]; simpl; [done|]. intros Hk.
  rewrite decide_False by set_solver. f_equal. apply IH. set_solver.
Qed.

Lemma jm_delete_fresh k m : jm_get k m = None -> jm_delete k m = m.
Proof.
  rewrite jm_get_None. intros Hk. apply filter_all, Forall_forall.
  intros [k' v'] Hin; simpl; intros ->. apply Hk, list_elem_of_fmap. by exists (k, v').
Qed.

Lemma jm_delete_set_fresh k v m : jm_get k m = None -> jm_delete k (jm_set k v m) = m.
Proof.
  intros Hk. rewrite jm_set_fresh by done. unfold jm_delete.
  rewrite filter_app, filter_cons, decide_False by naive_solver.
  rewrite app_nil_r. by apply jm_delete_fresh.
Qed.

Lemma jm_set_set k v v' m : jm_set k v' (jm_set k v m) = jm_set k v' m.
Proof.
  induction m as [|[k2 v2] m IH]; simpl; [by rewrite decide_True|].
  destruct (decide (k = k2)) as [->|Hne]; simpl; [by rewrite decide_True|].
  by rewrite decide_False, IH.
Qed.

Lemma jm_delete_set k v m : jm_delete k (jm_set k v m) = jm_delete k m.
Proof.
  unfold jm_delete. induction m as [|[k2 v2] m IH]; simpl.
  - rewrite filter_cons, decide_False by (simpl; tauto). done.
  - destruct (decide (k = k2)) as [->|Hne]; rewrite !filter_cons; simpl.
    + by rewrite !(decide_False (P := k2 <> k2)) by tauto.
    + rewrite !(decide_True (P := k2 <> k)) by done. by rewrite IH.
Qed.

Lemma jm_wf_nil : jm_wf [].
Proof. constructor. Qed.

Lemma jm_wf_set k v m : jm_wf m -> jm_wf (jm_set k v m).
Proof.
  unfold jm_wf. rewrite jm_set_keys. case_decide; [done|].
  intros. apply NoDup_app. split_and!; [done|set_solver|apply NoDup_singleton].
Qed.

Lemma jm_wf_filter (P : K * V -> Prop) `{forall x, Decision (P x)} m :
  jm_wf m -> jm_wf (filter P m).
Proof.
  unfold jm_wf. induction m as [|kv m IH]; simpl; [done|].
  intros [Hk Hnd]%NoDup_cons. rewrite filter_cons. case_decide; simpl; [|by auto].
  apply NoDup_cons. split; [|by auto].
  intros Hin. apply Hk. revert Hin. rewrite !list_elem_of_fmap.
  intros (x & -> & Hx). exists x. split; [done|].
  by apply list_elem_of_filter in Hx as [_ ?].
Qed.

Lemma jm_wf_delete k m : jm_wf m -> jm_wf (jm_delete k m).
Proof. apply jm_wf_filter. Qed.

Lemma jm_wf_delete_if test m : jm_wf m -> jm_wf (jm_delete_if test m).
Proof. apply jm_wf_filter. Qed.

Lemma jm_get_perm k m m' : jm_wf m -> m ≡ₚ m' -> jm_get k m = jm_get k m'.
Proof.
  intros Hwf Hp. assert (Hwf' : jm_wf m') by (unfold jm_wf in *; by rewrite <- Hp).
  destruct (jm_get k m) as [v|] eqn:Hk.
  - apply jm_get_In in Hk. rewrite Hp in Hk. symmetry. by apply jm_In_get.
  - symmetry. apply jm_get_None. apply jm_get_None in Hk. by rewrite <- Hp.
Qed.

(** A map filled row by row from rows with distinct keys. *)
Lemma jm_fill {A} (key : A -> K) (val : A -> V) rows m :
  NoDup (m.*1 ++ map key rows) ->
  foldl (fun m row => jm_set (key row) (val row) m) m rows =
    m ++ map (fun row => (key row, val row)) rows.
Proof.
  revert m. induction rows as [|row rows IH]; intros m Hnd; simpl; [by rewrite app_nil_r|].
  apply NoDup_app in Hnd as (Hm & Hdis & Hnd). simpl in Hnd.
  apply NoDup_cons in Hnd as [Hrow Hnd].
  assert (Hfresh : key row ∉ m.*1) by (intros Hin; apply (Hdis _ Hin); set_solver).
  rewrite jm_set_fresh by by apply jm_get_None. rewrite IH, <- app_assoc; [done|].
  rewrite fmap_app. simpl. apply NoDup_app. split_and!; [|set_solver|done].
  apply NoDup_app. split_and!; [done|set_solver|apply NoDup_singleton].
Qed.

Lemma jm_set_length k v m :
  length (jm_set k v m) = (length m + if jm_has k m then 0 else 1)%nat.
Proof.
  unfold jm_has. induction m as [|[k' v'] m IH]; simpl; [done|].
  destruct (decide (k = k')); simpl; [lia|]. rewrite IH. lia.
Qed.

Lemma jm_delete_length k v m :
  jm_wf m -> jm_get k m = Some v -> length m = S (length (jm_delete k m)).
Proof.
  unfold jm_wf. induction m as [|[k' v'] m IH]; simpl; [done|].
  intros [Hk Hnd]%NoDup_cons Hg. unfold jm_delete. rewrite filter_cons. simpl.
  destruct (decide (k = k')) as [->|Hne].
  - rewrite decide_False by (by intros Hn). f_equal. fold (jm_delete k' m).
    by rewrite jm_delete_fresh by (by apply jm_get_None).
  - rewrite decide_True by done. simpl. f_equal. by apply IH.
Qed.
End JsMap.

(** [{ ...a, ...b }] on objects with string keys. *)
Definition js_spread {V} (a b : list (string * V)) : list (string * V) :=
  foldl (fun m kv => jm_set kv.1 kv.2 m) a b.

Lemma js_spread_get {V} k (a b : list (string * V)) : jm_get k b = None ->
  jm_get k (js_spread a b) = jm_get k a.
Proof.
  unfold js_spread. revert a. induction b as [|[k' v] b IH]; intros a; [done|]. simpl.
  destruct (decide (k = k')) as [->|Hne]; [done|]. intros Hb.
  rewrite IH by done. by apply jm_get_set_ne.
Qed.

Lemma js_spread_get_new {V} k (v : V) (a b : list (string * V)) : jm_wf b ->
  jm_get k b = Some v -> jm_get k (js_spread a b) = Some v.
Proof.
  unfold jm_wf. revert a. induction b as [|[k' v'] b IH]; intros a; [done|].
  cbn [fmap list_fmap jm_get]. intros [Hk Hb]%NoDup_cons. cbn [fst] in *.
  change (js_spread a ((k', v') :: b)) with (js_spread (jm_set k' v' a) b).
  destruct (decide (k = k')) as [->|Hne]; [|by apply IH].
  intros [= ->]. rewrite js_spread_get by (by apply jm_get_None). apply jm_get_set_eq.
Qed.

Lemma Forall_jm_set {V} (P : string * V -> Prop) k v (l : list (string * V)) :
  P (k, v) -> Forall P l -> Forall P (jm_set k v l).
Proof.
  intros Hkv. induction 1 as [|[k' v'] l Hx Hl IH]; simpl; [by repeat constructor|].
  case_decide; by constructor.
Qed.

(** Mapping a map's values, dropping some. *)
Lemma jm_get_omap {K V W} `{EqDecision K} (f : V -> option W) (k : K) (m : list (K * V)) :
  jm_wf m -> jm_get k (omap (fun kv => pair kv.1 <$> f kv.2) m) = v ← jm_get k m; f v.
Proof.
  unfold jm_wf. induction m as [|[k' v] m IH]; [done|]. simpl.
  intros [Hk Hnd]%NoDup_cons. specialize (IH Hnd).
  destruct (decide (k = k')) as [->|Hne]; simpl.
  - apply jm_get_None in Hk. rewrite Hk in IH. destruct (f v); simpl; [by rewrite decide_True|done].
  - destruct (f v); simpl; [by rewrite decide_False|done].
Qed.

Lemma jm_wf_omap {K V W} `{EqDecision K} (f : V -> option W) (m : list (K * V)) :
  jm_wf m -> jm_wf (omap (fun kv => pair kv.1 <$> f kv.2) m).
Proof.
  unfold jm_wf. induction m as [|[k v] m IH]; [done|]. simpl.
  intros [Hk Hnd]%NoDup_cons. specialize (IH Hnd). destruct (f v); simpl; [|done].
  apply NoDup_cons. split; [|done]. intros Hin. apply Hk.
  apply list_elem_of_fmap in Hin as ([k' u] & -> & Hin).
  apply list_elem_of_omap in Hin as ([k'' v'] & Hin & Hf). simpl in Hf.
  destruct (f v') as [w'|]; simpl in Hf; simplify_eq. apply list_elem_of_fmap. by exists (k', v').
Qed.

(** ** Sets *)

Section JsSet.
Context {A : Type} `{EqDecision A}.
Implicit Types (s : list A) (x y : A).

(** [s.has(x)], [s.add(x)], [s.delete(x)]. *)
Definition js_has x s : bool := bool_decide (x ∈ s).
Definition js_add x s : list A := if decide (x ∈ s) then s else s ++ [x].
Definition js_del x s : list A := filter (fun y => y <> x) s.

Lemma js_has_spec x s : js_has x s = true <-> x ∈ s.
Proof. unfold js_has. apply bool_decide_eq_true. Qed.

Lemma elem_of_js_add x y s : x ∈ js_add y s <-> x = y \/ x ∈ s.
Proof. unfold js_add. case_decide; set_solver. Qed.

Lemma elem_of_js_del x y s : x ∈ js_del y s <-> x <> y /\ x ∈ s.
Proof. unfold js_del. by rewrite list_elem_of_filter. Qed.

Lemma NoDup_js_add x s : NoDup s -> NoDup (js_add x s).
Proof.
  unfold js_add. case_decide; [done|]. intros.
  apply NoDup_app. split_and!; [done|set_solver|apply NoDup_singleton].
Qed.

Lemma NoDup_js_del x s : NoDup s -> NoDup (js_del x s).
Proof. apply NoDup_filter. Qed.

Lemma js_add_length x s :
  length (js_add x s) = (length s + if js_has x s then 0 else 1)%nat.
Proof.
  unfold js_add, js_has. case_decide.
  - rewrite bool_decide_true by done. lia.
  - rewrite bool_decide_false by done. rewrite length_app. simpl. lia.
Qed.

Lemma js_del_length x s : (length (js_del x s) <= length s)%nat.
Proof. apply length_filter. Qed.
End JsSet.

Create HintDb jsmap discriminated.
#[export] Hint Resolve jm_wf_nil jm_wf_set jm_wf_delete jm_wf_delete_if : jsmap.
#[export] Hint Resolve NoDup_js_add NoDup_js_del : jsmap.
