(* ===== verification/RateLimiter.v ===== *)
(** * Sliding-window rate limiter ([src/server/rate-limiter.ts])

    [SlidingWindowRateLimiter] keeps, per key, the timestamps of the events it
    accepted.  The model threads the limiter and receives the clock reading of
    the call.  The reference is a limiter that keeps every accepted event for
    ever and counts those of the window; the refinement theorem says the two
    take the same decisions on every sequence of calls with a monotone clock. *)

From S2P Require Import Prelude.
Local Open Scope Z_scope.

(** ** The code *)

Record SlidingWindowRateLimitDecision : Type := Decision_ {
  allowed : bool;
  limit : Z;
  decision_windowMs : Z;
  retryAfterMs : Z;
  remaining : Z
}.

Record SlidingWindowRateLimiter : Type := Limiter {
  maxEvents : Z;
  windowMs : Z;
  timestamps : gmap string (list Z)
}.

(** The constructor; the clock is an argument of the calls instead. *)
Definition newLimiter (maxEvents windowMs : Z) : SlidingWindowRateLimiter :=
  Limiter maxEvents windowMs ∅.

(** [while (history.length > 0 && history[0] < minTs) history.shift()]. *)
Fixpoint shiftExpired (minTs : Z) (history : list Z) : list Z :=
  match history with
  | t :: rest => if t <? minTs then shiftExpired minTs rest else history
  | [] => []
  end.

Definition consume (now : Z) (key : string) (l : SlidingWindowRateLimiter) :
    SlidingWindowRateLimitDecision * SlidingWindowRateLimiter :=
  let minTs := now - windowMs l in
  let history := shiftExpired minTs (default [] (timestamps l !! key)) in
  if maxEvents l <=? Z.of_nat (length history) then
    let oldest := default now (head history) in
    (Decision_ false (maxEvents l) (windowMs l)
       (Z.max 0 (oldest + windowMs l - now)) 0,
     Limiter (maxEvents l) (windowMs l) (<[key := history]> (timestamps l)))
  else
    let history := history ++ [now] in
    (Decision_ true (maxEvents l) (windowMs l) 0
       (Z.max 0 (maxEvents l - Z.of_nat (length history))),
     Limiter (maxEvents l) (windowMs l) (<[key := history]> (timestamps l))).

Definition allow (now : Z) (key : string) (l : SlidingWindowRateLimiter) :
    bool * SlidingWindowRateLimiter :=
  let '(d, l') := consume now key l in (allowed d, l').

Definition clear (key : string) (l : SlidingWindowRateLimiter) :
    SlidingWindowRateLimiter :=
  Limiter (maxEvents l) (windowMs l) (delete key (timestamps l)).

(** ** Call sequences and the reference limiter *)

Inductive call : Type :=
| Consume (now : Z) (key : string)
| Clear (key : string).

(** The decisions of the [Consume] calls of a sequence. *)
Fixpoint decisions (l : SlidingWindowRateLimiter) (cs : list call) : list bool :=
  match cs with
  | [] => []
  | Consume now key :: cs =>
      let '(ok, l') := allow now key l in ok :: decisions l' cs
  | Clear key :: cs => decisions (clear key l) cs
  end.

(** The accepted events of [key], and those not older than [from]. *)
Definition key_log (key : string) (log : list (string * Z)) : list Z :=
  omap (fun kt => if decide (kt.1 = key) then Some kt.2 else None) log.

Definition in_window (key : string) (from : Z) (log : list (string * Z)) : list Z :=
  filter (fun t => from <= t) (key_log key log).

(** The reference: the log holds every accepted event since the last clear. *)
Fixpoint reference (max window : Z) (log : list (string * Z)) (cs : list call) : list bool :=
  match cs with
  | [] => []
  | Consume now key :: cs =>
      let ok := Z.of_nat (length (in_window key (now - window) log)) <? max in
      ok :: reference max window (if ok then log ++ [(key, now)] else log) cs
  | Clear key :: cs =>
      reference max window (filter (fun kt => kt.1 <> key) log) cs
  end.

(** The events a sequence of calls gets accepted, in order. *)
Fixpoint accepted (l : SlidingWindowRateLimiter) (cs : list call) : list (string * Z) :=
  match cs with
  | [] => []
  | Consume now key :: cs =>
      let '(ok, l') := allow now key l in
      (if ok then [(key, now)] else []) ++ accepted l' cs
  | Clear key :: cs => accepted (clear key l) cs
  end.

Definition is_consume (c : call) : bool :=
  match c with Consume _ _ => true | Clear _ => false end.

Definition call_time (c : call) : option Z :=
  match c with Consume now _ => Some now | Clear _ => None end.

(** The clock never runs backwards along the sequence. *)
Definition monotone_clock (cs : list call) : Prop :=
  Sorted Z.le (omap call_time cs).

(** ** Lemmas *)

Lemma key_log_snoc key key' t log :
  key_log key (log ++ [(key', t)]) =
    key_log key log ++ (if decide (key' = key) then [t] else []).
Proof. unfold key_log. rewrite omap_app. simpl. by case_decide. Qed.

Lemma key_log_cons key kt log :
  key_log key (kt :: log) =
    (if decide (kt.1 = key) then [kt.2] else []) ++ key_log key log.
Proof. unfold key_log. simpl. by case_decide. Qed.

Lemma key_log_clear key key' log :
  key_log key (filter (fun kt => kt.1 <> key') log) =
    if decide (key = key') then [] else key_log key log.
Proof.
  induction log as [|[k t] log IH]; [by case_decide|].
  rewrite filter_cons, key_log_cons. cbn [fst snd].
  destruct (decide (k = key')) as [->|].
  - rewrite (decide_False (P := key' <> key')) by naive_solver. rewrite IH.
    by repeat case_decide.
  - rewrite (decide_True (P := k <> key')) by done.
    rewrite key_log_cons, IH. repeat case_decide; simpl in *; congruence.
Qed.

Lemma shiftExpired_filter minTs h :
  StronglySorted Z.le h -> shiftExpired minTs h = filter (fun t => minTs <= t) h.
Proof.
  induction 1 as [|t h Hs IH Hall]; [done|]. simpl.
  rewrite filter_cons. destruct (Z.ltb_spec t minTs).
  - by rewrite decide_False by lia.
  - rewrite decide_True by lia. f_equal. symmetry. apply filter_all.
    eapply Forall_impl; [done|]. simpl. lia.
Qed.

Lemma filter_le_filter (a b : Z) (h : list Z) :
  a <= b -> filter (fun t => b <= t) (filter (fun t => a <= t) h) = filter (fun t => b <= t) h.
Proof. intros. apply list_filter_filter_l. lia. Qed.

(** The simulation between the limiter and the log, at a time [now] no later
    than any further call: the stored history is the part of the key's log
    since some instant already out of the window. *)
Definition key_sim (now window : Z) (history log : list Z) : Prop :=
  StronglySorted Z.le log /\ Forall (fun t => t <= now) log /\
  exists from, from <= now - window /\ history = filter (fun t => from <= t) log.

Definition limiter_sim (now max window : Z) (l : SlidingWindowRateLimiter)
    (log : list (string * Z)) : Prop :=
  maxEvents l = max /\ windowMs l = window /\
  forall key, key_sim now window (default [] (timestamps l !! key)) (key_log key log).

Lemma key_sim_later now now' window h log :
  now <= now' -> key_sim now window h log -> key_sim now' window h log.
Proof.
  intros Hle (Hs & Hall & from & Hfrom & ->). split_and!; [done| |].
  - eapply Forall_impl; [done|]. simpl. lia.
  - exists from. split; [lia|done].
Qed.

(** The trimmed history is the window of the log. *)
Lemma key_sim_shift now window h log :
  key_sim now window h log ->
  shiftExpired (now - window) h = filter (fun t => now - window <= t) log.
Proof.
  intros (Hs & _ & from & Hfrom & ->).
  rewrite shiftExpired_filter by by apply StronglySorted_filter.
  by apply filter_le_filter.
Qed.

Lemma key_sim_push now window log :
  0 <= window -> StronglySorted Z.le log -> Forall (fun t => t <= now) log ->
  key_sim now window (filter (fun t => now - window <= t) log ++ [now]) (log ++ [now]).
Proof.
  intros Hw Hs Hall. split_and!.
  - by apply StronglySorted_snoc.
  - apply Forall_app; repeat constructor; [done|lia].
  - exists (now - window). split; [lia|].
    rewrite filter_app. f_equal. rewrite filter_cons, decide_True by lia. done.
Qed.

Lemma key_sim_nil now window : key_sim now window [] [].
Proof.
  split_and!; [constructor|constructor|]. exists (now - window). split; [lia|done].
Qed.

Lemma limiter_sim_consume now max window l log key :
  0 <= window -> limiter_sim now max window l log ->
  let ok := Z.of_nat (length (in_window key (now - window) log)) <? max in
  (consume now key l).1.(allowed) = ok /\
  limiter_sim now max window (consume now key l).2 (if ok then log ++ [(key, now)] else log).
Proof.
  intros Hw (Hmax & Hwin & Hkeys). unfold consume. rewrite Hmax, Hwin.
  pose proof (Hkeys key) as Hkey. rewrite (key_sim_shift _ _ _ _ Hkey).
  change (in_window key (now - window) log)
    with (filter (fun t => now - window <= t) (key_log key log)).
  destruct Hkey as (Hs & Hall & _).
  set (h := filter _ _).
  destruct (Z.leb_spec max (Z.of_nat (length h))); simpl.
  - rewrite (proj2 (Z.ltb_ge _ _)) by done. split; [done|]. split_and!; [done..|].
    intros key'. simpl. destruct (decide (key = key')) as [<-|Hne].
    + rewrite lookup_insert_eq. simpl. split_and!; [done..|]. exists (now - window). split; [lia|done].
    + rewrite lookup_insert_ne by done. apply Hkeys.
  - rewrite (proj2 (Z.ltb_lt _ _)) by done. split; [done|]. split_and!; [done..|].
    intros key'. simpl. rewrite key_log_snoc. destruct (decide (key = key')) as [<-|Hne].
    + rewrite lookup_insert_eq. simpl. by apply key_sim_push.
    + rewrite lookup_insert_ne, app_nil_r by done. apply Hkeys.
Qed.

Lemma limiter_sim_clear now max window l log key :
  limiter_sim now max window l log ->
  limiter_sim now max window (clear key l) (filter (fun kt => kt.1 <> key) log).
Proof.
  intros (Hmax & Hwin & Hkeys). split_and!; [done..|]. intros key'. simpl.
  rewrite key_log_clear. case_decide as E.
  - subst. rewrite lookup_delete_eq. apply key_sim_nil.
  - rewrite lookup_delete_ne by done. apply Hkeys.
Qed.

Lemma limiter_sim_later now now' max window l log :
  now <= now' -> limiter_sim now max window l log -> limiter_sim now' max window l log.
Proof.
  intros Hle (Hmax & Hwin & Hkeys). split_and!; eauto using key_sim_later.
Qed.

Lemma decisions_sim max window cs now l log :
  0 <= window -> StronglySorted Z.le (now :: omap call_time cs) ->
  limiter_sim now max window l log ->
  decisions l cs = reference max window log cs.
Proof.
  intros Hw. revert now l log.
  induction cs as [|[t key|key] cs IH]; intros now l log Hs Hsim; [done| |].
  - simpl in Hs. apply StronglySorted_inv in Hs as [Hs [Hle _]%Forall_cons].
    apply (limiter_sim_later now t) in Hsim; [|done].
    destruct (limiter_sim_consume t max window l log key Hw Hsim) as [Hok Hsim'].
    simpl. unfold allow. destruct (consume t key l) as [d l']. simpl in *. rewrite Hok.
    f_equal. by eapply IH.
  - simpl. eapply IH; [exact Hs|]. by apply limiter_sim_clear.
Qed.

Lemma limiter_sim_new now max window :
  limiter_sim now max window (newLimiter max window) [].
Proof.
  split_and!; [done..|]. intros key. simpl. rewrite lookup_empty. apply key_sim_nil.
Qed.

(** The log of a key never holds more than [max] events of any window. *)
Definition log_bounded (max window : Z) (log : list (string * Z)) : Prop :=
  forall key t, Z.of_nat (length (filter (fun x => t - window <= x <= t) (key_log key log)))
    <= Z.max 0 max.

Lemma length_filter_impl (P Q : Z -> Prop) `{!forall x, Decision (P x)}
    `{!forall x, Decision (Q x)} (l : list Z) :
  (forall x, P x -> Q x) -> (length (filter P l) <= length (filter Q l))%nat.
Proof.
  intros HPQ. induction l as [|x l IH]; [done|]. rewrite !filter_cons.
  repeat case_decide; simpl; [lia|naive_solver|lia|lia].
Qed.

Lemma log_bounded_push now max window log key :
  Forall (fun t => t <= now) (key_log key log) ->
  Z.of_nat (length (in_window key (now - window) log)) < max ->
  log_bounded max window log -> log_bounded max window (log ++ [(key, now)]).
Proof.
  intros Hall Hlt Hb key' t. rewrite key_log_snoc. case_decide as E; [subst key'|].
  2: { rewrite app_nil_r. apply Hb. }
  rewrite filter_app, length_app, filter_cons. case_decide; simpl.
  - enough (length (filter (fun x => (t - window <= x <= t)%Z) (key_log key log)) <=
            length (in_window key (now - window) log))%nat by lia.
    apply length_filter_impl. intros x ?. lia.
  - specialize (Hb key t). lia.
Qed.

Lemma accepted_bounded max window cs now l log :
  0 <= window -> StronglySorted Z.le (now :: omap call_time cs) ->
  forallb is_consume cs = true ->
  limiter_sim now max window l log -> log_bounded max window log ->
  log_bounded max window (log ++ accepted l cs).
Proof.
  intros Hw. revert now l log.
  induction cs as [|[t key|key] cs IH]; intros now l log Hs Hc Hsim Hb; simpl in *; [|..|done].
  { by rewrite app_nil_r. }
  apply StronglySorted_inv in Hs as [Hs [Hle _]%Forall_cons].
  apply (limiter_sim_later now t) in Hsim; [|done].
  destruct (limiter_sim_consume t max window l log key Hw Hsim) as [Hok Hsim'].
  unfold allow. destruct (consume t key l) as [d l']. simpl in *. rewrite Hok.
  rewrite app_assoc. eapply IH; [done..| |].
  - case_match; [done|]. by rewrite app_nil_r.
  - destruct (Z.ltb_spec (Z.of_nat (length (in_window key (t - window) log))) max);
      [|by rewrite app_nil_r].
    apply log_bounded_push; [|done..]. apply Hsim.
Qed.

(** A lower bound of the clock readings of a sequence. *)
Lemma monotone_clock_start cs :
  monotone_clock cs -> exists t, StronglySorted Z.le (t :: omap call_time cs).
Proof.
  intros Hs. apply Sorted_StronglySorted in Hs; [|intros ???; lia].
  destruct (omap call_time cs) as [|t ts]; [exists 0; repeat constructor|].
  exists t. constructor; [done|]. constructor; [lia|].
  by apply StronglySorted_inv in Hs as [_ ?].
Qed.

(** ** Properties *)

(** C14. Along any sequence of [consume] and [clear] calls whose clock never
    runs backwards, the limiter takes exactly the decisions of the reference
    that remembers every accepted event: an event is accepted if and only if
    fewer than [maxEvents] events of its key were accepted in the last
    [windowMs] milliseconds. *)
Theorem limiter_refines_reference (max window : Z) (cs : list call) :
  0 <= window -> monotone_clock cs ->
  decisions (newLimiter max window) cs = reference max window [] cs.
Proof.
  intros Hw [t Hs]%monotone_clock_start.
  eapply decisions_sim; [done..|apply limiter_sim_new].
Qed.

Definition sample_calls : list call :=
  [Consume 0 "a"; Consume 10 "a"; Consume 20 "b"; Consume 30 "a"; Clear "b";
   Consume 110 "a"; Consume 120 "b"].

Lemma limiter_refines_reference_witness :
  (0 <= 100 /\ monotone_clock sample_calls) /\
  decisions (newLimiter 2 100) sample_calls = [true; true; true; false; true; true].
Proof.
  assert (H : 0 <= 100 /\ monotone_clock sample_calls).
  { split; [lia|]. unfold monotone_clock; simpl. repeat constructor; lia. }
  split; [exact H|].
  rewrite (limiter_refines_reference 2 100 sample_calls (proj1 H) (proj2 H)).
  vm_compute. reflexivity.
Defined.

(** Safety of the limit: over any run of [consume] calls with a monotone
    clock, whatever the window one looks at, no key gets more than [maxEvents]
    events accepted in it. *)
Theorem limiter_window_bound (max window : Z) (cs : list call) (key : string) (t : Z) :
  0 <= window -> monotone_clock cs -> forallb is_consume cs = true ->
  Z.of_nat (length (filter (fun x => t - window <= x <= t)
    (key_log key (accepted (newLimiter max window) cs)))) <= Z.max 0 max.
Proof.
  intros Hw [t0 Hs]%monotone_clock_start Hc.
  eapply (accepted_bounded max window cs t0 (newLimiter max window) []);
    [done..|apply limiter_sim_new|intros ??; simpl; lia].
Qed.

Lemma limiter_window_bound_witness :
  Z.of_nat (length (filter (fun x => 110 - 100 <= x <= 110)
    (key_log "a" (accepted (newLimiter 2 100)
       [Consume 0 "a"; Consume 10 "a"; Consume 30 "a"; Consume 110 "a"])))) <= 2.
Proof.
  apply (limiter_window_bound 2 100 _ "a" 110); [lia| |reflexivity].
  unfold monotone_clock; simpl. repeat constructor; lia.
Defined.

(** What a refusal promises: the reported [retryAfterMs] is the instant
    the oldest event of the window turns [windowMs] old.  The same call made
    exactly then is still refused (the oldest event is kept while it is exactly
    [windowMs] old), and one millisecond later it is accepted. *)
Theorem retryAfterMs_boundary (now : Z) (key : string) (max window : Z)
    (h : list Z) (ts : gmap string (list Z)) :
  0 < max -> 0 <= window -> StronglySorted Z.le h -> Forall (fun t => t <= now) h ->
  Z.of_nat (length h) <= max ->
  let l := Limiter max window (<[key := h]> ts) in
  (consume now key l).1.(allowed) = false ->
  let r := (consume now key l).1.(retryAfterMs) in
  let l' := (consume now key l).2 in
  0 <= r <= window /\
  (consume (now + r) key l').1.(allowed) = false /\
  (consume (now + r + 1) key l').1.(allowed) = true.
Proof.
  intros Hmax Hw Hs Hall Hlen l. unfold l, consume. simpl. rewrite lookup_insert_eq. simpl.
  rewrite (shiftExpired_filter _ _ Hs).
  pose proof (length_filter (fun t => now - window <= t) h) as Hfl.
  destruct (Z.leb_spec max (Z.of_nat (length (filter (fun t => now - window <= t) h))))
    as [Hfull|]; [intros _|done].
  set (f := filter (fun t => now - window <= t) h) in *.
  assert (Hfs : StronglySorted Z.le f) by by apply StronglySorted_filter.
  assert (Hfall : Forall (fun t => now - window <= t <= now) f).
  { apply Forall_forall. intros x [? Hx]%list_elem_of_filter.
    rewrite Forall_forall in Hall. specialize (Hall x Hx). simpl in *. lia. }
  clearbody f. destruct f as [|o f]; [simpl in Hfull; lia|].
  apply Forall_cons in Hfall as [Ho _]. simpl.
  rewrite lookup_insert_eq. simpl. rewrite Z.max_r by lia.
  replace (now + (o + window - now) - window) with o by lia.
  replace (now + (o + window - now) + 1 - window) with (o + 1) by lia.
  split; [lia|]. rewrite Z.ltb_irrefl, (proj2 (Z.ltb_lt o (o + 1))) by lia. split.
  - rewrite (proj2 (Z.leb_le max (Z.of_nat (length (o :: f))))); [done|]. simpl in *. lia.
  - apply StronglySorted_inv in Hfs as [Hfs _].
    rewrite (shiftExpired_filter _ _ Hfs).
    pose proof (length_filter (fun t => o + 1 <= t) f). simpl in *.
    rewrite (proj2 (Z.leb_gt _ _)) by lia. done.
Qed.

Lemma retryAfterMs_boundary_witness :
  let l := Limiter 2 100 (<["a" := [0; 40]]> ∅) in
  let r := (consume 50 "a" l).1.(retryAfterMs) in
  r = 50 /\ 0 <= r <= 100 /\
  (consume (50 + r) "a" (consume 50 "a" l).2).1.(allowed) = false /\
  (consume (50 + r + 1) "a" (consume 50 "a" l).2).1.(allowed) = true.
Proof.
  split; [reflexivity|].
  apply (retryAfterMs_boundary 50 "a" 2 100 [0; 40] ∅);
    [lia|lia|repeat constructor; lia|repeat constructor; lia|simpl; lia|reflexivity].
Defined.
