(* ===== verification/Validation.v ===== *)
(** * Field validation and input policy
    ([src/server/message-validation.ts], [src/server/input-policy.ts])

    Each helper takes a value of unknown type, as the code does, and returns
    [None] where the code returns [null]. *)

From S2P Require Import Prelude.
Local Open Scope Z_scope.

(** ** [message-validation.ts] *)

Definition parseNonEmptyString (value : jsval) : option string :=
  match value with
  | JStr s =>
      let trimmed := trim s in
      if is_empty trimmed then None else Some trimmed
  | _ => None
  end.

Definition parseOptionalInt (value : jsval) : option Z :=
  match value with
  | JNull | JUndefined => None
  | JNum n => num_to_Z n
  | JStr s => if is_empty (trim s) then None else num_to_Z (parse_int s)
  | _ => None
  end.

Definition truthy_words : list string := ["1"; "true"; "yes"; "on"].
Definition falsy_words : list string := ["0"; "false"; "no"; "off"].

(** Shared by [parseOptionalBoolean] and the configuration loader. *)
Definition word_to_bool (normalized : string) : option bool :=
  if bool_decide (normalized ∈ truthy_words) then Some true
  else if bool_decide (normalized ∈ falsy_words) then Some false
  else None.

Definition parseOptionalBoolean (value : jsval) : option bool :=
  match value with
  | JNull | JUndefined => None
  | JBool b => Some b
  | JStr s => if is_empty (trim s) then None else word_to_bool (to_lower (trim s))
  | _ => None
  end.

(** ** [input-policy.ts] *)

Record InputPolicyContext : Type := PolicyContext {
  ctx_globalInputDisabled : bool;
  ctx_clientInputEnabled : bool
}.

Record InputPolicyState : Type := PolicyState {
  inputEnabled : bool;
  globalInputDisabled : bool
}.

Definition buildInputPolicyState (context : InputPolicyContext) : InputPolicyState :=
  PolicyState
    (ctx_clientInputEnabled context && negb (ctx_globalInputDisabled context))
    (ctx_globalInputDisabled context).

Definition isInputAllowed (context : InputPolicyContext) : bool :=
  ctx_clientInputEnabled context && negb (ctx_globalInputDisabled context).

(** ** Lemmas *)

Lemma parseNonEmptyString_nonempty v s : parseNonEmptyString v = Some s -> s <> "".
Proof.
  destruct v; simpl; try done. case_match eqn:E; [done|].
  intros [= <-] Ht. by rewrite Ht in E.
Qed.

Lemma isInputAllowed_spec g c :
  isInputAllowed (PolicyContext g c) = true <-> c = true /\ g = false.
Proof. destruct g, c; simpl; naive_solver. Qed.

(** The policy sent to a client is the policy enforced on it. *)
Lemma policy_sent_is_enforced ctx :
  inputEnabled (buildInputPolicyState ctx) = isInputAllowed ctx.
Proof. done. Qed.
