(* ===== verification/Protocol.v ===== *)
(** * Protocol envelopes ([packages/commandrelay-protocol/src/index.ts])

    [JSON.parse] is a parameter [JSON_parse] of the parser ([None] when it
    throws), so that the statements hold whatever text the payload is written
    in; [Date.now()] is the argument [now]. *)

From S2P Require Import Prelude Validation.
Local Open Scope Z_scope.

(** ** Constants and types *)

Definition PROTOCOL_V1 : Z := 1.

Definition PROTOCOL_V1_REQUIRED_EVENT_TYPES : list string :=
  ["auth"; "list_sessions"; "attach"; "output"; "input"; "ack"; "error";
   "heartbeat"; "policy_update"].

Definition PROTOCOL_V1_RUNTIME_EVENT_TYPES : list string :=
  ["detach"; "enable_input"; "disable_input"; "disconnect"; "hello";
   "session_list"; "auth_ok"; "auth_error"; "heartbeat_ack"].

Definition PROTOCOL_V1_ALLOWED_EVENT_TYPES : list string :=
  PROTOCOL_V1_REQUIRED_EVENT_TYPES ++ PROTOCOL_V1_RUNTIME_EVENT_TYPES.

Record Envelope : Type := Envelope_ {
  env_v : Z;
  env_type : string;
  env_requestId : option string;
  env_timestamp : Z;
  env_payload : list (string * jsval)
}.

Definition MAX_V1_ENVELOPE_BYTES : Z := 64 * 1024.
Definition REQUEST_ID_MAX_LENGTH : Z := 128.

Definition V1_REQUEST_ID_REQUIRED_TYPES : list string :=
  ["auth"; "list_sessions"; "attach"; "detach"; "enable_input"; "disable_input";
   "disconnect"; "input"; "ack"; "error"].

Definition ParseMessageResult : Type := result string Envelope.

(** ** Functions *)

Definition envelope (now : Z) (type : string) (payload : list (string * jsval))
    (requestId : option string) : Envelope :=
  Envelope_ PROTOCOL_V1 type requestId now payload.

(** [validateRequestId]: [None] is [valid: false]. *)
Definition validateRequestId (value : jsval) : option (option string) :=
  match value with
  | JUndefined => Some None
  | JStr s =>
      if (str_len s <? 1) || (REQUEST_ID_MAX_LENGTH <? str_len s) then None
      else if negb (String.eqb (trim s) s) then None
      else if str_forallb (fun c => (32 <=? code c) && (code c <=? 126))%N s
      then Some (Some s)
      else None
  | _ => None
  end.

(** [requestId.value] is falsy: undefined or the empty string. *)
Definition falsy_id (r : option string) : bool :=
  match r with Some s => is_empty s | None => true end.

Definition parseStrictV1 (parsed : list (string * jsval)) (parsedType : string) :
    ParseMessageResult :=
  if negb (match field "v" parsed with
           | JNum n => num_is_Z n PROTOCOL_V1 | _ => false end)
  then Throw "invalid_version"
  else if negb (bool_decide (parsedType ∈ PROTOCOL_V1_ALLOWED_EVENT_TYPES))
  then Throw "unsupported_type"
  else
    match match field "timestamp" parsed with JNum n => num_safe_integer n | _ => None end with
    | None => Throw "invalid_timestamp"
    | Some ts =>
        if ts <? 0 then Throw "invalid_timestamp" else
        match field "payload" parsed with
        | JObj payload =>
            match validateRequestId (field "requestId" parsed) with
            | None => Throw "invalid_request_id"
            | Some rid =>
                if bool_decide (str_or "" (field "type" parsed) ∈ V1_REQUEST_ID_REQUIRED_TYPES)
                   && falsy_id rid
                then Throw "missing_request_id"
                else Ok (Envelope_ PROTOCOL_V1 parsedType rid ts payload)
            end
        | _ => Throw "invalid_payload"
        end
    end.

Section Parse.
Variable JSON_parse : string -> option jsval.

Definition parseMessage (now : Z) (raw : string) (strictV1 : bool) : ParseMessageResult :=
  if strictV1 && (MAX_V1_ENVELOPE_BYTES <? utf8_byte_length raw)
  then Throw "message_too_large"
  else
    match JSON_parse raw with
    | None => Throw "invalid_json"
    | Some (JObj parsed) =>
        match field "type" parsed with
        | JStr ty =>
            let parsedType := trim ty in
            if is_empty parsedType then Throw "missing_type"
            else if strictV1 then parseStrictV1 parsed parsedType
            else if negb (String.eqb ty parsedType) then Throw "invalid_type"
            else
              let payload := match field "payload" parsed with JObj p => p | _ => [] end in
              let requestId := match field "requestId" parsed with
                               | JStr s => Some s | _ => None end in
              let timestamp :=
                match match field "timestamp" parsed with
                      | JNum n => num_safe_integer n | _ => None end with
                | Some ts => if 0 <=? ts then ts else now
                | None => now
                end in
              Ok (Envelope_ PROTOCOL_V1 parsedType requestId timestamp payload)
        | _ => Throw "missing_type"
        end
    | Some _ => Throw "invalid_json_object"
    end.
End Parse.

(** The object [JSON.stringify] writes for an envelope: undefined fields are
    dropped. *)
Definition envelope_json (e : Envelope) : jsval :=
  JObj ([("v", JInt (env_v e)); ("type", JStr (env_type e))]
        ++ match env_requestId e with Some r => [("requestId", JStr r)] | None => [] end
        ++ [("timestamp", JInt (env_timestamp e)); ("payload", JObj (env_payload e))]).

(** ** The strict v1 contract (section 2.2 of [docs/protocol-v1.md]) *)

(** A request id as the contract allows it. *)
Definition request_id_ok (r : string) : Prop :=
  1 <= str_len r <= REQUEST_ID_MAX_LENGTH /\ trim r = r /\
  str_forallb (fun c => (32 <=? code c) && (code c <=? 126))%N r = true.

Definition safe_timestamp (t : Z) : Prop := 0 <= t <= max_safe_integer.

(** Rules 1 to 5 but for the type as it is written: [parsed] carries the version,
    an allowed type, a timestamp, a payload and a request id, those of [m]. *)
Record v1_fields (parsed : list (string * jsval)) (m : Envelope) : Prop := {
  sv_version : exists n, field "v" parsed = JNum n /\ num_is_Z n PROTOCOL_V1 = true;
  sv_allowed : env_type m ∈ PROTOCOL_V1_ALLOWED_EVENT_TYPES;
  sv_timestamp : exists n, field "timestamp" parsed = JNum n /\
                   num_to_Z n = Some (env_timestamp m) /\ safe_timestamp (env_timestamp m);
  sv_payload : field "payload" parsed = JObj (env_payload m);
  sv_request_id : field "requestId" parsed =
                    match env_requestId m with Some r => JStr r | None => JUndefined end;
  sv_request_id_ok : forall r, env_requestId m = Some r -> request_id_ok r;
  sv_v : env_v m = PROTOCOL_V1
}.

(** [strict_v1 parsed m]: the JSON object [parsed] is a frame of the documented
    contract and [m] is the message it carries.  Its type is an allowed one (rule
    2) and demands a request id where rule 6 says so. *)
Record strict_v1 (parsed : list (string * jsval)) (m : Envelope) : Prop := {
  sv_fields : v1_fields parsed m;
  sv_type : field "type" parsed = JStr (env_type m);
  sv_required : env_type m ∈ V1_REQUEST_ID_REQUIRED_TYPES -> env_requestId m <> None
}.

(** [padded_v1 parsed m]: a frame outside the contract, the type of which is an
    allowed one with white space around it; whether it has a request id is open. *)
Record padded_v1 (parsed : list (string * jsval)) (m : Envelope) : Prop := {
  pv_fields : v1_fields parsed m;
  pv_type : exists ty, field "type" parsed = JStr ty /\ env_type m = trim ty /\ ty <> trim ty
}.

(** ** Lemmas *)

Lemma validateRequestId_Some v r :
  validateRequestId v = Some r <->
  v = match r with Some s => JStr s | None => JUndefined end /\
  (forall s, r = Some s -> request_id_ok s).
Proof.
  split.
  - destruct v; simpl; try done; [intros [= <-]; split; [done|naive_solver]|].
    destruct (Z.ltb_spec (str_len s) 1), (Z.ltb_spec REQUEST_ID_MAX_LENGTH (str_len s));
      simpl; try done.
    destruct (String.eqb_spec (trim s) s); simpl; [|done].
    case_match eqn:Hp; [|done]. intros [= <-]. split; [done|].
    intros ? [= <-]. unfold request_id_ok. auto.
  - intros [-> Hok]. destruct r as [s|]; simpl; [|done].
    destruct (Hok s eq_refl) as ([? ?] & Ht & Hp).
    rewrite (proj2 (Z.ltb_ge _ _)), (proj2 (Z.ltb_ge _ _)) by lia. simpl.
    by rewrite Ht, String.eqb_refl, Hp.
Qed.

Lemma falsy_id_ok r : (forall s, r = Some s -> request_id_ok s) -> falsy_id r = true <-> r = None.
Proof.
  intros Hok. destruct r as [[|c s]|]; simpl; try done.
  destruct (Hok _ eq_refl) as ([? _] & _). done.
Qed.

Lemma trim_allowed_nonempty ty :
  trim ty ∈ PROTOCOL_V1_ALLOWED_EVENT_TYPES -> is_empty (trim ty) = false.
Proof. destruct (trim ty); [vm_compute; set_solver|done]. Qed.

Lemma allowed_trimmed ty :
  ty ∈ PROTOCOL_V1_ALLOWED_EVENT_TYPES -> trim ty = ty /\ is_empty ty = false.
Proof.
  assert (H : Forall (fun t => trim t = t /\ is_empty t = false)
                PROTOCOL_V1_ALLOWED_EVENT_TYPES) by (repeat constructor).
  rewrite Forall_forall in H. by apply H.
Qed.

Lemma required_allowed ty :
  ty ∈ V1_REQUEST_ID_REQUIRED_TYPES -> ty ∈ PROTOCOL_V1_ALLOWED_EVENT_TYPES.
Proof.
  assert (H : Forall (fun t => t ∈ PROTOCOL_V1_ALLOWED_EVENT_TYPES) V1_REQUEST_ID_REQUIRED_TYPES)
    by (apply (bool_decide_unpack _); vm_compute; done).
  rewrite Forall_forall in H. by apply H.
Qed.

Lemma parseStrictV1_Ok parsed ty m :
  field "type" parsed = JStr ty ->
  parseStrictV1 parsed (trim ty) = Ok m <->
  v1_fields parsed m /\ env_type m = trim ty /\
  (ty ∈ V1_REQUEST_ID_REQUIRED_TYPES -> env_requestId m <> None).
Proof.
  intros Hty. unfold parseStrictV1. rewrite Hty. simpl.
  split.
  - destruct (field "v" parsed) as [| | |n| | |] eqn:Ev; simpl; try done.
    destruct (num_is_Z n PROTOCOL_V1) eqn:En; simpl; [|done].
    case_bool_decide as Hal; simpl; [|done].
    destruct (field "timestamp" parsed) as [| | |n'| | |] eqn:Et; try done.
    destruct (num_safe_integer n') as [ts|] eqn:Ets; [|done].
    apply num_safe_integer_Some in Ets as [Ets Hb].
    destruct (Z.ltb_spec ts 0); [done|].
    destruct (field "payload" parsed) as [| | | | | |p] eqn:Ep; try done.
    destruct (validateRequestId _) as [rid|] eqn:Er; [|done].
    apply validateRequestId_Some in Er as [Er Hok].
    destruct (bool_decide _ && falsy_id rid) eqn:Hreq; [done|]. intros [= <-]. split_and!.
    + constructor; simpl; eauto. eexists. split_and!; [done..|]. unfold safe_timestamp. lia.
    + done.
    + simpl. intros Hin ->. by rewrite bool_decide_true in Hreq.
  - intros ([(n & -> & ->) Hallowed (n' & -> & Hn' & Hts) -> Hrid Hok Hv] & Heq & Hreq).
    rewrite <- Heq, bool_decide_true by done. simpl.
    unfold safe_timestamp in Hts.
    rewrite (proj2 (num_safe_integer_Some n' (env_timestamp m))) by (split; [done|lia]).
    rewrite (proj2 (Z.ltb_ge _ _)) by lia.
    rewrite (proj2 (validateRequestId_Some _ (env_requestId m))) by done.
    destruct (bool_decide _) eqn:Hb; simpl.
    + apply bool_decide_eq_true in Hb. specialize (Hreq Hb).
      destruct (falsy_id (env_requestId m)) eqn:Hf; [by apply falsy_id_ok in Hf|].
      destruct m; simpl in *; by subst.
    + destruct m; simpl in *; by subst.
Qed.

(** A type that demands a request id has no padding, so the test on the type as it is
    written is the one of the contract when there is no padding, and none when there
    is. *)
Lemma contract_or_padded parsed m :
  (exists ty, field "type" parsed = JStr ty /\ v1_fields parsed m /\ env_type m = trim ty /\
     (ty ∈ V1_REQUEST_ID_REQUIRED_TYPES -> env_requestId m <> None)) <->
  strict_v1 parsed m \/ padded_v1 parsed m.
Proof.
  split.
  - intros (ty & Hty & Hf & Ht & Hreq). destruct (decide (ty = trim ty)) as [He|Hne].
    + left. rewrite <- He in Ht. split; [done| |]; rewrite Ht; done.
    + right. split; [done|]. by exists ty.
  - intros [[Hf Hty Hreq]|[Hf (ty & Hty & Ht & Hne)]].
    + exists (env_type m). split_and!; [done..| |done].
      symmetry. apply allowed_trimmed, (sv_allowed _ _ Hf).
    + exists ty. split_and!; [done..|]. intros Hin. by apply required_allowed, allowed_trimmed in Hin as [? _].
Qed.

(** ** What parses *)

Lemma strict_parse_cases (JSON_parse : string -> option jsval) (now : Z) (raw : string)
    (m : Envelope) :
  parseMessage JSON_parse now raw true = Ok m <->
  utf8_byte_length raw <= MAX_V1_ENVELOPE_BYTES /\
  exists parsed, JSON_parse raw = Some (JObj parsed) /\ (strict_v1 parsed m \/ padded_v1 parsed m).
Proof.
  setoid_rewrite <- contract_or_padded. unfold parseMessage. simpl.
  destruct (Z.ltb_spec MAX_V1_ENVELOPE_BYTES (utf8_byte_length raw)) as [Hb|Hb].
  { split; [done|]. intros [? _]. lia. }
  destruct (JSON_parse raw) as [[| | | | | |parsed]|]; try by (split; [done|]; naive_solver).
  destruct (field "type" parsed) as [| | | |ty| |] eqn:Hty;
    try by (split; [done|]; intros (_ & ? & [= <-] & ? & ? & _); congruence).
  destruct (is_empty (trim ty)) eqn:He.
  - split; [done|]. intros (_ & ? & [= <-] & ty' & ? & [_ Hal _ _ _ _ _] & Heq & _). simplify_eq.
    rewrite Heq in Hal. apply trim_allowed_nonempty in Hal. congruence.
  - rewrite (parseStrictV1_Ok _ _ _ Hty). split.
    + intros Hok. split; [done|]. exists parsed. split; [done|]. by exists ty.
    + intros (_ & ? & [= <-] & ty' & Hty' & Hf & Ht & Hreq). by assert (ty' = ty) as -> by congruence.
Qed.

Lemma strict_parse_contract (JSON_parse : string -> option jsval) now raw parsed m :
  utf8_byte_length raw <= MAX_V1_ENVELOPE_BYTES -> JSON_parse raw = Some (JObj parsed) ->
  strict_v1 parsed m -> parseMessage JSON_parse now raw true = Ok m.
Proof. intros Hb HJ Hm. apply strict_parse_cases. split; [done|]. exists parsed. auto. Qed.

Lemma envelope_parses_tolerant (JSON_parse : string -> option jsval) (now ts : Z)
    (raw ty : string) (payload : list (string * jsval)) (rid : option string) :
  ty ∈ PROTOCOL_V1_ALLOWED_EVENT_TYPES -> safe_timestamp ts ->
  JSON_parse raw = Some (envelope_json (envelope ts ty payload rid)) ->
  parseMessage JSON_parse now raw false = Ok (envelope ts ty payload rid).
Proof.
  intros [Htrim Hne]%allowed_trimmed Hts HJ. unfold parseMessage. simpl. rewrite HJ.
  unfold safe_timestamp in Hts.
  destruct rid as [r|]; simpl; rewrite Htrim, Hne, String.eqb_refl; simpl;
    rewrite num_safe_integer_int, (proj2 (Z.leb_le 0 ts)) by lia; done.
Qed.

Lemma envelope_parses (JSON_parse : string -> option jsval) (now ts : Z)
    (raw ty : string) (payload : list (string * jsval)) (rid : option string)
    (strictV1 : bool) :
  ty ∈ PROTOCOL_V1_ALLOWED_EVENT_TYPES ->
  (ty ∈ V1_REQUEST_ID_REQUIRED_TYPES -> rid <> None) ->
  (forall r, rid = Some r -> request_id_ok r) ->
  safe_timestamp ts ->
  utf8_byte_length raw <= MAX_V1_ENVELOPE_BYTES ->
  JSON_parse raw = Some (envelope_json (envelope ts ty payload rid)) ->
  parseMessage JSON_parse now raw strictV1 = Ok (envelope ts ty payload rid).
Proof.
  intros Hal Hreq Hok Hts Hb HJ.
  assert (Htrim : trim ty = ty /\ is_empty ty = false).
  { by apply allowed_trimmed. }
  destruct Htrim as [Htrim Hne].
  destruct strictV1.
  - eapply strict_parse_contract; [done|exact HJ|].
    destruct rid as [r|]; (split; [constructor|..]); simpl; eauto with js.
  - by apply envelope_parses_tolerant.
Qed.

Lemma missing_request_id (JSON_parse : string -> option jsval) (now ts : Z)
    (raw ty : string) (payload : list (string * jsval)) :
  ty ∈ V1_REQUEST_ID_REQUIRED_TYPES -> safe_timestamp ts -> utf8_byte_length raw <= MAX_V1_ENVELOPE_BYTES ->
  JSON_parse raw = Some (envelope_json (envelope ts ty payload None)) ->
  parseMessage JSON_parse now raw true = Throw "missing_request_id".
Proof.
  intros Hty Hts Hb HJ. pose proof (required_allowed ty Hty) as Hal.
  destruct (allowed_trimmed ty Hal) as [Htrim Hne].
  unfold parseMessage, parseStrictV1. simpl.
  rewrite (proj2 (Z.ltb_ge _ _)) by done. rewrite HJ. simpl.
  unfold safe_timestamp in Hts.
  rewrite Htrim, Hne, bool_decide_true by done. simpl.
  rewrite num_safe_integer_int, (proj2 (Z.ltb_ge ts 0)), bool_decide_true by (done || lia).
  done.
Qed.

(** ** Properties *)



(** A text and the JSON value it stands for, for the witnesses. *)
Definition sample_request : Envelope :=
  envelope 1000 "attach" [("paneId", JStr "%1"); ("lastSeq", JInt 7)] (Some "req-1").
Definition sample_parse (raw : string) : option jsval :=
  if String.eqb raw "frame" then Some (envelope_json sample_request) else None.


(** The strict parser tests the request-id requirement against the type as
    written but the allow-list against the trimmed type: a frame whose type is
    padded with white space, such as [" input"], is accepted as an [input]
    message without any request id, which the same frame without the padding is
    refused for. *)
Theorem strict_padded_type_needs_no_request_id (JSON_parse : string -> option jsval)
    (now ts : Z) (raw pad ty : string) (payload : list (string * jsval)) :
  ty ∈ V1_REQUEST_ID_REQUIRED_TYPES -> pad ∉ V1_REQUEST_ID_REQUIRED_TYPES ->
  trim pad = ty -> safe_timestamp ts ->
  utf8_byte_length raw <= MAX_V1_ENVELOPE_BYTES ->
  (JSON_parse raw = Some (envelope_json (envelope ts pad payload None)) ->
   parseMessage JSON_parse now raw true = Ok (envelope ts ty payload None)) /\
  (JSON_parse raw = Some (envelope_json (envelope ts ty payload None)) ->
   parseMessage JSON_parse now raw true = Throw "missing_request_id").
Proof.
  intros Hty Hpad Htrim Hts Hb. pose proof (required_allowed ty Hty) as Hal.
  split; intros HJ; [|by apply missing_request_id with ts ty payload].
  apply strict_parse_cases. split; [done|]. eexists. split; [exact HJ|]. right.
  split; [constructor; simpl; eauto with js; done|].
  exists pad. split_and!; [done..|]. rewrite Htrim. by intros ->.
Qed.

Lemma strict_padded_type_witness :
  parseMessage (fun _ => Some (envelope_json (envelope 5 " input" [] None))) 9 "x" true
    = Ok (envelope 5 "input" [] None).
Proof.
  apply (strict_padded_type_needs_no_request_id _ 9 5 "x" " input" "input" []);
    [by apply (bool_decide_unpack _); vm_compute|by apply (bool_decide_unpack _); vm_compute
    |reflexivity|by split; vm_compute|by vm_compute|reflexivity].
Defined.
