(* ===== verification/Arbiter.v ===== *)
(** * Input-lane arbitration ([src/server/bridge-server-utils.ts])

    [PaneInputOwnershipArbiter] gives each pane at most one writer, with a lease
    renewed by each accepted input.  The clock reading of a call is its
    argument.  The legacy [Map] form of the ownership state, and the absent one,
    are the other constructors of [OwnershipState].

    The specification is a lane as the contract describes it: at an instant it
    is free or held by one client; a claim is granted when the lane is free,
    already held by the claimant, or taken over explicitly. *)

From S2P Require Import Prelude JsMap.
Local Open Scope Z_scope.

(** ** The code *)

Inductive PaneInputClaimResult : Type :=
| ClaimOk (overridden : bool)
| ClaimRefused (ownerClientId : string) (overrideAllowed : bool).

Definition DEFAULT_PANE_INPUT_LEASE_DURATION_MS : Z := 30000.

Record PaneInputOwnerLease : Type := Lease {
  lease_clientId : string;
  expiresAtMs : Z
}.

Record PaneInputOwnershipSnapshotRow : Type := OwnerRow {
  row_paneId : string;
  row_ownerClientId : string;
  row_expiresAtMs : option Z
}.

(** A missing value, NaN and the infinities are [None]; leases are integral. *)
Definition resolveLeaseDurationMs (leaseDurationMs : option Z) : Z :=
  match leaseDurationMs with
  | None => DEFAULT_PANE_INPUT_LEASE_DURATION_MS
  | Some d => if d <=? 0 then DEFAULT_PANE_INPUT_LEASE_DURATION_MS else d
  end.

Record PaneInputOwnershipArbiter : Type := Arbiter_ {
  paneOwners : list (string * PaneInputOwnerLease);
  leaseDurationMs : Z
}.

Definition newArbiter (leaseDurationMs : option Z) : PaneInputOwnershipArbiter :=
  Arbiter_ [] (resolveLeaseDurationMs leaseDurationMs).

Definition expireStaleOwners (nowMs : Z) (a : PaneInputOwnershipArbiter) :
    PaneInputOwnershipArbiter :=
  Arbiter_ (jm_delete_if (fun _ l => expiresAtMs l <=? nowMs) (paneOwners a))
    (leaseDurationMs a).

Definition setOwner (now : Z) (paneId clientId : string) (a : PaneInputOwnershipArbiter) :
    PaneInputOwnershipArbiter :=
  Arbiter_ (jm_set paneId (Lease clientId (now + leaseDurationMs a)) (paneOwners a))
    (leaseDurationMs a).

(** [this.paneOwners.get(paneId)?.clientId]. *)
Definition currentOwner (paneId : string) (a : PaneInputOwnershipArbiter) : option string :=
  lease_clientId <$> jm_get paneId (paneOwners a).

(** [!currentOwner || currentOwner === clientId]. *)
Definition may_claim (owner : option string) (clientId : string) : bool :=
  match owner with
  | None => true
  | Some o => is_empty o || String.eqb o clientId
  end.

Definition claim (now : Z) (paneId clientId : string)
    (overrideRequested overrideAllowed : bool) (a : PaneInputOwnershipArbiter) :
    PaneInputClaimResult * PaneInputOwnershipArbiter :=
  let a := expireStaleOwners now a in
  if may_claim (currentOwner paneId a) clientId
  then (ClaimOk false, setOwner now paneId clientId a)
  else if overrideRequested && overrideAllowed
  then (ClaimOk true, setOwner now paneId clientId a)
  else (ClaimRefused (default "" (currentOwner paneId a)) overrideAllowed, a).

Definition releasePaneIfOwnedBy (now : Z) (paneId clientId : string)
    (a : PaneInputOwnershipArbiter) : bool * PaneInputOwnershipArbiter :=
  let a := expireStaleOwners now a in
  if bool_decide (currentOwner paneId a = Some clientId)
  then (true, Arbiter_ (jm_delete paneId (paneOwners a)) (leaseDurationMs a))
  else (false, a).

Definition releaseClient (now : Z) (clientId : string) (a : PaneInputOwnershipArbiter) :
    Z * PaneInputOwnershipArbiter :=
  let a := expireStaleOwners now a in
  let owned := filter (fun kv => lease_clientId kv.2 = clientId) (paneOwners a) in
  (Z.of_nat (length owned),
   Arbiter_ (jm_delete_if (fun _ l => String.eqb (lease_clientId l) clientId) (paneOwners a))
     (leaseDurationMs a)).

Section Snapshot.
(** [String.prototype.localeCompare]. *)
Variable localeCompare : string -> string -> Z.

Definition snapshot (now : Z) (a : PaneInputOwnershipArbiter) :
    list PaneInputOwnershipSnapshotRow * PaneInputOwnershipArbiter :=
  let a := expireStaleOwners now a in
  (js_sort (fun x y => localeCompare (row_paneId x) (row_paneId y))
     (map (fun kv => OwnerRow kv.1 (lease_clientId kv.2) (Some (expiresAtMs kv.2)))
        (paneOwners a)), a).

(** ** The ownership state containers *)

Inductive OwnershipState : Type :=
| OSArbiter (a : PaneInputOwnershipArbiter)
| OSMap (owners : list (string * string))
| OSUndefined.

Definition snapshotPaneInputOwnership (now : Z) (st : OwnershipState) :
    list PaneInputOwnershipSnapshotRow * OwnershipState :=
  match st with
  | OSUndefined => ([], st)
  | OSArbiter a => let '(rows, a) := snapshot now a in (rows, OSArbiter a)
  | OSMap owners =>
      (js_sort (fun x y => localeCompare (row_paneId x) (row_paneId y))
         (map (fun kv => OwnerRow kv.1 kv.2 None) owners), st)
  end.
End Snapshot.

Definition claimPaneInputOwnership (now : Z) (paneId clientId : string)
    (overrideRequested overrideAllowed : bool) (st : OwnershipState) :
    option PaneInputClaimResult * OwnershipState :=
  match st with
  | OSUndefined => (None, st)
  | OSArbiter a =>
      let '(r, a) := claim now paneId clientId overrideRequested overrideAllowed a in
      (Some r, OSArbiter a)
  | OSMap owners =>
      if may_claim (jm_get paneId owners) clientId
      then (Some (ClaimOk false), OSMap (jm_set paneId clientId owners))
      else if overrideRequested && overrideAllowed
      then (Some (ClaimOk true), OSMap (jm_set paneId clientId owners))
      else (Some (ClaimRefused (default "" (jm_get paneId owners)) overrideAllowed), st)
  end.

Definition releasePaneInputOwnership (now : Z) (paneId clientId : string)
    (st : OwnershipState) : bool * OwnershipState :=
  match st with
  | OSUndefined => (false, st)
  | OSArbiter a =>
      let '(r, a) := releasePaneIfOwnedBy now paneId clientId a in (r, OSArbiter a)
  | OSMap owners =>
      if bool_decide (jm_get paneId owners = Some clientId)
      then (true, OSMap (jm_delete paneId owners))
      else (false, st)
  end.

Definition releaseClientInputOwnership (now : Z) (clientId : string)
    (st : OwnershipState) : Z * OwnershipState :=
  match st with
  | OSUndefined => (0, st)
  | OSArbiter a => let '(n, a) := releaseClient now clientId a in (n, OSArbiter a)
  | OSMap owners =>
      (Z.of_nat (length (filter (fun kv => kv.2 = clientId) owners)),
       OSMap (jm_delete_if (fun _ o => String.eqb o clientId) owners))
  end.

(** ** Specification: who holds a lane at an instant *)

Definition live_lease (now : Z) (a : PaneInputOwnershipArbiter) (paneId : string) :
    option PaneInputOwnerLease :=
  l ← jm_get paneId (paneOwners a); if expiresAtMs l <=? now then None else Some l.

Definition holder (now : Z) (a : PaneInputOwnershipArbiter) (paneId : string) :
    option string := lease_clientId <$> live_lease now a paneId.

Definition arbiter_wf (a : PaneInputOwnershipArbiter) : Prop := jm_wf (paneOwners a).

(** Calls of the arbiter, with their clock readings. *)
Inductive op : Type :=
| OpClaim (now : Z) (paneId clientId : string) (overrideRequested overrideAllowed : bool)
| OpRelease (now : Z) (paneId clientId : string)
| OpReleaseClient (now : Z) (clientId : string)
| OpSnapshot (now : Z).

Definition op_time (o : op) : Z :=
  match o with
  | OpClaim now _ _ _ _ | OpRelease now _ _ | OpReleaseClient now _ | OpSnapshot now => now
  end.

Definition apply_op (o : op) (a : PaneInputOwnershipArbiter) : PaneInputOwnershipArbiter :=
  match o with
  | OpClaim now p c r al => (claim now p c r al a).2
  | OpRelease now p c => (releasePaneIfOwnedBy now p c a).2
  | OpReleaseClient now c => (releaseClient now c a).2
  | OpSnapshot now => expireStaleOwners now a
  end.

Definition apply_ops (ops : list op) (a : PaneInputOwnershipArbiter) :
    PaneInputOwnershipArbiter := foldl (fun a o => apply_op o a) a ops.

(** [o] leaves the lane of [p] with [c]: it neither gives the lane up for [c]
    nor takes it over. *)
Definition keeps_lane (p c : string) (o : op) : bool :=
  match o with
  | OpClaim _ p' c' r al => negb (String.eqb p' p) || String.eqb c' c || negb (r && al)
  | OpRelease _ p' c' => negb (String.eqb p' p && String.eqb c' c)
  | OpReleaseClient _ c' => negb (String.eqb c' c)
  | OpSnapshot _ => true
  end.

(** [o] does not claim the lane of [p]. *)
Definition no_claim (p : string) (o : op) : bool :=
  match o with OpClaim _ p' _ _ _ => negb (String.eqb p' p) | _ => true end.

(** ** Lemmas *)

Lemma resolveLeaseDurationMs_pos d : 0 < resolveLeaseDurationMs d.
Proof.
  unfold resolveLeaseDurationMs, DEFAULT_PANE_INPUT_LEASE_DURATION_MS.
  destruct d as [d|]; [|lia]. destruct (Z.leb_spec d 0); lia.
Qed.

Lemma wf_expire now a : arbiter_wf a -> arbiter_wf (expireStaleOwners now a).
Proof. apply jm_wf_delete_if. Qed.

Lemma wf_setOwner now p c a : arbiter_wf a -> arbiter_wf (setOwner now p c a).
Proof. apply jm_wf_set. Qed.

Create HintDb arbiter discriminated.
#[export] Hint Resolve wf_expire wf_setOwner jm_wf_delete jm_wf_delete_if : arbiter.

Lemma wf_apply_op o a : arbiter_wf a -> arbiter_wf (apply_op o a).
Proof.
  intros Hwf. destruct o; simpl; unfold claim, releasePaneIfOwnedBy;
    repeat (case_match; simpl); try apply jm_wf_delete; try apply jm_wf_delete_if;
    auto with arbiter; by apply wf_expire.
Qed.

Lemma wf_apply_ops ops a : arbiter_wf a -> arbiter_wf (apply_ops ops a).
Proof.
  revert a. induction ops as [|o ops IH]; intros a Hwf; [done|].
  by apply IH, wf_apply_op.
Qed.

Lemma get_expire now p a :
  arbiter_wf a ->
  jm_get p (paneOwners (expireStaleOwners now a)) = live_lease now a p.
Proof. intros. unfold live_lease. simpl. by rewrite jm_get_delete_if. Qed.

Lemma currentOwner_expire now p a :
  arbiter_wf a -> currentOwner p (expireStaleOwners now a) = holder now a p.
Proof. intros. unfold currentOwner, holder. by rewrite get_expire. Qed.

(** Dropping the leases stale at [now] does not change the lanes at a later instant. *)
Lemma live_lease_expire now t p a :
  arbiter_wf a -> now <= t ->
  live_lease t (expireStaleOwners now a) p = live_lease t a p.
Proof.
  intros Hwf Ht. unfold live_lease at 1. rewrite get_expire by done. unfold live_lease.
  destruct (jm_get p (paneOwners a)) as [l|]; simpl; [|done].
  destruct (Z.leb_spec (expiresAtMs l) now); simpl; [|done].
  by rewrite (proj2 (Z.leb_le _ _)) by lia.
Qed.

Lemma live_lease_setOwner t now p p' c a :
  live_lease t (setOwner now p' c a) p =
    if decide (p = p')
    then let e := now + leaseDurationMs a in
         if e <=? t then None else Some (Lease c e)
    else live_lease t a p.
Proof. unfold live_lease. simpl. rewrite jm_get_set. by case_decide. Qed.

Lemma live_lease_delete t p p' m d :
  live_lease t (Arbiter_ (jm_delete p' m) d) p =
    if decide (p = p') then None else live_lease t (Arbiter_ m d) p.
Proof. unfold live_lease. simpl. rewrite jm_get_delete. by case_decide. Qed.

Lemma live_lease_delete_if t p test m d :
  jm_wf m ->
  live_lease t (Arbiter_ (jm_delete_if test m) d) p =
    l ← live_lease t (Arbiter_ m d) p; if test p l then None else Some l.
Proof.
  intros. unfold live_lease. simpl. rewrite jm_get_delete_if by done.
  destruct (jm_get p m) as [l|]; simpl; [|done].
  destruct (test p l) eqn:Ht, (expiresAtMs l <=? t) eqn:E; simpl;
    rewrite ?Ht, ?E; simpl; rewrite ?Ht; done.
Qed.

Lemma duration_apply_op o a : leaseDurationMs (apply_op o a) = leaseDurationMs a.
Proof.
  destruct o; simpl; unfold claim, releasePaneIfOwnedBy; repeat (case_match; simpl); done.
Qed.

(** A claim in terms of the lane it finds. *)
Lemma claim_by_holder now p c r al a :
  arbiter_wf a ->
  claim now p c r al a =
    if may_claim (holder now a p) c
    then (ClaimOk false, setOwner now p c (expireStaleOwners now a))
    else if r && al then (ClaimOk true, setOwner now p c (expireStaleOwners now a))
    else (ClaimRefused (default "" (holder now a p)) al, expireStaleOwners now a).
Proof. intros. unfold claim. by rewrite currentOwner_expire. Qed.

(** [c] holds the lane of [p] until [e] at least. *)
Definition held_until (e : Z) (c p : string) (a : PaneInputOwnershipArbiter) : Prop :=
  exists e', jm_get p (paneOwners a) = Some (Lease c e') /\ e <= e'.

Lemma held_until_holder e c p t a : held_until e c p a -> t < e -> holder t a p = Some c.
Proof.
  intros (e' & Hget & He) Ht. unfold holder, live_lease. rewrite Hget. simpl.
  by rewrite (proj2 (Z.leb_gt _ _)) by lia.
Qed.

Lemma held_until_expire e c p now a :
  arbiter_wf a -> held_until e c p a -> now < e ->
  held_until e c p (expireStaleOwners now a).
Proof.
  intros Hwf (e' & Hget & He) Ht. exists e'. rewrite get_expire by done.
  unfold live_lease. rewrite Hget. simpl. by rewrite (proj2 (Z.leb_gt _ _)) by lia.
Qed.

Lemma held_until_setOwner e c p p' now c' a :
  (p' = p -> c' = c /\ e <= now + leaseDurationMs a) ->
  held_until e c p a -> held_until e c p (setOwner now p' c' a).
Proof.
  intros Hsame Hheld. unfold held_until. simpl. rewrite jm_get_set.
  case_decide as E; [|done]. destruct (Hsame (eq_sym E)) as [-> ?]. eauto.
Qed.

Lemma may_claim_held c c' : c <> "" -> may_claim (Some c) c' = true -> c' = c.
Proof.
  intros Hc. simpl. destruct c; [done|]. by intros ->%String.eqb_eq.
Qed.

Lemma keeps_lane_held e c p o a :
  arbiter_wf a -> c <> "" -> held_until e c p a ->
  op_time o < e -> e <= op_time o + leaseDurationMs a ->
  keeps_lane p c o = true -> held_until e c p (apply_op o a).
Proof.
  intros Hwf Hc Hheld Hlt Hle Hk. pose proof (held_until_holder _ _ _ _ _ Hheld Hlt) as Hh.
  destruct o as [now p' c' r al|now p' c'|now c'|now]; simpl in *.
  - rewrite claim_by_holder by done.
    assert (Hset : (p' = p -> c' = c) ->
      held_until e c p (setOwner now p' c' (expireStaleOwners now a))).
    { intros Heq. apply held_until_setOwner; [|by apply held_until_expire].
      intros ->. split; [by apply Heq|done]. }
    destruct (may_claim _ _) eqn:Hm; simpl.
    { apply Hset. intros ->. rewrite Hh in Hm. by apply (may_claim_held c c'). }
    destruct (r && al); simpl; [|by apply held_until_expire].
    apply Hset. intros ->. rewrite String.eqb_refl in Hk. simpl in Hk.
    rewrite orb_false_r in Hk. by apply String.eqb_eq.
  - unfold releasePaneIfOwnedBy. case_bool_decide as Ho; simpl; [|by apply held_until_expire].
    destruct (held_until_expire e c p now a Hwf Hheld Hlt) as (e' & Hget & He).
    exists e'. simpl. rewrite jm_get_delete, decide_False; [done|]. intros ->.
    rewrite currentOwner_expire in Ho by done. simplify_eq.
    rewrite !String.eqb_refl in Hk. done.
  - destruct (held_until_expire e c p now a Hwf Hheld Hlt) as (e' & Hget & He).
    exists e'. simpl. rewrite jm_get_delete_if by by apply wf_expire.
    simpl in Hget. rewrite Hget. simpl. apply negb_true_iff in Hk.
    rewrite String.eqb_sym in Hk. by rewrite Hk.
  - by apply held_until_expire.
Qed.

Lemma keeps_lane_held_ops e c p ops a :
  arbiter_wf a -> c <> "" -> held_until e c p a ->
  Forall (fun o => op_time o < e <= op_time o + leaseDurationMs a) ops ->
  forallb (keeps_lane p c) ops = true -> held_until e c p (apply_ops ops a).
Proof.
  revert a. induction ops as [|o ops IH]; intros a Hwf Hc Hheld Hall Hk; [done|].
  apply Forall_cons in Hall as [[Ho1 Ho2] Hall]. simpl in Hk. apply andb_true_iff in Hk as [Hk Hks].
  apply IH; [by apply wf_apply_op|done|by apply keeps_lane_held| |done].
  by rewrite duration_apply_op.
Qed.

Lemma claim_ok_get now p c r al ov a a' :
  claim now p c r al a = (ClaimOk ov, a') ->
  jm_get p (paneOwners a') = Some (Lease c (now + leaseDurationMs a)).
Proof. unfold claim. intros H. repeat case_match; simplify_eq; apply jm_get_set_eq. Qed.

Lemma claim_ok_held now p c r al ov a a' :
  claim now p c r al a = (ClaimOk ov, a') -> held_until (now + leaseDurationMs a) c p a'.
Proof. intros H%claim_ok_get. eexists. split; [exact H|lia]. Qed.

(** Without claims on [p] the lease of [p] can only disappear. *)
Lemma no_claim_get o p l a :
  arbiter_wf a -> no_claim p o = true ->
  jm_get p (paneOwners (apply_op o a)) = Some l -> jm_get p (paneOwners a) = Some l.
Proof.
  intros Hwf Hno Hget.
  assert (Hexp : forall now, jm_get p (paneOwners (expireStaleOwners now a)) = Some l ->
                 jm_get p (paneOwners a) = Some l).
  { intros now. rewrite get_expire by done. unfold live_lease.
    destruct (jm_get p (paneOwners a)); simpl; [|done]. by case_match. }
  destruct o as [now p' c' r al|now p' c'|now c'|now]; simpl in *.
  - apply (Hexp now). revert Hget. unfold claim.
    assert (p <> p') by (intros ->; by rewrite String.eqb_refl in Hno).
    repeat case_match; simpl; rewrite ?jm_get_set_ne by done; done.
  - apply (Hexp now). revert Hget. unfold releasePaneIfOwnedBy.
    case_bool_decide; simpl; [|done]. rewrite jm_get_delete. by case_decide.
  - apply (Hexp now). revert Hget. rewrite jm_get_delete_if by by apply wf_expire. simpl.
    intros (l' & ? & Hl)%bind_Some. case_match; congruence.
  - by apply (Hexp now).
Qed.

Lemma no_claim_get_ops ops p l a :
  arbiter_wf a -> forallb (no_claim p) ops = true ->
  jm_get p (paneOwners (apply_ops ops a)) = Some l -> jm_get p (paneOwners a) = Some l.
Proof.
  revert a. induction ops as [|o ops IH]; intros a Hwf Hno Hget; [done|].
  simpl in Hno. apply andb_true_iff in Hno as [Ho Hno].
  eapply no_claim_get; [done..|]. apply (IH (apply_op o a)); [by apply wf_apply_op|done|done].
Qed.

(** *** The legacy map and the arbiter

    A legacy map is an arbiter whose leases never lapse. *)

Inductive outcome : Type :=
| OutClaim (r : option PaneInputClaimResult)
| OutReleased (b : bool)
| OutCount (n : Z)
| OutRows (rows : list (string * string)).

Definition os_step (localeCompare : string -> string -> Z) (o : op) (st : OwnershipState) :
    outcome * OwnershipState :=
  match o with
  | OpClaim now p c r al =>
      let '(x, st) := claimPaneInputOwnership now p c r al st in (OutClaim x, st)
  | OpRelease now p c =>
      let '(x, st) := releasePaneInputOwnership now p c st in (OutReleased x, st)
  | OpReleaseClient now c =>
      let '(x, st) := releaseClientInputOwnership now c st in (OutCount x, st)
  | OpSnapshot now =>
      let '(x, st) := snapshotPaneInputOwnership localeCompare now st in
      (OutRows (map (fun r => (row_paneId r, row_ownerClientId r)) x), st)
  end.

Fixpoint os_run (localeCompare : string -> string -> Z) (ops : list op) (st : OwnershipState) :
    list outcome :=
  match ops with
  | [] => []
  | o :: ops => let '(x, st) := os_step localeCompare o st in x :: os_run localeCompare ops st
  end.

Definition owner_pair (kv : string * PaneInputOwnerLease) : string * string :=
  (kv.1, lease_clientId kv.2).

(** The arbiter [a] has only leases beyond [horizon], for the owners of [m]. *)
Definition legacy_sim (horizon : Z) (a : PaneInputOwnershipArbiter)
    (m : list (string * string)) : Prop :=
  m = map owner_pair (paneOwners a) /\
  Forall (fun kv => horizon <= expiresAtMs kv.2) (paneOwners a).

Lemma legacy_get p l : jm_get p (map owner_pair l) = lease_clientId <$> jm_get p l.
Proof. induction l as [|[k x] l IH]; simpl; [done|]. by case_decide. Qed.

Lemma legacy_set p c e l :
  map owner_pair (jm_set p (Lease c e) l) = jm_set p c (map owner_pair l).
Proof.
  induction l as [|[k x] l IH]; simpl; [done|].
  case_decide; simpl; [done|by rewrite IH].
Qed.

Lemma legacy_filter (P : string * string -> Prop) (Q : string * PaneInputOwnerLease -> Prop)
    `{!forall x, Decision (P x), !forall x, Decision (Q x)} l :
  (forall kv, P (owner_pair kv) <-> Q kv) ->
  filter P (map owner_pair l) = map owner_pair (filter Q l).
Proof.
  intros HPQ. induction l as [|kv l IH]; simpl; [done|]. rewrite !filter_cons.
  destruct (decide (Q kv)); simpl.
  - rewrite decide_True by by apply HPQ. by rewrite IH.
  - rewrite decide_False by by rewrite HPQ. done.
Qed.

Lemma legacy_expire horizon now a m :
  legacy_sim horizon a m -> now < horizon -> expireStaleOwners now a = a.
Proof.
  intros [_ Hall] Hlt. destruct a as [l d]. unfold expireStaleOwners. simpl. f_equal.
  apply filter_all. eapply Forall_impl; [exact Hall|]. simpl. intros kv ?.
  apply Z.leb_gt. lia.
Qed.

Lemma sort_insert_map {A B} (f : A -> B) (ca : A -> A -> Z) (cb : B -> B -> Z) x l :
  (forall x y, ca x y = cb (f x) (f y)) ->
  map f (sort_insert ca x l) = sort_insert cb (f x) (map f l).
Proof.
  intros Hc. induction l as [|y l IH]; simpl; [done|].
  rewrite <- Hc. case_match; simpl; [done|by rewrite IH].
Qed.

Lemma js_sort_map {A B} (f : A -> B) (ca : A -> A -> Z) (cb : B -> B -> Z) l :
  (forall x y, ca x y = cb (f x) (f y)) -> map f (js_sort ca l) = js_sort cb (map f l).
Proof.
  intros Hc. induction l as [|x l IH]; simpl; [done|].
  by rewrite (sort_insert_map f ca cb), IH.
Qed.

Lemma legacy_step lc horizon o a m :
  legacy_sim horizon a m ->
  op_time o < horizon <= op_time o + leaseDurationMs a ->
  exists a' m', os_step lc o (OSArbiter a) = ((os_step lc o (OSMap m)).1, OSArbiter a') /\
    (os_step lc o (OSMap m)).2 = OSMap m' /\
    legacy_sim horizon a' m' /\ leaseDurationMs a' = leaseDurationMs a.
Proof.
  intros Hsim [Hlt Hle]. pose proof Hsim as [-> Hall].
  destruct o as [now p c r al|now p c|now c|now];
    cbn [op_time os_step claimPaneInputOwnership releasePaneInputOwnership
         releaseClientInputOwnership snapshotPaneInputOwnership] in *.
  - unfold claim, currentOwner. rewrite (legacy_expire _ _ _ _ Hsim Hlt), legacy_get.
    assert (Hset : legacy_sim horizon (setOwner now p c a) (jm_set p c (map owner_pair (paneOwners a)))).
    { split; simpl; [by rewrite legacy_set|]. by apply Forall_jm_set. }
    repeat case_match; simplify_eq/=; do 2 eexists; split_and!; done.
  - unfold releasePaneIfOwnedBy, currentOwner.
    rewrite (legacy_expire _ _ _ _ Hsim Hlt), legacy_get.
    case_bool_decide; do 2 eexists; split_and!; try done; split; simpl.
    + unfold jm_delete. by apply legacy_filter.
    + by apply Forall_filter_l.
  - unfold releaseClient. rewrite (legacy_expire _ _ _ _ Hsim Hlt).
    rewrite (legacy_filter _ (fun kv => lease_clientId kv.2 = c)) by done.
    rewrite length_map. do 2 eexists. split_and!; try done; split; simpl.
    + unfold jm_delete_if. by apply legacy_filter.
    + by apply Forall_filter_l.
  - unfold snapshot. rewrite (legacy_expire _ _ _ _ Hsim Hlt). do 2 eexists. split_and!; try done.
    simpl. f_equal. f_equal.
    rewrite !(js_sort_map (fun r => (row_paneId r, row_ownerClientId r)) _
               (fun x y => lc x.1 y.1)) by done.
    by rewrite !map_map.
Qed.

(** ** Properties *)

(** C12. Exclusive input lane.  Once a client's claim on a pane is accepted at
    [t1], then whatever arbiter calls follow, as long as the client does not
    give the lane up and nobody takes it over explicitly, every claim by another
    client made before the lease [t1 + leaseDurationMs] lapses and without an
    allowed takeover request is refused, naming that client as the owner. *)
Theorem lane_exclusive (a a1 : PaneInputOwnershipArbiter) (p c1 c2 : string)
    (t1 t2 : Z) (r1 al1 r2 al2 ov : bool) (ops : list op) :
  arbiter_wf a -> c1 <> "" -> c2 <> c1 ->
  claim t1 p c1 r1 al1 a = (ClaimOk ov, a1) ->
  Forall (fun o => t1 <= op_time o <= t2) ops ->
  forallb (keeps_lane p c1) ops = true ->
  t1 <= t2 < t1 + leaseDurationMs a -> r2 && al2 = false ->
  (claim t2 p c2 r2 al2 (apply_ops ops a1)).1 = ClaimRefused c1 al2.
Proof.
  intros Hwf Hc1 Hc2 Hclaim Hops Hk Ht Hno.
  pose proof (claim_ok_held _ _ _ _ _ _ _ _ Hclaim) as Hheld.
  assert (Ha1 : a1 = apply_op (OpClaim t1 p c1 r1 al1) a) by (simpl; by rewrite Hclaim).
  assert (Hwf1 : arbiter_wf a1) by (rewrite Ha1; by apply wf_apply_op).
  apply (keeps_lane_held_ops _ _ _ ops) in Hheld; [|done..| |done].
  2: { rewrite Ha1, duration_apply_op. eapply Forall_impl; [exact Hops|]. simpl. lia. }
  rewrite claim_by_holder by by apply wf_apply_ops.
  rewrite (held_until_holder _ _ _ t2 _ Hheld) by lia.
  destruct (may_claim (Some c1) c2) eqn:Hm; [by apply may_claim_held in Hm|].
  by rewrite Hno.
Qed.

Lemma lane_exclusive_witness :
  (claim 150 "%1" "bob" false true
     (apply_ops [OpClaim 120 "%2" "bob" false true; OpRelease 130 "%1" "bob"]
        (claim 100 "%1" "ann" false true (newArbiter (Some 100))).2)).1
  = ClaimRefused "ann" true.
Proof.
  apply (lane_exclusive (newArbiter (Some 100)) _ "%1" "ann" "bob" 100 150
           false true false true false); [constructor|done|done|reflexivity| |reflexivity
    |simpl; lia|reflexivity].
  repeat constructor; simpl; lia.
Defined.

(** A lane never stays taken for longer than its lease: when nobody claims
    the pane after a claim accepted at [t1], any claim from [t1 +
    leaseDurationMs] on is granted, without a takeover. *)
Theorem lane_lease_lapses (a a1 : PaneInputOwnershipArbiter) (p c1 c2 : string)
    (t1 t2 : Z) (r1 al1 r2 al2 ov : bool) (ops : list op) :
  arbiter_wf a -> claim t1 p c1 r1 al1 a = (ClaimOk ov, a1) ->
  forallb (no_claim p) ops = true -> t1 + leaseDurationMs a <= t2 ->
  (claim t2 p c2 r2 al2 (apply_ops ops a1)).1 = ClaimOk false.
Proof.
  intros Hwf Hclaim Hno Ht.
  assert (Ha1 : a1 = apply_op (OpClaim t1 p c1 r1 al1) a) by (simpl; by rewrite Hclaim).
  assert (Hwf1 : arbiter_wf a1) by (rewrite Ha1; by apply wf_apply_op).
  pose proof (claim_ok_get _ _ _ _ _ _ _ _ Hclaim) as Hget.
  rewrite claim_by_holder by by apply wf_apply_ops.
  enough (holder t2 (apply_ops ops a1) p = None) as -> by done.
  unfold holder, live_lease.
  destruct (jm_get p (paneOwners (apply_ops ops a1))) as [l|] eqn:Hl; simpl; [|done].
  apply no_claim_get_ops in Hl; [|done..]. simplify_eq. simpl.
  by rewrite (proj2 (Z.leb_le _ _)) by lia.
Qed.

Lemma lane_lease_lapses_witness :
  (claim 200 "%1" "bob" false true
     (apply_ops [OpSnapshot 150]
        (claim 100 "%1" "ann" false true (newArbiter (Some 100))).2)).1 = ClaimOk false.
Proof.
  apply (lane_lease_lapses (newArbiter (Some 100)) _ "%1" "ann" "bob" 100 200
           false true false true false); [constructor|reflexivity|reflexivity|simpl; lia].
Defined.

(** The legacy shared [Map] and the arbiter agree: on any sequence of
    calls made before the first lease lapses, the helpers that accept either
    container return the same outcomes for both. *)
Theorem legacy_map_equivalence (localeCompare : string -> string -> Z) (horizon : Z)
    (d : option Z) (ops : list op) :
  Forall (fun o => op_time o < horizon <= op_time o + resolveLeaseDurationMs d) ops ->
  os_run localeCompare ops (OSArbiter (newArbiter d)) = os_run localeCompare ops (OSMap []).
Proof.
  assert (Hgen : forall a m, legacy_sim horizon a m ->
    Forall (fun o => op_time o < horizon <= op_time o + leaseDurationMs a) ops ->
    os_run localeCompare ops (OSArbiter a) = os_run localeCompare ops (OSMap m)).
  { induction ops as [|o ops' IH]; intros a m Hsim Hall; [done|].
    apply Forall_cons in Hall as [Ho Hall].
    destruct (legacy_step localeCompare _ _ _ _ Hsim Ho) as (a' & m' & Ha & Hm & Hsim' & Hd).
    cbn [os_run]. rewrite Ha. destruct (os_step _ o (OSMap m)) as [x st]. simpl in *.
    rewrite Hm. f_equal. apply IH; [done|]. by rewrite Hd. }
  intros Hall. apply Hgen; [|done]. split; [done|constructor].
Qed.

Lemma legacy_map_equivalence_witness :
  let ops := [OpClaim 0 "%1" "ann" false true; OpClaim 10 "%1" "bob" false true;
              OpClaim 20 "%1" "bob" true true; OpSnapshot 30; OpReleaseClient 40 "bob"] in
  os_run (fun _ _ => 0) ops (OSArbiter (newArbiter (Some 100))) =
    [OutClaim (Some (ClaimOk false)); OutClaim (Some (ClaimRefused "ann" true));
     OutClaim (Some (ClaimOk true)); OutRows [("%1", "bob")]; OutCount 1].
Proof.
  cbv zeta. rewrite (legacy_map_equivalence (fun _ _ => 0) 50 (Some 100)).
  - reflexivity.
  - repeat constructor; simpl; lia.
Defined.

(** Release: [releaseClient] drops exactly the lanes its client holds at
    that instant and reports how many they are; every other lane, at that
    instant and later, is as before. *)
Theorem releaseClient_frees_exactly (a : PaneInputOwnershipArbiter) (now t : Z)
    (c p : string) :
  arbiter_wf a -> now <= t ->
  let '(n, a') := releaseClient now c a in
  n = Z.of_nat (length (filter (fun kv => holder now a kv.1 = Some c) (paneOwners a))) /\
  holder t a' p =
    if bool_decide (holder t a p = Some c) then None else holder t a p.
Proof.
  intros Hwf Ht. unfold releaseClient. simpl. split.
  - f_equal. unfold jm_delete_if. rewrite list_filter_filter. f_equal.
    assert (Hl : forall kv, kv ∈ paneOwners a -> jm_get kv.1 (paneOwners a) = Some kv.2).
    { intros [k l] Hin. by apply jm_In_get. }
    revert Hl. generalize (paneOwners a) at 1 3 4. intros ls Hl.
    induction ls as [|kv ls IH]; [done|]. rewrite !filter_cons.
    rewrite IH by (intros; apply Hl; set_solver).
    assert (Hkv : holder now a kv.1 = Some c <->
      lease_clientId kv.2 = c /\ (expiresAtMs kv.2 <=? now) = false).
    { unfold holder, live_lease. rewrite Hl by set_solver. simpl.
      destruct (expiresAtMs kv.2 <=? now); naive_solver. }
    destruct (decide (holder now a kv.1 = Some c)) as [E|E].
    + rewrite decide_True by by apply Hkv. done.
    + rewrite decide_False by by rewrite <- Hkv. done.
  - unfold holder at 1. rewrite live_lease_delete_if by by apply jm_wf_delete_if.
    change (Arbiter_ _ _) with (expireStaleOwners now a).
    rewrite live_lease_expire by done. unfold holder.
    destruct (live_lease t a p) as [l|]; [|done].
    case_bool_decide as E; simpl in *.
    + simplify_eq. by rewrite String.eqb_refl.
    + destruct (String.eqb_spec (lease_clientId l) c); naive_solver.
Qed.

Lemma releaseClient_frees_exactly_witness :
  let a := Arbiter_ [("%1", Lease "ann" 90); ("%2", Lease "bob" 80)] 50 in
  let '(n, a') := releaseClient 60 "ann" a in
  n = Z.of_nat (length (filter (fun kv => holder 60 a kv.1 = Some "ann") (paneOwners a))) /\
  holder 70 a' "%2" =
    if bool_decide (holder 70 a "%2" = Some "ann") then None else holder 70 a "%2".
Proof.
  apply (releaseClient_frees_exactly _ 60 70 "ann" "%2"); [|lia].
  apply (bool_decide_unpack _). vm_compute. exact I.
Defined.
