(* ===== verification/Engine.v ===== *)
(** * Bridge engine ([src/bridge/bridge-engine.ts])

    [BridgeEngine] streams pane output to subscribers.  Watchers are mutable
    objects shared between the [panes] map, a running [pollOnce] and the
    [attach] calls that wait for their first capture, and the code between two
    [await]s runs without interruption; so the model keeps watchers in a store
    addressed by references and has one function per uninterrupted segment:

    - [attachStart], then, when the pane is new, [attachCaptured] or
      [attachFailed] once [capturePane] settles;
    - [pollStart], then one [pollCaptured] or [pollFailed] per pane;
    - [detach] and [detachAll], which do not wait.

    [sys] closes the engine with the [attach] calls in flight, and [exec] lets
    the environment interleave the segments in any order. *)

From S2P Require Import Prelude JsMap.
Local Open Scope Z_scope.

(** ** Data *)

Inductive mode : Type := Snapshot | Delta.

Record BridgePaneEvent : Type := Event {
  ev_mode : mode;
  ev_paneId : string;
  ev_chunk : string;
  ev_streamSeq : Z
}.

Record BridgeAttachReplayMetadata : Type := ReplayMetadata {
  meta_paneId : string;
  requestedLastSeq : option Z;
  latestSeq : Z;
  oldestHistorySeq : option Z;
  latestHistorySeq : option Z;
  replayedCount : Z;
  replayUsed : bool;
  fallbackToSnapshot : bool;
  replayGapDetected : bool
}.

Record BridgeReplayOffsetSnapshotRow : Type := OffsetRow {
  offset_paneId : string;
  replayOffset : Z
}.

Record PaneWatcher : Type := Watcher {
  subscribers : list string;
  lastOutput : string;
  streamSeq : Z;
  history : list BridgePaneEvent
}.

(** [pollRest] holds the entries a running [pollOnce] has not handled yet; it
    awaits the capture of the first one. *)
Record BridgeEngine : Type := Engine_ {
  panes : list (string * nat);
  store : gmap nat PaneWatcher;
  nextRef : nat;
  pollTimer : bool;
  isPolling : bool;
  pollRest : list (string * nat)
}.

Definition newEngine : BridgeEngine := Engine_ [] ∅ 0 false false [].

Inductive effect : Type :=
| Output (clientId : string) (event : BridgePaneEvent)
| PollError (clientId paneId : string).

#[export] Instance mode_eq_dec : EqDecision mode.
Proof. solve_decision. Defined.
#[export] Instance event_eq_dec : EqDecision BridgePaneEvent.
Proof. solve_decision. Defined.

(** ** Field updates *)

Definition set_panes (ps : list (string * nat)) (e : BridgeEngine) : BridgeEngine :=
  Engine_ ps (store e) (nextRef e) (pollTimer e) (isPolling e) (pollRest e).
Definition set_watcher (r : nat) (w : PaneWatcher) (e : BridgeEngine) : BridgeEngine :=
  Engine_ (panes e) (<[r := w]> (store e)) (nextRef e) (pollTimer e) (isPolling e) (pollRest e).
Definition set_timer (b : bool) (e : BridgeEngine) : BridgeEngine :=
  Engine_ (panes e) (store e) (nextRef e) b (isPolling e) (pollRest e).
Definition set_poll (rest : list (string * nat)) (e : BridgeEngine) : BridgeEngine :=
  Engine_ (panes e) (store e) (nextRef e) (pollTimer e)
    (match rest with [] => false | _ => true end) rest.
Definition set_subscribers (cs : list string) (w : PaneWatcher) : PaneWatcher :=
  Watcher cs (lastOutput w) (streamSeq w) (history w).
Definition set_lastOutput (s : string) (w : PaneWatcher) : PaneWatcher :=
  Watcher (subscribers w) s (streamSeq w) (history w).

(** ** Operations *)

Definition ensureStarted (e : BridgeEngine) : BridgeEngine :=
  if pollTimer e then e else set_timer true e.

Definition stopIfIdle (e : BridgeEngine) : BridgeEngine :=
  if (0 <? length (panes e))%nat || negb (pollTimer e) then e else set_timer false e.

Definition getStats (e : BridgeEngine) : Z * bool :=
  (Z.of_nat (length (panes e)), pollTimer e).

Definition getReplayOffsetsSnapshot (localeCompare : string -> string -> Z)
    (e : BridgeEngine) : list BridgeReplayOffsetSnapshotRow :=
  js_sort (fun a b => localeCompare (offset_paneId a) (offset_paneId b))
    (omap (fun pr => w ← store e !! pr.2; Some (OffsetRow pr.1 (streamSeq w))) (panes e)).

Definition computeDelta (previous current : string) : option (mode * string) :=
  if String.eqb current previous then None
  else if starts_with previous current then
    let chunk := str_drop (String.length previous) current in
    if is_empty chunk then None else Some (Delta, chunk)
  else Some (Snapshot, current).

Definition nextEvent (maxHistoryEvents : Z) (w : PaneWatcher) (paneId : string)
    (m : mode) (chunk : string) : BridgePaneEvent * PaneWatcher :=
  let seq := streamSeq w + 1 in
  let event := Event m paneId chunk seq in
  let pushed := history w ++ [event] in
  let history :=
    if maxHistoryEvents <? Z.of_nat (length pushed) then tail pushed else pushed in
  (event, Watcher (subscribers w) (lastOutput w) seq history).

Definition sortBySeq : list BridgePaneEvent -> list BridgePaneEvent :=
  js_sort (fun a b => ev_streamSeq a - ev_streamSeq b).

(** What [attach] keeps across its [await]. *)
Record attach_frame : Type := Frame {
  af_clientId : string;
  af_paneId : string;
  af_ref : nat;
  af_requestedLastSeq : option Z
}.

#[export] Instance frame_eq_dec : EqDecision attach_frame.
Proof. solve_decision. Defined.

Inductive attach_result : Type :=
| Attached (m : BridgeAttachReplayMetadata)
| Capturing (f : attach_frame).

(** The watcher of a pane, created when the pane is not watched. *)
Definition getWatcher (paneId : string) (e : BridgeEngine) : nat * PaneWatcher * BridgeEngine :=
  let fresh := Watcher [] "" 0 [] in
  match jm_get paneId (panes e) with
  | Some r => (r, default fresh (store e !! r), e)
  | None =>
      let r := nextRef e in
      (r, fresh,
       Engine_ (jm_set paneId r (panes e)) (<[r := fresh]> (store e)) (S r)
         (pollTimer e) (isPolling e) (pollRest e))
  end.

(** [attach] up to its return or its [await]. *)
Definition attachStart (clientId paneId : string) (sinceSeq : option num) (e : BridgeEngine) :
    attach_result * list effect * BridgeEngine :=
  let '(r, w, e) := getWatcher paneId e in
  let w := set_subscribers (js_add clientId (subscribers w)) w in
  let e := set_watcher r w e in
  let requestedLastSeq := n ← sinceSeq; num_to_Z n in
  if 0 <? streamSeq w then
    let historyBySeq := sortBySeq (history w) in
    let oldestHistorySeq := ev_streamSeq <$> head historyBySeq in
    let latestHistorySeq := ev_streamSeq <$> last historyBySeq in
    let snapshot := Output clientId (Event Snapshot paneId (lastOutput w) (streamSeq w)) in
    match requestedLastSeq with
    | Some since =>
        let replayed := filter (fun event => since < ev_streamSeq event) historyBySeq in
        let replayGapDetected :=
          match replayed with
          | first :: _ => negb (ev_streamSeq first =? since + 1)
          | [] => since <? streamSeq w
          end in
        if (0 <? length replayed)%nat && negb replayGapDetected then
          (Attached (ReplayMetadata paneId requestedLastSeq (streamSeq w) oldestHistorySeq
                       latestHistorySeq (Z.of_nat (length replayed)) true false false),
           map (Output clientId) replayed, ensureStarted e)
        else
          (Attached (ReplayMetadata paneId requestedLastSeq (streamSeq w) oldestHistorySeq
                       latestHistorySeq 0 false true replayGapDetected),
           [snapshot], ensureStarted e)
    | None =>
        (Attached (ReplayMetadata paneId None (streamSeq w) oldestHistorySeq
                     latestHistorySeq 0 false false false),
         [snapshot], ensureStarted e)
    end
  else (Capturing (Frame clientId paneId r requestedLastSeq), [], e).

(** [attach] after a capture that succeeded. *)
Definition attachCaptured (maxHistoryEvents : Z) (f : attach_frame) (snapshot : string)
    (e : BridgeEngine) : BridgeAttachReplayMetadata * list effect * BridgeEngine :=
  let w := set_lastOutput snapshot (default (Watcher [] "" 0 []) (store e !! af_ref f)) in
  let '(event, w) := nextEvent maxHistoryEvents w (af_paneId f) Snapshot snapshot in
  let historyBySeq := sortBySeq (history w) in
  (ReplayMetadata (af_paneId f) (af_requestedLastSeq f) (streamSeq w)
     (ev_streamSeq <$> head historyBySeq) (ev_streamSeq <$> last historyBySeq)
     0 false false false,
   [Output (af_clientId f) event], ensureStarted (set_watcher (af_ref f) w e)).

(** [attach] after a capture that threw: the [catch] block. *)
Definition attachFailed (f : attach_frame) (e : BridgeEngine) : BridgeEngine :=
  let w := default (Watcher [] "" 0 []) (store e !! af_ref f) in
  let w := set_subscribers (js_del (af_clientId f) (subscribers w)) w in
  let e := set_watcher (af_ref f) w e in
  let e :=
    if (length (subscribers w) =? 0)%nat && (streamSeq w =? 0)
    then set_panes (jm_delete (af_paneId f) (panes e)) e else e in
  stopIfIdle e.

Definition detach (clientId paneId : string) (e : BridgeEngine) : BridgeEngine :=
  match jm_get paneId (panes e) with
  | None => e
  | Some r =>
      let w := default (Watcher [] "" 0 []) (store e !! r) in
      let w := set_subscribers (js_del clientId (subscribers w)) w in
      let e := set_watcher r w e in
      let e :=
        if (length (subscribers w) =? 0)%nat
        then set_panes (jm_delete paneId (panes e)) e else e in
      stopIfIdle e
  end.

(** [for (const [paneId] of this.panes) this.detach(clientId, paneId)]: the
    loop deletes only the entry it visits, so it visits every key once. *)
Definition detachAll (clientId : string) (e : BridgeEngine) : BridgeEngine :=
  foldl (fun e paneId => detach clientId paneId e) e (panes e).*1.

(** [pollOnce] up to its first [await]. *)
Definition pollStart (e : BridgeEngine) : BridgeEngine :=
  if isPolling e || (length (panes e) =? 0)%nat then e else set_poll (panes e) e.

(** One turn of its loop, after the capture succeeded. *)
Definition pollCaptured (maxHistoryEvents : Z) (output : string) (e : BridgeEngine) :
    option (nat * BridgePaneEvent) * list effect * BridgeEngine :=
  match pollRest e with
  | [] => (None, [], e)
  | (paneId, r) :: rest =>
      let w := default (Watcher [] "" 0 []) (store e !! r) in
      match computeDelta (lastOutput w) output with
      | None => (None, [], set_poll rest e)
      | Some (m, chunk) =>
          let '(event, w) := nextEvent maxHistoryEvents (set_lastOutput output w) paneId m chunk in
          (Some (r, event), map (fun clientId => Output clientId event) (subscribers w),
           set_poll rest (set_watcher r w e))
      end
  end.

(** The same turn when the capture threw. *)
Definition pollFailed (e : BridgeEngine) : list effect * BridgeEngine :=
  match pollRest e with
  | [] => ([], e)
  | (paneId, r) :: rest =>
      let w := default (Watcher [] "" 0 []) (store e !! r) in
      (map (fun clientId => PollError clientId paneId) (subscribers w), set_poll rest e)
  end.

(** ** Interleavings *)

(** The engine, the [attach] calls in flight, and a ghost record of every event
    that was ever numbered, with the watcher it belongs to. *)
Record sys : Type := Sys {
  eng : BridgeEngine;
  attaching : list attach_frame;
  published : list (nat * BridgePaneEvent)
}.

Definition init : sys := Sys newEngine [] [].

(** [Captured i s] settles the capture of the [i]-th attach in flight. *)
Inductive action : Type :=
| Attach (clientId paneId : string) (sinceSeq : option num)
| Captured (i : nat) (snapshot : string)
| CaptureFailed (i : nat)
| Detach (clientId paneId : string)
| DetachAll (clientId : string)
| PollTick
| PollCaptured (output : string)
| PollFailed.

Definition exec (maxHistoryEvents : Z) (a : action) (s : sys) : list effect * sys :=
  match a with
  | Attach c p since =>
      let '(res, out, e) := attachStart c p since (eng s) in
      (out, Sys e (match res with Capturing f => attaching s ++ [f] | _ => attaching s end)
              (published s))
  | Captured i snapshot =>
      match attaching s !! i with
      | None => ([], s)
      | Some f =>
          let '(m, out, e) := attachCaptured maxHistoryEvents f snapshot (eng s) in
          (out, Sys e (delete i (attaching s))
                  (published s ++
                     omap (fun o => match o with Output _ ev => Some (af_ref f, ev) | _ => None end) out))
      end
  | CaptureFailed i =>
      match attaching s !! i with
      | None => ([], s)
      | Some f => ([], Sys (attachFailed f (eng s)) (delete i (attaching s)) (published s))
      end
  | Detach c p => ([], Sys (detach c p (eng s)) (attaching s) (published s))
  | DetachAll c => ([], Sys (detachAll c (eng s)) (attaching s) (published s))
  | PollTick =>
      ([], if pollTimer (eng s) then Sys (pollStart (eng s)) (attaching s) (published s) else s)
  | PollCaptured output =>
      let '(ev, out, e) := pollCaptured maxHistoryEvents output (eng s) in
      (out, Sys e (attaching s) (published s ++ option_list ev))
  | PollFailed =>
      let '(out, e) := pollFailed (eng s) in (out, Sys e (attaching s) (published s))
  end.

Fixpoint execs (maxHistoryEvents : Z) (acts : list action) (s : sys) : list effect * sys :=
  match acts with
  | [] => ([], s)
  | a :: acts =>
      let '(out, s) := exec maxHistoryEvents a s in
      let '(out', s) := execs maxHistoryEvents acts s in
      (out ++ out', s)
  end.

Definition reachable (maxHistoryEvents : Z) (s : sys) : Prop :=
  exists acts, (execs maxHistoryEvents acts init).2 = s.
