(* ===== verification/EngineInv.v ===== *)
(** * Bridge engine: invariants and properties

    The events numbered on a watcher form its log.  The central invariant
    ([watcher_ok]) says that a watcher is a bounded view of its log: the
    sequence number counts it, the history is its tail, and [lastOutput] is what
    a client shows after it has followed the whole log.  It is proved for
    every interleaving of [attach], [detach] and polling segments.  [heard_ok] says
    who hears a watcher: only clients that asked for its pane. *)

From S2P Require Import Prelude JsMap Engine.
Local Open Scope Z_scope.

(** ** What a client shows *)

Definition apply_event (shown : string) (event : BridgePaneEvent) : string :=
  match ev_mode event with
  | Snapshot => ev_chunk event
  | Delta => shown +:+ ev_chunk event
  end.

Definition view : list BridgePaneEvent -> string -> string :=
  fun events shown => foldl apply_event shown events.

(** The log of a watcher. *)
Definition log (r : nat) (pub : list (nat * BridgePaneEvent)) : list BridgePaneEvent :=
  omap (fun re => if decide (re.1 = r) then Some re.2 else None) pub.

Definition numbered (l : list BridgePaneEvent) : Prop :=
  forall i ev, l !! i = Some ev -> ev_streamSeq ev = Z.of_nat i + 1.

Record watcher_ok (maxHistoryEvents : Z) (l : list BridgePaneEvent) (w : PaneWatcher) : Prop := {
  wok_seq : streamSeq w = Z.of_nat (length l);
  wok_numbered : numbered l;
  wok_history : history w = lastn (Z.to_nat maxHistoryEvents) l;
  wok_lastOutput : lastOutput w = view l "";
  wok_subscribers : NoDup (subscribers w)
}.

(** ** Lemmas on logs *)

Lemma log_app r pub pub' : log r (pub ++ pub') = log r pub ++ log r pub'.
Proof. apply omap_app. Qed.

Lemma log_one r r' ev : log r [(r', ev)] = if decide (r' = r) then [ev] else [].
Proof. unfold log. simpl. by case_decide. Qed.

Lemma numbered_nil : numbered [].
Proof. done. Qed.

Lemma numbered_snoc l ev :
  numbered l -> ev_streamSeq ev = Z.of_nat (length l) + 1 -> numbered (l ++ [ev]).
Proof.
  intros Hl He i e [Hi|[Hi Hx]]%lookup_app_Some; [by apply Hl|].
  apply list_lookup_singleton_Some in Hx as [? <-]. rewrite He. lia.
Qed.

Lemma numbered_drop_lookup l n i ev :
  numbered l -> drop n l !! i = Some ev -> ev_streamSeq ev = Z.of_nat (n + i) + 1.
Proof. intros Hl Hi. rewrite lookup_drop in Hi. by apply Hl. Qed.

Lemma numbered_drop_sorted l n :
  numbered l -> StronglySorted (fun a b => ev_streamSeq a - ev_streamSeq b <= 0) (drop n l).
Proof.
  intros Hl. rewrite <- (take_drop n l) in Hl.
  assert (Hgen : forall k m, (forall i ev, m !! i = Some ev -> ev_streamSeq ev = Z.of_nat (k + i) + 1) ->
    StronglySorted (fun a b => ev_streamSeq a - ev_streamSeq b <= 0) m).
  { intros k m. revert k. induction m as [|x m IH]; intros k Hm; constructor.
    - apply (IH (S k)). intros i ev Hi. rewrite (Hm (S i) ev Hi). lia.
    - apply Forall_lookup. intros i ev Hi. rewrite (Hm 0%nat x eq_refl), (Hm (S i) ev Hi). lia. }
  rewrite take_drop in Hl. apply (Hgen n). intros i ev Hi. by eapply numbered_drop_lookup.
Qed.

Lemma sortBySeq_numbered l n : numbered l -> sortBySeq (drop n l) = drop n l.
Proof. intros. by apply js_sort_id, numbered_drop_sorted. Qed.

Lemma filter_numbered l n k :
  numbered l -> filter (fun ev => Z.of_nat k < ev_streamSeq ev) (drop n l) = drop (n `max` k) l.
Proof.
  revert n k. 
  assert (Hgen : forall m b k, (forall i ev, m !! i = Some ev -> ev_streamSeq ev = Z.of_nat (b + i) + 1) ->
    filter (fun ev => Z.of_nat k < ev_streamSeq ev) m = drop (k - b) m).
  { induction m as [|x m IH]; intros b k Hm; [by rewrite drop_nil|].
    rewrite filter_cons. pose proof (Hm 0%nat x eq_refl) as Hx. rewrite (IH (S b) k).
    2: { intros i ev Hi. rewrite (Hm (S i) ev Hi). lia. }
    destruct (decide (k <= b)%nat).
    - rewrite decide_True by lia. replace (k - b)%nat with 0%nat by lia.
      by replace (k - S b)%nat with 0%nat by lia.
    - rewrite decide_False by lia. by replace (k - b)%nat with (S (k - S b)) by lia. }
  intros n k Hl. rewrite (Hgen _ n). 
  - rewrite drop_drop. f_equal. lia.
  - intros i ev Hi. by eapply numbered_drop_lookup.
Qed.

Lemma view_app l l' s : view (l ++ l') s = view l' (view l s).
Proof. apply foldl_app. Qed.

Lemma view_take_drop k l s : view (drop k l) (view (take k l) s) = view l s.
Proof. by rewrite <- view_app, take_drop. Qed.

(** ** Watchers *)

Lemma watcher_ok_new max : watcher_ok max [] (Watcher [] "" 0 []).
Proof. split; [done..|constructor]. Qed.

Lemma watcher_ok_subscribers max l w cs :
  watcher_ok max l w -> NoDup cs -> watcher_ok max l (set_subscribers cs w).
Proof. by intros [] ?; split. Qed.

(** A new event whose effect on a client is the new output extends the log. *)
Lemma watcher_ok_nextEvent max l w output p m chunk ev w' :
  0 <= max -> watcher_ok max l w ->
  nextEvent max (set_lastOutput output w) p m chunk = (ev, w') ->
  apply_event (lastOutput w) ev = output ->
  watcher_ok max (l ++ [ev]) w' /\ ev = Event m p chunk (streamSeq w') /\
  streamSeq w' = streamSeq w + 1 /\ subscribers w' = subscribers w.
Proof.
  intros Hmax [Hseq Hnum Hhist Hout Hsub] [= <- <-] Happ. simpl in *.
  split_and!; [|done..]. split; simpl; [..|done].
  - rewrite length_app. simpl. lia.
  - apply numbered_snoc; simpl; [done|lia].
  - rewrite lastn_snoc, <- Hhist.
    destruct (Z.ltb_spec max (Z.of_nat (length (history w ++ [Event m p chunk (streamSeq w + 1)])))).
    + by rewrite bool_decide_true by lia.
    + by rewrite bool_decide_false by lia.
  - rewrite view_app, <- Hout. simpl. by rewrite Happ.
Qed.

(** *** [computeDelta] *)

Lemma starts_with_split p s : starts_with p s = true -> s = (p +:+ str_drop (String.length p) s).
Proof.
  revert s. induction p as [|a p IH]; intros s Hp; [done|].
  destruct s as [|b s]; [done|]. simpl in Hp. apply andb_true_iff in Hp as [->%Ascii.eqb_eq Hp].
  rewrite str_app_cons. simpl. f_equal. by apply IH.
Qed.

Lemma computeDelta_None prev cur : computeDelta prev cur = None <-> cur = prev.
Proof.
  unfold computeDelta. destruct (String.eqb_spec cur prev) as [->|Hne]; [done|].
  split; [|done]. destruct (starts_with prev cur) eqn:Hp; [|done].
  destruct (str_drop _ cur) eqn:Hd; [|done].
  apply starts_with_split in Hp. rewrite Hd in Hp. by rewrite str_app_nil_r in Hp.
Qed.

Lemma computeDelta_Some prev cur m chunk p seq :
  computeDelta prev cur = Some (m, chunk) -> apply_event prev (Event m p chunk seq) = cur.
Proof.
  unfold computeDelta. destruct (String.eqb_spec cur prev) as [->|Hne]; [done|].
  destruct (starts_with prev cur) eqn:Hp; [|by intros [= <- <-]].
  destruct (is_empty _); [done|]. intros [= <- <-]. simpl.
  symmetry. by apply starts_with_split.
Qed.

(** ** The system invariant *)

Definition pub_pane (re : nat * BridgePaneEvent) : string * nat := (ev_paneId re.2, re.1).
Definition frame_pane (f : attach_frame) : string * nat := (af_paneId f, af_ref f).

(** Everything that pairs a pane with a watcher. *)
Definition pairings (s : sys) : list (string * nat) :=
  panes (eng s) ++ pollRest (eng s) ++ map frame_pane (attaching s) ++ map pub_pane (published s).

Definition empty_watcher : PaneWatcher := Watcher [] "" 0 [].

Abbreviation watcher_at r e := (default empty_watcher (store e !! r)).

Record inv (maxHistoryEvents : Z) (s : sys) : Prop := {
  inv_watcher : forall r, watcher_ok maxHistoryEvents (log r (published s)) (watcher_at r (eng s));
  inv_panes : jm_wf (panes (eng s));
  inv_known : forall p r, (p, r) ∈ pairings s -> (r < nextRef (eng s))%nat;
  inv_owner : forall p p' r, (p, r) ∈ pairings s -> (p', r) ∈ pairings s -> p = p';
  inv_stored : forall r, (nextRef (eng s) <= r)%nat -> store (eng s) !! r = None;
  inv_poll : isPolling (eng s) = match pollRest (eng s) with [] => false | _ => true end;
  inv_timer : pollTimer (eng s) = false -> forall p r, (p, r) ∈ panes (eng s) ->
    streamSeq (watcher_at r (eng s)) = 0 /\ r ∉ (pollRest (eng s)).*2
}.

Lemma watcher_at_insert r r' w e :
  watcher_at r (set_watcher r' w e) = if decide (r = r') then w else watcher_at r e.
Proof.
  simpl. case_decide; subst; [by rewrite lookup_insert_eq|by rewrite lookup_insert_ne].
Qed.

(** An engine that only lost entries, or watchers' subscribers, keeps the
    invariant. *)
Lemma inv_shrink max s e fs :
  inv max s ->
  (forall r, exists cs, NoDup cs /\ watcher_at r e = set_subscribers cs (watcher_at r (eng s))) ->
  jm_wf (panes e) -> panes e ⊆ panes (eng s) ->
  fs ⊆ attaching s -> nextRef e = nextRef (eng s) ->
  (forall r, (nextRef e <= r)%nat -> store e !! r = None) ->
  pollRest e ⊆ pollRest (eng s) ++ panes (eng s) ->
  isPolling e = match pollRest e with [] => false | _ => true end ->
  (pollTimer e = pollTimer (eng s) /\ pollRest e ⊆ pollRest (eng s) \/
   pollTimer e = true \/ panes e = []) ->
  inv max (Sys e fs (published s)).
Proof.
  intros Hi Hw Hwf Hp Hf Hn Hst Hr Hpoll Ht.
  assert (Hsub : pairings (Sys e fs (published s)) ⊆ pairings s).
  { unfold pairings. simpl. intros pr. rewrite !elem_of_app, !list_elem_of_fmap. set_solver. }
  split; simpl.
  - intros r. destruct (Hw r) as (cs & Hcs & ->).
    apply watcher_ok_subscribers; [by apply (inv_watcher _ _ Hi)|done].
  - done.
  - intros p r Hin%Hsub. rewrite Hn. by eapply (inv_known _ _ Hi).
  - intros p p' r H1%Hsub H2%Hsub. by eapply (inv_owner _ _ Hi).
  - done.
  - done.
  - intros Hoff p r Hin. destruct Ht as [[Ht Hr']|[Ht|Ht]]; [|congruence|].
    + destruct (Hw r) as (cs & _ & ->). simpl.
      destruct (inv_timer _ _ Hi (eq_trans (eq_sym Ht) Hoff) p r) as [? Hnr]; [by apply Hp|].
      split; [done|]. intros Hin'. apply Hnr. revert Hin'. rewrite !list_elem_of_fmap.
      set_solver.
    + rewrite Ht in Hin. by apply elem_of_nil in Hin.
Qed.

Lemma set_subscribers_self w : w = set_subscribers (subscribers w) w.
Proof. by destruct w. Qed.

(** Side conditions of [inv_shrink] for the parts an operation leaves alone. *)
Ltac shrink_refl Hi :=
  simpl;
  match goal with
  | |- forall r, exists _, _ =>
      intros r; eexists; split; [|apply set_subscribers_self];
      apply (wok_subscribers _ _ _ (inv_watcher _ _ Hi r))
  | |- jm_wf _ => pose proof (inv_panes _ _ Hi); by auto with jsmap
  | |- forall r, (_ <= _)%nat -> _ => exact (inv_stored _ _ Hi)
  | |- _ = match _ with [] => _ | _ => _ end => exact (inv_poll _ _ Hi)
  | |- _ ⊆ _ => set_solver
  | |- _ => done
  end.

Lemma inv_ensureStarted max s :
  inv max s -> inv max (Sys (ensureStarted (eng s)) (attaching s) (published s)).
Proof.
  intros Hi. unfold ensureStarted. destruct s as [e fs pub]. simpl in *.
  destruct (pollTimer e) eqn:Ht; [done|].
  apply (inv_shrink _ _ (set_timer true e) fs Hi); try shrink_refl Hi. by right; left.
Qed.

Lemma inv_stopIfIdle max s :
  inv max s -> inv max (Sys (stopIfIdle (eng s)) (attaching s) (published s)).
Proof.
  intros Hi. unfold stopIfIdle. destruct s as [e fs pub]. simpl in *.
  destruct (Nat.ltb_spec 0 (length (panes e))); simpl; [done|].
  destruct (pollTimer e) eqn:Ht; simpl; [|done].
  apply (inv_shrink _ _ (set_timer false e) fs Hi); try shrink_refl Hi.
  right; right. simpl. destruct (panes e); simpl in *; [done|lia].
Qed.

Lemma inv_set_subscribers max s r cs :
  inv max s -> NoDup cs -> (r < nextRef (eng s))%nat ->
  inv max (Sys (set_watcher r (set_subscribers cs (watcher_at r (eng s))) (eng s))
             (attaching s) (published s)).
Proof.
  intros Hi Hcs Hr. eapply inv_shrink; [exact Hi| |try shrink_refl Hi..].
  - intros r'. rewrite watcher_at_insert. case_decide as E; [subst r'; by exists cs|].
    exists (subscribers (watcher_at r' (eng s))). split; [|apply set_subscribers_self].
    apply (wok_subscribers _ _ _ (inv_watcher _ _ Hi r')).
  - simpl. intros r' Hr'. rewrite lookup_insert_ne by lia. by apply (inv_stored _ _ Hi).
  - left. set_solver.
Qed.

Lemma inv_set_panes max s p :
  inv max s ->
  inv max (Sys (set_panes (jm_delete p (panes (eng s))) (eng s)) (attaching s) (published s)).
Proof.
  intros Hi. eapply inv_shrink; [exact Hi|try shrink_refl Hi..].
  - intros x Hx. by apply list_elem_of_filter in Hx as [_ ?].
  - left. set_solver.
Qed.

Lemma delete_incl {A} i (l : list A) : delete i l ⊆ l.
Proof.
  intros x. rewrite !list_elem_of_lookup. intros [j Hj]. destruct (decide (j < i)%nat).
  - rewrite list_lookup_delete_lt in Hj by done. by exists j.
  - rewrite list_lookup_delete_ge in Hj by lia. by eexists.
Qed.

Lemma inv_drop_frame max s i :
  inv max s -> inv max (Sys (eng s) (delete i (attaching s)) (published s)).
Proof.
  intros Hi. eapply inv_shrink; [exact Hi|try shrink_refl Hi..].
  - apply delete_incl.
  - left. set_solver.
Qed.

Lemma inv_add_frame max s f :
  inv max s -> frame_pane f ∈ pairings s ->
  inv max (Sys (eng s) (attaching s ++ [f]) (published s)).
Proof.
  intros Hi Hf.
  assert (Hsub : pairings (Sys (eng s) (attaching s ++ [f]) (published s)) ⊆ pairings s).
  { unfold pairings in *. simpl. rewrite map_app. simpl. set_solver. }
  destruct Hi. split; simpl; try done.
  - intros p r Hin%Hsub. by eauto.
  - intros p p' r H1%Hsub H2%Hsub. by eauto.
Qed.

Lemma inv_set_poll max s rest :
  inv max s -> rest ⊆ pollRest (eng s) \/ rest ⊆ panes (eng s) /\ pollTimer (eng s) = true ->
  inv max (Sys (set_poll rest (eng s)) (attaching s) (published s)).
Proof.
  intros Hi Hr. eapply inv_shrink; [exact Hi|try shrink_refl Hi..].
  simpl. destruct Hr as [?|[? ->]]; [left|right; left]; done.
Qed.

(** A watcher numbers an event. *)
Lemma inv_publish max s p r output m chunk ev w' :
  0 <= max -> inv max s -> (p, r) ∈ pairings s ->
  nextEvent max (set_lastOutput output (watcher_at r (eng s))) p m chunk = (ev, w') ->
  apply_event (lastOutput (watcher_at r (eng s))) ev = output ->
  pollTimer (eng s) = true \/ r ∈ (pollRest (eng s)).*2 ->
  inv max (Sys (set_watcher r w' (eng s)) (attaching s) (published s ++ [(r, ev)])).
Proof.
  intros Hmax Hi Hpr Hne Happ Hlive.
  destruct (watcher_ok_nextEvent _ _ _ _ _ _ _ _ _ Hmax (inv_watcher _ _ Hi r) Hne Happ)
    as (Hok & Hev & _ & _).
  assert (Hsub : pairings (Sys (set_watcher r w' (eng s)) (attaching s) (published s ++ [(r, ev)]))
                 ⊆ pairings s).
  { unfold pairings in *. simpl. rewrite map_app. simpl. unfold pub_pane at 2. rewrite Hev. simpl.
    set_solver. }
  split; simpl.
  - intros r'. rewrite log_app, log_one. change (<[r:=w']> (store (eng s)))
      with (store (set_watcher r w' (eng s))). rewrite watcher_at_insert.
    destruct (decide (r' = r)) as [->|Hne'].
    + by rewrite decide_True.
    + rewrite decide_False by done. rewrite app_nil_r. by apply (inv_watcher _ _ Hi).
  - apply (inv_panes _ _ Hi).
  - intros p' r' Hin%Hsub. by eapply (inv_known _ _ Hi).
  - intros p1 p2 r' H1%Hsub H2%Hsub. by eapply (inv_owner _ _ Hi).
  - intros r' Hr'. apply (inv_known _ _ Hi) in Hpr.
    rewrite lookup_insert_ne by lia. by apply (inv_stored _ _ Hi).
  - apply (inv_poll _ _ Hi).
  - intros Hoff p' r' Hin. destruct (inv_timer _ _ Hi Hoff p' r' Hin) as [Hseq Hnr].
    split; [|done]. destruct Hlive as [?|Hlive]; [congruence|].
    rewrite lookup_insert_ne by (intros ->; done). done.
Qed.

(** ** Every action preserves the invariant *)

Lemma getWatcher_get p e r w e' : getWatcher p e = (r, w, e') ->
  jm_get p (panes e') = Some r /\ w = watcher_at r e'.
Proof.
  unfold getWatcher. destruct (jm_get p (panes e)) eqn:Hg; intros [= <- <- <-]; [done|].
  simpl. by rewrite jm_get_set_eq, lookup_insert_eq.
Qed.

Lemma inv_getWatcher max s p r w e :
  inv max s -> getWatcher p (eng s) = (r, w, e) ->
  inv max (Sys e (attaching s) (published s)) /\ (r < nextRef e)%nat.
Proof.
  intros Hi. unfold getWatcher. destruct (jm_get p (panes (eng s))) as [r'|] eqn:Hg.
  { intros [= <- <- <-]. split; [by destruct s|]. apply (inv_known _ _ Hi p).
    apply jm_get_In in Hg. unfold pairings. set_solver. }
  intros [= <- <- <-]. set (r := nextRef (eng s)). split; [|simpl; lia].
  assert (Hnew : forall p', (p', r) ∉ pairings s).
  { intros p' Hin%(inv_known _ _ Hi). subst r. lia. }
  pose proof (jm_set_fresh p r _ Hg) as Hset.
  set (e' := Engine_ _ _ _ _ _ _).
  assert (Hsub : forall p' r', (p', r') ∈ pairings (Sys e' (attaching s) (published s)) ->
    (p', r') = (p, r) \/ (p', r') ∈ pairings s).
  { intros p' r'. unfold pairings. simpl. rewrite Hset. set_solver. }
  assert (Hat : forall r', watcher_at r' e' = watcher_at r' (eng s)).
  { intros r'. simpl. destruct (decide (r' = r)) as [->|]; [|by rewrite lookup_insert_ne].
    rewrite lookup_insert_eq. by rewrite (inv_stored _ _ Hi). }
  split; cbn [eng attaching published].
  - intros r'. rewrite Hat. apply (inv_watcher _ _ Hi).
  - apply jm_wf_set, (inv_panes _ _ Hi).
  - intros p' r' [[= -> ->]|Hin%(inv_known _ _ Hi)]%Hsub; simpl; lia.
  - intros p1 p2 r' [[= -> ->]|H1]%Hsub [[= ->]|H2]%Hsub; try done;
      [by apply Hnew in H2|subst; by apply Hnew in H1|by eapply (inv_owner _ _ Hi)].
  - simpl. intros r' Hr'. rewrite lookup_insert_ne by lia. apply (inv_stored _ _ Hi). lia.
  - apply (inv_poll _ _ Hi).
  - intros Hoff p' r'. rewrite Hat. simpl. rewrite Hset, elem_of_app, list_elem_of_singleton.
    intros [Hin|[= -> ->]]; [by apply (inv_timer _ _ Hi Hoff p')|]. 
    rewrite (inv_stored _ _ Hi) by done. split; [done|].
    rewrite list_elem_of_fmap. intros ([p' r'] & Hr & Hin). simpl in Hr. subst r'.
    apply (Hnew p'). unfold pairings. set_solver.
Qed.

Lemma inv_attach max s c p since :
  inv max s -> inv max (exec max (Attach c p since) s).2.
Proof.
  intros Hi. simpl. unfold attachStart.
  destruct (getWatcher p (eng s)) as [[r w] e] eqn:Hg.
  destruct (inv_getWatcher _ _ _ _ _ _ Hi Hg) as [Hi1 Hr].
  apply getWatcher_get in Hg as [Hg ->].
  assert (Hcs : NoDup (js_add c (subscribers (watcher_at r e)))).
  { apply NoDup_js_add, (wok_subscribers _ _ _ (inv_watcher _ _ Hi1 r)). }
  pose proof (inv_set_subscribers _ _ _ _ Hi1 Hcs Hr) as Hi2. cbn [eng attaching published] in Hi2.
  pose proof (inv_ensureStarted _ _ Hi2) as Hi3. cbn [eng attaching published] in Hi3.
  repeat case_match; simplify_eq; try exact Hi3.
  apply (inv_add_frame _ _ (Frame c p r _) Hi2).
  apply jm_get_In in Hg. unfold pairings. simpl. set_solver.
Qed.

Lemma inv_frame_pane s i f : attaching s !! i = Some f -> (af_paneId f, af_ref f) ∈ pairings s.
Proof.
  intros Hf%list_elem_of_lookup_2. unfold pairings. rewrite !elem_of_app. right; right; left.
  apply list_elem_of_fmap. by exists f.
Qed.

Lemma ensureStarted_set_watcher r w e :
  ensureStarted (set_watcher r w e) = set_watcher r w (ensureStarted e).
Proof. unfold ensureStarted. simpl. by destruct (pollTimer e). Qed.

Lemma ensureStarted_watcher r e : watcher_at r (ensureStarted e) = watcher_at r e.
Proof. unfold ensureStarted. by destruct (pollTimer e). Qed.

Lemma ensureStarted_on e : pollTimer (ensureStarted e) = true.
Proof. unfold ensureStarted. by destruct (pollTimer e) eqn:?. Qed.

Lemma inv_captured max s i snapshot :
  0 <= max -> inv max s -> inv max (exec max (Captured i snapshot) s).2.
Proof.
  intros Hmax Hi. cbn [exec]. destruct (attaching s !! i) as [f|] eqn:Hf; [|done].
  unfold attachCaptured. change (Watcher [] "" 0 []) with empty_watcher.
  destruct (nextEvent max _ _ _ _) as [ev w'] eqn:Hne.
  cbn [fst snd omap list_omap]. rewrite ensureStarted_set_watcher.
  rewrite <- ensureStarted_watcher in Hne.
  apply (inv_drop_frame _ (Sys _ (attaching s) (published s ++ [_]))).
  eapply (inv_publish _ (Sys _ (attaching s) (published s)));
    [done|by apply inv_ensureStarted| |exact Hne| |].
  - cbn [eng attaching published]. pose proof (inv_frame_pane _ _ _ Hf) as Hpr.
    unfold pairings, ensureStarted in *. simpl. by destruct (pollTimer (eng s)).
  - unfold nextEvent in Hne. by simplify_eq.
  - left. apply ensureStarted_on.
Qed.

Lemma inv_failed max s i : inv max s -> inv max (exec max (CaptureFailed i) s).2.
Proof.
  intros Hi. simpl. destruct (attaching s !! i) as [f|] eqn:Hf; [|done].
  unfold attachFailed. change (Watcher [] "" 0 []) with empty_watcher. cbn [snd].
  assert (Hcs : NoDup (js_del (af_clientId f) (subscribers (watcher_at (af_ref f) (eng s))))).
  { apply NoDup_js_del, (wok_subscribers _ _ _ (inv_watcher _ _ Hi _)). }
  apply (inv_drop_frame _ (Sys _ (attaching s) (published s))).
  apply (inv_stopIfIdle _ (Sys _ (attaching s) (published s))).
  assert (Hi2 := inv_set_subscribers _ _ _ _ Hi Hcs (inv_known _ _ Hi _ _ (inv_frame_pane _ _ _ Hf))).
  case_match; [|exact Hi2].
  apply (inv_set_panes _ (Sys _ (attaching s) (published s))), Hi2.
Qed.

Lemma inv_detach max e fs pub c p :
  inv max (Sys e fs pub) -> inv max (Sys (detach c p e) fs pub).
Proof.
  intros Hi. unfold detach. destruct (jm_get p (panes e)) as [r|] eqn:Hg; [|done].
  change (Watcher [] "" 0 []) with empty_watcher.
  assert (Hcs : NoDup (js_del c (subscribers (watcher_at r e)))).
  { apply NoDup_js_del, (wok_subscribers _ _ _ (inv_watcher _ _ Hi _)). }
  apply (inv_stopIfIdle _ (Sys _ fs pub)).
  assert (Hr : (r < nextRef e)%nat).
  { apply (inv_known _ _ Hi p). apply jm_get_In in Hg. unfold pairings. set_solver. }
  assert (Hi2 := inv_set_subscribers _ _ _ _ Hi Hcs Hr).
  case_match; [|exact Hi2]. apply (inv_set_panes _ (Sys _ fs pub)), Hi2.
Qed.

Lemma inv_detachAll max e fs pub c :
  inv max (Sys e fs pub) -> inv max (Sys (detachAll c e) fs pub).
Proof.
  unfold detachAll. generalize (panes e).*1 as ps. intros ps. revert e.
  induction ps as [|p ps IH]; intros e Hi; [done|]. by apply IH, inv_detach.
Qed.

Lemma inv_pollStart max s : inv max s -> inv max (exec max PollTick s).2.
Proof.
  intros Hi. simpl. destruct (pollTimer (eng s)) eqn:Ht; [|done]. unfold pollStart.
  case_match; [by destruct s|]. apply inv_set_poll; [done|]. by right.
Qed.

Lemma inv_pollCaptured max s output :
  0 <= max -> inv max s -> inv max (exec max (PollCaptured output) s).2.
Proof.
  intros Hmax Hi. cbn [exec]. unfold pollCaptured. change (Watcher [] "" 0 []) with empty_watcher.
  destruct (pollRest (eng s)) as [|[p r] rest] eqn:Hrest; [simpl; rewrite app_nil_r; by destruct s|].
  assert (Hsub : rest ⊆ pollRest (eng s)) by (rewrite Hrest; set_solver).
  destruct (computeDelta _ _) as [[m chunk]|] eqn:Hd.
  - destruct (nextEvent _ _ _ _ _) as [ev w'] eqn:Hne. cbn [snd option_list].
    eapply (inv_set_poll _ (Sys (set_watcher r w' (eng s)) (attaching s) (published s ++ [(r, ev)])));
      [|by left].
    eapply inv_publish; [done|done| |exact Hne| |].
    + unfold pairings. rewrite Hrest. set_solver.
    + injection Hne as <- _. by apply computeDelta_Some.
    + right. rewrite Hrest. set_solver.
  - cbn [snd option_list]. rewrite app_nil_r. apply inv_set_poll; [done|by left].
Qed.

Lemma inv_pollFailed max s : inv max s -> inv max (exec max PollFailed s).2.
Proof.
  intros Hi. simpl. unfold pollFailed.
  destruct (pollRest (eng s)) as [|[p r] rest] eqn:Hrest; [by destruct s|].
  apply inv_set_poll; [done|]. left. rewrite Hrest. set_solver.
Qed.

Lemma inv_exec max a s : 0 <= max -> inv max s -> inv max (exec max a s).2.
Proof.
  intros Hmax Hi. destruct a.
  - by apply inv_attach.
  - by apply inv_captured.
  - by apply inv_failed.
  - simpl. apply inv_detach. by destruct s.
  - simpl. apply inv_detachAll. by destruct s.
  - by apply inv_pollStart.
  - by apply inv_pollCaptured.
  - by apply inv_pollFailed.
Qed.

Lemma inv_init max : inv max init.
Proof.
  split; simpl.
  - intros r. rewrite lookup_empty. apply watcher_ok_new.
  - constructor.
  - by intros p r Hin%elem_of_nil.
  - by intros p p' r Hin%elem_of_nil.
  - done.
  - done.
  - by intros _ p r Hin%elem_of_nil.
Qed.

Lemma inv_execs max acts s : 0 <= max -> inv max s -> inv max (execs max acts s).2.
Proof.
  intros Hmax. revert s. induction acts as [|a acts IH]; intros s Hi; [done|].
  cbn [execs]. pose proof (inv_exec max a s Hmax Hi) as Ha.
  destruct (exec max a s) as [out s1]. pose proof (IH _ Ha) as Hb.
  cbn [snd] in *. destruct (execs max acts s1). exact Hb.
Qed.

Lemma inv_reachable max s : 0 <= max -> reachable max s -> inv max s.
Proof. intros Hmax [acts <-]. apply inv_execs; [done|]. apply inv_init. Qed.

(** ** Helper lemmas for the properties *)

Lemma inv_log_pane max s p r ev :
  inv max s -> jm_get p (panes (eng s)) = Some r -> ev ∈ log r (published s) ->
  ev_paneId ev = p.
Proof.
  intros Hi Hg%jm_get_In. unfold log. rewrite list_elem_of_omap.
  intros ([r' ev'] & Hin & Hev). simpl in Hev. case_decide; [|done]. simplify_eq.
  apply (inv_owner _ _ Hi _ _ r); unfold pairings; rewrite !elem_of_app; [|by left].
  right; right; right. apply list_elem_of_fmap. by exists (r, ev).
Qed.

Definition resumable (max n k : Z) : Prop := 0 <= k < n /\ n - k <= max.

#[export] Instance resumable_dec max n k : Decision (resumable max n k).
Proof. unfold resumable. apply _. Defined.

Lemma drop_head_numbered l b : numbered l -> (b < length l)%nat ->
  exists x m, drop b l = x :: m /\ ev_streamSeq x = Z.of_nat b + 1.
Proof.
  intros Hl Hb. destruct (lookup_lt_is_Some_2 l b Hb) as [x Hx].
  exists x, (drop (S b) l). split; [by apply drop_S|]. by apply Hl.
Qed.

(** The replay decision of [attach] on the history of a log. *)
Lemma replay_decision l max k :
  numbered l -> 0 <= max ->
  let n := Z.of_nat (length l) in
  let replayed := filter (fun event => k < ev_streamSeq event) (lastn (Z.to_nat max) l) in
  let gap := match replayed with
             | first :: _ => negb (ev_streamSeq first =? k + 1)
             | [] => k <? n
             end in
  if decide (resumable max n k)
  then replayed = drop (Z.to_nat k) l /\ (0 <? length replayed)%nat && negb gap = true
  else gap = (k <? n) /\ (0 <? length replayed)%nat && negb gap = false.
Proof.
  intros Hl Hmax. cbv zeta. unfold resumable, lastn. set (b := (length l - Z.to_nat max)%nat).
  destruct (Z.ltb_spec k 0) as [Hk|Hk].
  { rewrite decide_False by lia. rewrite (proj2 (Z.ltb_lt k _)) by lia.
    destruct (filter _ _) as [|x m] eqn:Hf; [done|].
    assert (Hx : x ∈ drop b l).
    { assert (x ∈ filter (fun ev => k < ev_streamSeq ev) (drop b l)) as Hx by (rewrite Hf; set_solver).
      by apply list_elem_of_filter in Hx as [_ ?]. }
    apply list_elem_of_lookup in Hx as [i Hi]. apply numbered_drop_lookup in Hi; [|done].
    rewrite (proj2 (Z.eqb_neq _ _)) by lia. simpl. by rewrite ?andb_false_r. }
  rewrite <- (Z2Nat.id k) by done. generalize (Z.to_nat k) as j. clear Hk. intros j.
  rewrite Nat2Z.id, filter_numbered by done.
  destruct (decide (j < length l)%nat) as [Hj|Hj].
  2: { rewrite decide_False by lia. rewrite drop_ge by lia. by rewrite (proj2 (Z.ltb_ge _ _)) by lia. }
  rewrite (proj2 (Z.ltb_lt (Z.of_nat j) _)) by lia.
  destruct (decide (b <= j)%nat) as [Hb|Hb].
  - rewrite decide_True by lia. rewrite Nat.max_r by done. split; [done|].
    destruct (drop_head_numbered l j) as (x & m & -> & ->); [done..|].
    rewrite Z.eqb_refl. done.
  - rewrite decide_False by lia. rewrite Nat.max_l by lia.
    destruct (decide (b < length l)%nat) as [Hb'|Hb']; [|by rewrite drop_ge by lia].
    destruct (drop_head_numbered l b) as (x & m & -> & ->); [done..|].
    rewrite (proj2 (Z.eqb_neq _ _)) by lia. simpl. done.
Qed.

(** [attach] on a pane that has streamed, in terms of the pane's log. *)
Lemma attach_streamed max s c p r since :
  0 <= max -> inv max s -> jm_get p (panes (eng s)) = Some r -> log r (published s) <> [] ->
  let l := log r (published s) in
  let n := Z.of_nat (length l) in
  let h := lastn (Z.to_nat max) l in
  let snapshot := Event Snapshot p (view l "") n in
  let meta := fun k => ReplayMetadata p k n (ev_streamSeq <$> head h) (ev_streamSeq <$> last h) in
  (attachStart c p since (eng s)).1 =
    match (k ← since; num_to_Z k) with
    | Some k =>
        if decide (resumable max n k)
        then (Attached (meta (Some k) (n - k) true false false),
              map (Output c) (drop (Z.to_nat k) l))
        else (Attached (meta (Some k) 0 false true (k <? n)), [Output c snapshot])
    | None => (Attached (meta None 0 false false false), [Output c snapshot])
    end.
Proof.
  intros Hmax Hi Hg Hne l n h snapshot meta.
  destruct (inv_watcher _ _ Hi r) as [Hseq Hnum Hhist Hout _]. fold l in Hseq, Hnum, Hhist, Hout.
  unfold attachStart, getWatcher. rewrite Hg. change (Watcher [] "" 0 []) with empty_watcher.
  cbn [set_subscribers streamSeq history lastOutput].
  rewrite Hseq, Hhist, Hout.
  assert (Hn : 0 < n) by (unfold n; subst l; destruct (log r (published s)); [done|simpl; lia]).
  fold n. rewrite (proj2 (Z.ltb_lt _ _)) by done.
  assert (Hsort : sortBySeq (lastn (Z.to_nat max) l) = h) by by apply sortBySeq_numbered.
  rewrite !Hsort. destruct (k ← since; num_to_Z k) as [k|]; [|done].
  pose proof (replay_decision l max k Hnum Hmax) as Hd. cbv zeta in Hd. fold n h in Hd.
  case_decide as Hr.
  - destruct Hd as [Hrep Hdec]. rewrite Hdec, Hrep. simpl. unfold meta. do 4 f_equal.
    rewrite length_drop. unfold resumable in Hr. lia.
  - destruct Hd as [Hgap Hdec]. rewrite Hdec, Hgap. done.
Qed.

(** *** Subscribers *)

(** The clients subscribed to a pane. *)
Definition pane_subscribers (p : string) (e : BridgeEngine) : list string :=
  match jm_get p (panes e) with
  | Some r => subscribers (watcher_at r e)
  | None => []
  end.

(** The part of the engine subscriptions depend on. *)
Definition same_subscribers (e e' : BridgeEngine) : Prop :=
  panes e' = panes e /\
  forall r, subscribers (watcher_at r e') = subscribers (watcher_at r e).

Lemma same_subscribers_pane p e e' :
  same_subscribers e e' -> pane_subscribers p e' = pane_subscribers p e.
Proof. intros [Hp Hs]. unfold pane_subscribers. rewrite Hp. by destruct (jm_get p (panes e)). Qed.

Lemma same_subscribers_refl e : same_subscribers e e.
Proof. done. Qed.

Lemma same_subscribers_trans e1 e2 e3 :
  same_subscribers e1 e2 -> same_subscribers e2 e3 -> same_subscribers e1 e3.
Proof. intros [H1 H2] [H3 H4]. split; [congruence|]. intros r. by rewrite H4. Qed.

Lemma same_subscribers_ensureStarted e : same_subscribers e (ensureStarted e).
Proof. unfold ensureStarted. by destruct (pollTimer e). Qed.

Lemma same_subscribers_stopIfIdle e : same_subscribers e (stopIfIdle e).
Proof. unfold stopIfIdle. by case_match. Qed.

Lemma same_subscribers_set_watcher e r w :
  subscribers w = subscribers (watcher_at r e) -> same_subscribers e (set_watcher r w e).
Proof.
  intros Hw. split; [done|]. intros r'. rewrite watcher_at_insert. case_decide; congruence.
Qed.

Lemma same_subscribers_set_poll rest e : same_subscribers e (set_poll rest e).
Proof. done. Qed.

(** Two watched panes have different watchers. *)
Lemma inv_pane_ref max s p p' r :
  inv max s -> jm_get p (panes (eng s)) = Some r -> jm_get p' (panes (eng s)) = Some r -> p = p'.
Proof.
  intros Hi Hp%jm_get_In Hp'%jm_get_In.
  apply (inv_owner _ _ Hi _ _ r); unfold pairings; rewrite elem_of_app; auto.
Qed.

Lemma subscribers_set max s p r cs p' :
  inv max s -> jm_get p (panes (eng s)) = Some r ->
  pane_subscribers p' (set_watcher r (set_subscribers cs (watcher_at r (eng s))) (eng s)) =
    if decide (p' = p) then cs else pane_subscribers p' (eng s).
Proof.
  intros Hi Hg. unfold pane_subscribers. cbn [panes set_watcher].
  destruct (jm_get p' (panes (eng s))) as [r'|] eqn:Hg'.
  - change (<[r:=?w]> (store (eng s))) with (store (set_watcher r w (eng s))).
    rewrite watcher_at_insert. destruct (decide (p' = p)) as [->|Hne].
    + rewrite decide_True by congruence. done.
    + rewrite decide_False; [done|]. intros ->. by apply Hne, (inv_pane_ref _ _ _ _ _ Hi Hg' Hg).
  - rewrite decide_False; [done|]. intros ->. congruence.
Qed.

Lemma pane_subscribers_set_panes p p' e :
  pane_subscribers p' (set_panes (jm_delete p (panes e)) e) =
    if decide (p' = p) then [] else pane_subscribers p' e.
Proof. unfold pane_subscribers. simpl. rewrite jm_get_delete. by case_decide. Qed.

Lemma pane_subscribers_stopIfIdle p e : pane_subscribers p (stopIfIdle e) = pane_subscribers p e.
Proof. apply same_subscribers_pane, same_subscribers_stopIfIdle. Qed.

Lemma pane_subscribers_detach max e fs pub c p p' :
  inv max (Sys e fs pub) ->
  pane_subscribers p' (detach c p e) =
    if decide (p' = p) then js_del c (pane_subscribers p e) else pane_subscribers p' e.
Proof.
  intros Hi. unfold detach. destruct (jm_get p (panes e)) as [r|] eqn:Hg.
  - change (Watcher [] "" 0 []) with empty_watcher. rewrite pane_subscribers_stopIfIdle.
    pose proof (subscribers_set max (Sys e fs pub) p r (js_del c (subscribers (watcher_at r e))) p'
                  Hi Hg) as Hset. cbn [eng] in Hset.
    assert (Hp : pane_subscribers p e = subscribers (watcher_at r e)).
    { unfold pane_subscribers. by rewrite Hg. }
    rewrite Hp.
    match goal with |- context [if ?b then set_panes _ _ else _] => destruct b eqn:Hlen end;
      [|exact Hset].
    rewrite pane_subscribers_set_panes, Hset. case_decide; [|done].
    apply Nat.eqb_eq, nil_length_inv in Hlen. by rewrite <- Hlen.
  - case_decide; [|done]. subst. unfold pane_subscribers. by rewrite Hg.
Qed.

Lemma pane_subscribers_detachAll max e fs pub c p :
  inv max (Sys e fs pub) ->
  pane_subscribers p (detachAll c e) = js_del c (pane_subscribers p e).
Proof.
  unfold detachAll. intros Hi.
  assert (Hin : p ∈ (panes e).*1 \/ pane_subscribers p e = []).
  { destruct (decide (p ∈ (panes e).*1)) as [|Hn%jm_get_None]; [by left|right].
    unfold pane_subscribers. by rewrite Hn. }
  revert Hin. generalize (panes e).*1 as ps. intros ps. revert e Hi.
  induction ps as [|p' ps IH]; intros e Hi Hin; simpl.
  - destruct Hin as [Hin| ->]; [by apply elem_of_nil in Hin|done].
  - pose proof (pane_subscribers_detach _ _ _ _ c p' p Hi) as Hd.
    pose proof (inv_detach _ _ _ _ c p' Hi) as Hi'.
    assert (Hidem : forall l : list string, js_del c (js_del c l) = js_del c l).
    { intros l. unfold js_del. apply filter_all, Forall_forall. intros x Hx.
      by apply list_elem_of_filter in Hx as [? _]. }
    destruct (decide (p = p')) as [->|Hne].
    + (* visited now: later visits change nothing *)
      clear Hin. revert Hd Hi'. generalize (detach c p' e) as e'. intros e' Hd Hi'.
      rewrite <- Hd. clear IH Hi. assert (Hfix : js_del c (pane_subscribers p' e') = pane_subscribers p' e')
        by by rewrite Hd, Hidem.
      clear Hd. revert e' Hi' Hfix. induction ps as [|q ps IH]; intros e' Hi' Hfix; [done|]. simpl.
      pose proof (pane_subscribers_detach _ _ _ _ c q p' Hi') as Hd.
      assert (Heq : pane_subscribers p' (detach c q e') = pane_subscribers p' e').
      { rewrite Hd. case_decide; [subst; exact Hfix|done]. }
      rewrite IH; [done|by apply inv_detach|by rewrite Heq].
    + rewrite IH; [by rewrite Hd| done|]. rewrite Hd. destruct Hin as [Hin|Hin]; [left; set_solver|by right].
Qed.

(** What an engine action does to the subscriptions of a pane. *)
Definition subscribers_after (a : action) (p : string) (before after : list string) : Prop :=
  match a with
  | Attach c p' _ => after = if decide (p = p') then js_add c before else before
  | Detach c p' => after = if decide (p = p') then js_del c before else before
  | DetachAll c => after = js_del c before
  | CaptureFailed _ => after ⊆ before
  | Captured _ _ | PollTick | PollCaptured _ | PollFailed => after = before
  end.

Lemma subscribers_exec max a s p :
  0 <= max -> inv max s ->
  subscribers_after a p (pane_subscribers p (eng s)) (pane_subscribers p (eng (exec max a s).2)).
Proof.
  intros Hmax Hi. destruct a; cbn [subscribers_after exec].
  - unfold attachStart. destruct (getWatcher paneId (eng s)) as [[r w] e] eqn:Hg.
    destruct (inv_getWatcher _ _ _ _ _ _ Hi Hg) as [Hi1 Hr].
    pose proof (getWatcher_get _ _ _ _ _ Hg) as [Hge ->].
    pose proof (subscribers_set max (Sys e (attaching s) (published s)) paneId r
      (js_add clientId (subscribers (watcher_at r e))) p Hi1 Hge) as Hset. cbn [eng] in Hset.
    assert (He : forall q, pane_subscribers q e = pane_subscribers q (eng s)).
    { intros q. unfold getWatcher in Hg. destruct (jm_get paneId (panes (eng s))) eqn:Hp.
      - by injection Hg as _ _ <-.
      - injection Hg as <- _ <-. unfold pane_subscribers. simpl. rewrite jm_get_set.
        destruct (decide (q = paneId)) as [->|]; [by rewrite lookup_insert_eq, Hp|].
        destruct (jm_get q (panes (eng s))) as [r'|] eqn:Hq; [|done].
        rewrite lookup_insert_ne; [done|].
        apply jm_get_In in Hq. intros Heq. pose proof (inv_known _ _ Hi q r') as Hk.
        unfold pairings in Hk. rewrite elem_of_app in Hk. specialize (Hk (or_introl Hq)). lia. }
    assert (Hpe : pane_subscribers paneId e = subscribers (watcher_at r e)).
    { unfold pane_subscribers. by rewrite Hge. }
    rewrite <- Hpe in Hset. rewrite (He paneId), (He p) in Hset.
    assert (Hgoal : forall e', same_subscribers (set_watcher r
        (set_subscribers (js_add clientId (pane_subscribers paneId (eng s))) (watcher_at r e)) e) e' ->
      pane_subscribers p e' = if decide (p = paneId) then js_add clientId (pane_subscribers p (eng s))
                              else pane_subscribers p (eng s)).
    { intros e' Hs. rewrite (same_subscribers_pane p _ _ Hs), Hset. case_decide; by subst. }
    rewrite <- Hpe, (He paneId).
    repeat case_match; simplify_eq; cbn [snd eng]; apply Hgoal;
      first [apply same_subscribers_refl | apply same_subscribers_ensureStarted].
  - destruct (attaching s !! i) as [f|]; [|done]. unfold attachCaptured, nextEvent.
    cbn [snd eng]. apply same_subscribers_pane.
    eapply same_subscribers_trans; [|apply same_subscribers_ensureStarted].
    by apply same_subscribers_set_watcher.
  - destruct (attaching s !! i) as [f|] eqn:Hf; [|done]. unfold attachFailed. cbn [snd eng].
    change (Watcher [] "" 0 []) with empty_watcher. rewrite pane_subscribers_stopIfIdle.
    assert (Hsub : pane_subscribers p (set_watcher (af_ref f) (set_subscribers
      (js_del (af_clientId f) (subscribers (watcher_at (af_ref f) (eng s))))
      (watcher_at (af_ref f) (eng s))) (eng s)) ⊆ pane_subscribers p (eng s)).
    { unfold pane_subscribers. cbn [panes set_watcher].
      destruct (jm_get p (panes (eng s))) as [r|]; [|done].
      change (<[af_ref f:=?w]> (store (eng s))) with (store (set_watcher (af_ref f) w (eng s))).
      rewrite watcher_at_insert. case_decide as Hr; [|done]. subst r.
      intros x [_ Hx]%elem_of_js_del. exact Hx. }
    case_match; [|exact Hsub]. rewrite pane_subscribers_set_panes. case_decide; [|exact Hsub].
    intros x Hx. by apply elem_of_nil in Hx.
  - destruct s as [e fs pub]. cbn [snd eng] in *. rewrite (pane_subscribers_detach _ _ _ _ _ _ _ Hi).
    case_decide; by subst.
  - destruct s as [e fs pub]. cbn [snd eng] in *. apply (pane_subscribers_detachAll _ _ _ _ _ _ Hi).
  - cbn [snd]. destruct (pollTimer (eng s)); [|done]. unfold pollStart. by case_match.
  - unfold pollCaptured. destruct (pollRest (eng s)) as [|[q r] rest]; [done|].
    destruct (computeDelta _ _) as [[m chunk]|]; [|done].
    cbn [snd eng]. apply same_subscribers_pane.
    eapply same_subscribers_trans; [|apply same_subscribers_set_poll].
    by apply same_subscribers_set_watcher.
  - unfold pollFailed. by destruct (pollRest (eng s)) as [|[q r] rest].
Qed.

(** *** Who hears a pane *)

(** Every subscriber of a watcher, and every attach in flight, is there because
    the client asked for the pane. *)
Section Heard.
Variable asked : string -> string -> Prop.

Record heard_ok (s : sys) : Prop := {
  heard_subscribers : forall p r c,
    (p, r) ∈ pairings s -> c ∈ subscribers (watcher_at r (eng s)) -> asked c p;
  heard_frames : forall f, f ∈ attaching s -> asked (af_clientId f) (af_paneId f)
}.

(** What an engine callback is about, for the client it is called for. *)
Definition effect_asked (o : effect) : Prop :=
  match o with
  | Output c ev => asked c (ev_paneId ev)
  | PollError c p => asked c p
  end.

Lemma heard_shrink s s' :
  heard_ok s -> pairings s' ⊆ pairings s -> attaching s' ⊆ attaching s ->
  (forall r, subscribers (watcher_at r (eng s')) ⊆ subscribers (watcher_at r (eng s))) ->
  heard_ok s'.
Proof.
  intros [H1 H2] Hp Hf Hs. split; [|set_solver].
  intros p r c Hin Hc. apply (H1 p r c); [by apply Hp|by apply (Hs r)].
Qed.

Lemma heard_stopIfIdle s :
  heard_ok s -> heard_ok (Sys (stopIfIdle (eng s)) (attaching s) (published s)).
Proof.
  intros Hh. destruct s as [e fs pub]. unfold stopIfIdle. simpl.
  case_match; [done|by apply (heard_shrink _ _ Hh)].
Qed.

Lemma heard_ensureStarted e fs pub :
  heard_ok (Sys e fs pub) -> heard_ok (Sys (ensureStarted e) fs pub).
Proof.
  intros Hh. unfold ensureStarted. case_match; [done|by apply (heard_shrink _ _ Hh)].
Qed.

(** A client leaves a watcher, which may be dropped with it. *)
Lemma heard_leave s c r p (b : bool) :
  heard_ok s ->
  let e := set_watcher r (set_subscribers (js_del c (subscribers (watcher_at r (eng s))))
                            (watcher_at r (eng s))) (eng s) in
  heard_ok (Sys (if b then set_panes (jm_delete p (panes e)) e else e) (attaching s) (published s)).
Proof.
  intros Hh e. apply (heard_shrink s); [done| |done|].
  - unfold pairings. destruct b; simpl; [|done]. unfold jm_delete.
    intros x. rewrite !elem_of_app, list_elem_of_filter. tauto.
  - intros r'. assert (He : watcher_at r' (if b then set_panes (jm_delete p (panes e)) e else e) =
      watcher_at r' e) by by destruct b. cbn [eng]. rewrite He. unfold e. rewrite watcher_at_insert.
    case_decide; [subst|done]. intros x [_ Hx]%elem_of_js_del. exact Hx.
Qed.

Lemma heard_detach e fs pub c p :
  heard_ok (Sys e fs pub) -> heard_ok (Sys (detach c p e) fs pub).
Proof.
  intros Hh. unfold detach. destruct (jm_get p (panes e)) as [r|]; [|done].
  apply (heard_stopIfIdle (Sys _ fs pub)), (heard_leave (Sys e fs pub) c r p _ Hh).
Qed.

Lemma heard_detachAll e fs pub c :
  heard_ok (Sys e fs pub) -> heard_ok (Sys (detachAll c e) fs pub).
Proof.
  unfold detachAll. generalize (panes e).*1 as ps. intros ps. revert e.
  induction ps as [|p ps IH]; intros e Hh; [done|]. by apply IH, heard_detach.
Qed.

Lemma heard_drop_frame s i :
  heard_ok s -> heard_ok (Sys (eng s) (delete i (attaching s)) (published s)).
Proof.
  intros [H1 H2].
  pose proof (delete_incl i (attaching s)) as Hsub.
  apply (heard_shrink s); [by split| |done|done].
  unfold pairings. simpl. intros x. rewrite !elem_of_app, !list_elem_of_fmap.
  set_solver.
Qed.

Lemma heard_getWatcher s p r w e :
  heard_ok s -> getWatcher p (eng s) = (r, w, e) -> heard_ok (Sys e (attaching s) (published s)).
Proof.
  intros [H1 H2]. unfold getWatcher. destruct (jm_get p (panes (eng s))) as [r'|] eqn:Hg.
  { intros [= <- <- <-]. by destruct s. }
  intros [= <- <- <-]. set (n := nextRef (eng s)). split; [|done].
  intros p' r' c. unfold pairings. cbn [eng store panes pollRest attaching published].
  rewrite (jm_set_fresh p n _ Hg). destruct (decide (r' = n)) as [->|Hne].
  - rewrite lookup_insert_eq. by intros _ Hc%elem_of_nil.
  - rewrite lookup_insert_ne by done. intros Hin. apply H1. revert Hin. unfold pairings. set_solver.
Qed.

Lemma heard_join max s c p r :
  inv max s -> heard_ok s -> jm_get p (panes (eng s)) = Some r -> asked c p ->
  heard_ok (Sys (set_watcher r (set_subscribers (js_add c (subscribers (watcher_at r (eng s))))
                   (watcher_at r (eng s))) (eng s)) (attaching s) (published s)).
Proof.
  intros Hi [H1 H2] Hg Hc. split; [|done]. intros p' r' c' Hin. cbn [eng].
  rewrite watcher_at_insert. case_decide as Hr; [subst r'|by apply H1].
  cbn [subscribers set_subscribers]. intros [->|Hin']%elem_of_js_add; [|by apply (H1 p' r)].
  replace p' with p; [done|]. apply (inv_owner _ _ Hi _ _ r); [|exact Hin].
  unfold pairings. rewrite elem_of_app. left. by apply jm_get_In.
Qed.

Lemma heard_add_frame s f :
  heard_ok s -> frame_pane f ∈ pairings s -> asked (af_clientId f) (af_paneId f) ->
  heard_ok (Sys (eng s) (attaching s ++ [f]) (published s)).
Proof.
  intros [H1 H2] Hf Ha. split.
  - intros p r c Hin. apply H1. clear - Hin Hf. unfold pairings in *. simpl in Hin.
    rewrite map_app in Hin. simpl in Hin. rewrite !elem_of_app, list_elem_of_singleton in Hin.
    destruct Hin as [?|[?|[[?| ->]|?]]]; [rewrite !elem_of_app; tauto..|exact Hf|].
    rewrite !elem_of_app; tauto.
  - intros f' [Hin| ->%list_elem_of_singleton]%elem_of_app; [by apply H2|done].
Qed.

(** What [attach] sends is about its own pane. *)
Lemma attachStart_about max s c p since o :
  0 <= max -> inv max s -> o ∈ (attachStart c p since (eng s)).1.2 ->
  exists ev, o = Output c ev /\ ev_paneId ev = p.
Proof.
  intros Hmax Hi. destruct (jm_get p (panes (eng s))) as [r|] eqn:Hg.
  - destruct (log r (published s)) as [|ev0 l0] eqn:Hl.
    + pose proof (wok_seq _ _ _ (inv_watcher _ _ Hi r)) as Hseq. rewrite Hl in Hseq.
      unfold attachStart, getWatcher. rewrite Hg. change (Watcher [] "" 0 []) with empty_watcher.
      cbn [streamSeq set_subscribers]. rewrite Hseq. simpl. by intros ?%elem_of_nil.
    + rewrite (attach_streamed max) with (r := r) by (done || congruence).
      assert (Hpane : forall ev, ev ∈ log r (published s) -> ev_paneId ev = p).
      { intros ev. by apply (inv_log_pane max). }
      destruct (k ← since; num_to_Z k) as [k|]; [case_decide|]; cbn [snd].
      * intros (ev & -> & Hev)%list_elem_of_fmap. exists ev. split; [done|]. apply Hpane.
        rewrite <- (take_drop (Z.to_nat k)). apply elem_of_app. by right.
      * intros ->%list_elem_of_singleton. by eexists.
      * intros ->%list_elem_of_singleton. by eexists.
  - unfold attachStart, getWatcher. rewrite Hg. simpl. by intros ?%elem_of_nil.
Qed.

Lemma heard_attach max s c p since :
  inv max s -> heard_ok s -> asked c p -> heard_ok (exec max (Attach c p since) s).2.
Proof.
  intros Hi Hh Hc. simpl. unfold attachStart.
  destruct (getWatcher p (eng s)) as [[r w] e] eqn:Hg.
  destruct (inv_getWatcher _ _ _ _ _ _ Hi Hg) as [Hi1 Hr].
  pose proof (heard_getWatcher _ _ _ _ _ Hh Hg) as Hh1.
  apply getWatcher_get in Hg as [Hg ->].
  pose proof (heard_join max (Sys e (attaching s) (published s)) c p r Hi1 Hh1 Hg Hc) as Hh2.
  cbn [eng attaching published] in Hh2. pose proof (heard_ensureStarted _ _ _ Hh2) as Hh3.
  repeat case_match; simplify_eq; try exact Hh3.
  apply (heard_add_frame (Sys _ (attaching s) (published s)) (Frame c p r _) Hh2); [|done].
  apply jm_get_In in Hg. unfold pairings. simpl. set_solver.
Qed.

(** A watcher numbers an event of its own pane. *)
Lemma heard_publish s r w ev p :
  heard_ok s -> (p, r) ∈ pairings s -> ev_paneId ev = p ->
  subscribers w = subscribers (watcher_at r (eng s)) ->
  heard_ok (Sys (set_watcher r w (eng s)) (attaching s) (published s ++ [(r, ev)])).
Proof.
  intros Hh Hpr Hev Hw. apply (heard_shrink s); [done| |done|].
  - unfold pairings in *. cbn [eng attaching published panes pollRest set_watcher].
    rewrite map_app. cbn [map]. unfold pub_pane at 2. cbn [fst snd]. rewrite Hev. set_solver.
  - intros r'. cbn [eng]. rewrite watcher_at_insert. case_decide; [subst; by rewrite Hw|done].
Qed.

Lemma heard_set_poll e fs pub rest :
  heard_ok (Sys e fs pub) -> rest ⊆ pollRest e ++ panes e -> heard_ok (Sys (set_poll rest e) fs pub).
Proof.
  intros Hh Hr. apply (heard_shrink (Sys e fs pub)); [done| |done|done].
  unfold pairings. simpl. set_solver.
Qed.

Lemma heard_captured max s i snapshot :
  heard_ok s -> heard_ok (exec max (Captured i snapshot) s).2 /\
  Forall effect_asked (exec max (Captured i snapshot) s).1.
Proof.
  intros Hh. cbn [exec]. destruct (attaching s !! i) as [f|] eqn:Hf; [|by split].
  unfold attachCaptured, nextEvent. change (Watcher [] "" 0 []) with empty_watcher.
  cbn [fst snd omap list_omap]. split.
  - apply (heard_drop_frame (Sys _ (attaching s) _)).
    apply heard_ensureStarted. by eapply heard_publish; [done|by eapply inv_frame_pane|..].
  - apply Forall_singleton. simpl. apply (heard_frames _ Hh). by eapply list_elem_of_lookup_2.
Qed.

Lemma heard_failed max s i : heard_ok s -> heard_ok (exec max (CaptureFailed i) s).2.
Proof.
  intros Hh. simpl. destruct (attaching s !! i) as [f|]; [|done].
  unfold attachFailed. change (Watcher [] "" 0 []) with empty_watcher. cbn [snd].
  apply (heard_drop_frame (Sys _ (attaching s) (published s))).
  apply (heard_stopIfIdle (Sys _ (attaching s) (published s))), heard_leave, Hh.
Qed.

Lemma heard_pollCaptured max s output :
  heard_ok s -> heard_ok (exec max (PollCaptured output) s).2 /\
  Forall effect_asked (exec max (PollCaptured output) s).1.
Proof.
  intros Hh. cbn [exec]. unfold pollCaptured. change (Watcher [] "" 0 []) with empty_watcher.
  destruct (pollRest (eng s)) as [|[p r] rest] eqn:Hrest.
  { cbn [fst snd option_list]. rewrite app_nil_r. by destruct s. }
  assert (Hpr : (p, r) ∈ pairings s) by (unfold pairings; rewrite Hrest; set_solver).
  assert (Hsub : rest ⊆ pollRest (eng s) ++ panes (eng s)) by (rewrite Hrest; set_solver).
  destruct (computeDelta _ _) as [[m chunk]|]; unfold nextEvent; cbn [fst snd option_list]; split.
  - apply heard_set_poll; [|exact Hsub]. by eapply heard_publish.
  - apply Forall_fmap, Forall_forall. intros c Hc. by apply (heard_subscribers _ Hh p r).
  - rewrite app_nil_r. apply heard_set_poll; [by destruct s|exact Hsub].
  - done.
Qed.

Lemma heard_pollFailed max s :
  heard_ok s -> heard_ok (exec max PollFailed s).2 /\ Forall effect_asked (exec max PollFailed s).1.
Proof.
  intros Hh. simpl. unfold pollFailed. change (Watcher [] "" 0 []) with empty_watcher.
  destruct (pollRest (eng s)) as [|[p r] rest] eqn:Hrest; [by destruct s|]. cbn [fst snd]. split.
  - apply heard_set_poll; [by destruct s|rewrite Hrest; set_solver].
  - apply Forall_fmap, Forall_forall. intros c Hc. apply (heard_subscribers _ Hh p r); [|done].
    unfold pairings. rewrite Hrest. set_solver.
Qed.

(** Every action keeps it so, and calls back only for clients that asked. *)
Lemma heard_exec max a s :
  0 <= max -> inv max s -> heard_ok s ->
  (forall c p since, a = Attach c p since -> asked c p) ->
  heard_ok (exec max a s).2 /\ Forall effect_asked (exec max a s).1.
Proof.
  intros Hmax Hi Hh Ha. destruct a as [c p since|i snapshot|i|c p|c| |output|].
  - specialize (Ha c p since eq_refl). split; [by apply heard_attach|].
    pose proof (fun o => attachStart_about max s c p since o Hmax Hi) as Ho. cbn [exec].
    destruct (attachStart c p since (eng s)) as [[res out] e]. cbn [fst snd] in *.
    apply Forall_forall. intros o Hin. destruct (Ho o Hin) as (ev & -> & <-). exact Ha.
  - by apply heard_captured.
  - split; [by apply heard_failed|]. simpl. by case_match.
  - split; [|constructor]. simpl. apply heard_detach. by destruct s.
  - split; [|constructor]. simpl. apply heard_detachAll. by destruct s.
  - split; [|constructor]. simpl. case_match; [|done]. unfold pollStart.
    case_match; [by destruct s|]. apply heard_set_poll; [by destruct s|set_solver].
  - by apply heard_pollCaptured.
  - by apply heard_pollFailed.
Qed.

Lemma heard_init : heard_ok init.
Proof. split; [by intros p r c ?%elem_of_nil|by intros f ?%elem_of_nil]. Qed.
End Heard.

Lemma heard_mono (asked asked' : string -> string -> Prop) s :
  (forall c p, asked c p -> asked' c p) -> heard_ok asked s -> heard_ok asked' s.
Proof. intros H [H1 H2]. split; eauto. Qed.

(** *** Polling rounds *)

Definition is_result (a : action) : bool :=
  match a with PollCaptured _ | PollFailed => true | _ => false end.

Definition results (acts : list action) : nat := length (filter (fun a => is_result a = true) acts).

Lemma execs_cons max a acts s :
  (execs max (a :: acts) s).2 = (execs max acts (exec max a s).2).2.
Proof.
  cbn [execs]. destruct (exec max a s) as [out s1]. cbn [snd].
  by destruct (execs max acts s1).
Qed.

Lemma execs_app max acts acts' s :
  (execs max (acts ++ acts') s).2 = (execs max acts' (execs max acts s).2).2.
Proof.
  revert s. induction acts as [|a acts IH]; intros s; [done|].
  cbn [app]. by rewrite !execs_cons, IH.
Qed.

(** The part of the engine that only the polling segments change. *)
Definition poll_part (e : BridgeEngine) : bool * list (string * nat) := (isPolling e, pollRest e).

Lemma poll_part_stopIfIdle e : poll_part (stopIfIdle e) = poll_part e.
Proof. unfold stopIfIdle. by case_match. Qed.

Lemma poll_part_ensureStarted e : poll_part (ensureStarted e) = poll_part e.
Proof. unfold ensureStarted. by case_match. Qed.

Lemma poll_part_if (b : bool) e e' x : poll_part e' = x -> poll_part e = x ->
  poll_part (if b then e' else e) = x.
Proof. by destruct b. Qed.

Lemma poll_part_detach c p e : poll_part (detach c p e) = poll_part e.
Proof. unfold detach. case_match; [|done]. rewrite poll_part_stopIfIdle. by apply poll_part_if. Qed.

Lemma poll_part_detachAll c e : poll_part (detachAll c e) = poll_part e.
Proof.
  unfold detachAll. generalize (panes e).*1 as ps. intros ps. revert e.
  induction ps as [|p ps IH]; intros e; [done|]. simpl. by rewrite IH, poll_part_detach.
Qed.

Lemma poll_part_attachFailed f e : poll_part (attachFailed f e) = poll_part e.
Proof. unfold attachFailed. rewrite poll_part_stopIfIdle. by apply poll_part_if. Qed.

Lemma poll_part_attachStart c p since e : poll_part (attachStart c p since e).2 = poll_part e.
Proof.
  unfold attachStart. destruct (getWatcher p e) as [[r w] e'] eqn:Hg.
  assert (He : poll_part e' = poll_part e).
  { unfold getWatcher in Hg. case_match; by simplify_eq. }
  rewrite <- He. repeat case_match; cbn [snd]; rewrite ?poll_part_ensureStarted; done.
Qed.

Lemma poll_part_exec max a s :
  is_result a = false -> a <> PollTick -> poll_part (eng (exec max a s).2) = poll_part (eng s).
Proof.
  intros Ha Ht. destruct a; try done; cbn [exec].
  - pose proof (poll_part_attachStart clientId paneId sinceSeq (eng s)) as H.
    by destruct (attachStart _ _ _ _) as [[res out] e].
  - destruct (attaching s !! i) as [f|]; [|done]. unfold attachCaptured.
    destruct (nextEvent _ _ _ _ _). cbn [snd eng]. by rewrite poll_part_ensureStarted.
  - destruct (attaching s !! i) as [f|]; [|done]. apply poll_part_attachFailed.
  - apply poll_part_detach.
  - apply poll_part_detachAll.
Qed.

Lemma pollRest_exec max a s :
  isPolling (eng s) = true -> isPolling (eng s) = (match pollRest (eng s) with [] => false | _ => true end) ->
  pollRest (eng (exec max a s).2) = if is_result a then tail (pollRest (eng s)) else pollRest (eng s).
Proof.
  intros Hp Hrest. destruct (is_result a) eqn:Ha.
  - destruct a; try done; simpl; unfold pollCaptured, pollFailed;
      destruct (pollRest (eng s)) as [|[p r] rest] eqn:Hr; simpl; [done| |done|done].
    destruct (computeDelta _ _) as [[m chunk]|]; done.
  - assert (a = PollTick \/ a <> PollTick) as [->|Hne] by (destruct a; first [done|by left|right; discriminate]).
    + cbn [exec snd]. destruct (pollTimer (eng s)); [|done]. simpl. unfold pollStart. by rewrite Hp.
    + by injection (poll_part_exec max a s Ha Hne) as _ ->.
Qed.

(** The segments of a round: one result per pane, anything in between. *)
Lemma poll_progress max acts s :
  0 <= max -> inv max s -> (results acts < length (pollRest (eng s)))%nat ->
  pollRest (eng (execs max acts s).2) = drop (results acts) (pollRest (eng s)) /\
  isPolling (eng (execs max acts s).2) = true.
Proof.
  intros Hmax. revert s. induction acts as [|a acts IH]; intros s Hi Hlt.
  { split; [done|]. simpl. rewrite (inv_poll _ _ Hi). by destruct (pollRest (eng s)); simpl in *; [lia|]. }
  rewrite execs_cons.
  assert (Hp : isPolling (eng s) = true).
  { rewrite (inv_poll _ _ Hi). by destruct (pollRest (eng s)); simpl in *; [lia|]. }
  pose proof (pollRest_exec max a s Hp (inv_poll _ _ Hi)) as Hrest.
  pose proof (inv_exec max a s Hmax Hi) as Hi'. specialize (IH _ Hi').
  unfold results in *. rewrite filter_cons in *.
  destruct (is_result a); simpl in *.
  - rewrite Hrest in IH. destruct (pollRest (eng s)) as [|x rest]; simpl in *; [lia|].
    apply IH. lia.
  - rewrite Hrest in IH. by apply IH.
Qed.

(** [attach] on a pane nobody watches, and its failure. *)
Lemma attachStart_fresh c p since e :
  jm_get p (panes e) = None ->
  attachStart c p since e =
    (Capturing (Frame c p (nextRef e) (n ← since; num_to_Z n)), [],
     Engine_ (jm_set p (nextRef e) (panes e)) (<[nextRef e := Watcher [c] "" 0 []]> (store e))
       (S (nextRef e)) (pollTimer e) (isPolling e) (pollRest e)).
Proof.
  intros Hg. unfold attachStart, getWatcher. rewrite Hg. unfold set_watcher. simpl.
  by rewrite insert_insert_eq.
Qed.

Lemma attachFailed_fresh c p k e :
  jm_get p (panes e) = None ->
  attachFailed (Frame c p (nextRef e) k)
    (Engine_ (jm_set p (nextRef e) (panes e)) (<[nextRef e := Watcher [c] "" 0 []]> (store e))
       (S (nextRef e)) (pollTimer e) (isPolling e) (pollRest e)) =
  stopIfIdle (Engine_ (panes e) (<[nextRef e := empty_watcher]> (store e))
       (S (nextRef e)) (pollTimer e) (isPolling e) (pollRest e)).
Proof.
  intros Hg. unfold attachFailed. simpl. rewrite lookup_insert_eq. simpl.
  assert (js_del c [c] = []) as ->.
  { unfold js_del. by rewrite filter_cons, decide_False by naive_solver. }
  simpl. unfold set_panes, set_watcher. simpl.
  by rewrite jm_delete_set_fresh, insert_insert_eq.
Qed.

(** ** Properties *)

(** C5. The stream of a watched pane, in every reachable state of the engine:
    its events are numbered 1, 2, 3, ... without a gap and all name the pane,
    [streamSeq] is the number of the last one, the history is the last
    [maxHistoryEvents] of them, and a client that applies them all shows exactly
    the last captured output. *)
Theorem stream_log_invariant (max : Z) (acts : list action) (p : string) (r : nat)
    (w : PaneWatcher) :
  0 <= max ->
  let s := (execs max acts init).2 in
  let l := log r (published s) in
  jm_get p (panes (eng s)) = Some r -> store (eng s) !! r = Some w ->
  (forall i ev, l !! i = Some ev -> ev_streamSeq ev = Z.of_nat i + 1 /\ ev_paneId ev = p) /\
  streamSeq w = Z.of_nat (length l) /\
  history w = drop (length l - Z.to_nat max) l /\
  lastOutput w = view l "" /\ NoDup (subscribers w).
Proof.
  intros Hmax s l Hg Hw.
  assert (Hi : inv max s) by (apply inv_execs; [done|apply inv_init]).
  destruct (inv_watcher _ _ Hi r) as [Hseq Hnum Hhist Hout Hsub]. rewrite Hw in *. simpl in *.
  split_and!; try done. intros i ev Hev. split; [by apply Hnum|].
  eapply inv_log_pane; [done..|]. by eapply list_elem_of_lookup_2.
Qed.

Definition demo_actions : list action :=
  [Attach "ann" "%1" None; Captured 0 "$"; PollTick; PollCaptured "$ ls"; PollTick;
   PollCaptured "a b"; Attach "bob" "%1" (Some (num_of_Z 2))].

Lemma stream_log_invariant_witness :
  let s := (execs 2 demo_actions init).2 in
  let l := log 0 (published s) in
  let w := watcher_at 0%nat (eng s) in
  (forall i ev, l !! i = Some ev -> ev_streamSeq ev = Z.of_nat i + 1 /\ ev_paneId ev = "%1") /\
  streamSeq w = Z.of_nat (length l) /\
  history w = drop (length l - 2) l /\ lastOutput w = view l "" /\ NoDup (subscribers w).
Proof.
  apply (stream_log_invariant 2 demo_actions "%1" 0); [lia|reflexivity|reflexivity].
Defined.

(** C6. Resuming a stream.  In every reachable state, [attach] on a pane that has
    streamed, by a client that has the first [k] events, sends the client
    exactly the missing events when they are all in the history and one full
    snapshot otherwise (also for a [lastSeq] the stream never reached), and
    either way the client ends up showing the pane's last output. *)
Theorem attach_resumes_stream (max : Z) (s : sys) (c p : string) (r : nat) (k : Z) :
  0 <= max -> reachable max s ->
  jm_get p (panes (eng s)) = Some r -> 0 < streamSeq (watcher_at r (eng s)) ->
  let l := log r (published s) in
  let n := Z.of_nat (length l) in
  exists evs,
    (attachStart c p (Some (num_of_Z k)) (eng s)).1.2 = map (Output c) evs /\
    evs = (if bool_decide (0 <= k < n /\ n - k <= max) then drop (Z.to_nat k) l
           else [Event Snapshot p (lastOutput (watcher_at r (eng s))) n]) /\
    view evs (view (take (Z.to_nat k) l) "") = lastOutput (watcher_at r (eng s)).
Proof.
  intros Hmax Hreach Hg Hpos l n.
  pose proof (inv_reachable _ _ Hmax Hreach) as Hi.
  pose proof (inv_watcher _ _ Hi r) as Hok. fold l in Hok.
  pose proof (wok_lastOutput _ _ _ Hok) as Hout. rewrite (wok_seq _ _ _ Hok) in Hpos.
  assert (Hne : l <> []) by (intros He; rewrite He in Hpos; simpl in Hpos; lia).
  eexists. split; [|split; [reflexivity|]].
  - rewrite (attach_streamed max s c p r _ Hmax Hi Hg Hne). fold l n. cbn [mbind option_bind]. rewrite num_to_Z_int.
    rewrite Hout. unfold resumable. case_decide as Hd.
    + by rewrite bool_decide_true.
    + by rewrite bool_decide_false.
  - rewrite Hout. case_bool_decide; [|done]. apply view_take_drop.
Qed.

Lemma attach_resumes_stream_witness :
  let s := (execs 2 demo_actions init).2 in
  exists evs,
    (attachStart "cat" "%1" (Some (num_of_Z 2)) (eng s)).1.2 = map (Output "cat") evs /\
    evs = drop 2 (log 0 (published s)) /\ view evs "$ ls" = "a b".
Proof.
  apply (attach_resumes_stream 2 (execs 2 demo_actions init).2 "cat" "%1" 0 2);
    [lia|by exists demo_actions|reflexivity|reflexivity].
Defined.

(** C13. Polling.  When the capture of a polled pane settles, every subscriber of
    its watcher receives exactly one event, numbered one past the last, that
    turns the last output into the new one; when the output did not change,
    nobody receives anything and the watcher stays as it was. *)
Theorem poll_delivers_change (max : Z) (s : sys) (p : string) (r : nat)
    (rest : list (string * nat)) (output : string) :
  0 <= max -> reachable max s -> pollRest (eng s) = (p, r) :: rest ->
  let w := watcher_at r (eng s) in
  NoDup (subscribers w) /\
  let '(out, s') := exec max (PollCaptured output) s in
  if decide (output = lastOutput w)
  then out = [] /\ watcher_at r (eng s') = w /\ published s' = published s
  else exists ev,
    out = map (fun clientId => Output clientId ev) (subscribers w) /\
    ev_streamSeq ev = streamSeq w + 1 /\ ev_paneId ev = p /\
    apply_event (lastOutput w) ev = output /\
    lastOutput (watcher_at r (eng s')) = output /\
    streamSeq (watcher_at r (eng s')) = streamSeq w + 1 /\
    subscribers (watcher_at r (eng s')) = subscribers w /\
    published s' = published s ++ [(r, ev)].
Proof.
  intros Hmax Hreach%inv_reachable Hrest w; [|done].
  split; [apply (wok_subscribers _ _ _ (inv_watcher _ _ Hreach r))|].
  cbn [exec]. unfold pollCaptured. rewrite Hrest.
  change (Watcher [] "" 0 []) with empty_watcher. fold w.
  destruct (decide (output = lastOutput w)) as [Heq|Hne].
  { apply computeDelta_None in Heq. rewrite Heq. simpl. by rewrite app_nil_r. }
  destruct (computeDelta _ _) as [[m chunk]|] eqn:Hd; [|by apply computeDelta_None in Hd].
  destruct (nextEvent _ _ _ _ _) as [ev w'] eqn:Hev. exists ev.
  unfold nextEvent in Hev. injection Hev as <- <-.
  cbn [eng]. rewrite (watcher_at_insert r r _ (eng s) : watcher_at r (set_poll rest _) = _).
  rewrite decide_True by done. split_and!; try done. by apply computeDelta_Some.
Qed.

Lemma poll_delivers_change_witness :
  let s := (execs 300 [Attach "ann" "%1" None; Captured 0 "$"; Attach "bob" "%1" None; PollTick] init).2 in
  let w := watcher_at 0%nat (eng s) in
  NoDup (subscribers w) /\
  let '(out, s') := exec 300 (PollCaptured "$ ls") s in
  exists ev,
    out = map (fun clientId => Output clientId ev) (subscribers w) /\
    ev_streamSeq ev = streamSeq w + 1 /\ ev_paneId ev = "%1" /\
    apply_event (lastOutput w) ev = "$ ls" /\
    lastOutput (watcher_at 0%nat (eng s')) = "$ ls" /\
    streamSeq (watcher_at 0%nat (eng s')) = streamSeq w + 1 /\
    subscribers (watcher_at 0%nat (eng s')) = subscribers w /\
    published s' = published s ++ [(0%nat, ev)].
Proof.
  apply (poll_delivers_change 300
    (execs 300 [Attach "ann" "%1" None; Captured 0 "$"; Attach "bob" "%1" None; PollTick] init).2
    "%1" 0 [] "$ ls"); [lia|by eexists|reflexivity].
Defined.

(** A polling round ends.  Once the timer starts a round over the watched
    panes, whatever attach, detach and timer calls interleave with it and
    whether the captures succeed or throw, after [k] results the round waits for
    the [k]-th pane (so that each is captured exactly once, in order), and the
    result of the last pane lets the next round start. *)
Theorem poll_round_terminates (max : Z) (s : sys) (acts : list action) (a : action) :
  0 <= max -> reachable max s -> pollTimer (eng s) = true -> isPolling (eng s) = false ->
  (results acts < length (panes (eng s)))%nat -> is_result a = true ->
  let s1 := (execs max (PollTick :: acts) s).2 in
  isPolling (eng s1) = true /\
  pollRest (eng s1) = drop (results acts) (panes (eng s)) /\
  (S (results acts) = length (panes (eng s)) -> isPolling (eng (exec max a s1).2) = false).
Proof.
  intros Hmax Hreach Ht Hp Hlt Ha. cbv zeta. rewrite execs_cons.
  pose proof (inv_reachable _ _ Hmax Hreach) as Hi.
  assert (Hstart : pollRest (eng (exec max PollTick s).2) = panes (eng s)).
  { simpl. rewrite Ht. simpl. unfold pollStart. rewrite Hp.
    destruct (panes (eng s)) eqn:Hps; simpl in *; [lia|done]. }
  pose proof (inv_exec max PollTick s Hmax Hi) as Hi1. rewrite <- Hstart in Hlt |- *.
  destruct (poll_progress max acts _ Hmax Hi1 Hlt) as [Hrest Hpoll]. split_and!; [done..|].
  intros Hlast. pose proof (inv_execs max acts _ Hmax Hi1) as Hi2.
  rewrite (inv_poll _ _ (inv_exec max a _ Hmax Hi2)).
  rewrite (pollRest_exec max a _ Hpoll (inv_poll _ _ Hi2)), Ha, Hrest.
  assert (Htail : forall m : list (string * nat), tail m = drop 1 m) by by intros [].
  rewrite Htail, drop_drop, drop_ge by lia. done.
Qed.

Lemma poll_round_terminates_witness :
  let s := (execs 300 [Attach "ann" "%1" None; Captured 0 "$"; Attach "ann" "%2" None; Captured 0 "#"] init).2 in
  let s1 := (execs 300 [PollTick; PollFailed; Detach "ann" "%2"; PollTick] s).2 in
  isPolling (eng s1) = true /\ pollRest (eng s1) = drop 1 (panes (eng s)) /\
  (2%nat = length (panes (eng s)) -> isPolling (eng (exec 300 (PollCaptured "#") s1).2) = false).
Proof.
  apply (poll_round_terminates 300 _ [PollFailed; Detach "ann" "%2"; PollTick] (PollCaptured "#"));
    [lia|by eexists|reflexivity|reflexivity| |reflexivity].
  apply (bool_decide_unpack _). vm_compute. exact I.
Defined.

(** Every pane that streams is polled: in every reachable state, when a
    watched pane has sent an event, the poll timer runs; so a watched pane can
    only be left unpolled while its first capture is in flight. *)
Theorem streaming_pane_is_polled (max : Z) (s : sys) (p : string) (r : nat) :
  0 <= max -> reachable max s -> jm_get p (panes (eng s)) = Some r ->
  0 < streamSeq (watcher_at r (eng s)) -> (getStats (eng s)).2 = true.
Proof.
  intros Hmax Hreach%inv_reachable Hg%jm_get_In Hpos; [|done]. simpl.
  destruct (pollTimer (eng s)) eqn:Ht; [done|].
  destruct (inv_timer _ _ Hreach Ht p r Hg). lia.
Qed.

Lemma streaming_pane_is_polled_witness :
  (getStats (eng (execs 300 [Attach "ann" "%1" None; Captured 0 "$"; Attach "ann" "%2" None;
     Captured 0 "#"; Detach "ann" "%1"] init).2)).2 = true.
Proof.
  apply (streaming_pane_is_polled 300 _ "%2" 1); [lia|by eexists|reflexivity|reflexivity].
Defined.

(** A failed attach is undone: when the first capture of a pane that nobody
    watched throws (and nothing happened meanwhile), the panes, their watchers
    and the polling round are as before the call, and the timer stops when no
    pane is left. *)
Theorem failed_attach_undone (max : Z) (s : sys) (c p : string) (since : option num) :
  0 <= max -> reachable max s -> jm_get p (panes (eng s)) = None ->
  let '(out, s') := execs max [Attach c p since; CaptureFailed (length (attaching s))] s in
  out = [] /\ panes (eng s') = panes (eng s) /\ attaching s' = attaching s /\
  published s' = published s /\ (forall r, watcher_at r (eng s') = watcher_at r (eng s)) /\
  poll_part (eng s') = poll_part (eng s) /\
  pollTimer (eng s') = (if decide (panes (eng s) = []) then false else pollTimer (eng s)).
Proof.
  intros Hmax Hreach%inv_reachable Hg; [|done].
  cbn [execs exec]. rewrite attachStart_fresh by done.
  cbn [eng attaching published]. rewrite list_lookup_middle by done.
  rewrite attachFailed_fresh by done. cbn [eng attaching published].
  rewrite delete_middle, !app_nil_r. split_and!; try done.
  - unfold stopIfIdle. by case_match.
  - intros r. unfold stopIfIdle. case_match; simpl;
      (destruct (decide (r = nextRef (eng s))) as [->|];
       [by rewrite lookup_insert_eq, (inv_stored _ _ Hreach)|by rewrite lookup_insert_ne]).
  - unfold stopIfIdle. by case_match.
  - unfold stopIfIdle. simpl. destruct (panes (eng s)); simpl; [|done].
    by destruct (pollTimer (eng s)) eqn:Ht.
Qed.

Lemma failed_attach_undone_witness :
  let s := (execs 300 [Attach "ann" "%1" None; Captured 0 "$"; PollTick] init).2 in
  let '(out, s') := execs 300 [Attach "bob" "%9" None; CaptureFailed (length (attaching s))] s in
  out = [] /\ panes (eng s') = panes (eng s) /\ attaching s' = attaching s /\
  published s' = published s /\ (forall r, watcher_at r (eng s') = watcher_at r (eng s)) /\
  poll_part (eng s') = poll_part (eng s) /\
  pollTimer (eng s') = (if decide (panes (eng s) = []) then false else pollTimer (eng s)).
Proof.
  apply (failed_attach_undone 300); [lia|by eexists|reflexivity].
Defined.

(** ** Deviations found

    Concrete interleavings in which a client is left with a wrong or a dead
    stream. *)

(** The events of [acts] that reach a client. *)
Definition received (c : string) (out : list effect) : list BridgePaneEvent :=
  omap (fun o => match o with
                 | Output c' ev => if decide (c' = c) then Some ev else None
                 | PollError _ _ => None
                 end) out.

(** Two clients attach to a fresh pane at once.  Each capture numbers an event and
    stores its output, but sends the event to its own client only: the first
    client never sees event 2 and shows a text the pane never had. *)
Lemma concurrent_attach_diverges :
  let '(out, s) := execs 300 [Attach "ann" "%1" None; Attach "bob" "%1" None; Captured 0 "x";
                              Captured 0 "xy"; PollTick; PollCaptured "xyz"] init in
  map ev_streamSeq (received "ann" out) = [1; 3] /\
  view (received "ann" out) "" = "xz" /\ lastOutput (watcher_at 0%nat (eng s)) = "xyz".
Proof. vm_compute. auto. Qed.

(** A client that detached while its first capture was in flight: when that
    capture fails late, the [catch] block deletes by pane id the watcher that
    another client has attached to since, whose polling stops for good. *)
Lemma late_failure_kills_other_stream :
  let s := (execs 300 [Attach "ann" "%1" None; Detach "ann" "%1"; Attach "bob" "%1" None;
                       Captured 1 "x"; CaptureFailed 0] init).2 in
  subscribers (watcher_at 1%nat (eng s)) = ["bob"] /\
  panes (eng s) = [] /\ getStats (eng s) = (0, false).
Proof. split_and!; reflexivity. Qed.

(** An attach that resumes after its client detached starts the timer although no
    pane is watched. *)
Lemma late_capture_leaves_timer_on :
  let s := (execs 300 [Attach "ann" "%1" None; Detach "ann" "%1"; Captured 0 "x"] init).2 in
  getStats (eng s) = (0, true).
Proof. reflexivity. Qed.

(** A failed first capture of a pane that a running round has polled already
    leaves a watcher without subscribers, which keeps being polled. *)
Lemma failed_attach_leaks_watcher :
  let s := (execs 300 [Attach "bob" "%1" None; Captured 0 "x"; Attach "ann" "%2" None; PollTick;
                       PollCaptured "x"; PollCaptured "y"; CaptureFailed 0] init).2 in
  map (fun pr => (pr.1, subscribers (watcher_at pr.2 (eng s)))) (panes (eng s)) =
    [("%1", ["bob"]); ("%2", [])].
Proof. reflexivity. Qed.

(** The event of a first capture is private (a deviation: polled events reach
    every subscriber).  When an attach in flight resumes, its event is numbered on
    the pane's log and replaces the last output, but only its own client receives
    it; a client that attached to the same pane meanwhile, or before, misses it,
    and the deltas it receives next apply to a text it does not show. *)
Theorem attach_event_is_private (max : Z) (s : sys) (i : nat) (f : attach_frame)
    (snapshot c : string) :
  attaching s !! i = Some f -> c <> af_clientId f ->
  let '(out, s') := exec max (Captured i snapshot) s in
  received c out = [] /\
  (exists ev, received (af_clientId f) out = [ev] /\
     log (af_ref f) (published s') = log (af_ref f) (published s) ++ [ev]) /\
  lastOutput (watcher_at (af_ref f) (eng s')) = snapshot /\
  subscribers (watcher_at (af_ref f) (eng s')) = subscribers (watcher_at (af_ref f) (eng s)).
Proof.
  intros Hf Hc. cbn [exec]. rewrite Hf. unfold attachCaptured.
  change (Watcher [] "" 0 []) with empty_watcher.
  destruct (nextEvent max _ _ _ _) as [ev w'] eqn:Hne. unfold nextEvent in Hne.
  injection Hne as Hev Hw. cbn [omap list_omap eng published].
  rewrite ensureStarted_watcher, watcher_at_insert, decide_True by done.
  unfold received. cbn [omap list_omap]. rewrite decide_False by done.
  rewrite decide_True by done. rewrite log_app, log_one, decide_True by done.
  subst w'. split_and!; [done| |done|done]. by exists ev.
Qed.

Lemma attach_event_is_private_witness :
  let s := (execs 300 [Attach "ann" "%1" None; Attach "bob" "%1" None; Captured 0 "x"] init).2 in
  let '(out, s') := exec 300 (Captured 0 "xy") s in
  received "ann" out = [] /\
  (exists ev, received "bob" out = [ev] /\ log 0 (published s') = log 0 (published s) ++ [ev]) /\
  lastOutput (watcher_at 0%nat (eng s')) = "xy" /\
  subscribers (watcher_at 0%nat (eng s')) = subscribers (watcher_at 0%nat (eng s)).
Proof.
  apply (attach_event_is_private 300 _ 0 (Frame "bob" "%1" 0 None) "xy" "ann"); [reflexivity|done].
Defined.
