(* ===== verification/Telemetry.v ===== *)
(** * Telemetry ([src/telemetry/bridge-telemetry.ts])

    Counters and bounded latency windows.  A latency is a difference of two
    [Date.now()] readings, hence an integral number of milliseconds; a published
    metric is rounded to two decimals and is kept in hundredths, as a [Z].
    Sums and averages are computed exactly (the code's doubles agree as long as
    the sums stay below 2^53 and the quotient is not within an ulp of a rounding
    boundary), but the index of a percentile is the code's double arithmetic,
    through the binary64 operations of [SpecFloat]. *)

From Stdlib Require Import Floats.SpecFloat.
From S2P Require Import Prelude.
Local Open Scope Z_scope.

(** ** Data *)

Definition DEFAULT_WINDOW_SIZE : Z := 256.

Record LatencyMetricSnapshot : Type := Metric {
  count : Z;
  lastMs : option Z;
  minMs : option Z;
  maxMs : option Z;
  avgMs : option Z;
  p50Ms : option Z;
  p95Ms : option Z
}.

(** [w_minMs] is [None] for the initial infinity. *)
Record LatencyWindow : Type := Window {
  w_values : list Z;
  w_size : Z;
  w_writeIndex : Z;
  w_totalCount : Z;
  w_totalMs : Z;
  w_minMs : option Z;
  w_maxMs : Z;
  w_lastMs : Z
}.

Record Counters : Type := Counters_ {
  connectionsOpened : Z;
  connectionsClosed : Z;
  listRequests : Z;
  attachRequests : Z;
  reconnectAttaches : Z;
  inputAcks : Z;
  streamLagSamples : Z
}.

(** The windows and the latencies share their names in the code. *)
Record PerMetric (A : Type) : Type := PerMetric_ {
  connect : A;
  reconnect : A;
  list_ : A;
  attach : A;
  inputAck : A;
  streamLag : A
}.
Arguments PerMetric_ {A}.
Arguments connect {A}.
Arguments reconnect {A}.
Arguments list_ {A}.
Arguments attach {A}.
Arguments inputAck {A}.
Arguments streamLag {A}.

Record BridgeTelemetryCollector : Type := Collector {
  windowSize : Z;
  counters : Counters;
  windows : PerMetric LatencyWindow
}.

(** ** Latency windows *)

Definition createLatencyWindow (size : Z) : LatencyWindow :=
  Window (repeat 0 (Z.to_nat size)) 0 0 0 0 None 0 0.

Definition sanitizeLatency (latencyMs : Z) : Z := if latencyMs <? 0 then 0 else latencyMs.

Definition recordLatency (w : LatencyWindow) (latencyMs : Z) : LatencyWindow :=
  let value := sanitizeLatency latencyMs in
  let len := Z.of_nat (length (w_values w)) in
  Window (<[Z.to_nat (w_writeIndex w) := value]> (w_values w))
    (Z.min (w_size w + 1) len)
    ((w_writeIndex w + 1) mod len)
    (w_totalCount w + 1)
    (w_totalMs w + value)
    (Some (match w_minMs w with Some m => Z.min m value | None => value end))
    (Z.max (w_maxMs w) value)
    value.

(** [Math.round(v * 100) / 100] of the rational [n / d], in hundredths. *)
Definition roundMetric (n d : Z) : Z := (200 * n + d) / (2 * d).

(** The doubles 0.5 and 0.95, and [n * ratio] for a small integer [n]. *)
Definition ratio_50 : spec_float := S754_finite false 4503599627370496 (-53).
Definition ratio_95 : spec_float := S754_finite false 8556839292003942 (-53).

Definition double_of_nat (n : nat) : spec_float := binary_normalize 53 1024 (Z.of_nat n) 0 false.

(** [Math.ceil] of a non-negative finite double. *)
Definition double_ceil (x : spec_float) : Z :=
  match x with
  | S754_finite false m e =>
      if 0 <=? e then Z.pos m * 2 ^ e else - ((- Z.pos m) / 2 ^ (- e))
  | _ => 0
  end.

(** The index into a sorted window of [n] samples. *)
Definition percentile_index (n : nat) (ratio : spec_float) : Z :=
  Z.max 0 (Z.min (Z.of_nat n - 1)
             (double_ceil (SFmul 53 1024 (double_of_nat n) ratio) - 1)).

Definition percentile (sortedValues : list Z) (ratio : spec_float) : option Z :=
  match sortedValues with
  | [] => None
  | _ => (fun v => roundMetric v 1) <$>
           sortedValues !! Z.to_nat (percentile_index (length sortedValues) ratio)
  end.

Definition snapshotLatency (w : LatencyWindow) : LatencyMetricSnapshot :=
  if w_totalCount w =? 0 then Metric 0 None None None None None None
  else
    let recent := js_sort Z.sub (take (Z.to_nat (w_size w)) (w_values w)) in
    Metric (w_totalCount w) (Some (roundMetric (w_lastMs w) 1))
      ((fun m => roundMetric m 1) <$> w_minMs w)
      (Some (roundMetric (w_maxMs w) 1))
      (Some (roundMetric (w_totalMs w) (w_totalCount w)))
      (percentile recent ratio_50)
      (percentile recent ratio_95).

(** ** The collector *)

(** A window size that is not an integer is [None]. *)
Definition newCollector (size : option Z) : BridgeTelemetryCollector :=
  let size := match size with
              | Some z => if 0 <? z then z else DEFAULT_WINDOW_SIZE
              | None => DEFAULT_WINDOW_SIZE
              end in
  let w := createLatencyWindow size in
  Collector size (Counters_ 0 0 0 0 0 0 0) (PerMetric_ w w w w w w).

Definition recordConnectLatency (latencyMs : Z) (t : BridgeTelemetryCollector) :=
  let '(Counters_ co cc lr ar ra ia sl) := counters t in
  let '(PerMetric_ c r l a i s) := windows t in
  Collector (windowSize t) (Counters_ (co + 1) cc lr ar ra ia sl)
    (PerMetric_ (recordLatency c latencyMs) r l a i s).

Definition recordConnectionClosed (t : BridgeTelemetryCollector) :=
  let '(Counters_ co cc lr ar ra ia sl) := counters t in
  Collector (windowSize t) (Counters_ co (cc + 1) lr ar ra ia sl) (windows t).

Definition recordListLatency (latencyMs : Z) (t : BridgeTelemetryCollector) :=
  let '(Counters_ co cc lr ar ra ia sl) := counters t in
  let '(PerMetric_ c r l a i s) := windows t in
  Collector (windowSize t) (Counters_ co cc (lr + 1) ar ra ia sl)
    (PerMetric_ c r (recordLatency l latencyMs) a i s).

Definition recordAttachLatency (latencyMs : Z) (t : BridgeTelemetryCollector) :=
  let '(Counters_ co cc lr ar ra ia sl) := counters t in
  let '(PerMetric_ c r l a i s) := windows t in
  Collector (windowSize t) (Counters_ co cc lr (ar + 1) ra ia sl)
    (PerMetric_ c r l (recordLatency a latencyMs) i s).

Definition recordReconnectLatency (latencyMs : Z) (t : BridgeTelemetryCollector) :=
  let '(Counters_ co cc lr ar ra ia sl) := counters t in
  let '(PerMetric_ c r l a i s) := windows t in
  Collector (windowSize t) (Counters_ co cc lr ar (ra + 1) ia sl)
    (PerMetric_ c (recordLatency r latencyMs) l a i s).

Definition recordInputAckLatency (latencyMs : Z) (t : BridgeTelemetryCollector) :=
  let '(Counters_ co cc lr ar ra ia sl) := counters t in
  let '(PerMetric_ c r l a i s) := windows t in
  Collector (windowSize t) (Counters_ co cc lr ar ra (ia + 1) sl)
    (PerMetric_ c r l a (recordLatency i latencyMs) s).

Definition recordStreamLag (latencyMs : Z) (t : BridgeTelemetryCollector) :=
  let '(Counters_ co cc lr ar ra ia sl) := counters t in
  let '(PerMetric_ c r l a i s) := windows t in
  Collector (windowSize t) (Counters_ co cc lr ar ra ia (sl + 1))
    (PerMetric_ c r l a i (recordLatency s latencyMs)).

(** ** Reference: a window as a function of its samples *)

Definition record_all (size : Z) (samples : list Z) : LatencyWindow :=
  foldl recordLatency (createLatencyWindow size) samples.

(** The nearest-rank percentile [num / den] of a sorted list. *)
Definition nearest_rank (num den : Z) (sorted : list Z) : option Z :=
  sorted !! Z.to_nat ((num * Z.of_nat (length sorted) + den - 1) / den - 1).

(** What [/health] should report after [samples]. *)
Definition reference_snapshot (size : Z) (samples : list Z) : LatencyMetricSnapshot :=
  let clean := map (Z.max 0) samples in
  let recent := js_sort Z.sub (lastn (Z.to_nat size) clean) in
  let hundredths := fmap (fun v => 100 * v) in
  Metric (Z.of_nat (length clean)) (hundredths (last clean))
    (hundredths (head (js_sort Z.sub clean))) (hundredths (last (js_sort Z.sub clean)))
    (if (length clean =? 0)%nat then None
     else Some (roundMetric (foldr Z.add 0 clean) (Z.of_nat (length clean))))
    (hundredths (nearest_rank 50 100 recent)) (hundredths (nearest_rank 95 100 recent)).

(** ** Lemmas *)

Lemma Zsub_trans x y z : x - y <= 0 -> y - z <= 0 -> x - z <= 0.
Proof. lia. Qed.

Lemma Zsub_total x y : x - y <= 0 \/ y - x <= 0.
Proof. lia. Qed.

Lemma js_sort_Z_sorted (l : list Z) : StronglySorted Z.le (js_sort Z.sub l).
Proof.
  eapply StronglySorted_weaken; [|apply (js_sort_sorted Z.sub Zsub_trans Zsub_total)].
  simpl. lia.
Qed.

(** Sorting numbers depends on the multiset only. *)
Lemma js_sort_Z_perm (l l' : list Z) : l ≡ₚ l' -> js_sort Z.sub l = js_sort Z.sub l'.
Proof.
  intros Hp. eapply (StronglySorted_unique Z.le); [apply js_sort_Z_sorted..|].
  by rewrite !js_sort_perm.
Qed.

(** The extremes of a sorted list. *)
Lemma js_sort_Z_head l m :
  m ∈ l -> Forall (Z.le m) l -> head (js_sort Z.sub l) = Some m.
Proof.
  intros Hin Hall. rewrite <- (js_sort_perm Z.sub l) in Hin, Hall.
  destruct (js_sort_Z_sorted l) as [|x l' _ Hx]; [by apply elem_of_nil in Hin|]. simpl. f_equal.
  apply Forall_cons in Hall as [? _]. apply elem_of_cons in Hin as [->|Hin]; [done|].
  rewrite Forall_forall in Hx. specialize (Hx _ Hin). lia.
Qed.

Lemma js_sort_Z_last l m :
  m ∈ l -> Forall (fun x => x <= m) l -> last (js_sort Z.sub l) = Some m.
Proof.
  intros Hin Hall. rewrite <- (js_sort_perm Z.sub l) in Hin, Hall.
  pose proof (js_sort_Z_sorted l) as Hs. revert Hs Hin Hall.
  induction (js_sort Z.sub l) as [|x l' IH]; intros Hs Hin Hall; [by apply elem_of_nil in Hin|].
  inversion_clear Hs as [|? ? Hs' Hx]. apply Forall_cons in Hall as [Hxm Hall].
  destruct l' as [|y l'].
  { apply list_elem_of_singleton in Hin as ->. done. }
  rewrite last_cons_cons. apply IH; [done| |done].
  apply elem_of_cons in Hin as [->|Hin]; [|done].
  apply Forall_cons in Hx as [Hxy _]. apply Forall_cons in Hall as [Hym _].
  assert (y = x) as -> by lia. set_solver.
Qed.

Lemma double_of_ratio_95 : ratio_95 = SFdiv 53 1024 (double_of_nat 95) (double_of_nat 100).
Proof. reflexivity. Qed.

Lemma double_of_ratio_50 : ratio_50 = SFdiv 53 1024 (double_of_nat 1) (double_of_nat 2).
Proof. reflexivity. Qed.

(** The double arithmetic of [percentile] finds the exact nearest rank for every
    window size in use. *)
Lemma percentile_index_exact n :
  (1 <= n <= 256)%nat ->
  percentile_index n ratio_50 = (50 * Z.of_nat n + 100 - 1) / 100 - 1 /\
  percentile_index n ratio_95 = (95 * Z.of_nat n + 100 - 1) / 100 - 1.
Proof.
  intros Hn.
  assert (H : forallb (fun n => (percentile_index n ratio_50 =? (50 * Z.of_nat n + 100 - 1) / 100 - 1)
    && (percentile_index n ratio_95 =? (95 * Z.of_nat n + 100 - 1) / 100 - 1)) (seq 1 256) = true)
    by (vm_compute; reflexivity).
  rewrite forallb_forall in H. specialize (H n).
  rewrite andb_true_iff, !Z.eqb_eq in H. apply H. apply in_seq. lia.
Qed.

Lemma roundMetric_int v : roundMetric v 1 = 100 * v.
Proof. unfold roundMetric. symmetry. apply (Z.div_unique _ _ _ 1); lia. Qed.

(** The samples a window has seen, in terms of its fields: the ring holds the last
    [size] of them, the oldest at [writeIndex] once it is full. *)
Record window_ok (size : nat) (clean : list Z) (w : LatencyWindow) : Prop := {
  wk_length : length (w_values w) = size;
  wk_size : w_size w = Z.of_nat (size `min` length clean);
  wk_index : w_writeIndex w = Z.of_nat (length clean mod size);
  wk_ring : if decide (length clean < size)%nat then take (length clean) (w_values w) = clean
            else drop (length clean mod size) (w_values w) ++
                 take (length clean mod size) (w_values w) = lastn size clean;
  wk_count : w_totalCount w = Z.of_nat (length clean);
  wk_total : w_totalMs w = foldr Z.add 0 clean;
  wk_min : match w_minMs w with
           | Some m => m ∈ clean /\ Forall (Z.le m) clean
           | None => clean = []
           end;
  wk_max : clean <> [] -> w_maxMs w ∈ clean /\ Forall (fun x => x <= w_maxMs w) clean;
  wk_max0 : clean = [] -> w_maxMs w = 0;
  wk_last : clean <> [] -> last clean = Some (w_lastMs w)
}.

Lemma window_ok_new size :
  (0 < size)%nat -> window_ok size [] (createLatencyWindow (Z.of_nat size)).
Proof.
  intros Hs. split; simpl; rewrite ?Nat2Z.id; try done.
  - apply repeat_length.
  - by rewrite Nat.min_0_r.
  - by rewrite Nat.Div0.mod_0_l.
  - by rewrite decide_True.
Qed.

Lemma foldr_add_snoc l x : foldr Z.add 0 (l ++ [x]) = foldr Z.add 0 l + x.
Proof. induction l as [|y l IH]; simpl; [lia|]. rewrite IH. lia. Qed.

(** One more sample in the ring. *)
Lemma ring_step (size : nat) (clean values : list Z) (v : Z) :
  (0 < size)%nat -> length values = size ->
  (if decide (length clean < size)%nat then take (length clean) values = clean
   else drop (length clean mod size) values ++ take (length clean mod size) values =
        lastn size clean) ->
  let clean' := clean ++ [v] in
  let values' := <[(length clean mod size)%nat := v]> values : list Z in
  if decide (length clean' < size)%nat then take (length clean') values' = clean'
  else drop (length clean' mod size) values' ++ take (length clean' mod size) values' =
       lastn size clean'.
Proof.
  intros Hs Hlen Hring. cbv zeta. rewrite length_app. simpl length.
  set (n := length clean) in *.
  assert (Hm : (n mod size < size)%nat) by (apply Nat.mod_upper_bound; lia).
  destruct (decide (n < size)%nat) as [Hn|Hn].
  - rewrite Nat.mod_small by done. rewrite insert_take_drop by lia. rewrite Hring.
    destruct (decide (n + 1 < size)%nat) as [Hn'|Hn'].
    + replace (clean ++ v :: drop (S n) values) with ((clean ++ [v]) ++ drop (S n) values)
        by by rewrite <- app_assoc.
      rewrite take_app_length' by (rewrite length_app; simpl; lia). done.
    + assert (n + 1 = size)%nat as Hn1 by lia. rewrite Hn1, Nat.Div0.mod_same by lia.
      rewrite drop_0. simpl. rewrite drop_ge by lia. rewrite app_nil_r.
      unfold lastn. rewrite length_app. simpl. fold n. by replace (n + 1 - size)%nat with 0%nat by lia.
  - rewrite decide_False by lia.
    rewrite insert_take_drop by lia.
    set (w := (n mod size)%nat) in *.
    assert (Hdrop : exists x, drop w values = x :: drop (S w) values).
    { destruct (lookup_lt_is_Some_2 values w) as [x Hx]; [lia|]. exists x. by apply drop_S. }
    destruct Hdrop as [x Hdrop]. rewrite Hdrop in Hring.
    rewrite lastn_snoc, <- Hring, bool_decide_true.
    2: { simpl; rewrite !length_app, length_drop, length_take; simpl; lia. }
    simpl tail.
    assert (Hw : ((n + 1) mod size = if decide (S w < size) then S w else 0)%nat).
    { unfold w. rewrite Nat.add_1_r, <- Nat.add_1_r.
      rewrite <- Nat.Div0.add_mod_idemp_l. fold w. case_decide; [rewrite Nat.mod_small; lia|].
      replace (w + 1)%nat with size by lia. apply Nat.Div0.mod_same. }
    rewrite Hw. assert (Hlt : length (take w values) = w) by (rewrite length_take; lia).
    replace (take w values ++ v :: drop (S w) values)
      with ((take w values ++ [v]) ++ drop (S w) values) by by rewrite <- app_assoc.
    case_decide.
    + rewrite drop_app_length', take_app_length' by (rewrite length_app; simpl; lia). 
      by rewrite app_assoc.
    + rewrite drop_0, (drop_ge values) by lia. by rewrite !app_nil_r.
Qed.

Lemma sanitize_max v : sanitizeLatency v = Z.max 0 v.
Proof. unfold sanitizeLatency. destruct (Z.ltb_spec v 0); lia. Qed.

Lemma window_ok_step size clean w v :
  (0 < size)%nat -> Forall (Z.le 0) clean -> window_ok size clean w ->
  window_ok size (clean ++ [Z.max 0 v]) (recordLatency w v).
Proof.
  intros Hs Hpos [Hlen Hsize Hidx Hring Hcount Htotal Hmin Hmax Hmax0 Hlast].
  unfold recordLatency. rewrite sanitize_max, Hlen.
  set (x := Z.max 0 v). split; simpl; rewrite ?length_app; simpl.
  - by rewrite length_insert.
  - rewrite Hsize. lia.
  - rewrite Hidx, !Nat2Z.inj_mod, Nat2Z.inj_add. simpl.
    by rewrite Z.add_mod_idemp_l by lia.
  - rewrite Hidx, Nat2Z.id. pose proof (ring_step size clean _ x Hs Hlen Hring) as Hstep.
    cbv zeta in Hstep. rewrite length_app in Hstep. exact Hstep.
  - rewrite Hcount. lia.
  - by rewrite foldr_add_snoc, Htotal.
  - destruct (w_minMs w) as [m|].
    + destruct Hmin as [Hin Hall]. rewrite Forall_app, Forall_singleton, elem_of_app,
        list_elem_of_singleton. destruct (Z.min_spec m x) as [[? ->]|[? ->]]; split_and!; auto.
      * lia.
      * eapply Forall_impl; [exact Hall|]. simpl. lia.
      * lia.
    + subst clean. split; [set_solver|]. by repeat constructor.
  - intros _. destruct clean as [|y clean0] eqn:Hc.
    + rewrite Hmax0 by done. simpl. rewrite Z.max_r by lia. split; [set_solver|].
      by repeat constructor.
    + rewrite <- Hc in *. destruct Hmax as [Hin Hall]; [by rewrite Hc|].
      rewrite Forall_app, Forall_singleton, elem_of_app, list_elem_of_singleton.
      destruct (Z.max_spec (w_maxMs w) x) as [[? ->]|[? ->]]; split_and!; auto; try lia.
      eapply Forall_impl; [exact Hall|]. simpl. lia.
  - intros He. by apply app_eq_nil in He as [_ ?].
  - intros _. by rewrite last_snoc.
Qed.

Lemma window_ok_record_all size samples :
  (0 < size)%nat ->
  window_ok size (map (Z.max 0) samples) (record_all (Z.of_nat size) samples).
Proof.
  intros Hs. induction samples as [|v l IH] using rev_ind; [by apply window_ok_new|].
  unfold record_all. rewrite foldl_snoc, map_app. simpl. apply window_ok_step; [done| |done].
  apply Forall_map, Forall_true. intros. simpl. lia.
Qed.

(** The filled part of the ring holds the last samples. *)
Lemma window_ok_recent size clean w :
  (0 < size)%nat -> window_ok size clean w ->
  take (Z.to_nat (w_size w)) (w_values w) ≡ₚ lastn size clean.
Proof.
  intros Hs [Hlen -> _ Hring _ _ _ _ _ _]. rewrite Nat2Z.id. case_decide.
  - rewrite Nat.min_r, Hring by lia. unfold lastn.
    by replace (length clean - size)%nat with 0%nat by lia.
  - rewrite Nat.min_l, take_ge, <- Hring by lia.
    rewrite Permutation_app_comm. by rewrite take_drop.
Qed.

Lemma percentile_exact size l num ratio :
  (length l <= size <= 256)%nat ->
  (forall n, (1 <= n <= 256)%nat ->
     percentile_index n ratio = (num * Z.of_nat n + 100 - 1) / 100 - 1) ->
  percentile l ratio = (fun v => 100 * v) <$> nearest_rank num 100 l.
Proof.
  intros Hl Hidx. unfold percentile, nearest_rank. destruct l as [|x l']; [done|].
  rewrite Hidx by (simpl in *; lia). generalize (Z.to_nat ((num * Z.of_nat (length (x :: l')) + 100 - 1) / 100 - 1)).
  intros i. destruct ((x :: l') !! i); simpl; [|done]. by rewrite roundMetric_int.
Qed.

(** ** Properties *)

(** The latency metrics of [/health] are right.  After any samples, the
    snapshot of a window of at most 256 entries, computed from the ring buffer
    and the running aggregates, is the one computed from the list of all
    samples: count, last, minimum, maximum and average of all of them, exact
    nearest-rank median and 95th percentile of the last [size] of them. *)
Theorem latency_window_spec (size : Z) (samples : list Z) :
  0 < size <= 256 ->
  snapshotLatency (record_all size samples) = reference_snapshot size samples.
Proof.
  intros Hs. rewrite <- (Z2Nat.id size) by lia. assert (Hn : (0 < Z.to_nat size <= 256)%nat) by lia.
  revert Hn. generalize (Z.to_nat size) as n. clear size Hs. intros n Hn.
  pose proof (window_ok_record_all n samples (proj1 Hn)) as Hok.
  pose proof (window_ok_recent _ _ _ (proj1 Hn) Hok) as Hrecent.
  unfold snapshotLatency, reference_snapshot. rewrite Nat2Z.id.
  destruct (record_all (Z.of_nat n) samples) as [vs sz wi tc tm mn mx ls].
  destruct Hok as [Hlen Hsize Hidx _ Hcount Htotal Hmin Hmax Hmax0 Hlast]. simpl in *.
  set (clean := map (Z.max 0) samples) in *.
  destruct clean as [|x clean'] eqn:Hc.
  { subst tc. unfold lastn. rewrite drop_nil. done. }
  rewrite <- Hc in *. assert (Hne : clean <> []) by by rewrite Hc.
  destruct (Hmax Hne) as [Hin Hall]. rewrite (Hlast Hne). rewrite (js_sort_Z_last _ _ Hin Hall).
  destruct mn as [m|]; [|done]. destruct Hmin as [Hmin1 Hmin2]. rewrite (js_sort_Z_head _ _ Hmin1 Hmin2).
  rewrite (js_sort_Z_perm _ _ Hrecent), Hcount, Htotal.
  assert (Hlen0 : length clean <> 0%nat) by (by rewrite Hc).
  rewrite (proj2 (Z.eqb_neq _ _)) by lia. rewrite (proj2 (Nat.eqb_neq _ _)) by done.
  simpl. rewrite !roundMetric_int.
  assert (Hl : (length (js_sort Z.sub (lastn n clean)) <= n <= 256)%nat).
  { rewrite js_sort_perm, lastn_length. lia. }
  f_equal; (eapply percentile_exact; [exact Hl|intros; by apply percentile_index_exact]).
Qed.

Lemma latency_window_spec_witness :
  snapshotLatency (record_all 4 [7; 3; -2; 12; 5; 40]) =
    Metric 6 (Some 4000) (Some 0) (Some 4000) (Some 1117) (Some 500) (Some 4000).
Proof. rewrite (latency_window_spec 4) by lia. reflexivity. Defined.
