(* ===== verification/Status.v ===== *)
(** * Layered health status ([src/telemetry/bridge-status.ts], and
    [getSafeSnapshot] of [bridge-telemetry.ts])

    The severity of each layer, the issues behind it and the overall severity.
    The code pushes issues into a shared array; here each evaluator returns the
    issues it pushes. *)

From S2P Require Import Prelude JsMap Telemetry.
From stdpp Require Import pretty.
Local Open Scope Z_scope.

Inductive BridgeStatusSeverity : Type := SevOk | SevWarn | SevFail.

#[export] Instance severity_eq_dec : EqDecision BridgeStatusSeverity.
Proof. solve_decision. Defined.

Inductive layer : Type := transport | runtime | replay | safety | observability.

#[export] Instance layer_eq_dec : EqDecision layer.
Proof. solve_decision. Defined.

Record BridgeStatusIssue : Type := Issue {
  issue_layer : layer;
  issue_severity : BridgeStatusSeverity;
  issue_code : string;
  issue_message : string
}.

(** Metrics are named numbers or null; latencies are in hundredths of a
    millisecond, counts are scaled likewise ([metric_count]). *)
Record BridgeStatusLayerSnapshot : Type := Layer {
  severity : BridgeStatusSeverity;
  metrics : list (string * option Z)
}.

Record BridgeStatusSnapshot : Type := StatusSnapshot {
  st_generatedAt : Z;
  overall : BridgeStatusSeverity;
  layers : list (layer * BridgeStatusLayerSnapshot);
  issues : list BridgeStatusIssue
}.

(** [`${x}`] of a metric kept in hundredths: "12", "12.5" or "12.05". *)
Definition metric_string (h : Z) : string :=
  let ms := h / 100 in
  let frac := h mod 100 in
  (pretty ms +:+
   if frac =? 0 then ""
   else if frac mod 10 =? 0 then "." +:+ pretty (frac / 10)
   else "." +:+ (if frac <? 10 then "0" else "") +:+ pretty frac).

Definition deriveLatencySeverity (p95 : option Z) (warnAt failAt : Z) (l : layer)
    (code : string) : BridgeStatusSeverity * list BridgeStatusIssue :=
  match p95 with
  | None => (SevOk, [])
  | Some p =>
      if failAt * 100 <? p then
        (SevFail, [Issue l SevFail code
          (code +:+ " exceeded fail threshold (" +:+ metric_string p +:+ "ms)")])
      else if warnAt * 100 <? p then
        (SevWarn, [Issue l SevWarn code
          (code +:+ " exceeded warn threshold (" +:+ metric_string p +:+ "ms)")])
      else (SevOk, [])
  end.

Definition maxSeverity (severities : list BridgeStatusSeverity) : BridgeStatusSeverity :=
  if bool_decide (SevFail ∈ severities) then SevFail
  else if bool_decide (SevWarn ∈ severities) then SevWarn
  else SevOk.

Definition metric_count (n : Z) : option Z := Some (n * 100).

Definition buildBridgeStatusSnapshot (now activeClients windowSize : Z) (c : Counters)
    (lat : PerMetric LatencyMetricSnapshot) : BridgeStatusSnapshot :=
  let '(transportSeverity, i1) :=
    deriveLatencySeverity (p95Ms (connect lat)) 500 1000 transport "connect_latency_p95" in
  let '(replaySeverity, i2) :=
    deriveLatencySeverity (p95Ms (streamLag lat)) 200 500 replay "stream_lag_p95" in
  let '(safetySeverity, i3) :=
    deriveLatencySeverity (p95Ms (inputAck lat)) 250 500 safety "input_ack_latency_p95" in
  let runtimeSeverity :=
    if (0 <? activeClients) && (attachRequests c =? 0) then SevWarn else SevOk in
  let i4 :=
    if bool_decide (runtimeSeverity = SevWarn) then
      [Issue runtime SevWarn "active_clients_without_attach"
         "active clients observed with no attach requests in current telemetry window"]
    else [] in
  let observabilitySeverity :=
    if (streamLagSamples c =? 0) && (0 <? activeClients) then SevWarn else SevOk in
  let i5 :=
    if bool_decide (observabilitySeverity = SevWarn) then
      [Issue observability SevWarn "missing_stream_lag_samples"
         "stream lag samples are missing while clients are connected"]
    else [] in
  StatusSnapshot now
    (maxSeverity [transportSeverity; runtimeSeverity; replaySeverity; safetySeverity;
                  observabilitySeverity])
    [(transport, Layer transportSeverity
        [("activeClients", metric_count activeClients); ("connectP95Ms", p95Ms (connect lat));
         ("reconnectP95Ms", p95Ms (reconnect lat));
         ("connectionsOpened", metric_count (connectionsOpened c));
         ("connectionsClosed", metric_count (connectionsClosed c))]);
     (runtime, Layer runtimeSeverity
        [("activeClients", metric_count activeClients);
         ("attachRequests", metric_count (attachRequests c));
         ("listRequests", metric_count (listRequests c))]);
     (replay, Layer replaySeverity
        [("reconnectAttaches", metric_count (reconnectAttaches c));
         ("streamLagP95Ms", p95Ms (streamLag lat));
         ("streamLagSamples", metric_count (streamLagSamples c))]);
     (safety, Layer safetySeverity
        [("inputAcks", metric_count (inputAcks c)); ("inputAckP95Ms", p95Ms (inputAck lat))]);
     (observability, Layer observabilitySeverity
        [("telemetrySchemaVersion", metric_count 1);
         ("streamLagSamples", metric_count (streamLagSamples c));
         ("windowSize", metric_count windowSize)])]
    (i1 ++ i2 ++ i3 ++ i4 ++ i5).

(** [getSafeSnapshot] of the collector. *)
Record BridgeTelemetrySnapshot : Type := TelemetrySnapshot {
  ts_generatedAt : Z;
  ts_activeClients : Z;
  ts_windowSize : Z;
  ts_counters : Counters;
  ts_latenciesMs : PerMetric LatencyMetricSnapshot;
  ts_status : BridgeStatusSnapshot
}.

Definition getSafeSnapshot (now activeClients : Z) (t : BridgeTelemetryCollector) :
    BridgeTelemetrySnapshot :=
  let '(PerMetric_ c r l a i s) := windows t in
  let lat := PerMetric_ (snapshotLatency c) (snapshotLatency r) (snapshotLatency l)
               (snapshotLatency a) (snapshotLatency i) (snapshotLatency s) in
  TelemetrySnapshot now activeClients (windowSize t) (counters t) lat
    (buildBridgeStatusSnapshot now activeClients (windowSize t) (counters t) lat).

(** ** Specification *)

Definition severity_rank (s : BridgeStatusSeverity) : nat :=
  match s with SevOk => 0 | SevWarn => 1 | SevFail => 2 end.

(** ** Lemmas *)

Lemma maxSeverity_spec sevs :
  severity_rank (maxSeverity sevs) = foldr Nat.max 0%nat (map severity_rank sevs).
Proof.
  unfold maxSeverity. induction sevs as [|s sevs IH]; [done|]. simpl. rewrite <- IH. clear IH.
  repeat case_bool_decide; destruct s; set_solver.
Qed.

Definition exceeds (p95 : option Z) (limit : Z) : bool :=
  match p95 with Some p => limit * 100 <? p | None => false end.

Lemma derive_spec p w f l code :
  w <= f -> exists s iss,
    deriveLatencySeverity p w f l code = (s, iss) /\
    map (fun i => (issue_layer i, issue_severity i)) iss =
      (if decide (s = SevOk) then [] else [(l, s)]) /\
    (s = SevFail <-> exceeds p f = true) /\ (s = SevOk <-> exceeds p w = false).
Proof.
  intros Hwf. unfold deriveLatencySeverity, exceeds. destruct p as [p|]; [|by do 2 eexists].
  destruct (Z.ltb_spec (f * 100) p), (Z.ltb_spec (w * 100) p); try lia; by do 2 eexists.
Qed.

(** ** Properties *)

(** The health status is consistent: the five layers are the ones published,
    the overall severity is the worst of theirs, every layer that is not ok is
    explained by exactly one issue of its severity and no other issue is
    listed, and a latency layer fails (warns) exactly when its 95th percentile
    exceeds its threshold. *)
Theorem status_consistent (now activeClients windowSize : Z) (c : Counters)
    (lat : PerMetric LatencyMetricSnapshot) :
  let st := buildBridgeStatusSnapshot now activeClients windowSize c lat in
  let sevs := map (fun lv => (lv.1, severity lv.2)) (layers st) in
  sevs.*1 = [transport; runtime; replay; safety; observability] /\
  severity_rank (overall st) = foldr Nat.max 0%nat (map severity_rank sevs.*2) /\
  map (fun i => (issue_layer i, issue_severity i)) (issues st) ≡ₚ
    filter (fun ls => ls.2 <> SevOk) sevs /\
  (jm_get transport sevs = Some SevFail <-> exceeds (p95Ms (connect lat)) 1000 = true) /\
  (jm_get replay sevs = Some SevFail <-> exceeds (p95Ms (streamLag lat)) 500 = true) /\
  (jm_get safety sevs = Some SevFail <-> exceeds (p95Ms (inputAck lat)) 500 = true) /\
  (jm_get transport sevs = Some SevOk <-> exceeds (p95Ms (connect lat)) 500 = false) /\
  (jm_get replay sevs = Some SevOk <-> exceeds (p95Ms (streamLag lat)) 200 = false) /\
  (jm_get safety sevs = Some SevOk <-> exceeds (p95Ms (inputAck lat)) 250 = false).
Proof.
  cbv zeta. unfold buildBridgeStatusSnapshot.
  destruct (derive_spec (p95Ms (connect lat)) 500 1000 transport "connect_latency_p95")
    as (s1 & i1 & -> & Hi1 & Hf1 & Ho1); [lia|].
  destruct (derive_spec (p95Ms (streamLag lat)) 200 500 replay "stream_lag_p95")
    as (s2 & i2 & -> & Hi2 & Hf2 & Ho2); [lia|].
  destruct (derive_spec (p95Ms (inputAck lat)) 250 500 safety "input_ack_latency_p95")
    as (s3 & i3 & -> & Hi3 & Hf3 & Ho3); [lia|].
  cbn [layers overall issues map fst snd severity].
  split_and!.
  - done.
  - apply maxSeverity_spec.
  - rewrite !map_app, Hi1, Hi2, Hi3. clear.
    destruct ((0 <? activeClients) && _), ((streamLagSamples c =? 0) && _), s1, s2, s3;
      vm_compute; solve_Permutation.
  - rewrite <- Hf1. simpl. naive_solver.
  - rewrite <- Hf2. simpl. naive_solver.
  - rewrite <- Hf3. simpl. naive_solver.
  - rewrite <- Ho1. simpl. naive_solver.
  - rewrite <- Ho2. simpl. naive_solver.
  - rewrite <- Ho3. simpl. naive_solver.
Qed.
