(* ===== verification/Failures.v ===== *)
(** * Failure classification ([src/server/bridge-runtime-failures.ts]) *)

From S2P Require Import Prelude JsMap Engine EngineInv.
Local Open Scope Z_scope.

(** ** Data *)

Inductive failure_code : Type :=
| auth_rejected | transport_drop | runtime_session_unavailable | invalid_pane_target
| handler_failed.

Inductive failure_reason : Type :=
| invalid_token | transport_closed | tmux_session_unavailable | unknown_runtime_backend
| invalid_namespaced_pane_id | internal_error.

Record BridgeRuntimeFailure : Type := Failure {
  failure_code_ : failure_code;
  failure_reason_ : failure_reason;
  recoverable : bool;
  failure_message : string
}.

Inductive close_code : Type := close_auth_rejected | close_transport_closed | close_normal.

Record BridgeConnectionCloseFailure : Type := CloseFailure {
  close_code_ : close_code;
  close_reason : string;
  close_recoverable : bool
}.

Inductive fallback_reason : Type :=
| ahead_of_stream | outside_retained_window | empty_resume_window.

(** A thrown value: whether it is an object and an [Error], its string properties
    ([None] when absent or not a string) and [String(error)]. *)
Record thrown : Type := Thrown {
  err_is_object : bool;
  err_is_Error : bool;
  err_message : option string;
  err_stderr : option string;
  err_code : option string;
  err_string : string
}.

(** [new Error(message)]. *)
Definition error_of (message : string) : thrown :=
  Thrown true true (Some message) None None ("Error: " +:+ message).

(** [error instanceof Error ? error.message : String(error)]. *)
Definition error_message (error : thrown) : string :=
  if err_is_Error error then default "" (err_message error) else err_string error.

Definition failure_code_string (c : failure_code) : string :=
  match c with
  | auth_rejected => "auth_rejected"
  | transport_drop => "transport_drop"
  | runtime_session_unavailable => "runtime_session_unavailable"
  | invalid_pane_target => "invalid_pane_target"
  | handler_failed => "handler_failed"
  end.

Definition failure_reason_string (r : failure_reason) : string :=
  match r with
  | invalid_token => "invalid_token"
  | transport_closed => "transport_closed"
  | tmux_session_unavailable => "tmux_session_unavailable"
  | unknown_runtime_backend => "unknown_runtime_backend"
  | invalid_namespaced_pane_id => "invalid_namespaced_pane_id"
  | internal_error => "internal_error"
  end.

Definition close_code_string (c : close_code) : string :=
  match c with
  | close_auth_rejected => "auth_rejected"
  | close_transport_closed => "transport_closed"
  | close_normal => "normal"
  end.

Definition fallback_reason_string (r : fallback_reason) : string :=
  match r with
  | ahead_of_stream => "ahead_of_stream"
  | outside_retained_window => "outside_retained_window"
  | empty_resume_window => "empty_resume_window"
  end.

(** ** Functions *)

Definition includes_any (needles : list string) (s : string) : bool :=
  existsb (fun needle => includes needle s) needles.

Definition isTmuxSessionUnavailable : string -> bool :=
  includes_any ["no server running"; "error connecting to"; "failed to connect to server"].

Definition isTransportDrop : string -> bool :=
  includes_any ["broken pipe"; "connection reset"; "connection closed"; "econnreset";
                "ehostunreach"; "econnrefused"; "etimedout"; "timed out"].

(** [message], [stderr] and [code]. *)
Definition extractErrorDetails (error : thrown) : string * string * string :=
  if negb (err_is_object error) then (err_string error, "", "")
  else
    (match err_message error with
     | Some m => if is_empty m then err_string error else m
     | None => err_string error
     end, default "" (err_stderr error), default "" (err_code error)).

Definition newline : string := String "010" "".

Definition classifyBridgeRuntimeFailure (error : thrown) : BridgeRuntimeFailure :=
  let '(message, stderr, code) := extractErrorDetails error in
  let combined := to_lower (message +:+ newline +:+ stderr +:+ newline +:+ code) in
  if includes_any ["invalid_token"; "auth_required"] combined
  then Failure auth_rejected invalid_token true message
  else if isTmuxSessionUnavailable combined
  then Failure runtime_session_unavailable tmux_session_unavailable true message
  else if isTransportDrop combined
  then Failure transport_drop transport_closed true message
  else if includes "unknown runtime backend" combined
  then Failure invalid_pane_target unknown_runtime_backend false message
  else if includes "must be namespaced" combined
  then Failure invalid_pane_target invalid_namespaced_pane_id false message
  else Failure handler_failed internal_error false message.

Definition or_else (s d : string) : string := if is_empty s then d else s.

Definition classifyBridgeCloseFailure (code : Z) (reason : string) :
    BridgeConnectionCloseFailure :=
  let normalizedReason := to_lower reason in
  if (code =? 1008) && includes_any ["auth"; "token"; "credential"; "permission"] normalizedReason
  then CloseFailure close_auth_rejected (or_else normalizedReason "authentication rejected") false
  else if (1001 <=? code) && (code <=? 1011)
  then CloseFailure close_transport_closed (or_else normalizedReason "transport closed") true
  else if (3000 <=? code) && (code <=? 3999)
  then CloseFailure close_transport_closed (or_else normalizedReason "application close") true
  else CloseFailure close_normal (or_else normalizedReason "normal close") false.

Definition classifyReplaySnapshotFallbackReason (m : BridgeAttachReplayMetadata) :
    fallback_reason :=
  match requestedLastSeq m with
  | None => empty_resume_window
  | Some requested =>
      if latestSeq m <? requested then ahead_of_stream
      else if replayGapDetected m ||
              match oldestHistorySeq m with Some o => requested <? o - 1 | None => false end
      then outside_retained_window
      else empty_resume_window
  end.

(** ** Properties *)

(** Clients learn why a resume fell back to a snapshot.  In every reachable
    state of the engine, when an attach that named its last event [k] gets a
    snapshot, the audited reason is "ahead of the stream" exactly when [k] is
    beyond the stream's last event, "outside the retained window" exactly when
    events are missing, and "empty" exactly when the client was up to date. *)
Theorem fallback_reason_exact (max : Z) (s : sys) (c p : string) (r : nat) (k : Z)
    (m : BridgeAttachReplayMetadata) :
  0 <= max -> reachable max s -> jm_get p (panes (eng s)) = Some r ->
  (attachStart c p (Some (num_of_Z k)) (eng s)).1.1 = Attached m ->
  fallbackToSnapshot m = true ->
  classifyReplaySnapshotFallbackReason m =
    match k ?= streamSeq (watcher_at r (eng s)) with
    | Gt => ahead_of_stream
    | Lt => outside_retained_window
    | Eq => empty_resume_window
    end.
Proof.
  intros Hmax Hreach%inv_reachable Hg Hm Hfb; [|done].
  pose proof (inv_watcher _ _ Hreach r) as Hok. pose proof (wok_seq _ _ _ Hok) as Hseq.
  assert (Hne : log r (published s) <> []).
  { intros He. rewrite He in Hseq. simpl in Hseq. revert Hm. unfold attachStart, getWatcher.
    rewrite Hg. change (Watcher [] "" 0 []) with empty_watcher.
    cbn [set_subscribers streamSeq]. rewrite Hseq. done. }
  rewrite (attach_streamed max s c p r _ Hmax Hreach Hg Hne) in Hm.
  cbn [mbind option_bind] in Hm. rewrite num_to_Z_int in Hm.
  rewrite Hseq. set (l := log r (published s)) in *. set (n := Z.of_nat (length l)) in *.
  case_decide; cbn [fst] in Hm; injection Hm as <-; [done|].
  unfold classifyReplaySnapshotFallbackReason. cbn [requestedLastSeq latestSeq replayGapDetected oldestHistorySeq].
  destruct (Z.compare_spec k n) as [->|Hlt|Hgt].
  - rewrite Z.ltb_irrefl. simpl.
    destruct (head (lastn (Z.to_nat max) l)) as [ev|] eqn:Hh; simpl; [|done].
    assert (Hle : ev_streamSeq ev <= n).
    { assert (Hin : ev ∈ lastn (Z.to_nat max) l).
      { destruct (lastn (Z.to_nat max) l); [done|]. simplify_eq/=. set_solver. }
      apply list_elem_of_lookup in Hin as [i Hi]. pose proof (lookup_lt_Some _ _ _ Hi) as Hlt.
      apply (numbered_drop_lookup _ _ _ _ (wok_numbered _ _ _ Hok)) in Hi.
      rewrite lastn_length in Hlt. unfold n. lia. }
    by rewrite (proj2 (Z.ltb_ge _ _)) by lia.
  - by rewrite (proj2 (Z.ltb_ge _ _)), (proj2 (Z.ltb_lt _ _)) by lia.
  - by rewrite (proj2 (Z.ltb_lt _ _)) by lia.
Qed.

Lemma fallback_reason_exact_witness :
  classifyReplaySnapshotFallbackReason
    (ReplayMetadata "%1" (Some 9) 3 (Some 2) (Some 3) 0 false true false) = ahead_of_stream.
Proof.
  apply (fallback_reason_exact 2 (execs 2 demo_actions init).2 "cat" "%1" 0 9);
    [lia|by exists demo_actions|reflexivity..].
Defined.

(** Failure classification is by severity of meaning: a rejected token wins
    over everything, then a missing tmux server, then a dropped transport; the
    client is told to retry exactly for these three, and the message it gets is
    never empty unless the thrown value prints as nothing. *)
Theorem runtime_failure_priority (error : thrown) :
  let '(message, stderr, code) := extractErrorDetails error in
  let text := to_lower (message +:+ newline +:+ stderr +:+ newline +:+ code) in
  let f := classifyBridgeRuntimeFailure error in
  let auth := includes "invalid_token" text || includes "auth_required" text in
  (failure_code_ f = auth_rejected <-> auth = true) /\
  (failure_code_ f = runtime_session_unavailable <->
     auth = false /\ isTmuxSessionUnavailable text = true) /\
  (failure_code_ f = transport_drop <->
     auth = false /\ isTmuxSessionUnavailable text = false /\ isTransportDrop text = true) /\
  (recoverable f = true <->
     failure_code_ f ∈ [auth_rejected; runtime_session_unavailable; transport_drop]) /\
  (failure_message f = "" -> err_string error = "").
Proof.
  destruct (extractErrorDetails error) as [[message stderr] code] eqn:Hd.
  assert (Hmsg : message = "" -> err_string error = "").
  { unfold extractErrorDetails in Hd. destruct (err_is_object error); simpl in Hd; simplify_eq; [|done].
    destruct (err_message error) as [m|]; [|done]. by destruct m. }
  unfold classifyBridgeRuntimeFailure. rewrite Hd. cbv zeta.
  generalize (to_lower (message +:+ newline +:+ stderr +:+ newline +:+ code)) as text. intros text.
  change (includes_any ["invalid_token"; "auth_required"] text) with
    (includes "invalid_token" text || (includes "auth_required" text || false)).
  rewrite !orb_false_r.
  destruct (includes "invalid_token" text || includes "auth_required" text);
    [|destruct (isTmuxSessionUnavailable text); [|destruct (isTransportDrop text);
      [|destruct (includes "unknown runtime backend" text); [|destruct (includes "must be namespaced" text)]]]];
    simpl; split_and!; try set_solver.
Qed.
