(* ===== verification/Sessions.v ===== *)
(** * Session list ([groupSessionsByName] of [src/server/bridge-server-utils.ts]
    and [src/server/session-list-runtime-metadata.ts])

    Pane rows come from a runtime adapter as records of unknown values. *)

From S2P Require Import Prelude JsMap Engine EngineInv Arbiter.
Local Open Scope Z_scope.

(** ** [groupSessionsByName] *)

Record session : Type := Session {
  sessionName : string;
  paneIds : list string;
  backendId : option string
}.

Definition bucket_name (pane : pane_row) : string := str_or "unknown" (field "sessionName" pane).
Definition bucket_backend (pane : pane_row) : string := str_or "" (field "backendId" pane).
Definition pane_id (pane : pane_row) : string := str_or "" (field "paneId" pane).

(** [`${backendId}:${sessionName}`]. *)
Definition bucketKey (pane : pane_row) : string :=
  (bucket_backend pane +:+ ":" +:+ bucket_name pane).

Definition group_step (grouped : list (string * session)) (pane : pane_row) :
    list (string * session) :=
  if is_empty (pane_id pane) then grouped
  else
    match jm_get (bucketKey pane) grouped with
    | Some b =>
        jm_set (bucketKey pane)
          (Session (sessionName b) (paneIds b ++ [pane_id pane]) (backendId b)) grouped
    | None =>
        jm_set (bucketKey pane)
          (Session (bucket_name pane) [pane_id pane]
             (if is_empty (bucket_backend pane) then None else Some (bucket_backend pane)))
          grouped
    end.

Definition groupSessionsByName (panes : list pane_row) : list session :=
  (foldl group_step [] panes).*2.

(** ** [buildSessionListRuntimeMetadata] *)

Record SessionListRuntimeCapabilities : Type := Capabilities {
  laneOwnership : bool;
  replayOffset_cap : bool;
  inputOwnershipOverride : bool
}.

Record SessionListRuntimePaneMetadata : Type := PaneMetadata {
  pm_paneId : string;
  laneOwnerClientId : option string;
  pm_replayOffset : Z
}.

Record SessionListRuntimeMetadata : Type := RuntimeMetadata {
  rm_generatedAt : Z;
  capabilities : SessionListRuntimeCapabilities;
  rm_panes : list SessionListRuntimePaneMetadata
}.

(** The two snapshots are typed, so their [typeof] guards never reject a row. *)
Definition buildSessionListRuntimeMetadata (now : Z) (panes : list pane_row)
    (laneOwnershipSnapshot : list PaneInputOwnershipSnapshotRow)
    (replayOffsetSnapshot : list BridgeReplayOffsetSnapshotRow)
    (capabilities : SessionListRuntimeCapabilities) : SessionListRuntimeMetadata :=
  let laneOwners :=
    foldl (fun m row => jm_set (row_paneId row) (row_ownerClientId row) m)
      [] laneOwnershipSnapshot in
  let replayOffsets :=
    foldl (fun m row => jm_set (offset_paneId row) (replayOffset row) m)
      [] replayOffsetSnapshot in
  let step := fun (acc : list string * list SessionListRuntimePaneMetadata) pane =>
    let paneId := pane_id pane in
    if is_empty paneId || js_has paneId acc.1 then acc
    else (js_add paneId acc.1,
          acc.2 ++ [PaneMetadata paneId (jm_get paneId laneOwners)
                      (default 0 (jm_get paneId replayOffsets))]) in
  RuntimeMetadata now capabilities (foldl step ([], []) panes).2.

(** ** Lemmas *)

(** The rows that name a pane. *)
Definition shown_panes (panes : list pane_row) : list pane_row :=
  filter (fun pane => is_empty (pane_id pane) = false) panes.

Lemma group_keys panes grouped :
  jm_wf grouped -> jm_wf (foldl group_step grouped panes).
Proof.
  revert grouped. induction panes as [|pane panes IH]; intros grouped Hwf; [done|].
  apply IH. unfold group_step. repeat case_match; auto with jsmap.
Qed.

(** The panes of a bucket, in the order of the rows. *)
Definition bucket_panes (k : string) (panes : list pane_row) : list string :=
  map pane_id (filter (fun pane => bucketKey pane = k) (shown_panes panes)).

Lemma group_bucket panes k :
  match jm_get k (foldl group_step [] panes) with
  | Some b => paneIds b = bucket_panes k panes /\ bucket_panes k panes <> [] /\
      exists pane, head (filter (fun pane => bucketKey pane = k) (shown_panes panes)) = Some pane /\
        sessionName b = bucket_name pane /\
        backendId b = (if is_empty (bucket_backend pane) then None else Some (bucket_backend pane))
  | None => bucket_panes k panes = []
  end.
Proof.
  induction panes as [|pane panes IH] using rev_ind; [done|].
  rewrite foldl_snoc. unfold group_step, bucket_panes, shown_panes in *.
  rewrite filter_app, filter_cons. simpl.
  destruct (is_empty (pane_id pane)) eqn:He; simpl.
  { by rewrite app_nil_r. }
  rewrite filter_app, filter_cons, filter_nil.
  destruct (decide (k = bucketKey pane)) as [->|Hne].
  - rewrite decide_True by done. rewrite map_app. simpl.
    destruct (jm_get (bucketKey pane) (foldl _ [] panes)) as [b|]; rewrite jm_get_set_eq; simpl.
    + destruct IH as (-> & Hnil & p & Hp & Hn & Hb). split_and!; [done| |].
      * intros Hx. by apply app_eq_nil in Hx as [? _].
      * exists p. split; [|done]. destruct (filter _ _); [done|]. exact Hp.
    + apply fmap_nil_inv in IH. rewrite IH. simpl. split_and!; [done|done|]. by exists pane.
  - rewrite decide_False by naive_solver. rewrite app_nil_r.
    destruct (jm_get (bucketKey pane) (foldl _ [] panes)); by rewrite jm_get_set_ne.
Qed.

Lemma default_backend pane :
  default "" (if is_empty (bucket_backend pane) then None else Some (bucket_backend pane)) =
    bucket_backend pane.
Proof. by destruct (bucket_backend pane). Qed.

(** The rows of the metadata, pane by pane. *)
Lemma metadata_rows now panes lanes offs caps :
  NoDup (map row_paneId lanes) -> NoDup (map offset_paneId offs) ->
  rm_panes (buildSessionListRuntimeMetadata now panes lanes offs caps) =
    map (fun p => PaneMetadata p
           (jm_get p (map (fun r => (row_paneId r, row_ownerClientId r)) lanes))
           (default 0 (jm_get p (map (fun r => (offset_paneId r, replayOffset r)) offs))))
      (foldl (fun seen p => js_add p seen) [] (map pane_id (shown_panes panes))).
Proof.
  intros Hl Ho. unfold buildSessionListRuntimeMetadata. simpl.
  rewrite !jm_fill by done. simpl.
  set (row := fun p => PaneMetadata p _ _).
  assert (Hgen : forall panes seen,
    foldl (fun (acc : list string * list SessionListRuntimePaneMetadata) pane =>
             if is_empty (pane_id pane) || js_has (pane_id pane) acc.1 then acc
             else (js_add (pane_id pane) acc.1, acc.2 ++ [row (pane_id pane)]))
      (seen, map row seen) panes =
    (let seen' := foldl (fun seen p => js_add p seen) seen (map pane_id (shown_panes panes)) in
     (seen', map row seen'))).
  { clear. induction panes as [|pane panes IH]; intros seen; [done|].
    unfold shown_panes in *. rewrite filter_cons. simpl.
    destruct (is_empty (pane_id pane)) eqn:He; simpl; [apply IH|].
    unfold js_has, js_add. case_bool_decide as Hin.
    - rewrite IH. cbv zeta. by rewrite (decide_True (P := pane_id pane ∈ seen)).
    - rewrite (decide_False (P := pane_id pane ∈ seen)) by done. rewrite <- IH.
      by rewrite map_app. }
  exact (f_equal snd (Hgen panes [])).
Qed.

(** ** Properties *)

(** Grouping loses and invents nothing: when backend ids hold no colon, there
    is one session per backend and session name that some pane row names, its
    panes are those rows' panes in order, and no two sessions share both. *)
Theorem sessions_partition (panes : list pane_row) :
  Forall (fun pane => index_of ":" (bucket_backend pane) = None) panes ->
  let key := fun s => (default "" (backendId s), sessionName s) in
  NoDup (map key (groupSessionsByName panes)) /\
  (forall s, s ∈ groupSessionsByName panes ->
     paneIds s <> [] /\
     paneIds s = map pane_id
       (filter (fun pane => (bucket_backend pane, bucket_name pane) = key s) (shown_panes panes))) /\
  (forall pane, pane ∈ shown_panes panes ->
     exists s, s ∈ groupSessionsByName panes /\
       key s = (bucket_backend pane, bucket_name pane)).
Proof.
  intros Hcolon key. unfold groupSessionsByName.
  assert (Hwf : jm_wf (foldl group_step [] panes)) by apply group_keys, jm_wf_nil.
  assert (Hshown : forall pane, pane ∈ shown_panes panes -> index_of ":" (bucket_backend pane) = None).
  { intros pane Hin. rewrite Forall_forall in Hcolon. apply Hcolon.
    by apply list_elem_of_filter in Hin as [_ ?]. }
  assert (Hbucket : forall k b, (k, b) ∈ foldl group_step [] panes ->
    paneIds b = bucket_panes k panes /\ bucket_panes k panes <> [] /\
    exists pane, pane ∈ shown_panes panes /\ bucketKey pane = k /\
      key b = (bucket_backend pane, bucket_name pane)).
  { intros k b Hin. apply (jm_In_get _ _ _ Hwf) in Hin. pose proof (group_bucket panes k) as Hg.
    rewrite Hin in Hg. destruct Hg as (Hp & Hne & pane & Hh & Hn & Hb). split_and!; [done..|].
    exists pane. unfold key. rewrite Hn, Hb, default_backend.
    destruct (filter _ _) as [|x l] eqn:Hf; [done|]. injection Hh as ->.
    assert (Hx : pane ∈ filter (fun pane => bucketKey pane = k) (shown_panes panes))
      by (rewrite Hf; set_solver).
    by apply list_elem_of_filter in Hx as [? ?]. }
  split_and!.
  - apply (NoDup_fmap_1 (fun kb => (kb.1 +:+ ":" +:+ kb.2)%string)).
    assert (Heq : map (fun kb => (kb.1 +:+ ":" +:+ kb.2)%string)
      (map key (foldl group_step [] panes).*2) = (foldl group_step [] panes).*1).
    { rewrite !map_map. apply list_eq_Forall2, Forall2_fmap, Forall_Forall2_diag.
      apply Forall_forall. intros [k b] Hin.
      destruct (Hbucket _ _ Hin) as (_ & _ & pane & _ & <- & Hk).
      injection Hk as Hb Hn. simpl. by rewrite Hb, Hn. }
    change (NoDup (map (fun kb => (kb.1 +:+ ":" +:+ kb.2)%string)
      (map key (foldl group_step [] panes).*2))).
    rewrite Heq. exact Hwf.
  - intros s Hs. apply list_elem_of_fmap in Hs as ([k b] & -> & Hin). simpl.
    destruct (Hbucket _ _ Hin) as (Hp & Hne & pane & Hpane & <- & Hk).
    rewrite Hp. split; [done|]. unfold bucket_panes. rewrite Hk. f_equal.
    apply list_filter_iff_in. intros pane' Hpane'. split.
    + intros Heq. by destruct (sep_inj _ _ _ _ _ (Hshown _ Hpane') (Hshown _ Hpane) Heq) as [-> ->].
    + intros Heq. unfold bucketKey. by injection Heq as -> ->.
  - intros pane Hpane. pose proof (group_bucket panes (bucketKey pane)) as Hg.
    destruct (jm_get (bucketKey pane) (foldl group_step [] panes)) as [b|] eqn:Hb.
    + apply jm_get_In in Hb. exists b. split; [apply list_elem_of_fmap; by exists (bucketKey pane, b)|].
      destruct (Hbucket _ _ Hb) as (_ & _ & pane' & Hpane' & Hk & ->).
      destruct (sep_inj _ _ _ _ _ (Hshown _ Hpane') (Hshown _ Hpane) Hk) as [-> ->]. done.
    + unfold bucket_panes in Hg. apply fmap_nil_inv in Hg.
      assert (Hx : pane ∈ filter (fun pane' => bucketKey pane' = bucketKey pane) (shown_panes panes))
        by by apply list_elem_of_filter.
      rewrite Hg in Hx. by apply elem_of_nil in Hx.
Qed.

Lemma sessions_partition_witness :
  let row := fun b s p => [("backendId", JStr b); ("sessionName", JStr s); ("paneId", JStr p)] in
  groupSessionsByName [row "tmux" "dev" "%1"; row "cmux" "dev" "c1"; row "tmux" "dev" "%2"] =
    [Session "dev" ["%1"; "%2"] (Some "tmux"); Session "dev" ["c1"] (Some "cmux")] /\
  NoDup (map (fun s => (default "" (backendId s), sessionName s))
    (groupSessionsByName [row "tmux" "dev" "%1"; row "cmux" "dev" "c1"; row "tmux" "dev" "%2"])).
Proof.
  split; [reflexivity|]. apply sessions_partition. repeat constructor.
Defined.

(** The runtime metadata of [list_sessions] is authoritative: one row per
    distinct listed pane, in order of first appearance, and each row's lane
    owner is the client that holds the pane's input lane at that instant and its
    replay offset the pane's current sequence number (zero when unwatched). *)
Theorem runtime_metadata_authoritative (localeCompare : string -> string -> Z) (max now : Z)
    (rows : list pane_row) (a : PaneInputOwnershipArbiter) (s : sys)
    (caps : SessionListRuntimeCapabilities) :
  arbiter_wf a -> 0 <= max -> reachable max s ->
  rm_panes (buildSessionListRuntimeMetadata now rows (snapshot localeCompare now a).1
              (getReplayOffsetsSnapshot localeCompare (eng s)) caps) =
    map (fun p => PaneMetadata p (holder now a p)
           (match jm_get p (panes (eng s)) with
            | Some r => streamSeq (watcher_at r (eng s))
            | None => 0
            end))
      (foldl (fun seen p => js_add p seen) [] (map pane_id (shown_panes rows))).
Proof.
  intros Hwf Hmax Hreach%inv_reachable; [|done].
  pose proof (inv_panes _ _ Hreach) as Hps.
  assert (Hlanes : map (fun r => (row_paneId r, row_ownerClientId r)) (snapshot localeCompare now a).1
    ≡ₚ map (fun kv => (kv.1, lease_clientId kv.2)) (paneOwners (expireStaleOwners now a))).
  { unfold snapshot. cbn [fst]. rewrite js_sort_perm. by rewrite map_map. }
  assert (Hoffs : map (fun r => (offset_paneId r, replayOffset r)) (getReplayOffsetsSnapshot localeCompare (eng s))
    ≡ₚ omap (fun kv => pair kv.1 <$> (w ← store (eng s) !! kv.2; Some (streamSeq w))) (panes (eng s))).
  { unfold getReplayOffsetsSnapshot. rewrite js_sort_perm.
    clear. induction (panes (eng s)) as [|[p r] ps IH]; [done|]. simpl.
    destruct (store (eng s) !! r); simpl; [by constructor|done]. }
  assert (Hwl : jm_wf (map (fun kv => (kv.1, lease_clientId kv.2)) (paneOwners (expireStaleOwners now a)))).
  { unfold jm_wf. rewrite <- list_fmap_compose. apply (wf_expire now a Hwf). }
  pose proof (jm_wf_omap (fun r => w ← store (eng s) !! r; Some (streamSeq w)) _ Hps) as Hwo.
  assert (Hwl' : jm_wf (map (fun r => (row_paneId r, row_ownerClientId r)) (snapshot localeCompare now a).1))
    by (unfold jm_wf in *; by rewrite Hlanes).
  assert (Hwo' : jm_wf (map (fun r => (offset_paneId r, replayOffset r)) (getReplayOffsetsSnapshot localeCompare (eng s))))
    by (unfold jm_wf in *; by rewrite Hoffs).
  rewrite metadata_rows.
  - apply map_ext. intros p. f_equal.
    + rewrite (jm_get_perm _ _ _ Hwl' Hlanes).
      rewrite <- currentOwner_expire by done. unfold currentOwner. apply legacy_get.
    + rewrite (jm_get_perm _ _ _ Hwo' Hoffs).
      rewrite (jm_get_omap (fun r => w ← store (eng s) !! r; Some (streamSeq w)) p _ Hps).
      destruct (jm_get p (panes (eng s))) as [r|]; simpl; [|done].
      by destruct (store (eng s) !! r).
  - unfold jm_wf in Hwl'. by rewrite <- list_fmap_compose in Hwl'.
  - unfold jm_wf in Hwo'. by rewrite <- list_fmap_compose in Hwo'.
Qed.

Lemma runtime_metadata_authoritative_witness :
  let row := fun p => [("paneId", JStr p)] in
  rm_panes (buildSessionListRuntimeMetadata 60 [row "%2"; row "%1"; row "%2"]
     (snapshot (fun _ _ => 0) 60 (Arbiter_ [("%1", Lease "ann" 90); ("%2", Lease "bob" 50)] 50)).1
     (getReplayOffsetsSnapshot (fun _ _ => 0) (eng (execs 2 demo_actions init).2))
     (Capabilities true true true)) =
  [PaneMetadata "%2" None 0; PaneMetadata "%1" (Some "ann") 3].
Proof.
  cbv zeta. rewrite (runtime_metadata_authoritative (fun _ _ => 0) 2); [reflexivity| |lia|by exists demo_actions].
  apply (bool_decide_unpack _). vm_compute. exact I.
Defined.
