(* ===== verification/ServerUtils.v ===== *)
(** * Server helpers ([sendEnvelope], [tokenEquals], [sendPolicyUpdateEnvelope]
    and [clearClientAttachLag] of [src/server/bridge-server-utils.ts]) *)

From S2P Require Import Prelude JsMap Validation Protocol.
Local Open Scope Z_scope.

(** ** [sendEnvelope] *)

(** The parts of a socket the helper looks at; [send_throws] and [close_] say what
    the calls would do ([None]: the socket has no [close]). *)
Record socket : Type := Socket {
  sock_OPEN : Z;
  sock_CLOSING : option Z;
  sock_CLOSED : option Z;
  readyState : Z;
  send_throws : bool;
  close_throws : option bool
}.

Inductive send_effect : Type :=
| SendCalled
| OnSendFailure
| CloseCalled
| TransportDestroyed.

Definition sendEnvelope (s : socket) (has_callback : bool) : list send_effect :=
  let failure := if has_callback then [OnSendFailure] else [] in
  if negb (readyState s =? sock_OPEN s) then
    if bool_decide (sock_CLOSING s = Some (readyState s))
       || bool_decide (sock_CLOSED s = Some (readyState s))
    then failure else []
  else if negb (send_throws s) then [SendCalled]
  else
    SendCalled :: failure ++
    match close_throws s with
    | None => []
    | Some false => [CloseCalled]
    | Some true => [CloseCalled; TransportDestroyed]
    end.

(** ** [tokenEquals] *)

(** [Buffer.from(s, "utf8")]: bytes, for code units below 256. *)
Fixpoint utf8_bytes (s : string) : list Z :=
  match s with
  | EmptyString => []
  | String c r =>
      let n := Z.of_N (code c) in
      (if n <? 128 then [n] else [192 + n / 64; 128 + n mod 64]) ++ utf8_bytes r
  end.

(** [timingSafeEqual] on buffers of equal length compares every byte. *)
Fixpoint timingSafeEqual (a b : list Z) : bool :=
  match a, b with
  | x :: a, y :: b =>
      let rest := timingSafeEqual a b in (x =? y) && rest
  | _, _ => true
  end.

Definition tokenEquals (expected candidate : string) : bool :=
  let a := utf8_bytes expected in
  let b := utf8_bytes candidate in
  if negb (length a =? length b)%nat then false else timingSafeEqual a b.

(** ** Policy updates and attach-lag records *)

Definition policy_fields (p : InputPolicyState) : list (string * jsval) :=
  [("inputEnabled", JBool (inputEnabled p));
   ("globalInputDisabled", JBool (globalInputDisabled p))].

(** The envelope [sendPolicyUpdateEnvelope] sends. *)
Definition policyUpdateEnvelope (now : Z) (clientInputEnabled globalInputDisabled : bool)
    (requestId : option string) : Envelope :=
  envelope now "policy_update"
    (policy_fields (buildInputPolicyState (PolicyContext globalInputDisabled clientInputEnabled)))
    requestId.

Definition lag_key (clientId paneId : string) : string := (clientId +:+ ":" +:+ paneId).

Definition clearClientAttachLag (pendingAttachLag : list (string * Z)) (clientId : string) :
    list (string * Z) :=
  jm_delete_if (fun key _ => starts_with (clientId +:+ ":") key) pendingAttachLag.

(** ** Lemmas *)

Lemma timingSafeEqual_spec a b :
  length a = length b -> timingSafeEqual a b = true <-> a = b.
Proof.
  revert b. induction a as [|x a IH]; intros [|y b] Hlen; simpl in *; try done.
  rewrite andb_true_iff, Z.eqb_eq, IH by lia. naive_solver.
Qed.

Lemma utf8_bytes_inj a b : utf8_bytes a = utf8_bytes b -> a = b.
Proof.
  revert b. induction a as [|c a IH]; intros [|d b] H; simpl in H; [done| | |].
  - by destruct (Z.of_N (code d) <? 128).
  - by destruct (Z.of_N (code c) <? 128).
  - pose proof (N_ascii_bounded c). pose proof (N_ascii_bounded d).
    assert (Hcode : code c = code d -> utf8_bytes a = utf8_bytes b -> String c a = String d b).
    { intros Hc Hab. f_equal; [|by apply IH].
      by rewrite <- (ascii_N_embedding c), <- (ascii_N_embedding d), Hc. }
    pose proof (Z.div_mod (Z.of_N (code c)) 64). pose proof (Z.div_mod (Z.of_N (code d)) 64).
    destruct (Z.ltb_spec (Z.of_N (code c)) 128), (Z.ltb_spec (Z.of_N (code d)) 128);
      simpl in H; simplify_eq; try (apply Hcode; [lia|done]).
    + exfalso. assert (0 <= Z.of_N (code d) / 64) by (apply Z.div_pos; lia). lia.
    + exfalso. assert (0 <= Z.of_N (code c) / 64) by (apply Z.div_pos; lia). lia.
Qed.

(** ** Properties *)

(** Authentication compares tokens exactly: [tokenEquals] accepts a candidate
    if and only if it is the expected token (for tokens of code units below
    256), and a candidate of another encoded length is refused without a
    byte comparison. *)
Theorem tokenEquals_iff (expected candidate : string) :
  (tokenEquals expected candidate = true <-> candidate = expected) /\
  (length (utf8_bytes expected) <> length (utf8_bytes candidate) ->
   tokenEquals expected candidate = false).
Proof.
  unfold tokenEquals. destruct (Nat.eqb_spec (length (utf8_bytes expected)) (length (utf8_bytes candidate)))
    as [Hlen|Hlen]; simpl.
  - rewrite timingSafeEqual_spec by done. split; [|done]. split; [|by intros ->].
    intros H%utf8_bytes_inj. done.
  - split; [|done]. split; [done|]. by intros ->.
Qed.

(** [clearClientAttachLag] forgets exactly the records of its client: client
    ids hold no colon (they are UUIDs), and pane ids may. *)
Theorem clearClientAttachLag_exact (lag : list (string * Z)) (clientId c p : string) :
  jm_wf lag -> index_of ":" clientId = None -> index_of ":" c = None ->
  jm_get (lag_key c p) (clearClientAttachLag lag clientId) =
    if decide (c = clientId) then None else jm_get (lag_key c p) lag.
Proof.
  intros Hwf Hid Hc. unfold clearClientAttachLag. rewrite jm_get_delete_if by done.
  assert (Hs : starts_with (clientId +:+ ":") (lag_key c p) = bool_decide (c = clientId)).
  { apply eq_true_iff_eq. rewrite starts_with_iff, bool_decide_eq_true. unfold lag_key. split.
    - intros [r Hr]. rewrite <- str_app_assoc in Hr.
      by destruct (sep_inj ":" _ _ _ _ Hc Hid Hr).
    - intros ->. exists p. by rewrite <- str_app_assoc. }
  rewrite Hs. destruct (decide (c = clientId)) as [->|Hne].
  - rewrite bool_decide_true by done. by destruct (jm_get _ lag).
  - rewrite bool_decide_false by done. by destruct (jm_get _ lag).
Qed.

Lemma clearClientAttachLag_exact_witness :
  jm_get (lag_key "b" "tmux:%1") (clearClientAttachLag [("a:%1", 5); ("b:tmux:%1", 6)] "a") = Some 6.
Proof.
  rewrite (clearClientAttachLag_exact _ "a" "b" "tmux:%1"); [reflexivity| |reflexivity|reflexivity].
  apply (bool_decide_unpack _). vm_compute. exact I.
Defined.

(** [sendEnvelope] hands the message to an open socket only, reports a failure
    exactly when the socket is closing, closed or refuses the message, and in
    the last case tears the connection down. *)
Theorem sendEnvelope_spec (s : socket) :
  let out := sendEnvelope s true in
  (SendCalled ∈ out <-> readyState s = sock_OPEN s) /\
  (OnSendFailure ∈ out <->
     (readyState s = sock_OPEN s /\ send_throws s = true) \/
     (readyState s <> sock_OPEN s /\
      (sock_CLOSING s = Some (readyState s) \/ sock_CLOSED s = Some (readyState s)))) /\
  (CloseCalled ∈ out <->
     readyState s = sock_OPEN s /\ send_throws s = true /\ close_throws s <> None).
Proof.
  unfold sendEnvelope. destruct (Z.eqb_spec (readyState s) (sock_OPEN s)) as [Ho|Ho]; simpl.
  - destruct (send_throws s); simpl; [|set_solver].
    destruct (close_throws s) as [[]|]; set_solver.
  - repeat case_bool_decide; set_solver.
Qed.
