(* ===== verification/Server.v ===== *)
(** * Bridge server ([src/server/bridge-server.ts])

    [startBridgeServer] keeps one record per connection and serves messages with
    asynchronous handlers that share the engine, the limiters, the lane arbiter
    and the telemetry.  A handler is a program ([prog]): the code between two
    [await]s runs without interruption, an [await] hands control back and the
    handler resumes later in whatever state the others have left.  [run]
    executes a handler up to its next [await]; [step] is one event of the
    server: a connection, a message, a close, a settled [await], a poll segment.

    [Date.now()] is read once per uninterrupted segment. *)

From S2P Require Import Prelude JsMap Validation Protocol RateLimiter Arbiter.
From S2P Require Import Engine Telemetry Failures Sessions ServerUtils.
Local Open Scope Z_scope.

(** ** State *)

(** The fields of the configuration the server reads. *)
Record ServerConfig : Type := SConfig {
  authToken : option string;
  maxAttachedPanes : Z;
  maxInputBytes : Z;
  maxMessagesPerMinute : Z;
  maxInputsPerMinute : Z;
  inputLaneLeaseMs : option Z;
  cfg_globalInputDisabled : bool;
  allowInputOwnershipOverride : option bool;
  strictProtocolParsing : bool;
  maxHistoryEvents : Z
}.

Record ClientState : Type := Client {
  authenticated : bool;
  cl_inputEnabled : bool;
  attachedPanes : list string
}.

(** [objects] holds every client object ever created, which handlers in flight
    keep using after the connection is gone; [clients] is the map of the live
    ones.  [engine] is the bridge engine with its attach calls in flight. *)
Record server : Type := Server_ {
  objects : gmap string ClientState;
  clients : list string;
  engine : sys;
  arbiter : PaneInputOwnershipArbiter;
  messageLimiter : SlidingWindowRateLimiter;
  inputLimiter : SlidingWindowRateLimiter;
  pendingAttachLag : list (string * Z);
  telemetry : BridgeTelemetryCollector
}.

Definition set_objects o s :=
  Server_ o (clients s) (engine s) (arbiter s) (messageLimiter s) (inputLimiter s)
    (pendingAttachLag s) (telemetry s).
Definition set_clients c s :=
  Server_ (objects s) c (engine s) (arbiter s) (messageLimiter s) (inputLimiter s)
    (pendingAttachLag s) (telemetry s).
Definition set_engine e s :=
  Server_ (objects s) (clients s) e (arbiter s) (messageLimiter s) (inputLimiter s)
    (pendingAttachLag s) (telemetry s).
Definition set_arbiter a s :=
  Server_ (objects s) (clients s) (engine s) a (messageLimiter s) (inputLimiter s)
    (pendingAttachLag s) (telemetry s).
Definition set_messageLimiter l s :=
  Server_ (objects s) (clients s) (engine s) (arbiter s) l (inputLimiter s)
    (pendingAttachLag s) (telemetry s).
Definition set_inputLimiter l s :=
  Server_ (objects s) (clients s) (engine s) (arbiter s) (messageLimiter s) l
    (pendingAttachLag s) (telemetry s).
Definition set_lag l s :=
  Server_ (objects s) (clients s) (engine s) (arbiter s) (messageLimiter s) (inputLimiter s)
    l (telemetry s).
Definition set_telemetry t s :=
  Server_ (objects s) (clients s) (engine s) (arbiter s) (messageLimiter s) (inputLimiter s)
    (pendingAttachLag s) t.

Record AuditEvent : Type := Audit {
  audit_action : string;
  audit_clientId : string;
  audit_details : list (string * jsval)
}.

(** What the outside sees.  [OInput] is a call of [tmux.sendInput], tagged with the
    client whose message caused it. *)
Inductive output : Type :=
| OSend (clientId : string) (message : Envelope)
| OAudit (ts : Z) (event : AuditEvent)
| OInput (clientId paneId data : string).

(** ** Programs *)

Inductive prog (A : Type) : Type :=
| Ret (a : A)
| Raise (e : thrown)
| Get (k : server -> prog A)
| Put (s : server) (k : prog A)
| Emit (o : output) (k : prog A)
| Now (k : Z -> prog A)
| AwaitAudit (event : AuditEvent) (k : prog A)
| AwaitListPanes (k : result thrown (list pane_row) -> prog A)
| AwaitCapture (f : attach_frame) (k : result thrown string -> prog A)
| AwaitSendInput (clientId paneId data : string) (k : option thrown -> prog A).
Arguments Ret {A}.
Arguments Raise {A}.
Arguments Get {A}.
Arguments Put {A}.
Arguments Emit {A}.
Arguments Now {A}.
Arguments AwaitAudit {A}.
Arguments AwaitListPanes {A}.
Arguments AwaitCapture {A}.
Arguments AwaitSendInput {A}.

Fixpoint prog_bind {A B} (f : A -> prog B) (p : prog A) : prog B :=
  match p with
  | Ret a => f a
  | Raise e => Raise e
  | Get k => Get (fun s => prog_bind f (k s))
  | Put s k => Put s (prog_bind f k)
  | Emit o k => Emit o (prog_bind f k)
  | Now k => Now (fun t => prog_bind f (k t))
  | AwaitAudit ev k => AwaitAudit ev (prog_bind f k)
  | AwaitListPanes k => AwaitListPanes (fun x => prog_bind f (k x))
  | AwaitCapture fr k => AwaitCapture fr (fun x => prog_bind f (k x))
  | AwaitSendInput c p d k => AwaitSendInput c p d (fun x => prog_bind f (k x))
  end.

#[export] Instance prog_ret : MRet prog := fun A a => Ret a.
#[export] Instance prog_mbind : MBind prog := fun A B f p => prog_bind f p.

(** [try { p } catch (e) { h(e) }]. *)
Fixpoint catch {A} (p : prog A) (h : thrown -> prog A) : prog A :=
  match p with
  | Ret a => Ret a
  | Raise e => h e
  | Get k => Get (fun s => catch (k s) h)
  | Put s k => Put s (catch k h)
  | Emit o k => Emit o (catch k h)
  | Now k => Now (fun t => catch (k t) h)
  | AwaitAudit ev k => AwaitAudit ev (catch k h)
  | AwaitListPanes k => AwaitListPanes (fun x => catch (k x) h)
  | AwaitCapture fr k => AwaitCapture fr (fun x => catch (k x) h)
  | AwaitSendInput c p d k => AwaitSendInput c p d (fun x => catch (k x) h)
  end.

(** Executes up to the next [await] (or the end).  [audit.write] reaches its sink
    before it waits, and [tmux.sendInput] is called before it is awaited. *)
Fixpoint run {A} (now : Z) (p : prog A) (s : server) : list (server * output) * server * prog A :=
  match p with
  | Get k => run now (k s) s
  | Put s' k => run now k s'
  | Emit o k => let '(out, s', q) := run now k s in ((s, o) :: out, s', q)
  | Now k => run now (k now) s
  | AwaitAudit ev _ => ([(s, OAudit now ev)], s, p)
  | AwaitSendInput c pane d _ => ([(s, OInput c pane d)], s, p)
  | Ret _ | Raise _ | AwaitListPanes _ | AwaitCapture _ _ => ([], s, p)
  end.

(** The outcome of an awaited call. *)
Inductive answer : Type :=
| AnsAudit
| AnsPanes (r : result thrown (list pane_row))
| AnsCapture (r : result thrown string)
| AnsInput (error : option thrown).

(** Settles the [await] a program is blocked at. *)
Definition resume {A} (p : prog A) (a : answer) : option (prog A) :=
  match p, a with
  | AwaitAudit _ k, AnsAudit => Some k
  | AwaitListPanes k, AnsPanes r => Some (k r)
  | AwaitCapture _ k, AnsCapture r => Some (k r)
  | AwaitSendInput _ _ _ k, AnsInput e => Some (k e)
  | _, _ => None
  end.

(** ** Basic commands *)

Definition get : prog server := Get Ret.
Definition put (s : server) : prog unit := Put s (Ret tt).
Definition modify (f : server -> server) : prog unit := s ← get; put (f s).
Definition emit (o : output) : prog unit := Emit o (Ret tt).
Definition date_now : prog Z := Now Ret.

Definition new_client : ClientState := Client false false [].

Definition object (c : string) (s : server) : ClientState := default new_client (objects s !! c).

Definition update_object (c : string) (f : ClientState -> ClientState) (s : server) : server :=
  set_objects (<[c := f (object c s)]> (objects s)) s.

Definition set_authenticated (b : bool) (o : ClientState) : ClientState :=
  Client b (cl_inputEnabled o) (attachedPanes o).
Definition set_inputEnabled (b : bool) (o : ClientState) : ClientState :=
  Client (authenticated o) b (attachedPanes o).
Definition set_attachedPanes (ps : list string) (o : ClientState) : ClientState :=
  Client (authenticated o) (cl_inputEnabled o) ps.

Definition send_envelope (c type : string) (fields : list (string * jsval))
    (requestId : option string) : prog unit :=
  now ← date_now; emit (OSend c (envelope now type fields requestId)).

Definition send_error (c code : string) (fields : list (string * jsval))
    (requestId : option string) : prog unit :=
  send_envelope c "error" (("code", JStr code) :: fields) requestId.

(** [await audit.write(...)] and [void audit.write(...)]. *)
Definition audit_write (c action : string) (details : list (string * jsval)) : prog unit :=
  AwaitAudit (Audit action c details) (Ret tt).

Definition audit_void (c action : string) (details : list (string * jsval)) : prog unit :=
  now ← date_now; emit (OAudit now (Audit action c details)).

Definition opt_int (z : option Z) : jsval := match z with Some z => JInt z | None => JNull end.
Definition opt_str (s : option string) : jsval := match s with Some s => JStr s | None => JNull end.

(** ** JSON of the messages *)

Definition event_fields (ev : BridgePaneEvent) : list (string * jsval) :=
  [("mode", JStr (match ev_mode ev with Snapshot => "snapshot" | Delta => "delta" end));
   ("paneId", JStr (ev_paneId ev)); ("chunk", JStr (ev_chunk ev));
   ("streamSeq", JInt (ev_streamSeq ev))].

Definition session_json (s : session) : jsval :=
  JObj ([("sessionName", JStr (sessionName s)); ("paneIds", JArr (map JStr (paneIds s)))]
        ++ match backendId s with Some b => [("backendId", JStr b)] | None => [] end).

Definition metadata_json (m : SessionListRuntimeMetadata) : jsval :=
  JObj [("source", JStr "host"); ("generatedAt", JInt (rm_generatedAt m));
        ("capabilities", JObj
           [("laneOwnership", JBool (laneOwnership (capabilities m)));
            ("replayOffset", JBool (replayOffset_cap (capabilities m)));
            ("inputOwnershipOverride", JBool (inputOwnershipOverride (capabilities m)))]);
        ("panes", JArr (map (fun r => JObj
           [("paneId", JStr (pm_paneId r)); ("laneOwnerClientId", opt_str (laneOwnerClientId r));
            ("replayOffset", JInt (pm_replayOffset r))]) (rm_panes m)))].

(** ** Engine callbacks *)

Definition onOutput (c : string) (ev : BridgePaneEvent) : prog unit :=
  s ← get;
  if negb (js_has c (clients s)) then mret tt
  else
    let lagKey := lag_key c (ev_paneId ev) in
    (match jm_get lagKey (pendingAttachLag s) with
     | Some lagStart =>
         now ← date_now;
         modify (fun s => set_lag (jm_delete lagKey (pendingAttachLag s))
                            (set_telemetry (recordStreamLag (now - lagStart) (telemetry s)) s))
     | None => mret tt
     end);;
    send_envelope c "output" (event_fields ev) None.

Definition onError (c paneId : string) (error : thrown) : prog unit :=
  s ← get;
  if negb (js_has c (clients s)) then mret tt
  else
    modify (fun s => set_lag (jm_delete (lag_key c paneId) (pendingAttachLag s)) s);;
    send_error c "pane_poll_failed"
      [("paneId", JStr paneId); ("message", JStr (error_message error))] None.

(** The callbacks an engine segment makes, in order. *)
Fixpoint deliver (error : thrown) (effects : list effect) : prog unit :=
  match effects with
  | [] => mret tt
  | Output c ev :: rest => onOutput c ev;; deliver error rest
  | PollError c p :: rest => onError c p error;; deliver error rest
  end.

Definition no_error : thrown := Thrown false false None None None "".

(** ** [engine.attach] *)

(** The position of a call among the attach calls in flight. *)
Definition frame_index (f : attach_frame) (s : server) : option nat :=
  fst <$> list_find (fun f' => f' = f) (attaching (engine s)).

(** One engine action: the engine moves, its callbacks run. *)
Definition engine_exec (max : Z) (a : action) : prog unit :=
  s ← get;
  let '(out, e) := exec max a (engine s) in
  put (set_engine e s);;
  deliver no_error out.

Definition engine_attach (max : Z) (c p : string) (since : option num) :
    prog BridgeAttachReplayMetadata :=
  s ← get;
  let res := (attachStart c p since (eng (engine s))).1.1 in
  engine_exec max (Attach c p since);;
  match res with
  | Attached m => mret m
  | Capturing f =>
      AwaitCapture f (fun ans =>
        s ← get;
        match ans, frame_index f s with
        | Ok snapshot, Some i =>
            let m := (attachCaptured max f snapshot (eng (engine s))).1.1 in
            engine_exec max (Captured i snapshot);; mret m
        | Throw e, Some i => engine_exec max (CaptureFailed i);; Raise e
        | _, None => Raise no_error
        end)
  end.

(** ** Message handling *)

(** [config.authToken ? ... : ...]: null and the empty string are falsy. *)
Definition required_token (cfg : ServerConfig) : option string :=
  t ← authToken cfg; if is_empty t then None else Some t.

Definition laneOverrideAllowed (cfg : ServerConfig) : bool :=
  default true (allowInputOwnershipOverride cfg).

Section Handlers.
(** [JSON.parse], [String.prototype.localeCompare] and SHA-256 in hexadecimal. *)
Variable JSON_parse : string -> option jsval.
Variable localeCompare : string -> string -> Z.
Variable sha256_hex : string -> string.
Variable cfg : ServerConfig.

Definition handle_auth (c : string) (payload : list (string * jsval))
    (requestId : option string) : prog unit :=
  match required_token cfg with
  | None =>
      modify (update_object c (set_authenticated true));;
      audit_write c "auth_ok" [("mode", JStr "open")];;
      send_envelope c "auth_ok" [("mode", JStr "open")] requestId
  | Some expected =>
      let token := default "" (parseNonEmptyString (field "token" payload)) in
      if negb (tokenEquals expected token) then
        audit_write c "auth_fail" [("reason", JStr "invalid_token")];;
        send_envelope c "auth_error"
          [("code", JStr "invalid_token"); ("recoverable", JBool true)] requestId
      else
        modify (update_object c (set_authenticated true));;
        audit_write c "auth_ok" [("mode", JStr "token")];;
        send_envelope c "auth_ok" [("mode", JStr "token")] requestId
  end.

Definition handle_list_sessions (c : string) (requestId : option string)
    (startedAtMs : Z) : prog unit :=
  AwaitListPanes (fun ans =>
    match ans with
    | Throw e => Raise e
    | Ok panes =>
        now ← date_now;
        s ← get;
        let sessions := groupSessionsByName panes in
        let '(lanes, a) := snapshot localeCompare now (arbiter s) in
        put (set_arbiter a s);;
        let runtime :=
          buildSessionListRuntimeMetadata now panes lanes
            (getReplayOffsetsSnapshot localeCompare (eng (engine s)))
            (Capabilities true true (laneOverrideAllowed cfg)) in
        modify (fun s => set_telemetry (recordListLatency (now - startedAtMs) (telemetry s)) s);;
        send_envelope c "session_list"
          [("panes", JArr (map JObj panes)); ("sessions", JArr (map session_json sessions));
           ("runtime", metadata_json runtime)] requestId
    end).

Definition replay_audit (c p : string) (lastSeq : option Z)
    (m : BridgeAttachReplayMetadata) : prog unit :=
  match lastSeq with
  | Some last =>
      if replayUsed m && (0 <? replayedCount m) then
        audit_write c "replay_resume"
          [("paneId", JStr p); ("lastSeq", JInt last); ("replayedCount", JInt (replayedCount m));
           ("replayStartSeq", JInt (last + 1)); ("replayEndSeq", JInt (last + replayedCount m));
           ("latestSeq", JInt (latestSeq m)); ("result", JStr "allowed"); ("reason", JStr "resume")]
      else if fallbackToSnapshot m then
        audit_write c "replay_gap_snapshot_fallback"
          [("paneId", JStr p); ("lastSeq", JInt last); ("streamSeq", JInt (latestSeq m));
           ("latestSeq", JInt (latestSeq m)); ("result", JStr "allowed");
           ("reason", JStr (fallback_reason_string (classifyReplaySnapshotFallbackReason m)))]
      else mret tt
  | None => mret tt
  end.

Definition handle_attach (c : string) (payload : list (string * jsval))
    (requestId : option string) (startedAtMs : Z) : prog unit :=
  match parseNonEmptyString (field "paneId" payload) with
  | None => send_error c "invalid_pane_id" [] requestId
  | Some paneId =>
      s ← get;
      let panes := attachedPanes (object c s) in
      if negb (js_has paneId panes) && (maxAttachedPanes cfg <=? Z.of_nat (length panes)) then
        send_error c "max_attached_panes_exceeded" [] requestId
      else
        let lastSeq := parseOptionalInt (field "lastSeq" payload) in
        put (update_object c (set_attachedPanes (js_add paneId panes)) s);;
        modify (fun s => set_lag (jm_set (lag_key c paneId) startedAtMs (pendingAttachLag s)) s);;
        m ← engine_attach (maxHistoryEvents cfg) c paneId ((fun z => num_of_Z z) <$> lastSeq);
        replay_audit c paneId lastSeq m;;
        audit_write c "attach" [("paneId", JStr paneId); ("lastSeq", opt_int lastSeq)];;
        now ← date_now;
        modify (fun s => set_telemetry (recordAttachLatency (now - startedAtMs) (telemetry s)) s);;
        (match lastSeq with
         | Some _ =>
             modify (fun s =>
               set_telemetry (recordReconnectLatency (now - startedAtMs) (telemetry s)) s)
         | None => mret tt
         end);;
        send_envelope c "ack" [("action", JStr "attach"); ("paneId", JStr paneId)] requestId
  end.

Definition handle_detach (c : string) (payload : list (string * jsval))
    (requestId : option string) : prog unit :=
  match parseNonEmptyString (field "paneId" payload) with
  | None => send_error c "invalid_pane_id" [] requestId
  | Some paneId =>
      modify (update_object c (fun o => set_attachedPanes (js_del paneId (attachedPanes o)) o));;
      now ← date_now;
      s ← get;
      let '(released, a) := releasePaneIfOwnedBy now paneId c (arbiter s) in
      put (set_arbiter a s);;
      engine_exec (maxHistoryEvents cfg) (Detach c paneId);;
      audit_write c "detach" [("paneId", JStr paneId)];;
      (if released : bool then
         audit_write c "lane_owner_released"
           [("paneId", JStr paneId); ("result", JStr "allowed"); ("reason", JStr "detach")]
       else mret tt);;
      send_envelope c "ack" [("action", JStr "detach"); ("paneId", JStr paneId)] requestId
  end.

Definition send_policy_update (c : string) (requestId : option string) : prog unit :=
  s ← get;
  now ← date_now;
  emit (OSend c (policyUpdateEnvelope now (cl_inputEnabled (object c s))
                   (cfg_globalInputDisabled cfg) requestId)).

Definition handle_enable_input (c : string) (requestId : option string) : prog unit :=
  let nextInputEnabled := negb (cfg_globalInputDisabled cfg) in
  modify (update_object c (set_inputEnabled nextInputEnabled));;
  audit_write c "enable_input"
    [("result", JStr (if nextInputEnabled then "allowed" else "denied"));
     ("reason", JStr (if nextInputEnabled then "client_enabled" else "global_input_kill_switch"))];;
  send_policy_update c requestId.

Definition handle_disable_input (c : string) (requestId : option string) : prog unit :=
  modify (update_object c (set_inputEnabled false));;
  audit_write c "disable_input" [("result", JStr "allowed"); ("reason", JStr "client_disabled")];;
  send_policy_update c requestId.

Definition input_details (paneId : option string) (reason data : string) : list (string * jsval) :=
  [("paneId", opt_str paneId); ("result", JStr "denied"); ("reason", JStr reason);
   ("bytes", JInt (utf8_byte_length data));
   ("commandHash", if is_empty data then JNull else JStr (sha256_hex data));
   ("previewPolicy", JStr (if is_empty data then "none" else "sha256_only"))].

Definition handle_input (c : string) (payload : list (string * jsval))
    (requestId : option string) (startedAtMs : Z) : prog unit :=
  let paneId := parseNonEmptyString (field "paneId" payload) in
  let data := str_or "" (field "data" payload) in
  let inputBytes := utf8_byte_length data in
  now ← date_now;
  s ← get;
  let '(inputRate, l) := consume now c (inputLimiter s) in
  put (set_inputLimiter l s);;
  if negb (allowed inputRate) then
    audit_write c "input" (input_details paneId "rate_limited" data);;
    send_error c "input_rate_limited"
      [("retryAfterMs", JInt (retryAfterMs inputRate)); ("limit", JInt (limit inputRate));
       ("windowMs", JInt (decision_windowMs inputRate))] requestId
  else if negb (isInputAllowed (PolicyContext (cfg_globalInputDisabled cfg)
                                  (cl_inputEnabled (object c s)))) then
    audit_write c "input" (input_details paneId "policy_blocked" data);;
    send_error c "input_disabled" [] requestId
  else
    match paneId with
    | None => send_error c "invalid_input" [] requestId
    | Some pane =>
        if is_empty data then send_error c "invalid_input" [] requestId
        else if negb (js_has pane (attachedPanes (object c s))) then
          send_error c "pane_not_attached" [] requestId
        else if maxInputBytes cfg <? inputBytes then
          send_error c "input_too_large"
            [("maxInputBytes", JInt (maxInputBytes cfg)); ("receivedBytes", JInt inputBytes)]
            requestId
        else
          let overrideRequested :=
            bool_decide (parseOptionalBoolean (field "override" payload) = Some true)
            || bool_decide (parseOptionalBoolean (field "takeOwnership" payload) = Some true) in
          s ← get;
          let '(claimResult, a) :=
            claim now pane c overrideRequested (laneOverrideAllowed cfg) (arbiter s) in
          put (set_arbiter a s);;
          match claimResult with
          | ClaimRefused ownerClientId overrideAllowed =>
              audit_write c "input" (input_details (Some pane) "ownership_conflict" data);;
              send_error c "input_lane_conflict"
                [("paneId", JStr pane); ("ownerClientId", JStr ownerClientId);
                 ("overrideAllowed", JBool overrideAllowed); ("recoverable", JBool true)] requestId
          | ClaimOk overridden =>
              AwaitSendInput c pane data (fun error =>
                match error with
                | Some e => Raise e
                | None =>
                    audit_write c "input"
                      [("paneId", JStr pane); ("bytes", JInt inputBytes);
                       ("result", JStr "allowed"); ("reason", JStr "ok");
                       ("commandHash", JStr (sha256_hex data));
                       ("previewPolicy", JStr "sha256_only")];;
                    (if overridden then
                       audit_write c "input_takeover"
                         [("paneId", JStr pane); ("result", JStr "allowed");
                          ("reason", JStr "override"); ("bytes", JInt inputBytes)]
                     else mret tt);;
                    now ← date_now;
                    modify (fun s =>
                      set_telemetry (recordInputAckLatency (now - startedAtMs) (telemetry s)) s);;
                    send_envelope c "ack"
                      [("action", JStr "input"); ("paneId", JStr pane); ("bytes", JInt inputBytes)]
                      requestId
                end)
          end
    end.

Definition handle_disconnect (c : string) (requestId : option string) : prog unit :=
  engine_exec (maxHistoryEvents cfg) (DetachAll c);;
  now ← date_now;
  s ← get;
  let '(releasedPanes, a) := releaseClient now c (arbiter s) in
  put (set_arbiter a s);;
  modify (update_object c (fun o => set_inputEnabled false (set_attachedPanes [] o)));;
  (if 0 <? releasedPanes then
     audit_write c "lane_owner_released"
       [("result", JStr "allowed"); ("reason", JStr "disconnect");
        ("releasedPanes", JInt releasedPanes)]
   else mret tt);;
  audit_write c "disconnect" [];;
  send_envelope c "ack" [("action", JStr "disconnect")] requestId.

Definition handleClientMessage (c type : string) (payload : list (string * jsval))
    (requestId : option string) (startedAtMs : Z) : prog unit :=
  s ← get;
  if negb (authenticated (object c s)) && negb (String.eqb type "auth") then
    send_error c "auth_required" [("recoverable", JBool true)] requestId
  else if String.eqb type "auth" then handle_auth c payload requestId
  else if String.eqb type "list_sessions" then handle_list_sessions c requestId startedAtMs
  else if String.eqb type "attach" then handle_attach c payload requestId startedAtMs
  else if String.eqb type "detach" then handle_detach c payload requestId
  else if String.eqb type "enable_input" then handle_enable_input c requestId
  else if String.eqb type "disable_input" then handle_disable_input c requestId
  else if String.eqb type "input" then handle_input c payload requestId startedAtMs
  else if String.eqb type "heartbeat" then
    send_envelope c "heartbeat_ack" [("clientId", JStr c)] requestId
  else if String.eqb type "disconnect" then handle_disconnect c requestId
  else send_error c "unknown_type" [("type", JStr type)] requestId.

(** [parseIncomingClientMessage]. *)
Definition parseIncomingClientMessage (now : Z) (raw : string) : ParseMessageResult :=
  parseMessage JSON_parse now raw (strictProtocolParsing cfg).

(** The [message] listener of a connection. *)
Definition onMessage (c raw : string) : prog unit :=
  requestStartedAtMs ← date_now;
  s ← get;
  let '(messageRate, l) := consume requestStartedAtMs c (messageLimiter s) in
  put (set_messageLimiter l s);;
  if negb (allowed messageRate) then
    send_error c "rate_limited"
      [("retryAfterMs", JInt (retryAfterMs messageRate)); ("limit", JInt (limit messageRate));
       ("windowMs", JInt (decision_windowMs messageRate))] None
  else
    match parseIncomingClientMessage requestStartedAtMs raw with
    | Throw code => send_error c code [] None
    | Ok m =>
        catch
          (handleClientMessage c (env_type m) (env_payload m) (env_requestId m)
             requestStartedAtMs)
          (fun error =>
             let f := classifyBridgeRuntimeFailure error in
             let code := failure_code_string (failure_code_ f) in
             let reason := failure_reason_string (failure_reason_ f) in
             audit_write c "runtime_failure"
               [("code", JStr code); ("reason", JStr reason);
                ("recoverable", JBool (recoverable f))];;
             send_error c code
               [("reason", JStr reason); ("recoverable", JBool (recoverable f));
                ("message", JStr (failure_message f))] (env_requestId m))
    end.

(** The [connection] listener; [c] is the fresh [randomUUID()]. *)
Definition onConnection (c : string) : prog unit :=
  let requiresAuth := bool_decide (required_token cfg <> None) in
  connectStartedAtMs ← date_now;
  modify (fun s => set_clients (js_add c (clients s))
    (set_objects (<[c := Client (negb requiresAuth) false []]> (objects s)) s));;
  audit_void c "connect"
    [("result", JStr "allowed"); ("reason", JStr "socket_open");
     ("requiresAuth", JBool requiresAuth); ("inputEnabled", JBool false);
     ("globalInputDisabled", JBool (cfg_globalInputDisabled cfg))];;
  send_envelope c "hello"
    ([("clientId", JStr c); ("requiresAuth", JBool requiresAuth)]
     ++ policy_fields (buildInputPolicyState (PolicyContext (cfg_globalInputDisabled cfg) false))
     ++ [("maxInputBytes", JInt (maxInputBytes cfg));
         ("maxAttachedPanes", JInt (maxAttachedPanes cfg))]) None;;
  now ← date_now;
  modify (fun s => set_telemetry (recordConnectLatency (now - connectStartedAtMs) (telemetry s)) s).

(** The [close] listener of a connection. *)
Definition onClose (c : string) (code : Z) (closeReason : string) : prog unit :=
  engine_exec (maxHistoryEvents cfg) (DetachAll c);;
  modify (fun s => set_messageLimiter (clear c (messageLimiter s)) s);;
  modify (fun s => set_inputLimiter (clear c (inputLimiter s)) s);;
  now ← date_now;
  s ← get;
  let '(releasedPanes, a) := releaseClient now c (arbiter s) in
  put (set_arbiter a s);;
  (if 0 <? releasedPanes then
     audit_void c "lane_owner_released"
       [("result", JStr "allowed"); ("reason", JStr "socket_close");
        ("releasedPanes", JInt releasedPanes)]
   else mret tt);;
  let closeFailure := classifyBridgeCloseFailure code closeReason in
  audit_void c "transport_drop"
    [("code", JInt code); ("reason", JStr (or_else closeReason "socket_closed"));
     ("closeFailureCode", JStr (close_code_string (close_code_ closeFailure)));
     ("closeFailureRecoverable", JBool (close_recoverable closeFailure));
     ("closeFailureReason", JStr (Failures.close_reason closeFailure));
     ("releasedPanes", JInt releasedPanes)];;
  modify (fun s => set_telemetry (recordConnectionClosed (telemetry s)) s);;
  modify (fun s => set_lag (clearClientAttachLag (pendingAttachLag s) c) s);;
  modify (fun s => set_clients (js_del c (clients s)) s).

(** One poll segment of the engine. *)
Definition onPollTick : prog unit := engine_exec (maxHistoryEvents cfg) PollTick.

Definition onPollSettled (r : result thrown string) : prog unit :=
  match r with
  | Ok output => engine_exec (maxHistoryEvents cfg) (PollCaptured output)
  | Throw error =>
      s ← get;
      let '(out, e) := exec (maxHistoryEvents cfg) PollFailed (engine s) in
      put (set_engine e s);;
      deliver error out
  end.

(** ** The server as a transition system *)

Inductive event : Type :=
| EConnect (c : string)
| EMessage (c raw : string)
| EClose (c : string) (code : Z) (reason : string)
| EResume (i : nat) (a : answer)
| EPollTick
| EPollSettled (r : result thrown string).

(** The server and the handlers blocked at an [await]. *)
Record system : Type := System {
  srv : server;
  threads : list (prog unit)
}.

Definition init_server : server :=
  Server_ ∅ [] init (newArbiter (inputLaneLeaseMs cfg))
    (newLimiter (maxMessagesPerMinute cfg) 60000)
    (newLimiter (maxInputsPerMinute cfg) 60000) [] (newCollector None).

Definition init_system : system := System init_server [].

(** Whether a program is waiting. *)
Definition blocked {A} (p : prog A) : bool :=
  match p with
  | AwaitAudit _ _ | AwaitListPanes _ | AwaitCapture _ _ | AwaitSendInput _ _ _ _ => true
  | _ => false
  end.

(** Runs a segment; a handler that waits joins the threads. *)
Definition start (now : Z) (p : prog unit) (ths : list (prog unit)) (s : server) :
    list (server * output) * system :=
  let '(out, s', q) := run now p s in
  (out, System s' (if blocked q then ths ++ [q] else ths)).

(** [randomUUID] never repeats an id, and a socket raises events only between
    its connection and its close: other events do not occur. *)
Definition step (now : Z) (ev : event) (y : system) : list (server * output) * system :=
  let s := srv y in
  match ev with
  | EConnect c =>
      match objects s !! c with
      | None => start now (onConnection c) (threads y) s
      | Some _ => ([], y)
      end
  | EMessage c raw =>
      if js_has c (clients s) then start now (onMessage c raw) (threads y) s else ([], y)
  | EClose c code reason =>
      if js_has c (clients s) then start now (onClose c code reason) (threads y) s else ([], y)
  | EResume i a =>
      match (th ← threads y !! i; resume th a) with
      | Some p => start now p (delete i (threads y)) s
      | None => ([], y)
      end
  | EPollTick => start now onPollTick (threads y) s
  | EPollSettled r => start now (onPollSettled r) (threads y) s
  end.

Fixpoint steps (evs : list (Z * event)) (y : system) : list (server * output) * system :=
  match evs with
  | [] => ([], y)
  | (now, ev) :: evs =>
      let '(out, y) := step now ev y in
      let '(out', y) := steps evs y in
      (out ++ out', y)
  end.
End Handlers.
