(* ===== verification/ServerInv.v ===== *)
(** * Bridge server: safety of every interleaving

    [wp] is a weakest precondition for handlers: an assertion about the state in
    which a segment starts that makes the segment keep the invariant whenever it
    hands control back, resume correctly from any state of the invariant, and
    call [tmux.sendInput] only when [input_ok] holds and send terminal text only
    when [text_ok] does.  [server_ok] is the invariant; it is proved for every
    sequence of events, given who asked for which pane in them. *)

From S2P Require Import Prelude JsMap Validation Protocol RateLimiter Arbiter.
From S2P Require Import Engine EngineInv Telemetry Failures Sessions ServerUtils.
From S2P Require Import Server.
Local Open Scope Z_scope.

(** ** The invariant *)

Section Inv.
Variable cfg : ServerConfig.
(** [asked c p]: client [c] asked, in some message, to attach pane [p]. *)
Variable asked : string -> string -> Prop.

(** The clients that may be shown a pane. *)
Definition entitled (s : server) (c p : string) : Prop :=
  authenticated (object c s) = true /\
  asked c p.

(** A client record: never more panes than allowed, no input under the kill
    switch, and nothing at all before authentication. *)
Record client_ok (o : ClientState) : Prop := {
  co_nodup : NoDup (attachedPanes o);
  co_max : Z.of_nat (length (attachedPanes o)) <= Z.max 0 (maxAttachedPanes cfg);
  co_kill : cfg_globalInputDisabled cfg = true -> cl_inputEnabled o = false;
  co_auth : authenticated o = false -> cl_inputEnabled o = false /\ attachedPanes o = []
}.

Record server_ok (s : server) : Prop := {
  so_objects : forall c, client_ok (object c s);
  so_live : forall c, c ∈ clients s -> is_Some (objects s !! c);
  so_clients : NoDup (clients s);
  so_arbiter : arbiter_wf (arbiter s);
  so_lanes : forall p l, jm_get p (paneOwners (arbiter s)) = Some l ->
    lease_clientId l ∈ clients s /\ p ∈ attachedPanes (object (lease_clientId l) s);
  so_engine : reachable (maxHistoryEvents cfg) (engine s);
  so_subscribers : forall p c, c ∈ pane_subscribers p (eng (engine s)) ->
    c ∈ clients s /\ p ∈ attachedPanes (object c s);
  so_heard : heard_ok (entitled s) (engine s)
}.

(** What must hold when [tmux.sendInput(p, d)] is called for [c]. *)
Record input_ok (s : server) (c p d : string) : Prop := {
  io_live : c ∈ clients s;
  io_auth : authenticated (object c s) = true;
  io_enabled : cl_inputEnabled (object c s) = true;
  io_kill : cfg_globalInputDisabled cfg = false;
  io_attached : p ∈ attachedPanes (object c s);
  io_data : d <> "";
  io_size : utf8_byte_length d <= maxInputBytes cfg;
  io_lane : currentOwner p (arbiter s) = Some c
}.

(** What must hold when a message with terminal text is sent to [c]. *)
Definition text_ok (s : server) (c : string) (m : Envelope) : Prop :=
  env_type m = "output" ->
  c ∈ clients s /\
  exists ev, env_payload m = event_fields ev /\ entitled s c (ev_paneId ev).

Definition output_ok (s : server) (o : output) : Prop :=
  match o with
  | OInput c p d => input_ok s c p d
  | OSend c m => text_ok s c m
  | _ => True
  end.

(** ** Weakest preconditions *)

Fixpoint wp {A} (Q : A -> server -> Prop) (E : thrown -> server -> Prop) (p : prog A)
    (s : server) : Prop :=
  match p with
  | Ret a => Q a s
  | Raise e => E e s
  | Get k => wp Q E (k s) s
  | Put s' k => wp Q E k s'
  | Emit o k => output_ok s o /\ wp Q E k s
  | Now k => forall t, wp Q E (k t) s
  | AwaitAudit _ k => server_ok s /\ forall s', server_ok s' -> wp Q E k s'
  | AwaitListPanes k => server_ok s /\ forall x s', server_ok s' -> wp Q E (k x) s'
  | AwaitCapture _ k => server_ok s /\ forall x s', server_ok s' -> wp Q E (k x) s'
  | AwaitSendInput c p d k =>
      input_ok s c p d /\ server_ok s /\ forall x s', server_ok s' -> wp Q E (k x) s'
  end.

Lemma wp_mono {A} (Q Q' : A -> server -> Prop) (E E' : thrown -> server -> Prop) p s :
  (forall a s', Q a s' -> Q' a s') -> (forall e s', E e s' -> E' e s') ->
  wp Q E p s -> wp Q' E' p s.
Proof.
  intros HQ HE. revert s. induction p; simpl; intros st; naive_solver.
Qed.

Lemma wp_bind {A B} (Q : B -> server -> Prop) E (p : prog A) (f : A -> prog B) s :
  wp (fun a => wp Q E (f a)) E p s -> wp Q E (p ≫= f) s.
Proof. unfold mbind, prog_mbind. revert s. induction p; simpl; intros st; naive_solver. Qed.

Lemma wp_catch {A} (Q : A -> server -> Prop) E (p : prog A) (h : thrown -> prog A) s :
  wp Q (fun e => wp Q E (h e)) p s -> wp Q E (catch p h) s.
Proof. revert s. induction p; simpl; intros st; naive_solver. Qed.

(** The waiting programs the invariant carries. *)
Definition thread_ok (p : prog unit) : Prop :=
  forall s a q, server_ok s -> resume p a = Some q ->
    wp (fun _ => server_ok) (fun _ => server_ok) q s.

Lemma wp_run now p s :
  wp (fun _ => server_ok) (fun _ => server_ok) p s ->
  let '(out, s', q) := run now p s in
  Forall (fun so => output_ok so.1 so.2) out /\ server_ok s' /\ thread_ok q.
Proof.
  revert s. induction p as [a|e|k IH|s' k IH|o k IH|k IH|ev k IH|k IH|f k IH|c p d k IH];
    simpl; intros s Hwp.
  - split_and!; [constructor|done|by intros ? ? ?].
  - split_and!; [constructor|done|by intros ? ? ?].
  - by apply IH.
  - by apply IH.
  - destruct Hwp as [Ho Hwp]. specialize (IH _ Hwp). destruct (run now k s) as [[out s'] q].
    destruct IH as (? & ? & ?). split_and!; [by constructor|done..].
  - by apply IH.
  - destruct Hwp as [Hs Hk]. split_and!; [by repeat constructor|done|].
    intros s' [] q Hs' [= <-]. auto.
  - destruct Hwp as [Hs Hk]. split_and!; [constructor|done|].
    intros s' [] q Hs' [= <-]. auto.
  - destruct Hwp as [Hs Hk]. split_and!; [constructor|done|].
    intros s' [] q Hs' [= <-]. auto.
  - destruct Hwp as (Hi & Hs & Hk). split_and!; [by apply Forall_singleton|done|].
    intros s' [] q Hs' [= <-]. auto.
Qed.

(** *** Rules for the commands *)

Implicit Types (Q : unit -> server -> Prop) (E : thrown -> server -> Prop).

Lemma wp_get {B} (Q : B -> server -> Prop) E (f : server -> prog B) s :
  wp Q E (f s) s -> wp Q E (get ≫= f) s.
Proof. done. Qed.

Lemma wp_now {B} (Q : B -> server -> Prop) E (f : Z -> prog B) s :
  (forall t, wp Q E (f t) s) -> wp Q E (date_now ≫= f) s.
Proof. done. Qed.

Lemma wp_put {B} (Q : B -> server -> Prop) E (f : unit -> prog B) s s' :
  wp Q E (f tt) s' -> wp Q E (put s' ≫= f) s.
Proof. done. Qed.

Lemma wp_modify {B} (Q : B -> server -> Prop) E (f : unit -> prog B) g s :
  wp Q E (f tt) (g s) -> wp Q E (modify g ≫= f) s.
Proof. done. Qed.

Lemma wp_send Q E c ty fs r s :
  Q tt s -> ty <> "output" -> wp Q E (send_envelope c ty fs r) s.
Proof. intros HQ Hty. simpl. by split. Qed.

Lemma wp_error Q E c code fs r s : Q tt s -> wp Q E (send_error c code fs r) s.
Proof. intros HQ. by apply wp_send. Qed.

Lemma wp_audit Q E c a d s :
  server_ok s -> (forall s', server_ok s' -> Q tt s') -> wp Q E (audit_write c a d) s.
Proof. done. Qed.

Lemma wp_audit_void Q E c a d s : Q tt s -> wp Q E (audit_void c a d) s.
Proof. intros HQ. simpl. by split. Qed.

Lemma wp_ret Q E s : Q tt s -> wp Q E (mret tt) s.
Proof. done. Qed.

(** The parts of the state the invariant speaks about. *)
Definition core (s : server) :=
  (objects s, clients s, engine s, arbiter s).

Lemma server_ok_core s s' : core s' = core s -> server_ok s -> server_ok s'.
Proof.
  intros [= Ho Hc He Ha] [H1 H2 H3 H4 H5 H6 H7 H8].
  split; unfold entitled, object in *; rewrite ?Ho, ?Hc, ?He, ?Ha; done.
Qed.

Lemma entitled_core s s' : core s' = core s -> forall c p, entitled s c p -> entitled s' c p.
Proof. intros [= Ho _ _ _] c p. unfold entitled, object. by rewrite Ho. Qed.

Lemma effect_asked_mono (P P' : string -> string -> Prop) o :
  (forall c p, P c p -> P' c p) -> effect_asked P o -> effect_asked P' o.
Proof. intros H. destruct o; simpl; apply H. Qed.

Lemma wp_deliver Q E err out s :
  Forall (effect_asked (entitled s)) out ->
  (forall s', core s' = core s -> Q tt s') -> wp Q E (deliver err out) s.
Proof.
  assert (Hstep : forall (p : prog unit) (rest : prog unit) s0,
    (forall s1, core s1 = core s0 -> wp Q E rest s1) ->
    (forall Q', (forall s1, core s1 = core s0 -> Q' tt s1) -> wp Q' E p s0) ->
    wp Q E (p;; rest) s0).
  { intros p rest s0 Hrest Hp. apply wp_bind, Hp. done. }
  revert s. induction out as [|o out IH]; intros s Hout HQ; [by apply HQ|].
  apply Forall_cons in Hout as [Ho Hout].
  assert (Hrest : forall s1, core s1 = core s -> wp Q E (deliver err out) s1).
  { intros s1 Hs1. apply IH; [|intros s2 Hs2; apply HQ; congruence].
    eapply Forall_impl; [exact Hout|]. intros o'. by apply effect_asked_mono, entitled_core. }
  destruct o as [c ev|c p]; (apply Hstep; [exact Hrest|]); intros Q' HQ'.
  - unfold onOutput. apply wp_get. destruct (js_has c (clients s)) eqn:Hc; [|by apply HQ'].
    cbn [negb]. apply js_has_spec in Hc.
    destruct (jm_get _ _); simpl; intros; (split; [intros _; by eauto|by apply HQ']).
  - unfold onError. apply wp_get. destruct (js_has c (clients s)); [|by apply HQ'].
    simpl. intros t. split; [done|]. by apply HQ'.
Qed.

Lemma wp_engine_exec Q E max a s :
  Forall (effect_asked (entitled s)) (exec max a (engine s)).1 ->
  (forall s', core s' = core (set_engine (exec max a (engine s)).2 s) -> Q tt s') ->
  wp Q E (engine_exec max a) s.
Proof.
  intros Hout HQ. unfold engine_exec. apply wp_get.
  destruct (exec max a (engine s)) as [out e]. by apply wp_put, wp_deliver.
Qed.

(** ** Steps that preserve the invariant *)

Variable Hmax : 0 <= maxHistoryEvents cfg.

Lemma reachable_exec max a e : reachable max e -> reachable max (exec max a e).2.
Proof. intros [acts <-]. exists (acts ++ [a]). by rewrite execs_app, execs_cons. Qed.

Lemma so_inv s : server_ok s -> inv (maxHistoryEvents cfg) (engine s).
Proof. intros Hs. apply inv_reachable; [done|]. apply (so_engine _ Hs). Qed.

Lemma object_update c c' f s :
  object c' (update_object c f s) = if decide (c' = c) then f (object c s) else object c' s.
Proof.
  unfold object, update_object. simpl. case_decide as Hc.
  - subst. by rewrite lookup_insert_eq.
  - by rewrite lookup_insert_ne.
Qed.

(** What an action of the engine that subscribes nobody does to the hearers. *)
Definition subscribes_nobody (a : action) : bool :=
  match a with Attach _ _ _ => false | _ => true end.

Lemma so_heard_exec a s :
  server_ok s -> subscribes_nobody a = true ->
  heard_ok (entitled s) (exec (maxHistoryEvents cfg) a (engine s)).2 /\
  Forall (effect_asked (entitled s)) (exec (maxHistoryEvents cfg) a (engine s)).1.
Proof.
  intros Hs Ha. apply heard_exec; [done|by apply so_inv|by apply so_heard|].
  by intros c p since ->.
Qed.

(** A live client's record changes, and with it the lanes and subscriptions that
    depend on it. *)
Lemma server_ok_update s s' c o :
  server_ok s -> c ∈ clients s -> client_ok o ->
  (authenticated (object c s) = true -> authenticated o = true) ->
  objects s' = <[c := o]> (objects s) -> clients s' = clients s ->
  arbiter_wf (arbiter s') -> reachable (maxHistoryEvents cfg) (engine s') ->
  heard_ok (entitled s) (engine s') ->
  (forall p l, jm_get p (paneOwners (arbiter s')) = Some l ->
     if decide (lease_clientId l = c) then p ∈ attachedPanes o
     else exists l', jm_get p (paneOwners (arbiter s)) = Some l' /\
                     lease_clientId l' = lease_clientId l) ->
  (forall p c', c' ∈ pane_subscribers p (eng (engine s')) ->
     if decide (c' = c) then p ∈ attachedPanes o
     else c' ∈ pane_subscribers p (eng (engine s))) ->
  server_ok s'.
Proof.
  intros Hs Hc Ho Hauth Hobj Hcl Hwf Hreach Hheard Hlanes Hsubs.
  assert (Hobject : forall c', object c' s' = if decide (c' = c) then o else object c' s).
  { intros c'. unfold object. rewrite Hobj. case_decide as Hd.
    - subst. by rewrite lookup_insert_eq.
    - by rewrite lookup_insert_ne. }
  split; rewrite ?Hcl; try done.
  - intros c'. rewrite Hobject. case_decide; [done|apply (so_objects _ Hs)].
  - intros c' Hc'. rewrite Hobj. destruct (decide (c' = c)) as [->|].
    + rewrite lookup_insert_eq. by eexists.
    + rewrite lookup_insert_ne by done. by apply (so_live _ Hs).
  - apply (so_clients _ Hs).
  - intros p l Hl. specialize (Hlanes p l Hl). rewrite Hobject. case_decide as Hd.
    + by rewrite Hd.
    + destruct Hlanes as (l' & Hl' & <-). by apply (so_lanes _ Hs).
  - intros p c' Hin. specialize (Hsubs p c' Hin). rewrite Hobject. case_decide as Hd.
    + by subst.
    + by apply (so_subscribers _ Hs).
  - revert Hheard. apply heard_mono. intros c' p [Ha Hp]. split; [|done].
    rewrite Hobject. case_decide; [subst; by apply Hauth|done].
Qed.

(** The engine moves by an action that subscribes nobody. *)

Lemma subscribers_after_shrink a p before after :
  subscribes_nobody a = true -> subscribers_after a p before after -> after ⊆ before.
Proof.
  destruct a; simpl; intros Ha H; try done; subst; try done; try case_decide; try done;
    intros x [_ Hx]%elem_of_js_del; exact Hx.
Qed.

Lemma server_ok_engine a s :
  subscribes_nobody a = true -> server_ok s ->
  server_ok (set_engine (exec (maxHistoryEvents cfg) a (engine s)).2 s).
Proof.
  intros Ha Hs. pose proof (so_inv _ Hs) as Hi.
  pose proof (so_heard_exec a s Hs Ha) as [Hh _].
  destruct Hs as [H1 H2 H3 H4 H5 H6 H7 H8]. split; try done.
  - by apply reachable_exec.
  - intros p c Hin. apply H7.
    eapply subscribers_after_shrink; [exact Ha|by apply subscribers_exec|exact Hin].
Qed.

(** The arbiter moves by an operation that grants nothing. *)
Lemma server_ok_arbiter a s :
  server_ok s -> arbiter_wf a ->
  (forall p l, jm_get p (paneOwners a) = Some l -> jm_get p (paneOwners (arbiter s)) = Some l) ->
  server_ok (set_arbiter a s).
Proof.
  intros [H1 H2 H3 H4 H5 H6 H7 H8] Hwf Ha. split; try done.
  intros p l Hl. by apply H5, Ha.
Qed.

Lemma get_expire_Some now a p l :
  arbiter_wf a -> jm_get p (paneOwners (expireStaleOwners now a)) = Some l ->
  jm_get p (paneOwners a) = Some l.
Proof.
  intros Hwf. rewrite get_expire by done. unfold live_lease.
  destruct (jm_get p (paneOwners a)); simpl; [|done]. by case_match.
Qed.

Lemma release_pane_get now p c a p' l :
  arbiter_wf a ->
  jm_get p' (paneOwners (releasePaneIfOwnedBy now p c a).2) = Some l ->
  jm_get p' (paneOwners a) = Some l /\ (lease_clientId l = c -> p' <> p).
Proof.
  intros Hwf. unfold releasePaneIfOwnedBy. case_bool_decide as Ho; cbn [snd paneOwners].
  - rewrite jm_get_delete. case_decide; [done|].
    intros Hl%get_expire_Some; [|done]. done.
  - intros Hl. split; [by eapply get_expire_Some|]. intros Hc ->. apply Ho.
    unfold currentOwner. rewrite Hl. simpl. by f_equal.
Qed.

Lemma release_client_get now c a p l :
  arbiter_wf a ->
  jm_get p (paneOwners (releaseClient now c a).2) = Some l ->
  jm_get p (paneOwners a) = Some l /\ lease_clientId l <> c.
Proof.
  intros Hwf. unfold releaseClient. cbn [snd paneOwners].
  rewrite jm_get_delete_if by by apply wf_expire.
  intros (l' & Hl' & Hif)%bind_Some. destruct (String.eqb_spec (lease_clientId l') c); [done|].
  injection Hif as <-. split; [by eapply get_expire_Some|done].
Qed.

Lemma claim_get now p c r al a p' l :
  arbiter_wf a ->
  jm_get p' (paneOwners (claim now p c r al a).2) = Some l ->
  jm_get p' (paneOwners a) = Some l \/ (p' = p /\ lease_clientId l = c).
Proof.
  intros Hwf. unfold claim.
  assert (Hset : jm_get p' (paneOwners (setOwner now p c (expireStaleOwners now a))) = Some l ->
    jm_get p' (paneOwners a) = Some l \/ (p' = p /\ lease_clientId l = c)).
  { unfold setOwner. cbn [paneOwners]. rewrite jm_get_set. case_decide.
    - intros [= <-]. by right.
    - intros Hl%get_expire_Some; [by left|done]. }
  repeat case_match; cbn [snd]; [exact Hset|exact Hset|].
  intros Hl%get_expire_Some; [by left|done].
Qed.

(** ** Every handler is safe *)

Abbreviation prog_ok := (wp (fun _ => server_ok) (fun _ => server_ok)).

Lemma core_set_engine e s s' :
  core s' = core s -> core (set_engine e s') = core (set_engine e s).
Proof. intros [= Ho Hc He Ha]. unfold core. simpl. by rewrite Ho, Hc, Ha. Qed.

Lemma wp_seq (Q : unit -> server -> Prop) E (p q : prog unit) s :
  wp (fun _ => wp Q E q) E p s -> wp Q E (p;; q) s.
Proof. intros Hp. apply wp_bind. exact Hp. Qed.

(** A command that keeps the invariant, then the rest. *)
Lemma wp_seq_ok (Q : unit -> server -> Prop) E (p q : prog unit) s :
  wp (fun _ => server_ok) E p s -> (forall s', server_ok s' -> wp Q E q s') ->
  wp Q E (p;; q) s.
Proof. intros Hp Hq. apply wp_seq. eapply wp_mono; [| |exact Hp]; naive_solver. Qed.

Lemma server_ok_telemetry t s : server_ok s -> server_ok (set_telemetry t s).
Proof. by apply server_ok_core. Qed.

Lemma server_ok_lag l s : server_ok s -> server_ok (set_lag l s).
Proof. by apply server_ok_core. Qed.

Lemma wp_engine_quiet (Q : unit -> server -> Prop) E a s :
  subscribes_nobody a = true -> server_ok s -> (forall s', server_ok s' -> Q tt s') ->
  wp Q E (engine_exec (maxHistoryEvents cfg) a) s.
Proof.
  intros Ha Hs HQ. apply wp_engine_exec; [by apply so_heard_exec|]. intros s' Hs'. apply HQ.
  eapply server_ok_core; [exact Hs'|]. by apply server_ok_engine.
Qed.

Lemma wp_engine_attach (Q : BridgeAttachReplayMetadata -> server -> Prop) E c p since s :
  server_ok s -> c ∈ clients s -> p ∈ attachedPanes (object c s) -> entitled s c p ->
  (forall m s', server_ok s' -> Q m s') -> (forall e s', server_ok s' -> E e s') ->
  wp Q E (engine_attach (maxHistoryEvents cfg) c p since) s.
Proof.
  intros Hs Hc Hp Hent HQ HE. unfold engine_attach. apply wp_get, wp_bind.
  destruct (heard_exec (entitled s) (maxHistoryEvents cfg) (Attach c p since) (engine s)) as [Hheard Hout];
    [done|by apply so_inv|by apply so_heard|by intros ? ? ? [= <- <- _]|].
  apply wp_engine_exec; [exact Hout|]. clear Hout. intros s' Hs'.
  assert (Hok : server_ok s').
  { eapply server_ok_core; [exact Hs'|]. clear s' Hs'. pose proof (so_inv _ Hs) as Hi.
    pose proof (reachable_exec _ (Attach c p since) _ (so_engine _ Hs)) as Hreach.
    pose proof (fun q => subscribers_exec _ (Attach c p since) _ q Hmax Hi) as Hsub.
    destruct Hs as [H1 H2 H3 H4 H5 H6 H7 H8]. split; try done.
    intros q c' Hin. change (c' ∈ pane_subscribers q (eng (exec (maxHistoryEvents cfg) (Attach c p since) (engine s)).2)) in Hin.
    specialize (Hsub q). cbn [subscribers_after] in Hsub. rewrite Hsub in Hin.
    change (c' ∈ clients s /\ q ∈ attachedPanes (object c' s)).
    case_decide as Hd; [subst q; apply elem_of_js_add in Hin as [->|Hin]; [done|]|]; by apply H7. }
  clear Hs' Hs Hc Hp Hent Hheard. destruct (attachStart _ _ _ _) as [[[m|f] out] e]; [by apply HQ|].
  split; [done|]. intros ans s1 Hs1. apply wp_get. destruct ans as [snap|err], (frame_index f s1) as [i|];
    try (by apply HE).
  - apply wp_bind, wp_engine_quiet; [done..|]. intros s2 Hs2. by apply HQ.
  - apply wp_bind, wp_engine_quiet; [done..|]. intros s2 Hs2. by apply HE.
Qed.

Lemma auth_ok c payload rid s :
  server_ok s -> c ∈ clients s -> prog_ok (handle_auth cfg c payload rid) s.
Proof.
  intros Hs Hc.
  assert (Hset : server_ok (update_object c (set_authenticated true) s)).
  { apply (server_ok_update s _ c (set_authenticated true (object c s))); try done.
    - destruct (so_objects _ Hs c). by split.
    - apply (so_arbiter _ Hs).
    - apply (so_engine _ Hs).
    - apply (so_heard _ Hs).
    - intros p l Hl. case_decide as Hd; [|by eexists]. subst c. by apply (so_lanes _ Hs).
    - intros p c' Hin. case_decide as Hd; [|done]. subst c'. by apply (so_subscribers _ Hs). }
  unfold handle_auth. destruct (required_token cfg).
  - case_match.
    + apply wp_seq_ok; [by apply wp_audit|intros; by apply wp_send].
    + apply wp_modify, wp_seq_ok; [by apply wp_audit|intros; by apply wp_send].
  - apply wp_modify, wp_seq_ok; [by apply wp_audit|intros; by apply wp_send].
Qed.

Lemma list_sessions_ok lc c rid t s : server_ok s -> prog_ok (handle_list_sessions lc cfg c rid t) s.
Proof.
  intros Hs. unfold handle_list_sessions. simpl. split; [done|]. intros x s1 Hs1.
  destruct x as [rows|e]; [|done]. simpl. intros now t'. split; [done|].
  apply server_ok_telemetry. apply (server_ok_arbiter (expireStaleOwners now (arbiter s1))).
  - done.
  - apply wf_expire, (so_arbiter _ Hs1).
  - intros p l. apply get_expire_Some, (so_arbiter _ Hs1).
Qed.

Lemma attach_ok c payload rid t s :
  server_ok s -> c ∈ clients s -> authenticated (object c s) = true ->
  (forall p, parseNonEmptyString (field "paneId" payload) = Some p -> asked c p) ->
  prog_ok (handle_attach cfg c payload rid t) s.
Proof.
  intros Hs Hc Hauth Hasked. unfold handle_attach.
  destruct (parseNonEmptyString _) as [p|]; [|by apply wp_error]. apply wp_get.
  specialize (Hasked p eq_refl).
  destruct (_ && _) eqn:Hfull; [by apply wp_error|].
  apply wp_put, wp_modify. set (o := set_attachedPanes (js_add p (attachedPanes (object c s))) (object c s)).
  assert (Hs1 : server_ok (update_object c (set_attachedPanes (js_add p (attachedPanes (object c s)))) s)).
  { apply (server_ok_update s _ c o); try done.
    - destruct (so_objects _ Hs c) as [H1 H2 H3 H4]. split; simpl; try done.
      + by apply NoDup_js_add.
      + rewrite js_add_length. destruct (js_has p (attachedPanes (object c s))); simpl in *; [lia|].
        apply Z.leb_gt in Hfull. lia.
      + congruence.
    - apply (so_arbiter _ Hs).
    - apply (so_engine _ Hs).
    - apply (so_heard _ Hs).
    - intros q l Hl. case_decide as Hd; [|by eexists]. subst c. simpl.
      apply elem_of_js_add. right. by apply (so_lanes _ Hs).
    - intros q c' Hin. case_decide as Hd; [|done]. subst c'. simpl.
      apply elem_of_js_add. right. by apply (so_subscribers _ Hs). }
  apply wp_bind, wp_engine_attach.
  - by apply server_ok_lag.
  - done.
  - change (p ∈ attachedPanes (object c (update_object c (set_attachedPanes
      (js_add p (attachedPanes (object c s)))) s))).
    rewrite object_update, decide_True by done. simpl. apply elem_of_js_add. by left.
  - split; [|done]. change (authenticated (object c (update_object c (set_attachedPanes
      (js_add p (attachedPanes (object c s)))) s)) = true).
    by rewrite object_update, decide_True.
  - clear. intros m s Hs. apply wp_seq_ok.
    { unfold replay_audit. repeat case_match; try (by apply wp_audit); by apply wp_ret. }
    clear. intros s Hs. apply wp_seq_ok; [by apply wp_audit|]. clear. intros s Hs.
    apply wp_now. intros now. apply wp_modify. apply wp_seq_ok.
    + case_match; simpl; by repeat apply server_ok_telemetry.
    + intros. by apply wp_send.
  - done.
Qed.

Lemma detach_ok c payload rid s :
  server_ok s -> c ∈ clients s -> prog_ok (handle_detach cfg c payload rid) s.
Proof.
  intros Hs Hc. unfold handle_detach.
  destruct (parseNonEmptyString _) as [p|]; [|by apply wp_error].
  apply wp_modify, wp_now. intros now. apply wp_get.
  destruct (releasePaneIfOwnedBy _ _ _ _) as [released a] eqn:Hrel.
  apply wp_put, wp_seq, wp_engine_exec; [constructor|]. intros s' Hs'.
  set (o := set_attachedPanes (js_del p (attachedPanes (object c s))) (object c s)).
  assert (Hok : server_ok s').
  { eapply server_ok_core; [exact Hs'|]. clear s' Hs'.
    pose proof (so_arbiter _ Hs) as Hwf.
    pose proof (fun p' l => release_pane_get now p c (arbiter s) p' l Hwf) as Hget.
    change (arbiter (update_object _ _ s)) with (arbiter s) in Hrel. rewrite Hrel in Hget. cbn [snd] in Hget.
    apply (server_ok_update s _ c o); try done.
    - destruct (so_objects _ Hs c) as [H1 H2 H3 H4]. split; simpl; try done.
      + by apply NoDup_js_del.
      + pose proof (js_del_length p (attachedPanes (object c s))). lia.
      + intros Ha. destruct (H4 Ha) as [? ->]. done.
    - change (arbiter_wf a). replace a with (releasePaneIfOwnedBy now p c (arbiter s)).2 by by rewrite Hrel.
      apply (wf_apply_op (OpRelease now p c) _ Hwf).
    - apply reachable_exec, (so_engine _ Hs).
    - by apply (so_heard_exec (Detach c p)).
    - intros q l Hl. destruct (Hget q l Hl) as [Hl' Hne]. case_decide as Hd; [|by eexists].
      simpl. apply elem_of_js_del. split; [by apply Hne|]. rewrite <- Hd. by apply (so_lanes _ Hs).
    - intros q c' Hin. pose proof (subscribers_exec _ (Detach c p) _ q Hmax (so_inv _ Hs)) as Hsub.
      cbn [subscribers_after] in Hsub.
      change (c' ∈ pane_subscribers q (eng (exec (maxHistoryEvents cfg) (Detach c p) (engine s)).2)) in Hin.
      rewrite Hsub in Hin. destruct (decide (q = p)) as [->|Hne].
      + apply elem_of_js_del in Hin as [Hne Hin]. by rewrite decide_False.
      + case_decide as Hd; [|done]. subst c'. simpl. apply elem_of_js_del.
        split; [done|]. by apply (so_subscribers _ Hs). }
  clear -Hok. apply wp_seq_ok; [by apply wp_audit|]. intros s1 Hs1. apply wp_seq_ok.
  - destruct released; [by apply wp_audit|by apply wp_ret].
  - intros s2 Hs2. by apply wp_send.
Qed.

Lemma policy_update_ok c rid s : server_ok s -> prog_ok (send_policy_update cfg c rid) s.
Proof. intros Hs. unfold send_policy_update. apply wp_get, wp_now. intros t. simpl. by split. Qed.

(** The input switch of a client that may have it. *)
Lemma server_ok_inputEnabled c b s :
  server_ok s -> c ∈ clients s ->
  (b = true -> cfg_globalInputDisabled cfg = false /\ authenticated (object c s) = true) ->
  server_ok (update_object c (set_inputEnabled b) s).
Proof.
  intros Hs Hc Hb.
  apply (server_ok_update s _ c (set_inputEnabled b (object c s))); try done.
  - destruct (so_objects _ Hs c) as [H1 H2 H3 H4]. split; simpl; try done.
    + intros Hk. destruct b; [|done]. destruct (Hb eq_refl). congruence.
    + intros Ha. split; [|by apply H4]. destruct b; [|done]. destruct (Hb eq_refl). congruence.
  - apply (so_arbiter _ Hs).
  - apply (so_engine _ Hs).
  - apply (so_heard _ Hs).
  - intros p l Hl. case_decide as Hd; [|by eexists]. subst c. by apply (so_lanes _ Hs).
  - intros p c' Hin. case_decide as Hd; [|done]. subst c'. by apply (so_subscribers _ Hs).
Qed.

Lemma enable_input_ok c rid s :
  server_ok s -> c ∈ clients s -> authenticated (object c s) = true ->
  prog_ok (handle_enable_input cfg c rid) s.
Proof.
  intros Hs Hc Ha. apply wp_modify, wp_seq_ok; [|intros; by apply policy_update_ok].
  apply wp_audit; [|done]. apply server_ok_inputEnabled; [done..|].
  by destruct (cfg_globalInputDisabled cfg).
Qed.

Lemma disable_input_ok c rid s :
  server_ok s -> c ∈ clients s -> prog_ok (handle_disable_input cfg c rid) s.
Proof.
  intros Hs Hc. apply wp_modify, wp_seq_ok; [|intros; by apply policy_update_ok].
  apply wp_audit; [|done]. by apply server_ok_inputEnabled.
Qed.

Lemma server_ok_inputLimiter l s : server_ok s -> server_ok (set_inputLimiter l s).
Proof. by apply server_ok_core. Qed.

Lemma server_ok_messageLimiter l s : server_ok s -> server_ok (set_messageLimiter l s).
Proof. by apply server_ok_core. Qed.

Lemma claim_ok_owner now p c r al a ov a' :
  claim now p c r al a = (ClaimOk ov, a') -> currentOwner p a' = Some c.
Proof. intros H. unfold currentOwner. by rewrite (claim_ok_get _ _ _ _ _ _ _ _ H). Qed.

Lemma input_handler_ok sha c payload rid t s :
  server_ok s -> c ∈ clients s -> authenticated (object c s) = true ->
  prog_ok (handle_input sha cfg c payload rid t) s.
Proof.
  intros Hs Hc Ha. unfold handle_input. apply wp_now. intros now. apply wp_get.
  destruct (consume _ _ _) as [rate l]. apply wp_put.
  apply (server_ok_inputLimiter l) in Hs. change (clients s) with (clients (set_inputLimiter l s)) in Hc.
  change (object c s) with (object c (set_inputLimiter l s)) in *.
  revert Hs Hc Ha. generalize (set_inputLimiter l s) as s0. clear s. intros s Hs Hc Ha.
  destruct (allowed rate); cbn [negb].
  2: { apply wp_seq_ok; [by apply wp_audit|intros; by apply wp_error]. }
  destruct (isInputAllowed _) eqn:Hpol; cbn [negb].
  2: { apply wp_seq_ok; [by apply wp_audit|intros; by apply wp_error]. }
  apply isInputAllowed_spec in Hpol as [Hen Hkill].
  destruct (parseNonEmptyString _) as [pane|]; [|by apply wp_error].
  set (data := str_or "" _). destruct (is_empty data) eqn:Hdata; [by apply wp_error|].
  destruct (js_has pane _) eqn:Hatt; cbn [negb]; [|by apply wp_error].
  apply js_has_spec in Hatt.
  destruct (Z.ltb_spec (maxInputBytes cfg) (utf8_byte_length data)); [by apply wp_error|].
  apply wp_get. match goal with |- context [claim _ _ _ ?r _ _] => generalize r end. intros r.
  pose proof (fun p' l' => claim_get now pane c r (laneOverrideAllowed cfg) _ p' l' (so_arbiter _ Hs)) as Hget.
  pose proof (wf_apply_op (OpClaim now pane c r (laneOverrideAllowed cfg)) _ (so_arbiter _ Hs)) as Hwf.
  simpl in Hwf. destruct (claim _ _ _ _ _ _) as [res a] eqn:Hclaim. apply wp_put.
  assert (Hs1 : server_ok (set_arbiter a s)).
  { destruct Hs as [H1 H2 H3 H4 H5 H6 H7 H8]. split; try done.
    intros p' l' [Hl'|[-> ->]]%Hget; [by apply H5|done]. }
  destruct res as [overridden|owner al].
  - split; [|split; [done|]].
    { split; try done. by destruct data. by eapply claim_ok_owner. }
    clear. intros [e|] s Hs; [done|]. apply wp_seq_ok; [by apply wp_audit|].
    clear. intros s Hs. apply wp_seq_ok; [destruct overridden; [by apply wp_audit|by apply wp_ret]|].
    clear. intros s Hs. apply wp_now. intros now. apply wp_modify, wp_send; [by apply server_ok_telemetry|done].
  - apply wp_seq_ok; [by apply wp_audit|intros; by apply wp_error].
Qed.

(** A client that leaves all its panes and lanes. *)
Lemma server_ok_leave now c s o :
  server_ok s -> c ∈ clients s -> client_ok o ->
  (authenticated (object c s) = true -> authenticated o = true) ->
  server_ok (set_objects (<[c := o]> (objects s))
               (set_arbiter (releaseClient now c (arbiter s)).2
                  (set_engine (exec (maxHistoryEvents cfg) (DetachAll c) (engine s)).2 s))).
Proof.
  intros Hs Hc Ho Hauth. pose proof (so_arbiter _ Hs) as Hwf.
  apply (server_ok_update s _ c o); try done.
  - apply (wf_apply_op (OpReleaseClient now c) _ Hwf).
  - apply reachable_exec, (so_engine _ Hs).
  - by apply (so_heard_exec (DetachAll c)).
  - intros p l Hl. apply release_client_get in Hl as [Hl Hne]; [|done].
    rewrite decide_False by done. by eexists.
  - intros p c' Hin. pose proof (subscribers_exec _ (DetachAll c) _ p Hmax (so_inv _ Hs)) as Hsub.
    cbn [subscribers_after] in Hsub.
    change (c' ∈ pane_subscribers p (eng (exec (maxHistoryEvents cfg) (DetachAll c) (engine s)).2)) in Hin.
    rewrite Hsub in Hin. apply elem_of_js_del in Hin as [Hne Hin]. by rewrite decide_False.
Qed.

Lemma disconnect_ok c rid s :
  server_ok s -> c ∈ clients s -> prog_ok (handle_disconnect cfg c rid) s.
Proof.
  intros Hs Hc. unfold handle_disconnect. apply wp_seq, wp_engine_exec; [constructor|]. intros s1 Hs1.
  apply wp_now. intros now. apply wp_get.
  destruct (releaseClient now c (arbiter s1)) as [n a] eqn:Hrel. apply wp_put, wp_modify.
  assert (Hok : server_ok (update_object c (fun o => set_inputEnabled false (set_attachedPanes [] o)) (set_arbiter a s1))).
  { injection Hs1 as Ho Hcl He Ha. rewrite Ha in Hrel.
    eapply server_ok_core; [|apply (server_ok_leave now c s
      (set_inputEnabled false (set_attachedPanes [] (object c s)))); [done..| |done]].
    - rewrite Hrel. unfold core, object. simpl. unfold object. simpl. by rewrite Ho, Hcl, He.
    - destruct (so_objects _ Hs c) as [H1 H2 H3 H4]. split; simpl; try done; [constructor|lia]. }
  clear -Hok. apply wp_seq_ok; [case_match; [by apply wp_audit|by apply wp_ret]|].
  intros s2 Hs2. apply wp_seq_ok; [by apply wp_audit|]. intros. by apply wp_send.
Qed.

Lemma handle_ok lc sha c type payload rid t s :
  server_ok s -> c ∈ clients s ->
  (forall p, type = "attach" -> parseNonEmptyString (field "paneId" payload) = Some p -> asked c p) ->
  prog_ok (handleClientMessage lc sha cfg c type payload rid t) s.
Proof.
  intros Hs Hc Hasked. unfold handleClientMessage. apply wp_get.
  destruct (authenticated (object c s)) eqn:Ha; cbn [negb andb].
  - case_match; [by apply auth_ok|]. case_match; [by apply list_sessions_ok|].
    destruct (String.eqb_spec type "attach"); [by apply attach_ok; auto|].
    repeat (case_match; [by auto using detach_ok, enable_input_ok, disable_input_ok,
      input_handler_ok, disconnect_ok|]).
    by apply wp_error.
  - destruct (String.eqb type "auth") eqn:Ht; cbn [negb]; [by apply auth_ok|by apply wp_error].
Qed.

(** The panes a raw message asks to attach. *)
Definition attach_request (jp : string -> option jsval) (raw p : string) : Prop :=
  exists now m, parseIncomingClientMessage jp cfg now raw = Ok m /\ env_type m = "attach" /\
    parseNonEmptyString (field "paneId" (env_payload m)) = Some p.

Lemma onMessage_ok jp lc sha c raw s :
  server_ok s -> c ∈ clients s -> (forall p, attach_request jp raw p -> asked c p) ->
  prog_ok (onMessage jp lc sha cfg c raw) s.
Proof.
  intros Hs Hc Hasked. unfold onMessage. apply wp_now. intros t. apply wp_get.
  destruct (consume _ _ _) as [rate l]. apply wp_put.
  apply (server_ok_messageLimiter l) in Hs.
  destruct (allowed rate); cbn [negb]; [|by apply wp_error].
  destruct (parseIncomingClientMessage _ _ _ _) as [m|code] eqn:Hparse; [|by apply wp_error].
  apply wp_catch. eapply wp_mono; [| |apply handle_ok; [done..|]]; [done| |].
  2: { intros p Hty Hp. apply Hasked. by exists t, m. }
  intros e s1 Hs1. apply wp_seq_ok; [by apply wp_audit|]. intros. by apply wp_error.
Qed.

Lemma onConnection_ok c s :
  server_ok s -> objects s !! c = None -> prog_ok (onConnection cfg c) s.
Proof.
  intros Hs Hnew. unfold onConnection. apply wp_now. intros t. apply wp_modify.
  set (o := Client _ false []). set (s1 := set_clients _ _).
  assert (Hlive : c ∉ clients s).
  { intros Hin. destruct (so_live _ Hs c Hin). congruence. }
  assert (Hobj : forall c', object c' s1 = if decide (c' = c) then o else object c' s).
  { intros c'. unfold object, s1. simpl. case_decide as Hd.
    - subst. by rewrite lookup_insert_eq.
    - by rewrite lookup_insert_ne. }
  assert (Hs1 : server_ok s1).
  { destruct Hs as [H1 H2 H3 H4 H5 H6 H7 H8]. split; try done.
    - intros c'. rewrite Hobj. case_decide; [|apply H1]. by split; simpl; [constructor|lia|..].
    - intros c' Hin. unfold s1 in *. simpl in *. apply elem_of_js_add in Hin.
      destruct (decide (c' = c)) as [->|]; [rewrite lookup_insert_eq; by eexists|].
      rewrite lookup_insert_ne by done. apply H2. naive_solver.
    - by apply NoDup_js_add.
    - intros p l Hl. destruct (H5 p l Hl) as [Hc Hp]. rewrite Hobj. simpl.
      split; [apply elem_of_js_add; by right|]. rewrite decide_False; [done|]. by intros <-.
    - intros p c' Hin. destruct (H7 p c' Hin) as [Hc Hp]. rewrite Hobj. simpl.
      split; [apply elem_of_js_add; by right|]. rewrite decide_False; [done|]. by intros ->.
    - revert H8. apply heard_mono. intros c' p [Ha Hp]. split; [|done]. rewrite Hobj.
      case_decide as Hd; [|done]. subst c'. unfold object in Ha. by rewrite Hnew in Ha. }
  apply wp_seq_ok; [by apply wp_audit_void|]. clear -Hmax. intros s Hs.
  apply wp_seq_ok; [by apply wp_send|]. clear -Hmax. intros s Hs.
  apply wp_now. intros t'. by apply server_ok_telemetry.
Qed.

Lemma onClose_ok c code reason s :
  server_ok s -> c ∈ clients s -> prog_ok (onClose cfg c code reason) s.
Proof.
  intros Hs Hc. unfold onClose. apply wp_seq, wp_engine_exec; [constructor|]. intros s1 Hs1.
  apply wp_modify, wp_modify, wp_now. intros now. apply wp_get.
  destruct (releaseClient now c _) as [n a] eqn:Hrel. apply wp_put.
  (* the lanes and subscriptions of [c] are gone: it may leave the clients *)
  pose proof (server_ok_leave now c s (object c s) Hs Hc (so_objects _ Hs c) (fun Ha => Ha)) as Hok.
  assert (Hgone : forall s2, core s2 = core (set_arbiter a (set_engine (exec (maxHistoryEvents cfg) (DetachAll c) (engine s)).2 s)) ->
    server_ok (set_clients (js_del c (clients s2)) s2)).
  { injection Hs1 as Ho Hcl He Ha. change (arbiter (set_inputLimiter _ _)) with (arbiter s1) in Hrel.
    rewrite Ha in Hrel. intros s2 [= Ho2 Hcl2 He2 Ha2].
    pose proof (so_arbiter _ Hs) as Hwf.
    assert (Hobj : forall c', object c' s2 = object c' s) by (intros; unfold object; by rewrite Ho2).
    pose proof (so_arbiter _ Hok) as Hwf'. pose proof (so_engine _ Hok) as Hreach'.
    cbn [arbiter engine set_objects set_arbiter set_engine] in Hwf', Hreach', Ha2, Hcl2, He2.
    rewrite Hrel in Hwf'.
    split; cbn [objects clients engine arbiter set_clients]; rewrite ?Hcl2, ?He2, ?Ha2; try done.
    - intros c'. change (client_ok (object c' s2)). rewrite Hobj. apply (so_objects _ Hs).
    - intros c' Hin%elem_of_js_del. rewrite Ho2. apply (so_live _ Hs), Hin.
    - apply NoDup_js_del, (so_clients _ Hs).
    - intros p l Hl. change (lease_clientId l ∈ js_del c (clients s) /\ p ∈ attachedPanes (object (lease_clientId l) s2)).
      rewrite Hobj. replace a with (releaseClient now c (arbiter s)).2 in Hl by by rewrite Hrel.
      apply release_client_get in Hl as [Hl Hne]; [|done].
      rewrite elem_of_js_del. pose proof (so_lanes _ Hs _ _ Hl). naive_solver.
    - intros p c' Hin. change (c' ∈ js_del c (clients s) /\ p ∈ attachedPanes (object c' s2)).
      rewrite Hobj. pose proof (subscribers_exec _ (DetachAll c) _ p Hmax (so_inv _ Hs)) as Hsub.
      cbn [subscribers_after exec snd eng] in Hsub, Hin. rewrite Hsub in Hin.
      apply elem_of_js_del in Hin as [Hne Hin].
      rewrite elem_of_js_del. pose proof (so_subscribers _ Hs _ _ Hin). naive_solver.
    - pose proof (so_heard _ Hok) as Hh. revert Hh. apply heard_mono. intros c' p [Hauth Hp].
      split; [|done]. change (authenticated (object c' s2) = true). rewrite Hobj. revert Hauth.
      unfold object at 1. cbn [objects set_objects]. destruct (decide (c' = c)) as [->|].
      + by rewrite lookup_insert_eq.
      + by rewrite lookup_insert_ne. }
  assert (Hcore : forall s2, core s2 = core (set_arbiter a s1) ->
    core s2 = core (set_arbiter a (set_engine (exec (maxHistoryEvents cfg) (DetachAll c) (engine s)).2 s))).
  { intros s2 ->. injection Hs1 as Ho Hcl He Ha. unfold core. simpl. by rewrite Ho, Hcl, He. }
  apply wp_seq. 
  assert (Hrest : forall s2, core s2 = core (set_arbiter a s1) ->
    prog_ok (let closeFailure := classifyBridgeCloseFailure code reason in
      audit_void c "transport_drop"
        [("code", JInt code); ("reason", JStr (or_else reason "socket_closed"));
         ("closeFailureCode", JStr (close_code_string (close_code_ closeFailure)));
         ("closeFailureRecoverable", JBool (close_recoverable closeFailure));
         ("closeFailureReason", JStr (Failures.close_reason closeFailure));
         ("releasedPanes", JInt n)];;
      modify (fun s => set_telemetry (recordConnectionClosed (telemetry s)) s);;
      modify (fun s => set_lag (clearClientAttachLag (pendingAttachLag s) c) s);;
      modify (fun s => set_clients (js_del c (clients s)) s)) s2).
  { intros s2 Hs2. cbv zeta. apply wp_seq, wp_audit_void. apply wp_modify, wp_modify.
    apply Hgone, Hcore, Hs2. }
  case_match; [apply wp_audit_void|apply wp_ret]; by apply Hrest.
Qed.

Lemma onPollSettled_ok r s : server_ok s -> prog_ok (onPollSettled cfg r) s.
Proof.
  intros Hs. destruct r as [out|e]; [by apply wp_engine_quiet|]. apply wp_get.
  pose proof (server_ok_engine PollFailed s eq_refl Hs) as Hok.
  pose proof (so_heard_exec PollFailed s Hs eq_refl) as [_ Hout].
  destruct (exec _ PollFailed _) as [out e']. apply wp_put, wp_deliver; [exact Hout|].
  intros s' Hs'. by eapply server_ok_core.
Qed.

(** ** Every event keeps the system safe *)

Variable JSON_parse : string -> option jsval.
Variable localeCompare : string -> string -> Z.
Variable sha256_hex : string -> string.

Abbreviation sys_steps := (steps JSON_parse localeCompare sha256_hex cfg).

Definition system_ok (y : system) : Prop :=
  server_ok (srv y) /\ Forall thread_ok (threads y).

Definition outputs_ok (out : list (server * output)) : Prop :=
  Forall (fun so => output_ok so.1 so.2) out.

Lemma start_ok now p ths s :
  prog_ok p s -> Forall thread_ok ths ->
  outputs_ok (start now p ths s).1 /\ system_ok (start now p ths s).2.
Proof.
  intros Hp Hths. unfold start. pose proof (wp_run now p s Hp) as Hrun.
  destruct (run now p s) as [[out s'] q]. destruct Hrun as (Ho & Hs & Hq).
  split; [done|]. split; [done|]. simpl. destruct (blocked q); [|done].
  apply Forall_app. split; [done|]. by apply Forall_singleton.
Qed.

(** The panes a client asks for with an event. *)
Definition event_asks (ev : event) (c p : string) : Prop :=
  exists raw, ev = EMessage c raw /\ attach_request JSON_parse raw p.

Lemma step_ok now ev y :
  system_ok y -> (forall c p, event_asks ev c p -> asked c p) ->
  outputs_ok (step JSON_parse localeCompare sha256_hex cfg now ev y).1 /\
  system_ok (step JSON_parse localeCompare sha256_hex cfg now ev y).2.
Proof.
  intros [Hs Hths] Hasked. assert (Hy : system_ok y) by done.
  destruct ev; cbn [step].
  - destruct (objects (srv y) !! c) eqn:Hc; [by split; [constructor|]|].
    apply start_ok; [by apply onConnection_ok|done].
  - destruct (js_has c (clients (srv y))) eqn:Hc; [|by split; [constructor|]].
    apply start_ok; [|done]. apply onMessage_ok; [done|by apply js_has_spec|].
    intros p Hp. apply Hasked. by exists raw.
  - destruct (js_has c (clients (srv y))) eqn:Hc; [|by split; [constructor|]].
    apply start_ok; [by apply onClose_ok, js_has_spec|done].
  - destruct (threads y !! i) as [th|] eqn:Hth; cbn [mbind option_bind]; [|by split; [constructor|]].
    destruct (resume th a) as [p|] eqn:Hres; [|by split; [constructor|]].
    apply start_ok.
    + rewrite Forall_lookup in Hths. by apply (Hths _ _ Hth _ a).
    + by apply Forall_delete.
  - apply start_ok; [by apply wp_engine_quiet|done].
  - apply start_ok; [by apply onPollSettled_ok|done].
Qed.

Lemma init_ok : system_ok (init_system cfg).
Proof.
  split; [|constructor]. split; simpl.
  - intros c. unfold object. simpl. rewrite lookup_empty. split; simpl; [constructor|lia|done|done].
  - intros c Hc. by apply elem_of_nil in Hc.
  - constructor.
  - apply jm_wf_nil.
  - done.
  - by exists [].
  - intros p c Hc. by apply elem_of_nil in Hc.
  - apply heard_init.
Qed.

Lemma steps_ok evs y :
  system_ok y -> (forall now ev c p, (now, ev) ∈ evs -> event_asks ev c p -> asked c p) ->
  outputs_ok (sys_steps evs y).1 /\ system_ok (sys_steps evs y).2.
Proof.
  revert y. induction evs as [|[now ev] evs IH]; intros y Hy Hasked; [by split; [constructor|]|].
  cbn [steps]. destruct (step_ok now ev y Hy) as [Ho1 Hy1].
  { intros c p. apply (Hasked now ev), list_elem_of_here. }
  destruct (step _ _ _ _ now ev y) as [out1 y1]. cbn [fst snd] in *.
  destruct (IH y1 Hy1) as [Ho2 Hy2].
  { intros now' ev' c p Hin. apply (Hasked now' ev'). by apply list_elem_of_further. }
  destruct (sys_steps evs y1) as [out2 y2].
  split; [|done]. by apply Forall_app.
Qed.
End Inv.

(** Without an assumption on who asked for what. *)
Abbreviation everybody := (fun _ _ : string => True).

Lemma every_run_ok cfg JSON_parse localeCompare sha256_hex evs :
  0 <= maxHistoryEvents cfg ->
  outputs_ok cfg everybody
    (steps JSON_parse localeCompare sha256_hex cfg evs (init_system cfg)).1 /\
  system_ok cfg everybody
    (steps JSON_parse localeCompare sha256_hex cfg evs (init_system cfg)).2.
Proof. intros Hmax. apply steps_ok; [done|apply init_ok|done]. Qed.

(** ** Properties *)

(** C1. No input without authority.  Whatever clients send, and however handlers,
    polling and disconnections interleave, every call of [tmux.sendInput] is made
    for a client that at that instant is connected, authenticated and
    input-enabled, with the kill switch off, has the pane attached and holds its
    input lane; and the data is not empty and within the size limit. *)
Theorem input_authorized (cfg : ServerConfig) (JSON_parse : string -> option jsval)
    (localeCompare : string -> string -> Z) (sha256_hex : string -> string)
    (evs : list (Z * event)) (s : server) (c p d : string) :
  0 <= maxHistoryEvents cfg ->
  (s, OInput c p d) ∈ (steps JSON_parse localeCompare sha256_hex cfg evs (init_system cfg)).1 ->
  c ∈ clients s /\ authenticated (object c s) = true /\ cl_inputEnabled (object c s) = true /\
  cfg_globalInputDisabled cfg = false /\ p ∈ attachedPanes (object c s) /\
  currentOwner p (arbiter s) = Some c /\
  d <> "" /\ utf8_byte_length d <= maxInputBytes cfg.
Proof.
  intros Hmax Hin.
  destruct (every_run_ok cfg JSON_parse localeCompare sha256_hex evs Hmax) as [Ho _].
  unfold outputs_ok in Ho. rewrite Forall_forall in Ho. by destruct (Ho _ Hin).
Qed.

(** A configuration and a client session used by the witnesses: the raw text of a
    message is its type, and the parser supplies a payload. *)
Definition demo_config : ServerConfig :=
  SConfig (Some "secret") 2 1024 100 100 None false None false 300.

Definition demo_parse (raw : string) : option jsval :=
  Some (JObj [("type", JStr raw);
              ("payload", JObj [("token", JStr "secret"); ("paneId", JStr "%1");
                                ("data", JStr "ls")])]).

Definition demo_session : list (Z * event) :=
  [(0, EConnect "ann"); (1, EMessage "ann" "auth"); (2, EResume 0 AnsAudit);
   (3, EMessage "ann" "attach"); (4, EResume 0 (AnsCapture (Ok "$ ")));
   (5, EResume 0 AnsAudit); (6, EMessage "ann" "enable_input"); (7, EResume 0 AnsAudit);
   (8, EMessage "ann" "input")].

Abbreviation demo_steps :=
  (steps demo_parse (fun _ _ => 0) (fun s => s) demo_config demo_session (init_system demo_config)).

Lemma input_authorized_witness :
  exists s, (s, OInput "ann" "%1" "ls") ∈ demo_steps.1 /\
    currentOwner "%1" (arbiter s) = Some "ann" /\ authenticated (object "ann" s) = true.
Proof.
  assert (Hin : exists s, List.find (fun so => match so.2 with OInput _ _ _ => true | _ => false end)
            demo_steps.1 = Some (s, OInput "ann" "%1" "ls")) by (vm_compute; by eexists).
  destruct Hin as [s Hfind]. apply find_some in Hfind as [Hlook _]. apply list_elem_of_In in Hlook.
  exists s. split; [exact Hlook|].
  destruct (input_authorized demo_config demo_parse (fun _ _ => 0) (fun s => s) demo_session s
              "ann" "%1" "ls") as (_ & Ha & _ & _ & _ & Hl & _); [vm_compute; discriminate|exact Hlook|].
  split; [exact Hl|exact Ha].
Defined.

(** C7. The session state stays within its bounds in every reachable state: no
    client has more panes attached than allowed, nobody has input enabled under
    the global kill switch, and an unauthenticated client has neither input nor
    any pane. *)
Theorem client_state_invariant (cfg : ServerConfig) (JSON_parse : string -> option jsval)
    (localeCompare : string -> string -> Z) (sha256_hex : string -> string)
    (evs : list (Z * event)) (c : string) :
  0 <= maxHistoryEvents cfg ->
  let s := srv (steps JSON_parse localeCompare sha256_hex cfg evs (init_system cfg)).2 in
  NoDup (attachedPanes (object c s)) /\
  Z.of_nat (length (attachedPanes (object c s))) <= Z.max 0 (maxAttachedPanes cfg) /\
  (cfg_globalInputDisabled cfg = true -> cl_inputEnabled (object c s) = false) /\
  (authenticated (object c s) = false ->
     cl_inputEnabled (object c s) = false /\ attachedPanes (object c s) = []).
Proof.
  intros Hmax s.
  destruct (every_run_ok cfg JSON_parse localeCompare sha256_hex evs Hmax) as [_ [Hs _]].
  by destruct (so_objects _ _ _ Hs c).
Qed.

Lemma client_state_invariant_witness :
  attachedPanes (object "ann" (srv demo_steps.2)) = ["%1"] /\ NoDup ["%1"].
Proof.
  split; [vm_compute; reflexivity|].
  destruct (client_state_invariant demo_config demo_parse (fun _ _ => 0) (fun s => s) demo_session "ann")
    as [Hnd _]; [vm_compute; discriminate|].
  exact Hnd.
Defined.

(** C2. Lanes and streams belong to those entitled to them.  In every reachable
    state, the owner of an input lane and every subscriber of a watched pane is a
    connected, authenticated client that has the pane attached; so a client that
    detaches, disconnects or drops leaves neither lane nor subscription behind. *)
Theorem lanes_and_streams_entitled (cfg : ServerConfig) (JSON_parse : string -> option jsval)
    (localeCompare : string -> string -> Z) (sha256_hex : string -> string)
    (evs : list (Z * event)) (c p : string) :
  0 <= maxHistoryEvents cfg ->
  let s := srv (steps JSON_parse localeCompare sha256_hex cfg evs (init_system cfg)).2 in
  currentOwner p (arbiter s) = Some c \/ c ∈ pane_subscribers p (eng (engine s)) ->
  c ∈ clients s /\ authenticated (object c s) = true /\ p ∈ attachedPanes (object c s).
Proof.
  intros Hmax s Hwhy.
  destruct (every_run_ok cfg JSON_parse localeCompare sha256_hex evs Hmax) as [_ [Hs _]].
  change (server_ok cfg everybody s) in Hs.
  assert (H : c ∈ clients s /\ p ∈ attachedPanes (object c s)).
  { destruct Hwhy as [Hown|Hsub]; [|by apply (so_subscribers _ _ _ Hs)].
    unfold currentOwner in Hown. destruct (jm_get p (paneOwners (arbiter s))) as [l|] eqn:Hl; [|done].
    injection Hown as <-. by apply (so_lanes _ _ _ Hs). }
  destruct H as [Hc Hp]. split_and!; [done| |done].
  destruct (authenticated (object c s)) eqn:Ha; [done|].
  destruct (co_auth _ _ (so_objects _ _ _ Hs c) Ha) as [_ Hnil]. rewrite Hnil in Hp.
  by apply elem_of_nil in Hp.
Qed.

Lemma lanes_and_streams_entitled_witness :
  "ann" ∈ clients (srv demo_steps.2) /\
  authenticated (object "ann" (srv demo_steps.2)) = true /\
  "%1" ∈ attachedPanes (object "ann" (srv demo_steps.2)).
Proof.
  apply (lanes_and_streams_entitled demo_config demo_parse (fun _ _ => 0) (fun s => s) demo_session);
    [vm_compute; discriminate|].
  left. vm_compute. reflexivity.
Defined.

(** The panes client [c] asked to attach in the messages of a run. *)
Definition asked_in (cfg : ServerConfig) (JSON_parse : string -> option jsval)
    (evs : list (Z * event)) (c p : string) : Prop :=
  exists now raw, (now, EMessage c raw) ∈ evs /\ attach_request cfg JSON_parse raw p.

(** C8. Terminal text reaches only those who asked for it.  Whatever clients send
    and however handlers, polling and disconnections interleave, every message
    with the text of a pane goes to a client that at that instant is connected and
    authenticated, and that by then has sent a message asking to attach this very
    pane.  (It need not be attached any more: a capture in flight is still
    delivered to the client that asked for it.) *)
Theorem output_entitled (cfg : ServerConfig) (JSON_parse : string -> option jsval)
    (localeCompare : string -> string -> Z) (sha256_hex : string -> string)
    (evs : list (Z * event)) (now : Z) (ev : event) (s : server) (c : string) (m : Envelope) :
  0 <= maxHistoryEvents cfg ->
  (s, OSend c m) ∈ (step JSON_parse localeCompare sha256_hex cfg now ev
    (steps JSON_parse localeCompare sha256_hex cfg evs (init_system cfg)).2).1 ->
  env_type m = "output" ->
  c ∈ clients s /\ authenticated (object c s) = true /\
  exists text, env_payload m = event_fields text /\
    asked_in cfg JSON_parse (evs ++ [(now, ev)]) c (ev_paneId text).
Proof.
  intros Hmax Hin Hty. set (asked := asked_in cfg JSON_parse (evs ++ [(now, ev)])).
  assert (Hasked : forall t e c p, (t, e) ∈ evs ++ [(now, ev)] ->
    event_asks cfg JSON_parse e c p -> asked c p).
  { intros t e c' p He (raw & -> & Hraw). by exists t, raw. }
  destruct (steps_ok cfg asked Hmax JSON_parse localeCompare sha256_hex evs _ (init_ok cfg asked))
    as [_ Hy].
  { intros t e c' p He. apply (Hasked t e). apply elem_of_app. by left. }
  destruct (step_ok cfg asked Hmax JSON_parse localeCompare sha256_hex now ev _ Hy) as [Hout _].
  { intros c' p. apply (Hasked now ev). apply elem_of_app. right. by apply list_elem_of_singleton. }
  unfold outputs_ok in Hout. rewrite Forall_forall in Hout.
  destruct (Hout _ Hin Hty) as (Hc & text & Hp & Ha & Hask). naive_solver.
Qed.

Lemma output_entitled_witness :
  exists s m, (s, OSend "ann" m) ∈ (step demo_parse (fun _ _ => 0) (fun s => s) demo_config 4
      (EResume 0 (AnsCapture (Ok "$ ")))
      (steps demo_parse (fun _ _ => 0) (fun s => s) demo_config (take 4 demo_session)
         (init_system demo_config)).2).1 /\
    env_payload m = event_fields (Event Snapshot "%1" "$ " 1) /\
    authenticated (object "ann" s) = true.
Proof.
  assert (Hin : exists s m, List.find (fun so => match so.2 with OSend _ _ => true | _ => false end)
      (step demo_parse (fun _ _ => 0) (fun s => s) demo_config 4 (EResume 0 (AnsCapture (Ok "$ ")))
        (steps demo_parse (fun _ _ => 0) (fun s => s) demo_config (take 4 demo_session)
           (init_system demo_config)).2).1 = Some (s, OSend "ann" m) /\
      env_type m = "output" /\ env_payload m = event_fields (Event Snapshot "%1" "$ " 1))
    by (do 2 eexists; split; [vm_compute; reflexivity|done]).
  destruct Hin as (s & m & Hfind & Hty & Hpay). apply find_some in Hfind as [Hlook _].
  apply list_elem_of_In in Hlook. exists s, m. split_and!; [exact Hlook|exact Hpay|].
  destruct (output_entitled demo_config demo_parse (fun _ _ => 0) (fun s => s) (take 4 demo_session)
              4 (EResume 0 (AnsCapture (Ok "$ "))) s "ann" m) as (_ & Ha & _);
    [vm_compute; discriminate|exact Hlook|exact Hty|exact Ha].
Defined.
