(* ===== verification/SshSession.v ===== *)
(** * SSH session state machine ([src/ssh/session-state-machine.ts]) *)

From S2P Require Import Prelude.
Local Open Scope Z_scope.

(** ** The code *)

Inductive SshSessionControlState : Type :=
| offline | connecting | connected | attached | reconnecting | replaying.

Inductive SshSessionTransitionEvent : Type :=
| start_connect | connect_succeeded | connect_failed | disconnect | attach
| connection_lost | detach | reconnect_succeeded | reconnect_failed | begin_replay
| replay_completed | replay_failed.

#[export] Instance ssh_state_eq_dec : EqDecision SshSessionControlState.
Proof. solve_decision. Defined.
#[export] Instance ssh_event_eq_dec : EqDecision SshSessionTransitionEvent.
Proof. solve_decision. Defined.

Record SshSessionTransitionContext : Type := Context_ {
  ctx_sequence : Z;
  ctx_atMs : Z
}.

(** [reason] is the only rejection reason, or null. *)
Record SshSessionTransitionLogEntry : Type := LogEntry {
  log_sequence : Z;
  log_atMs : Z;
  log_from : SshSessionControlState;
  log_event : SshSessionTransitionEvent;
  log_to : SshSessionControlState;
  accepted : bool;
  reason : option string
}.

Record SshSessionTransitionResult : Type := TransitionResult {
  state : SshSessionControlState;
  changed : bool;
  entry : SshSessionTransitionLogEntry
}.

Definition SSH_SESSION_INITIAL_STATE : SshSessionControlState := offline.

(** The rows of the transition table, as the source writes them. *)
Definition TRANSITIONS (s : SshSessionControlState) :
    list (SshSessionTransitionEvent * SshSessionControlState) :=
  match s with
  | offline => [(start_connect, connecting)]
  | connecting =>
      [(connect_succeeded, connected); (connect_failed, offline); (disconnect, offline)]
  | connected => [(attach, attached); (disconnect, offline); (connection_lost, reconnecting)]
  | attached => [(detach, connected); (disconnect, offline); (connection_lost, reconnecting)]
  | reconnecting =>
      [(reconnect_succeeded, connected); (reconnect_failed, offline);
       (begin_replay, replaying); (disconnect, offline)]
  | replaying =>
      [(replay_completed, attached); (replay_failed, connected);
       (connection_lost, reconnecting); (disconnect, offline)]
  end.

(** [TRANSITIONS[state][event]]. *)
Definition lookup_transition (s : SshSessionControlState) (e : SshSessionTransitionEvent) :
    option SshSessionControlState :=
  snd <$> List.find (fun row => bool_decide (row.1 = e)) (TRANSITIONS s).

Definition isTransitionAllowed (s : SshSessionControlState) (e : SshSessionTransitionEvent) : bool :=
  existsb (fun row => bool_decide (row.1 = e)) (TRANSITIONS s).

Definition isInputEnabledState (s : SshSessionControlState) : bool := bool_decide (s = attached).

Definition canEnableInputFromState (s : SshSessionControlState) : bool :=
  bool_decide (s = connected) || bool_decide (s = attached) || bool_decide (s = replaying).

Definition transitionSshSessionState (s : SshSessionControlState)
    (e : SshSessionTransitionEvent) (context : SshSessionTransitionContext) :
    SshSessionTransitionResult :=
  match lookup_transition s e with
  | None =>
      TransitionResult s false
        (LogEntry (ctx_sequence context) (ctx_atMs context) s e s false
           (Some "invalid_transition"))
  | Some nextState =>
      TransitionResult nextState (negb (bool_decide (nextState = s)))
        (LogEntry (ctx_sequence context) (ctx_atMs context) s e nextState true None)
  end.

(** ** Sessions: runs of the machine *)

Definition run_events (es : list SshSessionTransitionEvent) (s : SshSessionControlState) :
    SshSessionControlState :=
  foldl (fun s e => state (transitionSshSessionState s e (Context_ 0 0))) s es.

(** The log of a run, one entry per attempted event. *)
Fixpoint run_log (now seq : Z) (es : list SshSessionTransitionEvent)
    (s : SshSessionControlState) : list SshSessionTransitionLogEntry :=
  match es with
  | [] => []
  | e :: es =>
      let r := transitionSshSessionState s e (Context_ seq now) in
      entry r :: run_log now (seq + 1) es (state r)
  end.

(** The declarative step relation of the lifecycle ([SshSessionTransitionMap]). *)
Inductive legal : SshSessionControlState -> SshSessionTransitionEvent -> SshSessionControlState -> Prop :=
| legal_start : legal offline start_connect connecting
| legal_connected : legal connecting connect_succeeded connected
| legal_failed : legal connecting connect_failed offline
| legal_attach : legal connected attach attached
| legal_detach : legal attached detach connected
| legal_lost s : s ∈ [connected; attached; replaying] -> legal s connection_lost reconnecting
| legal_disconnect s : s <> offline -> legal s disconnect offline
| legal_reconnected : legal reconnecting reconnect_succeeded connected
| legal_gave_up : legal reconnecting reconnect_failed offline
| legal_replay : legal reconnecting begin_replay replaying
| legal_replayed : legal replaying replay_completed attached
| legal_replay_failed : legal replaying replay_failed connected.

(** ** Lemmas *)

Lemma lookup_legal s e s' : lookup_transition s e = Some s' <-> legal s e s'.
Proof.
  split.
  - destruct s, e; simpl; intros [= <-]; constructor; done || set_solver.
  - destruct 1 as [| | | | |s Hs|s Hs| | | | |]; try reflexivity.
    + by repeat (apply elem_of_cons in Hs as [->|Hs]; [reflexivity|]); apply elem_of_nil in Hs.
    + by destruct s.
Qed.

Lemma isTransitionAllowed_lookup s e :
  isTransitionAllowed s e = true <-> exists s', lookup_transition s e = Some s'.
Proof. destruct s, e; vm_compute; split; try done; try (by eexists); by intros [? ?]. Qed.

(** ** Properties *)

(** The transition function implements the lifecycle exactly: it accepts an
    event if and only if the lifecycle has that step, then moves to its target;
    otherwise it stays where it is and logs a rejection; and the log entry
    records the source, the event and the resulting state with the caller's
    sequence number and time. *)
Theorem transition_exact (s : SshSessionControlState) (e : SshSessionTransitionEvent)
    (context : SshSessionTransitionContext) :
  let r := transitionSshSessionState s e context in
  (isTransitionAllowed s e = true <-> exists s', legal s e s') /\
  (accepted (entry r) = isTransitionAllowed s e) /\
  (accepted (entry r) = true -> legal s e (state r) /\ changed r = true /\ reason (entry r) = None) /\
  (accepted (entry r) = false ->
     state r = s /\ changed r = false /\ reason (entry r) = Some "invalid_transition") /\
  log_from (entry r) = s /\ log_to (entry r) = state r /\ log_event (entry r) = e /\
  log_sequence (entry r) = ctx_sequence context /\ log_atMs (entry r) = ctx_atMs context.
Proof.
  cbv zeta. unfold transitionSshSessionState.
  assert (Hall : isTransitionAllowed s e = true <-> exists s', legal s e s').
  { rewrite isTransitionAllowed_lookup. by setoid_rewrite lookup_legal. }
  destruct (lookup_transition s e) as [s'|] eqn:Hl; simpl.
  - assert (Ha : isTransitionAllowed s e = true) by (apply isTransitionAllowed_lookup; eauto).
    rewrite Ha. pose proof (proj1 (lookup_legal _ _ _) Hl) as Hlegal.
    rewrite Ha in Hall. split; [exact Hall|]. split_and!; try done. intros _. split_and!; try done.
    rewrite bool_decide_false; [done|]. intros ->. clear -Hl. by destruct s, e; vm_compute in Hl.
  - assert (Ha : isTransitionAllowed s e = false).
    { apply not_true_is_false. rewrite isTransitionAllowed_lookup. intros [s' Hs']. congruence. }
    rewrite Ha in Hall |- *. split; [exact Hall|]. by split_and!.
Qed.

(** Input is never enabled behind the user's back: whatever the events, the
    session is in the input-enabled state only right after an accepted [attach]
    or [replay_completed], or after rejected events following one; and from every
    state but [offline] one [disconnect] leads to [offline]. *)
Theorem input_requires_attach (es : list SshSessionTransitionEvent) :
  (isInputEnabledState (run_events es SSH_SESSION_INITIAL_STATE) = true ->
     exists before e after s,
       es = before ++ e :: after /\ (e = attach \/ e = replay_completed) /\
       s = run_events before SSH_SESSION_INITIAL_STATE /\ legal s e attached /\
       canEnableInputFromState s = true /\
       forall k, run_events (take k after) attached = attached) /\
  run_events (es ++ [disconnect]) SSH_SESSION_INITIAL_STATE = offline.
Proof.
  split.
  - intros H. apply bool_decide_eq_true in H.
    assert (Hgen : forall es, run_events es offline = attached ->
      exists before e after, es = before ++ e :: after /\ (e = attach \/ e = replay_completed) /\
       legal (run_events before offline) e attached /\
       canEnableInputFromState (run_events before offline) = true /\
       forall k, run_events (take k after) attached = attached).
    { clear. intros es. induction es as [|e es IH] using rev_ind; intros Hrun; [done|].
      unfold run_events in Hrun. rewrite foldl_snoc in Hrun. fold (run_events es offline) in Hrun.
      unfold transitionSshSessionState in Hrun.
      destruct (lookup_transition (run_events es offline) e) as [s'|] eqn:Hl; simpl in Hrun.
      - subst s'. exists es, e, []. pose proof (proj1 (lookup_legal _ _ _) Hl) as Hlegal.
        split_and!; [done| |done| |by intros []].
        + inversion Hlegal; auto.
        + revert Hlegal. generalize (run_events es offline). intros t Hlegal. by inversion Hlegal.
      - destruct (IH Hrun) as (before & e' & after & -> & He & Hlegal & Hcan & Hstay).
        exists before, e', (after ++ [e]). split_and!; [by rewrite <- app_assoc|done..|].
        intros k. destruct (decide (k <= length after)%nat).
        + by rewrite take_app_le.
        + rewrite take_ge by (rewrite length_app; simpl; lia).
          unfold run_events. rewrite foldl_snoc. fold (run_events after attached).
          pose proof (Hstay (length after)) as Hall. rewrite take_ge in Hall by lia. rewrite Hall.
          rewrite Hrun in Hl. unfold transitionSshSessionState. by rewrite Hl. }
    destruct (Hgen es H) as (before & e & after & H1 & H2 & H3 & H4 & H5).
    exists before, e, after, (run_events before SSH_SESSION_INITIAL_STATE). done.
  - unfold run_events. rewrite foldl_snoc. by destruct (foldl _ _ es).
Qed.
