(* ===== verification/SshTarget.v ===== *)
(** * SSH targets and profile names ([src/ssh/ssh-target.ts])

    [isIP] of [node:net] is a parameter; what the theorems need of it is that an
    address has only address characters and does not start with a dash. *)

From S2P Require Import Prelude.
Local Open Scope Z_scope.

(** ** The code *)

(** The three patterns, all anchored at both ends. *)
Definition USER_SEGMENT_PATTERN (s : string) : bool :=
  negb (is_empty s) && str_forallb (fun c => is_alnum c || one_of "._-" c) s.

Definition HOST_LABEL_PATTERN (s : string) : bool :=
  negb (is_empty s) && str_forallb (fun c => is_alnum c || one_of "-" c) s.

Definition PROFILE_NAME_PATTERN (s : string) : bool :=
  match s with
  | EmptyString => false
  | String c r =>
      is_alnum c && str_forallb (fun c => is_alnum c || one_of "._-" c) r && (str_len r <=? 127)
  end.

Record ParsedSshTarget : Type := Target {
  user : option string;
  host : string;
  target_raw : string
}.

(** [/\s/.test(s)]. *)
Definition has_space (s : string) : bool := negb (str_forallb (fun c => negb (is_space c)) s).

(** [/^\d+\.\d+\.\d+\.\d+$/]. *)
Definition dotted_quad (s : string) : bool :=
  let parts := split_on "." s in
  (length parts =? 4)%nat && forallb (fun p => negb (is_empty p) && str_forallb is_num p) parts.

Definition isValidLabel (label : string) : bool :=
  negb ((str_len label =? 0) || (63 <? str_len label)) && HOST_LABEL_PATTERN label &&
  negb (starts_with "-" label || ends_with "-" label).

Definition isValidHostname (hostname : string) : bool :=
  if (str_len hostname =? 0) || (253 <? str_len hostname) then false
  else if starts_with "." hostname || ends_with "." hostname then false
  else forallb isValidLabel (split_on "." hostname).

Section IsIP.
(** [net.isIP]: 4, 6 or 0. *)
Variable isIP : string -> Z.

Definition isValidSshHost (rawHost : string) : bool :=
  if starts_with "[" rawHost || ends_with "]" rawHost then
    if negb (starts_with "[" rawHost) || negb (ends_with "]" rawHost) then false
    else
      (* rawHost.slice(1, -1) *)
      let ipv6 := str_take (String.length rawHost - 2) (str_drop 1 rawHost) in
      (0 <? str_len ipv6) && (isIP ipv6 =? 6)
  else if includes ":" rawHost then false
  else if isIP rawHost =? 4 then true
  else if dotted_quad rawHost then false
  else isValidHostname rawHost.

Definition parseSshTarget (raw : string) : result string ParsedSshTarget :=
  if str_len raw =? 0 then Throw "SSH target must not be empty."
  else if has_space raw then Throw "SSH target must not contain whitespace."
  else
    let check_host := fun user host =>
      if str_len host =? 0 then Throw "SSH target host is missing."
      else if negb (isValidSshHost host) then Throw "SSH target host is invalid."
      else Ok (Target user host raw) in
    match index_of "@" raw with
    | Some firstAt =>
        if negb (bool_decide (last_index_of "@" raw = Some firstAt))
        then Throw "SSH target must contain at most one '@' separator."
        else
          let user := str_take firstAt raw in
          let host := str_drop (firstAt + 1) raw in
          if str_len user =? 0 then Throw "SSH target user is missing before '@'."
          else if negb (USER_SEGMENT_PATTERN user)
          then Throw "SSH target user contains unsupported characters."
          else check_host (Some user) host
    | None => check_host None raw
    end.
End IsIP.

Definition isValidSshProfileName (raw : string) : bool :=
  if negb (PROFILE_NAME_PATTERN raw) then false
  else if has_space raw then false
  else if includes "@" raw then false
  else true.

(** ** Specification *)

(** The characters that may reach a command line through a target. *)
Definition target_char (c : ascii) : bool := is_alnum c || one_of "._-@[]:%" c.

(** What is used of [net.isIP]: an address consists of address characters and does
    not start with a dash. *)
Definition isIP_documented (isIP : string -> Z) : Prop :=
  forall s, isIP s <> 0 ->
    str_forallb (fun c => is_alnum c || one_of ".:%-" c) s = true /\ starts_with "-" s = false.

(** ** Lemmas *)

(** A statement about every character, by computation. *)
Ltac by_char := let c := fresh "c" in intros c; by destruct c as [[] [] [] [] [] [] [] []].


Lemma split_on_forallb f c s :
  f c = true -> Forall (fun p => str_forallb f p = true) (split_on c s) -> str_forallb f s = true.
Proof.
  intros Hc. induction s as [|d s IH]; simpl; [done|].
  destruct (Ascii.eqb_spec c d) as [->|Hne].
  - intros [_ H]%Forall_cons. by rewrite Hc, IH.
  - destruct (split_on c s) as [|w ws] eqn:Hs; intros [H1 H2]%Forall_cons; simpl in H1;
      apply andb_true_iff in H1 as [-> H1]; simpl; apply IH; [constructor|by constructor].
Qed.

Lemma split_on_head_dash s :
  Forall (fun p => starts_with "-" p = false) (split_on "." s) -> starts_with "-" s = false.
Proof.
  destruct s as [|d s]; [done|]. cbn [split_on].
  destruct (Ascii.eqb_spec "." d) as [<-|Hne]; [done|].
  destruct (split_on "." s) as [|w ws]; intros [H1 _]%Forall_cons; done.
Qed.

Lemma valid_label_chars p :
  isValidLabel p = true ->
  str_forallb target_char p = true /\ starts_with "-" p = false.
Proof.
  unfold isValidLabel, HOST_LABEL_PATTERN. rewrite !andb_true_iff.
  intros [[_ [_ Hc]] Hd]. split.
  - eapply str_forallb_impl; [|exact Hc]. by_char.
  - by destruct (starts_with "-" p).
Qed.

Lemma hostname_safe s :
  isValidHostname s = true -> str_forallb target_char s = true /\ starts_with "-" s = false.
Proof.
  unfold isValidHostname. repeat case_match; try done. intros Hf.
  assert (Forall (fun p => str_forallb target_char p = true /\ starts_with "-" p = false) (split_on "." s)) as Hall.
  { apply Forall_forall. intros p Hp. apply valid_label_chars.
    rewrite forallb_forall in Hf. apply Hf. by apply list_elem_of_In. }
  split.
  - apply (split_on_forallb target_char "."); [done|]. by eapply Forall_impl; [exact Hall|intros ? []].
  - apply split_on_head_dash. by eapply Forall_impl; [exact Hall|intros ? []].
Qed.

(** A bracketed string: its brackets and what they enclose. *)
Lemma bracketed s :
  starts_with "[" s = true -> ends_with "]" s = true ->
  s = ("[" +:+ str_take (String.length s - 2) (str_drop 1 s) +:+ "]")%string.
Proof.
  intros [b ->]%starts_with_iff [a Ha]%ends_with_iff.
  destruct a as [|c a].
  - by rewrite str_app_nil_l, str_app_cons in Ha.
  - rewrite !str_app_cons, !str_app_nil_l in *. injection Ha as <- ->. simpl.
    rewrite str_app_length. simpl.
    replace (String.length a + 1 - 1)%nat with (String.length a) by lia.
    by rewrite str_take_app.
Qed.

Section Safe.
Variable isIP : string -> Z.
Hypothesis isIP_ok : isIP_documented isIP.

Lemma address_chars s :
  isIP s <> 0 -> str_forallb target_char s = true /\ starts_with "-" s = false.
Proof.
  intros [Hc Hd]%isIP_ok. split; [|done]. eapply str_forallb_impl; [|exact Hc]. by_char.
Qed.

Lemma host_safe h :
  isValidSshHost isIP h = true -> str_forallb target_char h = true /\ starts_with "-" h = false.
Proof.
  unfold isValidSshHost. case_match eqn:Hb.
  - destruct (starts_with "[" h) eqn:Hl, (ends_with "]" h) eqn:Hr; try done. cbn [negb orb].
    rewrite andb_true_iff. intros [_ Hip%Z.eqb_eq].
    destruct (address_chars (str_take (String.length h - 2) (str_drop 1 h))) as [Hc _]; [lia|].
    rewrite (bracketed h Hl Hr). rewrite !str_forallb_app, Hc. done.
  - destruct (includes ":" h); [done|]. destruct (Z.eqb_spec (isIP h) 4) as [H4|_].
    + intros _. apply address_chars. lia.
    + destruct (dotted_quad h); [done|]. apply hostname_safe.
Qed.

Lemma user_safe u : USER_SEGMENT_PATTERN u = true -> str_forallb target_char u = true.
Proof.
  unfold USER_SEGMENT_PATTERN. rewrite andb_true_iff. intros [_ Hc].
  eapply str_forallb_impl; [|exact Hc]. by_char.
Qed.

(** An accepted target is the text that was given, split at its only ['@'] into
    a non-empty user and a valid host; every character of it is a letter, a digit or
    one of [._-@[]:%], so nothing a shell or a word splitter treats specially gets
    through, and the host never starts with a dash.  Without a user, the whole
    target therefore cannot be taken for a command-line option. *)
Theorem ssh_target_safe raw t :
  parseSshTarget isIP raw = Ok t ->
  target_raw t = raw /\ str_forallb target_char raw = true /\
  isValidSshHost isIP (host t) = true /\ starts_with "-" (host t) = false /\
  match user t with
  | Some u => raw = (u +:+ "@" +:+ host t)%string /\ u <> EmptyString /\ index_of "@" u = None
  | None => raw = host t /\ starts_with "-" raw = false
  end.
Proof.
  unfold parseSshTarget. repeat case_match; try done; intros [= <-]; simplify_eq/=.
  - match goal with H : index_of _ raw = Some _ |- _ => apply index_of_split in H as [Heq Hu] end.
    rewrite !negb_false_iff in *.
    match goal with H : isValidSshHost _ _ = true |- _ => pose proof H as Hh; apply host_safe in H as [Hc Hd] end.
    rewrite ?Nat.add_1_r in *. split_and!; try done.
    + rewrite Heq, str_forallb_app. cbn [str_forallb].
      rewrite Hc, user_safe; done.
    + intros He. rewrite He in *. done.
  - rewrite !negb_false_iff in *.
    match goal with H : isValidSshHost _ _ = true |- _ => pose proof H as Hh; apply host_safe in H as [Hc Hd] end.
    by split_and!.
Qed.
End Safe.

(** A concrete address recogniser for the witnesses: one loopback address each. *)
Definition demo_isIP (s : string) : Z :=
  if bool_decide (s = "127.0.0.1") then 4 else if bool_decide (s = "::1") then 6 else 0.

Lemma demo_isIP_documented : isIP_documented demo_isIP.
Proof.
  intros s. unfold demo_isIP. repeat case_bool_decide; subst; [done|done|done].
Qed.

Lemma ssh_target_safe_witness :
  parseSshTarget demo_isIP "dev@[::1]" = Ok (Target (Some "dev") "[::1]" "dev@[::1]") /\
  str_forallb target_char "dev@[::1]" = true.
Proof.
  split; [vm_compute; reflexivity|].
  apply (ssh_target_safe demo_isIP demo_isIP_documented "dev@[::1]" (Target (Some "dev") "[::1]" "dev@[::1]")).
  vm_compute. reflexivity.
Defined.

(** With a user part the target may start with a dash: the user pattern admits it. *)
Lemma dashed_user_accepted :
  parseSshTarget demo_isIP "-oProxyCommand@host" =
    Ok (Target (Some "-oProxyCommand") "host" "-oProxyCommand@host").
Proof. vm_compute. reflexivity. Qed.

(** An accepted profile name is 1 to 128 characters long, consists of letters,
    digits and [._-], and does not start with a dash; and every such name is
    accepted: the whitespace and ['@'] checks after the pattern never fire. *)
Theorem profile_name_iff raw :
  isValidSshProfileName raw = true <->
  0 < str_len raw <= 128 /\
  str_forallb (fun c => is_alnum c || one_of "._-" c) raw = true /\
  (forall c r, raw = String c r -> is_alnum c = true).
Proof.
  assert (Hpat : PROFILE_NAME_PATTERN raw = true <->
    0 < str_len raw <= 128 /\ str_forallb (fun c => is_alnum c || one_of "._-" c) raw = true /\
    (forall c r, raw = String c r -> is_alnum c = true)).
  { destruct raw as [|c r]; unfold PROFILE_NAME_PATTERN, str_len; simpl; [split; [done|lia]|].
    rewrite !andb_true_iff, Z.leb_le. split.
    - intros [[Hc Hr] Hl]. rewrite Hc. split; [lia|]. split; [done|]. by intros ?? [= <- _].
    - intros (Hl & [_ Hr] & Hc). rewrite (Hc c r eq_refl). split; [done|lia]. }
  rewrite <- Hpat. unfold isValidSshProfileName. split; [by destruct (PROFILE_NAME_PATTERN raw)|].
  intros Hp. rewrite Hp. cbn [negb]. apply Hpat in Hp as (_ & Hc & _).
  assert (Hs : has_space raw = false).
  { unfold has_space. rewrite negb_false_iff. eapply str_forallb_impl; [|exact Hc]. by_char. }
  rewrite Hs.
  assert (Ha : includes "@" raw = false); [|by rewrite Ha].
  clear Hs Hpat. induction raw as [|c r IH]; [done|]. simpl in Hc |- *.
  apply andb_true_iff in Hc as [Hc Hr]. rewrite IH by done.
  by destruct c as [[] [] [] [] [] [] [] []].
Qed.
