(* ===== verification/Process.v ===== *)
(** * Code that runs external commands

    An asynchronous method that starts child processes and waits for them is a
    [proc]: a tree of the commands it runs, each with the continuation for the
    reply.  [S] is the mutable state of the object the method belongs to.
    [exec] runs one [proc] against an environment that answers every command,
    possibly depending on all the commands run before. *)

From S2P Require Import Prelude.
Local Open Scope Z_scope.

Create HintDb proc.

(** A thrown [Error] object: [message] and, for a failed child process, [stderr]. *)
Record js_error : Type := JsError {
  err_message : string;
  err_stderr : option string
}.

#[export] Instance js_error_eq_dec : EqDecision js_error.
Proof. solve_decision. Defined.

Definition Error (message : string) : js_error := JsError message None.

(** One started process: [runCommand] and [runCommandWithInput]. *)
Inductive call : Type :=
| Command (command : string) (args : list string) (timeoutMs : Z)
| CommandWithInput (command : string) (args : list string) (input : string) (timeoutMs : Z).

#[export] Instance call_eq_dec : EqDecision call.
Proof. solve_decision. Defined.

(** Standard output, or the error the promise is rejected with. *)
Abbreviation reply := (result js_error string).

Inductive proc (S A : Type) : Type :=
| Return (a : A)
| Reject (e : js_error)
| GetState (k : S -> proc S A)
| SetState (s : S) (k : proc S A)
| Call (c : call) (k : reply -> proc S A).

Arguments Return {S A}.
Arguments Reject {S A}.
Arguments GetState {S A}.
Arguments SetState {S A}.
Arguments Call {S A}.

#[export] Instance proc_ret S : MRet (proc S) := fun A a => Return a.
#[export] Instance proc_bind S : MBind (proc S) :=
  fun A B f =>
    fix bind m :=
      match m with
      | Return a => f a
      | Reject e => Reject e
      | GetState k => GetState (fun s => bind (k s))
      | SetState s k => SetState s (bind k)
      | Call c k => Call c (fun r => bind (k r))
      end.

#[export] Instance proc_fmap S : FMap (proc S) := fun A B f m => m ≫= fun a => mret (f a).

(** [try { p } catch (e) { h(e) }]. *)
Fixpoint try_catch {S A} (p : proc S A) (h : js_error -> proc S A) : proc S A :=
  match p with
  | Return a => Return a
  | Reject e => h e
  | GetState k => GetState (fun s => try_catch (k s) h)
  | SetState s k => SetState s (try_catch k h)
  | Call c k => Call c (fun r => try_catch (k r) h)
  end.

(** [await runCommandImpl(...)]. *)
Definition await_call {S} (c : call) : proc S string :=
  Call c (fun r => match r with Ok out => Return out | Throw e => Reject e end).

(** What the outside world answers, given the commands it has run so far. *)
Abbreviation world := (list call -> call -> reply).

Fixpoint exec {S A} (w : world) (st : S) (hist : list call) (p : proc S A) :
    S * list call * result js_error A :=
  match p with
  | Return a => (st, hist, Ok a)
  | Reject e => (st, hist, Throw e)
  | GetState k => exec w st hist (k st)
  | SetState s k => exec w s hist k
  | Call c k => exec w st (hist ++ [c]) (k (w hist c))
  end.

Lemma exec_bind {S A B} w (st : S) hist (p : proc S A) (f : A -> proc S B) :
  exec w st hist (p ≫= f) =
    match exec w st hist p with
    | (st', hist', Ok a) => exec w st' hist' (f a)
    | (st', hist', Throw e) => (st', hist', Throw e)
    end.
Proof.
  revert st hist. induction p as [a|e|k IH|s k IH|c k IH]; intros st hist; simpl; try done;
    apply IH.
Qed.

Lemma exec_try_catch {S A} w (st : S) hist (p : proc S A) h :
  exec w st hist (try_catch p h) =
    match exec w st hist p with
    | (st', hist', Ok a) => (st', hist', Ok a)
    | (st', hist', Throw e) => exec w st' hist' (h e)
    end.
Proof.
  revert st hist. induction p as [a|e|k IH|s k IH|c k IH]; intros st hist; simpl; try done;
    apply IH.
Qed.

Lemma exec_await_call {S} w (st : S) hist c :
  exec w st hist (await_call c) = (st, hist ++ [c], w hist c).
Proof. simpl. by destruct (w hist c). Qed.

(** Commands are only ever appended. *)
Lemma exec_hist {S A} w (st : S) hist (p : proc S A) :
  exists cs, (exec w st hist p).1.2 = hist ++ cs.
Proof.
  revert st hist. induction p as [a|e|k IH|s k IH|c k IH]; intros st hist; simpl.
  - exists []. by rewrite app_nil_r.
  - exists []. by rewrite app_nil_r.
  - apply IH.
  - apply IH.
  - destruct (IH (w hist c) st (hist ++ [c])) as [cs ->]. exists (c :: cs). by rewrite <- app_assoc.
Qed.

(** Every command the code can run, whatever it is answered, satisfies [Q]. *)
Fixpoint all_calls {S A} (Q : call -> Prop) (p : proc S A) : Prop :=
  match p with
  | Return _ | Reject _ => True
  | GetState k => forall s, all_calls Q (k s)
  | SetState _ k => all_calls Q k
  | Call c k => Q c /\ forall r, all_calls Q (k r)
  end.

Lemma all_calls_bind {S A B} Q (p : proc S A) (f : A -> proc S B) :
  all_calls Q p -> (forall a, all_calls Q (f a)) -> all_calls Q (p ≫= f).
Proof. intros Hp Hf. induction p; simpl in *; try done; naive_solver. Qed.

Lemma all_calls_try {S A} Q (p : proc S A) h :
  all_calls Q p -> (forall e, all_calls Q (h e)) -> all_calls Q (try_catch p h).
Proof. intros Hp Hf. induction p; simpl in *; try done; naive_solver. Qed.

Lemma all_calls_await {S} (Q : call -> Prop) c : Q c -> all_calls (S := S) Q (await_call c).
Proof. intros HQ. split; [done|]. by intros []. Qed.

Lemma exec_all_calls {S A} Q w (st : S) hist (p : proc S A) st' hist' r :
  all_calls Q p -> exec w st hist p = (st', hist', r) ->
  exists cs, hist' = hist ++ cs /\ Forall Q cs.
Proof.
  revert st hist. induction p as [a|e|k IH|s k IH|c k IH]; intros st hist; simpl.
  - intros _ [= <- <- <-]. exists []. by rewrite app_nil_r.
  - intros _ [= <- <- <-]. exists []. by rewrite app_nil_r.
  - intros Hk. by apply IH.
  - intros Hk. by apply IH.
  - intros [HQ Hk] Hex. destruct (IH _ _ _ (Hk _) Hex) as (cs & -> & Hcs).
    exists (c :: cs). rewrite <- app_assoc. split; [done|]. by constructor.
Qed.

#[export] Hint Resolve all_calls_bind all_calls_try all_calls_await : proc.

(** Reading of [/no server running/i] and [/error connecting to .*default/i]: [.]
    stops at a line break. *)
Fixpoint first_line (s : string) : string :=
  match s with
  | EmptyString => EmptyString
  | String c r => if one_of (String "010" (String "013" "")) c then EmptyString else String c (first_line r)
  end.

Fixpoint matches_error_connecting (s : string) : bool :=
  (starts_with "error connecting to " s && includes "default" (first_line (str_drop 20 s))) ||
  match s with
  | EmptyString => false
  | String _ r => matches_error_connecting r
  end.

Definition matches_no_server (s : string) : bool :=
  let s := to_lower s in includes "no server running" s || matches_error_connecting s.
