(* ===== verification/Tmux.v ===== *)
(** * tmux adapter ([src/tmux/tmux-adapter.ts])

    The local and the SSH adapter drive tmux with the same argument vectors and
    read its output in the same way; the code has the two copies, the shared
    part is a section over the way one tmux command is run. *)

From S2P Require Import Prelude Process.
Local Open Scope Z_scope.

Definition tab : string := String "009" "".
Definition newline : string := String "010" "".

Definition PANE_FORMAT : string :=
  join tab ["#{session_name}"; "#{window_index}"; "#{window_name}"; "#{pane_index}";
            "#{pane_id}"; "#{pane_title}"; "#{pane_current_command}"].

Record TmuxPane : Type := Pane {
  sessionName : string;
  windowIndex : num;
  windowName : string;
  paneIndex : num;
  paneId : string;
  paneTitle : string;
  currentCommand : string
}.

#[export] Instance TmuxPane_eq_dec : EqDecision TmuxPane.
Proof. solve_decision. Defined.

(** The object as the server sees it. *)
Definition pane_object (p : TmuxPane) : pane_row :=
  [("sessionName", JStr (sessionName p)); ("windowIndex", JNum (windowIndex p));
   ("windowName", JStr (windowName p)); ("paneIndex", JNum (paneIndex p));
   ("paneId", JStr (paneId p)); ("paneTitle", JStr (paneTitle p));
   ("currentCommand", JStr (currentCommand p))].

(** [n || 0] for a number. *)
Definition num_or_0 (n : num) : num :=
  match n with NaN => num_of_Z 0 | Fin 0 _ => num_of_Z 0 | n => n end.

(** One output line; a missing field reads as [undefined]. *)
Definition parse_line (line : string) : option TmuxPane :=
  let fields := split_on "009" line in
  match fields with
  | sessionName :: windowIndex :: windowName :: paneIndex :: paneId :: rest =>
      if is_empty paneId then None
      else
        Some (Pane sessionName (num_or_0 (parse_int windowIndex)) windowName
                (num_or_0 (parse_int paneIndex)) paneId
                (default "" (rest !! 0%nat)) (default "" (rest !! 1%nat)))
  | _ => None
  end.

(** The lines of the output, trimmed, without the empty ones. *)
Definition output_lines (stdout : string) : list string :=
  filter (fun line => is_empty line = false) (trim <$> split_on "010" stdout).

Definition parse_panes (stdout : string) : list TmuxPane :=
  omap parse_line (output_lines stdout).

Definition list_args : list string := ["list-panes"; "-a"; "-F"; PANE_FORMAT].

(** [Math.min(-1, -Math.abs(lines))]. *)
Definition capture_args (paneId : string) (lines : Z) : list string :=
  let fromLine := Z.min (-1) (- Z.abs lines) in
  ["capture-pane"; "-p"; "-J"; "-S"; int_to_string fromLine; "-t"; paneId].

Definition literal_args (paneId line : string) : list string :=
  ["send-keys"; "-t"; paneId; "-l"; "--"; line].
Definition enter_args (paneId : string) : list string := ["send-keys"; "-t"; paneId; "C-m"].

Section Client.
Context {S : Type} (run : list string -> proc S string).

Definition run_isAvailable (version_args : list string) : proc S bool :=
  try_catch (_ ← run version_args; mret true) (fun _ => mret false).

Definition run_listPanes (isNoServerError : js_error -> bool) : proc S (list TmuxPane) :=
  stdout ← try_catch (out ← run list_args; mret (Some out))
    (fun e => if isNoServerError e then mret None else Reject e);
  match stdout with
  | None => mret []
  | Some stdout => mret (parse_panes stdout)
  end.

Definition run_capturePane (paneId : string) (lines : Z) : proc S string :=
  run (capture_args paneId lines).

(** The loop over the lines: [i < lines.length - 1] holds while a line follows. *)
Fixpoint send_lines (paneId : string) (lines : list string) : proc S unit :=
  match lines with
  | [] => mret tt
  | line :: rest =>
      _ ← (if is_empty line then mret tt else _ ← run (literal_args paneId line); mret tt);
      match rest with
      | [] => mret tt
      | _ => _ ← run (enter_args paneId); send_lines paneId rest
      end
  end.

Definition run_sendInput (paneId rawInput : string) : proc S unit :=
  send_lines paneId (split_on "010" rawInput).
End Client.

(** ** The local adapter *)

Record TmuxAdapterOptions : Type := { opt_commandTimeoutMs : option Z }.

Record TmuxAdapter : Type := Adapter { commandTimeoutMs : Z }.

Definition newTmuxAdapter (options : TmuxAdapterOptions) : TmuxAdapter :=
  Adapter (default 6000 (opt_commandTimeoutMs options)).

(** [stderr in error ? String(error.stderr ?? "") : ""]. *)
Definition isNoServerError (error : js_error) : bool :=
  matches_no_server (default "" (err_stderr error)).

Section Adapter.
Context {S : Type} (adapter : TmuxAdapter).

Definition run_tmux (args : list string) : proc S string :=
  await_call (Command "tmux" args (commandTimeoutMs adapter)).

Definition isAvailable : proc S bool := run_isAvailable run_tmux ["-V"].
Definition listPanes : proc S (list TmuxPane) := run_listPanes run_tmux isNoServerError.
Definition capturePane (paneId : string) (lines : Z) : proc S string :=
  run_capturePane run_tmux paneId lines.
Definition sendInput (paneId rawInput : string) : proc S unit :=
  run_sendInput run_tmux paneId rawInput.
End Adapter.

(** ** What tmux is told *)

(** tmux itself is outside: [types pane args] is what the command with the argument
    vector [args] types into [pane], [None] when it does anything else.  What the
    code relies on is what the manual says of [send-keys]: with [-l] the argument is
    typed as it is, and [C-m] is the Enter key.  An argument that ends with a
    semicolon is excepted: tmux takes the semicolon as the end of the command. *)
Definition ends_command (arg : string) : bool := ends_with ";" arg.

Definition carriage_return : string := String "013" "".

Record send_keys_documented (types : string -> list string -> option string) : Prop := {
  types_literal pane text : ends_command pane = false -> ends_command text = false ->
    types pane (literal_args pane text) = Some text;
  types_enter pane : ends_command pane = false -> types pane (enter_args pane) = Some carriage_return
}.

(** The keys of an input: its characters, with Enter for a newline. *)
Definition keys_of (input : string) : string :=
  str_map (fun c => if Ascii.eqb "010" c then "013"%char else c) input.

(** A pane and an input that tmux does not cut at a semicolon. *)
Definition sendable (pane input : string) : Prop :=
  ends_command pane = false /\ Forall (fun line => ends_command line = false) (split_on "010" input).

(** The vectors of one [sendInput] when every command succeeds. *)
Fixpoint input_args (pane : string) (lines : list string) : list (list string) :=
  match lines with
  | [] => []
  | line :: rest =>
      (if is_empty line then [] else [literal_args pane line]) ++
      match rest with [] => [] | _ => enter_args pane :: input_args pane rest end
  end.

(** What a sequence of vectors types into the pane; [None] when one of them does
    anything else. *)
Section Keys.
Context (types : string -> list string -> option string).

Fixpoint typed (pane : string) (vs : list (list string)) : option string :=
  match vs with
  | [] => Some EmptyString
  | v :: vs =>
      match types pane v, typed pane vs with
      | Some a, Some b => Some (a +:+ b)%string
      | _, _ => None
      end
  end.

Lemma typed_app pane vs vs' a b :
  typed pane vs = Some a -> typed pane vs' = Some b -> typed pane (vs ++ vs') = Some (a +:+ b)%string.
Proof.
  revert a. induction vs as [|v vs IH]; intros a Ha Hb; simpl in *.
  - injection Ha as <-. by rewrite str_app_nil_l.
  - destruct (types pane v) as [x|]; [|done]. destruct (typed pane vs) as [y|]; [|done].
    injection Ha as <-. by rewrite (IH y), str_app_assoc.
Qed.

(** Every initial part of the vectors types an initial part of the text. *)
Lemma typed_prefix pane vs vs' s :
  typed pane (vs ++ vs') = Some s ->
  exists a b, typed pane vs = Some a /\ s = (a +:+ b)%string.
Proof.
  revert s. induction vs as [|v vs IH]; intros s; simpl.
  - intros _. exists EmptyString, s. by rewrite str_app_nil_l.
  - destruct (types pane v) as [x|]; [|done].
    destruct (typed pane (vs ++ vs')) as [y|]; [|done]. intros [= <-].
    destruct (IH y eq_refl) as (a & b & -> & ->). exists (x +:+ a)%string, b.
    by rewrite str_app_assoc.
Qed.

Context (Htypes : send_keys_documented types).

Lemma typed_input_args pane lines :
  ends_command pane = false -> Forall (fun line => ends_command line = false) lines ->
  typed pane (input_args pane lines) = Some (join carriage_return lines).
Proof.
  intros Hp. induction 1 as [|line rest Hline Hrest IH]; [done|]. cbn [input_args].
  assert (Hl : typed pane (if is_empty line then [] else [literal_args pane line]) = Some line).
  { destruct line as [|c line]; [done|]. cbn [is_empty typed]. rewrite (types_literal _ Htypes) by done.
    by rewrite str_app_nil_r. }
  destruct rest as [|b rest].
  - rewrite app_nil_r. done.
  - rewrite join_cons2. apply (typed_app _ _ _ line); [done|]. cbn [typed].
    by rewrite IH, (types_enter _ Htypes).
Qed.
End Keys.

Lemma keys_of_lines input : join carriage_return (split_on "010" input) = keys_of input.
Proof.
  unfold keys_of. induction input as [|d s IH]; [done|]. cbn [split_on str_map].
  pose proof (split_on_not_nil "010" s). destruct (split_on "010" s) as [|w ws] eqn:Hs; [done|].
  destruct (Ascii.eqb "010" d).
  - rewrite join_cons2, IH. done.
  - destruct ws as [|w' ws]; rewrite <- IH; [done|]. by rewrite !join_cons2, str_app_cons.
Qed.

Section RunSpec.
Context {S : Type} (w : world) (run : list string -> proc S string).
(** How to read the tmux vector off a command that was run. *)
Context (decode : call -> option (list string)).

(** One run of a vector: on success exactly that vector reached tmux; on failure
    at most that vector did. *)
Definition run_spec : Prop :=
  forall args st hist, exists st' cs r,
    exec w st hist (run args) = (st', hist ++ cs, r) /\
    match r with
    | Ok _ => omap decode cs = [args]
    | Throw _ => omap decode cs = [] \/ omap decode cs = [args]
    end.

Context (types : string -> list string -> option string) (Htypes : send_keys_documented types).
Hypothesis run_ok : run_spec.

Lemma send_lines_prefix pane lines st hist :
  exists st' cs r done rest,
    exec w st hist (send_lines run pane lines) = (st', hist ++ cs, r) /\
    omap decode cs = done /\ input_args pane lines = done ++ rest /\
    (r = Ok tt -> rest = []).
Proof.
  revert st hist. induction lines as [|line rest IH]; intros st hist.
  { exists st, [], (Ok tt), [], []. simpl. by rewrite app_nil_r. }
  cbn [send_lines input_args].
  set (L := if is_empty line then [] else [literal_args pane line]).
  assert (HL : exists st1 cs1 r1 d1 e1,
    exec w st hist (if is_empty line then mret tt else _ ← run (literal_args pane line); mret tt)
      = (st1, hist ++ cs1, r1) /\
    omap decode cs1 = d1 /\ L = d1 ++ e1 /\ (r1 = Ok tt -> e1 = [])).
  { subst L. destruct (is_empty line).
    - exists st, [], (Ok tt), [], []. simpl. by rewrite app_nil_r.
    - destruct (run_ok (literal_args pane line) st hist) as (s1 & c1 & q1 & Hex & Hd).
      rewrite exec_bind, Hex. destruct q1 as [out|e].
      + exists s1, c1, (Ok tt), [literal_args pane line], []. rewrite app_nil_r. by split_and!.
      + exists s1, c1, (Throw e). destruct Hd as [Hd|Hd]; rewrite Hd; [exists [], [literal_args pane line]|
          exists [literal_args pane line], []]; by split_and!. }
  destruct HL as (s1 & c1 & r1 & d1 & e1 & Hex & Hd & -> & He).
  rewrite exec_bind, Hex. destruct r1 as [[]|e].
  2:{ eexists s1, c1, (Throw e), d1, _. rewrite <- app_assoc. by split_and!. }
  rewrite He by done. rewrite app_nil_r. clear He Hex.
  destruct rest as [|b rest].
  { exists s1, c1, (Ok tt), d1, []. by split_and!. }
  destruct (run_ok (enter_args pane) s1 (hist ++ c1)) as (s2 & c2 & q2 & Hex & Hd2).
  rewrite exec_bind, Hex. destruct q2 as [out|e].
  - destruct (IH s2 ((hist ++ c1) ++ c2)) as (s3 & c3 & q3 & d3 & e3 & Hex3 & Hd3 & Heq & He3).
    rewrite Hex3. exists s3, (c1 ++ c2 ++ c3), q3, (d1 ++ enter_args pane :: d3), e3.
    rewrite <- !app_assoc. split_and!; [done| |by rewrite Heq|done].
    by rewrite !omap_app, Hd, Hd2, Hd3.
  - exists s2, (c1 ++ c2), (Throw e). rewrite app_assoc.
    destruct Hd2 as [Hd2|Hd2]; [exists d1, (enter_args pane :: input_args pane (b :: rest))|
      exists (d1 ++ [enter_args pane]), (input_args pane (b :: rest))];
      (split_and!; [done|by rewrite omap_app, Hd, Hd2, ?app_nil_r|by rewrite <- ?app_assoc|done]).
Qed.

(** The keys typed are always an initial part of the input, all of it on success. *)
Lemma sendInput_types pane input st hist :
  sendable pane input ->
  exists st' cs r sent rest,
    exec w st hist (run_sendInput run pane input) = (st', hist ++ cs, r) /\
    typed types pane (omap decode cs) = Some sent /\ keys_of input = (sent +:+ rest)%string /\
    (r = Ok tt -> sent = keys_of input).
Proof.
  intros [Hp Hlines].
  destruct (send_lines_prefix pane (split_on "010" input) st hist)
    as (st' & cs & r & d & e & Hex & Hd & Heq & He).
  pose proof (typed_input_args types Htypes pane _ Hp Hlines) as Ht.
  rewrite keys_of_lines, Heq in Ht.
  destruct (typed_prefix _ _ _ _ _ Ht) as (a & b & Ha & Hk).
  exists st', cs, r, a, b. rewrite Hd. split_and!; [done..|].
  intros ->. rewrite He, app_nil_r in Ht by done. congruence.
Qed.

(** A line that ends with a semicolon is passed on without the backslash that tmux
    wants before it.  When tmux does what its parser of arguments does - it takes
    the semicolon off and ends the command there - the call succeeds and types the
    line without it. *)
Theorem trailing_semicolon_lost pane line st hist :
  ends_command pane = false -> index_of "010" line = None -> line <> EmptyString -> ends_command line = false ->
  (forall text, types pane (literal_args pane (text +:+ ";"))%string = types pane (literal_args pane text)) ->
  exists st' cs r,
    exec w st hist (run_sendInput run pane (line +:+ ";")%string) = (st', hist ++ cs, r) /\
    (r = Ok tt -> typed types pane (omap decode cs) = Some line).
Proof.
  intros Hp Hn Hne Hl Hcut.
  destruct (send_lines_prefix pane [line +:+ ";"]%string st hist)
    as (st' & cs & r & d & e & Hex & Hd & Heq & He).
  exists st', cs, r. unfold run_sendInput.
  rewrite split_on_none by (rewrite index_of_None_forallb, str_forallb_app in *; by rewrite Hn).
  split; [done|]. intros Hr. rewrite Hd. rewrite (He Hr), app_nil_r in Heq. rewrite <- Heq.
  destruct line as [|c line]; [done|]. rewrite str_app_cons in *. cbn [input_args is_empty app typed].
  rewrite <- str_app_cons, Hcut, (types_literal _ Htypes) by done. by rewrite str_app_nil_r.
Qed.
End RunSpec.

(** The vector of a command of the local adapter. *)
Definition local_vector (c : call) : option (list string) :=
  match c with
  | Command command args _ => if decide (command = "tmux") then Some args else None
  | CommandWithInput _ _ _ _ => None
  end.

Lemma run_tmux_spec {S} w adapter : run_spec (S := S) w (run_tmux adapter) local_vector.
Proof.
  intros args st hist. unfold run_tmux. rewrite exec_await_call.
  eexists st, [_], _. split; [done|]. simpl. destruct (w _ _); [done|by right].
Qed.

Lemma send_lines_calls {S} (Q : call -> Prop) (run : list string -> proc S string) pane lines :
  (forall args, all_calls Q (run args)) -> all_calls Q (send_lines run pane lines).
Proof.
  intros Hrun. induction lines as [|line rest IH]; [done|]. cbn [send_lines].
  apply all_calls_bind; [|intros _].
  - destruct (is_empty line); [done|]. by apply all_calls_bind.
  - destruct rest; [done|]. by apply all_calls_bind.
Qed.

(** Whatever tmux answers, [sendInput] runs only [tmux send-keys] for the given
    pane, and the keys typed are an initial part of the input in order, with Enter
    for each newline; when the call returns normally they are the whole input,
    character for character. *)
Theorem sendInput_types_exactly {S} types (w : world) (adapter : TmuxAdapter) pane input (st : S) hist :
  send_keys_documented types -> sendable pane input ->
  exists st' vs r sent rest,
    exec w st hist (sendInput adapter pane input) =
      (st', hist ++ ((fun v => Command "tmux" v (commandTimeoutMs adapter)) <$> vs), r) /\
    typed types pane vs = Some sent /\ keys_of input = (sent +:+ rest)%string /\ (r = Ok tt -> sent = keys_of input).
Proof.
  intros Htypes Hi.
  destruct (sendInput_types w (run_tmux adapter) local_vector types Htypes (run_tmux_spec w adapter) pane input st hist Hi)
    as (st' & cs & r & sent & rest & Hex & Ht & Hk & Hr).
  destruct (exec_all_calls (fun c => exists v, c = Command "tmux" v (commandTimeoutMs adapter))
    w st hist (sendInput adapter pane input) st' (hist ++ cs) r) as (cs' & Heq & Hcs); [|done|].
  { apply send_lines_calls. intros args. apply all_calls_await. eauto. }
  apply app_inv_head in Heq as <-.
  assert (Hmap : exists vs, cs = (fun v => Command "tmux" v (commandTimeoutMs adapter)) <$> vs).
  { clear -Hcs. induction Hcs as [|c cs [v ->] _ [vs ->]]; [by exists []|by exists (v :: vs)]. }
  destruct Hmap as [vs ->]. exists st', vs, r, sent, rest. split_and!; try done.
  rewrite <- Ht. f_equal. clear. induction vs as [|v vs IH]; [done|]. simpl. by f_equal.
Qed.

(** A tmux that does what is documented, and nothing with an argument that ends with
    a semicolon. *)
Definition demo_types (pane : string) (args : list string) : option string :=
  if existsb ends_command args then None
  else match args with
       | ["send-keys"; "-t"; p; "-l"; "--"; text] => if decide (p = pane) then Some text else None
       | ["send-keys"; "-t"; p; "C-m"] => if decide (p = pane) then Some carriage_return else None
       | _ => None
       end%string.

Lemma demo_types_documented : send_keys_documented demo_types.
Proof.
  split; intros pane; [intros text Hp Ht|intros Hp]; unfold demo_types;
    cbn [existsb literal_args enter_args].
  - rewrite Hp, Ht. cbn. by rewrite decide_True.
  - rewrite Hp. cbn. by rewrite decide_True.
Qed.

(** ** What tmux reports *)

(** A pane as tmux knows it. *)
Record tmux_row : Type := Row {
  row_session : string;
  row_window : Z;
  row_windowName : string;
  row_pane : Z;
  row_id : string;
  row_title : string;
  row_command : string
}.

(** [PANE_FORMAT] filled in, and the output of [list-panes]: one line a pane. *)
Definition row_line (r : tmux_row) : string :=
  join tab [row_session r; int_to_string (row_window r); row_windowName r;
            int_to_string (row_pane r); row_id r; row_title r; row_command r].

Definition tmux_output (rows : list tmux_row) : string :=
  foldr (fun r out => row_line r +:+ String "010" out)%string EmptyString rows.

Definition row_pane_of (r : tmux_row) : TmuxPane :=
  Pane (row_session r) (num_of_Z (row_window r)) (row_windowName r) (num_of_Z (row_pane r))
    (row_id r) (row_title r) (row_command r).

(** No field has a tab or a line feed, the session name does not start with white
    space, the command is there and does not end with white space, and the indices
    are numbers tmux can have. *)
Definition plain_text (s : string) : Prop := index_of "009" s = None /\ index_of "010" s = None.

Definition row_ok (r : tmux_row) : Prop :=
  Forall plain_text [row_session r; row_windowName r; row_id r; row_title r; row_command r] /\
  0 <= row_window r <= max_safe_integer /\ 0 <= row_pane r <= max_safe_integer /\
  row_id r <> EmptyString /\
  (exists c s, row_session r = String c s /\ is_space c = false) /\
  (exists s c, row_command r = (s +:+ String c "")%string /\ is_space c = false).

Lemma num_or_0_int z : num_or_0 (num_of_Z z) = num_of_Z z.
Proof. by destruct z. Qed.

Lemma row_line_ends r : row_ok r ->
  (exists c s, row_line r = String c s /\ is_space c = false) /\
  (exists s c, row_line r = (s +:+ String c "")%string /\ is_space c = false).
Proof.
  intros (_ & _ & _ & _ & (c & s & Hs & Hc) & (s' & c' & Hs' & Hc')). unfold row_line.
  rewrite !join_cons2, Hs, Hs'. cbn [join]. split.
  - rewrite !str_app_cons. eauto.
  - rewrite !str_app_assoc. eauto.
Qed.

Lemma row_line_trim r : row_ok r -> trim (row_line r) = row_line r.
Proof. intros (? & ?)%row_line_ends. naive_solver eauto using trim_id. Qed.

(** A printed number has neither tab nor line feed. *)
Lemma digits_plain x s c : (forall d, digit_of c <> Some d) ->
  index_of c s = None -> index_of c (pretty_N_go x s) = None.
Proof.
  intros Hc. revert s. induction (N.lt_wf_0 x) as [x _ IH]; intros s Hs.
  destruct (decide (x = 0)%N) as [->|Hx]; [by rewrite pretty_N_go_0|].
  rewrite pretty_N_go_step by lia. apply IH; [apply N.div_lt; lia|]. simpl.
  destruct (Ascii.eqb_spec c (pretty_N_char (x `mod` 10))) as [->|]; [|by rewrite Hs].
  exfalso. eapply Hc. apply digit_of_pretty. by apply N.mod_lt.
Qed.

Lemma int_to_string_plain n : 0 <= n -> plain_text (int_to_string n).
Proof.
  intros Hn. unfold plain_text, int_to_string, pretty, pretty_Z.
  destruct n as [|n|n]; [done| |lia]. unfold pretty, pretty_positive, pretty, pretty_N.
  case_decide; [done|]. by split; apply digits_plain.
Qed.

Lemma row_fields_plain r : row_ok r ->
  Forall plain_text [row_session r; int_to_string (row_window r); row_windowName r;
    int_to_string (row_pane r); row_id r; row_title r; row_command r].
Proof.
  intros (Hp & Hw & Hi & _). rewrite !Forall_cons in *.
  destruct Hp as (? & ? & ? & ? & ? & _).
  split_and!; try done; apply int_to_string_plain; lia.
Qed.

Lemma index_of_app c a b : index_of c a = None -> index_of c b = None -> index_of c (a +:+ b)%string = None.
Proof. rewrite !index_of_None_forallb, str_forallb_app. by intros -> ->. Qed.

Lemma index_of_join c sep ws :
  index_of c sep = None -> Forall (fun w => index_of c w = None) ws -> index_of c (join sep ws) = None.
Proof.
  intros Hs. induction ws as [|a [|b ws] IH]; [done| |]; intros [Ha Hws]%Forall_cons; [done|].
  rewrite join_cons2. auto using index_of_app.
Qed.

Lemma parse_row_line r : row_ok r -> parse_line (row_line r) = Some (row_pane_of r).
Proof.
  intros Hok. unfold parse_line, row_line, tab. rewrite split_on_join; [|done|].
  - destruct Hok as (_ & Hw & Hi & Hne & _). unfold row_pane_of.
    rewrite !parse_int_to_string, !num_or_0_int by done. by destruct (row_id r).
  - eapply Forall_impl; [by apply row_fields_plain|]. by intros ? [].
Qed.

(** C16. [listPanes] reads back exactly the panes tmux has, in tmux's order: for the
    output of [list-panes] on any panes whose names fit [PANE_FORMAT], parsing it
    gives those panes with every field. *)
Theorem listPanes_roundtrip rows :
  Forall row_ok rows -> parse_panes (tmux_output rows) = row_pane_of <$> rows.
Proof.
  unfold parse_panes, output_lines. induction 1 as [|r rows Hok _ IH]; [done|].
  cbn [tmux_output foldr]. rewrite split_on_sep.
  - rewrite fmap_cons, filter_cons, row_line_trim by done.
    destruct (row_line_ends r Hok) as [(c & s & Hl & _) _].
    rewrite decide_True by (by rewrite Hl). cbn [omap list_omap]. rewrite parse_row_line by done.
    cbn [fmap list_fmap]. f_equal. apply IH.
  - apply index_of_join; [done|]. eapply Forall_impl; [by apply row_fields_plain|]. by intros ? [].
Qed.

Lemma listPanes_roundtrip_witness :
  parse_panes (tmux_output [Row "main" 0 "zsh" 12 "%7" "" "node"]) =
    [Pane "main" (num_of_Z 0) "zsh" (num_of_Z 12) "%7" "" "node"].
Proof.
  apply (listPanes_roundtrip [Row "main" 0 "zsh" 12 "%7" "" "node"]).
  repeat constructor; try done; try (exists "m"%char, "ain"; done); try (exists "nod", "e"%char; done).
Defined.

(** A session name that starts with a space comes back without it: the line is
    trimmed before it is split. *)
Lemma leading_space_lost :
  parse_panes (tmux_output [Row " main" 0 "zsh" 12 "%7" "" "node"]) =
    [Pane "main" (num_of_Z 0) "zsh" (num_of_Z 12) "%7" "" "node"].
Proof. vm_compute. reflexivity. Qed.
