(* ===== verification/SshTmux.v ===== *)
(** * SSH tmux adapter ([src/runtime/ssh-tmux-adapter.ts])

    tmux on a remote host: every tmux vector is quoted into one command line for
    the remote shell and passed to the ssh client, after an optional check of the
    host's fingerprint.  The state of the adapter object is the flag
    [hostFingerprintVerified]; operations of one adapter interleave at their
    commands. *)

From S2P Require Import Prelude JsMap Process Tmux.
Local Open Scope Z_scope.

Definition DEFAULT_SSH_COMMAND : string := "ssh".
Definition DEFAULT_SSH_KEYSCAN_COMMAND : string := "ssh-keyscan".
Definition DEFAULT_SSH_KEYGEN_COMMAND : string := "ssh-keygen".
Definition DEFAULT_TIMEOUT_MS : Z := 6000.
Definition DEFAULT_CONNECT_TIMEOUT_SECONDS : Z := 8.

(** [None] is [undefined], or [null] where the type admits it. *)
Record SshTmuxAdapterOptions : Type := SshOptions {
  opt_sshTarget : string;
  opt_sshPort : option num;
  opt_sshCommand : option string;
  opt_strictHostKeyChecking : option bool;
  opt_knownHostsFile : option string;
  opt_expectedFingerprintSha256 : option string;
  opt_commandTimeoutMs : option num;
  opt_connectTimeoutSeconds : option num
}.

Record SshTmuxAdapter : Type := SshAdapter {
  sshTarget : string;
  sshPort : option Z;
  sshCommand : string;
  strictHostKeyChecking : bool;
  knownHostsFile : option string;
  expectedFingerprintSha256 : option string;
  commandTimeoutMs : Z;
  connectTimeoutSeconds : Z
}.

(** ** Normalisation of the options *)

Definition normalizeTarget (sshTarget : string) : result string string :=
  let normalized := trim sshTarget in
  if is_empty normalized then Throw "sshTarget must be a non-empty string" else Ok normalized.

Definition normalizeSshCommand (sshCommand : option string) : string :=
  let normalized := trim (default "" sshCommand) in
  if is_empty normalized then DEFAULT_SSH_COMMAND else normalized.

Definition normalizeOptionalString (value : option string) : option string :=
  match value with
  | None => None
  | Some value =>
      let normalized := trim value in
      if is_empty normalized then None else Some normalized
  end.

Definition normalizeFingerprint (value : option string) : option string :=
  match normalizeOptionalString value with
  | None => None
  | Some normalized =>
      (* normalized.toUpperCase().startsWith("SHA256:") *)
      if starts_with "sha256:" (to_lower normalized)
      then Some ("SHA256:" +:+ str_drop 7 normalized)%string
      else Some ("SHA256:" +:+ normalized)%string
  end.

Definition normalizePort (sshPort : option num) : result string (option Z) :=
  match sshPort with
  | None => Ok None
  | Some (Fin m e) =>
      if m <=? 0 then Throw "sshPort must be a positive number when provided"
      else Ok (Some (trunc m e))
  | Some _ => Throw "sshPort must be a positive number when provided"
  end.

Definition normalizeTimeoutMs (timeoutMs : option num) : Z :=
  match timeoutMs with
  | Some (Fin m e) => if m <=? 0 then DEFAULT_TIMEOUT_MS else Z.max 1 (trunc m e)
  | _ => DEFAULT_TIMEOUT_MS
  end.

Definition normalizeConnectTimeoutSeconds (timeoutSeconds : option num) : result string Z :=
  match timeoutSeconds with
  | None => Ok DEFAULT_CONNECT_TIMEOUT_SECONDS
  | Some n =>
      match num_to_Z n with
      | Some z =>
          if (z <? 1) || (60 <? z)
          then Throw "connectTimeoutSeconds must be an integer between 1 and 60 when provided"
          else Ok z
      | None => Throw "connectTimeoutSeconds must be an integer between 1 and 60 when provided"
      end
  end.

Definition newSshTmuxAdapter (options : SshTmuxAdapterOptions) : result string SshTmuxAdapter :=
  (let! target := normalizeTarget (opt_sshTarget options) in
   let! port := normalizePort (opt_sshPort options) in
   let! seconds := normalizeConnectTimeoutSeconds (opt_connectTimeoutSeconds options) in
   Ok (SshAdapter target port (normalizeSshCommand (opt_sshCommand options))
         (default true (opt_strictHostKeyChecking options))
         (normalizeOptionalString (opt_knownHostsFile options))
         (normalizeFingerprint (opt_expectedFingerprintSha256 options))
         (normalizeTimeoutMs (opt_commandTimeoutMs options)) seconds))%js.

(** ** Command lines *)

Definition shell_safe_char (c : ascii) : bool := is_alnum c || one_of "_@%+=:,./-" c.

(** [value.replace(/'/g, `'"'"'`)]. *)
Definition quoted_quote : string :=
  String squote (String dquote (String squote (String dquote (String squote "")))).

Fixpoint replace_quotes (value : string) : string :=
  match value with
  | EmptyString => EmptyString
  | String c r => if Ascii.eqb squote c then (quoted_quote +:+ replace_quotes r)%string
                  else String c (replace_quotes r)
  end.

Definition shellEscape (value : string) : string :=
  if negb (is_empty value) && str_forallb shell_safe_char value then value
  else (String squote "" +:+ replace_quotes value +:+ String squote "")%string.

Definition buildRemoteCommand (parts : list string) : string := join " " (shellEscape <$> parts).

Definition buildSshArgs (sshTarget remoteCommand : string) (sshPort : option Z)
    (strictHostKeyChecking : bool) (connectTimeoutSeconds : Z) (knownHostsFile : option string) :
    list string :=
  match sshPort with Some p => ["-p"; int_to_string p] | None => [] end ++
  ["-T"; "-o"; "BatchMode=yes"; "-o"; ("ConnectTimeout=" +:+ int_to_string connectTimeoutSeconds)%string;
   "-o"; ("StrictHostKeyChecking=" +:+ (if strictHostKeyChecking then "yes" else "no"))%string] ++
  match knownHostsFile with
  | Some f => ["-o"; ("UserKnownHostsFile=" +:+ f)%string]
  | None => if strictHostKeyChecking then [] else ["-o"; "UserKnownHostsFile=/dev/null"]
  end ++ [sshTarget; remoteCommand].

Definition extractKeyscanHost (sshTarget : string) : string :=
  let host := match last_index_of "@" sshTarget with
              | Some atIndex => str_drop (atIndex + 1) sshTarget
              | None => sshTarget
              end in
  if starts_with "[" host && ends_with "]" host
  then str_take (String.length host - 2) (str_drop 1 host)
  else host.

Definition buildKeyscanArgs (sshTarget : string) (sshPort : option Z) (connectTimeoutSeconds : Z) :
    list string :=
  ["-T"; int_to_string connectTimeoutSeconds] ++
  match sshPort with Some p => ["-p"; int_to_string p] | None => [] end ++
  [extractKeyscanHost sshTarget].

(** A match of [/SHA256:[A-Za-z0-9+/=]+/] at the start of [s]. *)
Definition match_fingerprint (s : string) : option string :=
  if starts_with "SHA256:" s then
    let run := take_while (fun c => is_alnum c || one_of "+/=" c) (str_drop 7 s) in
    if is_empty run then None else Some ("SHA256:" +:+ run)%string
  else None.

(** [output.match(/.../g)]: after a match the search goes on behind it; [skip] is
    what is left of the last match. *)
Fixpoint match_all (skip : nat) (s : string) : list string :=
  match s with
  | EmptyString => []
  | String _ r =>
      match skip with
      | S skip => match_all skip r
      | O =>
          match match_fingerprint s with
          | Some m => m :: match_all (String.length m - 1) r
          | None => match_all O r
          end
      end
  end.

Definition parseSha256Fingerprints (output : string) : list string :=
  foldl (fun set m => js_add m set) [] (match_all O output).

Definition toErrorMessage (error : js_error) : string :=
  if is_empty (err_message error) then "Error" else err_message error.

Definition isNoServerError (error : js_error) : bool :=
  matches_no_server (default "" (err_stderr error) +:+ newline +:+ err_message error)%string.

(** ** Operations *)

Section Adapter.
Context (a : SshTmuxAdapter).

Definition unable (why : string) : js_error :=
  Error ("Unable to resolve SSH host fingerprint for " +:+ sshTarget a +:+ ": " +:+ why)%string.

Definition mismatch (expected : string) (fingerprints : list string) : js_error :=
  Error ("SSH host fingerprint mismatch for " +:+ sshTarget a +:+ ": expected " +:+ expected +:+
         ", resolved " +:+ join ", " fingerprints)%string.

Definition keyscan_call : call :=
  Command DEFAULT_SSH_KEYSCAN_COMMAND
    (buildKeyscanArgs (sshTarget a) (sshPort a) (connectTimeoutSeconds a)) (commandTimeoutMs a).
Definition keygen_call (keyscanOutput : string) : call :=
  CommandWithInput DEFAULT_SSH_KEYGEN_COMMAND ["-lf"; "-"] keyscanOutput (commandTimeoutMs a).

Definition verifyExpectedHostFingerprint : proc bool unit :=
  match expectedFingerprintSha256 a with
  | None => mret tt
  | Some expectedFingerprint =>
      if is_empty expectedFingerprint then mret tt
      else
        keyscanOutput ← try_catch (await_call keyscan_call)
          (fun e => Reject (unable ("ssh-keyscan failed (" +:+ toErrorMessage e +:+ ")")));
        _ ← (if is_empty (trim keyscanOutput)
             then Reject (unable "ssh-keyscan returned no host keys") else mret tt);
        keygenOutput ← try_catch (await_call (keygen_call keyscanOutput))
          (fun e => Reject (unable ("ssh-keygen failed (" +:+ toErrorMessage e +:+ ")")));
        let fingerprints := parseSha256Fingerprints keygenOutput in
        if (length fingerprints =? 0)%nat
        then Reject (unable "ssh-keygen output did not contain SHA256 fingerprints")
        else if js_has expectedFingerprint fingerprints then mret tt
        else Reject (mismatch expectedFingerprint fingerprints)
  end.

Definition ssh_call (tmuxArgs : list string) : call :=
  Command (sshCommand a)
    (buildSshArgs (sshTarget a) (buildRemoteCommand ("tmux" :: tmuxArgs)) (sshPort a)
       (strictHostKeyChecking a) (connectTimeoutSeconds a) (knownHostsFile a))
    (commandTimeoutMs a).

Definition runTmux (tmuxArgs : list string) : proc bool string :=
  hostFingerprintVerified ← GetState Return;
  _ ← (if bool_decide (expectedFingerprintSha256 a <> None) && negb hostFingerprintVerified
       then _ ← verifyExpectedHostFingerprint; SetState true (mret tt)
       else mret tt);
  await_call (ssh_call tmuxArgs).

Definition isAvailable : proc bool bool := run_isAvailable runTmux ["-V"].
Definition listPanes : proc bool (list TmuxPane) := run_listPanes runTmux isNoServerError.
Definition capturePane (paneId : string) (lines : Z) : proc bool string :=
  run_capturePane runTmux paneId lines.
Definition sendInput (paneId rawInput : string) : proc bool unit :=
  run_sendInput runTmux paneId rawInput.
End Adapter.

(** ** The remote shell

    The word splitting of a POSIX shell (Shell Command Language, 2.2 and 2.3), for
    command lines without expansions: blanks separate words, single quotes keep
    everything up to the next one, double quotes keep text without [$], backquote
    and backslash.  [None] is a line whose meaning is more than a list of words: an
    operator, an expansion, a pattern, a comment, an unterminated quotation. *)

(** The characters that a shell may not take as they are outside quotations: the
    operators and expansions of POSIX; the characters of patterns, comments, tildes
    and reserved words; those of braces and of the history; and the control
    characters, such as the end of a line. *)
Definition shell_special (c : ascii) : bool :=
  one_of "|&;<>()$`\*?[]#~!{}^" c || (code c <? 32)%N || (code c =? 127)%N.

Inductive quoting : Type := Unquoted | Single | Double.

Definition snoc_char (w : option string) (c : ascii) : option string :=
  Some (default "" w +:+ String c "")%string.

Fixpoint shell_words (q : quoting) (w : option string) (s : string) : option (list string) :=
  match s with
  | EmptyString => match q with Unquoted => Some (option_list w) | _ => None end
  | String c r =>
      match q with
      | Unquoted =>
          if Ascii.eqb c " " then (fun ws => option_list w ++ ws) <$> shell_words Unquoted None r
          else if Ascii.eqb c squote then shell_words Single (Some (default "" w)) r
          else if Ascii.eqb c dquote then shell_words Double (Some (default "" w)) r
          else if shell_special c then None
          else shell_words Unquoted (snoc_char w c) r
      | Single =>
          if Ascii.eqb c squote then shell_words Unquoted w r
          else shell_words Single (snoc_char w c) r
      | Double =>
          if Ascii.eqb c dquote then shell_words Unquoted w r
          else if one_of "$`\" c then None
          else shell_words Double (snoc_char w c) r
      end
  end.

(** A simple command: its first word is neither an assignment nor a reserved word
    of the shell (2.4 and 2.9.1), so it is the name of the command and the words
    behind it are its arguments. *)
Definition reserved_words : list string :=
  ["!"; "{"; "}"; "case"; "do"; "done"; "elif"; "else"; "esac"; "fi"; "for"; "if"; "in"; "then"; "until"; "while"].

Definition simple_command (line : string) : option (list string) :=
  match shell_words Unquoted None line with
  | Some (name :: args) =>
      if bool_decide (name ∈ reserved_words) || bool_decide (index_of "=" name <> None)
      then None else Some (name :: args)
  | _ => None
  end.

Lemma safe_char_plain c :
  shell_safe_char c = true -> Ascii.eqb c " " = false /\ Ascii.eqb c squote = false /\
  Ascii.eqb c dquote = false /\ shell_special c = false.
Proof. by destruct c as [[] [] [] [] [] [] [] []]. Qed.

Lemma words_safe v w r :
  str_forallb shell_safe_char v = true ->
  shell_words Unquoted (Some w) (v +:+ r)%string = shell_words Unquoted (Some (w +:+ v)%string) r.
Proof.
  revert w. induction v as [|c v IH]; intros w; [by rewrite str_app_nil_l, str_app_nil_r|].
  intros [Hc Hv]%andb_true_iff. rewrite str_app_cons. cbn [shell_words].
  destruct (safe_char_plain c Hc) as (-> & -> & -> & ->). unfold snoc_char. cbn [default].
  rewrite IH by done. simpl. by rewrite <- str_app_assoc, str_app_cons, str_app_nil_l.
Qed.

Lemma words_quoted v w r :
  shell_words Single (Some w) (replace_quotes v +:+ String squote r)%string =
    shell_words Unquoted (Some (w +:+ v)%string) r.
Proof.
  revert w. induction v as [|c v IH]; intros w; cbn [replace_quotes].
  - rewrite str_app_nil_l, str_app_nil_r. simpl. done.
  - destruct (Ascii.eqb_spec squote c) as [<-|Hne].
    + unfold quoted_quote. rewrite <- str_app_assoc, !str_app_cons, str_app_nil_l. cbn [shell_words].
      change (Ascii.eqb squote squote) with true. change (Ascii.eqb dquote " ") with false.
      change (Ascii.eqb dquote squote) with false. change (Ascii.eqb dquote dquote) with true.
      change (Ascii.eqb squote dquote) with false. change (one_of "$`\" squote) with false.
      change (Ascii.eqb squote " ") with false. cbv iota. unfold snoc_char. cbn [default].
      rewrite IH. simpl. by rewrite <- str_app_assoc, str_app_cons, str_app_nil_l.
    + rewrite str_app_cons. cbn [shell_words]. destruct (Ascii.eqb_spec c squote) as [->|_]; [done|].
      unfold snoc_char. rewrite IH. simpl. by rewrite <- str_app_assoc, str_app_cons, str_app_nil_l.
Qed.

Lemma words_escaped v r :
  shell_words Unquoted None (shellEscape v +:+ r)%string = shell_words Unquoted (Some v) r.
Proof.
  unfold shellEscape. destruct (negb (is_empty v) && str_forallb shell_safe_char v) eqn:Hv.
  - apply andb_true_iff in Hv as [Hne Hv]. destruct v as [|c v]; [done|].
    simpl in Hv. apply andb_true_iff in Hv as [Hc Hv]. rewrite str_app_cons. cbn [shell_words].
    destruct (safe_char_plain c Hc) as (-> & -> & -> & ->). unfold snoc_char. simpl.
    rewrite words_safe by done. by rewrite str_app_nil_l, str_app_cons, str_app_nil_l.
  - rewrite <- !str_app_assoc, !str_app_cons, !str_app_nil_l. cbn [shell_words].
    change (Ascii.eqb squote squote) with true. change (Ascii.eqb squote " ") with false.
    cbv iota. simpl (default _ _). rewrite words_quoted.
    by rewrite str_app_nil_l.
Qed.

Lemma remote_command_words parts :
  shell_words Unquoted None (buildRemoteCommand parts) = Some parts.
Proof.
  unfold buildRemoteCommand. induction parts as [|p [|q parts] IH]; [done| |].
  - cbn [fmap list_fmap join]. rewrite <- (str_app_nil_r (shellEscape p)), words_escaped. done.
  - cbn [fmap list_fmap] in *. rewrite join_cons2, words_escaped.
    rewrite str_app_cons, str_app_nil_l. cbn [shell_words]. rewrite IH. done.
Qed.

Lemma remote_simple_command args :
  simple_command (buildRemoteCommand ("tmux" :: args)) = Some ("tmux" :: args)%string.
Proof. unfold simple_command. by rewrite remote_command_words. Qed.

(** C4. The remote shell gets exactly the argument vector: whatever the pane id,
    the input text or any other part contains - quotes, blanks, newlines, [$],
    semicolons - the command line splits into the same parts again, no character of
    it is taken as an operator, expansion, pattern or comment, and the line that is
    sent is the simple command [tmux] with those arguments. *)
Theorem remote_command_is_vector parts :
  shell_words Unquoted None (buildRemoteCommand parts) = Some parts /\
  simple_command (buildRemoteCommand ("tmux" :: parts)) = Some ("tmux" :: parts)%string.
Proof. split; [apply remote_command_words|apply remote_simple_command]. Qed.

(** ** What tmux on the remote host is told *)

(** The tmux vector of an ssh command: what the remote shell makes of its last
    argument. *)
Definition remote_vector (c : call) : option (list string) :=
  match c with
  | Command _ args _ =>
      if match args with
         | "-p" :: _ :: "-T" :: "-o" :: _ | "-T" :: "-o" :: _ => true
         | _ => false
         end
      then
        match simple_command (default "" (last args)) with
        | Some ("tmux" :: v) => Some v
        | _ => None
        end
      else None
  | CommandWithInput _ _ _ _ => None
  end%string.

Lemma remote_vector_ssh a v : remote_vector (ssh_call a v) = Some v.
Proof.
  unfold remote_vector, ssh_call, buildSshArgs.
  assert (Hlast : forall pre c, last (pre ++ [sshTarget a; c]) = Some c).
  { intros pre c. change [sshTarget a; c] with ([sshTarget a] ++ [c]). by rewrite app_assoc, last_snoc. }
  rewrite !app_assoc, Hlast. cbn [from_option id]. rewrite remote_simple_command.
  by destruct (sshPort a).
Qed.

Lemma remote_vector_keyscan a : 0 <= connectTimeoutSeconds a -> remote_vector (keyscan_call a) = None.
Proof.
  intros Ha. unfold remote_vector, keyscan_call, buildKeyscanArgs. cbn [app].
  destruct (int_to_string_head _ Ha) as (c & r & d & -> & Hd).
  by destruct c as [[] [] [] [] [] [] [] []].
Qed.

Section Spec.
Context (a : SshTmuxAdapter) (Hsec : 0 <= connectTimeoutSeconds a).

(** The check runs no tmux command. *)
Lemma verify_calls : all_calls (fun c => remote_vector c = None) (verifyExpectedHostFingerprint a).
Proof.
  unfold verifyExpectedHostFingerprint. destruct (expectedFingerprintSha256 a) as [f|]; [|done].
  destruct (is_empty f); [done|].
  apply all_calls_bind; [by apply all_calls_try; [apply all_calls_await, remote_vector_keyscan|]|].
  intros out. apply all_calls_bind; [by destruct (is_empty _)|]. intros _.
  apply all_calls_bind; [by apply all_calls_try; [apply all_calls_await|]|].
  intros out'. cbv zeta. by repeat case_match.
Qed.

Lemma omap_none {A B} (f : A -> option B) l : Forall (fun x => f x = None) l -> omap f l = [].
Proof. induction 1 as [|x l Hx _ IH]; [done|]. simpl. by rewrite Hx. Qed.

Lemma runTmux_spec w : run_spec w (runTmux a) remote_vector.
Proof.
  intros args st hist. unfold runTmux. rewrite exec_bind. cbn [exec].
  rewrite exec_bind.
  set (pre := if bool_decide _ && _ then _ else _).
  assert (Hpre : all_calls (fun c => remote_vector c = None) pre).
  { subst pre. destruct (bool_decide _ && _); [|done].
    apply all_calls_bind; [apply verify_calls|done]. }
  destruct (exec w st hist pre) as [[st1 h1] r1] eqn:Hex.
  destruct (exec_all_calls _ _ _ _ _ _ _ _ Hpre Hex) as (cs & -> & Hcs).
  destruct r1 as [[]|e].
  - rewrite exec_await_call. eexists st1, (cs ++ [ssh_call a args]), _. rewrite app_assoc.
    split; [done|]. rewrite omap_app, (omap_none _ _ Hcs). cbn [omap list_omap app].
    rewrite remote_vector_ssh. destruct (w _ _); [done|by right].
  - exists st1, cs, (Throw e). split; [done|]. left. by apply omap_none.
Qed.
End Spec.

(** What the constructor guarantees. *)
Lemma new_adapter_fields o a :
  newSshTmuxAdapter o = Ok a ->
  sshTarget a <> EmptyString /\ 1 <= connectTimeoutSeconds a <= 60 /\ 1 <= commandTimeoutMs a /\
  (forall p, sshPort a = Some p -> 0 <= p) /\
  (forall f, expectedFingerprintSha256 a = Some f -> starts_with "SHA256:" f = true).
Proof.
  unfold newSshTmuxAdapter. rewrite !rbind_Ok. intros (t & Ht & Hr).
  apply rbind_Ok in Hr as (p & Hp & Hr). apply rbind_Ok in Hr as (s & Hs & Hr).
  injection Hr as <-.
  cbn [sshTarget connectTimeoutSeconds commandTimeoutMs sshPort expectedFingerprintSha256]. split_and!.
  - unfold normalizeTarget in Ht. destruct (is_empty _) eqn:He; [done|]. injection Ht as <-.
    intros Hn. by rewrite Hn in He.
  - unfold normalizeConnectTimeoutSeconds, DEFAULT_CONNECT_TIMEOUT_SECONDS in Hs.
    repeat case_match; simplify_eq; lia.
  - unfold normalizeConnectTimeoutSeconds, DEFAULT_CONNECT_TIMEOUT_SECONDS in Hs.
    repeat case_match; simplify_eq; lia.
  - unfold normalizeTimeoutMs, DEFAULT_TIMEOUT_MS. repeat case_match; lia.
  - intros q ->. unfold normalizePort in Hp. repeat case_match; simplify_eq.
    unfold trunc. case_match; [apply Z.mul_nonneg_nonneg; lia|apply Z.quot_pos; lia].
  - intros f. unfold normalizeFingerprint. destruct (normalizeOptionalString _) as [n|]; [|done].
    destruct (starts_with _ (to_lower n)); intros Hf; apply (inj Some) in Hf as <-; apply starts_with_app.
Qed.

(** C9. Sending input over SSH, with a tmux that types what [send-keys] is
    documented to type: for an adapter that the constructor accepted, whatever the
    processes answer and whether or not the host check runs first, the remote tmux
    gets [send-keys] commands for the given pane only, the keys they type are an
    initial part of the input with Enter for each newline, and all of it when the
    call returns.  A line that ends with a semicolon is outside: see
    [Tmux.trailing_semicolon_lost]. *)
Theorem ssh_sendInput_types_exactly types o a w pane input st hist :
  send_keys_documented types -> newSshTmuxAdapter o = Ok a -> sendable pane input ->
  exists st' cs r sent rest,
    exec w st hist (sendInput a pane input) = (st', hist ++ cs, r) /\
    typed types pane (omap remote_vector cs) = Some sent /\ keys_of input = (sent +:+ rest)%string /\
    (r = Ok tt -> sent = keys_of input).
Proof.
  intros Htypes (_ & Hs & _)%new_adapter_fields Hi.
  apply sendInput_types; [done|apply runTmux_spec; lia|done].
Qed.

Definition demo_options : SshTmuxAdapterOptions :=
  SshOptions " dev@host " (Some (num_of_Z 2222)) None None None (Some "abc") None None.
Definition demo_adapter : SshTmuxAdapter :=
  SshAdapter "dev@host" (Some 2222) "ssh" true None (Some "SHA256:abc") 6000 8.

Lemma ssh_sendInput_types_exactly_witness :
  newSshTmuxAdapter demo_options = Ok demo_adapter /\ send_keys_documented demo_types /\
  sendable "%1" "it's; rm" /\
  exists st' cs r sent rest,
    exec (fun _ _ => Ok "SHA256:abc") false [] (sendInput demo_adapter "%1" "it's; rm") = (st', [] ++ cs, r) /\
    typed demo_types "%1" (omap remote_vector cs) = Some sent /\
    keys_of "it's; rm" = (sent +:+ rest)%string /\ (r = Ok tt -> sent = keys_of "it's; rm"%string).
Proof.
  assert (H : newSshTmuxAdapter demo_options = Ok demo_adapter) by (vm_compute; reflexivity).
  assert (Hi : sendable "%1" "it's; rm") by (split; [done|by repeat constructor]).
  split; [exact H|]. split; [exact demo_types_documented|]. split; [exact Hi|].
  exact (ssh_sendInput_types_exactly demo_types demo_options demo_adapter _ _ _ _ _ demo_types_documented H Hi).
Defined.

(** ** The host check under interleaving *)

(** What has happened so far: commands started and commands answered. *)
Inductive event : Type :=
| Started (c : call)
| Answered (c : call) (r : reply).

(** Run up to the next command. *)
Fixpoint advance {A} (flag : bool) (p : proc bool A) : bool * proc bool A :=
  match p with
  | GetState k => advance flag (k flag)
  | SetState s k => advance s k
  | _ => (flag, p)
  end.

Definition started {A} (p : proc bool A) : list event :=
  match p with Call c _ => [Started c] | _ => [] end.

(** The operations of the adapter, their results forgotten. *)
Inductive operation : Type :=
| OpIsAvailable
| OpListPanes
| OpCapturePane (paneId : string) (lines : Z)
| OpSendInput (paneId rawInput : string).

Definition operation_proc (a : SshTmuxAdapter) (o : operation) : proc bool unit :=
  match o with
  | OpIsAvailable => _ ← isAvailable a; mret tt
  | OpListPanes => _ ← listPanes a; mret tt
  | OpCapturePane paneId lines => _ ← capturePane a paneId lines; mret tt
  | OpSendInput paneId rawInput => sendInput a paneId rawInput
  end.

(** The adapter with the operations in flight and the history of commands. *)
Record ssh_system : Type := SshSystem {
  verified_flag : bool;
  running : list (proc bool unit);
  history : list event
}.

(** One step: an operation is called and runs up to its first command, or the
    command an operation waits for is answered and it runs on to the next one. *)
Inductive ssh_step (a : SshTmuxAdapter) : ssh_system -> ssh_system -> Prop :=
| step_call s o flag p :
    advance (verified_flag s) (operation_proc a o) = (flag, p) ->
    ssh_step a s (SshSystem flag (running s ++ [p]) (history s ++ started p))
| step_answer s i c k r flag p :
    running s !! i = Some (Call c k) ->
    advance (verified_flag s) (k r) = (flag, p) ->
    ssh_step a s (SshSystem flag (<[i := p]> (running s)) (history s ++ Answered c r :: started p)).

Inductive ssh_reachable (a : SshTmuxAdapter) : ssh_system -> Prop :=
| ssh_init : ssh_reachable a (SshSystem false [] [])
| ssh_next s s' : ssh_reachable a s -> ssh_step a s s' -> ssh_reachable a s'.

(** The host's keys were fetched, hashed, and the expected fingerprint was among
    the hashes; or none is expected. *)
Definition host_checked (a : SshTmuxAdapter) (log : list event) : Prop :=
  match expectedFingerprintSha256 a with
  | None => True
  | Some f => exists keys hashes,
      Answered (keyscan_call a) (Ok keys) ∈ log /\
      Answered (keygen_call a keys) (Ok hashes) ∈ log /\
      f ∈ parseSha256Fingerprints hashes
  end.

Section Gate.
Context (a : SshTmuxAdapter).

Lemma host_checked_mono T T' : T ⊆ T' -> host_checked a T -> host_checked a T'.
Proof. unfold host_checked. destruct (expectedFingerprintSha256 a); [|done]. naive_solver. Qed.

Definition call_ok (T : list event) (c : call) : Prop :=
  remote_vector c <> None -> host_checked a T.

(** [gated T Q p]: after the events of [T], however the log grows and the flag is
    set meanwhile, [p] starts remote commands only once the host is checked, and
    returns in states satisfying [Q]. *)
Fixpoint gated {A} (Q : list event -> A -> Prop) (T : list event) (p : proc bool A) : Prop :=
  match p with
  | Return x => forall T', T ⊆ T' -> Q T' x
  | Reject _ => True
  | GetState k => forall T' b, T ⊆ T' -> (b = true -> host_checked a T') -> gated Q T' (k b)
  | SetState b k => (b = true -> host_checked a T) /\ gated Q T k
  | Call c k => call_ok T c /\ forall T' r, T ⊆ T' -> Answered c r ∈ T' -> gated Q T' (k r)
  end.

Lemma gated_mono {A} (Q : list event -> A -> Prop) T T' p : T ⊆ T' -> gated Q T p -> gated Q T' p.
Proof.
  intros HT. induction p as [x|e|k IH|b k IH|c k IH]; simpl; try done.
  - intros H T'' HT'. apply H. by etrans.
  - intros H T'' b HT' Hb. apply H; [by etrans|done].
  - intros [Hb Hk]. split; [|by apply IH]. intros ->. by eapply host_checked_mono, Hb.
  - intros [Hc Hk]. split; [intros Hn; by eapply host_checked_mono, Hc|].
    intros T'' r HT' Hin. apply Hk; [by etrans|done].
Qed.

Lemma gated_bind {A B} (Q : list event -> B -> Prop) T (p : proc bool A) f :
  gated (fun T x => gated Q T (f x)) T p -> gated Q T (p ≫= f).
Proof.
  revert T. induction p as [x|e|k IH|b k IH|c k IH]; intros T; simpl; try done.
  - intros H. by apply (H T).
  - intros H T' b HT Hb. by apply IH, H.
  - intros [Hb Hk]. by split; [|apply IH].
  - intros [Hc Hk]. split; [done|]. intros T' r HT Hin. by apply IH, Hk.
Qed.

Lemma gated_try {A} (Q : list event -> A -> Prop) T (p : proc bool A) h :
  gated Q T p -> (forall T' e, gated Q T' (h e)) -> gated Q T (try_catch p h).
Proof.
  intros Hp Hh. revert T Hp. induction p as [x|e|k IH|b k IH|c k IH]; intros T; simpl; try done.
  - intros H T' b HT Hb. by apply IH, H.
  - intros [Hb Hk]. by split; [|apply IH].
  - intros [Hc Hk]. split; [done|]. intros T' r HT Hin. by apply IH, Hk.
Qed.

Lemma gated_conseq {A} (Q Q' : list event -> A -> Prop) T p :
  (forall T' x, Q T' x -> Q' T' x) -> gated Q T p -> gated Q' T p.
Proof.
  intros HQ. revert T. induction p as [x|e|k IH|b k IH|c k IH]; intros T; simpl; naive_solver.
Qed.

Lemma gated_await Q T c :
  call_ok T c ->
  (forall T' out, T ⊆ T' -> Answered c (Ok out) ∈ T' -> Q T' out) ->
  gated Q T (await_call c).
Proof.
  intros Hc HQ. split; [done|]. intros T' [out|e] HT Hin; simpl; [|done].
  intros T'' HT'. apply HQ; set_solver.
Qed.

Hypothesis a_fingerprint : forall f, expectedFingerprintSha256 a = Some f -> is_empty f = false.
Hypothesis a_seconds : 0 <= connectTimeoutSeconds a.

Lemma gated_verify T : gated (fun T' _ => host_checked a T') T (verifyExpectedHostFingerprint a).
Proof.
  unfold verifyExpectedHostFingerprint. destruct (expectedFingerprintSha256 a) as [f|] eqn:Hf.
  2:{ intros T' _. unfold host_checked. by rewrite Hf. }
  rewrite (a_fingerprint f) by done. apply gated_bind, gated_try; [|done].
  apply gated_await; [intros []; by apply remote_vector_keyscan|]. intros T1 keys _ Hkeys.
  apply gated_bind. destruct (is_empty (trim keys)); [done|]. intros T1' HT1.
  apply gated_bind, gated_try; [|done]. apply gated_await; [by intros []|].
  intros T2 hashes HT2 Hhashes. cbv zeta. destruct (length _ =? 0)%nat; [done|].
  destruct (js_has f _) eqn:Hin; [|done]. intros T3 HT3. unfold host_checked. rewrite Hf.
  exists keys, hashes. apply js_has_spec in Hin. set_solver.
Qed.

Lemma gated_runTmux T v : gated (fun _ _ => True) T (runTmux a v).
Proof.
  unfold runTmux. apply gated_bind. intros T1 b HT1 Hb T2 HT2. apply gated_bind.
  assert (Hend : forall T', host_checked a T' -> gated (fun _ _ => True) T' (await_call (ssh_call a v))).
  { intros T' Hok. apply gated_await; [by intros _|done]. }
  destruct (bool_decide _ && negb b) eqn:Hv.
  - apply gated_bind. eapply gated_conseq; [|apply gated_verify].
    intros T' [] Hok. split; [done|]. intros T'' HT''. apply Hend. by eapply host_checked_mono.
  - intros T3 HT3. apply Hend. apply andb_false_iff in Hv as [Hn|Hb'].
    + apply bool_decide_eq_false, dec_stable in Hn. unfold host_checked. by rewrite Hn.
    + apply negb_false_iff in Hb'. eapply host_checked_mono, Hb; [|done]. by etrans.
Qed.

Lemma gated_operation T o : gated (fun _ _ => True) T (operation_proc a o).
Proof.
  assert (Hlines : forall pane lines T', gated (fun _ _ => True) T' (send_lines (runTmux a) pane lines)).
  { intros pane. induction lines as [|line rest IH]; intros T'; [done|]. cbn [send_lines].
    apply gated_bind. eapply (gated_conseq (fun _ _ => True)).
    - intros T1 _ _. destruct rest; [done|]. apply gated_bind.
      eapply gated_conseq; [|apply gated_runTmux]. intros T2 _ _. apply IH.
    - destruct (is_empty line); [done|]. apply gated_bind.
      by eapply gated_conseq; [|apply gated_runTmux]. }
  assert (Hrun : forall v {B} (f : string -> proc bool B) T', (forall T1 x, gated (fun _ _ => True) T1 (f x)) ->
    gated (fun _ _ => True) T' (runTmux a v ≫= f)).
  { intros v B f T' Hf. apply gated_bind. eapply gated_conseq; [|apply gated_runTmux]. auto. }
  destruct o as [| |pane lines|pane input]; [| | |apply Hlines]; apply gated_bind.
  - eapply (gated_conseq (fun _ _ => True)); [done|]. apply gated_try; [|done]. by apply Hrun.
  - eapply (gated_conseq (fun _ _ => True)); [done|]. apply gated_bind.
    eapply (gated_conseq (fun _ _ => True)); [by intros T1 [] _|].
    apply gated_try; [by apply Hrun|]. intros T' e. by destruct (isNoServerError e).
  - by eapply gated_conseq; [|apply gated_runTmux].
Qed.

(** Running up to the next command keeps the gate. *)
Lemma gated_advance {A} T flag (p : proc bool A) flag' p' :
  advance flag p = (flag', p') -> (flag = true -> host_checked a T) ->
  gated (fun _ _ => True) T p ->
  (flag' = true -> host_checked a T) /\ gated (fun _ _ => True) T p' /\
  (forall c, Started c ∈ started p' -> call_ok T c).
Proof.
  revert flag. induction p as [x|e|k IH|b k IH|c k IH]; intros flag; simpl.
  - intros [= <- <-] Hf _. split_and!; [done|done|]. intros c Hc. by apply elem_of_nil in Hc.
  - intros [= <- <-] Hf _. split_and!; [done|done|]. intros c Hc. by apply elem_of_nil in Hc.
  - intros Ha Hf Hk. eapply IH; [done|done|]. by apply Hk.
  - intros Ha Hf [Hb Hk]. by eapply IH.
  - intros [= <- <-] Hf [Hc Hk]. split_and!; [done|done|].
    intros c' Hc'. apply list_elem_of_singleton in Hc' as [= ->]. done.
Qed.

Definition gate_inv (s : ssh_system) : Prop :=
  (verified_flag s = true -> host_checked a (history s)) /\
  Forall (gated (fun _ _ => True) (history s)) (running s) /\
  (forall pre c post, history s = pre ++ Started c :: post -> call_ok pre c).

(** The log grows by answers already in it and by one command that may start. *)
Lemma started_log (old : list event) (p : proc bool unit) :
  (forall pre c post, old = pre ++ Started c :: post -> call_ok pre c) ->
  (forall c, Started c ∈ started p -> call_ok old c) ->
  forall pre c post, old ++ started p = pre ++ Started c :: post -> call_ok pre c.
Proof.
  intros Hold Hnew pre c post Heq. destruct p as [x|e|k|b k|c' k]; simpl in Heq;
    rewrite ?app_nil_r in Heq; try by eapply Hold.
  destruct post as [|e post] using rev_ind.
  - apply app_inj_tail in Heq as [-> [= <-]]. apply Hnew. by left.
  - clear IHpost. rewrite app_comm_cons, app_assoc in Heq. apply app_inj_tail in Heq as [-> _].
    by eapply Hold.
Qed.

Lemma gate_step s s' : ssh_step a s s' -> gate_inv s -> gate_inv s'.
Proof.
  intros Hstep (Hflag & Hrun & Hlog). destruct Hstep as [s o flag p Hadv|s i c k r flag p Hi Hadv].
  - destruct (gated_advance (history s) _ _ _ _ Hadv) as (Hf & Hp & Hs); [done|apply gated_operation|].
    split_and!; simpl.
    + intros Ht. eapply host_checked_mono; [|by apply Hf]. set_solver.
    + apply Forall_app. split; [|constructor; [|done]].
      * eapply Forall_impl; [exact Hrun|]. intros q. apply gated_mono. set_solver.
      * eapply gated_mono; [|exact Hp]. set_solver.
    + by apply started_log.
  - assert (Hk : gated (fun _ _ => True) (history s ++ [Answered c r]) (k r)).
    { rewrite Forall_lookup in Hrun. apply Hrun in Hi as [_ Hi]. apply Hi; set_solver. }
    destruct (gated_advance (history s ++ [Answered c r]) _ _ _ _ Hadv) as (Hf & Hp & Hs); [ |exact Hk|].
    { intros Ht. eapply host_checked_mono; [|by apply Hflag]. set_solver. }
    assert (Happ : history s ++ Answered c r :: started p = (history s ++ [Answered c r]) ++ started p)
      by (by rewrite <- app_assoc).
    unfold gate_inv. cbn [verified_flag running history]. rewrite Happ. split_and!.
    + intros Ht. eapply host_checked_mono; [|by apply Hf]. set_solver.
    + apply Forall_insert.
      * eapply Forall_impl; [exact Hrun|]. intros q. apply gated_mono. set_solver.
      * eapply gated_mono; [|exact Hp]. set_solver.
    + apply started_log; [done..| |done]. intros pre c' post Heq.
      destruct post as [|e post _] using rev_ind; [by apply app_inj_tail in Heq as [_ [=]]|].
      rewrite app_comm_cons, app_assoc in Heq. apply app_inj_tail in Heq as [Heq _]. by eapply Hlog.
Qed.

Lemma gate_reachable s : ssh_reachable a s -> gate_inv s.
Proof.
  induction 1 as [|s s' _ IH Hstep]; [|by eapply gate_step].
  split_and!; [done|done|]. intros pre c post Heq. by destruct pre.
Qed.
End Gate.

(** C3. Host verification is never bypassed: with an expected fingerprint configured,
    in every interleaving of the adapter's operations and whatever the processes
    answer, a command that reaches the remote tmux is started only after the keys
    of the host were scanned, hashed, and the expected fingerprint was found among
    the hashes. *)
Theorem host_verified_before_tmux o a f s pre c post v :
  newSshTmuxAdapter o = Ok a -> expectedFingerprintSha256 a = Some f ->
  ssh_reachable a s -> history s = pre ++ Started c :: post -> remote_vector c = Some v ->
  exists keys hashes,
    Answered (keyscan_call a) (Ok keys) ∈ pre /\
    Answered (keygen_call a keys) (Ok hashes) ∈ pre /\
    f ∈ parseSha256Fingerprints hashes.
Proof.
  intros (_ & Hs & _ & _ & Hfp)%new_adapter_fields Hf Hr Hlog Hv.
  assert (Hne : forall f, expectedFingerprintSha256 a = Some f -> is_empty f = false).
  { intros f' Hf'. apply Hfp in Hf'. by destruct f'. }
  destruct (gate_reachable a Hne (Z.le_trans 0 1 _ ltac:(done) (proj1 Hs)) s Hr) as (_ & _ & Hgate).
  assert (Hok : host_checked a pre) by (eapply Hgate; [exact Hlog|by rewrite Hv]).
  unfold host_checked in Hok. by rewrite Hf in Hok.
Qed.

(** One [isAvailable] of the demo adapter: scan, hash, then the command. *)
Lemma host_verified_before_tmux_witness :
  exists keys hashes,
    Answered (keyscan_call demo_adapter) (Ok keys) ∈
      [Started (keyscan_call demo_adapter); Answered (keyscan_call demo_adapter) (Ok "host ssh-ed25519 AAAA");
       Started (keygen_call demo_adapter "host ssh-ed25519 AAAA");
       Answered (keygen_call demo_adapter "host ssh-ed25519 AAAA") (Ok "256 SHA256:abc host")] /\
    Answered (keygen_call demo_adapter keys) (Ok hashes) ∈
      [Started (keyscan_call demo_adapter); Answered (keyscan_call demo_adapter) (Ok "host ssh-ed25519 AAAA");
       Started (keygen_call demo_adapter "host ssh-ed25519 AAAA");
       Answered (keygen_call demo_adapter "host ssh-ed25519 AAAA") (Ok "256 SHA256:abc host")] /\
    "SHA256:abc"%string ∈ parseSha256Fingerprints hashes.
Proof.
  assert (Hn : newSshTmuxAdapter demo_options = Ok demo_adapter) by (vm_compute; reflexivity).
  eapply (host_verified_before_tmux demo_options demo_adapter "SHA256:abc" _ _ (ssh_call demo_adapter ["-V"]) [] ["-V"] Hn eq_refl).
  - eapply ssh_next; [eapply ssh_next; [eapply ssh_next; [apply ssh_init|]|]|].
    + apply (step_call demo_adapter _ OpIsAvailable). reflexivity.
    + eapply (step_answer demo_adapter _ 0 (keyscan_call demo_adapter) _ (Ok "host ssh-ed25519 AAAA")); reflexivity.
    + eapply (step_answer demo_adapter _ 0 (keygen_call demo_adapter "host ssh-ed25519 AAAA") _ (Ok "256 SHA256:abc host")); reflexivity.
  - reflexivity.
  - apply remote_vector_ssh.
Defined.
