(* ===== verification/Cmux.v ===== *)
(** * cmux adapter ([src/runtime/cmux-adapter.ts])

    Surfaces come from the cmux CLI as JSON of several shapes; [JSON.parse] is a
    parameter ([None] when it throws). *)

From S2P Require Import Prelude Process.
Local Open Scope Z_scope.

Record CmuxPane : Type := Pane {
  sessionName : string;
  windowIndex : num;
  windowName : string;
  paneIndex : num;
  paneId : string;
  paneTitle : string;
  currentCommand : string
}.

(** The object as the server sees it. *)
Definition pane_object (p : CmuxPane) : pane_row :=
  [("sessionName", JStr (sessionName p)); ("windowIndex", JNum (windowIndex p));
   ("windowName", JStr (windowName p)); ("paneIndex", JNum (paneIndex p));
   ("paneId", JStr (paneId p)); ("paneTitle", JStr (paneTitle p));
   ("currentCommand", JStr (currentCommand p))].

(** [?.] on a value that is a record or null. *)
Definition asRecord (value : jsval) : option (list (string * jsval)) :=
  match value with JObj fields => Some fields | _ => None end.

Definition asArray (value : jsval) : option (list jsval) :=
  match value with JArr l => Some l | _ => None end.

Definition get (record : option (list (string * jsval))) (key : string) : jsval :=
  match record with Some fields => field key fields | None => JUndefined end.

Definition readString (value : jsval) : string := str_or "" value.

Definition toNumber (value : jsval) : num :=
  match value with
  | JNum (Fin m e) => num_of_Z (trunc m e)
  | JStr s => match parse_int s with Fin m e => Fin m e | _ => num_of_Z 0 end
  | _ => num_of_Z 0
  end.

(** [a || b] on strings and on finite numbers. *)
Definition or_str (a b : string) : string := if is_empty a then b else a.
Definition or_num (a b : num) : num := match a with NaN | Fin 0 _ => b | _ => a end.

(** [Math.max(1, Math.trunc(Math.abs(lines)))] for an integer. *)
Definition normalizeLineCount (lines : Z) : Z := Z.max 1 (Z.abs lines).

Definition toPaneRow (surface : jsval) : option CmuxPane :=
  match asRecord surface with
  | None => None
  | Some record =>
      let surfaceType := to_lower (readString (field "type" record)) in
      if negb (bool_decide (surfaceType = "terminal")) then None
      else
        let paneId := or_str (readString (field "id" record)) (readString (field "surfaceId" record)) in
        if is_empty paneId then None
        else
          let windowRecord := asRecord (field "window" record) in
          let windowName :=
            or_str (readString (field "windowName" record))
              (or_str (readString (get windowRecord "name")) "cmux") in
          let windowIndex :=
            or_num (toNumber (field "windowIndex" record)) (toNumber (get windowRecord "index")) in
          Some (Pane
            (or_str (readString (field "sessionName" record))
               (or_str (readString (field "session" record)) "default"))
            windowIndex windowName
            (or_num (toNumber (field "paneIndex" record)) (toNumber (field "index" record)))
            paneId
            (or_str (readString (field "title" record)) (readString (field "name" record)))
            (or_str (readString (field "currentCommand" record)) (readString (field "command" record))))
  end.

(** [a ?? b] on arrays or null. *)
Definition or_array (a b : option (list jsval)) : option (list jsval) :=
  match a with Some _ => a | None => b end.

Definition extractSurfaces (payload : jsval) : list jsval :=
  match asRecord payload with
  | None => []
  | Some root =>
      let fromPayload := asRecord (field "payload" root) in
      let resultFromPayload := asRecord (get fromPayload "result") in
      let fromRootResult := asRecord (field "result" root) in
      default []
        (or_array (asArray (get fromPayload "surfaces"))
           (or_array (asArray (get resultFromPayload "surfaces"))
              (or_array (asArray (field "surfaces" root))
                 (asArray (get fromRootResult "surfaces")))))
  end.

(** The position of the first character satisfying [f]: [s.search]. *)
Fixpoint search_char (f : ascii -> bool) (s : string) : option nat :=
  match s with
  | EmptyString => None
  | String c r => if f c then Some O else S <$> search_char f r
  end.

(** Positions as JavaScript has them, -1 for absent. *)
Definition position (i : option nat) : Z := match i with Some i => Z.of_nat i | None => -1 end.

(** [s.slice(start, end)] for [0 <= start <= end]. *)
Definition slice (start stop : Z) (s : string) : string :=
  str_take (Z.to_nat (stop - start)) (str_drop (Z.to_nat start) s).

Section Json.
Context (JSON_parse : string -> option jsval).

(** [null] for output that holds no JSON. *)
Definition parseJsonOutput (stdout : string) : jsval :=
  let trimmed := trim stdout in
  if is_empty trimmed then JNull
  else
    match JSON_parse trimmed with
    | Some v => v
    | None =>
        let start := position (search_char (one_of "{[") trimmed) in
        let endObject := position (last_index_of "}" trimmed) in
        let endArray := position (last_index_of "]" trimmed) in
        let stop := Z.max endObject endArray in
        if (start <? 0) || (stop <=? start) then JNull
        else default JNull (JSON_parse (slice start (stop + 1) trimmed))
    end.

(** [if (!payload)]: the falsy JSON values; none of them is a record. *)
Definition falsy (v : jsval) : bool :=
  match v with
  | JUndefined | JNull | JBool false | JStr EmptyString | JNum NaN | JNum (Fin 0 _) => true
  | _ => false
  end.

Record CmuxAdapterOptions : Type := CmuxOptions {
  opt_cmuxCommand : option string;
  opt_commandTimeoutMs : option Z
}.

Record CmuxAdapter : Type := Adapter { cmuxCommand : string; commandTimeoutMs : Z }.

Definition newCmuxAdapter (options : CmuxAdapterOptions) : CmuxAdapter :=
  Adapter (default "cmux" (opt_cmuxCommand options)) (default 6000 (opt_commandTimeoutMs options)).

Context {St : Type} (adapter : CmuxAdapter).

Definition run_cmux (args : list string) : proc St string :=
  await_call (Command (cmuxCommand adapter) args (commandTimeoutMs adapter)).

Definition isAvailable : proc St bool :=
  try_catch (stdout ← run_cmux ["capabilities"; "--json"];
             mret (match parseJsonOutput stdout with JNull => false | _ => true end))
    (fun _ => mret false).

Definition listPanes : proc St (list CmuxPane) :=
  stdout ← run_cmux ["list-surfaces"; "--json"];
  let payload := parseJsonOutput stdout in
  mret (if falsy payload then [] else omap toPaneRow (extractSurfaces payload)).

Definition capturePane (paneId : string) (lines : Z) : proc St string :=
  run_cmux ["read-screen"; "--surface"; paneId; "--scrollback"; "--lines";
            int_to_string (normalizeLineCount lines)].

Definition sendInput (paneId text : string) : proc St unit :=
  _ ← run_cmux ["send"; "--surface"; paneId; text]; mret tt.

(** ** Lemmas *)

Lemma search_char_app f a b :
  str_forallb (fun c => negb (f c)) a = true ->
  search_char f (a +:+ b)%string = (fun i => (String.length a + i)%nat) <$> search_char f b.
Proof.
  induction a as [|c a IH]; intros Ha.
  - rewrite str_app_nil_l. by destruct (search_char f b).
  - rewrite str_app_cons. simpl in Ha |- *. apply andb_true_iff in Ha as [Hc Ha].
    apply negb_true_iff in Hc. rewrite Hc, IH by done. by destruct (search_char f b).
Qed.

Lemma last_index_none c s : str_forallb (fun d => negb (Ascii.eqb c d)) s = true -> last_index_of c s = None.
Proof.
  induction s as [|d s IH]; simpl; [done|]. intros [Hd Hs]%andb_true_iff.
  rewrite IH by done. by destruct (Ascii.eqb c d).
Qed.

Lemma last_index_app c a b :
  last_index_of c (a +:+ b)%string =
    match last_index_of c b with
    | Some i => Some (String.length a + i)%nat
    | None => last_index_of c a
    end.
Proof.
  induction a as [|d a IH].
  - rewrite str_app_nil_l. by destruct (last_index_of c b).
  - rewrite str_app_cons. simpl. rewrite IH. by destruct (last_index_of c b).
Qed.

Lemma last_index_lt c s i : last_index_of c s = Some i -> (i < String.length s)%nat.
Proof.
  revert i. induction s as [|d s IH]; intros i; simpl; [done|].
  destruct (last_index_of c s) as [j|].
  - intros [= <-]. specialize (IH j eq_refl). lia.
  - destruct (Ascii.eqb c d); [|done]. intros [= <-]. lia.
Qed.

Lemma closing_position a m tail :
  str_forallb (fun c => negb (one_of "}]" c)) tail = true -> one_of "}]" m = true ->
  Z.max (position (last_index_of "}" (a +:+ String m tail)%string))
        (position (last_index_of "]" (a +:+ String m tail)%string)) = Z.of_nat (String.length a).
Proof.
  intros Ht Hm.
  assert (Hnone : last_index_of "}" tail = None /\ last_index_of "]" tail = None).
  { split; apply last_index_none; (eapply str_forallb_impl; [|exact Ht]);
      intros c; by destruct c as [[] [] [] [] [] [] [] []]. }
  destruct Hnone as [H1 H2].
  assert (Hle : forall c, position (last_index_of c a) <= Z.of_nat (String.length a)).
  { intros c. destruct (last_index_of c a) eqn:Hl; simpl; [apply last_index_lt in Hl; lia|lia]. }
  pose proof (Hle "}"%char) as L1. pose proof (Hle "]"%char) as L2.
  rewrite !last_index_app. cbn [last_index_of]. rewrite H1, H2.
  assert (Hmm : m = "}"%char \/ m = "]"%char).
  { clear -Hm. destruct m as [[] [] [] [] [] [] [] []]; try done; by (left + right). }
  destruct Hmm as [->| ->]; simpl; rewrite Nat.add_0_r; lia.
Qed.

(** Log noise around the JSON is tolerated: output that is not JSON as a whole,
    but is noise without an opening bracket, then a text from an opening to a
    closing bracket, then noise without a closing bracket, yields what that text
    parses to. *)
Theorem noisy_output_recovered stdout noise first body last_ tail :
  trim stdout = (noise +:+ String first (body +:+ String last_ tail))%string ->
  JSON_parse (trim stdout) = None ->
  str_forallb (fun c => negb (one_of "{[" c)) noise = true -> one_of "{[" first = true ->
  one_of "}]" last_ = true -> str_forallb (fun c => negb (one_of "}]" c)) tail = true ->
  parseJsonOutput stdout = default JNull (JSON_parse (String first (body +:+ String last_ ""))%string).
Proof.
  intros Heq Hfail Hnoise Hfirst Hlast Htail. unfold parseJsonOutput. rewrite Hfail, Heq.
  assert (Hne : is_empty (noise +:+ String first (body +:+ String last_ tail))%string = false).
  { by destruct noise. }
  rewrite Hne, search_char_app by done. cbn [search_char]. rewrite Hfirst. simpl (position _).
  assert (Hassoc : (noise +:+ String first (body +:+ String last_ tail))%string =
    ((noise +:+ String first body) +:+ String last_ tail)%string).
  { by rewrite <- str_app_assoc, str_app_cons. }
  rewrite Hassoc, closing_position, str_app_length by done. cbn [String.length].
  destruct (Z.ltb_spec (Z.of_nat (String.length noise + 0)) 0); [lia|].
  destruct (Z.leb_spec (Z.of_nat (String.length noise + S (String.length body)))
    (Z.of_nat (String.length noise + 0))); [lia|]. cbn [orb]. do 2 f_equal.
  rewrite <- Hassoc. unfold slice.
  replace (Z.to_nat (Z.of_nat (String.length noise + 0))) with (String.length noise) by lia.
  rewrite str_drop_app.
  assert (Hsplit : (String first (body +:+ String last_ tail))%string =
    ((String first (body +:+ String last_ "")) +:+ tail)%string).
  { rewrite str_app_cons, <- str_app_assoc, str_app_cons, str_app_nil_l. done. }
  rewrite Hsplit.
  replace (Z.to_nat _) with (String.length (String first (body +:+ String last_ "")%string)).
  - by rewrite str_take_app.
  - cbn [String.length]. rewrite str_app_length. cbn [String.length]. lia.
Qed.
End Json.

(** A parser of one document, for the witness. *)
Definition demo_json (s : string) : option jsval :=
  if bool_decide (s = "[1]") then Some (JArr [JInt 1]) else None.

Lemma noisy_output_recovered_witness :
  parseJsonOutput demo_json (" [warn: [1] done" +:+ String "010" "")%string = JNull /\
  parseJsonOutput demo_json ("warn: [1] done" +:+ String "010" "")%string = JArr [JInt 1].
Proof.
  split; [vm_compute; reflexivity|].
  apply (noisy_output_recovered demo_json _ "warn: " "[" "1" "]" " done"); vm_compute; reflexivity.
Defined.

(** [listPanes] returns a row for exactly the surfaces of type [terminal] (in any
    case) with a non-empty [id] or [surfaceId], and the row carries the surface's own
    [id] when it has one. *)
Theorem toPaneRow_exact surface :
  match toPaneRow surface with
  | Some pane => exists record, surface = JObj record /\
      to_lower (str_or "" (field "type" record)) = "terminal"%string /\ paneId pane <> EmptyString /\
      (field "id" record = JStr (paneId pane) \/
       (str_or "" (field "id" record) = EmptyString /\ field "surfaceId" record = JStr (paneId pane))) /\
      sessionName pane <> EmptyString /\ windowName pane <> EmptyString
  | None => forall record, surface = JObj record ->
      to_lower (str_or "" (field "type" record)) <> "terminal"%string \/
      (str_or "" (field "id" record) = EmptyString /\ str_or "" (field "surfaceId" record) = EmptyString)
  end.
Proof.
  assert (Hor : forall a b, or_str a b = EmptyString -> a = EmptyString /\ b = EmptyString).
  { intros a b. unfold or_str. by destruct a. }
  unfold toPaneRow, readString. destruct surface as [| | | | | |record]; simpl; try by intros ? [=].
  case_bool_decide as Ht; simpl.
  2:{ intros r [= <-]. by left. }
  destruct (is_empty (or_str _ _)) eqn:He.
  { intros r [= <-]. right. apply Hor. by destruct (or_str _ _). }
  exists record. split_and!; try done; simpl.
  - intros Hn. by rewrite Hn in He.
  - unfold or_str in *. destruct (is_empty (str_or "" (field "id" record))) eqn:Hi.
    + right. split; [by destruct (str_or "" (field "id" record))|].
      by destruct (field "surfaceId" record).
    + left. by destruct (field "id" record).
  - intros Hn. apply Hor in Hn as [_ Hn]. by apply Hor in Hn as [_ Hn].
  - intros Hn. apply Hor in Hn as [_ Hn]. by apply Hor in Hn as [_ Hn].
Qed.
