(* ===== verification/Config.v ===== *)
(** * Configuration ([src/config.ts])

    The environment is a function from names to values.  [isIP] of [node:net] and
    the readability test of [node:fs] are parameters. *)

From S2P Require Import Prelude JsMap SshTarget.
Local Open Scope Z_scope.

Abbreviation environment := (string -> option string).

Record BridgeConfig : Type := BConfig {
  runtimeBackends : list string;
  cmuxCommand : string;
  cfg_host : string;
  port : num;
  transportMode : string;
  sshProfileName : string;
  sshTarget : option string;
  sshPort : num;
  sshCommand : string;
  sshConnectTimeoutSeconds : num;
  sshStrictHostKeyChecking : bool;
  sshKnownHostsFile : option string;
  sshExpectedFingerprintSha256 : option string;
  strictProtocolParsing : bool;
  appStaticEnabled : bool;
  appStaticDir : string;
  pollIntervalMs : num;
  replayLines : num;
  maxHistoryEvents : num;
  maxInputBytes : num;
  maxAttachedPanes : num;
  maxMessagesPerMinute : num;
  maxInputsPerMinute : num;
  globalInputDisabled : bool;
  allowInputOwnershipOverride : bool;
  inputLaneLeaseMs : num;
  authToken : option string;
  auditLogPath : option string
}.

Definition SUPPORTED_RUNTIME_BACKENDS : list string := ["tmux"; "cmux"].
Definition SUPPORTED_TRANSPORT_MODES : list string := ["ws"; "ssh"].

Definition base64_char (c : ascii) : bool := is_alnum c || one_of "+/" c.

Definition SSH_SHA256_FINGERPRINT_PATTERN (s : string) : bool :=
  starts_with "SHA256:" s &&
  let r := str_drop 7 s in
  ((str_len r =? 43) && str_forallb base64_char r) ||
  ((str_len r =? 44) && str_forallb base64_char (str_take 43 r) &&
   bool_decide (str_drop 43 r = "=")).

Record NumericBounds : Type := Bounds { bound_min : option Z; bound_max : option Z }.

Definition below (n : num) (min : option Z) : bool :=
  match min with Some min => num_lt_Z n min | None => false end.
Definition above (n : num) (max : option Z) : bool :=
  match max with Some max => num_gt_Z n max | None => false end.

Definition is_finite (n : num) : bool := match n with Fin _ _ => true | _ => false end.

Definition parseIntEnv (raw : option string) (fallback : Z) (bounds : NumericBounds) : num :=
  let raw := default "" raw in
  if is_empty raw then num_of_Z fallback
  else
    let parsed := parse_int raw in
    if negb (is_finite parsed) then num_of_Z fallback
    else if below parsed (bound_min bounds) then num_of_Z fallback
    else if above parsed (bound_max bounds) then num_of_Z fallback
    else parsed.

Definition received (raw : string) : string := (" (received " +:+ in_quotes raw +:+ ")")%string.

(** [/^-?\d+$/]. *)
Definition integer_text (s : string) : bool :=
  let digits := match s with
                | String c r => if Ascii.eqb c "-" then r else s
                | EmptyString => s
                end in
  negb (is_empty digits) && str_forallb is_num digits.

Definition parseStrictIntEnv (raw : option string) (fallback : Z) (bounds : NumericBounds)
    (envName : string) : result string num :=
  match raw with
  | None => Ok (num_of_Z fallback)
  | Some raw =>
      let trimmed := trim raw in
      if is_empty trimmed then Ok (num_of_Z fallback)
      else if negb (integer_text trimmed)
      then Throw (envName +:+ " must be an integer" +:+ received raw)%string
      else
        let parsed := parse_int trimmed in
        if below parsed (bound_min bounds)
        then Throw (envName +:+ " must be >= " +:+ int_to_string (default 0 (bound_min bounds)) +:+ received raw)%string
        else if above parsed (bound_max bounds)
        then Throw (envName +:+ " must be <= " +:+ int_to_string (default 0 (bound_max bounds)) +:+ received raw)%string
        else Ok parsed
  end.

Definition parseBooleanEnv (raw : option string) (fallback : bool) (envName : string) :
    result string bool :=
  let raw := default "" raw in
  if is_empty raw then Ok fallback
  else
    let normalized := to_lower (trim raw) in
    if bool_decide (normalized ∈ ["1"; "true"; "yes"; "on"]) then Ok true
    else if bool_decide (normalized ∈ ["0"; "false"; "no"; "off"]) then Ok false
    else Throw (envName +:+ " must be one of: 1,true,yes,on,0,false,no,off" +:+ received raw)%string.

Definition parseBooleanEnvWithAlias (env : environment) (primaryName aliasName : string)
    (fallback : bool) : result string bool :=
  match env primaryName with
  | Some primary => parseBooleanEnv (Some primary) fallback primaryName
  | None => parseBooleanEnv (env aliasName) fallback aliasName
  end.

Definition parseOptionalStringEnv (raw : option string) : option string :=
  let trimmed := trim (default "" raw) in
  if is_empty trimmed then None else Some trimmed.

Definition parseOptionalSshFingerprintSha256Env (raw : option string) (envName : string) :
    result string (option string) :=
  match parseOptionalStringEnv raw with
  | None => Ok None
  | Some parsed =>
      if negb (SSH_SHA256_FINGERPRINT_PATTERN parsed)
      then Throw (envName +:+ " must match SHA256:<base64> format" +:+ received (default "" raw))%string
      else Ok (Some parsed)
  end.

Definition parseSshProfileNameEnv (raw : option string) (fallback envName : string) :
    result string string :=
  match raw with
  | None => Ok fallback
  | Some raw =>
      let trimmed := trim raw in
      if is_empty trimmed then Throw (envName +:+ " must be non-empty when provided")%string
      else if negb (isValidSshProfileName trimmed)
      then Throw (envName +:+ " must contain only letters, numbers, dot, underscore, or hyphen" +:+ received raw)%string
      else Ok trimmed
  end.

Definition parseStringEnv (raw : option string) (fallback : string) : string :=
  let trimmed := trim (default "" raw) in
  if is_empty trimmed then fallback else trimmed.

Definition parseEnumEnv (raw : option string) (fallback : string) (allowed : list string)
    (envName : string) : result string string :=
  match raw with
  | None => Ok fallback
  | Some raw =>
      let trimmed := to_lower (trim raw) in
      if is_empty trimmed then Ok fallback
      else if negb (bool_decide (trimmed ∈ allowed))
      then Throw (envName +:+ " must be one of: " +:+ join "," allowed +:+ received raw)%string
      else Ok trimmed
  end.

Definition unsupported_backend (backend : string) : string :=
  ("COMMANDRELAY_RUNTIME_BACKENDS contains unsupported backend " +:+ in_quotes backend +:+
   " (supported: " +:+ join "," SUPPORTED_RUNTIME_BACKENDS +:+ ")")%string.

(** The loop with its [seen] set; [deduped] holds the same elements. *)
Fixpoint dedupe_backends (deduped selected : list string) : result string (list string) :=
  match selected with
  | [] => Ok deduped
  | backend :: selected =>
      if negb (bool_decide (backend ∈ SUPPORTED_RUNTIME_BACKENDS)) then Throw (unsupported_backend backend)
      else if js_has backend deduped then dedupe_backends deduped selected
      else dedupe_backends (deduped ++ [backend]) selected
  end.

Definition parseRuntimeBackendsEnv (raw : option string) : result string (list string) :=
  let raw := default "" raw in
  if is_empty (trim raw) then Ok ["tmux"]
  else
    let selected := filter (fun value => is_empty value = false)
                      ((fun value => to_lower (trim value)) <$> split_on "," raw) in
    if (length selected =? 0)%nat then Ok ["tmux"]
    else
      (let! deduped := dedupe_backends [] selected in
       Ok (if (0 <? length deduped)%nat then deduped else ["tmux"]))%js.

Definition isLoopbackHost (host : string) : bool :=
  bool_decide (host = "127.0.0.1") || bool_decide (host = "::1") || bool_decide (host = "localhost").

Section Load.
Context (isIP : string -> Z).

Definition parseOptionalSshTargetEnv (raw : option string) (envName : string) :
    result string (option string) :=
  match parseOptionalStringEnv raw with
  | None => Ok None
  | Some parsed =>
      match parseSshTarget isIP parsed with
      | Ok _ => Ok (Some parsed)
      | Throw _ =>
          Throw (envName +:+ " must match [user@]host format (letters/numbers/._- or bracketed IPv6 host)")%string
      end
  end.

(** [env.COMMANDRELAY_HOST || "127.0.0.1"]. *)
Definition load_host (env : environment) : string :=
  let host := default "" (env "COMMANDRELAY_HOST"%string) in
  if is_empty host then "127.0.0.1" else host.

Definition between (min max : Z) : NumericBounds := Bounds (Some min) (Some max).

(** The fields in the order of the object literal. *)
Definition loadConfig (env : string -> option string) : result string BridgeConfig :=
  (let! backends := parseRuntimeBackendsEnv (env "COMMANDRELAY_RUNTIME_BACKENDS"%string) in
   let! transport := parseEnumEnv (env "COMMANDRELAY_TRANSPORT_MODE"%string) "ws"
     SUPPORTED_TRANSPORT_MODES "COMMANDRELAY_TRANSPORT_MODE" in
   let! profile := parseSshProfileNameEnv (env "COMMANDRELAY_SSH_PROFILE"%string) "primary"
     "COMMANDRELAY_SSH_PROFILE" in
   let! target := parseOptionalSshTargetEnv (env "COMMANDRELAY_SSH_TARGET"%string)
     "COMMANDRELAY_SSH_TARGET" in
   let! ssh_port := parseStrictIntEnv (env "COMMANDRELAY_SSH_PORT"%string) 22 (between 1 65535)
     "COMMANDRELAY_SSH_PORT" in
   let! seconds := parseStrictIntEnv (env "COMMANDRELAY_SSH_CONNECT_TIMEOUT_SECONDS"%string) 8
     (between 1 60) "COMMANDRELAY_SSH_CONNECT_TIMEOUT_SECONDS" in
   let! strict_keys := parseBooleanEnv (env "COMMANDRELAY_SSH_STRICT_HOST_KEY_CHECKING"%string) true
     "COMMANDRELAY_SSH_STRICT_HOST_KEY_CHECKING" in
   let! fingerprint := parseOptionalSshFingerprintSha256Env
     (env "COMMANDRELAY_SSH_EXPECTED_FINGERPRINT_SHA256"%string)
     "COMMANDRELAY_SSH_EXPECTED_FINGERPRINT_SHA256" in
   let! strict := parseBooleanEnvWithAlias env "COMMANDRELAY_STRICT_PROTOCOL_PARSING"
     "COMMANDRELAY_STRICT_V1" true in
   let! static := parseBooleanEnv (env "COMMANDRELAY_APP_STATIC_ENABLED"%string) true
     "COMMANDRELAY_APP_STATIC_ENABLED" in
   let! kill := parseBooleanEnv (env "COMMANDRELAY_INPUT_KILL_SWITCH"%string) false
     "COMMANDRELAY_INPUT_KILL_SWITCH" in
   let! override := parseBooleanEnv (env "COMMANDRELAY_ALLOW_INPUT_OVERRIDE"%string) true
     "COMMANDRELAY_ALLOW_INPUT_OVERRIDE" in
   Ok {| runtimeBackends := backends;
         cmuxCommand := parseStringEnv (env "COMMANDRELAY_CMUX_COMMAND"%string) "cmux";
         cfg_host := load_host env;
         port := parseIntEnv (env "COMMANDRELAY_PORT"%string) 8787 (between 1 65535);
         transportMode := transport;
         sshProfileName := profile;
         sshTarget := target;
         sshPort := ssh_port;
         sshCommand := parseStringEnv (env "COMMANDRELAY_SSH_COMMAND"%string) "ssh";
         sshConnectTimeoutSeconds := seconds;
         sshStrictHostKeyChecking := strict_keys;
         sshKnownHostsFile := parseOptionalStringEnv (env "COMMANDRELAY_SSH_KNOWN_HOSTS_FILE"%string);
         sshExpectedFingerprintSha256 := fingerprint;
         strictProtocolParsing := strict;
         appStaticEnabled := static;
         appStaticDir := parseStringEnv (env "COMMANDRELAY_APP_STATIC_DIR"%string) "apps/web";
         pollIntervalMs := parseIntEnv (env "COMMANDRELAY_POLL_MS"%string) 350 (between 100 5000);
         replayLines := parseIntEnv (env "COMMANDRELAY_REPLAY_LINES"%string) 200 (between 20 5000);
         maxHistoryEvents := parseIntEnv (env "COMMANDRELAY_HISTORY_EVENTS"%string) 300 (between 50 5000);
         maxInputBytes := parseIntEnv (env "COMMANDRELAY_MAX_INPUT_BYTES"%string) 4096 (between 16 65536);
         maxAttachedPanes := parseIntEnv (env "COMMANDRELAY_MAX_ATTACHED_PANES"%string) 8 (between 1 64);
         maxMessagesPerMinute := parseIntEnv (env "COMMANDRELAY_MAX_MSG_PER_MIN"%string) 240 (between 30 5000);
         maxInputsPerMinute := parseIntEnv (env "COMMANDRELAY_MAX_INPUT_PER_MIN"%string) 60 (between 5 2000);
         globalInputDisabled := kill;
         allowInputOwnershipOverride := override;
         inputLaneLeaseMs := parseIntEnv (env "COMMANDRELAY_INPUT_LANE_LEASE_MS"%string) 30000
           (between 1000 300000);
         authToken := parseOptionalStringEnv (env "COMMANDRELAY_AUTH_TOKEN"%string);
         auditLogPath := parseOptionalStringEnv (env "COMMANDRELAY_AUDIT_LOG"%string) |})%js.
End Load.

(** A value the code tests for truth: a non-empty string. *)
Definition present (s : option string) : bool := negb (is_empty (default "" s)).

Section Validate.
(** [accessSync(path, R_OK)] returns normally. *)
Context (readable : string -> bool).

Definition validateStartupConfig (config : BridgeConfig) : result string unit :=
  let ssh := bool_decide (transportMode config = "ssh"%string) in
  if negb (isLoopbackHost (cfg_host config)) && negb (present (authToken config))
  then Throw "COMMANDRELAY_AUTH_TOKEN is required when COMMANDRELAY_HOST is not loopback"%string
  else if ssh && negb (present (sshTarget config))
  then Throw "COMMANDRELAY_SSH_TARGET is required when COMMANDRELAY_TRANSPORT_MODE is ssh"%string
  else if ssh && negb (bool_decide (runtimeBackends config = ["tmux"%string]))
  then Throw ("COMMANDRELAY_RUNTIME_BACKENDS must be tmux when COMMANDRELAY_TRANSPORT_MODE is ssh" +:+
              received (join "," (runtimeBackends config)))%string
  else if ssh && present (sshKnownHostsFile config) && negb (readable (default "" (sshKnownHostsFile config)))
  then Throw ("COMMANDRELAY_SSH_KNOWN_HOSTS_FILE must reference a readable file when COMMANDRELAY_TRANSPORT_MODE=ssh" +:+
              received (default "" (sshKnownHostsFile config)))%string
  else if negb (sshStrictHostKeyChecking config) && present (sshExpectedFingerprintSha256 config)
  then Throw "COMMANDRELAY_SSH_EXPECTED_FINGERPRINT_SHA256 requires COMMANDRELAY_SSH_STRICT_HOST_KEY_CHECKING=true and must be unset when strict host key checking is disabled"%string
  else Ok tt.
End Validate.

(** ** What a loaded configuration satisfies *)

Definition int_between (n : num) (lo hi : Z) : Prop := exists z, n = num_of_Z z /\ lo <= z <= hi.

Record config_ok (isIP : string -> Z) (c : BridgeConfig) : Prop := {
  ok_backends : runtimeBackends c <> [] /\ NoDup (runtimeBackends c) /\
                Forall (fun b => b ∈ SUPPORTED_RUNTIME_BACKENDS) (runtimeBackends c);
  ok_transport : transportMode c ∈ SUPPORTED_TRANSPORT_MODES;
  ok_strings : Forall (fun s => s <> EmptyString)
                 [cmuxCommand c; cfg_host c; sshProfileName c; sshCommand c; appStaticDir c];
  ok_options : Forall (fun o => o <> Some EmptyString)
                 [sshTarget c; sshKnownHostsFile c; sshExpectedFingerprintSha256 c; authToken c; auditLogPath c];
  ok_profile : isValidSshProfileName (sshProfileName c) = true;
  ok_target : forall t, sshTarget c = Some t -> exists p, parseSshTarget isIP t = Ok p;
  ok_fingerprint : forall f, sshExpectedFingerprintSha256 c = Some f ->
                     SSH_SHA256_FINGERPRINT_PATTERN f = true;
  ok_ssh_numbers : int_between (sshPort c) 1 65535 /\ int_between (sshConnectTimeoutSeconds c) 1 60;
  ok_port : int_between (port c) 1 65535;
  ok_limits : int_between (pollIntervalMs c) 100 5000 /\ int_between (replayLines c) 20 5000 /\
              int_between (maxHistoryEvents c) 50 5000 /\ int_between (maxInputBytes c) 16 65536 /\
              int_between (maxAttachedPanes c) 1 64 /\ int_between (maxMessagesPerMinute c) 30 5000 /\
              int_between (maxInputsPerMinute c) 5 2000 /\ int_between (inputLaneLeaseMs c) 1000 300000
}.

Lemma parse_int_cases s : parse_int s = NaN \/ (exists b, parse_int s = Inf b) \/ exists z, parse_int s = num_of_Z z.
Proof. unfold parse_int. repeat case_match; eauto. Qed.

(** A value that passed both tests. *)
Lemma tested_between s lo hi :
  parse_int s <> NaN -> below (parse_int s) (Some lo) = false -> above (parse_int s) (Some hi) = false ->
  int_between (parse_int s) lo hi.
Proof.
  unfold below, above. destruct (parse_int_cases s) as [->|[[[] ->]|[z ->]]]; [done..|].
  rewrite num_lt_Z_int, num_gt_Z_int. intros _ H1 H2. exists z. split; [done|]. lia.
Qed.

Lemma parseIntEnv_between raw fallback lo hi :
  lo <= fallback <= hi -> int_between (parseIntEnv raw fallback (between lo hi)) lo hi.
Proof.
  intros Hf. assert (Hfb : int_between (num_of_Z fallback) lo hi) by (by exists fallback).
  unfold parseIntEnv. cbn [between bound_min bound_max].
  destruct (is_empty _); [done|]. destruct (negb (is_finite _)) eqn:Hfin; [done|].
  destruct (below _ _) eqn:Hb; [done|]. destruct (above _ _) eqn:Ha; [done|].
  apply tested_between; [|done..]. intros Hn. by rewrite Hn in Hfin.
Qed.

(** A text of the integer pattern has digits to read. *)
Lemma read_digits_Some acc s : acc <> None -> read_digits acc s <> None.
Proof.
  revert acc. induction s as [|c s IH]; intros acc Hacc; [done|]. simpl.
  destruct (digit_of c); [by apply IH|done].
Qed.

Lemma is_num_digit c : is_num c = true -> exists d, digit_of c = Some d.
Proof. unfold is_num, digit_of. intros ->. eauto. Qed.

Lemma read_digits_num c r : is_num c = true -> read_digits None (String c r) <> None.
Proof.
  intros (d & Hd)%is_num_digit. simpl. rewrite Hd. by apply read_digits_Some.
Qed.

Lemma num_not_space c : is_num c = true -> is_space c = false /\ c <> "-"%char /\ c <> "+"%char.
Proof. by destruct c as [[] [] [] [] [] [] [] []]. Qed.

Lemma integer_text_parses s : integer_text s = true -> parse_int s <> NaN.
Proof.
  unfold integer_text. intros [Hne Hd]%andb_true_iff.
  assert (Hex : parse_int_exact s <> None).
  { destruct s as [|c r]; [done|]. destruct (Ascii.eqb_spec c "-") as [->|Hc].
    - destruct r as [|c r]; [done|]. simpl in Hd. apply andb_true_iff in Hd as [Hc _].
      unfold parse_int_exact. cbn [trim_start]. change (is_space "-") with false. cbv iota.
      pose proof (read_digits_num c r Hc) as Hr. by destruct (read_digits None (String c r)).
    - simpl in Hd. apply andb_true_iff in Hd as [Hn _].
      destruct (num_not_space c Hn) as (Hs & Hm & Hp). unfold parse_int_exact. cbn [trim_start].
      rewrite Hs. pose proof (read_digits_num c r Hn) as Hr.
      clear -Hr Hm Hp. by destruct c as [[] [] [] [] [] [] [] []]. }
  unfold parse_int. destruct (parse_int_exact s) as [z|]; [|done]. by destruct (round_to_double z).
Qed.

Lemma parseStrictIntEnv_between raw fallback lo hi name n :
  lo <= fallback <= hi -> parseStrictIntEnv raw fallback (between lo hi) name = Ok n -> int_between n lo hi.
Proof.
  intros Hf. assert (Hfb : int_between (num_of_Z fallback) lo hi) by (by exists fallback).
  unfold parseStrictIntEnv. cbn [between bound_min bound_max]. destruct raw as [raw|]; [|by intros [= <-]].
  destruct (is_empty _); [by intros [= <-]|].
  destruct (negb (integer_text _)) eqn:Hi; [done|]. apply negb_false_iff in Hi.
  destruct (below _ _) eqn:Hb; [done|]. destruct (above _ _) eqn:Ha; [done|]. intros [= <-].
  apply tested_between; [by apply integer_text_parses|done..].
Qed.

Lemma parseStringEnv_nonempty raw fallback : fallback <> EmptyString -> parseStringEnv raw fallback <> EmptyString.
Proof. intros Hf. unfold parseStringEnv. destruct (is_empty _) eqn:He; [done|]. intros Hn. by rewrite Hn in He. Qed.

Lemma parseOptionalStringEnv_nonempty raw : parseOptionalStringEnv raw <> Some EmptyString.
Proof. unfold parseOptionalStringEnv. destruct (is_empty _) eqn:He; [done|]. intros [= Hn]. by rewrite Hn in He. Qed.

Lemma dedupe_backends_ok deduped selected l :
  dedupe_backends deduped selected = Ok l -> NoDup deduped ->
  Forall (fun b => b ∈ SUPPORTED_RUNTIME_BACKENDS) deduped ->
  NoDup l /\ Forall (fun b => b ∈ SUPPORTED_RUNTIME_BACKENDS) l /\
  (forall b, b ∈ l <-> b ∈ deduped \/ b ∈ selected).
Proof.
  revert deduped. induction selected as [|b selected IH]; intros deduped; simpl.
  - intros [= <-] Hn Hf. split_and!; [done|done|]. set_solver.
  - case_bool_decide as Hb; simpl; [|done]. destruct (js_has b deduped) eqn:Hh; intros Hd Hn Hf.
    + apply js_has_spec in Hh. apply IH in Hd as (? & ? & Hl); [|done..]. split_and!; [done|done|set_solver].
    + assert (Hnb : b ∉ deduped) by (rewrite <- js_has_spec; by rewrite Hh).
      apply IH in Hd as (? & ? & Hl).
      * split_and!; [done|done|set_solver].
      * apply NoDup_app. split_and!; [done|set_solver|apply NoDup_singleton].
      * apply Forall_app. by split; [|constructor].
Qed.

Lemma parseRuntimeBackendsEnv_ok raw l :
  parseRuntimeBackendsEnv raw = Ok l ->
  l <> [] /\ NoDup l /\ Forall (fun b => b ∈ SUPPORTED_RUNTIME_BACKENDS) l.
Proof.
  assert (Htmux : ["tmux"%string] <> [] /\ NoDup ["tmux"%string] /\
    Forall (fun b => b ∈ SUPPORTED_RUNTIME_BACKENDS) ["tmux"%string]).
  { split_and!; [done|apply NoDup_singleton|constructor; [set_solver|done]]. }
  unfold parseRuntimeBackendsEnv. destruct (is_empty _); [by intros [= <-]|].
  destruct (length _ =? 0)%nat; [by intros [= <-]|]. intros (d & Hd & Heq)%rbind_Ok.
  apply dedupe_backends_ok in Hd as (Hn & Hf & _); [|constructor|done].
  destruct d as [|b d]; injection Heq as <-; [done|]. by split_and!.
Qed.

Lemma loadConfig_ok_fields isIP env c : loadConfig isIP env = Ok c -> config_ok isIP c.
Proof.
  unfold loadConfig. rewrite !rbind_Ok. intros (backends & Hb & H).
  apply rbind_Ok in H as (transport & Htr & H). apply rbind_Ok in H as (profile & Hpr & H).
  apply rbind_Ok in H as (target & Hta & H). apply rbind_Ok in H as (ssh_port & Hpo & H).
  apply rbind_Ok in H as (seconds & Hse & H). apply rbind_Ok in H as (strict_keys & _ & H).
  apply rbind_Ok in H as (fingerprint & Hfi & H). apply rbind_Ok in H as (strict & _ & H).
  apply rbind_Ok in H as (static & _ & H). apply rbind_Ok in H as (kill & _ & H).
  apply rbind_Ok in H as (override & _ & H). apply (inj Ok) in H as <-.
  assert (Hprofile : isValidSshProfileName profile = true /\ profile <> EmptyString).
  { unfold parseSshProfileNameEnv in Hpr. repeat case_match; simplify_eq; [|by split].
    match goal with H : negb _ = false |- _ => apply negb_false_iff in H end.
    split; [done|]. intros Hn. by rewrite Hn in *. }
  assert (Htarget : target <> Some EmptyString /\ forall t, target = Some t -> exists p, parseSshTarget isIP t = Ok p).
  { unfold parseOptionalSshTargetEnv in Hta. destruct (parseOptionalStringEnv _) as [t|] eqn:Ht; [|by simplify_eq].
    pose proof (parseOptionalStringEnv_nonempty (env "COMMANDRELAY_SSH_TARGET"%string)) as Hne. rewrite Ht in Hne.
    destruct (parseSshTarget isIP t) as [p|] eqn:Hp; [|done]. injection Hta as <-.
    split; [done|]. intros t' [= <-]. by exists p. }
  assert (Hfinger : fingerprint <> Some EmptyString /\ forall f, fingerprint = Some f -> SSH_SHA256_FINGERPRINT_PATTERN f = true).
  { unfold parseOptionalSshFingerprintSha256Env in Hfi.
    destruct (parseOptionalStringEnv _) as [t|] eqn:Ht; [|by simplify_eq].
    destruct (negb _) eqn:Hn; [done|]. injection Hfi as <-. apply negb_false_iff in Hn.
    split; [by intros [= ->]|by intros f [= <-]]. }
  destruct Hprofile as [Hp1 Hp2], Htarget as [Ht1 Ht2], Hfinger as [Hf1 Hf2].
  split; cbn.
  - by apply parseRuntimeBackendsEnv_ok in Hb.
  - unfold parseEnumEnv in Htr. repeat case_match; simplify_eq; [set_solver| |set_solver].
    match goal with H : negb _ = false |- _ => by apply negb_false_iff, bool_decide_eq_true in H end.
  - repeat constructor; try done; try (by apply parseStringEnv_nonempty).
    unfold load_host. destruct (is_empty _) eqn:He; [done|]. intros Hn. by rewrite Hn in He.
  - repeat constructor; try done; apply parseOptionalStringEnv_nonempty.
  - done.
  - done.
  - done.
  - split; (eapply parseStrictIntEnv_between; [|eassumption]; lia).
  - apply parseIntEnv_between; lia.
  - split_and!; apply parseIntEnv_between; lia.
Qed.

(** C15. A configuration that loads is well formed: the backends are a non-empty
    duplicate-free list of supported ones, the transport and the SSH profile, target
    and fingerprint are valid, no option is blank, and every number is an integer
    within its documented range, whatever the environment holds. *)
Theorem loadConfig_ok isIP env c : loadConfig isIP env = Ok c -> config_ok isIP c.
Proof. apply loadConfig_ok_fields. Qed.

(** The environment of a plain start, and one with values out of range. *)
Definition empty_env : environment := fun _ => None.

Definition default_config : BridgeConfig :=
  {| runtimeBackends := ["tmux"]; cmuxCommand := "cmux"; cfg_host := "127.0.0.1";
     port := num_of_Z 8787; transportMode := "ws"; sshProfileName := "primary"; sshTarget := None;
     sshPort := num_of_Z 22; sshCommand := "ssh"; sshConnectTimeoutSeconds := num_of_Z 8;
     sshStrictHostKeyChecking := true; sshKnownHostsFile := None; sshExpectedFingerprintSha256 := None;
     strictProtocolParsing := true; appStaticEnabled := true; appStaticDir := "apps/web";
     pollIntervalMs := num_of_Z 350; replayLines := num_of_Z 200; maxHistoryEvents := num_of_Z 300;
     maxInputBytes := num_of_Z 4096; maxAttachedPanes := num_of_Z 8;
     maxMessagesPerMinute := num_of_Z 240; maxInputsPerMinute := num_of_Z 60;
     globalInputDisabled := false; allowInputOwnershipOverride := true;
     inputLaneLeaseMs := num_of_Z 30000; authToken := None; auditLogPath := None |}%string.

Lemma default_loads isIP readable :
  loadConfig isIP empty_env = Ok default_config /\ validateStartupConfig readable default_config = Ok tt.
Proof. split; reflexivity. Qed.

Lemma loadConfig_ok_witness :
  loadConfig demo_isIP empty_env = Ok default_config /\ config_ok demo_isIP default_config.
Proof. split; [reflexivity|]. apply (loadConfig_ok demo_isIP empty_env). reflexivity. Defined.

Lemma validateStartupConfig_facts readable c :
  validateStartupConfig readable c = Ok tt <->
  (isLoopbackHost (cfg_host c) = true \/ present (authToken c) = true) /\
  (transportMode c = "ssh"%string ->
     present (sshTarget c) = true /\ runtimeBackends c = ["tmux"%string] /\
     forall f, sshKnownHostsFile c = Some f -> f <> EmptyString -> readable f = true) /\
  (present (sshExpectedFingerprintSha256 c) = true -> sshStrictHostKeyChecking c = true).
Proof.
  unfold validateStartupConfig.
  assert (Hfile : present (sshKnownHostsFile c) && negb (readable (default "" (sshKnownHostsFile c))) = false <->
    forall f, sshKnownHostsFile c = Some f -> f <> EmptyString -> readable f = true).
  { unfold present. destruct (sshKnownHostsFile c) as [f|]; simpl; [|split; [by intros _ f|done]].
    destruct f as [|x f]; simpl; [split; [by intros _ f' [= <-]|done]|].
    rewrite negb_false_iff. split; [by intros H f' [= <-] _|intros H; by apply H]. }
  case_bool_decide as Hssh; simpl.
  - rewrite <- !Hfile. clear Hfile.
    destruct (isLoopbackHost _), (present (authToken c)), (present (sshTarget c)); simpl;
      try by (split; [done|intuition done]).
    all: case_bool_decide as Hb; simpl; [|by split; [done|intuition done]].
    all: destruct (present (sshKnownHostsFile c) && _); [by split; [done|intuition done]|].
    all: destruct (sshStrictHostKeyChecking c), (present (sshExpectedFingerprintSha256 c)); simpl; intuition done.
  - clear Hfile. destruct (isLoopbackHost _), (present (authToken c)); simpl;
      try by (split; [done|intuition done]).
    all: destruct (sshStrictHostKeyChecking c), (present (sshExpectedFingerprintSha256 c)); simpl; intuition done.
Qed.

(** The startup check admits exactly the safe combinations: a host that is not
    loopback needs a token; SSH transport needs a target, tmux as its only backend
    and a readable known-hosts file if one is named; a fingerprint needs strict
    host key checking. *)
Theorem validateStartupConfig_iff readable c :
  validateStartupConfig readable c = Ok tt <->
  (isLoopbackHost (cfg_host c) = true \/ present (authToken c) = true) /\
  (transportMode c = "ssh"%string ->
     present (sshTarget c) = true /\ runtimeBackends c = ["tmux"%string] /\
     forall f, sshKnownHostsFile c = Some f -> f <> EmptyString -> readable f = true) /\
  (present (sshExpectedFingerprintSha256 c) = true -> sshStrictHostKeyChecking c = true).
Proof. apply validateStartupConfig_facts. Qed.
