(* ===== verification/Multiplexer.v ===== *)
(** * Runtime multiplexer ([src/runtime/runtime-backend.ts],
    [src/runtime/runtime-multiplexer.ts])

    A backend is seen through the contract of [RuntimeBackend]: its id and, for each
    operation, what the promise it returns settles to.  [E] is the type of the
    errors a backend rejects with; the multiplexer's own errors are messages. *)

From S2P Require Import Prelude JsMap.
Local Open Scope Z_scope.

Definition PANE_ID_DELIMITER : ascii := ":".

Section Multiplexer.
Context {E : Type} (make_error : string -> E).

Record RuntimeBackend : Type := Backend {
  backendId : string;
  rb_isAvailable : result E bool;
  rb_listPanes : result E (list pane_row);
  rb_capturePane : string -> Z -> result E string;
  rb_sendInput : string -> string -> result E unit
}.

Record RuntimeMultiplexer : Type := Multiplexer {
  backends : list RuntimeBackend;
  backendById : list (string * RuntimeBackend);
  shouldNamespacePaneIds : bool
}.

Fixpoint validateBackends (byId : list (string * RuntimeBackend)) (backends : list RuntimeBackend) :
    result E (list (string * RuntimeBackend)) :=
  match backends with
  | [] => Ok byId
  | backend :: rest =>
      if is_empty (trim (backendId backend))
      then Throw (make_error "Runtime backend id must be a non-empty string")
      else if bool_decide (index_of PANE_ID_DELIMITER (backendId backend) <> None)
      then Throw (make_error ("Runtime backend id " +:+ in_quotes (backendId backend) +:+
                              " cannot contain " +:+ in_quotes (String PANE_ID_DELIMITER ""))%string)
      else if jm_has (backendId backend) byId
      then Throw (make_error ("Duplicate runtime backend id " +:+ in_quotes (backendId backend))%string)
      else validateBackends (jm_set (backendId backend) backend byId) rest
  end.

Definition newRuntimeMultiplexer (options : list RuntimeBackend) : result E RuntimeMultiplexer :=
  if (length options =? 0)%nat then Throw (make_error "RuntimeMultiplexer requires at least one backend")
  else
    (let! byId := validateBackends [] options in
     Ok (Multiplexer options byId (1 <? length options)%nat))%js.

Definition safeIsAvailable (backend : RuntimeBackend) : bool :=
  match rb_isAvailable backend with Ok b => b | Throw _ => false end.

Definition checkBackendAvailability (m : RuntimeMultiplexer) : list (string * bool) :=
  foldl (fun acc backend => jm_set (backendId backend) (safeIsAvailable backend) acc) [] (backends m).

Definition isAvailable (m : RuntimeMultiplexer) : bool :=
  existsb id (checkBackendAvailability m).*2.

Definition getBackendIds (m : RuntimeMultiplexer) : list string := backendId <$> backends m.

Definition buildNamespacedPaneId (backendId rawPaneId : string) : string :=
  (backendId +:+ String PANE_ID_DELIMITER "" +:+ rawPaneId)%string.

Definition row_paneId (pane : pane_row) : string := str_or "" (field "paneId" pane).

(** [{...pane, paneId, backendId, rawPaneId}]. *)
Definition namespace_pane (backendId : string) (pane : pane_row) : pane_row :=
  let rawPaneId := row_paneId pane in
  jm_set "rawPaneId"%string (JStr rawPaneId)
    (jm_set "backendId"%string (JStr backendId)
       (jm_set "paneId"%string (JStr (buildNamespacedPaneId backendId rawPaneId)) pane)).

(** What the callback of one backend settles to. *)
Definition list_backend (m : RuntimeMultiplexer) (availability : list (string * bool))
    (backend : RuntimeBackend) : result E (list pane_row) :=
  if negb (default false (jm_get (backendId backend) availability)) then Ok []
  else
    (let! panes := rb_listPanes backend in
     Ok (if shouldNamespacePaneIds m then namespace_pane (backendId backend) <$> panes else panes))%js.

(** [Promise.all]: the values in the order of the promises, or the error of the
    promise that rejects first; [order] is the order in which they settle. *)
Definition promise_all {A} (order : list nat) (promises : list (result E A)) : result E (list A) :=
  let rejection i := match promises !! i with Some (Throw e) => Some e | _ => None end in
  match omap rejection order with
  | e :: _ => Throw e
  | [] => Ok (omap (fun p => match p with Ok v => Some v | Throw _ => None end) promises)
  end.

Definition listPanes (m : RuntimeMultiplexer) (order : list nat) : result E (list pane_row) :=
  let availabilityByBackend := checkBackendAvailability m in
  (let! paneGroups := promise_all order (list_backend m availabilityByBackend <$> backends m) in
   Ok (concat paneGroups))%js.

(** The backend and the id it knows the pane by. *)
Definition resolvePaneTarget (m : RuntimeMultiplexer) (paneId : string) :
    result E (RuntimeBackend * string) :=
  if negb (shouldNamespacePaneIds m) then
    match backends m with
    | backend :: _ => Ok (backend, paneId)
    | [] => Throw (make_error "no backend")  (* the constructor refuses an empty list *)
    end
  else
    let malformed :=
      Throw (make_error ("Pane id " +:+ in_quotes paneId +:+ " must be namespaced as " +:+
                         in_quotes "<backendId>:<rawPaneId>")%string) in
    match index_of PANE_ID_DELIMITER paneId with
    | None | Some O => malformed
    | Some separatorIndex =>
        if (separatorIndex =? String.length paneId - 1)%nat then malformed
        else
          let backendId := str_take separatorIndex paneId in
          let rawPaneId := str_drop (separatorIndex + 1) paneId in
          match jm_get backendId (backendById m) with
          | None => Throw (make_error ("Unknown runtime backend " +:+ in_quotes backendId +:+
                                       " for pane id " +:+ in_quotes paneId)%string)
          | Some backend => Ok (backend, rawPaneId)
          end
    end.

Definition capturePane (m : RuntimeMultiplexer) (paneId : string) (lines : Z) : result E string :=
  (let! target := resolvePaneTarget m paneId in rb_capturePane target.1 target.2 lines)%js.

Definition sendInput (m : RuntimeMultiplexer) (paneId input : string) : result E unit :=
  (let! target := resolvePaneTarget m paneId in rb_sendInput target.1 target.2 input)%js.

(** ** Lemmas *)

(** The ids the constructor admits. *)
Definition good_id (id : string) : Prop :=
  is_empty (trim id) = false /\ index_of PANE_ID_DELIMITER id = None.

Lemma validateBackends_iff byId bs m :
  validateBackends byId bs = Ok m <->
  Forall good_id (backendId <$> bs) /\ NoDup (backendId <$> bs) /\
  (forall b, b ∈ bs -> jm_get (backendId b) byId = None) /\
  m = byId ++ ((fun b => (backendId b, b)) <$> bs).
Proof.
  revert byId. induction bs as [|b bs IH]; intros byId; cbn [validateBackends fmap list_fmap].
  - rewrite app_nil_r. split; [intros [= <-]|by intros (_ & _ & _ & ->)].
    split_and!; [constructor|constructor| |done]. intros b Hb. by apply elem_of_nil in Hb.
  - rewrite Forall_cons, NoDup_cons. unfold good_id at 1.
    destruct (is_empty (trim (backendId b))) eqn:He; [by split; [|intros [[[? ?] ?] ?]]|].
    destruct (index_of PANE_ID_DELIMITER (backendId b)) as [i|] eqn:Hd; simpl;
      [by split; [|intros [[[? ?] ?] ?]]|].
    unfold jm_has. destruct (jm_get (backendId b) byId) as [x|] eqn:Hg.
    { split; [done|]. intros (_ & _ & Hn & _). rewrite Hn in Hg by (by left). done. }
    rewrite IH, jm_set_fresh by done. rewrite <- app_assoc. cbn [app].
    assert (Hbs : (forall x, x ∈ bs -> jm_get (backendId x) (byId ++ [(backendId b, b)]) = None) <->
      backendId b ∉ backendId <$> bs /\ (forall x, x ∈ bs -> jm_get (backendId x) byId = None)).
    { assert (Happ : forall k, jm_get k (byId ++ [(backendId b, b)]) =
        match jm_get k byId with Some v => Some v | None => if decide (k = backendId b) then Some b else None end).
      { intros k. clear. induction byId as [|[k' v] byId IH]; [done|]. simpl. by destruct (decide (k = k')). }
      split.
      - intros H. split.
        + intros (x & Hx & Hin)%list_elem_of_fmap. specialize (H x Hin). rewrite Happ in H.
          destruct (jm_get (backendId x) byId); [done|]. by rewrite decide_True in H.
        + intros x Hin. specialize (H x Hin). rewrite Happ in H. by destruct (jm_get (backendId x) byId).
      - intros [Hn H] x Hin. rewrite Happ, H, decide_False; [done| |done].
        intros Hx. apply Hn. rewrite <- Hx. by apply list_elem_of_fmap_2. }
    rewrite Hbs. split.
    + intros (? & ? & (? & Hfree) & ->). split_and!; try done.
      intros x [->|Hin]%elem_of_cons; [done|by apply Hfree].
    + intros ([_ ?] & [? ?] & Hfree & ->). split_and!; try done.
      intros x Hin. apply Hfree. by right.
Qed.

(** A multiplexer the constructor made. *)
Lemma new_multiplexer_inv bs m :
  newRuntimeMultiplexer bs = Ok m ->
  bs <> [] /\ Forall good_id (backendId <$> bs) /\ NoDup (backendId <$> bs) /\
  m = Multiplexer bs ((fun b => (backendId b, b)) <$> bs) (1 <? length bs)%nat.
Proof.
  unfold newRuntimeMultiplexer. destruct bs as [|b bs]; [done|]. cbn [length Nat.eqb].
  intros (byId & Hv & Hm)%rbind_Ok. apply validateBackends_iff in Hv as (Hg & Hn & _ & ->).
  injection Hm as <-. by split_and!.
Qed.

Lemma by_id_get bs b :
  NoDup (backendId <$> bs) -> b ∈ bs -> jm_get (backendId b) ((fun b => (backendId b, b)) <$> bs) = Some b.
Proof.
  intros Hn Hin. apply jm_In_get.
  - unfold jm_wf. by rewrite <- list_fmap_compose.
  - apply list_elem_of_fmap. by exists b.
Qed.

(** The constructor accepts exactly the lists of distinct usable ids. *)
Lemma new_multiplexer_total bs :
  bs <> [] -> Forall good_id (backendId <$> bs) -> NoDup (backendId <$> bs) ->
  exists m, newRuntimeMultiplexer bs = Ok m.
Proof.
  intros Hne Hg Hn. unfold newRuntimeMultiplexer. destruct bs as [|b bs]; [done|]. cbn [length Nat.eqb].
  rewrite (proj2 (validateBackends_iff [] (b :: bs) ((fun b => (backendId b, b)) <$> b :: bs)));
    [by eexists|by split_and!].
Qed.

Lemma good_id_nonempty id : good_id id -> exists c r, id = String c r.
Proof. intros [He _]. destruct id as [|c r]; [done|]. eauto. Qed.

Lemma resolve_namespaced_iff_aux bs m paneId b raw :
  newRuntimeMultiplexer bs = Ok m -> (1 < length bs)%nat ->
  resolvePaneTarget m paneId = Ok (b, raw) <->
  b ∈ bs /\ raw <> EmptyString /\ paneId = buildNamespacedPaneId (backendId b) raw.
Proof.
  intros (_ & Hg & Hn & ->)%new_multiplexer_inv Hlen. unfold resolvePaneTarget.
  cbn [shouldNamespacePaneIds backendById]. destruct (Nat.ltb_spec 1 (length bs)); [|lia]. cbn [negb].
  split.
  - destruct (index_of PANE_ID_DELIMITER paneId) as [[|i]|] eqn:Hi; [done| |done].
    destruct (Nat.eqb_spec (S i) (String.length paneId - 1)) as [|Hlast]; [done|].
    pose proof (index_of_lt _ _ _ Hi). apply index_of_split in Hi as [Hsplit Hfree].
    destruct (jm_get _ _) as [x|] eqn:Hget; [|done]. intros Hpair.
    apply (inj Ok) in Hpair. apply pair_equal_spec in Hpair as [-> Hpair]. rewrite <- Hpair. clear Hpair raw.
    apply jm_get_In, list_elem_of_fmap in Hget as (y & [= Hid ->] & Hin).
    rewrite Nat.add_1_r in *. split_and!; [done| |].
    + intros Hlen'%str_drop_empty. lia.
    + unfold buildNamespacedPaneId. rewrite <- Hid, str_app_cons, str_app_nil_l. done.
  - intros (Hin & Hraw & ->). unfold buildNamespacedPaneId. rewrite str_app_cons, str_app_nil_l.
    assert (Hid : good_id (backendId b)).
    { rewrite Forall_forall in Hg. apply Hg. by apply list_elem_of_fmap_2. }
    rewrite index_of_app_sep by apply Hid. destruct (good_id_nonempty _ Hid) as (c & r & Hcr).
    destruct (String.length (backendId b)) as [|k] eqn:Hk; [by rewrite Hcr in Hk|].
    cbv iota beta. rewrite <- Hk.
    assert (Hne : (String.length (backendId b) =?
      String.length (backendId b +:+ String PANE_ID_DELIMITER raw)%string - 1)%nat = false).
    { apply Nat.eqb_neq. rewrite str_app_length. cbn [String.length]. destruct raw; [done|]. simpl. lia. }
    rewrite Hne, str_take_app, Nat.add_1_r.
    replace (str_drop (S (String.length (backendId b))) (backendId b +:+ String PANE_ID_DELIMITER raw)%string)
      with raw.
    2:{ clear. induction (backendId b) as [|x s IH]; [done|]. rewrite str_app_cons. simpl. apply IH. }
    by rewrite by_id_get.
Qed.

Lemma promise_all_Ok {A} order (ps : list (result E A)) vs :
  order ≡ₚ seq 0 (length ps) -> promise_all order ps = Ok vs <-> ps = Ok <$> vs.
Proof.
  intros Horder. unfold promise_all. split.
  - destruct (omap _ order) eqn:Hrej; [|done]. intros [= <-].
    assert (Hall : Forall (fun p => exists v, p = Ok v) ps).
    { apply Forall_lookup. intros i [v|e] Hi; [eauto|]. exfalso.
      assert (Hin : e ∈ omap (fun i => match ps !! i with Some (Throw e) => Some e | _ => None end) order).
      { apply list_elem_of_omap. exists i. rewrite Hi, Horder. split; [|done].
        apply elem_of_seq. apply lookup_lt_Some in Hi. lia. }
      rewrite Hrej in Hin. by apply elem_of_nil in Hin. }
    clear Hrej Horder. induction Hall as [|p ps [v ->] _ IH]; [done|]. simpl. by f_equal.
  - intros ->. match goal with |- context [omap ?f order] => assert (Hnil : omap f order = []) end.
    { clear. induction order as [|i order IH]; [done|]. cbn. rewrite list_lookup_fmap.
      destruct (vs !! i); apply IH. }
    rewrite Hnil. f_equal. clear. induction vs as [|v vs IH]; [done|]. simpl. by f_equal.
Qed.

(** A row keeps its fields but for the three the multiplexer writes. *)
Lemma field_jm_set k k' v (pane : pane_row) :
  field k (jm_set k' v pane) = if decide (k = k') then v else field k pane.
Proof.
  induction pane as [|[k2 v2] pane IH]; simpl.
  - by destruct (decide (k = k')).
  - destruct (decide (k' = k2)) as [->|Hne]; simpl.
    + by destruct (decide (k = k2)).
    + rewrite IH. by repeat destruct (decide _); subst.
Qed.

Lemma namespace_pane_id b pane :
  row_paneId (namespace_pane b pane) = buildNamespacedPaneId b (row_paneId pane) /\
  field "rawPaneId" (namespace_pane b pane) = JStr (row_paneId pane) /\
  field "backendId" (namespace_pane b pane) = JStr b.
Proof. unfold namespace_pane, row_paneId at 1. by rewrite !field_jm_set. Qed.

Lemma availability_get m b :
  NoDup (backendId <$> backends m) -> b ∈ backends m ->
  jm_get (backendId b) (checkBackendAvailability m) = Some (safeIsAvailable b).
Proof.
  unfold checkBackendAvailability. intros Hn Hin.
  rewrite (jm_fill backendId safeIsAvailable (backends m) []) by done. cbn [app].
  apply jm_In_get; [unfold jm_wf; by rewrite <- list_fmap_compose|].
  apply list_elem_of_fmap. by exists b.
Qed.

(** The rows one backend contributes. *)
Definition contribution (namespaced : bool) (b : RuntimeBackend) : list pane_row :=
  if safeIsAvailable b then
    match rb_listPanes b with
    | Ok panes => if namespaced then namespace_pane (backendId b) <$> panes else panes
    | Throw _ => []
    end
  else [].

Lemma fmap_Ok_iff {A B} (f : A -> result E B) (g : A -> B) (l : list A) (gs : list B) :
  (forall x, x ∈ l -> f x = Ok (g x) \/ exists e, f x = Throw e) ->
  f <$> l = Ok <$> gs <-> gs = g <$> l /\ (forall x, x ∈ l -> f x = Ok (g x)).
Proof.
  intros Hf. split.
  - revert gs. induction l as [|x l IH]; intros [|y gs] Heq; try done.
    { split; [done|]. intros x Hx. by apply elem_of_nil in Hx. }
    injection Heq as Hx Heq. destruct (IH ltac:(set_solver) gs Heq) as [-> Hl].
    destruct (Hf x ltac:(by left)) as [Hx'|[e He]]; [|congruence].
    rewrite Hx' in Hx. injection Hx as <-. split; [done|].
    intros z [->|Hz]%elem_of_cons; auto.
  - intros [-> Hl]. clear Hf. induction l as [|x l IH]; [done|]. simpl. rewrite Hl by (by left).
    f_equal. apply IH. intros z Hz. apply Hl. by right.
Qed.

Lemma listPanes_Ok bs m order rows :
  newRuntimeMultiplexer bs = Ok m -> order ≡ₚ seq 0 (length bs) ->
  listPanes m order = Ok rows <->
  rows = concat (contribution (1 <? length bs)%nat <$> bs) /\
  (forall b, b ∈ bs -> safeIsAvailable b = true -> exists panes, rb_listPanes b = Ok panes).
Proof.
  intros Hm Horder. pose proof (new_multiplexer_inv bs m Hm) as (_ & _ & Hn & Heq).
  assert (Hlist : forall b, b ∈ bs ->
    list_backend m (checkBackendAvailability m) b =
      if safeIsAvailable b then
        match rb_listPanes b with
        | Ok _ => Ok (contribution (1 <? length bs)%nat b)
        | Throw e => Throw e
        end
      else Ok (contribution (1 <? length bs)%nat b)).
  { intros b Hin. unfold list_backend, contribution. rewrite availability_get by (by rewrite Heq).
    rewrite Heq. cbn [from_option id shouldNamespacePaneIds].
    destruct (safeIsAvailable b); [|done]. simpl. by destruct (rb_listPanes b). }
  unfold listPanes. rewrite rbind_Ok. setoid_rewrite promise_all_Ok; [|by rewrite length_fmap, Heq].
  assert (Hbk : backends m = bs) by (by rewrite Heq). rewrite Hbk.
  setoid_rewrite (fmap_Ok_iff _ (contribution (1 <? length bs)%nat)).
  2:{ intros b Hin. rewrite Hlist by done. destruct (safeIsAvailable b); [|by left].
      destruct (rb_listPanes b); [by left|right; eauto]. }
  assert (Hav : (forall b, b ∈ bs -> list_backend m (checkBackendAvailability m) b = Ok (contribution (1 <? length bs)%nat b)) <->
    (forall b, b ∈ bs -> safeIsAvailable b = true -> exists panes, rb_listPanes b = Ok panes)).
  { split; intros H b Hin; specialize (H b Hin); rewrite Hlist in * by done.
    - intros Ha. rewrite Ha in H. destruct (rb_listPanes b); [eauto|done].
    - destruct (safeIsAvailable b); [|done]. by destruct H as [panes ->]. }
  rewrite <- Hav. split.
  - intros (groups & [-> H] & [= <-]). done.
  - intros [-> H]. eauto.
Qed.

(** C10. Namespaced ids route: with several backends, the id built from a backend and
    a non-empty raw id leads to that backend with that raw id, and an id leads to a
    backend only if it is the id built from that backend and a non-empty raw id. So
    no two panes of different backends share an id. *)
Theorem resolve_namespaced_iff bs m paneId b raw :
  newRuntimeMultiplexer bs = Ok m -> (1 < length bs)%nat ->
  resolvePaneTarget m paneId = Ok (b, raw) <->
  b ∈ bs /\ raw <> EmptyString /\ paneId = buildNamespacedPaneId (backendId b) raw.
Proof. apply resolve_namespaced_iff_aux. Qed.

(** What [listPanes] shows can be acted on: with several backends every row comes
    from an available backend that listed it, and capturing or writing to the row's
    id, if the native id is not empty, reaches that backend under the native id. *)
Theorem listed_panes_route_home bs m order rows :
  newRuntimeMultiplexer bs = Ok m -> (1 < length bs)%nat -> order ≡ₚ seq 0 (length bs) ->
  listPanes m order = Ok rows ->
  forall row, row ∈ rows -> exists b panes pane,
    b ∈ bs /\ safeIsAvailable b = true /\ rb_listPanes b = Ok panes /\ pane ∈ panes /\
    row = namespace_pane (backendId b) pane /\
    (row_paneId pane <> EmptyString ->
     (forall lines, capturePane m (row_paneId row) lines = rb_capturePane b (row_paneId pane) lines) /\
     (forall input, sendInput m (row_paneId row) input = rb_sendInput b (row_paneId pane) input)).
Proof.
  intros Hm Hlen Horder [-> Hav]%(listPanes_Ok bs m order rows Hm Horder) row Hrow.
  apply list_elem_of_In, in_concat in Hrow as (g & Hg & Hrow).
  apply list_elem_of_In in Hrow. apply list_elem_of_In, list_elem_of_fmap in Hg as (b & -> & Hb).
  unfold contribution in Hrow. destruct (safeIsAvailable b) eqn:Ha; [|by apply elem_of_nil in Hrow].
  destruct (rb_listPanes b) as [panes|] eqn:Hl; [|by apply elem_of_nil in Hrow].
  destruct (Nat.ltb_spec 1 (length bs)); [|lia].
  apply list_elem_of_fmap in Hrow as (pane & -> & Hp).
  exists b, panes, pane. split_and!; [done..|]. intros Hne.
  assert (Hres : resolvePaneTarget m (row_paneId (namespace_pane (backendId b) pane)) = Ok (b, row_paneId pane)).
  { apply (resolve_namespaced_iff_aux bs); [done..|]. split_and!; [done..|]. apply namespace_pane_id. }
  unfold capturePane, sendInput. by rewrite Hres.
Qed.

(** One backend is passed through: a multiplexer over a single backend lists its
    rows unchanged when it is available and nothing when it is not, and routes every
    pane id to it as it is. *)
Theorem single_backend_transparent b m :
  newRuntimeMultiplexer [b] = Ok m ->
  listPanes m [0%nat] = (if safeIsAvailable b then rb_listPanes b else Ok []) /\
  (forall paneId lines, capturePane m paneId lines = rb_capturePane b paneId lines) /\
  (forall paneId input, sendInput m paneId input = rb_sendInput b paneId input) /\
  isAvailable m = safeIsAvailable b.
Proof.
  intros (_ & _ & _ & ->)%new_multiplexer_inv. unfold listPanes, isAvailable, checkBackendAvailability.
  cbn [backends foldl jm_set fmap list_fmap]. unfold list_backend. cbn [jm_get].
  rewrite decide_True by done. cbn [from_option id]. split_and!; try done.
  - destruct (safeIsAvailable b); [|done]. simpl. destruct (rb_listPanes b); [|done]. simpl.
    by rewrite app_nil_r.
  - simpl. apply orb_false_r.
Qed.
End Multiplexer.

(** Two backends with a pane of the same native id, for the witnesses. *)
Definition demo_backend (id screen : string) : RuntimeBackend (E := string) :=
  Backend id (Ok true) (Ok [[("paneId"%string, JStr "%1")]])
    (fun paneId _ => Ok (screen +:+ paneId)%string) (fun _ _ => Ok tt).

Definition demo_backends : list (RuntimeBackend (E := string)) :=
  [demo_backend "tmux" "T"; demo_backend "cmux" "C"].

Definition demo_multiplexer : RuntimeMultiplexer (E := string) :=
  Multiplexer demo_backends ((fun b => (backendId b, b)) <$> demo_backends) true.

Lemma resolve_namespaced_iff_witness :
  newRuntimeMultiplexer id demo_backends = Ok demo_multiplexer /\
  resolvePaneTarget id demo_multiplexer "cmux:%1" = Ok (demo_backend "cmux" "C", "%1"%string).
Proof.
  split; [reflexivity|].
  apply (resolve_namespaced_iff id demo_backends demo_multiplexer "cmux:%1"); [reflexivity|simpl; lia|].
  split; [right; left|split; [done|reflexivity]].
Defined.

Lemma listed_panes_route_home_witness :
  exists b panes pane,
    b ∈ demo_backends /\ safeIsAvailable b = true /\ rb_listPanes b = Ok panes /\ pane ∈ panes /\
    [("paneId"%string, JStr "cmux:%1"); ("backendId"%string, JStr "cmux"); ("rawPaneId"%string, JStr "%1")]
      = namespace_pane (backendId b) pane /\
    (row_paneId pane <> EmptyString ->
     (forall lines, capturePane id demo_multiplexer "cmux:%1" lines = rb_capturePane b (row_paneId pane) lines) /\
     (forall input, sendInput id demo_multiplexer "cmux:%1" input = rb_sendInput b (row_paneId pane) input)).
Proof.
  apply (listed_panes_route_home id demo_backends demo_multiplexer [1; 0]%nat
    [[("paneId"%string, JStr "tmux:%1"); ("backendId"%string, JStr "tmux"); ("rawPaneId"%string, JStr "%1")];
     [("paneId"%string, JStr "cmux:%1"); ("backendId"%string, JStr "cmux"); ("rawPaneId"%string, JStr "%1")]]).
  - reflexivity.
  - simpl. lia.
  - apply perm_swap.
  - reflexivity.
  - right. left.
Defined.

Lemma single_backend_transparent_witness :
  exists m, newRuntimeMultiplexer id [demo_backend "tmux" "T"] = Ok m /\
  (forall paneId lines, capturePane id m paneId lines = Ok ("T" +:+ paneId)%string).
Proof.
  eexists. split; [reflexivity|].
  apply (single_backend_transparent id (demo_backend "tmux" "T")). reflexivity.
Defined.
