(* ===== verification/RuntimeFactory.v ===== *)
(** * Adapter factory ([src/runtime/runtime-adapter-factory.ts])

    From the configuration to the adapter the bridge runs on.  An adapter's promises
    settle in some world of external processes: [backend_at] is the contract of
    [RuntimeBackend] met by an adapter in a given world and state. *)

From S2P Require Import Prelude JsMap SshTarget Process Config Tmux SshTmux Cmux Multiplexer.
Local Open Scope Z_scope.

Record StartupTransportConfig : Type := Transport {
  mode : string;
  t_sshProfile : string;
  t_sshTarget : option string;
  t_sshPort : num;
  t_sshCommand : string;
  t_sshConnectTimeoutSeconds : num;
  t_sshStrictHostKeyChecking : bool;
  t_sshKnownHostsFile : option string;
  t_sshExpectedFingerprintSha256 : option string
}.

Definition normalizeOptionalTransportString (value : option string) : option string :=
  match value with
  | None => None
  | Some value => let trimmed := trim value in if is_empty trimmed then None else Some trimmed
  end.

Definition resolveStartupTransportConfig (config : BridgeConfig) : StartupTransportConfig :=
  {| mode := transportMode config;
     t_sshProfile := sshProfileName config;
     t_sshTarget := Config.sshTarget config;
     t_sshPort := Config.sshPort config;
     t_sshCommand := Config.sshCommand config;
     t_sshConnectTimeoutSeconds := sshConnectTimeoutSeconds config;
     t_sshStrictHostKeyChecking := sshStrictHostKeyChecking config;
     t_sshKnownHostsFile := normalizeOptionalTransportString (sshKnownHostsFile config);
     t_sshExpectedFingerprintSha256 :=
       normalizeOptionalTransportString (sshExpectedFingerprintSha256 config) |}.

(** The three adapters behind [RuntimeAdapter]. *)
Inductive adapter_impl : Type :=
| LocalTmux (a : TmuxAdapter)
| RemoteTmux (a : SshTmuxAdapter)
| LocalCmux (a : CmuxAdapter).

Definition createTmuxRuntimeAdapter (transportConfig : StartupTransportConfig) :
    result string adapter_impl :=
  if negb (bool_decide (mode transportConfig = "ssh"%string))
  then Ok (LocalTmux (newTmuxAdapter {| Tmux.opt_commandTimeoutMs := None |}))
  else if negb (present (t_sshTarget transportConfig))
  then Throw "COMMANDRELAY_SSH_TARGET is required when COMMANDRELAY_TRANSPORT_MODE is ssh"%string
  else
    (let! a := newSshTmuxAdapter
       {| opt_sshTarget := default "" (t_sshTarget transportConfig);
          opt_sshPort := Some (t_sshPort transportConfig);
          opt_sshCommand := Some (t_sshCommand transportConfig);
          opt_strictHostKeyChecking := Some (t_sshStrictHostKeyChecking transportConfig);
          opt_knownHostsFile := t_sshKnownHostsFile transportConfig;
          opt_expectedFingerprintSha256 := t_sshExpectedFingerprintSha256 transportConfig;
          SshTmux.opt_commandTimeoutMs :=
            Some (num_times (t_sshConnectTimeoutSeconds transportConfig) 1000);
          opt_connectTimeoutSeconds := None |} in
     Ok (RemoteTmux a))%js.

(** [wrapRuntimeBackend] pairs the id with the adapter. *)
Fixpoint createRuntimeBackends (runtimeBackends : list string) (cmuxCommand : string)
    (transportConfig : StartupTransportConfig) : result string (list (string * adapter_impl)) :=
  match runtimeBackends with
  | [] => Ok []
  | backend :: rest =>
      (let! adapter :=
         if bool_decide (backend = "tmux"%string) then createTmuxRuntimeAdapter transportConfig
         else Ok (LocalCmux (newCmuxAdapter (CmuxOptions (Some cmuxCommand) None))) in
       let! adapters := createRuntimeBackends rest cmuxCommand transportConfig in
       Ok ((backend, adapter) :: adapters))%js
  end.

Definition isTmuxOnly (runtimeBackends : list string) : bool :=
  bool_decide (runtimeBackends = ["tmux"%string]).

(** ** The adapters in a world *)

Section World.
Context (JSON_parse : string -> option jsval).

Definition impl_isAvailable (i : adapter_impl) : proc bool bool :=
  match i with
  | LocalTmux a => Tmux.isAvailable a
  | RemoteTmux a => SshTmux.isAvailable a
  | LocalCmux a => Cmux.isAvailable JSON_parse a
  end.

Definition impl_listPanes (i : adapter_impl) : proc bool (list pane_row) :=
  match i with
  | LocalTmux a => fmap (M := proc bool) (map Tmux.pane_object) (Tmux.listPanes a)
  | RemoteTmux a => fmap (M := proc bool) (map Tmux.pane_object) (SshTmux.listPanes a)
  | LocalCmux a => fmap (M := proc bool) (map Cmux.pane_object) (Cmux.listPanes JSON_parse a)
  end.

Definition impl_capturePane (i : adapter_impl) (paneId : string) (lines : Z) : proc bool string :=
  match i with
  | LocalTmux a => Tmux.capturePane a paneId lines
  | RemoteTmux a => SshTmux.capturePane a paneId lines
  | LocalCmux a => Cmux.capturePane a paneId lines
  end.

Definition impl_sendInput (i : adapter_impl) (paneId input : string) : proc bool unit :=
  match i with
  | LocalTmux a => Tmux.sendInput a paneId input
  | RemoteTmux a => SshTmux.sendInput a paneId input
  | LocalCmux a => Cmux.sendInput a paneId input
  end.

(** What the operations of one backend settle to when called in the world [w], with
    the adapter's flag [st], after the commands [hist]. *)
Definition backend_at (w : world) (st : bool) (hist : list call) (b : string * adapter_impl) :
    RuntimeBackend (E := js_error) :=
  Backend b.1
    (exec w st hist (impl_isAvailable b.2)).2
    (exec w st hist (impl_listPanes b.2)).2
    (fun paneId lines => (exec w st hist (impl_capturePane b.2 paneId lines)).2)
    (fun paneId input => (exec w st hist (impl_sendInput b.2 paneId input)).2).

(** The adapter of the bridge: one backend itself, or a multiplexer. *)
Inductive runtime_adapter : Type :=
| Direct (b : RuntimeBackend (E := js_error))
| Multiplexed (m : RuntimeMultiplexer (E := js_error)).

Definition createRuntimeAdapter (runtimeBackends : list string)
    (adapters : list (RuntimeBackend (E := js_error))) : result js_error runtime_adapter :=
  match adapters with
  | [] => Throw (Error "At least one runtime backend adapter is required")
  | adapter :: _ =>
      if isTmuxOnly runtimeBackends then Ok (Direct adapter)
      else (let! m := newRuntimeMultiplexer Error adapters in Ok (Multiplexed m))%js
  end.

Definition safeIsBackendAvailable (adapter : RuntimeBackend (E := js_error)) : bool :=
  match rb_isAvailable adapter with Ok b => b | Throw _ => false end.

Definition checkRuntimeBackendAvailability (adapters : list (RuntimeBackend (E := js_error))) :
    list (string * bool) :=
  (fun adapter => (Multiplexer.backendId adapter, safeIsBackendAvailable adapter)) <$> adapters.

(** The lines logged, with their level, and the count returned. *)
Fixpoint logRuntimeBackendAvailability (availability : list (string * bool)) :
    list (string * string) * Z :=
  match availability with
  | [] => ([], 0)
  | (backend, available) :: rest =>
      let (log, n) := logRuntimeBackendAvailability rest in
      if available
      then (("info"%string, "[bridge] runtime backend available: " +:+ backend)%string :: log, n + 1)
      else (("warn"%string, "[bridge] runtime backend unavailable: " +:+ backend)%string :: log, n)
  end.

(** ** Lemmas *)

Lemma target_no_space isIP t p : parseSshTarget isIP t = Ok p -> has_space t = false.
Proof. unfold parseSshTarget. by repeat case_match. Qed.

(** A loaded and validated configuration gives an adapter for tmux. *)
Lemma tmux_adapter_total isIP readable env c :
  loadConfig isIP env = Ok c -> validateStartupConfig readable c = Ok tt ->
  exists a, createTmuxRuntimeAdapter (resolveStartupTransportConfig c) = Ok a.
Proof.
  intros Hok%loadConfig_ok_fields Hv. unfold createTmuxRuntimeAdapter, resolveStartupTransportConfig. cbn [mode].
  case_bool_decide as Hssh; cbn [negb]; [|eauto].
  assert (Htarget : present (Config.sshTarget c) = true).
  { apply validateStartupConfig_facts in Hv as (_ & Hs & _). by apply Hs. }
  cbn [t_sshTarget]. rewrite Htarget. cbn [negb]. unfold present in Htarget.
  destruct (Config.sshTarget c) as [t|] eqn:Ht; [|done]. cbn [from_option id] in Htarget |- *.
  destruct (ok_target _ _ Hok t Ht) as [p Hp]. apply target_no_space, negb_false_iff, trim_nospace in Hp.
  unfold newSshTmuxAdapter, normalizeTarget. cbn [opt_sshTarget]. rewrite Hp.
  apply negb_true_iff in Htarget. rewrite Htarget. cbn [rbind].
  destruct (ok_ssh_numbers _ _ Hok) as ((z & Hz & Hb) & _). cbn [opt_sshPort t_sshPort]. rewrite Hz.
  cbn [normalizePort]. destruct (Z.leb_spec z 0); [lia|]. cbn [rbind opt_connectTimeoutSeconds]. eauto.
Qed.

(** What [startup_adapters_total] says, for the components that start the bridge. *)
Lemma startup_adapters isIP readable env c w st :
  loadConfig isIP env = Ok c -> validateStartupConfig readable c = Ok tt ->
  exists adapters,
    createRuntimeBackends (runtimeBackends c) (Config.cmuxCommand c) (resolveStartupTransportConfig c)
      = Ok adapters /\
    adapters.*1 = runtimeBackends c /\
    exists adapter,
      createRuntimeAdapter (runtimeBackends c) (backend_at w st [] <$> adapters) = Ok adapter /\
      match adapter with
      | Direct b => runtimeBackends c = ["tmux"%string] /\ Multiplexer.backendId b = "tmux"%string
      | Multiplexed m => getBackendIds m = runtimeBackends c
      end.
Proof.
  intros Hl Hv. destruct (tmux_adapter_total isIP readable env c Hl Hv) as [a Ha].
  assert (Hmk : forall ids, exists adapters,
    createRuntimeBackends ids (Config.cmuxCommand c) (resolveStartupTransportConfig c) = Ok adapters /\
    adapters.*1 = ids).
  { induction ids as [|i ids (l & Hids & Hfst)]; [by exists []|]. cbn [createRuntimeBackends].
    rewrite Hids. case_bool_decide; rewrite ?Ha; simpl; eexists; (split; [done|]); cbn [fmap list_fmap]; by f_equal. }
  destruct (Hmk (runtimeBackends c)) as (adapters & Hmake & Hfst). clear Hmk Ha Hv.
  exists adapters. split; [done|]. split; [done|].
  destruct (ok_backends _ _ (loadConfig_ok_fields isIP env c Hl)) as (Hne & Hnd & Hsup).
  destruct adapters as [|[i im] adapters]; [by rewrite <- Hfst in Hne|].
  unfold createRuntimeAdapter. cbn [fmap list_fmap]. unfold isTmuxOnly. case_bool_decide as Ht.
  { eexists. split; [done|]. split; [done|]. rewrite Ht in Hfst. by injection Hfst as ->. }
  assert (Hids : Multiplexer.backendId <$> (backend_at w st [] <$> ((i, im) :: adapters)) = runtimeBackends c).
  { rewrite <- Hfst, <- list_fmap_compose. done. }
  cbn [fmap list_fmap] in Hids.
  destruct (new_multiplexer_total Error (backend_at w st [] (i, im) :: (backend_at w st [] <$> adapters))) as [m Hm].
  - done.
  - cbn [fmap list_fmap]. rewrite Hids. eapply Forall_impl; [exact Hsup|].
    intros s [->|[->|[]%elem_of_nil]%elem_of_cons]%elem_of_cons; by split.
  - cbn [fmap list_fmap]. by rewrite Hids.
  - rewrite Hm. eexists. split; [done|]. apply new_multiplexer_inv in Hm as (_ & _ & _ & ->). done.
Qed.

(** C11. Start-up cannot fail on the adapters: for every environment whose
    configuration loads and passes the start-up check, the backends are created, one
    for each configured id in order, and the bridge gets its adapter in any world -
    the backend itself in tmux-only mode, a multiplexer otherwise. *)
Theorem startup_adapters_total isIP readable env c w st :
  loadConfig isIP env = Ok c -> validateStartupConfig readable c = Ok tt ->
  exists adapters,
    createRuntimeBackends (runtimeBackends c) (Config.cmuxCommand c) (resolveStartupTransportConfig c)
      = Ok adapters /\
    adapters.*1 = runtimeBackends c /\
    exists adapter,
      createRuntimeAdapter (runtimeBackends c) (backend_at w st [] <$> adapters) = Ok adapter /\
      match adapter with
      | Direct b => runtimeBackends c = ["tmux"%string] /\ Multiplexer.backendId b = "tmux"%string
      | Multiplexed m => getBackendIds m = runtimeBackends c
      end.
Proof. apply startup_adapters. Qed.

(** The configured connect timeout reaches the SSH adapter only as its command
    timeout, in milliseconds: the [ConnectTimeout] passed to ssh and the timeout of
    [ssh-keyscan] are always 8 seconds. *)
Theorem connect_timeout_not_forwarded isIP env c a :
  loadConfig isIP env = Ok c ->
  createTmuxRuntimeAdapter (resolveStartupTransportConfig c) = Ok (RemoteTmux a) ->
  exists seconds, sshConnectTimeoutSeconds c = num_of_Z seconds /\ 1 <= seconds <= 60 /\
    SshTmux.commandTimeoutMs a = seconds * 1000 /\ connectTimeoutSeconds a = 8 /\
    forall v, exists cmd pre post,
      ssh_call a v = Command cmd (pre ++ ["-o"; "ConnectTimeout=8"] ++ post) (seconds * 1000).
Proof.
  intros Hl Hc. destruct (ok_ssh_numbers _ _ (loadConfig_ok_fields isIP env c Hl)) as (_ & s & Hs & Hb).
  exists s. unfold createTmuxRuntimeAdapter in Hc. repeat (destruct (negb _) in Hc; [done|]).
  apply rbind_Ok in Hc as (a' & Ha & [= ->]). unfold newSshTmuxAdapter in Ha.
  apply rbind_Ok in Ha as (t & _ & Ha). apply rbind_Ok in Ha as (p & _ & Ha).
  apply rbind_Ok in Ha as (sec & [= <-] & Ha). apply (inj Ok) in Ha as <-.
  assert (Hms : normalizeTimeoutMs (Some (num_times (num_of_Z s) 1000)) = s * 1000).
  { simpl. destruct (Z.leb_spec (s * 1000) 0); [lia|]. unfold trunc. simpl. lia. }
  unfold resolveStartupTransportConfig. rewrite <- Hs in Hms.
  cbn [SshTmux.commandTimeoutMs connectTimeoutSeconds SshTmux.opt_commandTimeoutMs t_sshConnectTimeoutSeconds].
  split_and!; [done|lia|lia|done|done|].
  intros v. unfold ssh_call, buildSshArgs.
  cbn [SshTmux.sshPort SshTmux.sshCommand SshTmux.commandTimeoutMs connectTimeoutSeconds].
  eexists _, (match p with Some p => ["-p"%string; int_to_string p] | None => [] end ++ ["-T"; "-o"; "BatchMode=yes"]%string), _.
  rewrite <- !app_assoc. rewrite <- Hms. reflexivity.
Qed.
End World.

(** An environment for SSH transport, for the witness. *)
Definition ssh_env : environment := fun name =>
  if bool_decide (name = "COMMANDRELAY_TRANSPORT_MODE"%string) then Some "ssh"%string
  else if bool_decide (name = "COMMANDRELAY_SSH_TARGET"%string) then Some "dev@[::1]"%string
  else if bool_decide (name = "COMMANDRELAY_SSH_CONNECT_TIMEOUT_SECONDS"%string) then Some "15"%string
  else None.

Definition ssh_config : BridgeConfig :=
  {| runtimeBackends := ["tmux"]; Config.cmuxCommand := "cmux"; cfg_host := "127.0.0.1";
     port := num_of_Z 8787; transportMode := "ssh"; sshProfileName := "primary";
     Config.sshTarget := Some "dev@[::1]"; Config.sshPort := num_of_Z 22; Config.sshCommand := "ssh";
     sshConnectTimeoutSeconds := num_of_Z 15; sshStrictHostKeyChecking := true;
     sshKnownHostsFile := None; sshExpectedFingerprintSha256 := None;
     strictProtocolParsing := true; appStaticEnabled := true; appStaticDir := "apps/web";
     pollIntervalMs := num_of_Z 350; replayLines := num_of_Z 200; maxHistoryEvents := num_of_Z 300;
     maxInputBytes := num_of_Z 4096; maxAttachedPanes := num_of_Z 8;
     maxMessagesPerMinute := num_of_Z 240; maxInputsPerMinute := num_of_Z 60;
     globalInputDisabled := false; allowInputOwnershipOverride := true;
     inputLaneLeaseMs := num_of_Z 30000; authToken := None; auditLogPath := None |}%string.

Definition ssh_adapter : SshTmuxAdapter :=
  SshAdapter "dev@[::1]" (Some 22) "ssh" true None None 15000 8.

Lemma startup_adapters_total_witness :
  exists adapters,
    createRuntimeBackends ["tmux"%string] "cmux" (resolveStartupTransportConfig ssh_config) = Ok adapters /\
    adapters.*1 = ["tmux"%string].
Proof.
  destruct (startup_adapters_total (fun _ => None) demo_isIP (fun _ => true) ssh_env ssh_config
    (fun _ _ => Ok "") false) as (adapters & Hmake & Hfst & _); [vm_compute; reflexivity..|].
  exists adapters. split; [exact Hmake|exact Hfst].
Defined.

Lemma connect_timeout_not_forwarded_witness :
  createTmuxRuntimeAdapter (resolveStartupTransportConfig ssh_config) = Ok (RemoteTmux ssh_adapter) /\
  exists seconds, sshConnectTimeoutSeconds ssh_config = num_of_Z seconds /\
    SshTmux.commandTimeoutMs ssh_adapter = seconds * 1000 /\ connectTimeoutSeconds ssh_adapter = 8.
Proof.
  assert (Hc : createTmuxRuntimeAdapter (resolveStartupTransportConfig ssh_config) = Ok (RemoteTmux ssh_adapter))
    by (vm_compute; reflexivity).
  split; [exact Hc|].
  destruct (connect_timeout_not_forwarded demo_isIP ssh_env ssh_config ssh_adapter) as (s & Hs & _ & Hm & H8 & _);
    [vm_compute; reflexivity|exact Hc|].
  exists s. split; [exact Hs|]. split; [exact Hm|exact H8].
Defined.
