(* ===== verification/ProxyCore.v ===== *)
(** * Proxy routing ([packages/proxy-core/src/index.ts], [src/net/proxy-router.ts])

    Which proxy a request goes through.  The [URL] constructor is a parameter
    ([None] when it throws), and so is [net.isIP]. *)

From S2P Require Import Prelude.
Local Open Scope Z_scope.

(** The properties of a [URL] object the code reads; [href] is [toString()]. *)
Record url : Type := Url {
  protocol : string;
  hostname : string;
  url_port : string;
  href : string
}.

Record NoProxyRule : Type := Rule {
  rule_host : string;
  rule_port : option Z;
  matchSubdomains : bool
}.

#[export] Instance NoProxyRule_eq_dec : EqDecision NoProxyRule.
Proof. solve_decision. Defined.

Record ProxySettings : Type := Settings {
  httpProxy : option string;
  httpsProxy : option string;
  allProxy : option string;
  noProxy : list NoProxyRule
}.

Abbreviation ProxyEnvironment := (string -> option string).

(** [a ?? b]. *)
Definition nullish {A} (a b : option A) : option A := match a with Some _ => a | None => b end.

Definition readRawEnv (env : ProxyEnvironment) (primary secondary : string) : option string :=
  nullish (env primary) (env secondary).

Definition readProxyEnv (env : ProxyEnvironment) (uppercase lowercase : string)
    (ignoreUppercase : bool) : option string :=
  match readRawEnv env lowercase lowercase with
  | Some lowerValue => Some lowerValue
  | None => if ignoreUppercase then None else readRawEnv env uppercase uppercase
  end.

Definition parsePort (token : string) : option Z :=
  if is_empty token then None
  else if negb (str_forallb is_num token) then None
  else
    match num_safe_integer (parse_int token) with
    | Some port => if (port <=? 0) || (65535 <? port) then None else Some port
    | None => None
    end.

(** [s.slice(0, -1)] of a non-empty string. *)
Definition drop_last (s : string) : string := str_take (String.length s - 1) s.

Definition normalizeHost (host : string) : option string :=
  let trimmed := to_lower (trim host) in
  if is_empty trimmed then None
  else
    let unbracketed :=
      if starts_with "[" trimmed && ends_with "]" trimmed
      then str_take (String.length trimmed - 2) (str_drop 1 trimmed) else trimmed in
    let normalized := if ends_with "." unbracketed then drop_last unbracketed else unbracketed in
    if is_empty normalized || includes "/" normalized || includes " " normalized then None
    else Some normalized.

(** [token.match(/:/g)?.length ?? 0]. *)
Fixpoint count_char (c : ascii) (s : string) : nat :=
  match s with
  | EmptyString => 0
  | String d r => (if Ascii.eqb c d then 1 else 0) + count_char c r
  end.

Definition splitHostAndPort (token : string) : option (string * option Z) :=
  if is_empty token then None
  else if starts_with "[" token then
    match index_of "]" token with
    | None | Some O => None
    | Some closingIndex =>
        let host := str_take (closingIndex - 1) (str_drop 1 token) in
        let rest := str_drop (closingIndex + 1) token in
        if is_empty rest then Some (host, None)
        else if negb (starts_with ":" rest) then None
        else match parsePort (str_drop 1 rest) with
             | None => None
             | Some port => Some (host, Some port)
             end
    end
  else
    let colonCount := count_char ":" token in
    if (1 <? colonCount)%nat then None
    else if (colonCount =? 1)%nat then
      match last_index_of ":" token with
      | None => None  (* there is a colon *)
      | Some separatorIndex =>
          match parsePort (str_drop (separatorIndex + 1) token) with
          | None => None
          | Some port => Some (str_take separatorIndex token, Some port)
          end
      end
    else Some (token, None).

Definition isSubdomainOf (host candidateParent : string) : bool :=
  if negb (ends_with candidateParent host) then false
  else
    let boundaryIndex := str_len host - str_len candidateParent - 1 in
    (0 <=? boundaryIndex) &&
    bool_decide (String.get (Z.to_nat boundaryIndex) host = Some "."%char).

Definition matchesRuleHost (targetHost : string) (rule : NoProxyRule) : bool :=
  if bool_decide (targetHost = rule_host rule) then true
  else if negb (matchSubdomains rule) then false
  else isSubdomainOf targetHost (rule_host rule).

Definition getTargetPort (target : url) : Z :=
  let default_port :=
    if bool_decide (protocol target ∈ ["https:"; "wss:"]%string) then 443 else 80 in
  match parsePort (url_port target) with
  | Some explicitPort => explicitPort
  | None => default_port
  end.

Definition shouldBypassProxy (target : url) (rules : list NoProxyRule) : bool :=
  if (length rules =? 0)%nat then false
  else
    match normalizeHost (hostname target) with
    | None => false
    | Some host =>
        let port := getTargetPort target in
        existsb (fun rule =>
          if bool_decide (rule_host rule = "*"%string) then true
          else if negb (matchesRuleHost host rule) then false
          else match rule_port rule with
               | None => true
               | Some p => p =? port
               end) rules
    end.

(** The [switch] of [resolveProxyForUrl] on a URL object. *)
Definition resolve_for_url (target : url) (settings : ProxySettings) : option string :=
  if shouldBypassProxy target (noProxy settings) then None
  else if bool_decide (protocol target ∈ ["http:"; "ws:"]%string)
  then nullish (httpProxy settings) (allProxy settings)
  else if bool_decide (protocol target ∈ ["https:"; "wss:"]%string)
  then nullish (httpsProxy settings) (nullish (httpProxy settings) (allProxy settings))
  else allProxy settings.

(** [/^[a-zA-Z][a-zA-Z\d+.-]*:\/\//]. *)
Definition has_scheme (value : string) : bool :=
  match value with
  | String c _ =>
      is_alpha c &&
      let scheme := take_while (fun c => is_alnum c || one_of "+.-" c) value in
      starts_with "://" (str_drop (String.length scheme) value)
  | EmptyString => false
  end.

Definition supported_protocols : list string :=
  ["http:"; "https:"; "socks:"; "socks4:"; "socks4a:"; "socks5:"; "socks5h:";
   "pac+http:"; "pac+https:"; "pac+file:"; "pac+data:"]%string.

Section Url.
Context (URL_parse : string -> option url) (isIP : string -> Z).

Definition sanitizeProxyUrl (rawValue : option string) : option string :=
  match rawValue with
  | None => None
  | Some rawValue =>
      let value := trim rawValue in
      if is_empty value then None
      else
        let candidate := if has_scheme value then value else ("http://" +:+ value)%string in
        match URL_parse candidate with
        | None => None
        | Some parsed =>
            let p := to_lower (protocol parsed) in
            if negb (bool_decide (p ∈ supported_protocols)) then None
            else
              let hostOptional := bool_decide (p ∈ ["pac+file:"; "pac+data:"]%string) in
              if negb hostOptional && is_empty (hostname parsed) then None
              else Some (href parsed)
        end
  end.

Definition shouldMatchSubdomains (host : string) (hasWildcardPrefix : bool) : bool :=
  if bool_decide (host = "*"%string) then false
  else if hasWildcardPrefix then true
  else if negb (isIP host =? 0) || bool_decide (host = "localhost"%string) then false
  else includes "." host.

Definition parseNoProxyUrlToken (token : string) : option (string * option Z) :=
  if negb (includes "://" token) then None
  else
    match URL_parse token with
    | Some parsed => Some (hostname parsed, parsePort (url_port parsed))
    | None => None
    end.

(** [token.replace(/^\*?\./, "")]. *)
Definition strip_wildcard (token : string) : string :=
  if starts_with "*." token then str_drop 2 token
  else if starts_with "." token then str_drop 1 token
  else token.

Definition parseNoProxyToken (token : string) : option NoProxyRule :=
  if is_empty token then None
  else if bool_decide (token = "*"%string) then Some (Rule "*" None false)
  else
    match parseNoProxyUrlToken token with
    | Some (h, port) =>
        host ← normalizeHost h; Some (Rule host port (shouldMatchSubdomains host false))
    | None =>
        let wildcardPrefix := starts_with "*." token || starts_with "." token in
        let tokenWithoutWildcard := if wildcardPrefix then strip_wildcard token else token in
        hostAndPort ← splitHostAndPort tokenWithoutWildcard;
        host ← normalizeHost hostAndPort.1;
        Some (Rule host hostAndPort.2 (shouldMatchSubdomains host wildcardPrefix))
    end.

Definition parseNoProxy (raw : string) : list NoProxyRule :=
  if is_empty (trim raw) then []
  else omap (fun token => parseNoProxyToken (trim token)) (split_on "," raw).

(** [Boolean(readRawEnv(env, "REQUEST_METHOD", "request_method"))]. *)
Definition is_cgi (env : ProxyEnvironment) : bool :=
  negb (is_empty (default "" (readRawEnv env "REQUEST_METHOD" "request_method"))).

Definition loadProxySettings (env : ProxyEnvironment) : ProxySettings :=
  Settings
    (sanitizeProxyUrl (readProxyEnv env "HTTP_PROXY" "http_proxy" (is_cgi env)))
    (sanitizeProxyUrl (readProxyEnv env "HTTPS_PROXY" "https_proxy" false))
    (sanitizeProxyUrl (readProxyEnv env "ALL_PROXY" "all_proxy" false))
    (parseNoProxy (default "" (readRawEnv env "NO_PROXY" "no_proxy"))).

(** [None] when the URL does not parse and the constructor throws. *)
Definition resolveProxyForUrl (target : string) (settings : ProxySettings) :
    option (option string) :=
  u ← URL_parse target; Some (resolve_for_url u settings).

Definition resolveProxyForUrlFromEnv (target : string) (env : ProxyEnvironment) :
    option (option string) :=
  resolveProxyForUrl target (loadProxySettings env).

(** ** The compatibility wrapper of [src/net/proxy-router.ts] *)

Definition compatibilityEnv (env : ProxyEnvironment) : ProxyEnvironment := fun name =>
  if bool_decide (name = "HTTP_PROXY"%string) then nullish (env "http_proxy"%string) (env "HTTP_PROXY"%string)
  else if bool_decide (name = "HTTPS_PROXY"%string) then nullish (env "https_proxy"%string) (env "HTTPS_PROXY"%string)
  else if bool_decide (name = "ALL_PROXY"%string) then nullish (env "all_proxy"%string) (env "ALL_PROXY"%string)
  else if bool_decide (name = "NO_PROXY"%string) then nullish (env "no_proxy"%string) (env "NO_PROXY"%string)
  else None.

Definition router_loadProxySettings (env : ProxyEnvironment) : ProxySettings :=
  loadProxySettings (compatibilityEnv env).
End Url.

(** ** Lemmas *)

Lemma str_get_app_length a c b : String.get (String.length a) (a +:+ String c b)%string = Some c.
Proof. induction a as [|d a IH]; [by rewrite str_app_nil_l|]. rewrite str_app_cons. apply IH. Qed.

Lemma str_get_split i s c :
  String.get i s = Some c -> s = (str_take i s +:+ String c (str_drop (S i) s))%string.
Proof.
  revert s. induction i as [|i IH]; intros [|d s]; simpl; try done.
  - by intros [= ->].
  - intros Hs. rewrite str_app_cons. f_equal. by apply IH.
Qed.

(** The label boundary: a subdomain is a parent behind a dot. *)
Lemma isSubdomainOf_iff host parent :
  isSubdomainOf host parent = true <-> exists p, host = (p +:+ "." +:+ parent)%string.
Proof.
  unfold isSubdomainOf. split.
  - destruct (ends_with parent host) eqn:He; [|done]. apply ends_with_iff in He as [a ->].
    cbn [negb]. rewrite andb_true_iff, bool_decide_eq_true. unfold str_len. rewrite str_app_length.
    intros [Hb%Z.leb_le Hget].
    assert (Ha : exists p c, a = (p +:+ String c "")%string).
    { assert (Hl : (0 < String.length a)%nat) by lia. clear -Hl. induction a as [|c a IH]; [simpl in Hl; lia|].
      destruct a as [|d a]; [by exists EmptyString, c|].
      destruct IH as (p & e & ->); [simpl; lia|]. exists (String c p), e. by rewrite str_app_cons. }
    destruct Ha as (p & c & ->). rewrite str_app_length in Hget. cbn [String.length] in Hget.
    replace (Z.to_nat _) with (String.length p) in Hget by lia.
    rewrite <- str_app_assoc, str_app_cons, str_app_nil_l, str_get_app_length in Hget.
    injection Hget as ->. exists p. by rewrite <- str_app_assoc.
  - intros [p ->].
    assert (He : ends_with parent (p +:+ "." +:+ parent)%string = true).
    { apply ends_with_iff. exists (p +:+ ".")%string. by rewrite <- str_app_assoc. }
    rewrite He. cbn [negb]. rewrite andb_true_iff, bool_decide_eq_true. unfold str_len.
    rewrite !str_app_length. cbn [String.length].
    replace (Z.to_nat _) with (String.length p) by lia. split; [apply Z.leb_le; lia|].
    rewrite str_app_cons, str_app_nil_l. apply str_get_app_length.
Qed.

(** What a rule covers. *)
Definition covers (host : string) (rule : NoProxyRule) : Prop :=
  host = rule_host rule \/
  (matchSubdomains rule = true /\ exists p, host = (p +:+ "." +:+ rule_host rule)%string).

Lemma matchesRuleHost_iff host rule : matchesRuleHost host rule = true <-> covers host rule.
Proof.
  unfold matchesRuleHost, covers. case_bool_decide as Hh; [intuition|].
  destruct (matchSubdomains rule); simpl; [rewrite isSubdomainOf_iff|]; intuition done.
Qed.

(** C26. A request bypasses the proxy exactly when some [NO_PROXY] rule is [*] or
    covers its host - the host itself or, for a domain rule, a subdomain with the
    label boundary respected - and names no port or the port the request goes to. *)
Theorem shouldBypassProxy_iff target rules :
  shouldBypassProxy target rules = true <->
  exists host rule, normalizeHost (hostname target) = Some host /\ rule ∈ rules /\
    (rule_host rule = "*"%string \/
     (covers host rule /\ (rule_port rule = None \/ rule_port rule = Some (getTargetPort target)))).
Proof.
  unfold shouldBypassProxy. destruct rules as [|r rules]; simpl (_ =? 0)%nat; cbv iota.
  { split; [done|]. intros (? & ? & _ & Hin & _). by apply elem_of_nil in Hin. }
  destruct (normalizeHost (hostname target)) as [host|].
  2:{ split; [done|]. by intros (? & ? & ? & _). }
  rewrite existsb_exists. split.
  - intros (rule & Hin & Hr). exists host, rule. apply list_elem_of_In in Hin. split_and!; [done|done|].
    case_bool_decide as Hs; [by left|]. right.
    destruct (matchesRuleHost host rule) eqn:Hm; [|done]. apply matchesRuleHost_iff in Hm.
    split; [done|]. simpl in Hr. destruct (rule_port rule) as [p|]; [right|by left].
    apply Z.eqb_eq in Hr. by subst.
  - intros (host' & rule & [= <-] & Hin & Hr). exists rule. split; [by apply list_elem_of_In|].
    case_bool_decide as Hs; [done|]. destruct Hr as [|[Hc Hp]]; [done|].
    apply matchesRuleHost_iff in Hc. rewrite Hc. simpl.
    destruct Hp as [-> | ->]; [done|apply Z.eqb_refl].
Qed.

Lemma parsePort_bounds token port : parsePort token = Some port -> 1 <= port <= 65535.
Proof.
  unfold parsePort. destruct (is_empty token); [done|]. destruct (negb _); [done|].
  destruct (num_safe_integer _) as [p|]; [|done].
  destruct (Z.leb_spec p 0); [done|]. destruct (Z.ltb_spec 65535 p); [done|]. intros [= <-]. lia.
Qed.

Lemma normalizeHost_ok h host :
  normalizeHost h = Some host ->
  host <> EmptyString /\ includes "/" host = false /\ includes " " host = false.
Proof.
  unfold normalizeHost. destruct (is_empty (to_lower _)); [done|].
  cbv zeta. match goal with |- context [is_empty ?x || _] => generalize x; intros n end.
  destruct (_ || _) eqn:Hn; [done|]. intros [= <-].
  apply orb_false_iff in Hn as [[Hn1 Hn2]%orb_false_iff Hn3]. split_and!; [|done|done].
  intros ->. done.
Qed.

Definition rule_ok (rule : NoProxyRule) : Prop :=
  rule_host rule <> EmptyString /\ includes "/" (rule_host rule) = false /\
  includes " " (rule_host rule) = false /\
  (forall port, rule_port rule = Some port -> 1 <= port <= 65535).

Section Theorems.
Context (URL_parse : string -> option url) (isIP : string -> Z).

Lemma splitHostAndPort_port token h port :
  splitHostAndPort token = Some (h, Some port) -> 1 <= port <= 65535.
Proof.
  unfold splitHostAndPort. repeat case_match; try done; intros [= _ <-]; by eapply parsePort_bounds.
Qed.

(** Whatever [NO_PROXY] holds, its rules are usable: a host that is not empty and
    has neither slash nor space, and a port, if any, between 1 and 65535; entries
    that do not parse are dropped without affecting the others. *)
Theorem parseNoProxy_rules_ok raw :
  Forall rule_ok (parseNoProxy URL_parse isIP raw) /\
  (forall pre token post, raw = (pre +:+ "," +:+ token +:+ "," +:+ post)%string ->
     index_of "," token = None ->
     parseNoProxyToken URL_parse isIP (trim token) = None ->
     parseNoProxy URL_parse isIP raw = parseNoProxy URL_parse isIP (pre +:+ "," +:+ post)%string).
Proof.
  split.
  - unfold parseNoProxy. destruct (is_empty _); [constructor|].
    apply Forall_forall. intros rule (token & _ & Htok)%list_elem_of_omap. revert Htok.
    unfold parseNoProxyToken. generalize (trim token). clear. intros token.
    destruct (is_empty token); [done|]. case_bool_decide.
    { intros [= <-]. by split_and!. }
    destruct (parseNoProxyUrlToken URL_parse token) as [[h port]|] eqn:Hu.
    + unfold mbind, option_bind. destruct (normalizeHost h) as [host|] eqn:Hh; [|done]. intros [= <-].
      apply normalizeHost_ok in Hh as (? & ? & ?). split_and!; try done. simpl. intros p ->.
      unfold parseNoProxyUrlToken in Hu. destruct (negb _); [done|].
      destruct (URL_parse token); [|done]. injection Hu as _ Hp. by eapply parsePort_bounds.
    + unfold mbind, option_bind. destruct (splitHostAndPort _) as [[h port]|] eqn:Hs; [|done].
      simpl. destruct (normalizeHost h) as [host|] eqn:Hh; [|done]. intros [= <-].
      apply normalizeHost_ok in Hh as (? & ? & ?). split_and!; try done. simpl. intros p ->.
      by eapply splitHostAndPort_port.
  - intros pre token post -> Htok Hdrop.
    assert (Hcomma : forall x, ("," +:+ x)%string = String "," x) by done. rewrite !Hcomma.
    unfold parseNoProxy. rewrite !trim_nonempty by done.
    rewrite !split_on_app, (split_on_none _ token) by done. rewrite !omap_app. f_equal.
    cbn [omap list_omap app]. by rewrite Hdrop.
Qed.

(** How the bridge's wrapper differs from the library it wraps: the settings
    agree on the HTTPS and the catch-all proxy, and on the HTTP proxy outside CGI;
    under CGI the library ignores an upper-case [HTTP_PROXY] and the wrapper uses it;
    and of two [NO_PROXY] lists the library reads the upper-case one, the wrapper
    the lower-case one. *)
Theorem router_settings_compared env :
  let core := loadProxySettings URL_parse isIP env in
  let router := router_loadProxySettings URL_parse isIP env in
  httpsProxy router = httpsProxy core /\ allProxy router = allProxy core /\
  httpProxy router = sanitizeProxyUrl URL_parse (nullish (env "http_proxy") (env "HTTP_PROXY")) /\
  (is_cgi env = false -> httpProxy router = httpProxy core) /\
  (is_cgi env = true -> httpProxy core = sanitizeProxyUrl URL_parse (env "http_proxy")) /\
  noProxy router = parseNoProxy URL_parse isIP (default "" (nullish (env "no_proxy") (env "NO_PROXY"))) /\
  noProxy core = parseNoProxy URL_parse isIP (default "" (nullish (env "NO_PROXY") (env "no_proxy"))).
Proof.
  cbv zeta. unfold router_loadProxySettings, loadProxySettings.
  assert (Hcgi : is_cgi (compatibilityEnv env) = false) by done.
  cbn [httpProxy httpsProxy allProxy noProxy]. rewrite Hcgi.
  assert (Hread : forall upper lower b, compatibilityEnv env lower = None ->
    compatibilityEnv env upper = nullish (env lower) (env upper) ->
    readProxyEnv (compatibilityEnv env) upper lower false = nullish (env lower) (env upper) /\
    readProxyEnv env upper lower b = nullish (env lower) (if b then None else env upper)).
  { intros upper lower b Hl Hu. unfold readProxyEnv, readRawEnv. rewrite Hl, Hu.
    unfold nullish. split; by destruct (env lower), (env upper), b. }
  destruct (Hread "HTTP_PROXY"%string "http_proxy"%string (is_cgi env)) as [H1 H2]; [done..|].
  destruct (Hread "HTTPS_PROXY"%string "https_proxy"%string false) as [H3 H4]; [done..|].
  destruct (Hread "ALL_PROXY"%string "all_proxy"%string false) as [H5 H6]; [done..|].
  rewrite H1, H2, H3, H4, H5, H6. split_and!; try done.
  - by intros ->.
  - intros ->. by destruct (env "http_proxy"%string).
  - assert (Hn : readRawEnv (compatibilityEnv env) "NO_PROXY" "no_proxy" =
      nullish (nullish (env "no_proxy"%string) (env "NO_PROXY"%string)) None) by done.
    rewrite Hn. by destruct (env "no_proxy"%string), (env "NO_PROXY"%string).
Qed.
End Theorems.

(** A parser for the witnesses: [http://] and a host, nothing else. *)
Definition demo_url (s : string) : option url :=
  if starts_with "http://" s then Some (Url "http:" (str_drop 7 s) "" (s +:+ "/")%string) else None.

Lemma router_settings_compared_cgi :
  let env name := if bool_decide (name = "HTTP_PROXY"%string) then Some "evil"%string
                  else if bool_decide (name = "REQUEST_METHOD"%string) then Some "GET"%string else None in
  httpProxy (loadProxySettings demo_url (fun _ => 0) env) = None /\
  httpProxy (router_loadProxySettings demo_url (fun _ => 0) env) = Some "http://evil/"%string.
Proof. vm_compute. by split. Qed.

(** The subdomain boundary, and the port of a rule. *)
Lemma bypass_examples :
  let rules := parseNoProxy demo_url (fun _ => 0) "internal.local:8080, .corp" in
  shouldBypassProxy (Url "http:" "a.internal.local" "8080" "") rules = true /\
  shouldBypassProxy (Url "http:" "notinternal.local" "8080" "") rules = false /\
  shouldBypassProxy (Url "http:" "internal.local" "" "") rules = false /\
  shouldBypassProxy (Url "wss:" "X.CORP." "" "") rules = true.
Proof. vm_compute. by split_and!. Qed.

Lemma parseNoProxy_rules_ok_witness :
  parseNoProxy demo_url (fun _ => 0) "a.b,:,c" = parseNoProxy demo_url (fun _ => 0) "a.b,c".
Proof.
  apply (parseNoProxy_rules_ok demo_url (fun _ => 0) "a.b,:,c") with (pre := "a.b"%string) (token := ":"%string) (post := "c"%string);
    reflexivity.
Defined.
