(* ===== verification/AgentCache.v ===== *)
(** * Bounded caches ([packages/proxy-agent/src/bounded-agent-cache.ts] and
    [packages/proxy-undici/src/bounded-dispatcher-cache.ts])

    The two files hold the same class.  The [Map] keeps its keys in insertion order,
    oldest first.  An operation returns the values passed to [onEvict]. *)

From S2P Require Import Prelude JsMap.
Local Open Scope Z_scope.

Definition DEFAULT_CACHE_ENTRIES : Z := 256.

(** [Math.floor] of a finite non-negative number is its [trunc]. *)
Definition normalizeCacheEntries (value : option num) : Z :=
  match value with
  | None => DEFAULT_CACHE_ENTRIES
  | Some (Fin m e) =>
      if m <? 0 then DEFAULT_CACHE_ENTRIES
      else
        match num_safe_integer (num_of_Z (trunc m e)) with
        | Some normalized => normalized
        | None => DEFAULT_CACHE_ENTRIES
        end
  | Some _ => DEFAULT_CACHE_ENTRIES
  end.

Section Cache.
(** Values are object references, compared by identity. *)
Context {K V : Type} `{EqDecision K, EqDecision V}.

Record BoundedAgentCache : Type := Cache {
  store : list (K * V);
  maxEntries : Z
}.

Definition newCache (maxEntries : Z) : BoundedAgentCache := Cache [] maxEntries.

Definition size (c : BoundedAgentCache) : Z := Z.of_nat (length (store c)).

Definition clear (c : BoundedAgentCache) : list V * BoundedAgentCache :=
  ((store c).*2, Cache [] (maxEntries c)).

Definition get (key : K) (c : BoundedAgentCache) : option V * BoundedAgentCache :=
  match jm_get key (store c) with
  | None => (None, c)
  | Some value => (Some value, Cache (jm_set key value (jm_delete key (store c))) (maxEntries c))
  end.

(** The [while] loop; each turn deletes an entry, so the entries are fuel enough. *)
Fixpoint evict_oldest (fuel : nat) (max : Z) (store : list (K * V)) : list V * list (K * V) :=
  match fuel with
  | O => ([], store)
  | S fuel =>
      if Z.of_nat (length store) <=? max then ([], store)
      else
        match store with
        | [] => ([], store)
        | (oldestKey, oldestValue) :: _ =>
            let (evicted, store') := evict_oldest fuel max (jm_delete oldestKey store) in
            (oldestValue :: evicted, store')
        end
  end.

Definition set (key : K) (value : V) (c : BoundedAgentCache) : list V * BoundedAgentCache :=
  if maxEntries c =? 0 then ([], c)
  else
    let (evicted, s) :=
      match jm_get key (store c) with
      | Some prior =>
          ((if decide (prior = value) then [] else [prior]), jm_delete key (store c))
      | None => ([], store c)
      end in
    let s := jm_set key value s in
    let (evicted', s) := evict_oldest (length s) (maxEntries c) s in
    (evicted ++ evicted', Cache s (maxEntries c)).

(** ** Runs *)

Inductive cache_op : Type :=
| CacheGet (key : K)
| CacheSet (key : K) (value : V)
| CacheClear.

Definition cache_step (o : cache_op) (c : BoundedAgentCache) : list V * BoundedAgentCache :=
  match o with
  | CacheGet k => ([], (get k c).2)
  | CacheSet k v => set k v c
  | CacheClear => clear c
  end.

Fixpoint cache_run (os : list cache_op) (c : BoundedAgentCache) : list V * BoundedAgentCache :=
  match os with
  | [] => ([], c)
  | o :: os =>
      let (e, c) := cache_step o c in
      let (e', c) := cache_run os c in
      (e ++ e', c)
  end.

(** ** Reference: entries by recency, without a bound *)

Definition touch (k : K) (v : V) (r : list (K * V)) : list (K * V) := jm_delete k r ++ [(k, v)].

(** The entries a cache of [max] entries may still have: the last [max] used. *)
Definition recent (max : nat) (r : list (K * V)) : list (K * V) := lastn max r.

Definition ref_step (max : nat) (o : cache_op) (r : list (K * V)) : list (K * V) :=
  match o with
  | CacheGet k =>
      match jm_get k (recent max r) with
      | Some v => touch k v r
      | None => r
      end
  | CacheSet k v => touch k v r
  | CacheClear => []
  end.

(** ** Lemmas *)

Lemma evict_oldest_spec fuel max s :
  0 <= max -> (length s <= fuel)%nat -> jm_wf s ->
  evict_oldest fuel max s =
    (take (length s - Z.to_nat max) s.*2, drop (length s - Z.to_nat max) s).
Proof.
  intros Hmax. revert s. induction fuel as [|fuel IH]; intros s Hf Hwf.
  { destruct s; [done|simpl in Hf; lia]. }
  simpl. destruct (Z.leb_spec (Z.of_nat (length s)) max) as [Hle|Hgt].
  - replace (length s - Z.to_nat max)%nat with 0%nat by lia. by rewrite take_0, drop_0.
  - destruct s as [|[k v] s]; [simpl in Hgt; lia|].
    assert (Hdel : jm_delete k ((k, v) :: s) = s).
    { unfold jm_wf in Hwf. simpl in Hwf. apply NoDup_cons in Hwf as [Hk _].
      unfold jm_delete. rewrite filter_cons, decide_False by (simpl; tauto).
      apply filter_all, Forall_forall. intros [k' v'] Hin Heq. simpl in Heq. subst.
      apply Hk. apply list_elem_of_fmap. by exists (k, v'). }
    rewrite Hdel, IH.
    + simpl length. replace (S (length s) - Z.to_nat max)%nat with (S (length s - Z.to_nat max)) by (simpl in Hgt; lia).
      done.
    + simpl in Hf. lia.
    + unfold jm_wf in *. simpl in Hwf. by apply NoDup_cons in Hwf as [_ Hwf].
Qed.

Lemma set_spec k v c :
  0 < maxEntries c -> jm_wf (store c) ->
  set k v c =
    let s := touch k v (store c) in
    let n := (length s - Z.to_nat (maxEntries c))%nat in
    ((match jm_get k (store c) with
      | Some prior => if decide (prior = v) then [] else [prior]
      | None => []
      end) ++ take n s.*2, Cache (drop n s) (maxEntries c)).
Proof.
  intros Hmax Hwf. unfold set. destruct (Z.eqb_spec (maxEntries c) 0); [lia|].
  assert (Hset : jm_set k v (jm_delete k (store c)) = touch k v (store c)).
  { apply jm_set_fresh. rewrite jm_get_delete. by rewrite decide_True. }
  assert (Hwf' : jm_wf (touch k v (store c))).
  { rewrite <- Hset. by apply jm_wf_set, jm_wf_delete. }
  destruct (jm_get k (store c)) as [prior|] eqn:Hg.
  - rewrite Hset, evict_oldest_spec; [done|lia|done|done].
  - rewrite (jm_delete_fresh k (store c) Hg) in Hset. rewrite Hset, evict_oldest_spec; [done|lia|done|done].
Qed.

Lemma get_spec k c :
  get k c =
    match jm_get k (store c) with
    | Some v => (Some v, Cache (touch k v (store c)) (maxEntries c))
    | None => (None, c)
    end.
Proof.
  unfold get. destruct (jm_get k (store c)); [|done]. unfold touch.
  rewrite jm_set_fresh; [done|]. rewrite jm_get_delete. by rewrite decide_True.
Qed.

Lemma touch_wf k v r : jm_wf r -> jm_wf (touch k v r).
Proof.
  intros Hr. unfold touch. rewrite <- jm_set_fresh.
  - by apply jm_wf_set, jm_wf_delete.
  - rewrite jm_get_delete. by rewrite decide_True.
Qed.

Lemma jm_wf_drop n (r : list (K * V)) : jm_wf r -> jm_wf (drop n r).
Proof.
  unfold jm_wf. rewrite fmap_drop. intros Hr. eapply sublist_NoDup; [exact Hr|]. apply sublist_drop.
Qed.

Lemma delete_app k (a b : list (K * V)) : jm_delete k (a ++ b) = jm_delete k a ++ jm_delete k b.
Proof. unfold jm_delete. apply filter_app. Qed.

(** Deleting a key shortens a map by one entry or not at all. *)
Lemma delete_length k (r : list (K * V)) : jm_wf r ->
  length (jm_delete k r) =
    match jm_get k r with Some _ => pred (length r) | None => length r end.
Proof.
  unfold jm_wf. induction r as [|[k' v'] r IH]; [done|]. cbn [fmap list_fmap]. intros [Hk Hr]%NoDup_cons.
  cbn [jm_get]. unfold jm_delete. rewrite filter_cons. simpl.
  destruct (decide (k = k')) as [->|Hne].
  - rewrite decide_False by tauto. fold (jm_delete k' r). rewrite jm_delete_fresh; [done|].
    apply jm_get_None. done.
  - rewrite decide_True by done. simpl. fold (jm_delete k r). rewrite IH by done.
    destruct (jm_get k r) eqn:Hg; [|done]. by destruct r.
Qed.

(** Touching a key and looking at the last entries is touching it there. *)
Lemma recent_touch max k v r : (0 < max)%nat -> jm_wf r ->
  recent max (touch k v r) =
    drop (length (touch k v (recent max r)) - max) (touch k v (recent max r)).
Proof.
  intros Hmax Hr. unfold recent, lastn, touch.
  set (n := (length r - max)%nat). set (b := drop n r).
  assert (Hwf : jm_wf b) by (by apply jm_wf_drop).
  pose proof (delete_length k b Hwf) as Hlb.
  assert (Hd : jm_delete k r = jm_delete k (take n r) ++ jm_delete k b).
  { rewrite <- delete_app. unfold b. by rewrite take_drop. }
  rewrite Hd, <- app_assoc, !length_app. cbn [length].
  destruct (decide (n = 0)%nat) as [Hn|Hn].
  - rewrite Hn. simpl. done.
  - assert (Hl : length b = max) by (unfold b; rewrite length_drop; lia).
    assert (Hge : (max <= length (jm_delete k b) + 1)%nat) by (destruct (jm_get k b); lia).
    replace (length (jm_delete k (take n r)) + (length (jm_delete k b) + 1) - max)%nat
      with (length (jm_delete k (take n r)) + (length (jm_delete k b) + 1 - max))%nat by lia.
    by rewrite drop_app_add.
Qed.

Lemma recent_length max r : (length (recent max r) <= max)%nat.
Proof. unfold recent. rewrite lastn_length. lia. Qed.

(** The invariant: the cache is the recent part of the reference. *)
Definition lru_rel (max : nat) (r : list (K * V)) (c : BoundedAgentCache) : Prop :=
  jm_wf r /\ maxEntries c = Z.of_nat max /\ store c = recent max r.

Lemma lru_step max o r c : (0 < max)%nat -> lru_rel max r c ->
  lru_rel max (ref_step max o r) (cache_step o c).2.
Proof.
  intros Hmax (Hr & Hm & Hs).
  assert (Hwf : jm_wf (store c)) by (rewrite Hs; by apply jm_wf_drop).
  destruct o as [k|k v|]; cbn [ref_step cache_step].
  - rewrite get_spec, Hs. destruct (jm_get k (recent max r)) as [v|] eqn:Hg; simpl.
    2:{ by split_and!. }
    split_and!; [by apply touch_wf|done|]. rewrite recent_touch by done.
    assert (Hl : (length (touch k v (recent max r)) - max = 0)%nat).
    { unfold touch. rewrite length_app. cbn [length]. rewrite <- Hs in *.
      rewrite delete_length, Hg by done. pose proof (recent_length max r). rewrite <- Hs in *.
      destruct (store c); [done|simpl in *; lia]. }
    by rewrite Hl, drop_0.
  - rewrite set_spec by (lia || done). simpl. rewrite Hm, Nat2Z.id, Hs.
    split_and!; [by apply touch_wf|done|by rewrite recent_touch].
  - split_and!; [constructor|done|]. simpl. unfold recent, lastn. by rewrite drop_nil.
Qed.

(** C25. The cache is least-recently-used: with room for [max > 0] entries, after any
    calls it holds exactly the last [max] distinct keys touched by [set] or by a
    [get] that hit, oldest first, each with its latest value; so it never exceeds
    its bound and a [get] of one of those keys always hits. *)
Theorem cache_is_lru max (os : list cache_op) :
  (0 < max)%nat ->
  let c := (cache_run os (newCache (Z.of_nat max))).2 in
  let r := foldl (fun r o => ref_step max o r) [] os in
  store c = recent max r /\ size c <= Z.of_nat max /\
  forall k, (get k c).1 = jm_get k (recent max r).
Proof.
  intros Hmax.
  assert (Hrun : forall os r c, lru_rel max r c ->
    lru_rel max (foldl (fun r o => ref_step max o r) r os) (cache_run os c).2).
  { clear os. induction os as [|o os IH]; intros r c Hrel; [done|]. simpl.
    pose proof (lru_step max o r c Hmax Hrel) as Hstep.
    destruct (cache_step o c) as [e c']. cbn [snd] in Hstep. specialize (IH _ _ Hstep). by destruct (cache_run os c') as [e' c'']. }
  destruct (Hrun os [] (newCache (Z.of_nat max))) as (_ & _ & Hs).
  { split_and!; [constructor|done|]. unfold recent, lastn. by rewrite drop_nil. }
  cbv zeta. split_and!; [done| |].
  - unfold size. rewrite Hs. pose proof (recent_length max (foldl (fun r o => ref_step max o r) [] os)). lia.
  - intros k. rewrite get_spec, Hs. by destruct (jm_get k (recent max _)).
Qed.

(** The values an operation hands over to the cache: a new object under its key. *)
Definition accepted (o : cache_op) (c : BoundedAgentCache) : list V :=
  match o with
  | CacheSet k v =>
      if maxEntries c =? 0 then []
      else if decide (jm_get k (store c) = Some v) then [] else [v]
  | _ => []
  end.

Fixpoint accepted_run (os : list cache_op) (c : BoundedAgentCache) : list V :=
  match os with
  | [] => []
  | o :: os => accepted o c ++ accepted_run os (cache_step o c).2
  end.

Lemma delete_perm k v (s : list (K * V)) : jm_wf s -> jm_get k s = Some v -> s ≡ₚ (k, v) :: jm_delete k s.
Proof.
  unfold jm_wf. induction s as [|[k' v'] s IH]; [done|]. cbn [fmap list_fmap jm_get]. intros [Hk Hs]%NoDup_cons.
  unfold jm_delete. rewrite filter_cons. simpl. destruct (decide (k = k')) as [->|Hne].
  - intros [= ->]. rewrite decide_False by tauto. fold (jm_delete k' s).
    rewrite jm_delete_fresh; [done|]. by apply jm_get_None.
  - intros Hg. rewrite decide_True by done. fold (jm_delete k s). rewrite (IH Hs Hg) at 1. apply Permutation_swap.
Qed.

Lemma step_conserves o c : 0 <= maxEntries c -> jm_wf (store c) ->
  (cache_step o c).1 ++ (store (cache_step o c).2).*2 ≡ₚ accepted o c ++ (store c).*2 /\
  jm_wf (store (cache_step o c).2) /\ maxEntries (cache_step o c).2 = maxEntries c.
Proof.
  intros Hmax Hwf. destruct o as [k|k v|]; cbn [cache_step accepted].
  - rewrite get_spec. destruct (jm_get k (store c)) as [v|] eqn:Hg; simpl; [|done].
    split_and!; [|by apply touch_wf|done].
    rewrite (delete_perm k v (store c)) at 2 by done. unfold touch. rewrite fmap_app. simpl.
    by rewrite Permutation_app_comm.
  - destruct (Z.eqb_spec (maxEntries c) 0) as [H0|H0].
    { unfold set. rewrite H0, Z.eqb_refl. by split_and!. }
    rewrite set_spec by (lia || done). cbn [fst snd store maxEntries].
    set (s := touch k v (store c)). set (n := (length s - _)%nat).
    split_and!; [|by apply jm_wf_drop, touch_wf|done].
    rewrite fmap_drop, <- app_assoc, take_drop. unfold s, touch. rewrite fmap_app. simpl.
    destruct (jm_get k (store c)) as [prior|] eqn:Hg.
    + rewrite (delete_perm k prior (store c)) at 2 by done. simpl.
      destruct (decide (prior = v)) as [->|Hne].
      * rewrite decide_True by done. simpl. by rewrite Permutation_app_comm.
      * rewrite decide_False by congruence. simpl.
        rewrite (Permutation_app_comm _ [v]). simpl. apply Permutation_swap.
    + rewrite decide_False by done. simpl. rewrite jm_delete_fresh by done.
      by rewrite Permutation_app_comm.
  - simpl. split_and!; [by rewrite app_nil_r|constructor|done].
Qed.

(** An operation leaves entries that were there, or the one it sets. *)
Lemma step_entries o c kv : 0 <= maxEntries c -> jm_wf (store c) ->
  kv ∈ store (cache_step o c).2 ->
  kv ∈ store c \/ exists k v, o = CacheSet k v /\ kv = (k, v).
Proof.
  intros Hmax Hwf.
  assert (Htouch : forall k v (r : list (K * V)), kv ∈ touch k v r -> kv ∈ r \/ kv = (k, v)).
  { intros k v r [[_ H]%list_elem_of_filter|H%list_elem_of_singleton]%elem_of_app; by auto. }
  destruct o as [k|k v|]; cbn [cache_step].
  - rewrite get_spec. destruct (jm_get k (store c)) as [v|] eqn:Hg; simpl; [|by left].
    intros [H|H]%Htouch; [by left|]. subst. left. by apply jm_get_In.
  - destruct (Z.eqb_spec (maxEntries c) 0) as [H0|H0].
    { unfold set. rewrite H0, Z.eqb_refl. by left. }
    rewrite set_spec by (lia || done). simpl. intros H%(subseteq_drop _ _ kv). apply Htouch in H. naive_solver.
  - simpl. by intros ?%elem_of_nil.
Qed.

Lemma get_cached k v c c' : get k c = (Some v, c') -> (k, v) ∈ store c.
Proof.
  rewrite get_spec. destruct (jm_get k (store c)) as [v'|] eqn:Hk; [|done].
  intros [= -> _]. by apply jm_get_In.
Qed.

(** What has just been set is cached, unless the cache is disabled. *)
Lemma set_cached k v c : 0 < maxEntries c -> jm_wf (store c) -> (k, v) ∈ store (set k v c).2.
Proof.
  intros Hmax Hwf. rewrite set_spec by done. simpl. unfold touch. rewrite length_app. simpl.
  rewrite drop_app_le by lia. apply elem_of_app. right. by apply list_elem_of_singleton.
Qed.

(** No agent is leaked or destroyed twice: after any calls, the values passed to
    [onEvict] together with the values still in the cache are, one for one, the
    values handed over - every [set] of an object that was not already cached under
    its key, unless the cache is disabled. *)
Theorem cache_conserves max (os : list cache_op) :
  0 <= max ->
  (cache_run os (newCache max)).1 ++ (store (cache_run os (newCache max)).2).*2
    ≡ₚ accepted_run os (newCache max).
Proof.
  intros Hmax.
  assert (Hrun : forall os c, 0 <= maxEntries c -> jm_wf (store c) ->
    (cache_run os c).1 ++ (store (cache_run os c).2).*2 ≡ₚ accepted_run os c ++ (store c).*2).
  { clear os. induction os as [|o os IH]; intros c Hm Hwf; [done|]. cbn [cache_run accepted_run].
    destruct (step_conserves o c Hm Hwf) as (Hp & Hwf' & Hm').
    destruct (cache_step o c) as [e c'] eqn:Hstep. simpl in *.
    specialize (IH c' ltac:(lia) Hwf'). destruct (cache_run os c') as [e' c'']. simpl in *.
    rewrite <- app_assoc, IH, (Permutation_app_comm (accepted o c)), <- app_assoc, <- Hp, !app_assoc.
    by rewrite (Permutation_app_comm e). }
  rewrite Hrun; [by rewrite app_nil_r|done|constructor].
Qed.
End Cache.

Lemma cache_is_lru_witness :
  store (cache_run [CacheSet "a" 1; CacheSet "b" 2; CacheGet "a"; CacheSet "c" 3] (newCache 2)).2 =
    [("a", 1); ("c", 3)]%string.
Proof.
  destruct (cache_is_lru 2 [CacheSet "a" 1; CacheSet "b" 2; CacheGet "a"; CacheSet "c" 3]%string) as [H _];
    [lia|].
  etrans; [exact H|reflexivity].
Defined.

Lemma cache_conserves_witness :
  (cache_run [CacheSet "a" 1; CacheSet "b" 2; CacheSet "b" 3] (newCache 1)).1 ++
  (store (cache_run [CacheSet "a" 1; CacheSet "b" 2; CacheSet "b" 3] (newCache 1)).2).*2 ≡ₚ [1; 2; 3].
Proof.
  pose proof (cache_conserves 1 [CacheSet "a" 1; CacheSet "b" 2; CacheSet "b" 3]%string ltac:(lia)) as H.
  exact H.
Defined.

Lemma normalizeCacheEntries_bounds value : 0 <= normalizeCacheEntries value <= max_safe_integer.
Proof.
  assert (H256 : 0 <= 256 <= max_safe_integer) by (unfold max_safe_integer; lia).
  unfold normalizeCacheEntries, DEFAULT_CACHE_ENTRIES. destruct value as [[| |m e]|]; try done.
  destruct (Z.ltb_spec m 0); [done|].
  destruct (num_safe_integer _) as [z|] eqn:Hz; [|done].
  unfold num_safe_integer in Hz. rewrite num_to_Z_int in Hz.
  destruct (Z.leb_spec (Z.abs (trunc m e)) max_safe_integer); [|done]. injection Hz as <-.
  assert (0 <= trunc m e); [|lia]. unfold trunc.
  case_match; [apply Z.mul_nonneg_nonneg; lia|apply Z.quot_pos; lia].
Qed.
