(* ===== verification/RelaySession.v ===== *)
(** * Relay sessions ([packages/commandrelay-relay-proxy/src/index.ts] and
    [request-guards.ts])

    The relay admits WebSocket upgrades and pipes each client to an upstream socket.
    A socket is its [readyState] and what is done to it; [send] may throw.  What a
    handler does to sockets is a list of effects; [relay_step] is one event.
    [new URL(...).pathname] ([None]: it throws), the SHA-256 digest and the byte
    length of a message are parameters.  A message is its data: the listeners take
    no second parameter, so the relay does not see whether it was text or binary,
    and [send] is called with the data alone. *)

From S2P Require Import Prelude JsMap.
Local Open Scope Z_scope.

Definition MAX_WS_PAYLOAD_BYTES : Z := 1024 * 1024 * 4.
Definition MAX_UPSTREAM_PENDING_MESSAGES : Z := 64.
Definition MAX_UPSTREAM_PENDING_BYTES : Z := MAX_WS_PAYLOAD_BYTES * 4.

(** ** Request guards *)

Record request : Type := Request {
  req_method : string;
  req_url : option string;
  req_origin : option string;
  req_authorization : option string
}.

Section Guards.
Context (URL_pathname : string -> option string) (sha256 : string -> string).

(** [None]: the URL constructor throws. *)
Definition isRelayPath (r : request) (relayPath : string) : option bool :=
  pathname ← URL_pathname (default "" (req_url r)); Some (bool_decide (pathname = relayPath)).

Definition isOriginAllowed (originHeader : option string) (allowedOrigins : list string) : bool :=
  if (length allowedOrigins =? 0)%nat then true
  else match originHeader with
       | Some origin => bool_decide (origin ∈ allowedOrigins)
       | None => false
       end.

Definition extractBearerTokenFromRequest (r : request) : string :=
  match req_authorization r with
  | Some bearer => if starts_with "bearer " (to_lower bearer) then trim (str_drop 7 bearer) else EmptyString
  | None => EmptyString
  end.

Definition constantTimeEquals (left right : string) : bool :=
  if negb (str_len left =? str_len right) then false else bool_decide (left = right).

Definition isTokenValidFromRequest (r : request) (requiredToken : string) : bool :=
  if is_empty requiredToken then true
  else constantTimeEquals (sha256 requiredToken) (sha256 (extractBearerTokenFromRequest r)).
End Guards.

(** ** State *)

Record RelayOptions : Type := Options {
  relayPath : string;
  allowedOrigins : list string;
  requiredToken : string;
  maxConnections : Z;
  idleTimeoutMs : Z
}.

(** [CLOSED] stands for CLOSING and CLOSED. *)
Inductive ready_state : Type := CONNECTING | OPEN | CLOSED.

#[export] Instance ready_state_eq_dec : EqDecision ready_state.
Proof. solve_decision. Defined.

Section Relay.
Context {D : Type} (getByteLength : D -> Z).
Context (URL_pathname : string -> option string) (sha256 : string -> string) (cfg : RelayOptions).

(** [RelaySessionState] of a session in the map, which is one that is not closing,
    and the states of its two sockets. *)
Record RelaySessionState : Type := Session {
  lastActivityAtMs : Z;
  s_upstreamBytes : Z;
  s_downstreamBytes : Z;
  pendingUpstreamMessages : list D;
  pendingUpstreamQueuedBytes : Z;
  client_ready : ready_state;
  upstream_ready : ready_state
}.

Record RelayProxyStats : Type := Stats {
  activeConnections : Z;
  totalConnections : Z;
  peakActiveConnections : Z;
  upstreamBytes : Z;
  downstreamBytes : Z
}.

Record relay : Type := Relay {
  sessions : list (string * RelaySessionState);
  stats : RelayProxyStats;
  shuttingDown : bool;
  inFlightUpgrades : Z
}.

Definition init_relay : relay := Relay [] (Stats 0 0 0 0 0) false 0.

Inductive effect : Type :=
| EndUpgrade (status : string)
| HandleUpgrade
| CloseUpgraded (code : Z) (reason : string)
| SendUpstream (id : string) (data : D)
| SendClient (id : string) (data : D)
| DisposeSession (id : string)
| CloseSession (id : string) (code : Z) (reason : string).

Definition set_sessions ss (r : relay) : relay := Relay ss (stats r) (shuttingDown r) (inFlightUpgrades r).
Definition set_stats st (r : relay) : relay := Relay (sessions r) st (shuttingDown r) (inFlightUpgrades r).
Definition set_inFlight n (r : relay) : relay := Relay (sessions r) (stats r) (shuttingDown r) n.
Definition set_session id s (r : relay) : relay := set_sessions (jm_set id s (sessions r)) r.

(** ** Sessions *)

(** [closeSession]: [isClosing] is absence from the map, and the listeners are gone. *)
Definition closeSession (id : string) (reason : string) (immediate : bool) (r : relay) :
    list effect * relay :=
  match jm_get id (sessions r) with
  | None => ([], r)
  | Some _ =>
      let ss := jm_delete id (sessions r) in
      let st := stats r in
      let st := Stats (Z.of_nat (length ss)) (totalConnections st) (peakActiveConnections st)
                  (upstreamBytes st) (downstreamBytes st) in
      ([if immediate then DisposeSession id else CloseSession id 1000 reason],
       set_stats st (set_sessions ss r))
  end.

(** [safeSend] on a socket in state [ready]; [ok]: [send] returns normally. *)
Definition safeSend (id : string) (ready : ready_state) (ok : bool) (e : effect) (reason : string)
    (r : relay) : bool * list effect * relay :=
  if negb (bool_decide (ready = OPEN)) then
    let (es, r) := closeSession id reason true r in (false, es, r)
  else if ok then (true, [e], r)
  else let (es, r) := closeSession id reason true r in (false, es, r).

Definition onClientMessage (id : string) (data : D) (now : Z) (ok : bool) (r : relay) :
    list effect * relay :=
  match jm_get id (sessions r) with
  | None => ([], r)
  | Some s =>
      if shuttingDown r then ([], r)
      else
        let bytes := getByteLength data in
        let s := Session now (s_upstreamBytes s + bytes) (s_downstreamBytes s)
                   (pendingUpstreamMessages s) (pendingUpstreamQueuedBytes s)
                   (client_ready s) (upstream_ready s) in
        let st := stats r in
        let r := set_stats (Stats (activeConnections st) (totalConnections st)
                   (peakActiveConnections st) (upstreamBytes st + bytes) (downstreamBytes st))
                   (set_session id s r) in
        if negb (bool_decide (upstream_ready s = OPEN)) then
          if (MAX_UPSTREAM_PENDING_MESSAGES <=? Z.of_nat (length (pendingUpstreamMessages s))) ||
             (MAX_UPSTREAM_PENDING_BYTES <? pendingUpstreamQueuedBytes s + bytes)
          then closeSession id "upstream backlog full" true r
          else
            ([], set_session id
                   (Session (lastActivityAtMs s) (s_upstreamBytes s) (s_downstreamBytes s)
                      (pendingUpstreamMessages s ++ [data]) (pendingUpstreamQueuedBytes s + bytes)
                      (client_ready s) (upstream_ready s)) r)
        else
          let '(_, es, r) := safeSend id (upstream_ready s) ok (SendUpstream id data)
                               "upstream send failed" r in
          (es, r)
  end.

(** The loop of [onUpstreamOpen]; [oks] tells which sends return normally. *)
Fixpoint flush_pending (id : string) (ready : ready_state) (queue : list D) (oks : list bool)
    (r : relay) : bool * list effect * relay :=
  match queue with
  | [] => (true, [], r)
  | queued :: queue =>
      let '(sent, es, r) := safeSend id ready (hd true oks) (SendUpstream id queued)
                              "upstream queued send failed" r in
      if negb sent then (false, es, r)
      else let '(done, es', r) := flush_pending id ready queue (tl oks) r in (done, es ++ es', r)
  end.

(** The upstream socket opens: [readyState] is OPEN when the event is emitted. *)
Definition onUpstreamOpen (id : string) (now : Z) (oks : list bool) (r : relay) :
    list effect * relay :=
  match jm_get id (sessions r) with
  | None => ([], r)
  | Some s =>
      let s := Session (lastActivityAtMs s) (s_upstreamBytes s) (s_downstreamBytes s)
                 (pendingUpstreamMessages s) (pendingUpstreamQueuedBytes s) (client_ready s) OPEN in
      let r := set_session id s r in
      let '(done, es, r) := flush_pending id OPEN (pendingUpstreamMessages s) oks r in
      if negb done then (es, r)
      else (es, set_session id (Session now (s_upstreamBytes s) (s_downstreamBytes s) [] 0
                                  (client_ready s) OPEN) r)
  end.

Definition onUpstreamMessage (id : string) (data : D) (now : Z) (ok : bool) (r : relay) :
    list effect * relay :=
  match jm_get id (sessions r) with
  | None => ([], r)
  | Some s =>
      if shuttingDown r then ([], r)
      else if negb (bool_decide (client_ready s = OPEN)) then ([], r)
      else
        let bytes := getByteLength data in
        let s := Session now (s_upstreamBytes s) (s_downstreamBytes s + bytes)
                   (pendingUpstreamMessages s) (pendingUpstreamQueuedBytes s)
                   (client_ready s) (upstream_ready s) in
        let st := stats r in
        let r := set_stats (Stats (activeConnections st) (totalConnections st)
                   (peakActiveConnections st) (upstreamBytes st) (downstreamBytes st + bytes))
                   (set_session id s r) in
        let '(_, es, r) := safeSend id (client_ready s) ok (SendClient id data)
                             "client send failed" r in
        (es, r)
  end.

Definition checkIdleTimeout (id : string) (now : Z) (r : relay) : list effect * relay :=
  match jm_get id (sessions r) with
  | None => ([], r)
  | Some s =>
      if shuttingDown r then ([], r)
      else if now - lastActivityAtMs s <? idleTimeoutMs cfg then ([], r)
      else closeSession id "idle timeout" true r
  end.

(** A socket stops being open before its close event is delivered. *)
Definition socket_lost (id : string) (upstream : bool) (r : relay) : relay :=
  match jm_get id (sessions r) with
  | None => r
  | Some s =>
      set_session id
        (Session (lastActivityAtMs s) (s_upstreamBytes s) (s_downstreamBytes s)
           (pendingUpstreamMessages s) (pendingUpstreamQueuedBytes s)
           (if upstream then client_ready s else CLOSED)
           (if upstream then CLOSED else upstream_ready s)) r
  end.

(** [wireSession], when the constructor of the upstream socket returns. *)
Definition wireSession (id : string) (now : Z) (r : relay) : relay :=
  let ss := jm_set id (Session now 0 0 [] 0 OPEN CONNECTING) (sessions r) in
  let st := stats r in
  let active := activeConnections st + 1 in
  set_stats (Stats active (totalConnections st + 1)
               (if peakActiveConnections st <? active then active else peakActiveConnections st)
               (upstreamBytes st) (downstreamBytes st)) (set_sessions ss r).

(** ** Upgrades *)

(** [None]: the listener throws. *)
Definition onUpgrade (rq : request) (r : relay) : option (list effect * relay) :=
  if shuttingDown r then Some ([EndUpgrade "503 Service Unavailable"], r)
  else if negb (bool_decide (req_method rq = "GET"%string)) then Some ([EndUpgrade "405 Method Not Allowed"], r)
  else
    on_path ← isRelayPath URL_pathname rq (relayPath cfg);
    Some
      (if negb on_path then ([EndUpgrade "404 Not Found"], r)
       else if negb (isOriginAllowed (req_origin rq) (allowedOrigins cfg)) then ([EndUpgrade "403 Forbidden"], r)
       else if negb (isTokenValidFromRequest sha256 rq (requiredToken cfg)) then ([EndUpgrade "401 Unauthorized"], r)
       else if maxConnections cfg <=? Z.of_nat (length (sessions r)) + inFlightUpgrades r
       then ([EndUpgrade "503 Too Many Connections"], r)
       else ([HandleUpgrade], set_inFlight (inFlightUpgrades r + 1) r)).

Definition releaseInFlightUpgrade (r : relay) : relay :=
  set_inFlight (Z.max 0 (inFlightUpgrades r - 1)) r.

(** The callback of [handleUpgrade]; [wired]: the upstream constructor returns. *)
Definition upgradeCallback (id : string) (now : Z) (wired : bool) (r : relay) : list effect * relay :=
  if shuttingDown r then ([CloseUpgraded 1001 "server shutdown"], releaseInFlightUpgrade r)
  else if wired then ([], releaseInFlightUpgrade (wireSession id now r))
  else ([CloseUpgraded 1011 "upgrade failure"], releaseInFlightUpgrade r).

(** [handleUpgrade] throws. *)
Definition upgradeThrew (r : relay) : list effect * relay :=
  ([EndUpgrade "400 Bad Request"], releaseInFlightUpgrade r).

(** [close()]: what it does before it waits for the HTTP server. *)
Definition close_relay (r : relay) : list effect * relay :=
  if shuttingDown r then ([], r)
  else
    let st := stats r in
    ((fun kv => CloseSession kv.1 1001 "server shutdown") <$> sessions r,
     Relay [] (Stats 0 (totalConnections st) (peakActiveConnections st) (upstreamBytes st) (downstreamBytes st))
       true (inFlightUpgrades r)).

(** ** Events *)

Inductive relay_event : Type :=
| Upgrade (rq : request)
| UpgradeCallback (id : string) (now : Z) (wired : bool)
| UpgradeThrew
| ClientMessage (id : string) (data : D) (now : Z) (ok : bool)
| UpstreamOpen (id : string) (now : Z) (oks : list bool)
| UpstreamMessage (id : string) (data : D) (now : Z) (ok : bool)
| ClientClose (id : string)
| ClientError (id : string)
| UpstreamClose (id : string)
| UpstreamError (id : string)
| SocketLost (id : string) (upstream : bool)
| IdleTimer (id : string) (now : Z)
| CloseRelay.

Definition relay_step (ev : relay_event) (r : relay) : list effect * relay :=
  match ev with
  | Upgrade rq => default ([], r) (onUpgrade rq r)
  | UpgradeCallback id now wired => upgradeCallback id now wired r
  | UpgradeThrew => upgradeThrew r
  | ClientMessage id data now ok => onClientMessage id data now ok r
  | UpstreamOpen id now oks => onUpstreamOpen id now oks r
  | UpstreamMessage id data now ok => onUpstreamMessage id data now ok r
  | ClientClose id => closeSession id "client closed" false r
  | ClientError id => closeSession id "client error" true r
  | UpstreamClose id => closeSession id "upstream closed" false r
  | UpstreamError id => closeSession id "upstream error" true r
  | SocketLost id upstream => ([], socket_lost id upstream r)
  | IdleTimer id now => checkIdleTimeout id now r
  | CloseRelay => close_relay r
  end.

(** What can happen in a state: a callback or a throw answers an upgrade in flight,
    a new session id was never used, a message is delivered to a session that
    listens, an upstream socket opens once. *)
Definition possible (used : list string) (ev : relay_event) (r : relay) : Prop :=
  match ev with
  | UpgradeCallback id _ _ => 0 < inFlightUpgrades r /\ id ∉ used
  | UpgradeThrew => 0 < inFlightUpgrades r
  | ClientMessage id _ _ _ => is_Some (jm_get id (sessions r))
  | UpstreamOpen id _ _ =>
      forall s, jm_get id (sessions r) = Some s -> upstream_ready s = CONNECTING
  | _ => True
  end.

(** The relay with the ids used and everything received and done so far. *)
Record relay_system : Type := RelaySystem {
  used_ids : list string;
  trace : list (relay_event * list effect);
  rel : relay
}.

Definition used_by (ev : relay_event) : list string :=
  match ev with UpgradeCallback id _ _ => [id] | _ => [] end.

Inductive relay_reachable : relay_system -> Prop :=
| relay_init : relay_reachable (RelaySystem [] [] init_relay)
| relay_next s ev :
    relay_reachable s -> possible (used_ids s) ev (rel s) ->
    relay_reachable (RelaySystem (used_by ev ++ used_ids s)
                       (trace s ++ [(ev, (relay_step ev (rel s)).1)])
                       (relay_step ev (rel s)).2).

(** ** Invariant *)

Hypothesis bytes_nonneg : forall d, 0 <= getByteLength d.
Hypothesis max_nonneg : 0 <= maxConnections cfg.

Fixpoint total_bytes (q : list D) : Z :=
  match q with [] => 0 | d :: q => getByteLength d + total_bytes q end.

Lemma total_bytes_app a b : total_bytes (a ++ b) = total_bytes a + total_bytes b.
Proof. induction a as [|d a IH]; simpl; lia. Qed.

Record session_ok (s : RelaySessionState) : Prop := {
  so_count : Z.of_nat (length (pendingUpstreamMessages s)) <= MAX_UPSTREAM_PENDING_MESSAGES;
  so_bytes : pendingUpstreamQueuedBytes s = total_bytes (pendingUpstreamMessages s);
  so_limit : pendingUpstreamQueuedBytes s <= MAX_UPSTREAM_PENDING_BYTES;
  so_open : upstream_ready s = OPEN -> pendingUpstreamMessages s = []
}.

Record relay_ok (r : relay) : Prop := {
  ro_wf : jm_wf (sessions r);
  ro_sessions : forall id s, jm_get id (sessions r) = Some s -> session_ok s;
  ro_inFlight : 0 <= inFlightUpgrades r;
  ro_capacity : Z.of_nat (length (sessions r)) + inFlightUpgrades r <= maxConnections cfg;
  ro_active : activeConnections (stats r) = Z.of_nat (length (sessions r));
  ro_peak : activeConnections (stats r) <= peakActiveConnections (stats r) <= totalConnections (stats r);
  ro_down : shuttingDown r = true -> sessions r = []
}.

Lemma init_relay_ok : relay_ok init_relay.
Proof. split; simpl; try done; try lia. constructor. Qed.

(** What the sessions are told by an event, and what is sent to their upstreams. *)
Definition recv_of (id : string) (ev : relay_event) : list D :=
  match ev with
  | ClientMessage id' d _ _ => if decide (id = id') then [d] else []
  | _ => []
  end.

Definition sent_of (id : string) (es : list effect) : list D :=
  omap (fun e => match e with
                 | SendUpstream id' d => if decide (id = id') then Some d else None
                 | _ => None
                 end) es.

(** Sent so far is what was received, but for what is pending; after the end of the
    session, but for a rest that is lost. *)
Definition linked (rcv snt : list D) (o : option RelaySessionState) : Prop :=
  match o with
  | Some s => rcv = snt ++ pendingUpstreamMessages s
  | None => exists rest, rcv = snt ++ rest
  end.

Lemma linked_weaken rcv snt s : linked rcv snt (Some s) -> linked rcv snt None.
Proof. intros ->. by eexists. Qed.

(** A handler step: it keeps the invariant, and from [R] received it leaves each
    session linked after sending [sent_of]. *)
Definition good_step (r : relay) (extra : string -> list D) (res : list effect * relay) : Prop :=
  relay_ok res.2 /\
  forall id R S, linked R S (jm_get id (sessions r)) ->
    linked (R ++ extra id) (S ++ sent_of id res.1) (jm_get id (sessions res.2)).

Definition nothing : string -> list D := fun _ => [].

Lemma good_none r : relay_ok r -> good_step r nothing ([], r).
Proof. intros Hr. split; [done|]. intros id R S HL. by rewrite !app_nil_r. Qed.

(** Replacing the state of a session. *)
Lemma set_session_ok id s s' r :
  relay_ok r -> jm_get id (sessions r) = Some s -> session_ok s' -> relay_ok (set_session id s' r).
Proof.
  intros Hr Hg Hs'. destruct Hr.
  assert (Hlen : length (jm_set id s' (sessions r)) = length (sessions r)).
  { rewrite jm_set_length. unfold jm_has. rewrite Hg. lia. }
  split; simpl; rewrite ?Hlen; try done.
  - by apply jm_wf_set.
  - intros id' s0. rewrite jm_get_set. case_decide; [by intros [= <-]|eauto].
  - intros Hd. rewrite ro_down0 in Hg by done. done.
Qed.

Lemma set_stats_ok st r :
  relay_ok r -> activeConnections st = activeConnections (stats r) ->
  peakActiveConnections st = peakActiveConnections (stats r) ->
  totalConnections st = totalConnections (stats r) -> relay_ok (set_stats st r).
Proof. intros [] Ha Hp Ht. split; simpl; try done; rewrite ?Ha, ?Hp, ?Ht; done. Qed.

Lemma closeSession_good id reason immediate r :
  relay_ok r -> good_step r nothing (closeSession id reason immediate r) /\
  sessions (closeSession id reason immediate r).2 = jm_delete id (sessions r).
Proof.
  intros Hr. unfold closeSession. destruct (jm_get id (sessions r)) as [s|] eqn:Hg.
  2:{ split; [by apply good_none|]. by rewrite jm_delete_fresh. }
  split; [|done].
  assert (Hlen : (length (jm_delete id (sessions r)) <= length (sessions r))%nat) by apply length_filter.
  split.
  - destruct Hr. split; simpl; try done; try lia.
    + by apply jm_wf_delete.
    + intros id' s'. rewrite jm_get_delete. case_decide; [done|eauto].
    + intros Hd. by rewrite ro_down0.
  - intros id' R S HL. cbn [fst snd sessions set_stats set_sessions]. unfold nothing.
    assert (Hsent : sent_of id' [if immediate then DisposeSession id else CloseSession id 1000 reason] = []).
    { by destruct immediate. }
    rewrite Hsent, !app_nil_r, jm_get_delete. case_decide as Hid; [|done]. subst. rewrite Hg in HL.
    by eapply linked_weaken.
Qed.

(** Sequencing: a change of state that sends nothing, then a handler step. *)
Lemma good_pre r r1 extra extra' res :
  (forall id R S, linked R S (jm_get id (sessions r)) ->
     linked (R ++ extra id) S (jm_get id (sessions r1))) ->
  good_step r1 extra' res -> (forall id, extra' id = []) -> good_step r extra res.
Proof.
  intros Hpre [Hok Hlink] Hnil. split; [done|]. intros id R S HL.
  specialize (Hlink id (R ++ extra id) S (Hpre id R S HL)). rewrite Hnil, app_nil_r in Hlink. done.
Qed.

Lemma onClientMessage_good id d now ok r :
  relay_ok r -> is_Some (jm_get id (sessions r)) ->
  good_step r (fun id' => recv_of id' (ClientMessage id d now ok)) (onClientMessage id d now ok r).
Proof.
  intros Hr [s Hg]. unfold onClientMessage. rewrite Hg.
  destruct (shuttingDown r) eqn:Hdown; [by rewrite (ro_down _ Hr Hdown) in Hg|].
  pose proof (ro_sessions _ Hr _ _ Hg) as [Hcount Hbytes Hlimit Hopen].
  set (s1 := Session now _ _ _ _ _ _). set (r1 := set_stats _ _).
  assert (Hs1 : session_ok s1) by (by split).
  assert (Hr1 : relay_ok r1) by (apply set_stats_ok; try done; by eapply set_session_ok).
  assert (Hg1 : forall id', jm_get id' (sessions r1) = if decide (id' = id) then Some s1 else jm_get id' (sessions r)).
  { intros id'. apply jm_get_set. }
  cbn [upstream_ready s1 pendingUpstreamMessages pendingUpstreamQueuedBytes].
  case_bool_decide as Hup; cbn [negb].
  - (* the upstream is open: the message is sent *)
    unfold safeSend. rewrite bool_decide_true by done. cbn [negb]. destruct ok.
    + split; [done|]. intros id' R S HL. cbn [fst snd]. rewrite Hg1. simpl.
      destruct (decide (id' = id)) as [->|Hne]; simpl.
      * rewrite Hg in HL. simpl in HL. subst R. by rewrite (Hopen Hup), !app_nil_r.
      * by rewrite !app_nil_r.
    + destruct (closeSession_good id "upstream send failed" true r1 Hr1) as [Hc Hss].
      destruct (closeSession id _ true r1) as [es r2] eqn:Heq. destruct Hc as [Hok Hlink].
      split; [done|]. intros id' R S HL. cbn [fst snd] in *.
      assert (Hsent : sent_of id' es = []).
      { unfold closeSession in Heq. rewrite Hg1, decide_True in Heq by done. by injection Heq as <- _. }
      rewrite Hsent, app_nil_r. rewrite Hss, jm_get_delete, Hg1. simpl.
      destruct (decide (id' = id)) as [->|Hne].
      * rewrite Hg in HL. simpl in HL. subst R. rewrite <- app_assoc. by eexists.
      * by rewrite app_nil_r.
  - destruct (_ || _) eqn:Hfull.
    + destruct (closeSession_good id "upstream backlog full" true r1 Hr1) as [Hc Hss].
      destruct (closeSession id _ true r1) as [es r2] eqn:Heq. destruct Hc as [Hok Hlink].
      split; [done|]. intros id' R S HL. cbn [fst snd] in *.
      assert (Hsent : sent_of id' es = []).
      { unfold closeSession in Heq. rewrite Hg1, decide_True in Heq by done. by injection Heq as <- _. }
      rewrite Hsent, app_nil_r. rewrite Hss, jm_get_delete, Hg1. simpl.
      destruct (decide (id' = id)) as [->|Hne].
      * rewrite Hg in HL. simpl in HL. subst R. rewrite <- app_assoc. by eexists.
      * by rewrite app_nil_r.
    + apply orb_false_iff in Hfull as [Hn%Z.leb_gt Hb%Z.ltb_ge]. split.
      * eapply set_session_ok; [done| |].
        { rewrite Hg1. by rewrite decide_True. }
        split; cbn.
        -- rewrite length_app. cbn. unfold MAX_UPSTREAM_PENDING_MESSAGES in *. lia.
        -- rewrite total_bytes_app. simpl. lia.
        -- done.
        -- intros Ho. done.
      * intros id' R S HL. cbn [fst snd sessions set_session set_sessions].
        rewrite jm_get_set, Hg1. unfold sent_of. rewrite app_nil_r. simpl.
        destruct (decide (id' = id)) as [->|Hne]; simpl.
        -- rewrite Hg in HL. simpl in HL. subst R. by rewrite <- app_assoc.
        -- by rewrite app_nil_r.
Qed.

Lemma onUpstreamMessage_good id d now ok r :
  relay_ok r -> good_step r nothing (onUpstreamMessage id d now ok r).
Proof.
  intros Hr. unfold onUpstreamMessage. destruct (jm_get id (sessions r)) as [s|] eqn:Hg; [|by apply good_none].
  destruct (shuttingDown r); [by apply good_none|]. case_bool_decide as Hc; cbn [negb]; [|by apply good_none].
  pose proof (ro_sessions _ Hr _ _ Hg) as [Hcount Hbytes Hlimit Hopen].
  set (s1 := Session now _ _ _ _ _ _). set (r1 := set_stats _ _).
  assert (Hr1 : relay_ok r1) by (apply set_stats_ok; try done; by eapply set_session_ok).
  assert (Hpre : forall id' R S, linked R S (jm_get id' (sessions r)) ->
    linked (R ++ nothing id') S (jm_get id' (sessions r1))).
  { intros id' R S HL. unfold nothing. rewrite app_nil_r. subst r1. simpl. rewrite jm_get_set.
    case_decide as Hid; [|done]. subst. by rewrite Hg in HL. }
  eapply (good_pre _ r1 _ nothing); [exact Hpre| |done].
  unfold safeSend. cbn [client_ready s1]. rewrite Hc, bool_decide_true by done. cbn [negb]. destruct ok.
  - split; [done|]. intros id' R S HL. simpl. unfold nothing. by rewrite !app_nil_r.
  - destruct (closeSession_good id "client send failed" true r1 Hr1) as [Hcl _].
    by destruct (closeSession id _ true r1).
Qed.

(** The flush sends the queue in order, or part of it and the session ends. *)
Lemma flush_pending_spec id queue oks r :
  let res := flush_pending id OPEN queue oks r in
  (forall id', id' <> id -> sent_of id' res.1.2 = []) /\
  (if res.1.1 then res.2 = r /\ sent_of id res.1.2 = queue
   else res.2 = (closeSession id "upstream queued send failed" true r).2 /\
        exists rest, queue = sent_of id res.1.2 ++ rest).
Proof.
  revert oks. induction queue as [|d queue IH]; intros oks; [by split_and!|].
  cbn [flush_pending]. unfold safeSend. rewrite bool_decide_true by done. cbn [negb].
  destruct (hd true oks).
  - cbn [negb]. specialize (IH (tl oks)).
    destruct (flush_pending id OPEN queue (tl oks) r) as [[done es] r'] eqn:Heq. cbn [fst snd] in *.
    destruct IH as (Hother & Hres). split_and!.
    + intros id' Hne. simpl. rewrite decide_False by done. by apply Hother.
    + simpl. rewrite decide_True by done. destruct done.
      * destruct Hres as [-> Hq]. split; [done|]. by f_equal.
      * destruct Hres as [Hss [rest ->]]. split; [done|]. by eexists.
  - unfold closeSession. destruct (jm_get id (sessions r)); cbn [fst snd negb].
    + split_and!; [done|done|]. by exists (d :: queue).
    + split_and!; [done|done|]. by exists (d :: queue).
Qed.

Lemma closeSession_set_session id s reason immediate r :
  is_Some (jm_get id (sessions r)) ->
  closeSession id reason immediate (set_session id s r) = closeSession id reason immediate r.
Proof.
  intros [s0 Hg]. unfold closeSession. cbn [sessions set_session set_sessions stats].
  rewrite jm_get_set_eq, Hg. unfold set_stats, set_sessions. cbn [sessions stats shuttingDown inFlightUpgrades].
  by rewrite jm_delete_set.
Qed.

Lemma onUpstreamOpen_good id now oks r :
  relay_ok r -> good_step r nothing (onUpstreamOpen id now oks r).
Proof.
  intros Hr. unfold onUpstreamOpen. destruct (jm_get id (sessions r)) as [s|] eqn:Hg; [|by apply good_none].
  set (s1 := Session _ _ _ _ _ _ OPEN).
  pose proof (flush_pending_spec id (pendingUpstreamMessages s1) oks (set_session id s1 r)) as [Hother Hres].
  destruct (flush_pending _ _ _ _ _) as [[done es] r'] eqn:Heq. cbn [fst snd negb] in *.
  destruct done; cbn [negb].
  - destruct Hres as [-> Hq]. split.
    + assert (Hset : set_session id (Session now (s_upstreamBytes s1) (s_downstreamBytes s1) [] 0 (client_ready s1) OPEN)
        (set_session id s1 r) = set_session id (Session now (s_upstreamBytes s1) (s_downstreamBytes s1) [] 0 (client_ready s1) OPEN) r).
      { unfold set_session, set_sessions. cbn [sessions stats shuttingDown inFlightUpgrades]. by rewrite jm_set_set. }
      cbn [snd]. rewrite Hset. eapply set_session_ok; [done|done|].
      split; cbn; unfold MAX_UPSTREAM_PENDING_MESSAGES, MAX_UPSTREAM_PENDING_BYTES, MAX_WS_PAYLOAD_BYTES; done || lia.
    + intros id' R S HL. cbn [fst snd sessions set_session set_sessions]. unfold nothing. rewrite app_nil_r.
      rewrite !jm_get_set. case_decide as Hid; [subst|].
      * rewrite Hg in HL. simpl in HL. subst R. rewrite Hq. simpl. by rewrite app_nil_r.
      * rewrite Hother, app_nil_r by done. done.
  - destruct Hres as [-> [rest Hrest]]. rewrite closeSession_set_session by eauto.
    destruct (closeSession_good id "upstream queued send failed" true r Hr) as [[Hok _] Hss].
    split; [done|]. intros id' R S HL. cbn [fst snd]. unfold nothing. rewrite app_nil_r, Hss, jm_get_delete.
    case_decide as Hid; [subst|by rewrite Hother, app_nil_r].
    rewrite Hg in HL. simpl in HL. subst R. cbn [pendingUpstreamMessages s1] in Hrest.
    rewrite Hrest, app_assoc. by eexists.
Qed.

Lemma socket_lost_good id upstream r : relay_ok r -> good_step r nothing ([], socket_lost id upstream r).
Proof.
  intros Hr. unfold socket_lost. destruct (jm_get id (sessions r)) as [s|] eqn:Hg; [|by apply good_none].
  pose proof (ro_sessions _ Hr _ _ Hg) as [? ? ? Hopen]. split.
  - eapply set_session_ok; [done|done|]. split; try done. cbn. by destruct upstream.
  - intros id' R S HL. cbn [fst snd sessions set_session set_sessions]. unfold nothing. rewrite !app_nil_r, jm_get_set.
    case_decide; [subst|done]. by rewrite Hg in HL.
Qed.

Lemma wire_good id now r :
  relay_ok r -> 0 < inFlightUpgrades r -> jm_get id (sessions r) = None ->
  let r' := releaseInFlightUpgrade (wireSession id now r) in
  shuttingDown r = false -> relay_ok r' /\
  (forall id', jm_get id' (sessions r') =
     if decide (id' = id) then Some (Session now 0 0 [] 0 OPEN CONNECTING) else jm_get id' (sessions r)).
Proof.
  intros Hr Hfly Hfresh. cbv zeta. intros Hdown. split; [|intros id'; apply jm_get_set].
  destruct Hr.
  assert (Hlen : length (jm_set id (Session now 0 0 [] 0 OPEN CONNECTING) (sessions r)) = S (length (sessions r))).
  { rewrite jm_set_length. unfold jm_has. rewrite Hfresh. lia. }
  split; cbn; rewrite ?Hlen; try lia.
  - by apply jm_wf_set.
  - intros id' s. rewrite jm_get_set. case_decide; [|eauto]. intros [= <-].
    split; cbn; unfold MAX_UPSTREAM_PENDING_MESSAGES, MAX_UPSTREAM_PENDING_BYTES, MAX_WS_PAYLOAD_BYTES; done || lia.
  - destruct (Z.ltb_spec (peakActiveConnections (stats r)) (activeConnections (stats r) + 1)); lia.
  - by rewrite Hdown.
Qed.

Lemma release_ok r : relay_ok r -> relay_ok (releaseInFlightUpgrade r).
Proof. intros []. split; cbn; try done; lia. Qed.

(** The invariant of a system: the relay is well formed, its sessions use used ids,
    and every session is linked to its trace. *)
Definition received (id : string) (tr : list (relay_event * list effect)) : list D :=
  mjoin ((fun x => recv_of id x.1) <$> tr).
Definition sent (id : string) (tr : list (relay_event * list effect)) : list D :=
  mjoin ((fun x => sent_of id x.2) <$> tr).

Definition system_ok (s : relay_system) : Prop :=
  relay_ok (rel s) /\
  (forall id, is_Some (jm_get id (sessions (rel s))) -> id ∈ used_ids s) /\
  (forall id, id ∉ used_ids s -> received id (trace s) = [] /\ sent id (trace s) = []) /\
  (forall id, linked (received id (trace s)) (sent id (trace s)) (jm_get id (sessions (rel s)))).

Lemma received_snoc id tr x : received id (tr ++ [x]) = received id tr ++ recv_of id x.1.
Proof. unfold received. rewrite fmap_app, join_app. simpl. by rewrite app_nil_r. Qed.
Lemma sent_snoc id tr x : sent id (tr ++ [x]) = sent id tr ++ sent_of id x.2.
Proof. unfold sent. rewrite fmap_app, join_app. simpl. by rewrite app_nil_r. Qed.

(** Only the callback of an upgrade adds a session. *)
Lemma closeSession_keys id reason immediate r id' :
  jm_get id' (sessions r) = None -> jm_get id' (sessions (closeSession id reason immediate r).2) = None.
Proof.
  intros Hn. unfold closeSession. destruct (jm_get id (sessions r)); [|done]. cbn.
  rewrite jm_get_delete. by case_decide.
Qed.

Lemma set_session_keys id s s0 r id' :
  jm_get id (sessions r) = Some s0 -> jm_get id' (sessions r) = None ->
  jm_get id' (sessions (set_session id s r)) = None.
Proof. intros Hs Hn. cbn. rewrite jm_get_set. case_decide; [congruence|done]. Qed.

Lemma safeSend_keys id ready ok e reason r id' :
  jm_get id' (sessions r) = None -> jm_get id' (sessions (safeSend id ready ok e reason r).2) = None.
Proof.
  intros Hn. unfold safeSend. pose proof (closeSession_keys id reason true r id' Hn) as Hc.
  destruct (negb _); [|destruct ok; [done|]]; by destruct (closeSession id reason true r).
Qed.

Lemma flush_keys id ready queue oks r id' :
  jm_get id' (sessions r) = None -> jm_get id' (sessions (flush_pending id ready queue oks r).2) = None.
Proof.
  revert oks r. induction queue as [|d queue IH]; intros oks r Hn; [done|]. cbn [flush_pending].
  pose proof (safeSend_keys id ready (hd true oks) (SendUpstream id d) "upstream queued send failed" r id' Hn) as Hs.
  destruct (safeSend _ _ _ _ _ _) as [[b es] r']. cbn [snd] in Hs. destruct b; cbn [negb]; [|done].
  specialize (IH (tl oks) r' Hs). by destruct (flush_pending _ _ _ _ r') as [[? ?] ?].
Qed.

Lemma onUpgrade_sessions rq r es r' : onUpgrade rq r = Some (es, r') -> sessions r' = sessions r.
Proof.
  unfold onUpgrade. destruct (shuttingDown r); [by intros [= _ <-]|].
  destruct (negb _); [by intros [= _ <-]|]. destruct (isRelayPath _ _ _) as [b|]; [|done].
  cbn [mbind option_bind]. intros Heq. apply (inj Some) in Heq.
  repeat (destruct (negb _) in Heq; [by injection Heq as _ <-|]).
  destruct (_ <=? _) in Heq; by injection Heq as _ <-.
Qed.

Lemma step_keys ev r id :
  used_by ev = [] -> jm_get id (sessions r) = None -> jm_get id (sessions (relay_step ev r).2) = None.
Proof.
  intros Hu Hn. destruct ev as [rq|? ? ?| |i d now ok|i now oks|i d now ok|i|i|i|i|i up|i now|]; try done; cbn [relay_step].
  - pose proof (onUpgrade_sessions rq r) as Ho. destruct (onUpgrade rq r) as [[es r']|]; [|done].
    cbn [from_option Datatypes.id snd]. by rewrite (Ho es r' eq_refl).
  - unfold onClientMessage. destruct (jm_get i (sessions r)) as [s|] eqn:Hg; [|done].
    destruct (shuttingDown r); [done|]. cbv zeta. set (s1 := Session _ _ _ _ _ _ _). set (r1 := set_stats _ _).
    assert (Hn1 : jm_get id (sessions r1) = None) by (by eapply set_session_keys).
    assert (Hg1 : jm_get i (sessions r1) = Some s1) by apply jm_get_set_eq.
    destruct (negb _).
    + destruct (_ || _); [by apply closeSession_keys|]. by eapply set_session_keys.
    + pose proof (safeSend_keys i (upstream_ready s1) ok (SendUpstream i d) "upstream send failed" r1 id Hn1).
      by destruct (safeSend _ _ _ _ _ r1) as [[? ?] ?].
  - unfold onUpstreamOpen. destruct (jm_get i (sessions r)) as [s|] eqn:Hg; [|done]. cbv zeta.
    set (s1 := Session _ _ _ _ _ _ OPEN).
    assert (Hn1 : jm_get id (sessions (set_session i s1 r)) = None) by (by eapply set_session_keys).
    pose proof (flush_keys i OPEN (pendingUpstreamMessages s1) oks _ id Hn1) as Hf.
    pose proof (flush_pending_spec i (pendingUpstreamMessages s1) oks (set_session i s1 r)) as [_ Hres].
    destruct (flush_pending _ _ _ _ _) as [[b es] r']. cbn [fst snd] in *. destruct b; [|done].
    destruct Hres as [-> _]. eapply set_session_keys; [|done]. apply jm_get_set_eq.
  - unfold onUpstreamMessage. destruct (jm_get i (sessions r)) as [s|] eqn:Hg; [|done].
    destruct (shuttingDown r); [done|]. destruct (negb _); [done|]. cbv zeta.
    set (s1 := Session _ _ _ _ _ _ _). set (r1 := set_stats _ _).
    assert (Hn1 : jm_get id (sessions r1) = None) by (by eapply set_session_keys).
    pose proof (safeSend_keys i (client_ready s1) ok (SendClient i d) "client send failed" r1 id Hn1).
    by destruct (safeSend _ _ _ _ _ r1) as [[? ?] ?].
  - by apply closeSession_keys.
  - by apply closeSession_keys.
  - by apply closeSession_keys.
  - by apply closeSession_keys.
  - unfold socket_lost. destruct (jm_get i (sessions r)) eqn:Hg; [|done]. by eapply set_session_keys.
  - unfold checkIdleTimeout. repeat case_match; try done. by apply closeSession_keys.
  - unfold close_relay. by case_match.
Qed.

Lemma step_good ev r :
  used_by ev = [] -> relay_ok r -> possible [] ev r ->
  good_step r (fun id => recv_of id ev) (relay_step ev r).
Proof.
  intros Hu Hr Hp. destruct ev as [rq|? ? ?| |i d now ok|i now oks|i d now ok|i|i|i|i|i up|i now|]; try done; cbn [relay_step].
  - assert (Hadmit : forall es r', onUpgrade rq r = Some (es, r') -> good_step r nothing (es, r')).
    { unfold onUpgrade. intros es r'.
      assert (Hsame : forall st, good_step r nothing ([EndUpgrade st], r)).
      { intros st. split; [done|]. intros id R S HL. by rewrite !app_nil_r. }
      destruct (shuttingDown r); [by intros [= <- <-]|]. destruct (negb _); [by intros [= <- <-]|].
      destruct (isRelayPath _ _ _) as [b|]; [|done]. cbn [mbind option_bind]. intros Heq. apply (inj Some) in Heq.
      destruct b; cbn [negb] in Heq; [|by rewrite <- Heq].
      destruct (negb _); [by rewrite <- Heq|]. destruct (negb _); [by rewrite <- Heq|].
      destruct (Z.leb_spec (maxConnections cfg) (Z.of_nat (length (sessions r)) + inFlightUpgrades r)); [by rewrite <- Heq|].
      injection Heq as <- <-. split; [|intros id R S HL; by rewrite !app_nil_r].
      destruct Hr. split; cbn; try done; lia. }
    destruct (onUpgrade rq r) as [[es r']|] eqn:Ho; [by apply Hadmit|by apply good_none].
  - split; [by apply release_ok|]. intros id R S HL. by rewrite !app_nil_r.
  - by apply onClientMessage_good.
  - by apply onUpstreamOpen_good.
  - by apply onUpstreamMessage_good.
  - by apply closeSession_good.
  - by apply closeSession_good.
  - by apply closeSession_good.
  - by apply closeSession_good.
  - by apply socket_lost_good.
  - unfold checkIdleTimeout. destruct (jm_get i (sessions r)) as [s|]; [|by apply good_none].
    destruct (shuttingDown r); [by apply good_none|]. destruct (_ <? _); [by apply good_none|]. by apply closeSession_good.
  - unfold close_relay. destruct (shuttingDown r); [by apply good_none|]. split.
    + destruct Hr. split; cbn; try done; try lia. constructor.
    + intros id R S HL. cbn [fst snd sessions]. rewrite app_nil_r.
      assert (Hs : sent_of id ((fun kv => CloseSession kv.1 1001 "server shutdown") <$> sessions r) = []).
      { generalize (sessions r). intros l. induction l as [|x l IH]; [done|]. apply IH. }
      rewrite Hs, app_nil_r. cbn. destruct (jm_get id (sessions r)) as [s|]; [by eapply linked_weaken|done].
Qed.

Lemma system_step s ev :
  system_ok s -> possible (used_ids s) ev (rel s) ->
  system_ok (RelaySystem (used_by ev ++ used_ids s) (trace s ++ [(ev, (relay_step ev (rel s)).1)])
               (relay_step ev (rel s)).2).
Proof.
  intros (Hr & Hused & Hfresh & Hlink) Hp.
  destruct (decide (used_by ev = [])) as [Hu|Hu].
  - assert (Hp' : possible [] ev (rel s)) by (by destruct ev).
    destruct (step_good ev (rel s) Hu Hr Hp') as [Hok Hgood]. rewrite Hu. cbn [app].
    assert (Hnone : forall id, id ∉ used_ids s -> jm_get id (sessions (rel s)) = None).
    { intros id Hid. destruct (jm_get id (sessions (rel s))) eqn:Hg; [|done]. exfalso. apply Hid, Hused. by rewrite Hg. }
    split_and!; cbn [rel used_ids trace].
    + done.
    + intros id [s' Hs']. apply Hused. destruct (jm_get id (sessions (rel s))) eqn:Hg; [done|].
      by rewrite (step_keys ev (rel s) id Hu Hg) in Hs'.
    + intros id Hid. destruct (Hfresh id Hid) as [HR HS]. rewrite received_snoc, sent_snoc, HR, HS. cbn [app fst snd].
      assert (Hrecv : recv_of id ev = []).
      { destruct ev as [| | |i d ? ?| | | | | | | | |]; try done. simpl. case_decide; [subst|done].
        simpl in Hp. rewrite Hnone in Hp by done. by destruct Hp. }
      split; [done|]. pose proof (Hgood id [] []) as Hl. rewrite Hnone in Hl by done. cbn [app] in Hl.
      rewrite (step_keys ev (rel s) id Hu (Hnone id Hid)) in Hl.
      destruct Hl as [rest Hl]; [by exists []|]. rewrite Hrecv in Hl. by destruct (sent_of id _).
    + intros id. rewrite received_snoc, sent_snoc. by apply Hgood.
  - destruct ev as [|i now wired| | | | | | | | | | |]; try done. destruct Hp as [Hfly Hid]. cbn [used_by app].
    assert (Hni : jm_get i (sessions (rel s)) = None).
    { destruct (jm_get i (sessions (rel s))) eqn:Hg; [|done]. exfalso. apply Hid, Hused. by rewrite Hg. }
    assert (Hsilent : forall id es, sent_of id es = [] ->
      received id (trace s ++ [(UpgradeCallback i now wired, es)]) = received id (trace s) /\
      sent id (trace s ++ [(UpgradeCallback i now wired, es)]) = sent id (trace s)).
    { intros id es Hs. rewrite received_snoc, sent_snoc. cbn [fst snd recv_of]. by rewrite Hs, !app_nil_r. }
    cbn [relay_step]. unfold upgradeCallback.
    assert (Hrefused : forall code why, system_ok (RelaySystem (i :: used_ids s)
      (trace s ++ [(UpgradeCallback i now wired, [CloseUpgraded code why])]) (releaseInFlightUpgrade (rel s)))).
    { intros code why. split_and!; cbn [rel used_ids trace].
      - by apply release_ok.
      - intros id Hs. right. by apply Hused.
      - intros id Hn. destruct (Hsilent id [CloseUpgraded code why] eq_refl) as [-> ->]. apply Hfresh. set_solver.
      - intros id. destruct (Hsilent id [CloseUpgraded code why] eq_refl) as [-> ->]. apply Hlink. }
    destruct (shuttingDown (rel s)) eqn:Hdown; [apply Hrefused|]. destruct wired; [|apply Hrefused].
    destruct (wire_good i now (rel s) Hr Hfly Hni Hdown) as [Hok Hget]. cbn [fst snd].
    split_and!; cbn [rel used_ids trace].
    + done.
    + intros id [s' Hs']. rewrite Hget in Hs'. case_decide as Hd; [subst; by left|]. right. apply Hused. by rewrite Hs'.
    + intros id Hn. destruct (Hsilent id [] eq_refl) as [-> ->]. apply Hfresh. set_solver.
    + intros id. destruct (Hsilent id [] eq_refl) as [-> ->]. rewrite Hget. case_decide as Hd; [subst|apply Hlink].
      destruct (Hfresh i Hid) as [-> ->]. done.
Qed.

Lemma system_reachable s : relay_reachable s -> system_ok s.
Proof.
  induction 1 as [|s ev _ IH Hp]; [|by apply system_step].
  split_and!; cbn; [apply init_relay_ok|by intros id [s Hs]|done|]. intros id. by exists [].
Qed.

(** ** The statistics

    What they should be, read off the trace: connections opened and ended, the largest
    number there was at once, the bytes received from clients and handed to them. *)

Definition is_end (e : effect) : bool :=
  match e with DisposeSession _ | CloseSession _ _ _ => true | _ => false end.

Definition ended (es : list effect) : Z := Z.of_nat (length (filter (fun e => is_end e = true) es)).

(** A callback that closes nothing has opened a connection. *)
Definition opened (x : relay_event * list effect) : Z :=
  match x with (UpgradeCallback _ _ true, []) => 1 | _ => 0 end.

Definition from_client (x : relay_event * list effect) : list D :=
  match x.1 with ClientMessage _ d _ _ => [d] | _ => [] end.

(** A message for a client whose socket is no longer open is dropped. *)
Definition to_client (x : relay_event * list effect) : list D :=
  match x with (UpstreamMessage _ d _ _, _ :: _) => [d] | _ => [] end.

Definition sum_of (f : relay_event * list effect -> Z) (tr : list (relay_event * list effect)) : Z :=
  foldr (fun x n => f x + n) 0 tr.

(** The number of connections after a part of the trace. *)
Definition alive : list (relay_event * list effect) -> Z := sum_of (fun x => opened x - ended x.2).

Lemma sum_of_snoc f tr x : sum_of f (tr ++ [x]) = sum_of f tr + f x.
Proof. unfold sum_of. induction tr as [|y tr IH]; simpl in *; lia. Qed.

Lemma ended_nil : ended [] = 0.
Proof. done. Qed.

Lemma ended_app a b : ended (a ++ b) = ended a + ended b.
Proof. unfold ended. rewrite filter_app, length_app. lia. Qed.

(** What a step that opens no connection does to the statistics. *)
Record tally (up down : Z) (r : relay) (res : list effect * relay) : Prop := {
  ta_sessions : Z.of_nat (length (sessions res.2)) = Z.of_nat (length (sessions r)) - ended res.1;
  ta_total : totalConnections (stats res.2) = totalConnections (stats r);
  ta_peak : peakActiveConnections (stats res.2) = peakActiveConnections (stats r);
  ta_up : upstreamBytes (stats res.2) = upstreamBytes (stats r) + up;
  ta_down : downstreamBytes (stats res.2) = downstreamBytes (stats r) + down;
  ta_wf : jm_wf (sessions res.2)
}.

Lemma tally_none r es : jm_wf (sessions r) -> ended es = 0 -> tally 0 0 r (es, r).
Proof. intros Hwf He. split; cbn [fst snd]; try done; lia. Qed.

(** Two steps one after the other. *)
Lemma tally_trans u d u' d' r r1 es1 res :
  tally u d r (es1, r1) -> tally u' d' r1 res -> tally (u + u') (d + d') r (es1 ++ res.1, res.2).
Proof. intros [] []. split; cbn [fst snd] in *; try congruence; rewrite ?ended_app; lia. Qed.

(** Changing a session and counting bytes. *)
Lemma tally_set id s s' up down r :
  jm_wf (sessions r) -> jm_get id (sessions r) = Some s ->
  let st := stats r in
  tally up down r ([], set_stats (Stats (activeConnections st) (totalConnections st) (peakActiveConnections st)
    (upstreamBytes st + up) (downstreamBytes st + down)) (set_session id s' r)).
Proof.
  intros Hwf Hg st. split; cbn; try done; [|by apply jm_wf_set].
  rewrite jm_set_length, ended_nil. unfold jm_has. rewrite Hg. lia.
Qed.

Lemma tally_set_session id s s' r :
  jm_wf (sessions r) -> jm_get id (sessions r) = Some s -> tally 0 0 r ([], set_session id s' r).
Proof.
  intros Hwf Hg. destruct (tally_set id s s' 0 0 r Hwf Hg) as [H1 H2 H3 H4 H5 H6].
  split; cbn in *; try done; lia.
Qed.

Lemma tally_close id reason immediate r :
  jm_wf (sessions r) -> tally 0 0 r (closeSession id reason immediate r).
Proof.
  intros Hwf. unfold closeSession. destruct (jm_get id (sessions r)) as [s|] eqn:Hg; [|by apply tally_none].
  split; cbn [fst snd sessions stats set_stats set_sessions totalConnections peakActiveConnections upstreamBytes
    downstreamBytes]; try done; try lia; [|by apply jm_wf_delete].
  rewrite (jm_delete_length id s (sessions r)) by done. replace (ended _) with 1 by (by destruct immediate). lia.
Qed.

Lemma tally_safeSend id ready ok e reason r :
  jm_wf (sessions r) -> is_end e = false ->
  tally 0 0 r ((safeSend id ready ok e reason r).1.2, (safeSend id ready ok e reason r).2).
Proof.
  intros Hwf He. unfold safeSend. pose proof (tally_close id reason true r Hwf) as Hc.
  destruct (negb _); [by destruct (closeSession _ _ _ _)|]. destruct ok; [|by destruct (closeSession _ _ _ _)].
  cbn [fst snd]. apply tally_none; [done|]. unfold ended. by rewrite filter_cons_False by (by rewrite He).
Qed.

Lemma tally_flush id ready queue oks r :
  jm_wf (sessions r) ->
  tally 0 0 r ((flush_pending id ready queue oks r).1.2, (flush_pending id ready queue oks r).2).
Proof.
  revert oks r. induction queue as [|q queue IH]; intros oks r Hwf; [by apply tally_none|]. cbn [flush_pending].
  pose proof (tally_safeSend id ready (hd true oks) (SendUpstream id q) "upstream queued send failed" r Hwf eq_refl) as Hs.
  destruct (safeSend _ _ _ _ _ _) as [[b es] r1]. cbn [fst snd] in Hs. destruct b; cbn [negb]; [|done].
  specialize (IH (tl oks) r1 (ta_wf _ _ _ _ Hs)). destruct (flush_pending _ _ _ _ r1) as [[done es'] r2].
  exact (tally_trans _ _ _ _ _ _ _ _ Hs IH).
Qed.

Lemma onUpgrade_cases_tally rq r es r' :
  jm_wf (sessions r) -> onUpgrade rq r = Some (es, r') -> tally 0 0 r (es, r').
Proof.
  intros Hwf. unfold onUpgrade. destruct (shuttingDown r); [intros [= <- <-]; by apply tally_none|].
  destruct (negb _); [intros [= <- <-]; by apply tally_none|]. destruct (isRelayPath _ _ _) as [b|]; [|done].
  cbn [mbind option_bind]. intros Heq. apply (inj Some) in Heq.
  repeat (destruct (negb _) in Heq; [injection Heq as <- <-; by apply tally_none|]).
  destruct (_ <=? _) in Heq; injection Heq as <- <-; [by apply tally_none|]. split; try done; change (ended _) with 0; cbn; lia.
Qed.

Lemma tally_client id d now ok r :
  relay_ok r -> is_Some (jm_get id (sessions r)) ->
  tally (getByteLength d) 0 r (onClientMessage id d now ok r).
Proof.
  intros Hr [s Hg]. unfold onClientMessage. rewrite Hg.
  destruct (shuttingDown r) eqn:Hdown; [by rewrite (ro_down _ Hr Hdown) in Hg|].
  cbv zeta. set (s1 := Session now _ _ _ _ _ _). set (r1 := set_stats _ _).
  assert (H1 : tally (getByteLength d) 0 r ([], r1)).
  { pose proof (tally_set id s s1 (getByteLength d) 0 r (ro_wf _ Hr) Hg) as Hs. cbv zeta in Hs.
    rewrite Z.add_0_r in Hs. exact Hs. }
  assert (Hnext : forall res, tally 0 0 r1 res -> tally (getByteLength d) 0 r res).
  { intros [es r2] H2. pose proof (tally_trans _ _ _ _ _ _ _ _ H1 H2) as H. by rewrite Z.add_0_r in H. }
  pose proof (ta_wf _ _ _ _ H1) as Hwf1. cbn [snd] in Hwf1.
  destruct (negb _).
  - destruct (_ || _); apply Hnext; [by apply tally_close|].
    apply (tally_set_session id s1); [done|]. apply jm_get_set_eq.
  - apply Hnext. pose proof (tally_safeSend id (upstream_ready s1) ok (SendUpstream id d) "upstream send failed" r1 Hwf1 eq_refl).
    by destruct (safeSend _ _ _ _ _ r1) as [[? ?] ?].
Qed.

Lemma tally_upstream id d now ok r :
  jm_wf (sessions r) ->
  let res := onUpstreamMessage id d now ok r in
  tally 0 (total_bytes (to_client (UpstreamMessage id d now ok, res.1))) r res.
Proof.
  intros Hwf. cbv zeta. unfold onUpstreamMessage.
  destruct (jm_get id (sessions r)) as [s|] eqn:Hg; [|by apply tally_none].
  destruct (shuttingDown r); [by apply tally_none|]. case_bool_decide as Hc; cbn [negb]; [|by apply tally_none].
  set (s1 := Session now _ _ _ _ _ _). set (r1 := set_stats _ _).
  assert (H1 : tally 0 (getByteLength d) r ([], r1)).
  { pose proof (tally_set id s s1 0 (getByteLength d) r Hwf Hg) as Hs. cbv zeta in Hs.
    rewrite Z.add_0_r in Hs. exact Hs. }
  assert (Hg1 : jm_get id (sessions r1) = Some s1) by apply jm_get_set_eq.
  pose proof (tally_safeSend id (client_ready s1) ok (SendClient id d) "client send failed" r1 (ta_wf _ _ _ _ H1) eq_refl) as H2.
  pose proof (tally_trans _ _ _ _ _ _ _ _ H1 H2) as H. clear H1 H2.
  unfold safeSend, closeSession in *. rewrite Hg1 in *. cbn [client_ready s1] in *.
  rewrite Hc, bool_decide_true in * by done. cbn [negb] in *.
  destruct ok; cbn in *; by rewrite ?Z.add_0_r in *.
Qed.

Lemma tally_open id now oks r :
  jm_wf (sessions r) -> tally 0 0 r (onUpstreamOpen id now oks r).
Proof.
  intros Hwf. unfold onUpstreamOpen. destruct (jm_get id (sessions r)) as [s|] eqn:Hg; [|by apply tally_none].
  set (s1 := Session _ _ _ _ _ _ OPEN). cbv zeta.
  pose proof (tally_set_session id s s1 r Hwf Hg) as H1.
  pose proof (tally_flush id OPEN (pendingUpstreamMessages s1) oks _ (ta_wf _ _ _ _ H1)) as H2. cbn [snd] in H2.
  pose proof (flush_pending_spec id (pendingUpstreamMessages s1) oks (set_session id s1 r)) as [_ Hres].
  pose proof (tally_trans _ _ _ _ _ _ _ _ H1 H2) as H. clear H1 H2.
  destruct (flush_pending _ _ _ _ _) as [[b es] r2]. cbn [fst snd app negb] in *. destruct b; cbn [negb]; [|done].
  destruct Hres as [-> _].
  assert (Hg2 : jm_get id (sessions (set_session id s1 r)) = Some s1) by apply jm_get_set_eq.
  pose proof (tally_set_session id s1 (Session now (s_upstreamBytes s1) (s_downstreamBytes s1) [] 0 (client_ready s1) OPEN)
    _ (ta_wf _ _ _ _ H) Hg2) as H2.
  pose proof (tally_trans _ _ _ _ _ _ _ _ H H2) as H3. cbn [fst snd] in H3. by rewrite app_nil_r in H3.
Qed.

Lemma tally_step ev r :
  used_by ev = [] -> relay_ok r -> possible [] ev r ->
  let res := relay_step ev r in
  tally (total_bytes (from_client (ev, res.1))) (total_bytes (to_client (ev, res.1))) r res.
Proof.
  intros Hu Hr Hp. pose proof (ro_wf _ Hr) as Hwf. cbv zeta.
  destruct ev as [rq|? ? ?| |i d now ok|i now oks|i d now ok|i|i|i|i|i up|i now|]; try done; cbn [relay_step].
  - pose proof (onUpgrade_cases_tally rq r) as Ho. destruct (onUpgrade rq r) as [[es r']|]; [|by apply tally_none].
    by apply Ho.
  - split; try done; try change (ended _) with 0; cbn; lia.
  - cbn [from_client to_client fst total_bytes]. rewrite Z.add_0_r. by apply tally_client.
  - by apply tally_open.
  - by apply tally_upstream.
  - by apply tally_close.
  - by apply tally_close.
  - by apply tally_close.
  - by apply tally_close.
  - unfold socket_lost. destruct (jm_get i (sessions r)) as [s|] eqn:Hg; [|by apply tally_none].
    by apply (tally_set_session i s).
  - unfold checkIdleTimeout. repeat case_match; by first [apply tally_none|apply tally_close].
  - unfold close_relay. destruct (shuttingDown r); [by apply tally_none|].
    split; cbn; try done; try lia; [|constructor].
    assert (He : forall l : list (string * RelaySessionState),
      ended ((fun kv => CloseSession kv.1 1001 "server shutdown") <$> l) = Z.of_nat (length l)); [|rewrite He; lia].
    unfold ended. intros l. induction l as [|kv l IH]; [done|]. cbn [fmap list_fmap].
    rewrite filter_cons_True by done. simpl in *. lia.
Qed.

(** What any step does to the statistics. *)
Definition delta (x : relay_event * list effect) (r r' : relay) : Prop :=
  Z.of_nat (length (sessions r')) = Z.of_nat (length (sessions r)) + (opened x - ended x.2) /\
  totalConnections (stats r') = totalConnections (stats r) + opened x /\
  peakActiveConnections (stats r') = Z.max (peakActiveConnections (stats r)) (Z.of_nat (length (sessions r'))) /\
  upstreamBytes (stats r') = upstreamBytes (stats r) + total_bytes (from_client x) /\
  downstreamBytes (stats r') = downstreamBytes (stats r) + total_bytes (to_client x).

Lemma delta_callback i now wired r :
  relay_ok r -> jm_get i (sessions r) = None ->
  delta (UpgradeCallback i now wired, (upgradeCallback i now wired r).1) r (upgradeCallback i now wired r).2.
Proof.
  intros Hr Hni. pose proof (ro_active _ Hr) as Hact. pose proof (ro_peak _ Hr) as Hpk.
  unfold upgradeCallback, delta.
  destruct (shuttingDown r); [change (ended _) with 0; destruct wired; cbn; split_and!; lia|].
  destruct wired; [change (ended _) with 0|change (ended _) with 0; cbn; split_and!; lia].
  cbn. rewrite (jm_set_fresh i _ _ Hni), length_app. cbn.
  destruct (Z.ltb_spec (peakActiveConnections (stats r)) (activeConnections (stats r) + 1)); split_and!; lia.
Qed.

Lemma delta_step s ev :
  system_ok s -> possible (used_ids s) ev (rel s) ->
  delta (ev, (relay_step ev (rel s)).1) (rel s) (relay_step ev (rel s)).2.
Proof.
  intros Hs Hp. pose proof (system_step s ev Hs Hp) as (Hr' & _). destruct Hs as (Hr & Hused & _). cbn [rel] in Hr'.
  destruct (decide (used_by ev = [])) as [Hub|Hub].
  - assert (Hp' : possible [] ev (rel s)) by (by destruct ev).
    destruct (tally_step ev (rel s) Hub Hr Hp') as [H1 H2 H3 H4 H5 _].
    pose proof (ro_active _ Hr') as Hact. pose proof (ro_peak _ Hr') as Hpk.
    assert (Hop : opened (ev, (relay_step ev (rel s)).1) = 0) by (by destruct ev).
    unfold delta. rewrite Hop. cbn [snd]. split_and!; [lia|lia| |done|done]. rewrite H3 in *. lia.
  - destruct ev as [|i now wired| | | | | | | | | | |]; try done. destruct Hp as [_ Hid].
    apply delta_callback; [done|]. destruct (jm_get i (sessions (rel s))) eqn:Hg; [|done].
    exfalso. apply Hid, Hused. by rewrite Hg.
Qed.

(** The statistics are those of the trace. *)
Record stats_exact (s : relay_system) : Prop := {
  se_alive : Z.of_nat (length (sessions (rel s))) = alive (trace s);
  se_total : totalConnections (stats (rel s)) = sum_of opened (trace s);
  se_peak : (forall k, alive (take k (trace s)) <= peakActiveConnections (stats (rel s))) /\
            exists k, alive (take k (trace s)) = peakActiveConnections (stats (rel s));
  se_up : upstreamBytes (stats (rel s)) = sum_of (fun x => total_bytes (from_client x)) (trace s);
  se_down : downstreamBytes (stats (rel s)) = sum_of (fun x => total_bytes (to_client x)) (trace s)
}.

(** The largest number there was at once, when the trace grows. *)
Lemma peak_snoc tr x p :
  (forall k, alive (take k tr) <= p) -> (exists k, alive (take k tr) = p) ->
  (forall k, alive (take k (tr ++ [x])) <= Z.max p (alive (tr ++ [x]))) /\
  exists k, alive (take k (tr ++ [x])) = Z.max p (alive (tr ++ [x])).
Proof.
  intros Hle [k Hk]. split.
  - intros j. destruct (decide (j <= length tr)%nat).
    + rewrite take_app_le by done. specialize (Hle j). lia.
    + rewrite take_ge by (rewrite length_app; simpl; lia). lia.
  - destruct (Z.max_spec p (alive (tr ++ [x]))) as [[_ ->]|[_ ->]].
    + exists (length (tr ++ [x])). by rewrite take_ge.
    + exists (Nat.min k (length tr)). rewrite take_app_le by lia.
      destruct (Nat.min_spec k (length tr)) as [[_ ->]|[Hl ->]]; [done|].
      rewrite take_ge in Hk by done. by rewrite take_ge.
Qed.

Lemma stats_step s ev :
  system_ok s -> possible (used_ids s) ev (rel s) -> stats_exact s ->
  stats_exact (RelaySystem (used_by ev ++ used_ids s) (trace s ++ [(ev, (relay_step ev (rel s)).1)])
                 (relay_step ev (rel s)).2).
Proof.
  intros Hs Hp [Ha Ht [Hle Hex] Hu Hd]. destruct (delta_step s ev Hs Hp) as (H1 & H2 & H3 & H4 & H5).
  set (x := (ev, _)) in *.
  assert (Ha' : Z.of_nat (length (sessions (relay_step ev (rel s)).2)) = alive (trace s ++ [x])).
  { unfold alive in *. rewrite sum_of_snoc. lia. }
  split; cbn [rel trace]; [done| | | |].
  - rewrite sum_of_snoc. lia.
  - rewrite H3, Ha'. by apply peak_snoc.
  - rewrite sum_of_snoc. lia.
  - rewrite sum_of_snoc. lia.
Qed.

Lemma stats_reachable s : relay_reachable s -> stats_exact s.
Proof.
  induction 1 as [|s ev Hs IH Hp]; [|by apply stats_step; [apply system_reachable|..]].
  split; cbn; try done. split; [|exists 0%nat]; by intros [|k] || done.
Qed.

(** ** Properties *)

(** C21. The relay is a faithful pipe: in every reachable state, what was sent to a
    live session's upstream is what its client sent, in order and without loss but
    for the messages still queued, which go out first when the upstream opens; and
    of a session that has ended, an initial part was sent. *)
Theorem relay_upstream_fifo s id :
  relay_reachable s ->
  (exists rest, received id (trace s) = sent id (trace s) ++ rest) /\
  (forall ses, jm_get id (sessions (rel s)) = Some ses ->
     received id (trace s) = sent id (trace s) ++ pendingUpstreamMessages ses /\
     (upstream_ready ses = OPEN -> received id (trace s) = sent id (trace s))).
Proof.
  intros (Hr & _ & _ & Hlink)%system_reachable. specialize (Hlink id). split.
  - destruct (jm_get id (sessions (rel s))) as [ses|]; [by eapply linked_weaken|done].
  - intros ses Hg. rewrite Hg in Hlink. split; [done|]. intros Hopen.
    rewrite Hlink, (so_open _ (ro_sessions _ Hr _ _ Hg) Hopen). by rewrite app_nil_r.
Qed.

(** C24. The relay stays within its limits and its statistics are exact.  Sessions and
    upgrades in flight never exceed [maxConnections]; a session queues at most 64
    messages and 16 MiB, with its byte count exact; after [close] no session is left
    or admitted.  [activeConnections] is the number of sessions, which is that of the
    connections opened and not ended; [totalConnections] is the number ever opened,
    [peakActiveConnections] the largest number there was at any moment of the past,
    and the byte totals are the bytes of all messages received from clients and of
    all messages handed to a client. *)
Theorem relay_bounds s :
  relay_reachable s ->
  (Z.of_nat (length (sessions (rel s))) + inFlightUpgrades (rel s) <= maxConnections cfg /\
   0 <= inFlightUpgrades (rel s) /\
   (forall id ses, jm_get id (sessions (rel s)) = Some ses ->
      Z.of_nat (length (pendingUpstreamMessages ses)) <= 64 /\
      pendingUpstreamQueuedBytes ses = total_bytes (pendingUpstreamMessages ses) /\
      pendingUpstreamQueuedBytes ses <= 16777216) /\
   (shuttingDown (rel s) = true -> sessions (rel s) = [])) /\
  activeConnections (stats (rel s)) = Z.of_nat (length (sessions (rel s))) /\
  activeConnections (stats (rel s)) = alive (trace s) /\
  totalConnections (stats (rel s)) = sum_of opened (trace s) /\
  ((forall k, alive (take k (trace s)) <= peakActiveConnections (stats (rel s))) /\
   exists k, alive (take k (trace s)) = peakActiveConnections (stats (rel s))) /\
  upstreamBytes (stats (rel s)) = sum_of (fun x => total_bytes (from_client x)) (trace s) /\
  downstreamBytes (stats (rel s)) = sum_of (fun x => total_bytes (to_client x)) (trace s).
Proof.
  intros Hs. destruct (stats_reachable s Hs) as [Ha Ht Hp Hu Hd].
  apply system_reachable in Hs as ([Hwf Hses Hfly Hcap Hact _ Hdown] & _).
  split_and!; try done; [|by rewrite Hact|apply Hp|apply Hp].
  intros id ses Hg. by destruct (Hses _ _ Hg).
Qed.

(** The guards of an upgrade, all of them passed or one that throws. *)
Lemma onUpgrade_cases rq r :
  ((exists r', onUpgrade rq r = Some ([HandleUpgrade], r')) <->
   shuttingDown r = false /\ req_method rq = "GET"%string /\
   URL_pathname (default "" (req_url rq)) = Some (relayPath cfg) /\
   (allowedOrigins cfg = [] \/ exists origin, req_origin rq = Some origin /\ origin ∈ allowedOrigins cfg) /\
   (requiredToken cfg = EmptyString \/
    sha256 (requiredToken cfg) = sha256 (extractBearerTokenFromRequest rq)) /\
   Z.of_nat (length (sessions r)) + inFlightUpgrades r < maxConnections cfg) /\
  (onUpgrade rq r = None <->
   shuttingDown r = false /\ req_method rq = "GET"%string /\ URL_pathname (default "" (req_url rq)) = None).
Proof.
  assert (Horigin : isOriginAllowed (req_origin rq) (allowedOrigins cfg) = true <->
    allowedOrigins cfg = [] \/ exists origin, req_origin rq = Some origin /\ origin ∈ allowedOrigins cfg).
  { unfold isOriginAllowed. destruct (allowedOrigins cfg) as [|o os]; simpl; [intuition|].
    destruct (req_origin rq) as [origin|]; [rewrite bool_decide_eq_true|]; naive_solver. }
  assert (Htoken : isTokenValidFromRequest sha256 rq (requiredToken cfg) = true <->
    requiredToken cfg = EmptyString \/ sha256 (requiredToken cfg) = sha256 (extractBearerTokenFromRequest rq)).
  { unfold isTokenValidFromRequest, constantTimeEquals. destruct (requiredToken cfg) as [|c t]; simpl; [intuition|].
    destruct (Z.eqb_spec (str_len (sha256 (String c t))) (str_len (sha256 (extractBearerTokenFromRequest rq)))) as [|Hn]; simpl.
    - rewrite bool_decide_eq_true. intuition done.
    - split; [done|]. intros [|He]; [done|]. by rewrite He in Hn. }
  rewrite <- Horigin, <- Htoken. clear Horigin Htoken. unfold onUpgrade, isRelayPath.
  destruct (shuttingDown r); [split; [split; [by intros [? [=]]|by intros [? _]]|split; [done|by intros [? _]]]|].
  case_bool_decide as Hm; cbn [negb];
    [|split; [split; [by intros [? [=]]|by intros (_ & ? & _)]|split; [done|by intros (_ & ? & _)]]].
  destruct (URL_pathname _) as [path|]; cbn [mbind option_bind];
    [|split; [split; [by intros [? [=]]|by intros (_ & _ & ? & _)]|done]].
  split; [|split; [by repeat case_match|by intros (_ & _ & [=])]].
  case_bool_decide as Hp; cbn [negb]; [subst|split; [by intros [? [=]]|intros (_ & _ & [= ?] & _); done]].
  destruct (isOriginAllowed _ _); cbn [negb]; [|split; [by intros [? [=]]|by intros (_ & _ & _ & ? & _)]].
  destruct (isTokenValidFromRequest _ _ _); cbn [negb]; [|split; [by intros [? [=]]|by intros (_ & _ & _ & _ & ? & _)]].
  destruct (Z.leb_spec (maxConnections cfg) (Z.of_nat (length (sessions r)) + inFlightUpgrades r)).
  - split; [by intros [? [=]]|]. intros (_ & _ & _ & _ & _ & ?). lia.
  - split; [intros _; split_and!; done|]. intros _. by eexists.
Qed.

(** C23. Who gets in: a WebSocket handshake is started exactly for a GET request to
    the relay path, while the relay is not shutting down, from an allowed origin, with
    a bearer token whose digest is that of the required one if one is required, and
    below the connection limit; a request whose target is no valid URL makes the
    listener throw. *)
Theorem upgrade_admitted_iff rq r :
  ((exists r', onUpgrade rq r = Some ([HandleUpgrade], r')) <->
   shuttingDown r = false /\ req_method rq = "GET"%string /\
   URL_pathname (default "" (req_url rq)) = Some (relayPath cfg) /\
   (allowedOrigins cfg = [] \/ exists origin, req_origin rq = Some origin /\ origin ∈ allowedOrigins cfg) /\
   (requiredToken cfg = EmptyString \/
    sha256 (requiredToken cfg) = sha256 (extractBearerTokenFromRequest rq)) /\
   Z.of_nat (length (sessions r)) + inFlightUpgrades r < maxConnections cfg) /\
  (onUpgrade rq r = None <->
   shuttingDown r = false /\ req_method rq = "GET"%string /\ URL_pathname (default "" (req_url rq)) = None).
Proof. apply onUpgrade_cases. Qed.

(** Handshakes that the WebSocket library ends itself - it calls back only when a
    handshake succeeds - keep their reservation for ever: after [maxConnections] of
    them, with no session at all, every further upgrade is refused. *)
Theorem aborted_upgrades_exhaust rq :
  (exists r', onUpgrade rq init_relay = Some ([HandleUpgrade], r')) ->
  exists s, relay_reachable s /\ sessions (rel s) = [] /\ shuttingDown (rel s) = false /\
    trace s = replicate (Z.to_nat (maxConnections cfg)) (Upgrade rq, [HandleUpgrade]) /\
    forall rq' es r', onUpgrade rq' (rel s) = Some (es, r') -> es <> [HandleUpgrade].
Proof.
  intros Hadmit. pose proof (proj1 (proj1 (onUpgrade_cases rq init_relay)) Hadmit) as (_ & Hm & Hp & Ho & Ht & _).
  assert (Hn : forall n, (n <= Z.to_nat (maxConnections cfg))%nat -> exists s, relay_reachable s /\
    rel s = Relay [] (Stats 0 0 0 0 0) false (Z.of_nat n) /\
    trace s = replicate n (Upgrade rq, [HandleUpgrade])).
  { induction n as [|n IH]; intros Hle; [by exists (RelaySystem [] [] init_relay); split_and!; [constructor|..]|].
    destruct IH as (s & Hs & Hrel & Htr); [lia|].
    destruct (proj2 (proj1 (onUpgrade_cases rq (rel s)))) as [r' Hr'].
    { rewrite Hrel. cbn. split_and!; try done; lia. }
    eexists. split; [apply (relay_next s (Upgrade rq)); [done|done]|]. cbn [rel trace relay_step]. rewrite Hr'.
    cbn [from_option Datatypes.id fst snd]. split.
    - unfold onUpgrade in Hr'. destruct (shuttingDown (rel s)); [done|]. destruct (negb _); [done|].
      destruct (isRelayPath _ _ _); [|done]. cbn [mbind option_bind] in Hr'. apply (inj Some) in Hr'.
      repeat (destruct (negb _) in Hr'; [done|]). destruct (_ <=? _) in Hr'; [done|].
      injection Hr' as <-. rewrite Hrel. unfold set_inFlight. cbn. f_equal. lia.
    - rewrite Htr. by rewrite <- replicate_S_end. }
  destruct (Hn (Z.to_nat (maxConnections cfg)) ltac:(lia)) as (s & Hs & Hrel & Htr).
  exists s. rewrite Hrel. cbn [sessions shuttingDown]. split_and!; try done.
  intros rq' es r' Hup ->.
  destruct (proj1 (proj1 (onUpgrade_cases rq' (Relay [] (Stats 0 0 0 0 0) false
    (Z.of_nat (Z.to_nat (maxConnections cfg))))))) as (_ & _ & _ & _ & _ & Hlt); [by exists r'|].
  cbn in Hlt. lia.
Qed.
End Relay.

(** ** Concrete runs *)

Definition demo_options : RelayOptions := Options "/ws" [] EmptyString 2 1000.
Definition demo_request : request := Request "GET" (Some "/ws"%string) None None.

(** A client is admitted, sends two messages before its upstream opens and one after. *)
Definition demo_events : list (relay_event (D := string)) :=
  [Upgrade demo_request; UpgradeCallback "s1" 10 true; ClientMessage "s1" "a"%string 11 true;
   ClientMessage "s1" "bc"%string 12 true; UpstreamOpen "s1" 13 []; ClientMessage "s1" "d"%string 14 true;
   Upgrade demo_request].

Definition demo_step (s : relay_system (D := string)) (ev : relay_event) : relay_system :=
  let res := relay_step str_len Some (fun s => s) demo_options ev (rel s) in
  RelaySystem (used_by ev ++ used_ids s) (trace s ++ [(ev, res.1)]) res.2.

Definition demo_system (n : nat) : relay_system :=
  fold_left demo_step (take n demo_events) (RelaySystem [] [] init_relay).

Ltac demo_reach :=
  unfold demo_system, demo_events; cbn [take fold_left]; unfold demo_step;
  repeat (apply relay_next; [|first [done | by split; [vm_compute|vm_compute; inversion 1]
    | vm_compute; by eexists | vm_compute; by intros ? [= <-]]]);
  apply relay_init.

Lemma relay_upstream_fifo_witness :
  sent "s1" (trace (demo_system 4)) = [] /\
  received "s1" (trace (demo_system 4)) = ["a"%string; "bc"%string] /\
  received "s1" (trace (demo_system 7)) = sent "s1" (trace (demo_system 7)) /\
  sent "s1" (trace (demo_system 7)) = ["a"%string; "bc"%string; "d"%string].
Proof.
  split; [done|]. split; [done|]. split; [|done].
  eapply (relay_upstream_fifo str_len Some (fun s => s) demo_options) with (s := demo_system 7).
  - intros d. unfold str_len. lia.
  - done.
  - demo_reach.
  - vm_compute. reflexivity.
  - reflexivity.
Defined.

Lemma relay_bounds_witness :
  alive (trace (demo_system 7)) = 1 /\ upstreamBytes (stats (rel (demo_system 7))) = 4 /\
  upstreamBytes (stats (rel (demo_system 7))) =
    sum_of (fun x => total_bytes str_len (from_client x)) (trace (demo_system 7)).
Proof.
  split; [reflexivity|]. split; [reflexivity|].
  eapply (relay_bounds str_len Some (fun s => s) demo_options).
  - intros d. unfold str_len. lia.
  - done.
  - demo_reach.
Defined.

Lemma aborted_upgrades_exhaust_witness :
  exists s, relay_reachable str_len Some (fun s => s) demo_options s /\ sessions (rel s) = [].
Proof.
  destruct (aborted_upgrades_exhaust str_len Some (fun s => s) demo_options demo_request
              (ex_intro _ (set_inFlight 1 init_relay) eq_refl)) as (s & Hs & Hn & _).
  by exists s.
Defined.
