(* ===== verification/RelayOptions.v ===== *)
(** * Relay options ([packages/commandrelay-relay-proxy/src/index.ts], [cli.ts])

    From the environment and the command line to the options the relay runs with:
    parsers, defaults, clamps and the check of the upstream TLS options.  The [URL]
    constructor and [readFileSync] are parameters; a thrown [Error] is its message. *)

From S2P Require Import Prelude JsMap Config RelaySession.
Local Open Scope Z_scope.

Definition RELAY_PROXY_TLS_REJECT_UNAUTHORIZED_DEFAULT : bool := true.
Definition RELAY_PROXY_TLS_WATCH_INTERVAL_MIN_MS : Z := 250.
Definition SUPPORTED_TLS_VERSION_ORDER : list string := ["TLSv1.1"; "TLSv1.2"; "TLSv1.3"].

(** ** Numbers *)

Definition num_floor (n : num) : num :=
  match n with
  | Fin m e => num_of_Z (if 0 <=? e then m * 2 ^ e else m / 2 ^ (- e))
  | _ => n
  end.

(** [Math.max(k, n)]. *)
Definition num_max (k : Z) (n : num) : num := if num_lt_Z n k then num_of_Z k else n.

Definition parseNonNegativeInteger (value : string) (fallback : num) : num :=
  let trimmed := trim value in
  if negb (integer_text trimmed) then fallback
  else
    let parsed := parse_int trimmed in
    if negb (is_finite parsed) || num_lt_Z parsed 0 then fallback else parsed.

Definition parseBoundedInteger (value : option string) (fallback : num) (min max : Z) : num :=
  let trimmed := trim (default "" value) in
  if negb (integer_text trimmed) then fallback
  else
    let parsed := parse_int trimmed in
    if negb (is_finite parsed) || num_lt_Z parsed min || num_gt_Z parsed max then fallback else parsed.

Definition normalizeWatchInterval (value : num) : num :=
  if negb (is_finite value) || negb (num_gt_Z value 0) then num_of_Z 0
  else num_max RELAY_PROXY_TLS_WATCH_INTERVAL_MIN_MS (num_floor value).

Definition normalizeNonNegativeInteger (raw : option (string + num)) (fallback : num) : num :=
  match raw with
  | Some (inr raw) => if negb (is_finite raw) then fallback else num_max 0 (num_floor raw)
  | None => fallback
  | Some (inl raw) => parseNonNegativeInteger raw fallback
  end.

(** ** Booleans, lists and paths *)

Definition parseBoolean (raw : string) (fallback : bool) : result string bool :=
  let value := to_lower (trim raw) in
  if is_empty value then Ok fallback
  else if bool_decide (value ∈ ["1"; "true"; "yes"; "on"]) then Ok true
  else if bool_decide (value ∈ ["0"; "false"; "no"; "off"]) then Ok false
  else Throw ("invalid boolean value: " +:+ raw)%string.

Definition normalizeBoolean (raw : option (bool + string)) (fallback : bool) : result string bool :=
  match raw with
  | Some (inl raw) => Ok raw
  | None => Ok fallback
  | Some (inr raw) => parseBoolean raw fallback
  end.

(** [entries.map((entry) => entry.trim()).filter(Boolean)]. *)
Definition trimmed_entries (entries : list string) : list string :=
  filter (fun entry => is_empty entry = false) (trim <$> entries).

(** [inl]: a string, [inr]: an array of strings. *)
Definition splitCommaList (value : option (string + list string)) : list string :=
  match value with
  | Some (inr entries) => trimmed_entries entries
  | None => []
  | Some (inl value) => if is_empty value then [] else trimmed_entries (split_on "," value)
  end.

Definition normalizeSubprotocols (raw : option (string + list string)) : list string :=
  let values := match raw with
                | Some (inr raw) => raw
                | _ => splitCommaList raw
                end in
  trimmed_entries values.

Definition normalizeOrigins (raw : option (list string)) : list string :=
  trimmed_entries (default [] raw).

(** [s.replace(/^\/+/, "")]; the other end by reversal. *)
Fixpoint strip_slashes (s : string) : string :=
  match s with
  | String c r => if Ascii.eqb c "/" then strip_slashes r else s
  | EmptyString => s
  end.

Definition strip_trailing_slashes (s : string) : string := String.rev (strip_slashes (String.rev s)).

Definition normalizePath (raw : option string) (fallback : string) : string :=
  let candidate := trim (default "" raw) in
  if is_empty candidate || bool_decide (candidate = "/"%string) then fallback
  else String "/" (strip_trailing_slashes (strip_slashes candidate)).

(** The loop with its [seen] set, which holds the elements of [result]. *)
Fixpoint dedupe_paths (result sourcePaths : list string) : list string :=
  match sourcePaths with
  | [] => result
  | path :: sourcePaths =>
      let trimmed := trim path in
      if is_empty trimmed then dedupe_paths result sourcePaths
      else if js_has trimmed result then dedupe_paths result sourcePaths
      else dedupe_paths (result ++ [trimmed]) sourcePaths
  end.

Definition normalizeUpstreamTlsSourcePaths (sourcePaths : option (list string)) : list string :=
  dedupe_paths [] (default [] sourcePaths).

(** ** The environment *)

Module Env.
Record ParsedEnv : Type := Parsed {
  listenHost : string;
  listenPort : num;
  relayPath : string;
  healthPath : string;
  upstreamUrl : string;
  upstreamTlsRejectUnauthorized : string;
  upstreamTlsCaFile : string;
  upstreamTlsCertFile : string;
  upstreamTlsKeyFile : string;
  upstreamTlsPfxFile : string;
  upstreamTlsPassphrase : string;
  upstreamTlsServername : string;
  upstreamTlsMinVersion : string;
  upstreamTlsMaxVersion : string;
  upstreamTlsWatchIntervalMs : num;
  upstreamTlsRestartOnChange : string;
  maxConnections : num;
  idleTimeoutMs : num;
  shutdownTimeoutMs : num;
  requiredToken : string;
  allowedOrigins : string;
  upstreamSubprotocols : string
}.
End Env.

(** [a || b] on strings. *)
Definition or_else (a b : string) : string := if is_empty a then b else a.

(** [(env.NAME ?? fallback).trim()]. *)
Definition env_trim (env : environment) (name fallback : string) : string :=
  trim (default fallback (env name)).

Definition parseRelayProxyEnv (env : environment) : Env.ParsedEnv := {|
  Env.listenHost := or_else (env_trim env "COMMANDRELAY_RELAY_LISTEN_HOST" "127.0.0.1") "127.0.0.1";
  Env.listenPort := parseBoundedInteger (env "COMMANDRELAY_RELAY_LISTEN_PORT") (num_of_Z 8788) 1 65535;
  Env.relayPath := normalizePath (env "COMMANDRELAY_RELAY_PATH") "/ws";
  Env.healthPath := normalizePath (env "COMMANDRELAY_RELAY_HEALTH_PATH") "/health";
  Env.upstreamUrl := trim (or_else (default "" (env "COMMANDRELAY_RELAY_UPSTREAM_URL")) "ws://127.0.0.1:8787/ws");
  Env.upstreamTlsRejectUnauthorized := default "true" (env "COMMANDRELAY_RELAY_UPSTREAM_TLS_REJECT_UNAUTHORIZED");
  Env.upstreamTlsCaFile := env_trim env "COMMANDRELAY_RELAY_UPSTREAM_TLS_CA_FILE" "";
  Env.upstreamTlsCertFile := env_trim env "COMMANDRELAY_RELAY_UPSTREAM_TLS_CERT_FILE" "";
  Env.upstreamTlsKeyFile := env_trim env "COMMANDRELAY_RELAY_UPSTREAM_TLS_KEY_FILE" "";
  Env.upstreamTlsPfxFile := env_trim env "COMMANDRELAY_RELAY_UPSTREAM_TLS_PFX_FILE" "";
  Env.upstreamTlsPassphrase := env_trim env "COMMANDRELAY_RELAY_UPSTREAM_TLS_PASSPHRASE" "";
  Env.upstreamTlsServername := env_trim env "COMMANDRELAY_RELAY_UPSTREAM_TLS_SERVERNAME" "";
  Env.upstreamTlsMinVersion := env_trim env "COMMANDRELAY_RELAY_UPSTREAM_TLS_MIN_VERSION" "";
  Env.upstreamTlsMaxVersion := env_trim env "COMMANDRELAY_RELAY_UPSTREAM_TLS_MAX_VERSION" "";
  Env.upstreamTlsWatchIntervalMs :=
    normalizeWatchInterval (parseNonNegativeInteger
      (default "" (env "COMMANDRELAY_RELAY_UPSTREAM_TLS_WATCH_INTERVAL_MS")) (num_of_Z 0));
  Env.upstreamTlsRestartOnChange := env_trim env "COMMANDRELAY_RELAY_UPSTREAM_TLS_RESTART_ON_CHANGE" "false";
  Env.maxConnections := parseBoundedInteger (env "COMMANDRELAY_RELAY_MAX_CONNECTIONS") (num_of_Z 128) 1 10000;
  Env.idleTimeoutMs := parseBoundedInteger (env "COMMANDRELAY_RELAY_IDLE_TIMEOUT_MS") (num_of_Z 120000) 1000 600000;
  Env.shutdownTimeoutMs := parseBoundedInteger (env "COMMANDRELAY_RELAY_SHUTDOWN_TIMEOUT_MS") (num_of_Z 10000) 1000 60000;
  Env.requiredToken := env_trim env "COMMANDRELAY_RELAY_REQUIRED_TOKEN" "";
  Env.allowedOrigins := env_trim env "COMMANDRELAY_RELAY_ALLOWED_ORIGINS" "";
  Env.upstreamSubprotocols := env_trim env "COMMANDRELAY_RELAY_UPSTREAM_SUBPROTOCOLS" ""
|}.

(** ** Upstream TLS options *)

Fixpoint index_in (x : string) (l : list string) : option nat :=
  match l with
  | [] => None
  | y :: l => if decide (x = y) then Some O else S <$> index_in x l
  end.

Section Normalize.
(** [B]: a buffer or a string of TLS material. *)
Context {B : Type}.

Record RelayProxyUpstreamTlsOptions : Type := TlsOptions {
  rejectUnauthorized : bool;
  ca : option (list B);
  cert : option B;
  key : option B;
  pfx : option B;
  passphrase : option string;
  servername : option string;
  minVersion : option string;
  maxVersion : option string
}.

(** [SUPPORTED_TLS_VERSION_ORDER.indexOf(v)] is [-1] when absent. *)
Definition version_index (v : string) : Z :=
  match index_in v SUPPORTED_TLS_VERSION_ORDER with Some i => Z.of_nat i | None => -1 end.

Definition supported_or_absent (v : option string) : bool :=
  match v with Some v => bool_decide (v ∈ SUPPORTED_TLS_VERSION_ORDER) | None => true end.

Definition validateUpstreamTlsConfig (options : RelayProxyUpstreamTlsOptions) : result string unit :=
  let hasCert := bool_decide (is_Some (cert options)) in
  let hasKey := bool_decide (is_Some (key options)) in
  if negb (Bool.eqb hasCert hasKey)
  then Throw "upstream TLS cert and key must be both provided together"%string
  else if bool_decide (is_Some (pfx options)) && (hasCert || hasKey)
  then Throw "upstream TLS pfx cannot be used together with cert and key"%string
  else if negb (supported_or_absent (minVersion options))
  then Throw ("unsupported upstream tls minVersion: " +:+ default "" (minVersion options))%string
  else if negb (supported_or_absent (maxVersion options))
  then Throw ("unsupported upstream tls maxVersion: " +:+ default "" (maxVersion options))%string
  else
    match minVersion options, maxVersion options with
    | Some min, Some max =>
        if version_index max <? version_index min
        then Throw ("upstream tls minVersion " +:+ min +:+ " must not exceed maxVersion " +:+ max)%string
        else Ok tt
    | _, _ => Ok tt
    end.

(** ** Reading the material *)

Context (readFileSync : string -> result string B).

Definition loadTlsMaterial (raw label : string) : result string (option B) :=
  if is_empty (trim raw) then Ok None
  else
    match readFileSync raw with
    | Ok material => Ok (Some material)
    | Throw message => Throw ("failed to read " +:+ label +:+ ": " +:+ raw +:+ ": " +:+ message)%string
    end.

Definition loadTlsMaterialAsBuffer (raw label : string) : result string (option B) :=
  loadTlsMaterial raw label.

(** [candidates.map((entry) => loadTlsMaterial(entry, label))], then the filter. *)
Fixpoint load_all (candidates : list string) (label : string) : result string (list B) :=
  match candidates with
  | [] => Ok []
  | entry :: candidates =>
      (let! item := loadTlsMaterial entry label in
       let! items := load_all candidates label in
       Ok (match item with Some item => item :: items | None => items end))%js
  end.

Definition loadTlsMaterialList (raw label : string) : result string (option (list B)) :=
  if is_empty (trim raw) then Ok None
  else
    let candidates := trimmed_entries (split_on "," raw) in
    if (length candidates =? 0)%nat then Ok None
    else (let! loaded := load_all candidates label in Ok (Some loaded))%js.

(** [s || undefined]. *)
Definition or_undefined (s : string) : option string := if is_empty s then None else Some s.

(** The three kinds of argument of [normalizeUpstreamTls]. *)
Inductive tls_values : Type :=
| NoTlsValues
| TlsObject (values : RelayProxyUpstreamTlsOptions)
| TlsEnv (values : Env.ParsedEnv).

Definition normalizeUpstreamTls (values : tls_values) : result string RelayProxyUpstreamTlsOptions :=
  (match values with
   | NoTlsValues =>
       Ok (TlsOptions RELAY_PROXY_TLS_REJECT_UNAUTHORIZED_DEFAULT None None None None None None None None)
   | TlsObject values =>
       let! _ := validateUpstreamTlsConfig values in Ok values
   | TlsEnv values =>
       let! reject := parseBoolean (Env.upstreamTlsRejectUnauthorized values)
                        RELAY_PROXY_TLS_REJECT_UNAUTHORIZED_DEFAULT in
       let! ca := loadTlsMaterialList (Env.upstreamTlsCaFile values) "upstream TLS CA" in
       let! cert := loadTlsMaterial (Env.upstreamTlsCertFile values) "upstream TLS cert" in
       let! key := loadTlsMaterial (Env.upstreamTlsKeyFile values) "upstream TLS key" in
       let! pfx := loadTlsMaterialAsBuffer (Env.upstreamTlsPfxFile values) "upstream TLS pfx" in
       let normalized := TlsOptions reject ca cert key pfx
         (or_undefined (Env.upstreamTlsPassphrase values))
         (or_undefined (Env.upstreamTlsServername values))
         (Some (Env.upstreamTlsMinVersion values))
         (Some (Env.upstreamTlsMaxVersion values)) in
       let! _ := validateUpstreamTlsConfig normalized in Ok normalized
   end)%js.

(** ** Relay options *)

(** [RelayBindOptions] and [RelayProxyRuntimeOptions]; the optional fields are options. *)
Record RelayProxyOptions : Type := ProxyOptions {
  o_listenHost : string;
  o_listenPort : num;
  o_relayPath : string;
  o_healthPath : string;
  o_upstreamUrl : string;
  o_upstreamTls : option RelayProxyUpstreamTlsOptions;
  o_upstreamSubprotocols : option (string + list string);
  o_allowedOrigins : option (list string);
  o_requiredToken : option string;
  o_upstreamTlsWatchIntervalMs : option num;
  o_upstreamTlsRestartOnChange : option bool;
  o_upstreamTlsSourcePaths : option (list string);
  o_maxConnections : num;
  o_idleTimeoutMs : num;
  o_shutdownTimeoutMs : num
}.

Definition collectUpstreamTlsSourcePaths (values : Env.ParsedEnv + RelayProxyOptions) : list string :=
  match values with
  | inl values =>
      let one s := if is_empty s then [] else [s] in
      normalizeUpstreamTlsSourcePaths
        (Some (splitCommaList (Some (inl (Env.upstreamTlsCaFile values))) ++
               one (Env.upstreamTlsCertFile values) ++ one (Env.upstreamTlsKeyFile values) ++
               one (Env.upstreamTlsPfxFile values)))
  | inr values =>
      match o_upstreamTlsSourcePaths values with
      | Some paths => normalizeUpstreamTlsSourcePaths (Some paths)
      | None => []
      end
  end.

(** A [URL] object as far as it is read: [protocol] and [toString()]. *)
Context (URL : string -> result string (string * string)).

Definition upstream_url (raw : string) : result string string :=
  (let! (protocol, text) := URL raw in
   if negb (bool_decide (protocol = "ws:"%string)) && negb (bool_decide (protocol = "wss:"%string))
   then Throw ("upstreamUrl must use ws or wss, got " +:+ protocol)%string
   else Ok text)%js.

Definition normalizeRelayOptions (values : Env.ParsedEnv + RelayProxyOptions) :
    result string RelayProxyOptions :=
  (match values with
   | inl v =>
       let! upstream := upstream_url (Env.upstreamUrl v) in
       let! upstreamTls := normalizeUpstreamTls (TlsEnv v) in
       let! restart := normalizeBoolean (Some (inr (Env.upstreamTlsRestartOnChange v))) false in
       Ok (ProxyOptions (Env.listenHost v) (Env.listenPort v) (Env.relayPath v) (Env.healthPath v)
             upstream (Some upstreamTls)
             (Some (inr (splitCommaList (Some (inl (Env.upstreamSubprotocols v))))))
             (Some (splitCommaList (Some (inl (Env.allowedOrigins v)))))
             (Some (Env.requiredToken v))
             (Some (normalizeNonNegativeInteger (Some (inr (Env.upstreamTlsWatchIntervalMs v))) (num_of_Z 0)))
             (Some restart) (Some (collectUpstreamTlsSourcePaths values))
             (Env.maxConnections v) (Env.idleTimeoutMs v) (Env.shutdownTimeoutMs v))
   | inr v =>
       let! upstream := upstream_url (o_upstreamUrl v) in
       let! upstreamTls := normalizeUpstreamTls
                             (match o_upstreamTls v with Some t => TlsObject t | None => NoTlsValues end) in
       let! restart := normalizeBoolean (inl <$> o_upstreamTlsRestartOnChange v) false in
       Ok (ProxyOptions (o_listenHost v) (o_listenPort v) (o_relayPath v) (o_healthPath v)
             upstream (Some upstreamTls)
             (Some (inr (splitCommaList (o_upstreamSubprotocols v))))
             (Some (splitCommaList (inr <$> o_allowedOrigins v)))
             (o_requiredToken v)
             (Some (normalizeNonNegativeInteger (inr <$> o_upstreamTlsWatchIntervalMs v) (num_of_Z 0)))
             (Some restart) (Some (collectUpstreamTlsSourcePaths values))
             (o_maxConnections v) (o_idleTimeoutMs v) (o_shutdownTimeoutMs v))
   end)%js.

(** [Required<RelayProxyOptions>]. *)
Record RuntimeOptions : Type := Runtime {
  r_listenHost : string;
  r_listenPort : num;
  r_relayPath : string;
  r_healthPath : string;
  r_upstreamUrl : string;
  r_upstreamTls : RelayProxyUpstreamTlsOptions;
  r_upstreamSubprotocols : list string;
  r_allowedOrigins : list string;
  r_requiredToken : string;
  r_upstreamTlsWatchIntervalMs : num;
  r_upstreamTlsRestartOnChange : bool;
  r_upstreamTlsSourcePaths : list string;
  r_maxConnections : num;
  r_idleTimeoutMs : num;
  r_shutdownTimeoutMs : num
}.

Definition normalizeRuntimeOptions (raw : RelayProxyOptions) : result string RuntimeOptions :=
  (let! upstream := upstream_url (o_upstreamUrl raw) in
   let! upstreamTls := normalizeUpstreamTls
                         (match o_upstreamTls raw with Some t => TlsObject t | None => NoTlsValues end) in
   let! restart := normalizeBoolean (inl <$> o_upstreamTlsRestartOnChange raw) false in
   Ok (Runtime (or_else (trim (o_listenHost raw)) "127.0.0.1")
         (num_max 1 (num_floor (o_listenPort raw)))
         (normalizePath (Some (o_relayPath raw)) "/ws")
         (normalizePath (Some (o_healthPath raw)) "/health")
         upstream upstreamTls
         (normalizeSubprotocols (o_upstreamSubprotocols raw))
         (normalizeOrigins (o_allowedOrigins raw))
         (trim (default "" (o_requiredToken raw)))
         (normalizeNonNegativeInteger (inr <$> o_upstreamTlsWatchIntervalMs raw) (num_of_Z 0))
         restart
         (normalizeUpstreamTlsSourcePaths (o_upstreamTlsSourcePaths raw))
         (num_max 1 (num_floor (o_maxConnections raw)))
         (num_max 1000 (num_floor (o_idleTimeoutMs raw)))
         (num_max 1000 (num_floor (o_shutdownTimeoutMs raw)))))%js.
End Normalize.

(** ** Lemmas *)

Lemma num_floor_int z : num_floor (num_of_Z z) = num_of_Z z.
Proof. unfold num_floor. by rewrite Z.mul_1_r. Qed.

Lemma num_max_int k z : num_max k (num_of_Z z) = num_of_Z (Z.max k z).
Proof. unfold num_max. rewrite num_lt_Z_int. destruct (Z.ltb_spec z k); f_equal; lia. Qed.

Lemma num_max_floor k z : num_max k (num_floor (num_of_Z z)) = num_of_Z (Z.max k z).
Proof. by rewrite num_floor_int, num_max_int. Qed.

#[export] Hint Rewrite num_floor_int num_lt_Z_int num_gt_Z_int num_max_int num_max_floor : js.

Lemma parse_int_finite s : is_finite (parse_int s) = true -> exists z, parse_int s = num_of_Z z.
Proof. unfold parse_int. repeat case_match; try done. by eexists. Qed.

Lemma parseBoundedInteger_bounds value fallback min max :
  min <= fallback <= max ->
  exists z, parseBoundedInteger value (num_of_Z fallback) min max = num_of_Z z /\ min <= z <= max.
Proof.
  intros Hf. unfold parseBoundedInteger. destruct (negb (integer_text _)); [by exists fallback|].
  destruct (is_finite _) eqn:Hfin; [|by exists fallback].
  destruct (parse_int_finite _ Hfin) as [z ->]. rewrite num_lt_Z_int, num_gt_Z_int. cbn [negb orb].
  destruct (Z.ltb_spec z min); [by exists fallback|]. destruct (Z.ltb_spec max z); [by exists fallback|].
  by exists z.
Qed.

Lemma parseNonNegativeInteger_bounds value fallback :
  0 <= fallback -> exists z, parseNonNegativeInteger value (num_of_Z fallback) = num_of_Z z /\ 0 <= z.
Proof.
  intros Hf. unfold parseNonNegativeInteger. destruct (negb (integer_text _)); [by exists fallback|].
  destruct (is_finite _) eqn:Hfin; [|by exists fallback].
  destruct (parse_int_finite _ Hfin) as [z ->]. rewrite num_lt_Z_int. cbn [negb orb].
  destruct (Z.ltb_spec z 0); [by exists fallback|]. by exists z.
Qed.

Lemma normalizeWatchInterval_bounds z :
  exists w, normalizeWatchInterval (num_of_Z z) = num_of_Z w /\ (w = 0 \/ 250 <= w).
Proof.
  unfold normalizeWatchInterval, RELAY_PROXY_TLS_WATCH_INTERVAL_MIN_MS. rewrite num_gt_Z_int. cbn [is_finite negb orb].
  destruct (Z.ltb_spec 0 z); cbn [negb]; [|exists 0; by split; [|left]].
  rewrite num_max_floor. eexists. split; [done|]. lia.
Qed.

Lemma normalizePath_slash raw fallback :
  starts_with "/" fallback = true -> starts_with "/" (normalizePath raw fallback) = true.
Proof. intros Hf. unfold normalizePath. by destruct (_ || _). Qed.

Lemma trimmed_entries_nonempty entries : Forall (fun e => is_empty e = false) (trimmed_entries entries).
Proof. apply Forall_forall. intros e He. by apply list_elem_of_filter in He as [? _]. Qed.

Lemma dedupe_paths_NoDup result paths : NoDup result -> NoDup (dedupe_paths result paths).
Proof.
  revert result. induction paths as [|p paths IH]; intros result Hnd; [done|]. simpl.
  destruct (is_empty _); [by apply IH|]. destruct (js_has _ _) eqn:Hh; [by apply IH|].
  apply IH. apply NoDup_app. split; [done|]. split; [|apply NoDup_singleton].
  intros x Hx Hs%list_elem_of_singleton. subst. apply js_has_spec in Hx. by rewrite Hx in Hh.
Qed.

Section Validate.
Context {B : Type}.
Implicit Types o : RelayProxyUpstreamTlsOptions (B := B).

(** What a valid set of TLS options is. *)
Definition tls_ok o : Prop :=
  (is_Some (cert o) <-> is_Some (key o)) /\
  (is_Some (pfx o) -> cert o = None /\ key o = None) /\
  (forall v, minVersion o = Some v -> v ∈ SUPPORTED_TLS_VERSION_ORDER) /\
  (forall v, maxVersion o = Some v -> v ∈ SUPPORTED_TLS_VERSION_ORDER) /\
  (forall min max, minVersion o = Some min -> maxVersion o = Some max ->
     version_index min <= version_index max).

Lemma supported_or_absent_iff v :
  supported_or_absent v = true <-> forall x, v = Some x -> x ∈ SUPPORTED_TLS_VERSION_ORDER.
Proof. destruct v as [v|]; simpl; [rewrite bool_decide_eq_true|]; naive_solver. Qed.

Lemma validate_cases o : validateUpstreamTlsConfig o = Ok tt <-> tls_ok o.
Proof.
  unfold validateUpstreamTlsConfig, tls_ok. rewrite <- !supported_or_absent_iff.
  match goal with |- context [if _ then _ else (if _ then _ else (if _ then _ else (if _ then _ else ?m)))] =>
    assert (Hv : m = Ok tt <-> forall min max, minVersion o = Some min -> maxVersion o = Some max ->
      version_index min <= version_index max); [|revert Hv; generalize m] end.
  { destruct (minVersion o) as [min|], (maxVersion o) as [max|]; try (by split; [intros _ ? ? [=] [=]|]).
    destruct (Z.ltb_spec (version_index max) (version_index min)) as [Hlt|Hle]; split; try done.
    - intros Hle. specialize (Hle min max eq_refl eq_refl). lia.
    - by intros _ ? ? [= <-] [= <-]. }
  intros m Hv.
  destruct (supported_or_absent (minVersion o)), (supported_or_absent (maxVersion o)),
    (cert o) as [c|], (key o) as [k|], (pfx o) as [x|]; cbn; rewrite ?Hv;
    (split; [intros H; try done; split_and!; try done; by intros [? [=]]|]);
    intros ([H1 H2] & H3 & H4 & H5 & H6); try done;
    exfalso; first [by destruct H1|by destruct H2|by destruct H3].
Qed.
End Validate.

(** ** Properties *)

Section Theorems.
Context {B : Type} (readFileSync : string -> result string B).
Context (URL : string -> result string (string * string)).
#[local] Notation normalizeRelay := (normalizeRelayOptions readFileSync URL).
#[local] Notation normalizeRuntime := (normalizeRuntimeOptions readFileSync URL).

(** The options of an accepted environment, field by field. *)
Lemma normalizeRelayOptions_env v o :
  normalizeRelayOptions readFileSync URL (inl v) = Ok o ->
  upstream_url URL (Env.upstreamUrl v) = Ok (o_upstreamUrl o) /\
  (exists tls, o_upstreamTls o = Some tls /\ tls_ok tls /\
     minVersion tls = Some (Env.upstreamTlsMinVersion v) /\
     maxVersion tls = Some (Env.upstreamTlsMaxVersion v)) /\
  is_Some (o_upstreamTlsRestartOnChange o) /\
  o_listenHost o = Env.listenHost v /\ o_listenPort o = Env.listenPort v /\
  o_maxConnections o = Env.maxConnections v /\ o_idleTimeoutMs o = Env.idleTimeoutMs v /\
  o_shutdownTimeoutMs o = Env.shutdownTimeoutMs v /\
  o_upstreamTlsWatchIntervalMs o =
    Some (normalizeNonNegativeInteger (Some (inr (Env.upstreamTlsWatchIntervalMs v))) (num_of_Z 0)).
Proof.
  unfold normalizeRelayOptions. intros (u & Hu & (tls & Ht & (r & Hr & [= <-])%rbind_Ok)%rbind_Ok)%rbind_Ok.
  cbn. split; [done|]. split; [|by split_and!]. exists tls. split; [done|].
  unfold normalizeUpstreamTls in Ht.
  do 5 (apply rbind_Ok in Ht as (? & _ & Ht)). apply rbind_Ok in Ht as ([] & Hval & [= <-]).
  by split; [apply validate_cases|].
Qed.

(** The relay cannot be configured from the environment, or from the command
    line which falls back on it, without naming both TLS versions: an unset version
    is the empty string and not [undefined], and the check refuses it; so with no
    variable set at all the relay does not start. *)
Theorem relay_env_needs_tls_versions v o text :
  URL "ws://127.0.0.1:8787/ws" = Ok ("ws:"%string, text) ->
  normalizeRelay (inl v) = Ok o ->
  Env.upstreamTlsMinVersion v ∈ SUPPORTED_TLS_VERSION_ORDER /\
  Env.upstreamTlsMaxVersion v ∈ SUPPORTED_TLS_VERSION_ORDER /\
  normalizeRelay (inl (parseRelayProxyEnv (fun _ => None))) =
    Throw "unsupported upstream tls minVersion: "%string.
Proof.
  intros Hurl (_ & (tls & _ & (_ & _ & Hmin & Hmax & _) & H1 & H2) & _)%normalizeRelayOptions_env.
  split_and!; [by apply Hmin|by apply Hmax|].
  unfold normalizeRelayOptions, upstream_url, parseRelayProxyEnv.
  change (Env.upstreamUrl _) with "ws://127.0.0.1:8787/ws"%string. by rewrite Hurl.
Qed.

Context (URL_again : forall s p text, URL s = Ok (p, text) -> URL text = Ok (p, text)).

Lemma upstream_url_again s text : upstream_url URL s = Ok text -> upstream_url URL text = Ok text.
Proof.
  unfold upstream_url. intros ([p t] & Hu & Hif)%rbind_Ok. destruct (negb _ && negb _) eqn:Hp; [done|].
  injection Hif as ->. rewrite (URL_again _ _ _ Hu). simpl. by rewrite Hp.
Qed.

(** What the environment accepts the server runs with: the options pass the
    second normalisation, the port is a port, the limits and time-outs are within
    their documented ranges, the paths are absolute, the TLS options consistent, and
    the watched files listed once. *)
Theorem relay_from_env_ok env o :
  normalizeRelay (inl (parseRelayProxyEnv env)) = Ok o ->
  exists r, normalizeRuntime o = Ok r /\
    (exists port conns idle shut watch,
       r_listenPort r = num_of_Z port /\ 1 <= port <= 65535 /\
       r_maxConnections r = num_of_Z conns /\ 1 <= conns <= 10000 /\
       r_idleTimeoutMs r = num_of_Z idle /\ 1000 <= idle <= 600000 /\
       r_shutdownTimeoutMs r = num_of_Z shut /\ 1000 <= shut <= 60000 /\
       r_upstreamTlsWatchIntervalMs r = num_of_Z watch /\ (watch = 0 \/ 250 <= watch)) /\
    is_empty (r_listenHost r) = false /\
    starts_with "/" (r_relayPath r) = true /\ starts_with "/" (r_healthPath r) = true /\
    r_upstreamUrl r = o_upstreamUrl o /\ tls_ok (r_upstreamTls r) /\
    Forall (fun origin => is_empty origin = false) (r_allowedOrigins r) /\
    NoDup (r_upstreamTlsSourcePaths r).
Proof.
  intros (Hu & (tls & Htls & Hok & _) & [b Hb] & Hhost & Hport & Hconn & Hidle & Hshut & Hwatch)%normalizeRelayOptions_env.
  apply upstream_url_again in Hu.
  unfold normalizeRuntimeOptions. rewrite Hu, Htls, Hb. cbn [rbind normalizeUpstreamTls].
  rewrite (proj2 (validate_cases tls)) by done. cbn [rbind fmap option_fmap option_map normalizeBoolean].
  eexists. split; [done|]. cbn. rewrite Hport, Hconn, Hidle, Hshut, Hwatch. cbn.
  assert (Hor : forall s : string, is_empty (or_else s "127.0.0.1") = false).
  { intros s. unfold or_else. by destruct (is_empty s) eqn:?. }
  split_and!; try done.
  - destruct (parseBoundedInteger_bounds (env "COMMANDRELAY_RELAY_LISTEN_PORT") 8788 1 65535) as (p & -> & ?); [lia|].
    destruct (parseBoundedInteger_bounds (env "COMMANDRELAY_RELAY_MAX_CONNECTIONS") 128 1 10000) as (c & -> & ?); [lia|].
    destruct (parseBoundedInteger_bounds (env "COMMANDRELAY_RELAY_IDLE_TIMEOUT_MS") 120000 1000 600000) as (i & -> & ?); [lia|].
    destruct (parseBoundedInteger_bounds (env "COMMANDRELAY_RELAY_SHUTDOWN_TIMEOUT_MS") 10000 1000 60000) as (s & -> & ?); [lia|].
    destruct (parseNonNegativeInteger_bounds
      (default "" (env "COMMANDRELAY_RELAY_UPSTREAM_TLS_WATCH_INTERVAL_MS")) 0) as (w & -> & ?); [lia|].
    destruct (normalizeWatchInterval_bounds w) as (w' & -> & ?).
    rewrite !num_max_floor. cbn [is_finite negb]. rewrite ?num_max_floor.
    eexists _, _, _, _, _. split_and!; try done; try lia.
  - by apply normalizePath_slash.
  - by apply normalizePath_slash.
  - apply trimmed_entries_nonempty.
  - apply dedupe_paths_NoDup. constructor.
Qed.
End Theorems.

(** ** The relay that runs with the options *)

(** What the sessions read of the options, when the two numbers are integers. *)
Definition session_options {B} (r : RuntimeOptions (B := B)) : RelaySession.RelayOptions :=
  Options (r_relayPath r) (r_allowedOrigins r) (r_requiredToken r)
    (default 0 (num_to_Z (r_maxConnections r))) (default 0 (num_to_Z (r_idleTimeoutMs r))).

Lemma runtime_maxConnections {B} readFileSync URL env (o : RelayProxyOptions (B := B)) r :
  normalizeRelayOptions readFileSync URL (inl (parseRelayProxyEnv env)) = Ok o ->
  normalizeRuntimeOptions readFileSync URL o = Ok r ->
  exists conns, r_maxConnections r = num_of_Z conns /\ 1 <= conns <= 10000.
Proof.
  intros (_ & _ & _ & _ & _ & Hconn & _)%normalizeRelayOptions_env.
  unfold normalizeRuntimeOptions. intros (? & _ & (? & _ & (? & _ & [= <-])%rbind_Ok)%rbind_Ok)%rbind_Ok. cbn.
  rewrite Hconn. cbn.
  destruct (parseBoundedInteger_bounds (env "COMMANDRELAY_RELAY_MAX_CONNECTIONS") 128 1 10000) as (c & -> & ?); [lia|].
  exists c. rewrite num_max_floor. split; [f_equal; lia|done].
Qed.

(** A relay configured from the environment holds its connection limit, which is
    at most 10000, in every state it can reach: sessions and upgrades in flight
    together never exceed it. *)
Theorem configured_relay_bounded {B D} readFileSync URL (getByteLength : D -> Z) URL_pathname sha256
    env (o : RelayProxyOptions (B := B)) r s :
  (forall d, 0 <= getByteLength d) ->
  normalizeRelayOptions readFileSync URL (inl (parseRelayProxyEnv env)) = Ok o ->
  normalizeRuntimeOptions readFileSync URL o = Ok r ->
  relay_reachable getByteLength URL_pathname sha256 (session_options r) s ->
  exists conns, r_maxConnections r = num_of_Z conns /\ conns <= 10000 /\
    Z.of_nat (length (sessions (rel s))) + inFlightUpgrades (rel s) <= conns.
Proof.
  intros Hb Ho Hr Hs. destruct (runtime_maxConnections _ _ _ _ _ Ho Hr) as (c & Hc & ?).
  exists c. split; [done|]. split; [lia|].
  assert (Hmax : RelaySession.maxConnections (session_options r) = c).
  { unfold session_options. cbn. by rewrite Hc, num_to_Z_int. }
  rewrite <- Hmax. eapply system_reachable; [done|lia|done].
Qed.

(** Witness instances: no readable file, and URLs that are what they say. *)
Definition demo_env (name : string) : option string :=
  if bool_decide (name = "COMMANDRELAY_RELAY_UPSTREAM_TLS_MIN_VERSION"%string) then Some "TLSv1.2"%string
  else if bool_decide (name = "COMMANDRELAY_RELAY_UPSTREAM_TLS_MAX_VERSION"%string) then Some "TLSv1.3"%string
  else if bool_decide (name = "COMMANDRELAY_RELAY_MAX_CONNECTIONS"%string) then Some "2"%string
  else None.
Definition demo_file (path : string) : result string string := Throw "ENOENT"%string.
Definition demo_URL (s : string) : result string (string * string) := Ok ("ws:"%string, s).

Lemma relay_env_needs_tls_versions_witness :
  exists o, normalizeRelayOptions demo_file demo_URL (inl (parseRelayProxyEnv demo_env)) = Ok o /\
  normalizeRelayOptions demo_file demo_URL (inl (parseRelayProxyEnv (fun _ => None))) =
    Throw "unsupported upstream tls minVersion: "%string.
Proof.
  eexists. split; [vm_compute; reflexivity|].
  eapply (relay_env_needs_tls_versions demo_file demo_URL (parseRelayProxyEnv demo_env));
    [reflexivity|vm_compute; reflexivity].
Defined.

Lemma relay_from_env_ok_witness :
  exists o r, normalizeRelayOptions demo_file demo_URL (inl (parseRelayProxyEnv demo_env)) = Ok o /\
  normalizeRuntimeOptions demo_file demo_URL o = Ok r.
Proof.
  destruct (normalizeRelayOptions demo_file demo_URL (inl (parseRelayProxyEnv demo_env))) as [o|e] eqn:Ho;
    [|vm_compute in Ho; discriminate].
  destruct (relay_from_env_ok demo_file demo_URL ltac:(by intros ? ? ? [= <- <-]) demo_env o Ho)
    as (r & Hr & _).
  by exists o, r.
Defined.

Lemma configured_relay_bounded_witness :
  exists o r, normalizeRelayOptions demo_file demo_URL (inl (parseRelayProxyEnv demo_env)) = Ok o /\
  normalizeRuntimeOptions demo_file demo_URL o = Ok r /\ r_maxConnections r = num_of_Z 2 /\
  Z.of_nat (length (sessions (D := string) init_relay)) + inFlightUpgrades (D := string) init_relay <= 10000.
Proof.
  eexists _, _. split; [vm_compute; reflexivity|]. split; [vm_compute; reflexivity|]. split; [reflexivity|].
  edestruct (configured_relay_bounded demo_file demo_URL (fun s => str_len s) Some (fun s => s) demo_env)
    as (c & _ & Hc & Hle).
  - intros d. unfold str_len. lia.
  - vm_compute. reflexivity.
  - vm_compute. reflexivity.
  - apply relay_init.
  - cbn in Hle |- *. lia.
Defined.
