(* ===== verification/RelayTls.v ===== *)
(** * Watching the upstream TLS material ([packages/commandrelay-relay-proxy/src/index.ts])

    The relay re-reads its TLS files at an interval and asks for a restart when one
    changed.  A [file_view] is what the files are at the time of a check; [localeCompare]
    and the hash of a snapshot's JSON text are parameters, and so is the type of
    modification times, which are only compared.  A check reads the clock once. *)

From S2P Require Import Prelude JsMap RelayOptions.
Local Open Scope Z_scope.

Inductive RelayProxyTlsRotationStatus : Type :=
| disabled | monitoring | restart_required | unavailable | unsupported.

#[export] Instance rotation_status_eq_dec : EqDecision RelayProxyTlsRotationStatus.
Proof. solve_decision. Defined.

Inductive source_mode : Type := file | memory.

#[export] Instance source_mode_eq_dec : EqDecision source_mode.
Proof. solve_decision. Defined.

Section Watch.
Context {mtime : Type} `{EqDecision mtime}.

Record UpstreamTlsSourceState : Type := Source {
  path : string;
  digest : string;
  mtimeMs : mtime;
  size : Z
}.

#[export] Instance source_eq_dec : EqDecision UpstreamTlsSourceState.
Proof. solve_decision. Defined.

(** [safeReadFileDigest] and [statSync], both of which throw on a missing file. *)
Record file_view : Type := View {
  safeReadFileDigest : string -> result string string;
  statSync : string -> result string (mtime * Z)
}.

Fixpoint snapshotUpstreamTlsSources (v : file_view) (sourcePaths : list string) :
    result string (list UpstreamTlsSourceState) :=
  match sourcePaths with
  | [] => Ok []
  | sourcePath :: sourcePaths =>
      (let! digest := safeReadFileDigest v sourcePath in
       let! stats := statSync v sourcePath in
       let! rest := snapshotUpstreamTlsSources v sourcePaths in
       Ok (Source sourcePath digest stats.1 stats.2 :: rest))%js
  end.

Context (localeCompare : string -> string -> Z) (hash_json : list UpstreamTlsSourceState -> string).

Definition computeUpstreamTlsFingerprint (sources : list UpstreamTlsSourceState) : string :=
  hash_json (js_sort (fun left right => localeCompare (path left) (path right)) sources).

(** [previousMap]: the last source of a path wins. *)
Definition source_map (sources : list UpstreamTlsSourceState) : list (string * UpstreamTlsSourceState) :=
  fold_left (fun m source => jm_set (path source) source m) sources [].

Definition differs (prior source : UpstreamTlsSourceState) : bool :=
  negb (bool_decide (digest prior = digest source)) ||
  negb (bool_decide (mtimeMs prior = mtimeMs source)) ||
  negb (size prior =? size source).

Definition computeChangedTlsMaterialPaths (previous current : list UpstreamTlsSourceState) : list string :=
  let previousMap := source_map previous in
  omap (fun source =>
          match jm_get (path source) previousMap with
          | None => Some (path source)
          | Some prior => if differs prior source then Some (path source) else None
          end) current ++
  omap (fun source =>
          if js_has (path source) (path <$> current) then None else Some (path source)) previous.

(** ** State *)

Record UpstreamTlsWatchState : Type := Watch {
  status : RelayProxyTlsRotationStatus;
  enabled : bool;
  intervalMs : num;
  autoRestartOnChange : bool;
  sourcePaths : list string;
  sourceMode : source_mode;
  baselineFingerprint : string;
  lastCheckedAtMs : Z;
  detectedAtMs : option Z;
  changedPaths : list string;
  lastError : option string;
  lastSnapshot : list UpstreamTlsSourceState
}.

Definition createUpstreamTlsWatchState {B} (options : RuntimeOptions (B := B)) (v : file_view) (now : Z) :
    UpstreamTlsWatchState :=
  let intervalMs := normalizeWatchInterval (r_upstreamTlsWatchIntervalMs options) in
  let sourcePaths := normalizeUpstreamTlsSourcePaths (Some (r_upstreamTlsSourcePaths options)) in
  let sourceMode := if (0 <? length sourcePaths)%nat then file else memory in
  let on := num_gt_Z intervalMs 0 in
  let isFile := bool_decide (sourceMode = file) in
  let auto := r_upstreamTlsRestartOnChange options in
  let st status fingerprint checked error snapshot :=
    Watch status (on && isFile) intervalMs auto sourcePaths sourceMode fingerprint checked None [] error snapshot in
  if negb (on && isFile)
  then st (if on then if isFile then monitoring else unsupported else disabled)
          (if on then "" else "disabled")%string 0 None []
  else
    match snapshotUpstreamTlsSources v sourcePaths with
    | Ok snapshot => st monitoring (computeUpstreamTlsFingerprint snapshot) now None snapshot
    | Throw message => st unavailable ""%string now (Some message) []
    end.

Definition change_message : string :=
  "Upstream TLS material changed. Restart relay to apply updated certificate material.".

Definition updateUpstreamTlsWatchState (v : file_view) (now : Z) (state : UpstreamTlsWatchState) :
    result string UpstreamTlsWatchState :=
  if negb (enabled state) || negb (bool_decide (sourceMode state = file)) then Ok state
  else
    (let! snapshot := snapshotUpstreamTlsSources v (sourcePaths state) in
     let changed := computeChangedTlsMaterialPaths (lastSnapshot state) snapshot in
     let st status fingerprint detected changed error :=
       Watch status (enabled state) (intervalMs state) (autoRestartOnChange state) (sourcePaths state)
         (sourceMode state) fingerprint now detected changed error snapshot in
     Ok
       (if (length changed =? 0)%nat then
          if bool_decide (status state = restart_required)
          then st (status state) (baselineFingerprint state) (detectedAtMs state) (changedPaths state) (lastError state)
          else st monitoring (computeUpstreamTlsFingerprint snapshot) None [] None
        else
          st restart_required (baselineFingerprint state)
            (match detectedAtMs state with Some t => Some t | None => Some now end)
            changed (Some change_message)))%js.

(** The [catch] of the timer's callback. *)
Definition refreshTlsWatchState (v : file_view) (now : Z) (state : UpstreamTlsWatchState) :
    UpstreamTlsWatchState :=
  match updateUpstreamTlsWatchState v now state with
  | Ok state => state
  | Throw _ =>
      Watch unavailable (enabled state) (intervalMs state) (autoRestartOnChange state) (sourcePaths state)
        (sourceMode state) (baselineFingerprint state) now (detectedAtMs state) (changedPaths state)
        (Some "Unable to validate TLS material"%string) (lastSnapshot state)
  end.

(** The state the server starts with: the timer runs when enabled. *)
Definition startTlsWatch {B} (options : RuntimeOptions (B := B)) (v : file_view) (now : Z) :
    UpstreamTlsWatchState :=
  let state := createUpstreamTlsWatchState options v now in
  if enabled state then refreshTlsWatchState v now state
  else if bool_decide (status state = unsupported) then
    Watch (status state) (enabled state) (intervalMs state) (autoRestartOnChange state) (sourcePaths state)
      (sourceMode state) (baselineFingerprint state) (lastCheckedAtMs state) (detectedAtMs state)
      (changedPaths state)
      (Some "Upstream TLS rotation is not enabled because no file material is configured"%string)
      (lastSnapshot state)
  else state.

(** ** What a check sees *)

Lemma snapshot_paths v paths s :
  snapshotUpstreamTlsSources v paths = Ok s -> path <$> s = paths.
Proof.
  revert s. induction paths as [|p paths IH]; simpl; intros s; [by intros [= <-]|].
  intros (d & _ & (st & _ & (rest & Hr & [= <-])%rbind_Ok)%rbind_Ok)%rbind_Ok.
  cbn. f_equal. by apply IH.
Qed.

Lemma source_map_get sources p :
  NoDup (path <$> sources) ->
  jm_get p (source_map sources) = list_find (fun s => path s = p) sources ≫= (fun x => Some x.2).
Proof.
  unfold source_map.
  enough (H : forall m, NoDup (path <$> sources) ->
    jm_get p (fold_left (fun m s => jm_set (path s) s m) sources m) =
    match list_find (fun s => path s = p) sources with Some x => Some x.2 | None => jm_get p m end).
  { intros Hnd. rewrite H by done. by destruct (list_find _ _) as [[]|]. }
  induction sources as [|s sources IH]; intros m Hnd; [done|]. cbn [fold_left fmap list_fmap list_find] in *.
  apply NoDup_cons in Hnd as [Hs Hnd]. rewrite IH by done. case_decide as Hp.
  - destruct (list_find _ sources) as [[i x]|] eqn:Hf.
    + apply list_find_Some in Hf as (Hx & Hpx & _). exfalso. apply Hs. rewrite Hp, <- Hpx.
      apply list_elem_of_fmap. exists x. split; [done|]. by eapply list_elem_of_lookup_2.
    + by rewrite <- Hp, jm_get_set_eq.
  - destruct (list_find _ sources) as [[i x]|]; [done|]. cbn. by rewrite jm_get_set_ne.
Qed.

Lemma differs_iff a b : path a = path b -> differs a b = true <-> a <> b.
Proof.
  destruct a as [p d m z], b as [p' d' m' z']. cbn. intros ->. unfold differs. cbn.
  destruct (bool_decide_reflect (d = d')), (bool_decide_reflect (m = m')), (Z.eqb_spec z z'); cbn;
    naive_solver.
Qed.

(** On snapshots of the same files: the files whose state differs. *)
Lemma changed_same_paths previous current :
  path <$> previous = path <$> current -> NoDup (path <$> current) ->
  computeChangedTlsMaterialPaths previous current =
    path <$> (snd <$> filter (fun ab => ab.1 <> ab.2) (zip previous current)).
Proof.
  intros Hp Hnd. unfold computeChangedTlsMaterialPaths.
  assert (Hold : omap (fun source => if js_has (path source) (path <$> current) then None
    else Some (path source)) previous = []).
  { rewrite <- Hp. enough (Hsub : forall l, l ⊆ previous -> omap (fun source =>
      if js_has (path source) (path <$> previous) then None else Some (path source)) l = []) by by apply Hsub.
    induction l as [|s l IH]; intros Hsub; [done|]. cbn.
    rewrite (proj2 (js_has_spec _ _)); [apply IH; set_solver|]. apply list_elem_of_fmap_2. set_solver. }
  rewrite Hold, app_nil_r.
  assert (Hget : forall a b, (a, b) ∈ zip previous current -> jm_get (path b) (source_map previous) = Some a).
  { intros a b Hab. rewrite source_map_get by by rewrite Hp.
    apply list_elem_of_lookup in Hab as [i Hi]. apply lookup_zip_Some in Hi as [Ha Hb].
    assert (Hpab : path a = path b).
    { assert (H1 : (path <$> previous) !! i = Some (path a)) by by rewrite list_lookup_fmap, Ha.
      rewrite Hp, list_lookup_fmap, Hb in H1. by injection H1. }
    assert (Hf : list_find (fun s => path s = path b) previous = Some (i, a)).
    { apply list_find_Some. split_and!; [done|done|]. intros j y Hj Hlt Hy.
      assert (H1 : (path <$> previous) !! j = Some (path b)) by (rewrite list_lookup_fmap, Hj; simpl; by rewrite Hy).
      assert (H2 : (path <$> previous) !! i = Some (path b)) by (rewrite list_lookup_fmap, Ha; simpl; by rewrite Hpab).
      rewrite Hp in H1, H2. pose proof (NoDup_lookup _ _ _ _ Hnd H1 H2). lia. }
    by rewrite Hf. }
  revert Hget. generalize (source_map previous). intros m. clear Hold Hnd.
  revert current Hp. induction previous as [|a previous IH]; intros [|b current] Hp Hget; try done.
  injection Hp as Hab Hp. cbn [omap list_omap zip zip_with]. rewrite (Hget a b) by by left.
  rewrite filter_cons. cbn [fst snd].
  assert (Hrest : forall a b, (a, b) ∈ zip previous current -> jm_get (path b) m = Some a).
  { intros a' b' Hin. apply Hget. by right. }
  destruct (differs a b) eqn:Hd.
  - rewrite decide_True by by apply differs_iff. cbn. f_equal. by apply IH.
  - rewrite decide_False; [by apply IH|]. intros Hne%(differs_iff a b Hab). by rewrite Hd in Hne.
Qed.

Lemma changed_nil_iff previous current :
  path <$> previous = path <$> current -> NoDup (path <$> current) ->
  computeChangedTlsMaterialPaths previous current = [] <-> previous = current.
Proof.
  intros Hp Hnd. rewrite changed_same_paths by done. clear Hnd.
  assert (Hlen : length previous = length current) by by rewrite <- (length_fmap path), Hp, length_fmap.
  clear Hp. revert current Hlen. induction previous as [|a previous IH]; intros [|b current] Hlen; try done.
  injection Hlen as Hlen. cbn [zip zip_with]. rewrite filter_cons. cbn [fst snd]. case_decide as Hd.
  - split; [done|]. by intros [= ? _].
  - assert (a = b) as -> by (destruct (decide (a = b)); naive_solver). rewrite IH by done. naive_solver.
Qed.

(** ** Checks *)

(** A watched state: a snapshot of its files has been taken. *)
Record watched (st : UpstreamTlsWatchState) : Prop := {
  w_enabled : enabled st = true;
  w_file : sourceMode st = file;
  w_nodup : NoDup (sourcePaths st);
  w_snapshot : path <$> lastSnapshot st = sourcePaths st
}.

Lemma refresh_readable st v now s :
  watched st -> snapshotUpstreamTlsSources v (sourcePaths st) = Ok s ->
  let st' := refreshTlsWatchState v now st in
  watched st' /\ sourcePaths st' = sourcePaths st /\ lastSnapshot st' = s /\
  (s = lastSnapshot st -> status st = restart_required ->
     status st' = status st /\ detectedAtMs st' = detectedAtMs st /\ changedPaths st' = changedPaths st) /\
  (s = lastSnapshot st -> status st <> restart_required ->
     status st' = monitoring /\ detectedAtMs st' = None /\ changedPaths st' = []) /\
  (s <> lastSnapshot st ->
     status st' = restart_required /\ detectedAtMs st' = Some (default now (detectedAtMs st)) /\
     changedPaths st' = computeChangedTlsMaterialPaths (lastSnapshot st) s).
Proof.
  intros [He Hf Hnd Hs] Hsnap. pose proof (snapshot_paths _ _ _ Hsnap) as Hps. cbv zeta.
  unfold refreshTlsWatchState, updateUpstreamTlsWatchState. rewrite He, Hf, Hsnap.
  rewrite (bool_decide_true (file = file)) by done. cbn.
  destruct (changed_nil_iff (lastSnapshot st) s) as [H1 H2]; [congruence|congruence|].
  destruct (Nat.eqb_spec (length (computeChangedTlsMaterialPaths (lastSnapshot st) s)) 0) as [Hz|Hz].
  - apply nil_length_inv, H1 in Hz. case_bool_decide as Hr; (split; [by split|]); cbn;
      split_and!; done || naive_solver.
  - split; [by split|]. cbn. split_and!; try done; try (intros ->; by rewrite H2 in Hz).
    intros _. split_and!; [done|by destruct (detectedAtMs st)|done].
Qed.

(** When the files first differed from the check before, and what differed last. *)
Fixpoint first_change (previous : list UpstreamTlsSourceState)
    (checks : list (list UpstreamTlsSourceState * Z)) : option Z :=
  match checks with
  | [] => None
  | (current, now) :: checks => if decide (current = previous) then first_change current checks else Some now
  end.

Fixpoint last_changed (acc : list string) (previous : list UpstreamTlsSourceState)
    (checks : list (list UpstreamTlsSourceState * Z)) : list string :=
  match checks with
  | [] => acc
  | (current, _) :: checks =>
      last_changed
        (if decide (current = previous) then acc
         else path <$> (snd <$> filter (fun ab => ab.1 <> ab.2) (zip previous current))) current checks
  end.

Definition refresh_all (views : list (file_view * Z)) (st : UpstreamTlsWatchState) : UpstreamTlsWatchState :=
  fold_left (fun st v => refreshTlsWatchState v.1 v.2 st) views st.

Definition reads (paths : list string) (v : file_view * Z) (c : list UpstreamTlsSourceState * Z) : Prop :=
  snapshotUpstreamTlsSources v.1 paths = Ok c.1 /\ v.2 = c.2.

Lemma refresh_all_readable st views checks :
  watched st -> Forall2 (reads (sourcePaths st)) views checks ->
  status st = monitoring /\ detectedAtMs st = None /\ changedPaths st = [] \/
  status st = restart_required /\ is_Some (detectedAtMs st) ->
  let final := refresh_all views st in
  let detected := match detectedAtMs st with Some t => Some t | None => first_change (lastSnapshot st) checks end in
  status final = (if detected then restart_required else monitoring) /\
  detectedAtMs final = detected /\
  changedPaths final = last_changed (changedPaths st) (lastSnapshot st) checks.
Proof.
  cbv zeta. intros Hw Hv. revert st Hw Hv. revert checks.
  induction views as [|[v now] views IH]; intros checks st Hw Hv Hst.
  - apply Forall2_nil_inv_l in Hv as ->. cbn. destruct Hst as [(-> & -> & ->)|[-> [t ->]]]; done.
  - apply Forall2_cons_inv_l in Hv as ([s now'] & checks' & [Hs Hn] & Hv & ->). cbn in Hs, Hn. subst now'.
    destruct (refresh_readable st v now s Hw Hs) as (Hw' & Hp & Hl & H1 & H2 & H3).
    cbn [refresh_all fold_left fst snd] in *.
    specialize (IH checks' (refreshTlsWatchState v now st) Hw'). rewrite Hp, Hl in IH. specialize (IH Hv).
    unfold refresh_all in IH. cbn [first_change last_changed].
    destruct (decide (s = lastSnapshot st)) as [Heq|Hne].
    + rewrite <- Heq in *. destruct Hst as [(Hm & Hd & Hc)|[Hm Hd]].
      * destruct (H2 eq_refl) as (Hm' & Hd' & Hc'); [by rewrite Hm|]. rewrite Hd. rewrite Hd', Hc' in IH.
        rewrite Hc. apply IH. by left.
      * destruct (H1 eq_refl Hm) as (Hm' & Hd' & Hc'). rewrite Hd', Hc' in IH. apply IH. right. by rewrite Hm', Hm.
    + destruct (H3 Hne) as (Hm' & Hd' & Hc'). rewrite Hd', Hc' in IH.
      destruct Hw as [_ _ Hnd Hsnap]. rewrite changed_same_paths in IH.
      2: { by rewrite Hsnap, (snapshot_paths _ _ _ Hs). }
      2: { by rewrite (snapshot_paths _ _ _ Hs). }
      specialize (IH (or_intror (conj Hm' (ex_intro _ _ eq_refl)))).
      by destruct (detectedAtMs st).
Qed.

(** Watching detects every change: as long as the files can be read, the relay
    asks for a restart exactly when some check found a file whose digest, time or size
    differs from the check before; it reports when that first happened and which
    files differed last, and it keeps asking. *)
Theorem tls_watch_detects {B} (options : RuntimeOptions (B := B)) v0 now0 s0 views checks :
  let st := createUpstreamTlsWatchState options v0 now0 in
  enabled st = true ->
  snapshotUpstreamTlsSources v0 (sourcePaths st) = Ok s0 ->
  Forall2 (reads (sourcePaths st)) views checks ->
  let final := refresh_all views st in
  status final = (if first_change s0 checks then restart_required else monitoring) /\
  detectedAtMs final = first_change s0 checks /\
  changedPaths final = last_changed [] s0 checks.
Proof.
  cbv zeta. intros He Hs Hv.
  assert (Hst : watched (createUpstreamTlsWatchState options v0 now0) /\
    status (createUpstreamTlsWatchState options v0 now0) = monitoring /\
    detectedAtMs (createUpstreamTlsWatchState options v0 now0) = None /\
    changedPaths (createUpstreamTlsWatchState options v0 now0) = [] /\
    lastSnapshot (createUpstreamTlsWatchState options v0 now0) = s0).
  { revert He Hs. unfold createUpstreamTlsWatchState.
    destruct (num_gt_Z _ 0 && bool_decide _) eqn:Hon; cbn [negb]; [|by case_match].
    assert (Hnd : NoDup (normalizeUpstreamTlsSourcePaths (Some (r_upstreamTlsSourcePaths options))))
      by (apply dedupe_paths_NoDup; constructor).
    revert Hnd Hon. generalize (normalizeUpstreamTlsSourcePaths (Some (r_upstreamTlsSourcePaths options))).
    intros paths Hnd Hon. destruct (snapshotUpstreamTlsSources v0 paths) as [s|e] eqn:Hsn;
      cbn [enabled sourcePaths status detectedAtMs changedPaths lastSnapshot]; rewrite Hsn; [|done].
    intros _ [= <-]. split_and!; try done. split; cbn; [done| |done|by eapply snapshot_paths].
    apply andb_true_iff in Hon as [_ Hon]. by apply bool_decide_eq_true in Hon. }
  destruct Hst as (Hw & Hm & Hd & Hc & Hl).
  pose proof (refresh_all_readable _ views checks Hw Hv (or_introl (conj Hm (conj Hd Hc)))) as Hfinal.
  cbv zeta in Hfinal. by rewrite Hd, Hl, Hc in Hfinal.
Qed.

(** A failed check forgets a detected change: when the files cannot be read once
    after a change was detected, the next check that reads them unchanged takes the
    request for a restart back, although the relay still runs with the old files. *)
Theorem tls_failed_check_forgets st v1 now1 v2 now2 e :
  watched st -> status st = restart_required ->
  snapshotUpstreamTlsSources v1 (sourcePaths st) = Throw e ->
  snapshotUpstreamTlsSources v2 (sourcePaths st) = Ok (lastSnapshot st) ->
  let final := refreshTlsWatchState v2 now2 (refreshTlsWatchState v1 now1 st) in
  status final = monitoring /\ changedPaths final = [] /\ detectedAtMs final = None.
Proof.
  cbv zeta. intros [He Hf Hnd Hs] Hst H1 H2.
  set (st1 := refreshTlsWatchState v1 now1 st).
  assert (Hst1 : watched st1 /\ status st1 = unavailable /\ sourcePaths st1 = sourcePaths st /\
    lastSnapshot st1 = lastSnapshot st).
  { unfold st1, refreshTlsWatchState, updateUpstreamTlsWatchState. rewrite He, Hf, H1. by split_and!. }
  destruct Hst1 as (Hw & Hu & Hp & Hl). rewrite <- Hp, <- Hl in H2.
  destruct (refresh_readable st1 v2 now2 (lastSnapshot st1) Hw H2) as (_ & _ & _ & _ & Hm & _).
  destruct (Hm eq_refl) as (? & ? & ?); [by rewrite Hu|done].
Qed.
End Watch.

(** ** Concrete runs *)

Definition demo_runtime : RuntimeOptions (B := string) :=
  Runtime "127.0.0.1" (num_of_Z 8788) "/ws" "/health" "ws://u/"
    (TlsOptions true None None None None None None None None) [] [] EmptyString
    (num_of_Z 750) false ["a.pem"; "b.pem"]%string (num_of_Z 8) (num_of_Z 1000) (num_of_Z 1000).

(** Both files with one digest, or no file at all. *)
Definition demo_view (d : string) : file_view (mtime := Z) :=
  View (fun p => Ok (if bool_decide (p = "a.pem"%string) then d else "b"%string)) (fun _ => Ok (0, 1)).
Definition no_view : file_view (mtime := Z) := View (fun _ => Throw "ENOENT"%string) (fun _ => Throw "ENOENT"%string).
Definition demo_sources (d : string) : list (UpstreamTlsSourceState (mtime := Z)) :=
  [Source "a.pem" d 0 1; Source "b.pem" "b" 0 1].

Definition demo_watch : UpstreamTlsWatchState (mtime := Z) :=
  createUpstreamTlsWatchState (fun _ _ => 0) (fun _ => "h"%string) demo_runtime (demo_view "x") 5.

Lemma tls_watch_detects_witness :
  let final := refresh_all (fun _ _ => 0) (fun _ => "h"%string)
                 [(demo_view "x", 10); (demo_view "y", 20); (demo_view "y", 30)] demo_watch in
  status final = restart_required /\ detectedAtMs final = Some 20 /\ changedPaths final = ["a.pem"%string].
Proof.
  cbv zeta. unfold demo_watch.
  refine (tls_watch_detects (fun _ _ => 0) (fun _ => "h"%string) demo_runtime (demo_view "x") 5 (demo_sources "x")
    [(demo_view "x", 10); (demo_view "y", 20); (demo_view "y", 30)]
    [(demo_sources "x", 10); (demo_sources "y", 20); (demo_sources "y", 30)] eq_refl eq_refl _).
  repeat constructor.
Defined.

Lemma tls_failed_check_forgets_witness :
  let st := refreshTlsWatchState (fun _ _ => 0) (fun _ => "h"%string) (demo_view "y") 20 demo_watch in
  status st = restart_required /\
  status (refreshTlsWatchState (fun _ _ => 0) (fun _ => "h"%string) (demo_view "y") 40
            (refreshTlsWatchState (fun _ _ => 0) (fun _ => "h"%string) no_view 30 st)) = monitoring.
Proof.
  cbv zeta. split; [reflexivity|].
  eapply (tls_failed_check_forgets (fun _ _ => 0) (fun _ => "h"%string)); [|reflexivity..].
  split; [reflexivity|reflexivity| |reflexivity].
  apply (bool_decide_unpack _). vm_compute. exact I.
Defined.
