(* ===== verification/RelayHealth.v ===== *)
(** * Health and status of the relay ([packages/commandrelay-relay-proxy/src/index.ts])

    The HTTP handler and the statistics of the relay.  A response is its status code,
    headers and the value given to [JSON.stringify]; a handler reads the clock once.
    [URL_pathname], the digests and the order of [sort] on strings are parameters. *)

From S2P Require Import Prelude JsMap RelaySession RelayOptions RelayTls.
Local Open Scope Z_scope.

Definition RELAY_PROXY_STATUS_PATH : string := "/status".
Definition RELAY_PROXY_STATUS_SCHEMA_VERSION : Z := 2.

Record response : Type := Response {
  statusCode : Z;
  headers : list (string * string);
  body : jsval
}.

Definition json_type : string * string := ("content-type", "application/json")%string.
Definition error_body (name : string) : jsval := JObj [("error"%string, JStr name)].

Definition JStrs (l : list string) : jsval := JArr (JStr <$> l).
Definition JOpt (s : option string) : jsval := match s with Some s => JStr s | None => JUndefined end.
Definition JOptInt (z : option Z) : jsval := match z with Some z => JInt z | None => JNull end.

Definition status_text (s : RelayProxyTlsRotationStatus) : string :=
  match s with
  | disabled => "disabled"
  | monitoring => "monitoring"
  | restart_required => "restart_required"
  | unavailable => "unavailable"
  | unsupported => "unsupported"
  end.

Section Health.
Context {B mtime : Type} (URL_pathname : string -> option string) (sha256 : string -> string).
Implicit Types (o : RuntimeOptions (B := B)) (t : UpstreamTlsWatchState (mtime := mtime)).

(** [rotation] of the three reports. *)
Definition rotation_fields t : list (string * jsval) :=
  [("status", JStr (status_text (status t))); ("enabled", JBool (enabled t));
   ("intervalMs", JNum (intervalMs t)); ("autoRestartOnChange", JBool (autoRestartOnChange t));
   ("lastCheckedAtMs", JInt (lastCheckedAtMs t)); ("detectedAtMs", JOptInt (detectedAtMs t));
   ("changedPaths", JStrs (changedPaths t)); ("reason", JOpt (lastError t))]%string.

Definition hasCustomCa o : bool := bool_decide (is_Some (ca (r_upstreamTls o))).
Definition hasClientIdentity o : bool :=
  bool_decide (is_Some (cert (r_upstreamTls o))) || bool_decide (is_Some (key (r_upstreamTls o))) ||
  bool_decide (is_Some (pfx (r_upstreamTls o))).

Definition heartbeat (startedAtMs now : Z) : jsval :=
  JObj [("checkedAtMs", JInt now); ("startedAtMs", JInt startedAtMs);
        ("uptimeMs", JInt (now - startedAtMs)); ("ageMs", JInt (now - startedAtMs))]%string.

Definition status_body o (stats : RelayProxyStats) (startedAtMs now : Z) (configFingerprint : string) t : jsval :=
  JObj
    [("status", JStr "open"); ("statusContractVersion", JInt RELAY_PROXY_STATUS_SCHEMA_VERSION);
     ("configFingerprint", JStr configFingerprint);
     ("heartbeat", heartbeat startedAtMs now);
     ("listener", JObj [("host", JStr (r_listenHost o)); ("port", JNum (r_listenPort o));
                        ("relayPath", JStr (r_relayPath o)); ("healthPath", JStr (r_healthPath o));
                        ("statusPath", JStr RELAY_PROXY_STATUS_PATH)]);
     ("upstream", JObj [("url", JStr (r_upstreamUrl o)); ("subprotocols", JStrs (r_upstreamSubprotocols o));
                        ("watchIntervalMs", JNum (intervalMs t)); ("rotation", JObj (rotation_fields t));
                        ("tls", JObj [("rejectUnauthorized", JBool (rejectUnauthorized (r_upstreamTls o)));
                                      ("hasCustomCa", JBool (hasCustomCa o));
                                      ("hasClientIdentity", JBool (hasClientIdentity o))])]);
     ("activeConnections", JInt (activeConnections stats));
     ("peakActiveConnections", JInt (peakActiveConnections stats));
     ("totalConnections", JInt (totalConnections stats));
     ("totals", JObj [("upstreamBytes", JInt (upstreamBytes stats));
                      ("downstreamBytes", JInt (downstreamBytes stats))])]%string.

Definition health_body o (stats : RelayProxyStats) (startedAtMs now : Z) (configFingerprint : string) t : jsval :=
  JObj
    [("status", JStr "ok"); ("statusContractVersion", JInt RELAY_PROXY_STATUS_SCHEMA_VERSION);
     ("configFingerprint", JStr configFingerprint);
     ("heartbeat", heartbeat startedAtMs now);
     ("startedAtMs", JInt startedAtMs); ("uptimeMs", JInt (now - startedAtMs));
     ("activeConnections", JInt (activeConnections stats));
     ("peakActiveConnections", JInt (peakActiveConnections stats));
     ("totalConnections", JInt (totalConnections stats));
     ("upstreamBytes", JInt (upstreamBytes stats)); ("downstreamBytes", JInt (downstreamBytes stats));
     ("upstreamUrl", JStr (r_upstreamUrl o)); ("relayPath", JStr (r_relayPath o));
     ("healthPath", JStr (r_healthPath o)); ("statusPath", JStr RELAY_PROXY_STATUS_PATH);
     ("upstream", JObj [("url", JStr (r_upstreamUrl o)); ("subprotocols", JStrs (r_upstreamSubprotocols o));
                        ("watchIntervalMs", JNum (intervalMs t)); ("rotation", JObj (rotation_fields t))])]%string.

(** [None]: the handler throws.  [req_url] is never [undefined] on a server. *)
Definition serveHealth (rq : request) o (stats : RelayProxyStats) (startedAtMs now : Z)
    (configFingerprint : string) t : option response :=
  let url := default EmptyString (req_url rq) in
  if negb (bool_decide (req_method rq = "GET"%string)) || is_empty url
  then Some (Response 405 [json_type] (error_body "method_not_allowed"))
  else
    path ← URL_pathname url;
    Some
      (if negb (bool_decide (path = r_healthPath o)) && negb (bool_decide (path = RELAY_PROXY_STATUS_PATH))
       then Response 404 [json_type] (error_body "not_found")
       else if negb (isTokenValidFromRequest sha256 rq (r_requiredToken o))
       then Response 401
              [json_type;
               ("www-authenticate", "Bearer realm=" +:+ in_quotes "commandrelay-relay-proxy")%string]
              (error_body "unauthorized")
       else if bool_decide (path = RELAY_PROXY_STATUS_PATH)
       then Response 200 [json_type; ("cache-control", "no-store")%string]
              (status_body o stats startedAtMs now configFingerprint t)
       else Response 200 [json_type] (health_body o stats startedAtMs now configFingerprint t)).

(** [getStats()]. *)
Definition getStats o (stats : RelayProxyStats) (startedAtMs now : Z) (configFingerprint : string) t : jsval :=
  JObj
    [("activeConnections", JInt (activeConnections stats)); ("totalConnections", JInt (totalConnections stats));
     ("peakActiveConnections", JInt (peakActiveConnections stats));
     ("upstreamBytes", JInt (upstreamBytes stats)); ("downstreamBytes", JInt (downstreamBytes stats));
     ("startedAtMs", JInt startedAtMs); ("uptimeMs", JInt (now - startedAtMs));
     ("config", JObj
       [("listenHost", JStr (r_listenHost o)); ("listenPort", JNum (r_listenPort o));
        ("relayPath", JStr (r_relayPath o)); ("healthPath", JStr (r_healthPath o));
        ("statusContractVersion", JInt RELAY_PROXY_STATUS_SCHEMA_VERSION);
        ("configFingerprint", JStr configFingerprint); ("upstreamUrl", JStr (r_upstreamUrl o));
        ("maxConnections", JNum (r_maxConnections o));
        ("upstreamSubprotocols", JStrs (r_upstreamSubprotocols o));
        ("upstreamTls", JObj
          [("sourceMode", JStr (if bool_decide (sourceMode t = file) then "file" else "memory"));
           ("sourcePaths", JStrs (sourcePaths t)); ("fingerprint", JStr (baselineFingerprint t));
           ("rejectUnauthorized", JBool (rejectUnauthorized (r_upstreamTls o)));
           ("hasCustomCa", JBool (hasCustomCa o)); ("hasClientIdentity", JBool (hasClientIdentity o));
           ("rotation", JObj (rotation_fields t))]);
        ("originProtection", JBool (0 <? length (r_allowedOrigins o))%nat);
        ("hasTokenRequired", JBool (negb (is_empty (r_requiredToken o))))])]%string.

(** The value hashed by [buildProxyConfigFingerprint]; [[...l].sort()] orders by
    [code_unit_order]. *)
Context (code_unit_order : string -> string -> Z) (hash_json : jsval -> string).

Definition fingerprint_input o t : jsval :=
  JObj
    [("listenHost", JStr (r_listenHost o)); ("listenPort", JNum (r_listenPort o));
     ("relayPath", JStr (r_relayPath o)); ("healthPath", JStr (r_healthPath o));
     ("upstreamUrl", JStr (r_upstreamUrl o)); ("maxConnections", JNum (r_maxConnections o));
     ("upstreamSubprotocols", JStrs (js_sort code_unit_order (r_upstreamSubprotocols o)));
     ("allowedOrigins", JStrs (js_sort code_unit_order (r_allowedOrigins o)));
     ("upstreamTls", JObj
       [("rejectUnauthorized", JBool (rejectUnauthorized (r_upstreamTls o)));
        ("hasCustomCa", JBool (hasCustomCa o));
        ("hasClientIdentity", JBool (bool_decide (is_Some (cert (r_upstreamTls o))) ||
                                     bool_decide (is_Some (key (r_upstreamTls o)))));
        ("hasPfx", JBool (bool_decide (is_Some (pfx (r_upstreamTls o)))));
        ("minVersion", JStr (default "default" (minVersion (r_upstreamTls o))));
        ("maxVersion", JStr (default "default" (maxVersion (r_upstreamTls o))));
        ("servername", JStr (default "" (servername (r_upstreamTls o))));
        ("watch", JObj
          [("enabled", JBool (enabled t)); ("intervalMs", JNum (intervalMs t));
           ("autoRestartOnChange", JBool (autoRestartOnChange t));
           ("sourceMode", JStr (if bool_decide (sourceMode t = file) then "file" else "memory"));
           ("sourcePaths", JStrs (sourcePaths t))])]);
     ("idleTimeoutMs", JNum (r_idleTimeoutMs o)); ("shutdownTimeoutMs", JNum (r_shutdownTimeoutMs o))]%string.

Definition buildProxyConfigFingerprint o t : string := hash_json (fingerprint_input o t).

(** ** Properties *)

(** Options that differ in secrets only: the token, and the contents of the TLS
    material and its passphrase, but not whether there are any. *)
Definition same_but_secrets o1 o2 : Prop :=
  let tls1 := r_upstreamTls o1 in
  let tls2 := r_upstreamTls o2 in
  o2 = Runtime (r_listenHost o1) (r_listenPort o1) (r_relayPath o1) (r_healthPath o1) (r_upstreamUrl o1)
         (TlsOptions (rejectUnauthorized tls1) (ca tls2) (cert tls2) (key tls2) (pfx tls2) (passphrase tls2)
            (servername tls1) (minVersion tls1) (maxVersion tls1))
         (r_upstreamSubprotocols o1) (r_allowedOrigins o1) (r_requiredToken o2)
         (r_upstreamTlsWatchIntervalMs o1) (r_upstreamTlsRestartOnChange o1) (r_upstreamTlsSourcePaths o1)
         (r_maxConnections o1) (r_idleTimeoutMs o1) (r_shutdownTimeoutMs o1) /\
  (is_Some (ca tls1) <-> is_Some (ca tls2)) /\ (is_Some (cert tls1) <-> is_Some (cert tls2)) /\
  (is_Some (key tls1) <-> is_Some (key tls2)) /\ (is_Some (pfx tls1) <-> is_Some (pfx tls2)) /\
  (r_requiredToken o1 = EmptyString <-> r_requiredToken o2 = EmptyString).

(** Health, status and statistics reveal no secret: relays whose options differ
    only in the token and in the contents of the TLS material answer alike, have the
    same configuration fingerprint and the same statistics, to every request whose
    token both accept or both refuse. *)
Theorem reports_leak_no_secret o1 o2 t rq stats started now :
  same_but_secrets o1 o2 ->
  isTokenValidFromRequest sha256 rq (r_requiredToken o1) = isTokenValidFromRequest sha256 rq (r_requiredToken o2) ->
  buildProxyConfigFingerprint o1 t = buildProxyConfigFingerprint o2 t /\
  serveHealth rq o1 stats started now (buildProxyConfigFingerprint o1 t) t =
    serveHealth rq o2 stats started now (buildProxyConfigFingerprint o2 t) t /\
  getStats o1 stats started now (buildProxyConfigFingerprint o1 t) t =
    getStats o2 stats started now (buildProxyConfigFingerprint o2 t) t.
Proof.
  intros (Heq & Hca & Hcert & Hkey & Hpfx & Htok) Hvalid.
  apply (bool_decide_ext _ _) in Hca, Hcert, Hkey, Hpfx.
  assert (Hempty : is_empty (r_requiredToken o1) = is_empty (r_requiredToken o2)).
  { destruct (r_requiredToken o1), (r_requiredToken o2); try done;
      first [discriminate (proj1 Htok eq_refl)|discriminate (proj2 Htok eq_refl)]. }
  assert (Hid : hasClientIdentity o1 = hasClientIdentity o2) by (unfold hasClientIdentity; congruence).
  assert (Hcustom : hasCustomCa o1 = hasCustomCa o2) by exact Hca.
  assert (Hf : buildProxyConfigFingerprint o1 t = buildProxyConfigFingerprint o2 t).
  { unfold buildProxyConfigFingerprint, fingerprint_input. rewrite Hcustom, Hcert, Hkey, Hpfx. by rewrite Heq. }
  rewrite Hf. generalize (buildProxyConfigFingerprint o2 t). intros fp. clear Hf.
  split; [done|]. split.
  - unfold serveHealth, status_body, health_body. rewrite Hvalid, Hcustom, Hid. by rewrite Heq.
  - unfold getStats. rewrite Hcustom, Hid, Hempty. by rewrite Heq.
Qed.

(** Who is told what: a report is given exactly to a GET request for the health
    or the status path with a valid token; and a request for a target that is no valid
    URL, whoever sends it, makes the handler throw. *)
Theorem serveHealth_cases rq o stats started now fp t :
  (forall r, serveHealth rq o stats started now fp t = Some r ->
     statusCode r = 200 <->
     req_method rq = "GET"%string /\ default EmptyString (req_url rq) <> EmptyString /\
     (exists path, URL_pathname (default EmptyString (req_url rq)) = Some path /\
        (path = r_healthPath o \/ path = RELAY_PROXY_STATUS_PATH)) /\
     isTokenValidFromRequest sha256 rq (r_requiredToken o) = true) /\
  (serveHealth rq o stats started now fp t = None <->
   req_method rq = "GET"%string /\ default EmptyString (req_url rq) <> EmptyString /\
   URL_pathname (default EmptyString (req_url rq)) = None).
Proof.
  unfold serveHealth. generalize (default EmptyString (req_url rq)). intros url.
  case_bool_decide as Hm; cbn [negb orb].
  2: { split; [|by split; [|intros [? _]]]. intros r [= <-]. split; [done|]. by intros [? _]. }
  destruct (is_empty url) eqn:He.
  { assert (url = EmptyString) as -> by by destruct url. split; [|by split; [|intros (_ & ? & _)]]. intros r [= <-].
    split; [done|]. by intros (_ & ? & _). }
  assert (Hne : url <> EmptyString) by (intros ->; done).
  destruct (URL_pathname url) as [path|]; cbn [mbind option_bind]; [|by split].
  split; [|split; [done|by intros (_ & _ & ?)]]. intros r [= <-].
  assert (Hp : (exists p, Some path = Some p /\ (p = r_healthPath o \/ p = RELAY_PROXY_STATUS_PATH)) <->
               (path = r_healthPath o \/ path = RELAY_PROXY_STATUS_PATH)) by naive_solver.
  rewrite Hp.
  destruct (bool_decide_reflect (path = r_healthPath o)), (bool_decide_reflect (path = RELAY_PROXY_STATUS_PATH)),
    (isTokenValidFromRequest sha256 rq (r_requiredToken o)); cbn [negb andb statusCode]; naive_solver.
Qed.
End Health.

(** ** A concrete pair of relays *)

Definition with_secret (token passphrase : string) : RuntimeOptions (B := string) :=
  Runtime "127.0.0.1" (num_of_Z 8788) "/ws" "/health" "ws://u/"
    (TlsOptions true None (Some token) (Some passphrase) None (Some passphrase) None None None) [] [] token
    (num_of_Z 0) false [] (num_of_Z 8) (num_of_Z 1000) (num_of_Z 1000).

Lemma reports_leak_no_secret_witness :
  let rq := Request "GET" (Some "/health"%string) None (Some "Bearer wrong"%string) in
  let t := demo_watch in
  let fp o := buildProxyConfigFingerprint (fun _ _ => 0) (fun _ => "f"%string) o t in
  serveHealth Some (fun s => s) rq (with_secret "s1" "p1") (Stats 0 0 0 0 0) 0 5 (fp (with_secret "s1" "p1")) t =
  serveHealth Some (fun s => s) rq (with_secret "s2" "p2") (Stats 0 0 0 0 0) 0 5 (fp (with_secret "s2" "p2")) t.
Proof.
  cbv zeta.
  refine (proj1 (proj2 (reports_leak_no_secret Some (fun s => s) (fun _ _ => 0) (fun _ => "f"%string)
    (with_secret "s1" "p1") (with_secret "s2" "p2") demo_watch _ (Stats 0 0 0 0 0) 0 5 _ _))); [|reflexivity].
  split_and!; [reflexivity|split; intros [? [=]]|split; intros _; by eexists|split; intros _; by eexists
    |split; intros [? [=]]|split; discriminate].
Defined.
