(* ===== verification/Client.v ===== *)
(** * The gateway client ([packages/commandrelay-client/src/index.ts] and [validation.ts])

    Requests, their replies and the life of the connection.  Each event handler is a
    function from the state to the effects and the new state.  [JSON.parse] is a
    parameter.  A request's timer runs exactly while its entry is in the map, so it has
    no flag of its own.  Listeners of the client are called but do not call back. *)

From S2P Require Import Prelude JsMap Protocol.
Local Open Scope Z_scope.

Abbreviation payload := (list (string * jsval)).

(** ** Payload validation *)

Definition isNonNegativeInteger (value : jsval) : bool :=
  match value with
  | JNum n => match num_to_Z n with Some z => 0 <=? z | None => false end
  | _ => false
  end.
Definition isString (value : jsval) : bool := match value with JStr _ => true | _ => false end.
Definition isBoolean (value : jsval) : bool := match value with JBool _ => true | _ => false end.
Definition isUndefined (value : jsval) : bool := match value with JUndefined => true | _ => false end.
Definition is_text (s : string) (value : jsval) : bool :=
  match value with JStr s' => String.eqb s s' | _ => false end.

Definition isGatewayErrorPayload (value : payload) : bool := isString (field "code" value).

Definition isHelloPayload (value : payload) : bool :=
  isString (field "clientId" value) && isBoolean (field "requiresAuth" value) &&
  isBoolean (field "inputEnabled" value) && isBoolean (field "globalInputDisabled" value) &&
  (isUndefined (field "maxInputBytes" value) || isNonNegativeInteger (field "maxInputBytes" value)) &&
  (isUndefined (field "maxAttachedPanes" value) || isNonNegativeInteger (field "maxAttachedPanes" value)).

Definition isAuthOkPayload (value : payload) : bool :=
  is_text "open" (field "mode" value) || is_text "token" (field "mode" value).

Definition isAuthErrorPayload (value : payload) : bool :=
  isString (field "code" value) &&
  (isUndefined (field "recoverable" value) || isBoolean (field "recoverable" value)).

Definition isSessionListPayload (value : payload) : bool :=
  is_array (field "panes" value) && is_array (field "sessions" value).

Definition isOutputPayload (value : payload) : bool :=
  (is_text "snapshot" (field "mode" value) || is_text "delta" (field "mode" value)) &&
  isString (field "paneId" value) && isString (field "chunk" value) &&
  isNonNegativeInteger (field "streamSeq" value).

Definition isPolicyUpdatePayload (value : payload) : bool :=
  isBoolean (field "inputEnabled" value) && isBoolean (field "globalInputDisabled" value).

(** The payload of a parsed message is a record, so [isRecord] holds. *)
Definition isResponsePayloadValid (type : string) (value : payload) : bool :=
  if String.eqb type "error" || String.eqb type "auth_error" then isGatewayErrorPayload value
  else if String.eqb type "hello" then isHelloPayload value
  else if String.eqb type "auth_ok" then isAuthOkPayload value
  else if String.eqb type "session_list" then isSessionListPayload value
  else if String.eqb type "output" then isOutputPayload value
  else if String.eqb type "policy_update" then isPolicyUpdatePayload value
  else true.

(** ** Requests *)

Inductive ClientCommand : Type :=
| auth | list_sessions | attach | detach | enable_input | disable_input | input | heartbeat | disconnect.

#[export] Instance ClientCommand_eq_dec : EqDecision ClientCommand.
Proof. solve_decision. Defined.

Definition command_text (c : ClientCommand) : string :=
  match c with
  | auth => "auth" | list_sessions => "list_sessions" | attach => "attach" | detach => "detach"
  | enable_input => "enable_input" | disable_input => "disable_input" | input => "input"
  | heartbeat => "heartbeat" | disconnect => "disconnect"
  end.

Definition EXPECTED_RESPONSE_TYPES_BY_COMMAND (c : ClientCommand) : list string :=
  match c with
  | auth => ["auth_ok"; "auth_error"; "error"]
  | list_sessions => ["session_list"; "error"]
  | attach => ["ack"; "error"]
  | detach => ["ack"; "error"]
  | enable_input => ["policy_update"; "error"]
  | disable_input => ["policy_update"; "error"]
  | input => ["ack"; "error"]
  | heartbeat => ["heartbeat_ack"; "error"]
  | disconnect => ["ack"; "error"]
  end.

Definition isUnknownResponseTypeAllowed (expectedResponseTypes : list string) (actualType : string) : bool :=
  js_has actualType expectedResponseTypes.

(** The public methods: command, payload, and the type without which they throw. *)
Inductive method : Type :=
| authenticate (token : string)
| listSessions
| attachPane (paneId : string) (lastSeq : option num)
| detachPane (paneId : string)
| enableInput
| disableInput
| sendInput (paneId data : string) (override : bool)
| beat
| disconnectClient.

Definition request_of (m : method) : ClientCommand * payload * string :=
  match m with
  | authenticate token => (auth, [("token", JStr token)], "auth_ok")
  | listSessions => (list_sessions, [], "session_list")
  | attachPane paneId lastSeq =>
      (attach, ("paneId", JStr paneId) ::
               match lastSeq with Some n => [("lastSeq", JNum n)] | None => [] end, "ack")
  | detachPane paneId => (detach, [("paneId", JStr paneId)], "ack")
  | enableInput => (enable_input, [], "policy_update")
  | disableInput => (disable_input, [], "policy_update")
  | sendInput paneId data override =>
      (input, ("paneId", JStr paneId) :: ("data", JStr data) ::
              (if override then [("override", JBool true)] else []), "ack")
  | beat => (heartbeat, [], "heartbeat_ack")
  | disconnectClient => (disconnect, [], "ack")
  end%string.

(** ** Errors and effects *)

(** An [Error] by its message, or the protocol error of a reply. *)
Inductive client_error : Type :=
| Error_ (message : string)
| CommandRelayProtocolError (kind code : string) (recoverable : bool) (p : payload).

Definition protocol_error (kind : string) (p : payload) : client_error :=
  CommandRelayProtocolError kind (match field "code" p with JStr s => s | _ => "error" end)
    (truthy (field "recoverable" p)) p.

Definition isAuthenticationError (e : client_error) : bool :=
  match e with
  | Error_ _ => false
  | CommandRelayProtocolError kind code _ _ =>
      if String.eqb code "invalid_token" then true else String.eqb kind "auth_error"
  end.

Inductive effect : Type :=
| Emit (event : string) (m : Envelope)
| EmitOpen (n : nat)
| EmitClose (n : nat) (code : Z) (reason : string)
| EmitParseError (error raw : string)
| EmitInvalidPayload (error : string) (p : payload)
| SettleConnect (n : nat) (r : result client_error payload)
| SettleRequest (id : string) (r : result client_error Envelope)
| SocketSend (n : nat) (m : Envelope)
| SocketClose (n : nat) (code : Z) (reason : string)
| Terminate (n : nat).

(** ** State *)

(** [CLOSED] stands for CLOSING and CLOSED. *)
Inductive ready_state : Type := CONNECTING | OPEN | CLOSED.

#[export] Instance client_ready_eq_dec : EqDecision ready_state.
Proof. solve_decision. Defined.

(** A socket and the closure of the [connect] call that made it; [armed]: its
    handshake timer runs. *)
Record connection : Type := Connection {
  ready : ready_state;
  listening : bool;
  handshakeResolved : bool;
  handshakeRejected : bool;
  armed : bool
}.

Record PendingRequest : Type := Pending { expectedResponseTypes : list string }.

(** [socket] names a connection; [protocol] is set once the runtime is loaded. *)
Record client : Type := Client {
  socket : option nat;
  helloPayload : option payload;
  protocol : bool;
  pendingRequests : list (string * PendingRequest);
  requestPrefixCounter : list (string * Z);
  connections : list connection
}.

Definition newClient : client := Client None None false [] [] [].

Definition set_socket x c := Client x (helloPayload c) (protocol c) (pendingRequests c) (requestPrefixCounter c) (connections c).
Definition set_hello x c := Client (socket c) x (protocol c) (pendingRequests c) (requestPrefixCounter c) (connections c).
Definition set_protocol x c := Client (socket c) (helloPayload c) x (pendingRequests c) (requestPrefixCounter c) (connections c).
Definition set_pending x c := Client (socket c) (helloPayload c) (protocol c) x (requestPrefixCounter c) (connections c).
Definition set_counter x c := Client (socket c) (helloPayload c) (protocol c) (pendingRequests c) x (connections c).
Definition set_connections x c := Client (socket c) (helloPayload c) (protocol c) (pendingRequests c) (requestPrefixCounter c) x.

Definition update_connection (n : nat) (f : connection -> connection) (c : client) : client :=
  set_connections (alter f n (connections c)) c.

Definition isOpen (c : client) : bool :=
  match socket c with
  | Some n => match connections c !! n with
              | Some k => bool_decide (ready k = OPEN)
              | None => false
              end
  | None => true (* [undefined === undefined] *)
  end.

(** ** Operations *)

Definition clearPendingRequests (error : client_error) (c : client) : list effect * client :=
  ((fun kv => SettleRequest kv.1 (Throw error)) <$> pendingRequests c, set_pending [] c).

Definition clearSocket (c : client) : list effect * client :=
  let '(es, c) :=
    match socket c with
    | Some n =>
        let es := match connections c !! n with
                  | Some k => if bool_decide (ready k = CLOSED) then [] else [Terminate n]
                  | None => []
                  end in
        (es, set_socket None
               (update_connection n (fun k => Connection CLOSED false (handshakeResolved k)
                                                (handshakeRejected k) (armed k)) c))
    | None => ([], c)
    end in
  let c := set_hello None c in
  let '(es', c) := clearPendingRequests (Error_ "connection closed") c in
  (es ++ es', c).

Definition close (code : Z) (reason : string) (c : client) : list effect * client :=
  let '(es, c) :=
    match socket c with
    | Some n =>
        ([SocketClose n code reason],
         update_connection n (fun k => Connection CLOSED (listening k) (handshakeResolved k)
                                         (handshakeRejected k) (armed k)) c)
    | None => ([], c)
    end in
  let '(es', c) := clearSocket c in
  (es ++ es', c).

Definition settleError (n : nat) (error : client_error) (c : client) : list effect * client :=
  match connections c !! n with
  | None => ([], c)
  | Some k =>
      if handshakeResolved k || handshakeRejected k then ([], c)
      else
        let c := update_connection n (fun k => Connection (ready k) (listening k) (handshakeResolved k) true false) c in
        let '(es, c) := clearSocket c in
        (es ++ [SettleConnect n (Throw error)], c)
  end.

(** The second half of [connect], once the protocol runtime is loaded; [timeout]:
    [requestTimeoutMs > 0]. *)
Definition connectLoaded (timeout : bool) (c : client) : list effect * client :=
  let n := length (connections c) in
  ([], set_socket (Some n)
         (set_connections (connections c ++ [Connection CONNECTING true false false timeout])
            (set_protocol true c))).

Definition socketOpen (n : nat) (c : client) : list effect * client :=
  match connections c !! n with
  | None => ([], c)
  | Some k =>
      let c := update_connection n (fun k => Connection OPEN (listening k) (handshakeResolved k)
                                               (handshakeRejected k) (armed k)) c in
      if listening k then ([EmitOpen n], c) else ([], c)
  end.

Definition socketError (n : nat) (message : string) (c : client) : list effect * client :=
  match connections c !! n with
  | Some k => if listening k then settleError n (Error_ message) c else ([], c)
  | None => ([], c)
  end.

Definition socketClosed (n : nat) (code : Z) (reason : string) (c : client) : list effect * client :=
  match connections c !! n with
  | None => ([], c)
  | Some k =>
      let c := update_connection n (fun k => Connection CLOSED (listening k) (handshakeResolved k)
                                               (handshakeRejected k) (armed k)) c in
      if negb (listening k) then ([], c)
      else
        let reason := if is_empty reason then "socket closed"%string else reason in
        if negb (handshakeResolved k) then
          let '(es, c) := settleError n (Error_ ("socket closed before hello: " +:+ reason)) c in
          (EmitClose n code reason :: es, c)
        else
          let '(es, c) := clearPendingRequests
                            (Error_ ("socket closed (" +:+ int_to_string code +:+ "): " +:+ reason)) c in
          let '(es', c) := clearSocket c in
          (EmitClose n code reason :: es ++ es', c)
  end%string.

(** The timer callback of a connection. *)
Definition handshakeTimeout (n : nat) (timeoutMs : Z) (c : client) : list effect * client :=
  match connections c !! n with
  | None => ([], c)
  | Some k =>
      let c := update_connection n (fun k => Connection (ready k) (listening k) (handshakeResolved k)
                                               (handshakeRejected k) false) c in
      if negb (handshakeResolved k) && negb (handshakeRejected k) then
        let c := update_connection n (fun k => Connection CLOSED (listening k) (handshakeResolved k)
                                                 (handshakeRejected k) (armed k)) c in
        let '(es, c) := settleError n (Error_ ("connect timeout after " +:+ int_to_string timeoutMs +:+ "ms")) c in
        (Terminate n :: es, c)
      else ([], c)
  end%string.

Definition dispatchIncoming (message : Envelope) (c : client) : list effect * client :=
  match env_requestId message with
  | None => ([], c)
  | Some requestId =>
      let type := env_type message in
      let p := env_payload message in
      match jm_get requestId (pendingRequests c) with
      | Some pending =>
          let c := set_pending (jm_delete requestId (pendingRequests c)) c in
          if negb (isUnknownResponseTypeAllowed (expectedResponseTypes pending) type)
          then ([SettleRequest requestId (Throw (Error_ ("unexpected response type: " +:+ type)))], c)
          else if negb (isResponsePayloadValid type p)
          then ([SettleRequest requestId (Throw (Error_ ("invalid response payload for " +:+ type)))], c)
          else if String.eqb type "error" || String.eqb type "auth_error"
          then ([SettleRequest requestId (Throw (protocol_error type p))], c)
          else ([SettleRequest requestId (Ok message)], c)
      | None =>
          let checked (ok : bool) :=
            if ok then ([Emit type message], c)
            else ([EmitInvalidPayload ("invalid " +:+ type +:+ " payload") p], c) in
          if String.eqb type "hello" then
            if isHelloPayload p then ([Emit type message], set_hello (Some p) c)
            else ([EmitInvalidPayload "invalid hello payload" p], c)
          else if String.eqb type "auth_ok" then checked (isAuthOkPayload p)
          else if String.eqb type "auth_error" then checked (isAuthErrorPayload p)
          else if String.eqb type "session_list" then checked (isSessionListPayload p)
          else if String.eqb type "output" then checked (isOutputPayload p)
          else if String.eqb type "policy_update" then checked (isPolicyUpdatePayload p)
          else if String.eqb type "heartbeat_ack" || String.eqb type "ack" then ([Emit type message], c)
          else if String.eqb type "error" then checked (isGatewayErrorPayload p)
          else ([Emit "unknown" message], c)
      end
  end%string.

Section Parse.
Context (JSON_parse : string -> option jsval) (strictV1 : bool).

(** [handleMessage]; [raw] is the text of the frame. *)
Definition handleMessage (n : nat) (raw : string) (now : Z) (c : client) : list effect * client :=
  match connections c !! n with
  | None => ([], c)
  | Some k =>
      if negb (listening k) then ([], c)
      else if negb (protocol c) then ([EmitParseError "protocol runtime not initialized" raw], c)
      else
        match parseMessage JSON_parse now raw strictV1 with
        | Throw error => ([EmitParseError error raw], c)
        | Ok message =>
            if negb (handshakeResolved k) && String.eqb (env_type message) "hello" then
              let p := env_payload message in
              if negb (isHelloPayload p) then settleError n (Error_ "invalid hello payload") c
              else
                let c := update_connection n (fun k => Connection (ready k) (listening k) true
                                                         (handshakeRejected k) false) c in
                let c := set_hello (Some p) c in
                let '(es, c) := dispatchIncoming message c in
                (* a promise that was rejected stays rejected *)
                (Emit "hello" message ::
                 (if handshakeRejected k then [] else [SettleConnect n (Ok p)]) ++ es, c)
            else dispatchIncoming message c
        end
  end%string.
End Parse.

Definition nextRequestId (prefix : string) (now : Z) (uuid : string) (c : client) : string * client :=
  let nextValue := default 0 (jm_get prefix (requestPrefixCounter c)) + 1 in
  (join "-" [prefix; int_to_string now; uuid; int_to_string nextValue],
   set_counter (jm_set prefix nextValue (requestPrefixCounter c)) c).

Definition promiseForRequest (requestId : string) (types : list string) (c : client) : client :=
  set_pending (jm_set requestId (Pending types) (pendingRequests c)) c.

Definition cancelPendingRequest (requestId : string) (c : client) : client :=
  set_pending (jm_delete requestId (pendingRequests c)) c.

(** [sendRequest]; [failure]: the message of what [socket.send] throws.  The result is
    the id whose promise the caller awaits, or what is thrown. *)
Definition sendRequest (type : ClientCommand) (p : payload) (now : Z) (uuid : string) (failure : option string)
    (c : client) : result client_error string * list effect * client :=
  match socket c with
  | Some n =>
      if negb (isOpen c) then (Throw (Error_ "socket not connected"), [], c)
      else if negb (protocol c) then (Throw (Error_ "protocol runtime not initialized"), [], c)
      else
        let '(requestId, c) := nextRequestId (command_text type) now uuid c in
        let request := envelope now (command_text type) p (Some requestId) in
        let c := promiseForRequest requestId (EXPECTED_RESPONSE_TYPES_BY_COMMAND type) c in
        match failure with
        | None => (Ok requestId, [SocketSend n request], c)
        | Some message =>
            let '(es, c) := close 1011 "send failed" c in
            (Throw (Error_ message), es, cancelPendingRequest requestId c)
        end
  | None => (Throw (Error_ "socket not connected"), [], c)
  end.

(** The timer callback of a request. *)
Definition requestTimeout (requestId : string) (c : client) : list effect * client :=
  match jm_get requestId (pendingRequests c) with
  | Some _ =>
      ([SettleRequest requestId (Throw (Error_ ("request timeout: " +:+ requestId)))],
       set_pending (jm_delete requestId (pendingRequests c)) c)
  | None => ([], c)
  end.

(** The first half of [connect]. *)
Definition connectCall (c : client) : result client_error unit :=
  match socket c with
  | Some _ => Throw (Error_ "connection already exists")
  | None => Ok tt
  end.

(** ** A closed client *)

(** A client that was closed, or whose handshake failed, has no socket: its requests
    throw; and no event of a socket without listeners reaches its listeners. *)
Lemma closed_client_is_dead code reason c :
  let c' := (close code reason c).2 in
  socket c' = None /\
  (forall type p now uuid failure, sendRequest type p now uuid failure c' = (Throw (Error_ "socket not connected"), [], c')) /\
  forall n, socket c = Some n ->
    (forall k, connections c' !! n = Some k -> listening k = false) /\
    forall code' reason', (socketClosed n code' reason' c').1 = [].
Proof.
  cbv zeta. unfold close, clearSocket. destruct (socket c) as [n|] eqn:Hs; simpl; rewrite ?Hs; simpl.
  - split_and!; [done|done|]. intros m [= ->].
    assert (Hl : forall k, connections (update_connection m (fun k => Connection CLOSED false (handshakeResolved k)
        (handshakeRejected k) (armed k)) (update_connection m (fun k => Connection CLOSED (listening k)
        (handshakeResolved k) (handshakeRejected k) (armed k)) c)) !! m = Some k -> listening k = false).
    { intros k. unfold update_connection. simpl. rewrite !list_lookup_alter_eq.
      destruct (connections c !! m); simpl; [by intros [= <-]|done]. }
    split; [exact Hl|]. intros code' reason'. unfold socketClosed.
    match goal with |- context [connections ?y !! m] => destruct (connections y !! m) as [k|] eqn:Hk end; [|done].
    by rewrite (Hl k Hk).
  - split; [done|]. split; [|by intros]. intros. unfold sendRequest. simpl. by rewrite Hs.
Qed.

(** ** Request ids *)

Lemma digits_no_dash s : str_forallb is_digit s = true -> index_of "-" s = None.
Proof.
  intros Hs. apply index_of_None_forallb. eapply str_forallb_impl; [|exact Hs].
  intros c Hc. destruct (Ascii.eqb_spec "-" c) as [<-|]; [done|done].
Qed.

(** What an id says: the command and the counter. *)
Lemma request_id_inj t now uuid k t' now' uuid' k' :
  0 <= k -> 0 <= k' ->
  join "-" [command_text t; int_to_string now; uuid; int_to_string k] =
  join "-" [command_text t'; int_to_string now'; uuid'; int_to_string k'] -> t = t' /\ k = k'.
Proof.
  intros Hk Hk' Heq.
  assert (Hdash : forall x, ("-" +:+ x)%string = String "-" x) by done.
  assert (Hcmd : forall c, index_of "-" (command_text c) = None) by by intros [].
  assert (Hlast : forall a b c d, join "-" [a; b; c; d] = ((a +:+ "-" +:+ b +:+ "-" +:+ c) +:+ String "-" d)%string).
  { intros a b c d. cbn [join]. rewrite !Hdash. rewrite <- !str_app_assoc, !str_app_cons, <- !str_app_assoc. by rewrite str_app_cons. }
  assert (Hends : forall k, 0 <= k -> index_of "-" (String.rev (int_to_string k)) = None).
  { intros n Hn. apply digits_no_dash. rewrite str_forallb_rev. by apply int_to_string_digits. }
  split.
  - rewrite !join_cons2, !Hdash in Heq. apply sep_inj in Heq as [Heq _]; [|done..].
    by destruct t, t'.
  - rewrite !Hlast in Heq. apply (f_equal String.rev) in Heq. rewrite !rev_app, !rev_cons, <- !str_app_assoc in Heq.
    rewrite !str_app_cons, !str_app_nil_l in Heq. apply sep_inj in Heq as [Heq _]; [|by apply Hends..].
    apply (f_equal String.rev) in Heq. rewrite !rev_involutive in Heq.
    apply (f_equal parse_int_exact) in Heq. rewrite !parse_int_exact_to_string in Heq by done. by injection Heq.
Qed.

(** ** Runs *)

Section Runs.
Context (JSON_parse : string -> option jsval) (strictV1 : bool) (timeoutMs : Z).

Inductive client_event : Type :=
| ConnectReady
| ConnectThrew (loaded : bool)
| SocketOpened (n : nat)
| SocketErrored (n : nat) (message : string)
| SocketClosed (n : nat) (code : Z) (reason : string)
| FrameReceived (n : nat) (raw : string) (now : Z)
| HandshakeTimer (n : nat)
| UserClose (code : Z) (reason : string)
| Request (type : ClientCommand) (p : payload) (now : Z) (uuid : string) (failure : option string)
| RequestTimer (requestId : string).

Definition client_step (ev : client_event) (c : client) : list effect * client :=
  match ev with
  | ConnectReady => connectLoaded (0 <? timeoutMs) c
  | ConnectThrew loaded => ([], if loaded then set_protocol true c else c)
  | SocketOpened n => socketOpen n c
  | SocketErrored n message => socketError n message c
  | SocketClosed n code reason => socketClosed n code reason c
  | FrameReceived n raw now => handleMessage JSON_parse strictV1 n raw now c
  | HandshakeTimer n => handshakeTimeout n timeoutMs c
  | UserClose code reason => close code reason c
  | Request type p now uuid failure => let '(_, es, c) := sendRequest type p now uuid failure c in (es, c)
  | RequestTimer requestId => requestTimeout requestId c
  end.

(** The request an event makes: its id, once the guards have passed. *)
Definition issued (ev : client_event) (c : client) : list (string * ClientCommand) :=
  match ev with
  | Request type _ now uuid _ =>
      match socket c with
      | Some _ => if isOpen c && protocol c
                  then [((nextRequestId (command_text type) now uuid c).1, type)] else []
      | None => []
      end
  | _ => []
  end.

Definition settlements (es : list effect) : list (string * result client_error Envelope) :=
  omap (fun e => match e with SettleRequest id r => Some (id, r) | _ => None end) es.

(** The client with every request made and every promise settled so far. *)
Record client_system : Type := ClientSystem {
  cl : client;
  requests : list (string * ClientCommand);
  settled : list (string * result client_error Envelope)
}.

Definition system_step (ev : client_event) (s : client_system) : client_system :=
  let '(es, c) := client_step ev (cl s) in
  ClientSystem c (requests s ++ issued ev (cl s)) (settled s ++ settlements es).

(** A handshake timer fires only when armed. *)
Definition possible (ev : client_event) (c : client) : Prop :=
  match ev with
  | HandshakeTimer n => exists k, connections c !! n = Some k /\ armed k = true
  | _ => True
  end.

Inductive client_reachable : client_system -> Prop :=
| client_init : client_reachable (ClientSystem newClient [] [])
| client_next s ev :
    client_reachable s -> possible ev (cl s) -> client_reachable (system_step ev s).

(** ** What an operation does to the pending requests *)

(** A reply that resolves a request. *)
Definition accepted (types : list string) (id : string) (m : Envelope) : Prop :=
  env_requestId m = Some id /\ env_type m ∈ types /\
  env_type m <> "error"%string /\ env_type m <> "auth_error"%string /\
  isResponsePayloadValid (env_type m) (env_payload m) = true.

Record settles (c : client) (es : list effect) (c' : client) : Prop := {
  st_perm : (pendingRequests c).*1 ≡ₚ (pendingRequests c').*1 ++ (settlements es).*1;
  st_sub : pendingRequests c' ⊆ pendingRequests c;
  st_counter : requestPrefixCounter c' = requestPrefixCounter c;
  st_ok : forall id m, (id, Ok m) ∈ settlements es ->
            exists p, (id, p) ∈ pendingRequests c /\ accepted (expectedResponseTypes p) id m;
  st_none : (socket c = None -> pendingRequests c = []) -> socket c' = None -> pendingRequests c' = []
}.

Lemma settlements_app a b : settlements (a ++ b) = settlements a ++ settlements b.
Proof. apply omap_app. Qed.

Lemma settles_same c c' es :
  pendingRequests c' = pendingRequests c -> requestPrefixCounter c' = requestPrefixCounter c ->
  settlements es = [] -> (socket c' = None -> socket c = None) -> settles c es c'.
Proof.
  intros Hp Hr He Hs. split; rewrite ?Hp, ?He, ?app_nil_r; try done.
  - intros ? ? []%elem_of_nil.
  - intros Hn Hs'. apply Hn. by apply Hs.
Qed.

Lemma settles_trans c1 es1 c2 es2 c3 :
  settles c1 es1 c2 -> settles c2 es2 c3 -> settles c1 (es1 ++ es2) c3.
Proof.
  intros [P1 S1 C1 O1 N1] [P2 S2 C2 O2 N2]. split.
  - rewrite settlements_app, fmap_app, P1, P2. solve_Permutation.
  - by etrans.
  - by rewrite C2.
  - intros id m. rewrite settlements_app, elem_of_app. intros [H|H]; [by apply O1|].
    destruct (O2 id m H) as (p & Hp & Ha). exists p. split; [by apply S1|done].
  - auto.
Qed.

Lemma clearPendingRequests_settles e c :
  let '(es, c') := clearPendingRequests e c in settles c es c' /\ pendingRequests c' = [].
Proof.
  unfold clearPendingRequests. split; [|done].
  assert (Hs : settlements ((fun kv => SettleRequest kv.1 (Throw e)) <$> pendingRequests c) =
    (fun kv => (kv.1, Throw e)) <$> pendingRequests c).
  { generalize (pendingRequests c). intros l. induction l as [|x l IH]; [done|]. cbn. by f_equal. }
  split; cbn -[settlements]; rewrite ?Hs; try done.
  - by rewrite <- list_fmap_compose.
  - set_solver.
  - by intros id m (kv & Heq & _)%list_elem_of_fmap.
Qed.

Lemma update_connection_settles n f c : settles c [] (update_connection n f c).
Proof. by apply settles_same. Qed.

Lemma clearSocket_settles c :
  let '(es, c') := clearSocket c in settles c es c' /\ pendingRequests c' = [] /\ socket c' = None.
Proof.
  unfold clearSocket.
  assert (H : exists es c1,
    match socket c with
    | Some n =>
        (match connections c !! n with
         | Some k => if bool_decide (ready k = CLOSED) then [] else [Terminate n]
         | None => []
         end,
         set_socket None (update_connection n (fun k => Connection CLOSED false (handshakeResolved k)
                                                (handshakeRejected k) (armed k)) c))
    | None => ([], c)
    end = (es, c1) /\ settlements es = [] /\ pendingRequests c1 = pendingRequests c /\
    requestPrefixCounter c1 = requestPrefixCounter c /\ socket c1 = None).
  { destruct (socket c) as [n|] eqn:Hn; eexists _, _; (split; [reflexivity|]); split_and!; try done. by repeat case_match. }
  destruct H as (es & c1 & -> & Hes & Hp & Hc & Hs).
  pose proof (clearPendingRequests_settles (Error_ "connection closed") (set_hello None c1)) as Hcl.
  destruct (clearPendingRequests _ _) as [es' c2] eqn:Heq. destruct Hcl as [[P S C O N] Hnil].
  split; [|split; [done|]].
  - split.
    + rewrite settlements_app, Hes. cbn. by rewrite <- P, <- Hp.
    + rewrite Hnil. set_solver.
    + by rewrite C.
    + intros id m. rewrite settlements_app, Hes. intros Hin. destruct (O id m Hin) as (p & Hin' & ?).
      exists p. cbn in Hin'. by rewrite Hp in Hin'.
    + done.
  - unfold clearPendingRequests in Heq. by injection Heq as _ <-.
Qed.

Lemma clearSocket_rejects c :
  let '(es, _) := clearSocket c in
  forall id p, (id, p) ∈ pendingRequests c -> SettleRequest id (Throw (Error_ "connection closed")) ∈ es.
Proof.
  assert (H : forall (l : list (string * PendingRequest)) id p, (id, p) ∈ l ->
    SettleRequest id (Throw (Error_ "connection closed")) ∈
      (fun kv : string * PendingRequest => SettleRequest kv.1 (Throw (Error_ "connection closed"))) <$> l).
  { intros l id p Hin. apply list_elem_of_fmap. by exists (id, p). }
  unfold clearSocket. destruct (socket c) as [n|]; cbn; intros id p Hin; rewrite ?elem_of_app; eauto.
Qed.

Lemma settleError_settles n e c : let '(es, c') := settleError n e c in settles c es c'.
Proof.
  unfold settleError. destruct (connections c !! n) as [k|]; [|by apply settles_same].
  destruct (_ || _); [by apply settles_same|].
  set (c1 := update_connection n _ c).
  pose proof (clearSocket_settles c1) as H. destruct (clearSocket c1) as [es c2]. destruct H as [H _].
  change es with ([] ++ es) at 1. rewrite <- app_assoc. eapply settles_trans; [apply update_connection_settles|].
  eapply settles_trans; [exact H|]. by apply settles_same.
Qed.

(** An error before the handshake has an outcome drops the connection in use. *)
Lemma settleError_drops n e c k :
  connections c !! n = Some k -> handshakeResolved k = false -> handshakeRejected k = false ->
  let '(es, c') := settleError n e c in
  socket c' = None /\ pendingRequests c' = [] /\
  forall id p, (id, p) ∈ pendingRequests c -> SettleRequest id (Throw (Error_ "connection closed")) ∈ es.
Proof.
  intros Hk Hres Hrej. unfold settleError. rewrite Hk, Hres, Hrej. cbn [orb].
  set (c1 := update_connection n _ c).
  pose proof (clearSocket_settles c1) as H. pose proof (clearSocket_rejects c1) as Hr.
  destruct (clearSocket c1) as [es c2]. destruct H as (_ & ? & ?). split_and!; [done|done|].
  intros id p Hin. apply elem_of_app. left. by apply (Hr id p).
Qed.

Lemma close_settles code reason c : let '(es, c') := close code reason c in settles c es c' /\ pendingRequests c' = [].
Proof.
  unfold close. destruct (socket c) as [n|] eqn:Hn.
  - pose proof (clearSocket_settles (update_connection n (fun k => Connection CLOSED (listening k)
      (handshakeResolved k) (handshakeRejected k) (armed k)) c)) as H.
    destruct (clearSocket _) as [es c2]. destruct H as (H & Hnil & _). split; [|done].
    eapply settles_trans; [|exact H]. by apply settles_same.
  - pose proof (clearSocket_settles c) as H. destruct (clearSocket c) as [es c2]. by destruct H as (H & Hnil & _).
Qed.

(** One request leaves the map and is settled. *)
Lemma settle_one c id p r :
  NoDup (pendingRequests c).*1 -> jm_get id (pendingRequests c) = Some p ->
  (forall m, r = Ok m -> accepted (expectedResponseTypes p) id m) ->
  settles c [SettleRequest id r] (set_pending (jm_delete id (pendingRequests c)) c).
Proof.
  intros Hnd Hg Hok. apply jm_get_In in Hg. split; cbn [pendingRequests set_pending requestPrefixCounter settlements omap list_omap].
  - apply list_elem_of_split in Hg as (a & b & Heq). rewrite Heq in *. unfold jm_delete.
    rewrite filter_app, filter_cons, decide_False by (intros H; by apply H). rewrite fmap_app in Hnd.
    apply NoDup_app in Hnd as (Ha & Hx & Hb). apply NoDup_cons in Hb as [Hb _].
    change (id ∉ b.*1) in Hb.
    assert (Hin : forall (x : string * PendingRequest) l, x ∈ l -> x.1 = id -> id ∈ l.*1) by (intros x l Hin <-; by apply list_elem_of_fmap_2).
    rewrite !filter_all; [rewrite !fmap_app; cbn; solve_Permutation| |].
    + apply Forall_forall. intros x Hx1 Heqx. apply Hb. by eapply Hin.
    + apply Forall_forall. intros x Hx1 Heqx. apply (Hx id); [by eapply Hin|by left].
  - unfold jm_delete. intros x Hx. by apply list_elem_of_filter in Hx as [_ ?].
  - done.
  - intros id' m Hin%list_elem_of_singleton. injection Hin as -> <-. exists p. split; [done|by apply Hok].
  - intros Hn Hs. cbn in Hs. by rewrite Hn.
Qed.

Lemma dispatchIncoming_settles message c :
  NoDup (pendingRequests c).*1 -> let '(es, c') := dispatchIncoming message c in settles c es c'.
Proof.
  intros Hnd. unfold dispatchIncoming. destruct (env_requestId message) as [id|] eqn:Hid; [|by apply settles_same].
  destruct (jm_get id (pendingRequests c)) as [p|] eqn:Hg.
  - destruct (isUnknownResponseTypeAllowed _ _) eqn:Ht; cbn [negb]; [|by eapply settle_one].
    destruct (isResponsePayloadValid _ _) eqn:Hv; cbn [negb]; [|by eapply settle_one].
    destruct (String.eqb_spec (env_type message) "error"), (String.eqb_spec (env_type message) "auth_error");
      cbn [orb]; (eapply settle_one; [done|done|]); intros m [= <-].
    split_and!; try done. by apply js_has_spec in Ht.
  - cbv zeta. repeat match goal with |- context [if ?b then _ else _] => destruct b end; by apply settles_same.
Qed.

Lemma step_settles ev c :
  issued ev c = [] -> NoDup (pendingRequests c).*1 ->
  let '(es, c') := client_step ev c in settles c es c'.
Proof.
  intros Hi Hnd. destruct ev as [|loaded|n|n e|n code reason|n raw now|n|code reason|type p now uuid failure|id]; cbn [client_step].
  - by apply settles_same.
  - destruct loaded; by apply settles_same.
  - unfold socketOpen. destruct (connections c !! n) as [k|]; [destruct (listening k)|]; by apply settles_same.
  - unfold socketError. destruct (connections c !! n); [|by apply settles_same].
    destruct (listening _); [apply settleError_settles|by apply settles_same].
  - unfold socketClosed. destruct (connections c !! n) as [k|]; [|by apply settles_same].
    set (c1 := update_connection n _ c). destruct (negb (listening k)); [by apply settles_same|].
    destruct (negb (handshakeResolved k)).
    + match goal with |- context [settleError n ?e c1] => pose proof (settleError_settles n e c1) as H; destruct (settleError n e c1) as [es c2] end.
      eapply (settles_trans c [_] c1); [by apply settles_same|done].
    + match goal with |- context [clearPendingRequests ?e c1] => pose proof (clearPendingRequests_settles e c1) as H; destruct (clearPendingRequests e c1) as [es c2] end.
      destruct H as [H _]. pose proof (clearSocket_settles c2) as H'. destruct (clearSocket c2) as [es' c3]. destruct H' as [H' _].
      eapply (settles_trans c [_] c1); [by apply settles_same|]. by eapply settles_trans.
  - unfold handleMessage. destruct (connections c !! n) as [k|]; [|by apply settles_same].
    destruct (negb (listening k)); [by apply settles_same|]. destruct (negb (protocol c)); [by apply settles_same|].
    destruct (parseMessage _ _ _ _) as [message|e]; [|by apply settles_same].
    destruct (negb _ && _); [|by apply dispatchIncoming_settles].
    destruct (negb _); [apply settleError_settles|].
    match goal with |- context [dispatchIncoming message ?c1] => pose proof (dispatchIncoming_settles message c1 Hnd) as H;
      destruct (dispatchIncoming message c1) as [es c2] end.
    eapply (settles_trans c [_] _); [by apply settles_same|].
    eapply settles_trans; [|exact H]. apply settles_same; try done. by case_match.
  - unfold handshakeTimeout. destruct (connections c !! n) as [k|]; [|by apply settles_same].
    destruct (negb _ && _); [|by apply settles_same].
    match goal with |- context [settleError n ?e ?c1] => pose proof (settleError_settles n e c1) as H; destruct (settleError n e c1) as [es c2] end.
    eapply (settles_trans c [_] _); [|exact H]. by apply settles_same.
  - pose proof (close_settles code reason c) as H. destruct (close code reason c) as [es c']. by destruct H.
  - cbn in Hi. unfold sendRequest. destruct (socket c) as [n|]; [|by apply settles_same].
    destruct (isOpen c); cbn [negb andb] in *; [|by apply settles_same].
    destruct (protocol c); cbn [negb] in *; [done|by apply settles_same].
  - unfold requestTimeout. destruct (jm_get id (pendingRequests c)) as [p|] eqn:Hg; [|by apply settles_same].
    by eapply settle_one.
Qed.

(** ** Invariant *)

Record inv (s : client_system) : Prop := {
  i_perm : (requests s).*1 ≡ₚ (pendingRequests (cl s)).*1 ++ (settled s).*1;
  i_nodup : NoDup (requests s).*1;
  i_ids : forall id t, (id, t) ∈ requests s -> exists now uuid k,
            id = join "-" [command_text t; int_to_string now; uuid; int_to_string k] /\
            1 <= k <= default 0 (jm_get (command_text t) (requestPrefixCounter (cl s)));
  i_counter : forall t, 0 <= default 0 (jm_get (command_text t) (requestPrefixCounter (cl s)));
  i_pending : forall id p, (id, p) ∈ pendingRequests (cl s) -> exists t, (id, t) ∈ requests s /\
            expectedResponseTypes p = EXPECTED_RESPONSE_TYPES_BY_COMMAND t;
  i_settled : forall id m, (id, Ok m) ∈ settled s -> exists t, (id, t) ∈ requests s /\
            accepted (EXPECTED_RESPONSE_TYPES_BY_COMMAND t) id m;
  i_none : socket (cl s) = None -> pendingRequests (cl s) = []
}.

Lemma inv_pending_nodup s : inv s -> NoDup (pendingRequests (cl s)).*1.
Proof. intros [Hp Hn _ _ _ _ _]. rewrite Hp in Hn. by apply NoDup_app in Hn as [? _]. Qed.

Lemma settles_inv s es c :
  inv s -> settles (cl s) es c -> inv (ClientSystem c (requests s) (settled s ++ settlements es)).
Proof.
  intros [Hp Hn Hi Hc Hpe Hs Ho] [P S C O N]. split; cbn.
  - rewrite Hp, P, fmap_app. solve_Permutation.
  - done.
  - by rewrite C.
  - by rewrite C.
  - intros id p Hin. by apply Hpe, S.
  - intros id m [Hin|Hin]%elem_of_app; [by apply Hs|].
    destruct (O id m Hin) as (p & Hin' & Ha). destruct (Hpe id p Hin') as (t & ? & Heq). exists t. by rewrite <- Heq.
  - auto.
Qed.

(** Registering a request: its id is new. *)
Lemma register_inv s n t now uuid :
  inv s -> socket (cl s) = Some n ->
  let '(id, c) := nextRequestId (command_text t) now uuid (cl s) in
  inv (ClientSystem (promiseForRequest id (EXPECTED_RESPONSE_TYPES_BY_COMMAND t) c)
         (requests s ++ [(id, t)]) (settled s)).
Proof.
  intros [Hp Hn Hi Hc Hpe Hs Ho] Hsock. unfold nextRequestId.
  set (k := default 0 (jm_get (command_text t) (requestPrefixCounter (cl s))) + 1).
  set (id := join "-" [command_text t; int_to_string now; uuid; int_to_string k]).
  assert (Hk : 1 <= k) by (pose proof (Hc t); lia).
  assert (Hfresh : id ∉ (requests s).*1).
  { intros ([id' t'] & Heq & Hin)%list_elem_of_fmap. cbn in Heq. subst id'.
    destruct (Hi _ _ Hin) as (now' & uuid' & k' & Heq & Hk').
    apply request_id_inj in Heq as [-> Heq]; [|lia..]. unfold k in Heq. lia. }
  assert (Hpf : jm_get id (pendingRequests (cl s)) = None).
  { apply jm_get_None. intros Hin. apply Hfresh. rewrite Hp. apply elem_of_app. by left. }
  assert (Hcount : forall t', default 0 (jm_get (command_text t') (requestPrefixCounter (cl s))) <=
    default 0 (jm_get (command_text t') (jm_set (command_text t) k (requestPrefixCounter (cl s))))).
  { intros t'. rewrite jm_get_set. case_decide as Hd; [|lia]. rewrite Hd. cbn. lia. }
  split; cbn.
  - rewrite fmap_app, jm_set_fresh, fmap_app, Hp by done. cbn. solve_Permutation.
  - rewrite fmap_app. apply NoDup_app. split; [done|]. split; [|apply NoDup_singleton].
    intros x Hx Hx'%list_elem_of_singleton. by subst x.
  - intros id' t' [Hin|Hin]%elem_of_app.
    + destruct (Hi _ _ Hin) as (now' & uuid' & k' & Heq & Hk'). exists now', uuid', k'. split; [done|].
      specialize (Hcount t'). lia.
    + apply list_elem_of_singleton in Hin as [= -> ->]. exists now, uuid, k. split; [done|].
      rewrite jm_get_set_eq. cbn. lia.
  - intros t'. specialize (Hc t'). specialize (Hcount t'). lia.
  - rewrite jm_set_fresh by done. intros id' p [Hin|Hin]%elem_of_app.
    + destruct (Hpe _ _ Hin) as (t' & ? & ?). exists t'. split; [apply elem_of_app; by left|done].
    + apply list_elem_of_singleton in Hin as [= -> ->]. exists t. split; [apply elem_of_app; right; by left|done].
  - intros id' m Hin. destruct (Hs _ _ Hin) as (t' & ? & ?). exists t'. split; [apply elem_of_app; by left|done].
  - by rewrite Hsock.
Qed.

Lemma inv_step s ev : inv s -> inv (system_step ev s).
Proof.
  intros Hinv. unfold system_step.
  destruct (decide (issued ev (cl s) = [])) as [Hi|Hi].
  - pose proof (step_settles ev (cl s) Hi (inv_pending_nodup s Hinv)) as H.
    destruct (client_step ev (cl s)) as [es c]. rewrite Hi, app_nil_r. by apply settles_inv.
  - destruct ev as [| | | | | | | |t p now uuid failure|]; try done. cbn [issued client_step] in *.
    unfold sendRequest. destruct (socket (cl s)) as [n|] eqn:Hsock; [|done].
    destruct (isOpen (cl s)); [|done]. destruct (protocol (cl s)); [|done]. cbn [andb negb] in *.
    pose proof (register_inv s n t now uuid Hinv Hsock) as Hreg.
    destruct (nextRequestId (command_text t) now uuid (cl s)) as [id c1]. cbn [fst].
    set (c2 := promiseForRequest _ _ c1) in *. destruct failure as [message|].
    + pose proof (close_settles 1011 "send failed" c2) as Hclose. destruct (close 1011 "send failed" c2) as [es c3].
      destruct Hclose as [Hc Hnil].
      assert (Hcancel : settles c3 [] (cancelPendingRequest id c3)).
      { apply settles_same; try done. unfold cancelPendingRequest. cbn. by rewrite Hnil. }
      pose proof (settles_inv _ _ _ Hreg (settles_trans _ _ _ _ _ Hc Hcancel)) as H. by rewrite app_nil_r in H.
    + cbn [settlements omap list_omap]. by rewrite app_nil_r.
Qed.

Lemma reachable_inv s : client_reachable s -> inv s.
Proof.
  induction 1 as [|s ev _ IH _]; [|by apply inv_step].
  split; cbn; try done; try (constructor); intros *; try (by intros ?%elem_of_nil).
Qed.

(** ** Properties *)

(** C20. Every request has exactly one fate: request ids are never used twice, even
    when clock and random part repeat, and each request made is at every moment
    either still pending or settled, once and not both; without a connection
    nothing is pending. *)
Theorem requests_settle_once s :
  client_reachable s ->
  NoDup (requests s).*1 /\
  (requests s).*1 ≡ₚ (pendingRequests (cl s)).*1 ++ (settled s).*1 /\
  (socket (cl s) = None -> (requests s).*1 ≡ₚ (settled s).*1).
Proof.
  intros [Hp Hn _ _ _ _ Ho]%reachable_inv. split_and!; [done|done|].
  intros Hs. rewrite Hp, (Ho Hs). done.
Qed.

(** A request resolves only with its own reply: a message that carries its id, of
    the type its method waits for, with a well-formed payload; so no method ever
    throws its own [unexpected response]. *)
Theorem request_resolves_with_reply s m p id reply :
  client_reachable s -> (id, (request_of m).1.1) ∈ requests s -> p = request_of m ->
  (id, Ok reply) ∈ settled s ->
  env_requestId reply = Some id /\ env_type reply = p.2 /\
  isResponsePayloadValid (env_type reply) (env_payload reply) = true.
Proof.
  intros [_ Hn _ _ _ Hs _]%reachable_inv Hin -> Hset.
  destruct (Hs id reply Hset) as (t & Ht & (Hid & Htype & He & Ha & Hv)).
  assert (t = (request_of m).1.1) as ->.
  { apply list_elem_of_lookup in Hin as [i Hi], Ht as [j Hj].
    assert (Hij : i = j).
    { eapply (NoDup_lookup _ _ _ id Hn); rewrite list_lookup_fmap; [by rewrite Hi|by rewrite Hj]. }
    subst j. rewrite Hi in Hj. by injection Hj. }
  split_and!; [done| |done]. destruct m; cbn in Htype |- *; set_solver.
Qed.

(** The timer of an abandoned handshake ends a later connection: closing the client
    while it waits for the hello frame leaves the timer of that attempt armed, and when
    it fires it drops whatever socket the client then uses and rejects every request
    pending on it. *)
Theorem stale_handshake_timer c n k m :
  connections c !! n = Some k -> handshakeResolved k = false -> handshakeRejected k = false ->
  socket c = Some m -> m <> n ->
  let '(es, c') := client_step (HandshakeTimer n) c in
  socket c' = None /\ pendingRequests c' = [] /\
  forall id p, (id, p) ∈ pendingRequests c -> SettleRequest id (Throw (Error_ "connection closed")) ∈ es.
Proof.
  intros Hk Hres Hrej Hs Hne. cbn [client_step]. unfold handshakeTimeout. rewrite Hk, Hres, Hrej. cbn [negb andb].
  match goal with |- context [settleError n ?e ?c1] => pose proof (settleError_drops n e c1) as H end.
  edestruct (settleError n) as [es c2]. cbn [update_connection set_connections connections pendingRequests] in H.
  rewrite !list_lookup_alter_eq, Hk in H.
  destruct (H _ eq_refl Hres Hrej) as (? & ? & Hr). split_and!; [done|done|].
  intros id p Hin. right. by apply (Hr id p).
Qed.
End Runs.

(** ** Concrete runs *)

Definition demo_hello : jsval :=
  envelope_json (envelope 0 "hello" [("clientId", JStr "c"); ("requiresAuth", JBool false);
    ("inputEnabled", JBool true); ("globalInputDisabled", JBool false)] None)%string.

Definition demo_ack : Envelope := envelope 0 "ack" [] (Some "attach-0-u-1"%string).

Definition demo_parse (raw : string) : option jsval :=
  if String.eqb raw "hello" then Some demo_hello
  else if String.eqb raw "ack" then Some (envelope_json demo_ack) else None.

(** A first attempt is abandoned, a second one gets as far as two requests. *)
Definition demo_events : list client_event :=
  [ConnectReady; UserClose 1000 ""; ConnectReady; SocketOpened 1; FrameReceived 1 "hello" 0;
   Request attach [] 0 "u" None; Request heartbeat [] 0 "u" None; FrameReceived 1 "ack" 0].

Definition demo_run (evs : list client_event) : client_system :=
  fold_left (fun s ev => system_step demo_parse true 8000 ev s) evs (ClientSystem newClient [] []).

Lemma demo_reachable : client_reachable demo_parse true 8000 (demo_run demo_events).
Proof. unfold demo_run, demo_events. cbn [fold_left]. repeat (apply client_next; [|done]). apply client_init. Qed.

Lemma requests_settle_once_witness :
  (requests (demo_run demo_events)).*1 = ["attach-0-u-1"; "heartbeat-0-u-1"]%string /\
  (settled (demo_run demo_events)).*1 = ["attach-0-u-1"]%string /\
  NoDup (requests (demo_run demo_events)).*1.
Proof.
  split; [vm_compute; reflexivity|]. split; [vm_compute; reflexivity|].
  apply (requests_settle_once demo_parse true 8000), demo_reachable.
Defined.

Lemma request_resolves_with_reply_witness : env_requestId demo_ack = Some "attach-0-u-1"%string.
Proof.
  apply (request_resolves_with_reply demo_parse true 8000 (demo_run demo_events) (attachPane "%1" None)
    (request_of (attachPane "%1" None)) "attach-0-u-1" demo_ack demo_reachable).
  - vm_compute. left.
  - reflexivity.
  - vm_compute. left.
Defined.

Lemma stale_handshake_timer_witness :
  let c := cl (demo_run demo_events) in
  socket c = Some 1%nat /\ (pendingRequests c).*1 = ["heartbeat-0-u-1"%string] /\
  possible (HandshakeTimer 0) c /\
  socket (client_step demo_parse true 8000 (HandshakeTimer 0) c).2 = None.
Proof.
  cbv zeta. split; [vm_compute; reflexivity|]. split; [vm_compute; reflexivity|].
  split; [eexists; split; vm_compute; reflexivity|].
  pose proof (stale_handshake_timer demo_parse true 8000 (cl (demo_run demo_events)) 0
    (Connection CLOSED false false false true) 1) as H.
  destruct (client_step demo_parse true 8000 (HandshakeTimer 0) (cl (demo_run demo_events))) as [es c'].
  apply H; try (vm_compute; reflexivity). discriminate.
Defined.
