(* ===== verification/ClientServer.v ===== *)
(** * Client and server together

    What the client library and the bridge server make of each other's frames.  A frame
    is a text whose JSON value is the envelope one side built; [JSON.parse] is a
    parameter. *)

From S2P Require Import Prelude JsMap Protocol Engine Server Client.
Local Open Scope Z_scope.

(** ** Request ids are well formed *)

Definition printable (c : ascii) : bool := ((32 <=? code c) && (code c <=? 126))%N.

Lemma digit_printable c : is_digit c = true -> printable c = true /\ is_space c = false.
Proof. by destruct c as [[] [] [] [] [] [] [] []]. Qed.

Lemma digits_printable s : str_forallb is_digit s = true -> str_forallb printable s = true.
Proof. apply str_forallb_impl. intros c Hc. by apply digit_printable. Qed.

Lemma digits_last s : s <> EmptyString -> str_forallb is_digit s = true ->
  exists a d, s = (a +:+ String d "")%string /\ is_space d = false.
Proof.
  induction s as [|c s IH]; [done|]. intros _ Hs. cbn in Hs. apply andb_true_iff in Hs as [Hc Hs].
  destruct s as [|c' s'].
  - exists EmptyString, c. split; [done|]. by apply digit_printable.
  - destruct IH as (a & d & -> & Hd); [done|done|]. exists (String c a), d. by rewrite str_app_cons.
Qed.

Lemma request_id_well_formed t now uuid k :
  0 <= now -> 0 <= k -> str_forallb printable uuid = true ->
  let id := join "-" [command_text t; int_to_string now; uuid; int_to_string k] in
  str_len id <= REQUEST_ID_MAX_LENGTH -> request_id_ok id.
Proof.
  cbv zeta. intros Hnow Hk Hu Hlen. set (id := join _ _) in *.
  assert (Hdash : forall x, ("-" +:+ x)%string = String "-" x) by done.
  assert (Hid : id = (command_text t +:+ String "-" (int_to_string now +:+ String "-" (uuid +:+ String "-" (int_to_string k))))%string).
  { unfold id. by rewrite !join_cons2, !Hdash. }
  destruct (int_to_string_head k Hk) as (ck & rk & dk & Hck & _).
  destruct (digits_last (int_to_string k)) as (a & d & Ha & Hd); [by rewrite Hck|by apply int_to_string_digits|].
  assert (Hend : exists b, id = (b +:+ String d "")%string).
  { rewrite Hid, Ha. exists (command_text t +:+ String "-" (int_to_string now +:+ String "-" (uuid +:+ String "-" a)))%string.
    by rewrite <- !str_app_assoc, !str_app_cons, <- !str_app_assoc, !str_app_cons, <- !str_app_assoc, !str_app_cons. }
  destruct Hend as [b Hb].
  assert (Hstart : exists c r, id = String c r /\ is_space c = false).
  { rewrite Hid. destruct t; by eexists _, _. }
  destruct Hstart as (c & r & Hc & Hsp). split_and!.
  - rewrite Hc. unfold str_len. cbn. lia.
  - done.
  - by eapply trim_id.
  - rewrite Hid. change (str_forallb printable (command_text t +:+ String "-" (int_to_string now +:+ String "-" (uuid +:+ String "-" (int_to_string k))))%string = true).
    rewrite str_forallb_app. cbn [str_forallb]. rewrite str_forallb_app. cbn [str_forallb].
    rewrite str_forallb_app. cbn [str_forallb].
    rewrite Hu, (digits_printable (int_to_string now)), (digits_printable (int_to_string k)) by by apply int_to_string_digits.
    by destruct t.
Qed.

Section Frames.
Context (JSON_parse : string -> option jsval).

(** What the client sends the server understands: a request that is sent is one
    frame, and the server's parser, strict or not, reads it back as that request with
    the id whose promise the caller awaits. *)
Theorem client_request_understood c c' type p now uuid id es now' raw strictV1 :
  sendRequest type p now uuid None c = (Ok id, es, c') ->
  0 <= default 0 (jm_get (command_text type) (requestPrefixCounter c)) ->
  str_forallb printable uuid = true -> safe_timestamp now -> str_len id <= REQUEST_ID_MAX_LENGTH ->
  exists n request, es = [SocketSend n request] /\ env_requestId request = Some id /\
    env_type request = command_text type /\ env_payload request = p /\
    (utf8_byte_length raw <= MAX_V1_ENVELOPE_BYTES -> JSON_parse raw = Some (envelope_json request) ->
     parseMessage JSON_parse now' raw strictV1 = Ok request).
Proof.
  unfold sendRequest. intros Hsend Hk Hu Hnow Hlen. destruct (Client.socket c) as [n|]; [|done].
  destruct (isOpen c); [|done]. destruct (protocol c); [|done]. cbn [negb nextRequestId] in Hsend.
  injection Hsend as <- <- _. exists n. eexists. split; [done|]. cbn [envelope env_requestId env_type env_payload].
  split_and!; [done..|]. intros Hb HJ. apply envelope_parses; try done.
  - destruct type; by apply (bool_decide_unpack _).
  - intros r [= <-]. unfold safe_timestamp in Hnow. apply request_id_well_formed; [lia|lia|done|done].
Qed.

(** C22. A reply of the server settles the request it answers: an envelope with the id
    of a pending request resolves it with that envelope if its type is one the request
    waits for and its payload is well formed, rejects it with the protocol error if it
    is an error, and does nothing else. *)
Theorem reply_settles_request c n k id pending ts type p now raw strictV1 :
  connections c !! n = Some k -> listening k = true -> handshakeResolved k = true -> protocol c = true ->
  jm_get id (pendingRequests c) = Some pending ->
  type ∈ PROTOCOL_V1_ALLOWED_EVENT_TYPES -> type ∈ expectedResponseTypes pending ->
  isResponsePayloadValid type p = true ->
  request_id_ok id -> safe_timestamp ts -> utf8_byte_length raw <= MAX_V1_ENVELOPE_BYTES ->
  let reply := envelope ts type p (Some id) in
  JSON_parse raw = Some (envelope_json reply) ->
  handleMessage JSON_parse strictV1 n raw now c =
    ([SettleRequest id (if bool_decide (type ∈ ["error"; "auth_error"]%string)
                        then Throw (protocol_error type p) else Ok reply)],
     set_pending (jm_delete id (pendingRequests c)) c).
Proof.
  cbv zeta. intros Hk Hl Hr Hp Hg Hal Hexp Hv Hid Hts Hb HJ. unfold handleMessage. rewrite Hk, Hl, Hr, Hp. cbn [negb].
  rewrite (envelope_parses JSON_parse now ts raw type p (Some id) strictV1); try done; [|by intros r [= <-]].
  unfold dispatchIncoming. cbn [envelope env_requestId env_type env_payload andb]. rewrite Hg.
  unfold isUnknownResponseTypeAllowed. rewrite (proj2 (js_has_spec _ _)) by done. cbn [negb]. rewrite Hv. cbn [negb].
  destruct (String.eqb_spec type "error") as [->|He]; [by rewrite bool_decide_true by set_solver|].
  destruct (String.eqb_spec type "auth_error") as [->|Ha]; [by rewrite bool_decide_true by set_solver|].
  rewrite bool_decide_false by set_solver. done.
Qed.

(** Terminal output never reaches the client's listeners: the server sends output
    events without a request id, and the client drops every message without one once
    the handshake is done; so whatever the engine reports, the frame has no effect. *)
Theorem output_events_dropped c n k ev ts now raw strictV1 :
  connections c !! n = Some k -> listening k = true -> handshakeResolved k = true -> protocol c = true ->
  safe_timestamp ts -> utf8_byte_length raw <= MAX_V1_ENVELOPE_BYTES ->
  JSON_parse raw = Some (envelope_json (envelope ts "output" (event_fields ev) None)) ->
  handleMessage JSON_parse strictV1 n raw now c = ([], c).
Proof.
  intros Hk Hl Hr Hp Hts Hb HJ. unfold handleMessage. rewrite Hk, Hl, Hr, Hp. cbn [negb].
  rewrite (envelope_parses JSON_parse now ts raw "output" (event_fields ev) None strictV1); try done.
  - by apply (bool_decide_unpack _).
  - intros Hin. exfalso. revert Hin. by apply (bool_decide_unpack _).
Qed.
End Frames.

(** ** Concrete frames *)

Definition connected : client := cl (demo_run demo_events).

Definition one_frame (m : Envelope) (raw : string) : option jsval :=
  if String.eqb raw "frame" then Some (envelope_json m) else None.

Lemma client_request_understood_witness :
  let request := envelope 5 "input" [] (Some "input-5-u-1"%string) in
  parseMessage (one_frame request) 9 "frame" true = Ok request.
Proof.
  cbv zeta.
  destruct (client_request_understood (one_frame (envelope 5 "input" [] (Some "input-5-u-1"%string))) connected
    (sendRequest input [] 5 "u" None connected).2 input [] 5 "u" "input-5-u-1"
    [SocketSend 1 (envelope 5 "input" [] (Some "input-5-u-1"%string))] 9 "frame" true)
    as (n & request & Heq & _ & _ & _ & Hparse).
  - vm_compute. reflexivity.
  - vm_compute. discriminate.
  - reflexivity.
  - split; vm_compute; discriminate.
  - vm_compute. discriminate.
  - injection Heq as <- <-. apply Hparse; [vm_compute; discriminate|reflexivity].
Defined.

Definition beat_reply : Envelope := envelope 7 "heartbeat_ack" [] (Some "heartbeat-0-u-1"%string).

Lemma reply_settles_request_witness :
  (handleMessage (one_frame beat_reply) true 1 "frame" 9 connected).1 =
    [SettleRequest "heartbeat-0-u-1" (Ok beat_reply)].
Proof.
  rewrite (reply_settles_request (one_frame beat_reply) connected 1 (Connection OPEN true true false false)
    "heartbeat-0-u-1" (Pending ["heartbeat_ack"; "error"]%string) 7 "heartbeat_ack" [] 9 "frame" true);
    try (vm_compute; reflexivity).
  - apply (bool_decide_unpack _). vm_compute. exact I.
  - left.
  - split_and!; vm_compute; (discriminate || reflexivity).
  - split; vm_compute; discriminate.
  - vm_compute. discriminate.
Defined.

Definition some_output : BridgePaneEvent := Event Snapshot "%1" "hello" 1.

Lemma output_events_dropped_witness :
  let frame := envelope 7 "output" (event_fields some_output) None in
  handleMessage (one_frame frame) true 1 "frame" 9 connected = ([], connected).
Proof.
  cbv zeta.
  apply (output_events_dropped (one_frame (envelope 7 "output" (event_fields some_output) None)) connected 1
    (Connection OPEN true true false false) some_output 7); try (vm_compute; reflexivity).
  - split; vm_compute; discriminate.
  - vm_compute. discriminate.
Defined.
