(* ===== verification/ProxyAgents.v ===== *)
(** * Proxy agents ([packages/proxy-agent/src/proxy-agent-factory.ts],
    [proxy-settings.ts], [packages/proxy-runtime/src/proxy-runtime-controller.ts])

    The factory that hands out the agent a request goes through, and the controller
    that reports on its decisions.  Agents are objects of the packages the code
    depends on: a number (their identity) and an entry of the list [heap] that says
    with which class, proxy URL and options they were constructed.  [constructs] says
    whether a constructor returns; [has] which clean-up methods an agent has.  Settings
    objects are values: callers do not write to one after handing it over. *)

From S2P Require Import Prelude JsMap ProxyCore AgentCache.
Local Open Scope Z_scope.

(** ** Settings of this package *)

Module Settings.
Record NoProxyRule : Type := Rule {
  host : string;
  port : option Z;
  wildcardSubdomains : bool
}.

Record ProxySettings : Type := Settings {
  httpProxy : option string;
  httpsProxy : option string;
  allProxy : option string;
  noProxy : list NoProxyRule
}.

Definition toCoreNoProxyRule (rule : NoProxyRule) : ProxyCore.NoProxyRule :=
  ProxyCore.Rule (host rule) (port rule) (wildcardSubdomains rule).

Definition fromCoreNoProxyRule (rule : ProxyCore.NoProxyRule) : NoProxyRule :=
  Rule (rule_host rule) (rule_port rule) (matchSubdomains rule).

Definition toCoreProxySettings (settings : ProxySettings) : ProxyCore.ProxySettings :=
  ProxyCore.Settings (httpProxy settings) (httpsProxy settings) (allProxy settings)
    (toCoreNoProxyRule <$> noProxy settings).

Definition fromCoreProxySettings (settings : ProxyCore.ProxySettings) : ProxySettings :=
  Settings (ProxyCore.httpProxy settings) (ProxyCore.httpsProxy settings)
    (ProxyCore.allProxy settings) (fromCoreNoProxyRule <$> ProxyCore.noProxy settings).

Lemma to_from_core settings : toCoreProxySettings (fromCoreProxySettings settings) = settings.
Proof.
  destruct settings as [h s a rules]. unfold toCoreProxySettings, fromCoreProxySettings. simpl.
  rewrite <- list_fmap_compose. f_equal. rewrite <- (list_fmap_id rules) at 2.
  apply list_fmap_ext. by intros ? [] _.
Qed.
End Settings.
Import Settings.

(** ** Agents *)

Definition SOCKS_PROTOCOLS : list string := ["socks:"; "socks4:"; "socks4a:"; "socks5:"; "socks5h:"]%string.
Definition PAC_PROTOCOLS : list string := ["pac+http:"; "pac+https:"; "pac+file:"; "pac+data:"]%string.
Definition TARGET_PROTOCOLS : list string := ["http:"; "https:"; "ws:"; "wss:"]%string.

(** An options object: its own properties, in order. *)
Abbreviation options_object := (list (string * jsval)).

Definition PAC_SECURE_DEFAULTS : options_object := [("fallbackToDirect", JBool false)]%string.

Record ProxyAgentConstructorOptions : Type := AgentOptions {
  http : option options_object;
  https : option options_object;
  socks : option options_object;
  pac : option options_object;
  tls : option options_object
}.

Inductive agent_class : Type := HttpProxyAgent | HttpsProxyAgent | SocksProxyAgent | PacProxyAgent.

(** The arguments of a constructor call. *)
Record agent_spec : Type := Agent {
  class : agent_class;
  agent_proxyUrl : string;
  agent_options : option options_object
}.

Inductive agent_error : Type :=
| InvalidTargetUrlError (input : string)
| InvalidProxyUrlError (proxyUrl : string)
| UnsupportedProxyProtocolError (protocol : string)
| UnsupportedTargetProtocolError (protocol : string)
| ConstructorError (spec : agent_spec).

Definition toPacAgentOptions (options : option options_object) : options_object :=
  js_spread PAC_SECURE_DEFAULTS (default [] options).

Definition applyTlsOptions (agentOptions tlsOptions : option options_object) : options_object :=
  match agentOptions, tlsOptions with
  | None, None => []
  | None, Some t => t
  | Some a, None => a
  | Some a, Some t => js_spread a t
  end.

Definition applyTlsOptionsToSocksAgent (socksOptions _tlsOptions : option options_object) :
    option options_object := socksOptions.

Definition normalizeTargetProtocol (targetProtocol : string) : result agent_error string :=
  let normalized := to_lower (trim targetProtocol) in
  let protocol := if ends_with ":" normalized then normalized else (normalized +:+ ":")%string in
  if bool_decide (protocol ∈ TARGET_PROTOCOLS) then Ok protocol
  else Throw (UnsupportedTargetProtocolError protocol).

(** [string | URL]. *)
Inductive target : Type :=
| TargetString (input : string)
| TargetUrl (u : url).

Inductive cleanup : Type := call_destroy | call_dispose | call_close.

Record ProxyAgentResolution : Type := Resolution {
  agent : option nat;
  proxyUrl : option string;
  viaProxy : bool;
  fromCache : bool
}.

Definition direct_resolution : ProxyAgentResolution := Resolution None None false false.

(** [settings], the cache, the agents constructed so far and the agents given to
    [tryDisposeAgent] with the method it called. *)
Record ProxyAgentFactory : Type := Factory {
  settings : ProxySettings;
  agentOptions : ProxyAgentConstructorOptions;
  cache : BoundedAgentCache (K := string) (V := nat);
  heap : list agent_spec;
  disposed : list (nat * option cleanup)
}.

Section Factory.
Context (URL_parse : string -> option url) (isIP : string -> Z).
Context (constructs : agent_spec -> bool) (has : agent_spec -> cleanup -> bool).

Definition parseProtocol (proxyUrl : string) : result agent_error string :=
  let trimmed := trim proxyUrl in
  if is_empty trimmed then Throw (InvalidProxyUrlError proxyUrl)
  else
    match URL_parse trimmed with
    | Some u => Ok (to_lower (protocol u))
    | None => Throw (InvalidProxyUrlError proxyUrl)
    end.

Definition parseTargetUrl (t : target) : result agent_error url :=
  match t with
  | TargetUrl u => Ok u
  | TargetString input =>
      match URL_parse input with
      | Some u => Ok u
      | None => Throw (InvalidTargetUrlError input)
      end
  end.

(** [new Class(proxyUrl, options)]. *)
Definition construct (spec : agent_spec) : result agent_error agent_spec :=
  if constructs spec then Ok spec else Throw (ConstructorError spec).

Definition createProxyAgent (proxyUrl targetProtocol : string)
    (options : ProxyAgentConstructorOptions) : result agent_error agent_spec :=
  match normalizeTargetProtocol targetProtocol with
  | Throw e => Throw e
  | Ok normalizedTargetProtocol =>
      match parseProtocol proxyUrl with
      | Throw e => Throw e
      | Ok protocol =>
          if bool_decide (protocol ∈ SOCKS_PROTOCOLS) then
            construct (Agent SocksProxyAgent proxyUrl
              (applyTlsOptionsToSocksAgent (socks options) (tls options)))
          else if bool_decide (protocol ∈ PAC_PROTOCOLS) then
            construct (Agent PacProxyAgent proxyUrl
              (Some (applyTlsOptions (Some (toPacAgentOptions (pac options))) (tls options))))
          else if bool_decide (protocol = "http:"%string) || bool_decide (protocol = "https:"%string) then
            if bool_decide (normalizedTargetProtocol = "http:"%string) ||
               bool_decide (normalizedTargetProtocol = "ws:"%string)
            then construct (Agent HttpProxyAgent proxyUrl (Some (applyTlsOptions (http options) (tls options))))
            else construct (Agent HttpsProxyAgent proxyUrl (Some (applyTlsOptions (https options) (tls options))))
          else Throw (UnsupportedProxyProtocolError protocol)
      end
  end.

(** The method called; what it throws is ignored. *)
Definition tryDisposeAgent (spec : agent_spec) : option cleanup :=
  if has spec call_destroy then Some call_destroy
  else if has spec call_dispose then Some call_dispose
  else if has spec call_close then Some call_close
  else None.

(** [onEvict] on each evicted agent. *)
Definition dispose_agents (heap : list agent_spec) (ids : list nat) : list (nat * option cleanup) :=
  (fun i => (i, heap !! i ≫= tryDisposeAgent)) <$> ids.

Definition agent_loadProxySettings (env : ProxyEnvironment) : ProxySettings :=
  fromCoreProxySettings (ProxyCore.loadProxySettings URL_parse isIP env).

Definition agent_resolveProxyForUrl (u : url) (settings : ProxySettings) : option string :=
  resolve_for_url u (toCoreProxySettings settings).

Definition agent_shouldBypassProxy (u : url) (rules : list NoProxyRule) : bool :=
  ProxyCore.shouldBypassProxy u (toCoreNoProxyRule <$> rules).

Definition newFactory (optSettings : option ProxySettings) (env : ProxyEnvironment)
    (maxCacheEntries : option num) (agentOptions : ProxyAgentConstructorOptions) : ProxyAgentFactory :=
  Factory (default (agent_loadProxySettings env) optSettings) agentOptions
    (newCache (normalizeCacheEntries maxCacheEntries)) [] [].

Definition cacheKey (proxyUrl targetProtocol : string) : string :=
  (proxyUrl +:+ "|" +:+ targetProtocol)%string.

Definition resolve_url (targetUrl : url) (f : ProxyAgentFactory) :
    result agent_error ProxyAgentResolution * ProxyAgentFactory :=
  match agent_resolveProxyForUrl targetUrl (settings f) with
  | None => (Ok direct_resolution, f)
  | Some proxyUrl =>
      if is_empty proxyUrl then (Ok direct_resolution, f)
      else
        let key := cacheKey proxyUrl (protocol targetUrl) in
        let (cached, c) := get key (cache f) in
        let f := Factory (settings f) (agentOptions f) c (heap f) (disposed f) in
        match cached with
        | Some id => (Ok (Resolution (Some id) (Some proxyUrl) true true), f)
        | None =>
            match createProxyAgent proxyUrl (protocol targetUrl) (agentOptions f) with
            | Throw e => (Throw e, f)
            | Ok created =>
                let id := length (heap f) in
                let heap' := heap f ++ [created] in
                let (evicted, c) := set key id (cache f) in
                (Ok (Resolution (Some id) (Some proxyUrl) true false),
                 Factory (settings f) (agentOptions f) c heap'
                   (disposed f ++ dispose_agents heap' evicted))
            end
        end
  end.

Definition resolve (t : target) (f : ProxyAgentFactory) :
    result agent_error ProxyAgentResolution * ProxyAgentFactory :=
  match parseTargetUrl t with
  | Throw e => (Throw e, f)
  | Ok targetUrl => resolve_url targetUrl f
  end.

(** [destroy], also called [clear] and [dispose]. *)
Definition destroy (f : ProxyAgentFactory) : ProxyAgentFactory :=
  let (evicted, c) := clear (cache f) in
  Factory (settings f) (agentOptions f) c (heap f) (disposed f ++ dispose_agents (heap f) evicted).

Definition updateSettings (settings : ProxySettings) (f : ProxyAgentFactory) : ProxyAgentFactory :=
  destroy (Factory settings (agentOptions f) (cache f) (heap f) (disposed f)).

Definition reloadFromEnvironment (env : ProxyEnvironment) (f : ProxyAgentFactory) :
    ProxySettings * ProxyAgentFactory :=
  let loaded := agent_loadProxySettings env in
  (loaded, destroy (Factory loaded (agentOptions f) (cache f) (heap f) (disposed f))).

(** ** Runs *)

Inductive factory_op : Type :=
| OpResolve (t : target)
| OpDestroy
| OpUpdate (settings : ProxySettings)
| OpReload (env : ProxyEnvironment).

Definition factory_step (o : factory_op) (f : ProxyAgentFactory) : ProxyAgentFactory :=
  match o with
  | OpResolve t => (resolve t f).2
  | OpDestroy => destroy f
  | OpUpdate s => updateSettings s f
  | OpReload env => (reloadFromEnvironment env f).2
  end.
End Factory.

(** ** The runtime controller *)

Module Runtime.
Inductive ProxyRuntimeDecisionMode : Type := mode_proxy | mode_direct.

Inductive ProxyRuntimeDecisionReason : Type :=
| proxy_configured
| no_proxy_match
| proxy_not_configured.

Record ProxyRuntimeDecisionMetadata : Type := Metadata {
  m_target : string;
  m_protocol : string;
  m_mode : ProxyRuntimeDecisionMode;
  m_reason : ProxyRuntimeDecisionReason;
  m_matchedNoProxy : bool;
  m_proxyUrl : option string;
  m_viaProxy : bool;
  m_fromCache : bool
}.

Record ProxyRuntimeStats : Type := Stats {
  resolveCount : Z;
  proxiedCount : Z;
  directCount : Z;
  noProxyBypassCount : Z;
  cacheHitCount : Z
}.

Record ProxyRuntimeController : Type := Controller {
  c_settings : ProxySettings;
  factory : ProxyAgentFactory;
  c_disposed : bool;
  stats : ProxyRuntimeStats
}.

Definition createInitialStats : ProxyRuntimeStats := Stats 0 0 0 0 0.

Definition recordDecision (resolution : ProxyAgentResolution) (matchedNoProxy : bool)
    (s : ProxyRuntimeStats) : ProxyRuntimeStats :=
  Stats (resolveCount s + 1)
    (if viaProxy resolution then proxiedCount s + 1 else proxiedCount s)
    (if viaProxy resolution then directCount s else directCount s + 1)
    (if viaProxy resolution then noProxyBypassCount s
     else if matchedNoProxy then noProxyBypassCount s + 1 else noProxyBypassCount s)
    (if fromCache resolution then cacheHitCount s + 1 else cacheHitCount s).

Section Controller.
Context (URL_parse : string -> option url) (isIP : string -> Z).
Context (constructs : agent_spec -> bool) (has : agent_spec -> cleanup -> bool).

Definition newController (optSettings : option ProxySettings) (env : ProxyEnvironment)
    (maxCacheEntries : option num) (agentOptions : ProxyAgentConstructorOptions) : ProxyRuntimeController :=
  let settings := default (agent_loadProxySettings URL_parse isIP env) optSettings in
  Controller settings (newFactory URL_parse isIP (Some settings) env maxCacheEntries agentOptions)
    false createInitialStats.

Definition activate (c : ProxyRuntimeController) : ProxyRuntimeController :=
  Controller (c_settings c) (factory c) false (stats c).

Definition controller_resolve (t : target) (c : ProxyRuntimeController) :
    result agent_error (ProxyAgentResolution * ProxyRuntimeDecisionMetadata) * ProxyRuntimeController :=
  let c := activate c in
  match parseTargetUrl URL_parse t with
  | Throw e => (Throw e, c)
  | Ok targetUrl =>
      let matchedNoProxy := agent_shouldBypassProxy targetUrl (noProxy (c_settings c)) in
      let (answer, f) := resolve URL_parse constructs has (TargetUrl targetUrl) (factory c) in
      let c := Controller (c_settings c) f (c_disposed c) (stats c) in
      match answer with
      | Throw e => (Throw e, c)
      | Ok resolution =>
          let mode := if viaProxy resolution then mode_proxy else mode_direct in
          let reason :=
            if viaProxy resolution then proxy_configured
            else if matchedNoProxy then no_proxy_match
            else proxy_not_configured in
          (Ok (resolution,
               Metadata (href targetUrl) (protocol targetUrl) mode reason matchedNoProxy
                 (proxyUrl resolution) (viaProxy resolution) (fromCache resolution)),
           Controller (c_settings c) f (c_disposed c) (recordDecision resolution matchedNoProxy (stats c)))
      end
  end.

Definition controller_updateSettings (settings : ProxySettings) (c : ProxyRuntimeController) :
    ProxyRuntimeController :=
  let c := activate c in
  Controller settings (updateSettings has settings (factory c)) (c_disposed c) (stats c).

Definition controller_reload (env : ProxyEnvironment) (c : ProxyRuntimeController) :
    ProxySettings * ProxyRuntimeController :=
  let c := activate c in
  let (loaded, f) := reloadFromEnvironment URL_parse isIP has env (factory c) in
  (loaded, Controller loaded f (c_disposed c) (stats c)).

Definition controller_clear (c : ProxyRuntimeController) : ProxyRuntimeController :=
  Controller (c_settings c) (destroy has (factory c)) (c_disposed c) (stats c).

Definition controller_destroy (c : ProxyRuntimeController) : ProxyRuntimeController :=
  Controller (c_settings c) (destroy has (factory c)) true (stats c).

Record ProxyRuntimeSnapshot : Type := Snapshot {
  s_settings : ProxySettings;
  s_cacheSize : Z;
  s_disposed : bool;
  s_stats : ProxyRuntimeStats
}.

Definition getSnapshot (c : ProxyRuntimeController) : ProxyRuntimeSnapshot :=
  Snapshot (c_settings c) (size (cache (factory c))) (c_disposed c) (stats c).

Inductive controller_op : Type :=
| DoResolve (t : target)
| DoUpdate (settings : ProxySettings)
| DoReload (env : ProxyEnvironment)
| DoClear
| DoDestroy.

Definition controller_step (o : controller_op) (c : ProxyRuntimeController) : ProxyRuntimeController :=
  match o with
  | DoResolve t => (controller_resolve t c).2
  | DoUpdate s => controller_updateSettings s c
  | DoReload env => (controller_reload env c).2
  | DoClear => controller_clear c
  | DoDestroy => controller_destroy c
  end.

(** The controller and its factory work from the same settings, and the counters add up. *)
Definition controller_ok (c : ProxyRuntimeController) : Prop :=
  c_settings c = settings (factory c) /\
  resolveCount (stats c) = proxiedCount (stats c) + directCount (stats c) /\
  0 <= noProxyBypassCount (stats c) <= directCount (stats c) /\
  0 <= cacheHitCount (stats c) <= proxiedCount (stats c).

Lemma resolve_url_settings u f : settings (resolve_url URL_parse constructs has u f).2 = settings f.
Proof.
  unfold resolve_url. destruct (agent_resolveProxyForUrl u (settings f)) as [p|]; [|done].
  destruct (is_empty p); [done|]. destruct (get _ _) as [[id|] c]; [done|].
  destruct (createProxyAgent _ _ _ _) as [a|e]; [|done]. by destruct (set _ _ _).
Qed.

(** A cached agent is an agent. *)
Lemma resolve_url_cached u f r :
  (resolve_url URL_parse constructs has u f).1 = Ok r ->
  viaProxy r = bool_decide (is_Some (agent r)) /\ (fromCache r = true -> viaProxy r = true) /\
  (viaProxy r = true <-> exists p, agent_resolveProxyForUrl u (settings f) = Some p /\ is_empty p = false).
Proof.
  unfold resolve_url. destruct (agent_resolveProxyForUrl u (settings f)) as [p|].
  2:{ intros [= <-]. split_and!; naive_solver. }
  destruct (is_empty p) eqn:Hp; [intros [= <-]; split_and!; naive_solver|].
  destruct (get _ _) as [[id|] c]; [intros [= <-]; split_and!; naive_solver|].
  destruct (createProxyAgent _ _ _ _) as [a|e]; [|done]. destruct (set _ _ _).
  intros [= <-]. split_and!; naive_solver.
Qed.

Lemma controller_step_ok o c : controller_ok c -> controller_ok (controller_step o c).
Proof.
  intros (Hs & Hc & Hb & Hh). destruct o as [t|s|env| |]; cbn [controller_step].
  - unfold controller_resolve. destruct (parseTargetUrl URL_parse t) as [u|e] eqn:Hu; [|done].
    cbn [resolve parseTargetUrl activate factory c_settings c_disposed stats].
    pose proof (resolve_url_settings u (factory c)) as Hset.
    pose proof (resolve_url_cached u (factory c)) as Hcached.
    destruct (resolve_url _ _ _ u (factory c)) as [[r|e] f]; cbn [fst snd] in *.
    + specialize (Hcached r eq_refl) as (_ & Hcached & _).
      unfold controller_ok. cbn. rewrite Hset. split; [done|].
      destruct (agent_shouldBypassProxy u (noProxy (c_settings c))), (viaProxy r), (fromCache r); try lia;
        by discriminate Hcached.
    + unfold controller_ok. cbn. by rewrite Hset.
  - by refine (conj _ (conj Hc (conj Hb Hh))).
  - by refine (conj _ (conj Hc (conj Hb Hh))).
  - by refine (conj _ (conj Hc (conj Hb Hh))).
  - by refine (conj _ (conj Hc (conj Hb Hh))).
Qed.

Lemma controller_run_ok os c : controller_ok c -> controller_ok (foldl (fun c o => controller_step o c) c os).
Proof. revert c. induction os as [|o os IH]; intros c Hc; [done|]. by apply IH, controller_step_ok. Qed.

(** The controller explains its decisions truthfully, after any calls: the counters
    of resolved targets add up, and the reason of a decision is the reason the factory
    had - an agent because a proxy is configured, none because a rule excludes the
    target, or none because no proxy is set. *)
Theorem decision_reason_true optSettings env n opts os t r m :
  let c := foldl (fun c o => controller_step o c) (newController optSettings env n opts) os in
  let st := stats c in
  (controller_resolve t c).1 = Ok (r, m) ->
  resolveCount st = proxiedCount st + directCount st /\
  0 <= noProxyBypassCount st <= directCount st /\ 0 <= cacheHitCount st <= proxiedCount st /\
  exists u, parseTargetUrl URL_parse t = Ok u /\ m_matchedNoProxy m = agent_shouldBypassProxy u (noProxy (c_settings c)) /\
  match m_reason m with
  | proxy_configured =>
      m_mode m = mode_proxy /\ is_Some (agent r) /\ m_matchedNoProxy m = false
  | no_proxy_match =>
      m_mode m = mode_direct /\ agent r = None /\ m_matchedNoProxy m = true
  | proxy_not_configured =>
      m_mode m = mode_direct /\ agent r = None /\ m_matchedNoProxy m = false /\
      default EmptyString (agent_resolveProxyForUrl u (c_settings c)) = EmptyString
  end.
Proof.
  cbv zeta. set (c := foldl _ _ os).
  assert (Hok : controller_ok c).
  { apply controller_run_ok. split_and!; simpl; lia || done. }
  destruct Hok as (Hs & Hc & Hb & Hh). unfold controller_resolve.
  destruct (parseTargetUrl URL_parse t) as [u|e]; [|done]. cbn [c_settings factory activate stats c_disposed].
  pose proof (resolve_url_cached u (factory c)) as Hr. cbn [resolve parseTargetUrl].
  destruct (resolve_url _ _ _ u (factory c)) as [[r'|e] f]; cbn [fst] in *; [|done].
  intros [= <- <-]. specialize (Hr r' eq_refl) as (Hagent & _ & Hproxy).
  split_and!; try lia. exists u. split_and!; [done..|]. simpl.
  assert (Hbypass : agent_shouldBypassProxy u (noProxy (c_settings c)) = true ->
    agent_resolveProxyForUrl u (c_settings c) = None).
  { unfold agent_shouldBypassProxy, agent_resolveProxyForUrl, resolve_for_url. simpl. by intros ->. }
  rewrite <- Hs in Hproxy. destruct (viaProxy r').
  - split_and!; [done|by eapply bool_decide_eq_true|].
    destruct (proj1 Hproxy eq_refl) as (p & Hp & _).
    destruct (agent_shouldBypassProxy _ _); [|done]. rewrite Hbypass in Hp by done. done.
  - assert (Hnone : agent r' = None).
    { destruct (agent r'); [|done]. by rewrite bool_decide_true in Hagent by done. }
    destruct (agent_shouldBypassProxy _ _); split_and!; try done.
    destruct (agent_resolveProxyForUrl u (c_settings c)) as [[|ch p]|]; [done| |done].
    discriminate (proj2 Hproxy ltac:(by eexists)).
Qed.
End Controller.
End Runtime.

(** ** Lemmas *)

Definition no_bar (s : string) : Prop := index_of "|" s = None.

Lemma cacheKey_inj p q a b : no_bar a -> no_bar b -> cacheKey p a = cacheKey q b -> p = q /\ a = b.
Proof.
  unfold no_bar, cacheKey. intros Ha Hb H%(f_equal String.rev).
  rewrite !rev_app in H. change (String.rev "|") with "|"%string in H.
  rewrite <- !str_app_assoc, !str_app_cons, !str_app_nil_l in H.
  assert (Hrev : forall s, index_of "|" s = None -> index_of "|" (String.rev s) = None).
  { clear. intros s. rewrite !index_of_None_forallb. induction s as [|c s IH]; [done|].
    cbn [str_forallb]. intros [Hc Hs]%andb_true_iff.
    rewrite rev_cons, str_forallb_app, (IH Hs). cbn [str_forallb]. by rewrite Hc. }
  apply sep_inj in H as [H1 H2]; [|by apply Hrev..].
  split; [by rewrite <- (rev_involutive p), <- (rev_involutive q), H2|
          by rewrite <- (rev_involutive a), <- (rev_involutive b), H1].
Qed.

Section Invariant.
Context (URL_parse : string -> option url) (isIP : string -> Z).
Context (constructs : agent_spec -> bool) (has : agent_spec -> cleanup -> bool).
(** A scheme is made of letters, digits and [+-.]. *)
Context (scheme_chars : forall s u, URL_parse s = Some u -> no_bar (protocol u)).
Implicit Types (f : ProxyAgentFactory).

Local Abbreviation create := (createProxyAgent URL_parse constructs).
Local Abbreviation step := (factory_step URL_parse isIP constructs has).

(** The agent cached under a key is one made for that key. *)
Definition entry_fits f (e : string * nat) : Prop :=
  exists proxyUrl targetProtocol spec,
    e.1 = cacheKey proxyUrl targetProtocol /\ no_bar targetProtocol /\
    heap f !! e.2 = Some spec /\ create proxyUrl targetProtocol (agentOptions f) = Ok spec.

Record factory_inv f : Prop := {
  inv_bound : 0 <= maxEntries (cache f);
  inv_keys : jm_wf (store (cache f));
  inv_fits : Forall (entry_fits f) (store (cache f));
  inv_agents : maxEntries (cache f) <> 0 ->
    (disposed f).*1 ++ (store (cache f)).*2 ≡ₚ seq 0 (length (heap f));
  inv_disabled : maxEntries (cache f) = 0 -> store (cache f) = [] /\ disposed f = []
}.

Lemma dispose_agents_ids heap ids : (dispose_agents has heap ids).*1 = ids.
Proof. unfold dispose_agents. rewrite <- list_fmap_compose. apply list_fmap_id. Qed.

Lemma entry_fits_mono f f' e : agentOptions f = agentOptions f' ->
  (exists more, heap f' = heap f ++ more) -> entry_fits f e -> entry_fits f' e.
Proof.
  intros Ho [more Hh] (p & a & spec & ? & ? & Hl & Hc). exists p, a, spec. rewrite <- Ho, Hh.
  split_and!; try done. by apply lookup_app_l_Some.
Qed.

(** Every operation leaves the cache after one cache operation [o], with the values
    it evicts disposed of. *)
Lemma cache_step_inv f o newSettings more :
  factory_inv f ->
  accepted o (cache f) = (if maxEntries (cache f) =? 0 then [] else seq (length (heap f)) (length more)) ->
  Forall (entry_fits (Factory newSettings (agentOptions f) (cache f) (heap f ++ more) []))
    match o with CacheSet k v => [(k, v)] | _ => [] end ->
  factory_inv (Factory newSettings (agentOptions f) (cache_step o (cache f)).2 (heap f ++ more)
    (disposed f ++ dispose_agents has (heap f ++ more) (cache_step o (cache f)).1)).
Proof.
  intros [Hb Hk Hf Ha Hd] Hacc Hnew.
  destruct (step_conserves o (cache f) Hb Hk) as (Hp & Hk' & Hm).
  split; simpl; rewrite ?Hm; try done.
  - apply Forall_forall. intros e [He|(k & v & -> & ->)]%step_entries; [| |done..].
    + eapply entry_fits_mono; [| |by eapply Forall_forall in Hf]; [done|by exists more].
    + exact (proj1 (Forall_singleton _ _) Hnew).
  - intros H0. rewrite Hacc in Hp. destruct (Z.eqb_spec (maxEntries (cache f)) 0); [done|].
    rewrite fmap_app, dispose_agents_ids, <- app_assoc, Hp, length_app, seq_app, <- (Ha H0). simpl.
    rewrite <- app_assoc. f_equiv. apply Permutation_app_comm.
  - intros H0. destruct (Hd H0) as [Hs Hdis]. rewrite Hacc, H0, Hs in Hp. simpl in Hp.
    apply Permutation_nil_r in Hp. apply app_eq_nil in Hp as [Hp1 Hp2].
    rewrite Hp1, Hdis. split; [|done]. by apply fmap_nil_inv in Hp2.
Qed.

Lemma resolve_url_inv u f : no_bar (protocol u) -> factory_inv f ->
  factory_inv (resolve_url URL_parse constructs has u f).2.
Proof.
  intros Hu Hf. unfold resolve_url.
  destruct (agent_resolveProxyForUrl u (settings f)) as [p|]; [|done].
  destruct (is_empty p); [done|].
  set (key := cacheKey p (protocol u)).
  pose proof (cache_step_inv f (CacheGet key) (settings f) [] Hf) as Hget.
  cbn [cache_step fst snd] in Hget. rewrite !app_nil_r in Hget. simpl in Hget.
  specialize (Hget ltac:(by case_match) ltac:(constructor)).
  destruct (get key (cache f)) as [[id|] c] eqn:Hg; simpl in Hget; [done|].
  assert (Hmiss : jm_get key (store (cache f)) = None /\ c = cache f).
  { rewrite get_spec in Hg. destruct (jm_get key _); by simplify_eq. }
  destruct Hmiss as [Hmiss ->]. simpl.
  destruct (create p (protocol u) (agentOptions f)) as [created|e] eqn:Hc; [|done].
  pose proof (cache_step_inv f (CacheSet key (length (heap f))) (settings f) [created] Hf) as Hset.
  cbn [cache_step] in Hset. destruct (set key (length (heap f)) (cache f)) as [evicted c'].
  simpl in Hset. apply Hset.
  - rewrite Hmiss. case_match; [done|]. by rewrite decide_False.
  - apply Forall_singleton. exists p, (protocol u), created. split_and!; try done. simpl.
    by rewrite lookup_app_r, Nat.sub_diag.
Qed.

Lemma destroy_inv f s : factory_inv f ->
  factory_inv (destroy has (Factory s (agentOptions f) (cache f) (heap f) (disposed f))).
Proof.
  intros Hf. pose proof (cache_step_inv f CacheClear s [] Hf) as H. simpl in H.
  rewrite app_nil_r in H. apply H; [by case_match|constructor].
Qed.

(** Operations on targets whose scheme is well formed. *)
Definition op_ok (o : factory_op) : Prop :=
  match o with
  | OpResolve (TargetUrl u) => no_bar (protocol u)
  | _ => True
  end.

Lemma parse_no_bar t u : op_ok (OpResolve t) -> parseTargetUrl URL_parse t = Ok u -> no_bar (protocol u).
Proof.
  destruct t as [s|u']; simpl; [|naive_solver]. intros _. destruct (URL_parse s) as [u'|] eqn:Hp; [|done].
  intros [= ->]. by eapply scheme_chars.
Qed.

Lemma step_inv o f : op_ok o -> factory_inv f -> factory_inv (step o f).
Proof.
  intros Ho Hf. destruct o as [t| |s|env]; cbn [factory_step].
  - unfold resolve. destruct (parseTargetUrl URL_parse t) as [u|e] eqn:Hu; [|done].
    apply resolve_url_inv; [by eapply parse_no_bar|done].
  - by apply (destroy_inv f (settings f)) in Hf; destruct f.
  - by apply destroy_inv.
  - by apply destroy_inv.
Qed.

Lemma newFactory_inv s env n opts : factory_inv (newFactory URL_parse isIP s env n opts).
Proof.
  pose proof (normalizeCacheEntries_bounds n). split; simpl; try done; [lia|constructor].
Qed.

Lemma run_inv os f : Forall op_ok os -> factory_inv f -> factory_inv (foldl (fun f o => step o f) f os).
Proof. intros Hos. revert f. induction Hos as [|o os Ho Hos IH]; intros f Hf; [done|]. by apply IH, step_inv. Qed.

Lemma live f id : factory_inv f -> id ∈ (store (cache f)).*2 -> id ∉ (disposed f).*1.
Proof.
  intros [_ _ _ Ha Hd] Hin Hdis. destruct (decide (maxEntries (cache f) = 0)) as [H0|H0].
  - destruct (Hd H0) as [Hs _]. rewrite Hs in Hin. by apply elem_of_nil in Hin.
  - pose proof (NoDup_seq 0 (length (heap f))) as Hnd. rewrite <- (Ha H0) in Hnd.
    apply NoDup_app in Hnd as (_ & Hnd & _). by apply (Hnd id).
Qed.

Lemma get_live k id c f : factory_inv f -> get k (cache f) = (Some id, c) ->
  (k, id) ∈ store (cache f) /\ id ∉ (disposed f).*1.
Proof.
  intros Hf Hk%get_cached. split; [done|]. apply live; [done|]. apply list_elem_of_fmap. by exists (k, id).
Qed.

(** What [resolve] answers for a URL, in terms of the settings alone. *)
Definition expected (u : url) f (r : result agent_error ProxyAgentResolution) f' : Prop :=
  match agent_resolveProxyForUrl u (settings f) with
  | None | Some EmptyString => r = Ok direct_resolution
  | Some proxyUrl =>
      match create proxyUrl (protocol u) (agentOptions f), r with
      | Throw e, _ => r = Throw e
      | Ok spec, Ok (Resolution (Some id) (Some proxyUrl') true _) =>
          proxyUrl' = proxyUrl /\ heap f' !! id = Some spec /\ id ∉ (disposed f').*1
      | Ok _, _ => False
      end
  end.

Lemma resolve_url_expected u f : no_bar (protocol u) -> factory_inv f ->
  let (r, f') := resolve_url URL_parse constructs has u f in expected u f r f'.
Proof.
  intros Hu Hf. pose proof (resolve_url_inv u f Hu Hf) as Hf'. unfold resolve_url, expected in *.
  destruct (agent_resolveProxyForUrl u (settings f)) as [p|]; [|done].
  destruct p as [|ch p]; [done|]. cbn [is_empty] in *. set (pu := String ch p) in *.
  destruct (get (cacheKey pu (protocol u)) (cache f)) as [[id|] c] eqn:Hg.
  - destruct (get_live _ _ _ f Hf Hg) as [Hin Hlive].
    destruct (proj1 (Forall_forall _ _) (inv_fits f Hf) _ Hin) as (q & a & spec & Hk & Ha & Hl & Hc).
    apply cacheKey_inj in Hk as [<- <-]; [|done..]. by rewrite Hc.
  - cbn [settings agentOptions cache heap disposed] in *.
    destruct (create pu (protocol u) (agentOptions f)) as [created|e]; [|done].
    destruct (set _ (length (heap f)) c) as [evicted c'] eqn:Hs. cbn [snd] in Hf'.
    split_and!; [done|simpl; by rewrite lookup_app_r, Nat.sub_diag|].
    destruct (decide (maxEntries c = 0)) as [H0|H0].
    + unfold set in Hs. rewrite H0 in Hs. injection Hs as <- <-.
      destruct (inv_disabled _ Hf' H0) as [_ ->]. apply not_elem_of_nil.
    + apply (live _ _ Hf'). simpl. apply list_elem_of_fmap. eexists (_, _). split; [done|].
      assert (Hc : maxEntries c = maxEntries (cache f) /\ jm_wf (store c)).
      { destruct Hf as [Hb Hk _ _ _]. rewrite get_spec in Hg.
        destruct (jm_get _ (store (cache f))); simplify_eq. by simpl. }
      destruct Hc as [Hm Hk]. pose proof (inv_bound f Hf).
      pose proof (set_cached (cacheKey pu (protocol u)) (length (heap f)) c ltac:(lia) Hk) as Hin.
      by rewrite Hs in Hin.
Qed.
(** ** Which agent a route needs

    The reference: a table of schemes, and where each constructor option comes from. *)

(** The scheme of a proxy URL, and the target scheme a text stands for. *)
Definition proxy_scheme (proxyUrl : string) : option string :=
  if is_empty (trim proxyUrl) then None else (fun u => to_lower (protocol u)) <$> URL_parse (trim proxyUrl).

Definition target_scheme (written t : string) : Prop :=
  t ∈ ["http:"; "https:"; "ws:"; "wss:"]%string /\
  (to_lower (trim written) = t \/ (to_lower (trim written) +:+ ":")%string = t).

Definition socks_schemes : list string := ["socks:"; "socks4:"; "socks4a:"; "socks5:"; "socks5h:"]%string.
Definition pac_schemes : list string := ["pac+http:"; "pac+https:"; "pac+file:"; "pac+data:"]%string.

(** A tunnel for secure targets, plain forwarding for the others. *)
Definition class_for (p t : string) (c : agent_class) : Prop :=
  match c with
  | SocksProxyAgent => p ∈ socks_schemes
  | PacProxyAgent => p ∈ pac_schemes
  | HttpProxyAgent => p ∈ ["http:"; "https:"]%string /\ t ∈ ["http:"; "ws:"]%string
  | HttpsProxyAgent => p ∈ ["http:"; "https:"]%string /\ t ∈ ["https:"; "wss:"]%string
  end.

Definition or_else {A} (a b : option A) : option A := match a with Some v => Some v | None => b end.

(** The value of a constructor option: a shared TLS option prevails over the one of the
    class, except that SOCKS agents get no TLS options; a PAC agent does not fall back to
    a direct connection unless it is told to. *)
Definition wanted_option (opts : ProxyAgentConstructorOptions) (c : agent_class) (k : string) : option jsval :=
  let given o := jm_get k (default [] o) in
  match c with
  | HttpProxyAgent => or_else (given (tls opts)) (given (http opts))
  | HttpsProxyAgent => or_else (given (tls opts)) (given (https opts))
  | SocksProxyAgent => given (socks opts)
  | PacProxyAgent =>
      or_else (given (tls opts)) (or_else (given (pac opts))
        (if decide (k = "fallbackToDirect"%string) then Some (JBool false) else None))
  end.

Record suits (proxyUrl written : string) (opts : ProxyAgentConstructorOptions) (spec : agent_spec) : Prop := {
  su_url : agent_proxyUrl spec = proxyUrl;
  su_class : exists p t, proxy_scheme proxyUrl = Some p /\ target_scheme written t /\ class_for p t (class spec);
  su_options : forall k, jm_get k (default [] (agent_options spec)) = wanted_option opts (class spec) k
}.

(** When there is no agent. *)
Definition refused (proxyUrl written : string) (opts : ProxyAgentConstructorOptions) (e : agent_error) : Prop :=
  match e with
  | UnsupportedTargetProtocolError _ => forall t, ~ target_scheme written t
  | InvalidProxyUrlError p => p = proxyUrl /\ proxy_scheme proxyUrl = None
  | UnsupportedProxyProtocolError p =>
      proxy_scheme proxyUrl = Some p /\ p ∉ socks_schemes ++ pac_schemes ++ ["http:"; "https:"]%string
  | ConstructorError spec => suits proxyUrl written opts spec /\ constructs spec = false
  | InvalidTargetUrlError _ => False
  end.

(** Options objects have each of their properties once. *)
Definition options_wf (opts : ProxyAgentConstructorOptions) : Prop :=
  Forall (fun o => jm_wf (default [] o)) [http opts; https opts; socks opts; pac opts; tls opts].

Lemma spread_lookup (k : string) (a b : options_object) : jm_wf b ->
  jm_get k (js_spread a b) = or_else (jm_get k b) (jm_get k a).
Proof.
  intros Hb. destruct (jm_get k b) as [v|] eqn:Hk; [by apply js_spread_get_new|by apply js_spread_get].
Qed.

Lemma applyTls_lookup k a t : jm_wf (default [] t) ->
  jm_get k (applyTlsOptions a t) = or_else (jm_get k (default [] t)) (jm_get k (default [] a)).
Proof.
  intros Ht. destruct a as [a|], t as [t|]; cbn [applyTlsOptions default from_option]; [|done| |done].
  - by apply spread_lookup.
  - cbn. by destruct (jm_get k t).
Qed.

Lemma pac_lookup k o : jm_wf (default [] o) ->
  jm_get k (toPacAgentOptions o) =
    or_else (jm_get k (default [] o)) (if decide (k = "fallbackToDirect"%string) then Some (JBool false) else None).
Proof. intros Ho. unfold toPacAgentOptions. rewrite spread_lookup by done. done. Qed.

Lemma normalizeTargetProtocol_spec written :
  match normalizeTargetProtocol written with
  | Ok t => target_scheme written t
  | Throw e => (exists p, e = UnsupportedTargetProtocolError p) /\ forall t, ~ target_scheme written t
  end.
Proof.
  unfold normalizeTargetProtocol, target_scheme. set (w := to_lower (trim written)).
  assert (Hcolon : forall t, t ∈ TARGET_PROTOCOLS -> ends_with ":" t = true /\ ends_with ":" (t +:+ ":")%string = true /\
    (t +:+ ":")%string ∉ TARGET_PROTOCOLS).
  { intros t Ht. unfold TARGET_PROTOCOLS in *. rewrite !elem_of_cons in Ht.
    destruct Ht as [->|[->|[->|[->|[]%elem_of_nil]]]]; (split_and!; [done..|by apply (bool_decide_unpack _); vm_compute]). }
  destruct (ends_with ":" w) eqn:Hw; case_bool_decide as Hin.
  - split; [done|by left].
  - split; [by eexists|]. intros t [Ht [He|He]]; [subst t; by destruct Hin|]. subst t. apply ends_with_iff in Hw as [a Ha].
    rewrite Ha in Ht. unfold TARGET_PROTOCOLS in Ht. rewrite !elem_of_cons in Ht.
    destruct Ht as [He|[He|[He|[He|[]%elem_of_nil]]]]; apply (f_equal String.rev) in He;
      rewrite !rev_app in He; discriminate He.
  - split; [done|by right].
  - split; [by eexists|]. intros t [Ht [He|He]]; subst t; [|done]. destruct (Hcolon _ Ht) as (? & _). congruence.
Qed.

Lemma parseProtocol_spec proxyUrl :
  parseProtocol URL_parse proxyUrl =
    match proxy_scheme proxyUrl with Some p => Ok p | None => Throw (InvalidProxyUrlError proxyUrl) end.
Proof.
  unfold parseProtocol, proxy_scheme. destruct (is_empty _); [done|]. by destruct (URL_parse _).
Qed.

(** The code's choice is the table's. *)
Lemma createProxyAgent_suits proxyUrl written opts : options_wf opts ->
  match create proxyUrl written opts with
  | Ok spec => suits proxyUrl written opts spec
  | Throw e => refused proxyUrl written opts e
  end.
Proof.
  unfold options_wf. rewrite !Forall_cons. intros (Hh & Hs & _ & Hp & Ht & _).
  unfold createProxyAgent. pose proof (normalizeTargetProtocol_spec written) as Hn.
  destruct (normalizeTargetProtocol written) as [t|e]; [|by destruct Hn as [[p ->] ?]].
  rewrite parseProtocol_spec. destruct (proxy_scheme proxyUrl) as [p|] eqn:Hps; [|done].
  assert (Hc : forall spec, suits proxyUrl written opts spec ->
    match construct constructs spec with Ok spec => suits proxyUrl written opts spec | Throw e => refused proxyUrl written opts e end).
  { intros spec Hspec. unfold construct. by destruct (constructs spec) eqn:?. }
  case_bool_decide as Hsocks; [apply Hc; split; [done|by exists p, t|done]|].
  case_bool_decide as Hpac.
  { apply Hc. split; [done|by exists p, t|]. intros k.
    change (jm_get k (applyTlsOptions (Some (toPacAgentOptions (pac opts))) (tls opts)) = wanted_option opts PacProxyAgent k).
    rewrite applyTls_lookup by done.
    change (default [] (Some (toPacAgentOptions (pac opts)))) with (toPacAgentOptions (pac opts)).
    by rewrite pac_lookup. }
  destruct (bool_decide (p = _) || bool_decide (p = _)) eqn:Hhttp.
  - assert (Hp' : p ∈ ["http:"; "https:"]%string)
      by (rewrite orb_true_iff, !bool_decide_eq_true in Hhttp; destruct Hhttp as [-> | ->]; set_solver).
    destruct (bool_decide (t = _) || bool_decide (t = _)) eqn:Hplain; apply Hc; (split; [done| |intros k; by apply applyTls_lookup]);
      exists p, t; (split; [done|]; split; [done|]; split; [done|]).
    + rewrite orb_true_iff, !bool_decide_eq_true in Hplain. destruct Hplain as [-> | ->]; set_solver.
    + apply orb_false_iff in Hplain as [H1%bool_decide_eq_false H2%bool_decide_eq_false].
      destruct Hn as [Hn _]. rewrite !elem_of_cons in Hn. set_solver.
  - apply orb_false_iff in Hhttp as [H1%bool_decide_eq_false H2%bool_decide_eq_false]. split; [done|].
    unfold SOCKS_PROTOCOLS, PAC_PROTOCOLS in *. rewrite !not_elem_of_app. split_and!; [done|done|]. set_solver.
Qed.

(** What [resolve] should answer for a URL, in terms of the settings alone. *)
Definition answers (u : url) f (r : result agent_error ProxyAgentResolution) f' : Prop :=
  match agent_resolveProxyForUrl u (settings f) with
  | None | Some EmptyString => r = Ok direct_resolution
  | Some proxyUrl =>
      match r with
      | Ok (Resolution (Some id) (Some proxyUrl') true _) =>
          proxyUrl' = proxyUrl /\ id ∉ (disposed f').*1 /\
          exists spec, heap f' !! id = Some spec /\ suits proxyUrl (protocol u) (agentOptions f) spec
      | Ok _ => False
      | Throw e => refused proxyUrl (protocol u) (agentOptions f) e
      end
  end.

Lemma expected_answers u f r f' : options_wf (agentOptions f) -> expected u f r f' -> answers u f r f'.
Proof.
  unfold expected, answers. intros Hwf. destruct (agent_resolveProxyForUrl u (settings f)) as [[|ch p]|]; try done.
  pose proof (createProxyAgent_suits (String ch p) (protocol u) _ Hwf) as Hs.
  destruct (create _ _ _) as [spec|e]; [|by intros ->].
  destruct r as [[[id|] [pu|] [] fc]|e]; try done. intros (-> & Hl & Hd). split_and!; [done|done|by exists spec].
Qed.

Lemma step_options o f : agentOptions (step o f) = agentOptions f.
Proof.
  destruct o as [t| |s|env]; cbn [factory_step]; try done. unfold resolve, resolve_url.
  destruct (parseTargetUrl URL_parse t) as [u|]; [|done]. destruct (agent_resolveProxyForUrl _ _) as [p|]; [|done].
  destruct (is_empty p); [done|]. destruct (get _ _) as [[id|] c]; [done|].
  destruct (create _ _ _) as [a|e]; [|done]. by destruct (set _ _ _).
Qed.

Lemma run_options os f : agentOptions (foldl (fun f o => step o f) f os) = agentOptions f.
Proof. revert f. induction os as [|o os IH]; intros f; [done|]. simpl. by rewrite IH, step_options. Qed.
End Invariant.

Section Theorems.
Context (URL_parse : string -> option url) (isIP : string -> Z).
Context (constructs : agent_spec -> bool) (has : agent_spec -> cleanup -> bool).
Context (scheme_chars : forall s u, URL_parse s = Some u -> no_bar (protocol u)).
Local Abbreviation run := (foldl (fun f o => factory_step URL_parse isIP constructs has o f)).

(** C37. Whatever happened before - other targets, evictions, new settings - [resolve]
    answers from the current settings: no agent where they name no proxy; otherwise an
    agent, made now or taken from the cache and not disposed of, for this proxy URL, of
    the class the table [class_for] asks for (SOCKS, PAC, plain forwarding for http and
    ws, a tunnel for https and wss) and with the options [wanted_option] asks for (the
    shared TLS options before those of the class, none for SOCKS, no direct fall-back
    for PAC).  It throws only for a proxy or target scheme outside the table, an invalid
    proxy URL, or a constructor that throws. *)
Theorem resolve_fits_settings s env n opts os u :
  options_wf opts -> Forall op_ok os -> no_bar (protocol u) ->
  let f := run (newFactory URL_parse isIP s env n opts) os in
  let (r, f') := resolve URL_parse constructs has (TargetUrl u) f in
  agentOptions f = opts /\ answers URL_parse constructs u f r f'.
Proof.
  intros Hwf Hos Hu. set (f := run _ os).
  assert (Ho : agentOptions f = opts) by apply run_options.
  assert (Hf : factory_inv URL_parse constructs f) by (apply run_inv; [done..|]; apply newFactory_inv).
  pose proof (resolve_url_expected URL_parse constructs has u f Hu Hf) as He.
  cbv zeta. cbn [resolve parseTargetUrl]. destruct (resolve_url _ _ _ u f) as [r f']. split; [done|].
  eapply expected_answers; [exact isIP|exact scheme_chars|by rewrite Ho|exact He].
Qed.

(** Every agent is in one place: while the cache is enabled, the agents constructed
    so far are, one for one, those disposed of and those still cached; so none is
    disposed of twice and none is lost. *)
Theorem agents_accounted s env n opts os :
  Forall op_ok os ->
  let f := run (newFactory URL_parse isIP s env n opts) os in
  maxEntries (cache f) <> 0 ->
  (disposed f).*1 ++ (store (cache f)).*2 ≡ₚ seq 0 (length (heap f)).
Proof.
  intros Hos. eapply inv_agents, run_inv; [done..|]. apply newFactory_inv.
Qed.
End Theorems.

(** ** Concrete inputs *)

Definition demo_env : ProxyEnvironment := fun _ => None.
Definition demo_proxies (p : string) : ProxySettings := Settings.Settings (Some p) None None [].
Definition demo_target : url := Url "http:" "example.com" "" "http://example.com/".
Definition demo_parse (s : string) : option url :=
  if starts_with "socks5:" s then Some (Url "socks5:" "p" "1080" s)
  else if starts_with "http:" s then Some (Url "http:" "p" "8080" s) else None.
Definition demo_options : ProxyAgentConstructorOptions := AgentOptions None None None None None.

Lemma demo_scheme_chars s u : demo_parse s = Some u -> no_bar (protocol u).
Proof. unfold demo_parse. by repeat (case_match; try done); intros [= <-]. Defined.

Definition demo_ops : list factory_op :=
  [OpResolve (TargetUrl demo_target); OpUpdate (demo_proxies "socks5://p:1080"); OpResolve (TargetUrl demo_target)].

Lemma resolve_fits_settings_witness :
  let f := foldl (fun f o => factory_step demo_parse (fun _ => 0) (fun _ => true) (fun _ _ => true) o f)
             (newFactory demo_parse (fun _ => 0) (Some (demo_proxies "http://p:8080")) demo_env None demo_options)
             demo_ops in
  exists spec, heap f !! 1%nat = Some spec /\ 1%nat ∉ (disposed f).*1 /\
    suits demo_parse "socks5://p:1080" "http:" demo_options spec.
Proof.
  pose proof (resolve_fits_settings demo_parse (fun _ => 0) (fun _ => true) (fun _ _ => true) demo_scheme_chars
    (Some (demo_proxies "http://p:8080")) demo_env None demo_options demo_ops demo_target
    ltac:(by repeat constructor) ltac:(by repeat constructor) eq_refl) as [_ (_ & Hd & spec & Hl & Hs)].
  exists spec. split; [exact Hl|]. split; [exact Hd|exact Hs].
Defined.

Lemma agents_accounted_witness :
  let f := foldl (fun f o => factory_step demo_parse (fun _ => 0) (fun _ => true) (fun _ _ => true) o f)
             (newFactory demo_parse (fun _ => 0) (Some (demo_proxies "http://p:8080")) demo_env None demo_options)
             demo_ops in
  (disposed f).*1 ++ (store (cache f)).*2 ≡ₚ [0; 1]%nat.
Proof.
  exact (agents_accounted demo_parse (fun _ => 0) (fun _ => true) (fun _ _ => true) demo_scheme_chars
    (Some (demo_proxies "http://p:8080")) demo_env None demo_options demo_ops
    ltac:(by repeat constructor) ltac:(done)).
Defined.

Lemma decision_reason_true_witness :
  exists u, parseTargetUrl demo_parse (TargetUrl demo_target) = Ok u.
Proof.
  pose proof (Runtime.decision_reason_true demo_parse (fun _ => 0) (fun _ => true) (fun _ _ => true)
    (Some (demo_proxies "http://p:8080")) demo_env None demo_options [] (TargetUrl demo_target) _ _ eq_refl)
    as (_ & _ & _ & u & Hu & _).
  by exists u.
Defined.
