(* ===== verification/ProxyDispatchers.v ===== *)
(** * Proxy dispatchers ([packages/proxy-undici/src/proxy-undici-dispatcher-factory.ts])

    The factory of dispatchers.  A dispatcher is an object the adapter makes: a number
    (its identity) and an entry of [heap] with the proxy URL it was made for and its
    [close] and [destroy] methods.  A method is a function of the [this] it is called
    with ([None]: undefined); its value says whether the dispatcher is closed by the
    call.  What it throws, and a rejected promise, are ignored by the code. *)

From S2P Require Import Prelude JsMap ProxyCore AgentCache ProxyAgents.
Local Open Scope Z_scope.

Abbreviation method := (option nat -> bool).

Record dispatcher : Type := Dispatcher {
  uri : option string;
  close : option method;
  d_destroy : option method
}.

Definition DISPATCHER_TARGET_PROTOCOLS : list string := ["http:"; "https:"]%string.
Definition SUPPORTED_PROXY_PROTOCOLS : list string := ["http:"; "https:"]%string.

Inductive dispatcher_error : Type :=
| DInvalidTargetUrl (input : string)
| DInvalidProxyUrl (proxyUrl : string)
| DUnsupportedProxyProtocol (protocol : string)
| DUnsupportedTargetProtocol (protocol : string)
| AdapterError.

Record ProxyUndiciDispatcherResolution : Type := DResolution {
  d_dispatcher : nat;
  d_proxyUrl : option string;
  d_viaProxy : bool;
  d_fromCache : bool
}.

(** [calls]: the dispatchers given to [closeDispatcher], and whether that closed them. *)
Record ProxyUndiciDispatcherFactory : Type := DFactory {
  d_settings : ProxySettings;
  d_cache : BoundedAgentCache (K := string) (V := nat);
  directDispatcher : option nat;
  d_heap : list dispatcher;
  calls : list (nat * bool)
}.

(** [method()]: the method is called by itself, so [this] is undefined.  The result
    is what [invokeCloseMethod] returns, with whether the dispatcher is now closed. *)
Definition invokeCloseMethod (m : option method) : bool * bool :=
  match m with
  | None => (false, false)
  | Some m => (true, m None)
  end.

Definition closeDispatcher (d : dispatcher) : bool :=
  let (invoked, closed) := invokeCloseMethod (close d) in
  if invoked then closed else (invokeCloseMethod (d_destroy d)).2.

Definition close_all (heap : list dispatcher) (ids : list nat) : list (nat * bool) :=
  (fun i => (i, default false (closeDispatcher <$> heap !! i))) <$> ids.

Section Factory.
Context (URL_parse : string -> option url) (isIP : string -> Z).
(** The adapter: the object made for a proxy URL or for direct requests, given its
    number; [None] when the adapter throws. *)
Context (createDirect : nat -> option dispatcher).
Context (createProxy : string -> nat -> option dispatcher).

Definition d_parseTargetUrl (t : target) : result dispatcher_error url :=
  match t with
  | TargetUrl u => Ok u
  | TargetString input =>
      match URL_parse input with
      | Some u => Ok u
      | None => Throw (DInvalidTargetUrl input)
      end
  end.

Definition parseProxyUrl (proxyUrl : string) : result dispatcher_error url :=
  match URL_parse proxyUrl with
  | Some u => Ok u
  | None => Throw (DInvalidProxyUrl proxyUrl)
  end.

Definition newDispatcherFactory (optSettings : option ProxySettings) (env : ProxyEnvironment)
    (maxCacheEntries : option num) : ProxyUndiciDispatcherFactory :=
  DFactory (default (loadProxySettings URL_parse isIP env) optSettings)
    (newCache (normalizeCacheEntries maxCacheEntries)) None [] [].

Definition resolveDirect (f : ProxyUndiciDispatcherFactory) :
    result dispatcher_error ProxyUndiciDispatcherResolution * ProxyUndiciDispatcherFactory :=
  match directDispatcher f with
  | Some id => (Ok (DResolution id None false true), f)
  | None =>
      let id := length (d_heap f) in
      match createDirect id with
      | None => (Throw AdapterError, f)
      | Some d =>
          (Ok (DResolution id None false false),
           DFactory (d_settings f) (d_cache f) (Some id) (d_heap f ++ [d]) (calls f))
      end
  end.

Definition d_resolve (t : target) (f : ProxyUndiciDispatcherFactory) :
    result dispatcher_error ProxyUndiciDispatcherResolution * ProxyUndiciDispatcherFactory :=
  match d_parseTargetUrl t with
  | Throw e => (Throw e, f)
  | Ok targetUrl =>
      let targetProtocol := to_lower (protocol targetUrl) in
      if negb (bool_decide (targetProtocol ∈ DISPATCHER_TARGET_PROTOCOLS))
      then (Throw (DUnsupportedTargetProtocol targetProtocol), f)
      else
        match resolve_for_url targetUrl (d_settings f) with
        | None | Some EmptyString => resolveDirect f
        | Some proxyUrlValue =>
            match parseProxyUrl proxyUrlValue with
            | Throw e => (Throw e, f)
            | Ok parsedProxyUrl =>
                let proxyProtocol := to_lower (protocol parsedProxyUrl) in
                if bool_decide (proxyProtocol ∈ SOCKS_PROTOCOLS) || bool_decide (proxyProtocol ∈ PAC_PROTOCOLS)
                then (Throw (DUnsupportedProxyProtocol proxyProtocol), f)
                else if negb (bool_decide (proxyProtocol ∈ SUPPORTED_PROXY_PROTOCOLS))
                then (Throw (DUnsupportedProxyProtocol proxyProtocol), f)
                else
                  let cacheKey := href parsedProxyUrl in
                  let (cached, c) := get cacheKey (d_cache f) in
                  let f := DFactory (d_settings f) c (directDispatcher f) (d_heap f) (calls f) in
                  match cached with
                  | Some id => (Ok (DResolution id (Some cacheKey) true true), f)
                  | None =>
                      let id := length (d_heap f) in
                      match createProxy cacheKey id with
                      | None => (Throw AdapterError, f)
                      | Some created =>
                          let heap := d_heap f ++ [created] in
                          let (evicted, c) := set cacheKey id (d_cache f) in
                          (Ok (DResolution id (Some cacheKey) true false),
                           DFactory (d_settings f) c (directDispatcher f) heap
                             (calls f ++ close_all heap evicted))
                      end
                  end
            end
        end
  end.

(** [destroy], also called [clear] and [dispose]. *)
Definition d_destroy_all (f : ProxyUndiciDispatcherFactory) : ProxyUndiciDispatcherFactory :=
  let direct := match directDispatcher f with Some id => [id] | None => [] end in
  let (evicted, c) := clear (d_cache f) in
  DFactory (d_settings f) c None (d_heap f)
    (calls f ++ close_all (d_heap f) direct ++ close_all (d_heap f) evicted).

Definition d_updateSettings (settings : ProxySettings) (f : ProxyUndiciDispatcherFactory) :
    ProxyUndiciDispatcherFactory :=
  d_destroy_all (DFactory settings (d_cache f) (directDispatcher f) (d_heap f) (calls f)).

Definition d_reloadFromEnvironment (env : ProxyEnvironment) (f : ProxyUndiciDispatcherFactory) :
    ProxySettings * ProxyUndiciDispatcherFactory :=
  let loaded := loadProxySettings URL_parse isIP env in
  (loaded, d_destroy_all (DFactory loaded (d_cache f) (directDispatcher f) (d_heap f) (calls f))).

Inductive dispatcher_op : Type :=
| DResolve (t : target)
| DDestroy
| DUpdate (settings : ProxySettings)
| DReload (env : ProxyEnvironment).

Definition dispatcher_step (o : dispatcher_op) (f : ProxyUndiciDispatcherFactory) :
    ProxyUndiciDispatcherFactory :=
  match o with
  | DResolve t => (d_resolve t f).2
  | DDestroy => d_destroy_all f
  | DUpdate s => d_updateSettings s f
  | DReload env => (d_reloadFromEnvironment env f).2
  end.

Local Abbreviation run := (foldl (fun f o => dispatcher_step o f)).

(** ** Invariant *)

Definition direct_ids f : list nat := match directDispatcher f with Some id => [id] | None => [] end.

(** The object under a cache key, or for direct requests, was made for that. *)
Record dispatchers_inv f : Prop := {
  d_bound : 0 <= maxEntries (d_cache f);
  d_keys : jm_wf (store (d_cache f));
  d_fits : Forall (fun e => exists d, d_heap f !! e.2 = Some d /\ createProxy e.1 e.2 = Some d) (store (d_cache f));
  d_direct : Forall (fun id => exists d, d_heap f !! id = Some d /\ createDirect id = Some d) (direct_ids f);
  (** Closed, current or cached, each once; objects made with the cache disabled are
      handed out and not kept. *)
  d_owned : exists lost, (maxEntries (d_cache f) <> 0 -> lost = []) /\
    (calls f).*1 ++ direct_ids f ++ (store (d_cache f)).*2 ++ lost ≡ₚ seq 0 (length (d_heap f))
}.

Lemma close_all_ids heap ids : (close_all heap ids).*1 = ids.
Proof. unfold close_all. rewrite <- list_fmap_compose. apply list_fmap_id. Qed.

(** A step that does the cache operation [o], makes [more] objects, replaces the
    direct dispatcher and closes [closing] of it. *)
Lemma d_step_inv f o s more direct closing lost :
  dispatchers_inv f ->
  let dir := match direct with Some id => [id] | None => [] end in
  (maxEntries (d_cache f) <> 0 -> lost = []) ->
  closing ++ dir ++ accepted o (d_cache f) ++ lost ≡ₚ
    direct_ids f ++ seq (length (d_heap f)) (length more) ->
  Forall (fun e => exists d, (d_heap f ++ more) !! e.2 = Some d /\ createProxy e.1 e.2 = Some d)
    match o with CacheSet k v => [(k, v)] | _ => [] end ->
  Forall (fun id => exists d, (d_heap f ++ more) !! id = Some d /\ createDirect id = Some d) dir ->
  dispatchers_inv (DFactory s (cache_step o (d_cache f)).2 direct (d_heap f ++ more)
    (calls f ++ close_all (d_heap f ++ more) closing ++
     close_all (d_heap f ++ more) (cache_step o (d_cache f)).1)).
Proof.
  intros [Hb Hk Hf Hd (lost0 & Hl0 & Hown)] dir Hlost Hp Hnew Hdir.
  destruct (step_conserves o (d_cache f) Hb Hk) as (Hc & Hk' & Hm).
  split; cbn [d_cache d_heap directDispatcher calls]; try (rewrite Hm); try done.
  - apply Forall_forall. intros e [He|(k & v & -> & ->)]%step_entries; [| |done..].
    + destruct (proj1 (Forall_forall _ _) Hf e He) as (d & Hl & Hd'). exists d.
      split; [|done]. by apply lookup_app_l_Some.
    + exact (proj1 (Forall_singleton _ _) Hnew).
  - exists (lost0 ++ lost). split; [by intros; rewrite Hl0, Hlost|].
    unfold direct_ids. cbn [directDispatcher]. fold dir.
    rewrite !fmap_app, !close_all_ids, length_app, seq_app, <- Hown. simpl plus.
    rewrite <- !app_assoc. f_equiv.
    trans ((closing ++ dir ++ accepted o (d_cache f) ++ lost) ++ (store (d_cache f)).*2 ++ lost0).
    + rewrite <- !app_assoc. f_equiv.
      trans (dir ++ ((cache_step o (d_cache f)).1 ++ (store (cache_step o (d_cache f)).2).*2) ++ lost0 ++ lost).
      * rewrite <- !app_assoc. apply Permutation_app_swap_app.
      * rewrite Hc, <- !app_assoc. f_equiv. f_equiv.
        rewrite (Permutation_app_comm lost), <- !app_assoc. done.
    + rewrite Hp, <- !app_assoc. f_equiv.
      rewrite (Permutation_app_comm (seq (length (d_heap f)) _)), <- !app_assoc. done.
Qed.

Lemma d_resolve_inv t f : dispatchers_inv f -> dispatchers_inv (d_resolve t f).2.
Proof.
  intros Hf. unfold d_resolve. destruct (d_parseTargetUrl t) as [u|e]; [|done].
  case_match; [done|].
  assert (Hdirect : dispatchers_inv (resolveDirect f).2).
  { unfold resolveDirect. destruct (directDispatcher f) as [id|] eqn:Hd; [done|].
    destruct (createDirect (length (d_heap f))) as [d|] eqn:Hc; [|done]. simpl.
    destruct Hf as [Hb Hk Hfit Hdir (lost & Hl & Hown)]. unfold direct_ids in *. rewrite Hd in *.
    split; simpl; try done.
    - eapply Forall_impl; [exact Hfit|]. intros e (d' & Hl' & He). exists d'.
      split; [|done]. by apply lookup_app_l_Some.
    - apply Forall_singleton. exists d. by rewrite lookup_app_r, Nat.sub_diag.
    - exists lost. split; [done|]. unfold direct_ids. simpl.
      rewrite length_app, seq_app, <- Hown. simpl. by rewrite <- Permutation_cons_append, <- Permutation_middle. }
  destruct (resolve_for_url u (d_settings f)) as [[|ch p]|]; [done| |done].
  destruct (parseProxyUrl (String ch p)) as [pu|e]; [|done].
  case_match; [done|]. case_match; [done|].
  pose proof (d_step_inv f (CacheGet (href pu)) (d_settings f) [] (directDispatcher f) [] [] Hf
    ltac:(done) ltac:(done) ltac:(constructor)) as Hget.
  cbn [cache_step fst snd] in Hget. rewrite !app_nil_r in Hget.
  specialize (Hget (d_direct _ Hf)).
  destruct (get (href pu) (d_cache f)) as [[id|] c] eqn:Hg; cbn [fst snd] in Hget; [done|].
  assert (Hmiss : jm_get (href pu) (store (d_cache f)) = None /\ c = d_cache f).
  { rewrite get_spec in Hg. destruct (jm_get _ _); by simplify_eq. }
  destruct Hmiss as [Hmiss ->]. simpl.
  destruct (createProxy (href pu) (length (d_heap f))) as [created|] eqn:Hc; [|done].
  pose proof (d_step_inv f (CacheSet (href pu) (length (d_heap f))) (d_settings f) [created]
    (directDispatcher f) [] (if maxEntries (d_cache f) =? 0 then [length (d_heap f)] else []) Hf) as Hset.
  cbn [cache_step] in Hset. destruct (set (href pu) _ (d_cache f)) as [evicted c'].
  simpl in Hset. apply Hset.
  - by destruct (Z.eqb_spec (maxEntries (d_cache f)) 0).
  - rewrite Hmiss, decide_False by done. unfold direct_ids. by destruct (maxEntries (d_cache f) =? 0).
  - apply Forall_singleton. exists created. by rewrite lookup_app_r, Nat.sub_diag.
  - eapply Forall_impl; [exact (d_direct _ Hf)|]. intros e (d' & Hl' & He). exists d'.
    split; [|done]. by apply lookup_app_l_Some.
Qed.

Lemma d_destroy_inv f s : dispatchers_inv f ->
  dispatchers_inv (d_destroy_all (DFactory s (d_cache f) (directDispatcher f) (d_heap f) (calls f))).
Proof.
  intros Hf. pose proof (d_step_inv f CacheClear s [] None (direct_ids f) [] Hf) as H. simpl in H.
  rewrite !app_nil_r in H. apply H; [done|done|constructor|constructor].
Qed.

Lemma d_run_inv os f : dispatchers_inv f -> dispatchers_inv (run f os).
Proof.
  revert f. induction os as [|o os IH]; intros f Hf; [done|]. apply IH.
  destruct o as [t| |s|env]; cbn [dispatcher_step].
  - by apply d_resolve_inv.
  - apply (d_destroy_inv f (d_settings f)) in Hf. by destruct f.
  - by apply d_destroy_inv.
  - by apply d_destroy_inv.
Qed.

Lemma newDispatcherFactory_inv s env n : dispatchers_inv (newDispatcherFactory s env n).
Proof.
  pose proof (normalizeCacheEntries_bounds n). split; simpl; try done; [lia|constructor|].
  by exists [].
Qed.

Lemma owned_live f id : dispatchers_inv f ->
  id ∈ direct_ids f ++ (store (d_cache f)).*2 -> id ∉ (calls f).*1.
Proof.
  intros [_ _ _ _ (lost & _ & Hown)] Hin Hcall.
  pose proof (NoDup_seq 0 (length (d_heap f))) as Hnd. rewrite <- Hown in Hnd.
  apply NoDup_app in Hnd as (_ & Hnd & _). apply (Hnd id Hcall).
  rewrite app_assoc. apply elem_of_app. by left.
Qed.
(** A new object is not closed by the call that makes it. *)
Lemma new_live k f c evicted c' : dispatchers_inv f ->
  get k (d_cache f) = (None, c) -> set k (length (d_heap f)) c = (evicted, c') ->
  forall heap direct s,
  length (d_heap f) ∉ (calls (DFactory s c' direct heap (calls f ++ close_all heap evicted))).*1.
Proof.
  intros [Hb Hk _ _ (lost & Hl & Hown)] Hg Hs heap direct s.
  assert (Hmiss : jm_get k (store (d_cache f)) = None /\ c = d_cache f).
  { rewrite get_spec in Hg. destruct (jm_get _ _); by simplify_eq. }
  destruct Hmiss as [Hmiss ->]. cbn [calls]. rewrite fmap_app, close_all_ids.
  destruct (step_conserves (CacheSet k (length (d_heap f))) (d_cache f) Hb Hk) as (Hc & _ & _).
  cbn [cache_step accepted] in Hc. rewrite Hs, Hmiss in Hc. cbn [fst snd] in Hc.
  assert (Hold : length (d_heap f) ∉ (calls f).*1 /\ length (d_heap f) ∉ (store (d_cache f)).*2).
  { split; intros Hin; (assert (Hseq : length (d_heap f) ∈ seq 0 (length (d_heap f)));
      [rewrite <- Hown, !elem_of_app; tauto|apply elem_of_seq in Hseq; lia]). }
  intros [Hin|Hin]%elem_of_app; [tauto|].
  destruct (Z.eqb_spec (maxEntries (d_cache f)) 0) as [H0|H0].
  - apply (proj2 Hold). simpl in Hc. rewrite <- Hc. apply elem_of_app. by left.
  - pose proof (set_cached k (length (d_heap f)) (d_cache f) ltac:(lia) Hk) as Hcached.
    rewrite Hs in Hcached. cbn [snd] in Hcached. rewrite decide_False in Hc by done.
    assert (Hnd : NoDup ([length (d_heap f)] ++ (store (d_cache f)).*2)).
    { apply NoDup_app. split_and!; [apply NoDup_singleton|set_solver|].
      pose proof (NoDup_seq 0 (length (d_heap f))) as Hnd. rewrite <- Hown in Hnd.
      apply NoDup_app in Hnd as (_ & _ & Hnd). apply NoDup_app in Hnd as (_ & _ & Hnd).
      by apply NoDup_app in Hnd as (? & _ & _). }
    rewrite <- Hc in Hnd. apply NoDup_app in Hnd as (_ & Hnd & _). apply (Hnd _ Hin).
    apply list_elem_of_fmap. by exists (k, length (d_heap f)).
Qed.

(** ** Theorems *)

(** Reference: where a request goes, from the settings alone - the proxy URL, or
    [None] for a direct request. *)
Definition route (t : target) (settings : ProxySettings) : result dispatcher_error (option string) :=
  (let! u := d_parseTargetUrl t in
   if bool_decide (to_lower (protocol u) ∈ ["http:"; "https:"]%string) then
     match resolve_for_url u settings with
     | None | Some EmptyString => Ok None
     | Some proxy =>
         let! p := parseProxyUrl proxy in
         if bool_decide (to_lower (protocol p) ∈ ["http:"; "https:"]%string)
         then Ok (Some (href p)) else Throw (DUnsupportedProxyProtocol (to_lower (protocol p)))
     end
   else Throw (DUnsupportedTargetProtocol (to_lower (protocol u))))%js.

Definition made (proxy : option string) : nat -> option dispatcher :=
  match proxy with Some uri => createProxy uri | None => createDirect end.

(** [resolve] agrees with the reference on a run of any calls: it throws the
    reference's error without a change, or the adapter's; otherwise the dispatcher it
    returns was made by the adapter for the reference's proxy URL (or for direct
    requests) and has not been closed, whether it is new or cached. *)
Theorem dispatcher_follows_route s env n os t :
  let f := run (newDispatcherFactory s env n) os in
  let (r, f') := d_resolve t f in
  match route t (d_settings f) with
  | Throw e => r = Throw e /\ f' = f
  | Ok proxy =>
      match r with
      | Ok (DResolution id proxy' via _) =>
          proxy' = proxy /\ via = bool_decide (is_Some proxy) /\ id ∉ (calls f').*1 /\
          exists d, d_heap f' !! id = Some d /\ made proxy id = Some d
      | Throw e => e = AdapterError /\ made proxy (length (d_heap f)) = None
      end
  end.
Proof.
  cbv zeta. set (f := run _ os).
  assert (Hf : dispatchers_inv f) by apply d_run_inv, newDispatcherFactory_inv.
  pose proof (d_resolve_inv t f Hf) as Hf'. unfold d_resolve, route, rbind in *.
  destruct (d_parseTargetUrl t) as [u|e]; [|done].
  change (to_lower (protocol u) ∈ DISPATCHER_TARGET_PROTOCOLS) with
    (to_lower (protocol u) ∈ ["http:"; "https:"]%string) in *.
  destruct (bool_decide (to_lower (protocol u) ∈ _)); [|done]. cbn [negb] in *.
  assert (Hdirect : dispatchers_inv (resolveDirect f).2 ->
    let (r, f') := resolveDirect f in
    match r with
    | Ok (DResolution id proxy' via _) =>
        proxy' = None /\ via = false /\ id ∉ (calls f').*1 /\
        exists d, d_heap f' !! id = Some d /\ createDirect id = Some d
    | Throw e => e = AdapterError /\ createDirect (length (d_heap f)) = None
    end).
  { clear Hf'. intros Hf'. unfold resolveDirect in *. destruct (directDispatcher f) as [id|] eqn:Hd.
    - split_and!; [done..| |].
      + apply (owned_live f id Hf). unfold direct_ids. rewrite Hd. by left.
      + pose proof (d_direct f Hf) as H. unfold direct_ids in H. rewrite Hd in H.
        exact (proj1 (Forall_singleton _ _) H).
    - destruct (createDirect (length (d_heap f))) as [d|] eqn:Hc; [|done].
      split_and!; [done..| |].
      + apply (owned_live _ _ Hf'). by left.
      + exists d. simpl. by rewrite lookup_app_r, Nat.sub_diag. }
  destruct (resolve_for_url u (d_settings f)) as [[|ch p]|]; [by apply Hdirect| |by apply Hdirect].
  clear Hdirect. destruct (parseProxyUrl (String ch p)) as [pu|e]; [|done].
  change SUPPORTED_PROXY_PROTOCOLS with ["http:"; "https:"]%string in *.
  assert (Hdisj : bool_decide (to_lower (protocol pu) ∈ ["http:"; "https:"]%string) = true ->
    bool_decide (to_lower (protocol pu) ∈ SOCKS_PROTOCOLS) || bool_decide (to_lower (protocol pu) ∈ PAC_PROTOCOLS) = false).
  { intros H%bool_decide_eq_true. apply orb_false_iff. rewrite !bool_decide_eq_false.
    set_unfold. destruct H as [->|[->|[]]]; split; naive_solver. }
  destruct (bool_decide (to_lower (protocol pu) ∈ ["http:"; "https:"]%string)).
  2:{ by destruct (_ || _). }
  rewrite Hdisj in * by done. cbn [negb] in *.
  destruct (get (href pu) (d_cache f)) as [[id|] c] eqn:Hg.
  - apply get_cached in Hg. split_and!; [done..| |].
    + apply (owned_live f id Hf). apply elem_of_app. right. apply list_elem_of_fmap. by exists (href pu, id).
    + exact (proj1 (Forall_forall _ _) (d_fits f Hf) _ Hg).
  - cbn [d_heap d_settings d_cache directDispatcher calls] in *.
    destruct (createProxy (href pu) (length (d_heap f))) as [created|] eqn:Hc; [|done].
    destruct (set _ (length (d_heap f)) c) as [evicted c'] eqn:Hs.
    split_and!; [done..| |].
    + by eapply new_live.
    + exists created. simpl. by rewrite lookup_app_r, Nat.sub_diag.
Qed.
(** A dispatcher whose methods act on their receiver, as the methods of a class do:
    without one they close nothing. *)
Definition class_based (d : dispatcher) : Prop :=
  forall m, close d = Some m \/ d_destroy d = Some m -> m None = false.

Lemma close_class_based d : class_based d -> closeDispatcher d = false.
Proof.
  intros Hd. unfold closeDispatcher, invokeCloseMethod.
  destruct (close d) as [m|] eqn:Hc; [apply Hd; by left|].
  destruct (d_destroy d) as [m|] eqn:Hm; [apply Hd; by right|done].
Qed.

Definition none_closed f : Prop :=
  Forall class_based (d_heap f) /\ Forall (fun c : nat * bool => c.2 = false) (calls f).

Lemma close_all_none heap ids : Forall class_based heap ->
  Forall (fun c : nat * bool => c.2 = false) (close_all heap ids).
Proof.
  intros Hh. unfold close_all. apply Forall_forall. intros c (i & -> & _)%list_elem_of_fmap. simpl.
  destruct (heap !! i) as [d|] eqn:Hi; [|done]. simpl. apply close_class_based.
  by eapply Forall_lookup_1.
Qed.

(** The default adapter's dispatchers are objects of classes.  [closeDispatcher] takes
    their method off the object before calling it, so it is called without its
    receiver: whatever is evicted, destroyed or replaced, no dispatcher is ever closed. *)
Theorem class_dispatchers_never_closed s env n os :
  (forall proxy id d, made proxy id = Some d -> class_based d) ->
  Forall (fun c => c.2 = false) (calls (run (newDispatcherFactory s env n) os)).
Proof.
  intros Hmade.
  assert (Hdestroy : forall s f, none_closed f ->
    none_closed (d_destroy_all (DFactory s (d_cache f) (directDispatcher f) (d_heap f) (calls f)))).
  { intros s' f [Hh Hc]. split; [done|]. simpl. rewrite !Forall_app. by split_and!; try apply close_all_none. }
  assert (Hrun : forall os f, none_closed f -> none_closed (run f os)).
  { clear os. induction os as [|o os IH]; intros f Hf; [done|]. apply IH.
    destruct o as [t| |s'|env']; cbn [dispatcher_step]; [|by apply (Hdestroy (d_settings f)) in Hf; destruct f|by apply Hdestroy..].
    unfold d_resolve. destruct (d_parseTargetUrl t) as [u|e]; [|done].
    case_match; [done|].
    assert (Hd : none_closed (resolveDirect f).2).
    { unfold resolveDirect. destruct (directDispatcher f); [done|].
      destruct (createDirect (length (d_heap f))) as [d|] eqn:Hc; [|done].
      destruct Hf as [Hh Hcalls]. split; [|done]. apply Forall_app. split; [done|].
      apply Forall_singleton. by apply (Hmade None (length (d_heap f))). }
    destruct (resolve_for_url u (d_settings f)) as [[|ch p]|]; [done| |done].
    destruct (parseProxyUrl _) as [pu|e]; [|done]. case_match; [done|]. case_match; [done|].
    destruct (get _ _) as [[id|] c]; [done|]. cbn [d_heap d_settings d_cache directDispatcher calls].
    destruct (createProxy (href pu) (length (d_heap f))) as [d|] eqn:Hc; [|done].
    destruct (set _ _ c) as [evicted c'].
    destruct Hf as [Hh Hcalls].
    assert (Hh' : Forall class_based (d_heap f ++ [d])).
    { apply Forall_app. split; [done|]. apply Forall_singleton. by apply (Hmade (Some (href pu)) (length (d_heap f))). }
    split; [done|]. simpl. apply Forall_app. split; [done|]. by apply close_all_none. }
  apply Hrun. by split; constructor.
Qed.
End Factory.

(** ** Concrete inputs *)

(** The methods of an object of a class act on [this]. *)
Definition class_object (uri : option string) (id : nat) : option dispatcher :=
  Some (Dispatcher uri (Some (fun this => bool_decide (this = Some id)))
    (Some (fun this => bool_decide (this = Some id)))).

Definition direct_settings : ProxySettings := Settings None None None [].

Lemma class_dispatchers_never_closed_witness :
  calls (foldl (fun f o => dispatcher_step demo_parse (fun _ => 0) (class_object None)
      (fun uri => class_object (Some uri)) o f)
    (newDispatcherFactory demo_parse (fun _ => 0) (Some direct_settings) demo_env None)
    [DResolve (TargetUrl demo_target); DDestroy]) = [(0%nat, false)] /\
  Forall (fun c => c.2 = false) [(0%nat, false)].
Proof.
  split; [by vm_compute|].
  refine (class_dispatchers_never_closed demo_parse (fun _ => 0) (class_object None)
    (fun uri => class_object (Some uri)) (Some direct_settings) demo_env None
    [DResolve (TargetUrl demo_target); DDestroy] _).
  intros [uri|] id d [= <-] m [[= <-]|[= <-]]; by rewrite bool_decide_false.
Defined.
