(* ===== verification/HttpClient.v ===== *)
(** * JSON over HTTP ([packages/proxy-http-client/src/index.ts], [errors.ts])

    Preparation of a request and the event machine of one exchange.  The request and
    response objects of Node's [http] are outside: their events come in any order the
    environment chooses ('response' once), and calls of [request.destroy] are logged.
    Chunks are their bytes, one per [ascii].  [JSON.parse], [JSON.stringify], the UTF-8
    decoder of a Buffer and Number-to-string are parameters; so is the proxy resolver,
    whose answer is an argument. *)

From S2P Require Import Prelude JsMap ProxyCore.
Local Open Scope Z_scope.

Definition DEFAULT_TIMEOUT_MS : num := num_of_Z 8000.
Definition DEFAULT_MAX_RESPONSE_BYTES : Z := 1048576.
Definition SUPPORTED_REQUEST_PROTOCOLS : list string := ["http:"; "https:"]%string.

(** Headers of a response: a value, or several. *)
Inductive header_value : Type :=
| HeaderString (s : string)
| HeaderList (l : list string).
Abbreviation IncomingHttpHeaders := (list (string * header_value)).
Abbreviation OutgoingHttpHeaders := (list (string * string)).

Inductive http_error : Type :=
| TypeError (message : string)
| UnsupportedProtocolError (protocol : string)
| ProxyResolutionError (target : string)
| RequestAbortedError (target : string) (reason : jsval)
| HttpStatusError (status : Z) (headers : IncomingHttpHeaders) (body : jsval) (rawBody : string)
| RequestTimeoutError (timeoutMs : num) (target : string)
| JsonParseError (status : Z) (rawBody : string)
| ResponseSizeLimitError (target : string) (status maxBytes receivedBytes : Z)
| NodeError (name message : string) (error_code : option string).

Record JsonResponse : Type := Response {
  status : Z;
  response_headers : IncomingHttpHeaders;
  body : jsval;
  rawBody : string
}.

(** The state of an [AbortSignal]; [reason] is undefined until it is aborted. *)
Record AbortSignal : Type := Signal {
  aborted : bool;
  reason : jsval
}.

(** ** Preparation *)

Definition validateProtocol (protocol : string) : result http_error unit :=
  if bool_decide (protocol ∈ SUPPORTED_REQUEST_PROTOCOLS) then Ok tt
  else Throw (UnsupportedProtocolError protocol).

Definition normalizeTimeout (timeoutMs : option num) : result http_error num :=
  let value := default DEFAULT_TIMEOUT_MS timeoutMs in
  match value with
  | Fin _ _ =>
      if num_lt_Z value 0 then Throw (TypeError "timeoutMs must be a finite number >= 0") else Ok value
  | _ => Throw (TypeError "timeoutMs must be a finite number >= 0")
  end.

Definition normalizeMaxResponseBytes (maxResponseBytes : option num) : result http_error Z :=
  match num_safe_integer (default (num_of_Z DEFAULT_MAX_RESPONSE_BYTES) maxResponseBytes) with
  | Some value =>
      if value <=? 0 then Throw (TypeError "maxResponseBytes must be a safe integer > 0") else Ok value
  | None => Throw (TypeError "maxResponseBytes must be a safe integer > 0")
  end.

(** [HTTP_TOKEN_PATTERN], on one character. *)
Definition http_token_char (c : ascii) : bool := is_alnum c || one_of "!#$%&'*+.^_`|~-" c.

Definition normalizeMethod (method : option string) : result http_error string :=
  let normalized := to_upper (trim (default "GET"%string method)) in
  if is_empty normalized || negb (str_forallb http_token_char normalized)
  then Throw (TypeError "invalid_http_method") else Ok normalized.

Definition hasHeader (headers : OutgoingHttpHeaders) (key : string) : bool :=
  let expected := to_lower key in
  existsb (fun header => bool_decide (to_lower header.1 = expected)) headers.

Definition buildHeaders (inputHeaders : OutgoingHttpHeaders) (bodyText : option string) :
    OutgoingHttpHeaders :=
  let headers := js_spread [("accept", "application/json")]%string inputHeaders in
  match bodyText with
  | None => headers
  | Some bodyText =>
      let headers :=
        if negb (hasHeader headers "content-type")
        then jm_set "content-type"%string "application/json"%string headers else headers in
      if negb (hasHeader headers "content-length")
      then jm_set "content-length"%string (int_to_string (utf8_byte_length bodyText)) headers else headers
  end.

Definition throwIfAborted (signal : option AbortSignal) (target : string) : result http_error unit :=
  match signal with
  | Some s => if aborted s then Throw (RequestAbortedError target (reason s)) else Ok tt
  | None => Ok tt
  end.

Definition parseContentLength (headers : IncomingHttpHeaders) : option Z :=
  let raw :=
    match jm_get "content-length"%string headers with
    | Some (HeaderString s) => Some s
    | Some (HeaderList l) => head l
    | None => None
    end in
  match raw with
  | None => None
  | Some raw =>
      let trimmed := trim raw in
      if is_empty trimmed || negb (str_forallb is_num trimmed) then None
      else num_safe_integer (parse_int trimmed)
  end.

(** [string | URL]. *)
Inductive request_target : Type :=
| RequestString (input : string)
| RequestUrl (u : url).

(** The resolver's answer: no resolver, an exception or a value that is not an
    object, or the agent. *)
Inductive resolver_answer : Type :=
| NoResolver
| ResolverFailed
| Resolved (agent : option nat).

Record JsonRequestOptions : Type := RequestOptions {
  method : option string;
  headers : option OutgoingHttpHeaders;
  request_body : jsval;
  timeoutMs : option num;
  maxResponseBytes : option num;
  signal : option AbortSignal;
  throwOnHttpError : option bool;
  transport_valid : bool
}.

Record ExecuteJsonRequestParams : Type := Params {
  p_target : url;
  p_method : string;
  p_bodyText : option string;
  p_headers : OutgoingHttpHeaders;
  p_timeoutMs : num;
  p_maxResponseBytes : Z;
  p_throwOnHttpError : bool;
  p_agent : option nat
}.

Section Http.
Context (URL_parse : string -> option url).
Context (JSON_stringify : jsval -> result unit (option string)).

Definition parseTargetUrl (t : request_target) : result http_error url :=
  match t with
  | RequestUrl u => Ok u
  | RequestString input =>
      match URL_parse input with
      | Some u => Ok u
      | None => Throw (TypeError "invalid_request_url")
      end
  end.

Definition serializeRequestBody (body : jsval) : result http_error (option string) :=
  match body with
  | JUndefined => Ok None
  | _ =>
      match JSON_stringify body with
      | Ok text => Ok text
      | Throw _ => Throw (TypeError "request_body_serialization_failed")
      end
  end.

Definition resolveProxyAgent (target : url) (answer : resolver_answer) : result http_error (option nat) :=
  match answer with
  | NoResolver => Ok None
  | ResolverFailed => Throw (ProxyResolutionError (href target))
  | Resolved agent => Ok agent
  end.

(** [requestJson] up to [executeJsonRequest]; [signal_after] is the signal once the
    resolver has answered. *)
Definition prepareRequest (t : request_target) (options : JsonRequestOptions)
    (answer : resolver_answer) (signal_after : option AbortSignal) :
    result http_error ExecuteJsonRequestParams :=
  (let! target := parseTargetUrl t in
   let! _ := validateProtocol (protocol target) in
   let! timeoutMs := normalizeTimeout (timeoutMs options) in
   let! maxResponseBytes := normalizeMaxResponseBytes (maxResponseBytes options) in
   let! method := normalizeMethod (method options) in
   let! bodyText := serializeRequestBody (request_body options) in
   let headers := buildHeaders (default [] (headers options)) bodyText in
   let throwOnHttpError := default true (throwOnHttpError options) in
   check! transport_valid options else TypeError "invalid_transport";
   let! _ := throwIfAborted (signal options) (href target) in
   let! agent := resolveProxyAgent target answer in
   let! _ := throwIfAborted signal_after (href target) in
   Ok (Params target method bodyText headers timeoutMs maxResponseBytes throwOnHttpError agent))%js.


Lemma prepare_fields t options answer signal_after p :
  prepareRequest t options answer signal_after = Ok p ->
  parseTargetUrl t = Ok (p_target p) /\ protocol (p_target p) ∈ SUPPORTED_REQUEST_PROTOCOLS /\
  normalizeTimeout (timeoutMs options) = Ok (p_timeoutMs p) /\
  p_throwOnHttpError p = default true (throwOnHttpError options).
Proof.
  unfold prepareRequest, validateProtocol, rbind. intros Hp.
  destruct (parseTargetUrl t) as [u|]; [|done]. destruct (bool_decide_reflect (protocol u ∈ SUPPORTED_REQUEST_PROTOCOLS)); [|done].
  destruct (normalizeTimeout _); [|done]. repeat (case_match; try done). by simplify_eq/=.
Qed.
End Http.

(** ** The exchange *)

(** [response]: status and headers, once its listeners are attached; [timer]: the
    timer is armed; [listening]: the abort listener is registered; [error_listener]:
    the request's; [uncaught]: an 'error' event nobody listens for. *)
Record exchange : Type := Exchange {
  settled : option (result http_error JsonResponse);
  timer : bool;
  listening : bool;
  error_listener : bool;
  responded : bool;
  response : option (Z * IncomingHttpHeaders);
  chunks : list string;
  receivedBytes : Z;
  overflowError : option http_error;
  destroyed : list http_error;
  uncaught : list http_error
}.

Section Exchange.
Context (JSON_parse : string -> option jsval) (utf8_decode : string -> string).
Context (p : ExecuteJsonRequestParams).
(** The signal when [executeJsonRequest] is called. *)
Context (signal0 : option AbortSignal).

Local Abbreviation target := (href (p_target p)).

Definition abortError : http_error :=
  RequestAbortedError target (match signal0 with Some s => reason s | None => JUndefined end).

(** [settleResolve] and [settleReject], with [cleanup]. *)
Definition settle (outcome : result http_error JsonResponse) (x : exchange) : exchange :=
  match settled x with
  | Some _ => x
  | None =>
      Exchange (Some outcome) false false (error_listener x) (responded x) (response x)
        (chunks x) (receivedBytes x) (overflowError x) (destroyed x) (uncaught x)
  end.
Abbreviation settleReject := (fun e => settle (Throw e)).

(** [request.destroy(e)]. *)
Definition destroy (e : http_error) (x : exchange) : exchange :=
  Exchange (settled x) (timer x) (listening x) (error_listener x) (responded x) (response x)
    (chunks x) (receivedBytes x) (overflowError x) (destroyed x ++ [e]) (uncaught x).

(** What the calls of the request object throw. *)
Record transport_failures : Type := Failures {
  requester_throws : option http_error;
  write_throws : option http_error
}.

Definition start (failures : transport_failures) (signal : option AbortSignal) : exchange :=
  match requester_throws failures with
  | Some e => Exchange (Some (Throw e)) false false false false None [] 0 None [] []
  | None =>
      let x := Exchange None (num_gt_Z (p_timeoutMs p) 0) false false false None [] 0 None [] [] in
      if match signal with Some s => aborted s | None => false end
      then settleReject abortError (destroy abortError x)
      else
        let x := Exchange (settled x) (timer x) (bool_decide (is_Some signal)) true (responded x)
                   (response x) (chunks x) (receivedBytes x) (overflowError x) (destroyed x) (uncaught x) in
        match write_throws failures with
        | Some e => settleReject e x
        | None => x
        end
  end.

Inductive exchange_event : Type :=
| OnResponse (statusCode : option Z) (headers : IncomingHttpHeaders)
| OnData (chunk : string)
| OnResponseError (e : http_error)
| OnAborted
| OnEnd
| OnTimer
| OnAbort
| OnRequestError (e : http_error).

Definition onResponse (statusCode : option Z) (headers : IncomingHttpHeaders) (x : exchange) : exchange :=
  let status := default 0 statusCode in
  match parseContentLength headers with
  | Some declared =>
      if p_maxResponseBytes p <? declared then
        let e := ResponseSizeLimitError target status (p_maxResponseBytes p) declared in
        destroy e (settleReject e
          (Exchange (settled x) (timer x) (listening x) (error_listener x) true None
            (chunks x) (receivedBytes x) (overflowError x) (destroyed x) (uncaught x)))
      else
        Exchange (settled x) (timer x) (listening x) (error_listener x) true (Some (status, headers))
          [] 0 None (destroyed x) (uncaught x)
  | None =>
      Exchange (settled x) (timer x) (listening x) (error_listener x) true (Some (status, headers))
        [] 0 None (destroyed x) (uncaught x)
  end.

Definition onData (chunk : string) (status : Z) (x : exchange) : exchange :=
  match overflowError x with
  | Some _ => x
  | None =>
      let received := receivedBytes x + str_len chunk in
      if p_maxResponseBytes p <? received then
        let e := ResponseSizeLimitError target status (p_maxResponseBytes p) received in
        destroy e (settleReject e
          (Exchange (settled x) (timer x) (listening x) (error_listener x) (responded x) (response x)
            (chunks x) received (Some e) (destroyed x) (uncaught x)))
      else
        Exchange (settled x) (timer x) (listening x) (error_listener x) (responded x) (response x)
          (chunks x ++ [chunk]) received None (destroyed x) (uncaught x)
  end.

(** What a complete response settles the request with. *)
Definition outcome (status : Z) (headers : IncomingHttpHeaders) (rawBody : string) :
    result http_error JsonResponse :=
  (let! body :=
     if is_empty rawBody then Ok JNull
     else match JSON_parse rawBody with
          | Some v => Ok v
          | None => Throw (JsonParseError status rawBody)
          end in
   if p_throwOnHttpError p && (400 <=? status)
   then Throw (HttpStatusError status headers body rawBody)
   else Ok (Response status headers body rawBody))%js.

Definition onEnd (status : Z) (headers : IncomingHttpHeaders) (x : exchange) : exchange :=
  match overflowError x with
  | Some _ => x
  | None => settle (outcome status headers (utf8_decode (String.concat "" (chunks x)))) x
  end.

Definition exchange_step (ev : exchange_event) (x : exchange) : exchange :=
  match ev with
  | OnResponse statusCode headers => if responded x then x else onResponse statusCode headers x
  | OnData chunk =>
      match response x with Some (status, _) => onData chunk status x | None => x end
  | OnResponseError e => match response x with Some _ => settleReject e x | None => x end
  | OnAborted => match response x with Some _ => settleReject abortError x | None => x end
  | OnEnd => match response x with Some (status, headers) => onEnd status headers x | None => x end
  | OnTimer =>
      if timer x then
        destroy (RequestTimeoutError (p_timeoutMs p) target)
          (Exchange (settled x) false (listening x) (error_listener x) (responded x) (response x)
            (chunks x) (receivedBytes x) (overflowError x) (destroyed x) (uncaught x))
      else x
  | OnAbort =>
      if listening x then
        destroy abortError
          (Exchange (settled x) (timer x) false (error_listener x) (responded x) (response x)
            (chunks x) (receivedBytes x) (overflowError x) (destroyed x) (uncaught x))
      else x
  | OnRequestError e =>
      if error_listener x then settleReject e x
      else
        Exchange (settled x) (timer x) (listening x) (error_listener x) (responded x) (response x)
          (chunks x) (receivedBytes x) (overflowError x) (destroyed x) (uncaught x ++ [e])
  end.

Definition exchange_run (evs : list exchange_event) (x : exchange) : exchange :=
  foldl (fun x ev => exchange_step ev x) x evs.

(** ** Invariant *)

Definition total (cs : list string) : Z := foldr (fun c n => str_len c + n) 0 cs.

Lemma total_snoc cs c : total (cs ++ [c]) = total cs + str_len c.
Proof. induction cs as [|d cs IH]; simpl; lia. Qed.

Definition timeout_error : http_error := RequestTimeoutError (p_timeoutMs p) target.

Record exchange_ok (x : exchange) : Prop := {
  ok_cleanup : settled x <> None -> timer x = false /\ listening x = false;
  ok_bytes : overflowError x = None -> receivedBytes x = total (chunks x) /\ total (chunks x) <= p_maxResponseBytes p;
  ok_overflow : overflowError x <> None -> settled x <> None;
  ok_result : forall r, settled x = Some (Ok r) -> exists cs,
    rawBody r = utf8_decode (String.concat "" cs) /\ total cs <= p_maxResponseBytes p /\
    outcome (status r) (response_headers r) (rawBody r) = Ok r;
  ok_timer : settled x = None -> num_gt_Z (p_timeoutMs p) 0 = true ->
    timer x = true \/ timeout_error ∈ destroyed x;
  ok_listener : error_listener x = false -> settled x <> None
}.

Lemma outcome_fields st hs raw r : outcome st hs raw = Ok r ->
  status r = st /\ response_headers r = hs /\ rawBody r = raw.
Proof.
  unfold outcome, rbind. destruct (is_empty raw); [|destruct (JSON_parse raw); [|done]];
    (case_match; [done|]); by intros [= <-].
Qed.

Lemma settled_settle o x : settled (settle o x) = Some (default o (settled x)).
Proof. unfold settle. by destruct (settled x) eqn:H. Qed.

Lemma settled_destroy e x : settled (destroy e x) = settled x.
Proof. done. Qed.

(** Rejecting keeps the invariant, and so does settling with a body of allowed size. *)
Lemma settle_ok o x :
  exchange_ok x ->
  (forall r, o = Ok r -> exists cs, rawBody r = utf8_decode (String.concat "" cs) /\
     total cs <= p_maxResponseBytes p /\ outcome (status r) (response_headers r) (rawBody r) = Ok r) ->
  exchange_ok (settle o x).
Proof.
  intros Hx Ho. unfold settle. destruct (settled x) eqn:Hs; [done|].
  destruct Hx. split; simpl; try done; naive_solver.
Qed.

Lemma destroy_ok e x : exchange_ok x -> exchange_ok (destroy e x).
Proof. intros []. split; simpl; try done. intros ? [|]%ok_timer0; set_solver. Qed.

Lemma reject_ok e x : exchange_ok x -> exchange_ok (settle (Throw e) x).
Proof. intros Hx. by apply settle_ok. Qed.

Lemma exchange_start_ok failures signal : 0 <= p_maxResponseBytes p -> exchange_ok (start failures signal).
Proof.
  intros Hmax. unfold start. destruct (requester_throws failures) as [e|]; [split; simpl; naive_solver|].
  assert (Hx : forall l, exchange_ok
    (Exchange None (num_gt_Z (p_timeoutMs p) 0) l true false None [] 0 None [] [])) by (split; simpl; naive_solver).
  destruct (match signal with Some s => aborted s | None => false end).
  - unfold settle. simpl. split; simpl; naive_solver.
  - destruct (write_throws failures) as [e|]; [apply reject_ok|]; apply Hx.
Qed.

Lemma exchange_step_ok ev x : 0 <= p_maxResponseBytes p -> exchange_ok x -> exchange_ok (exchange_step ev x).
Proof.
  intros Hmax Hx. destruct ev as [st hs|c|e| | | | |e]; cbn [exchange_step].
  - destruct (responded x); [done|]. unfold onResponse.
    assert (Hnew : forall r, exchange_ok (Exchange (settled x) (timer x) (listening x) (error_listener x) true
      r [] 0 None (destroyed x) (uncaught x))) by (intros r; destruct Hx; split; simpl; naive_solver).
    destruct (parseContentLength hs) as [declared|]; [|apply Hnew].
    destruct (_ <? declared); [|apply Hnew]. apply destroy_ok, reject_ok. destruct Hx; by split; simpl.
  - destruct (response x) as [[st hs]|]; [|done]. unfold onData.
    destruct (overflowError x) eqn:Ho; [done|]. destruct (ok_bytes _ Hx Ho) as [Hb Hle].
    destruct (Z.ltb_spec (p_maxResponseBytes p) (receivedBytes x + str_len c)).
    + apply destroy_ok. unfold settle. destruct Hx. simpl. destruct (settled x) eqn:Hs; split; simpl; naive_solver.
    + destruct Hx; split; simpl; try done. rewrite total_snoc. lia.
  - destruct (response x); [|done]. by apply reject_ok.
  - destruct (response x); [|done]. by apply reject_ok.
  - destruct (response x) as [[st hs]|]; [|done]. unfold onEnd.
    destruct (overflowError x) eqn:Ho; [done|]. apply settle_ok; [done|].
    intros r Hr. destruct (outcome_fields _ _ _ _ Hr) as (<- & <- & Hraw). exists (chunks x).
    split_and!; [done|by apply (ok_bytes _ Hx Ho)|by rewrite Hraw].
  - destruct (timer x) eqn:Ht; [|done]. destruct Hx. split; simpl; try done.
    + naive_solver.
    + intros _ _. right. set_solver.
  - destruct (listening x); [|done]. apply destroy_ok. destruct Hx; split; simpl; naive_solver.
  - destruct (error_listener x) eqn:Hl; [by apply reject_ok|]. destruct Hx; split; simpl; naive_solver.
Qed.

Lemma run_ok evs x : 0 <= p_maxResponseBytes p -> exchange_ok x -> exchange_ok (exchange_run evs x).
Proof.
  intros Hmax. revert x. induction evs as [|ev evs IH]; intros x Hx; [done|]. by apply IH, exchange_step_ok.
Qed.

Lemma step_settled ev x o : settled x = Some o -> settled (exchange_step ev x) = Some o.
Proof.
  intros Hs.
  assert (Hset : forall o' y, settled y = Some o -> settled (settle o' y) = Some o)
    by (intros o' y Hy; by rewrite settled_settle, Hy).
  destruct ev; simpl; repeat case_match; try done; unfold onResponse, onData, onEnd;
    repeat case_match; try done; simpl; try by apply Hset.
Qed.

Lemma run_settled evs x o : settled x = Some o -> settled (exchange_run evs x) = Some o.
Proof. revert x. induction evs as [|ev evs IH]; intros x Hx; [done|]. by apply IH, step_settled. Qed.

(** No event arms the timer. *)
Lemma timer_off evs x : timer x = false -> timer (exchange_run evs x) = false.
Proof.
  revert x. induction evs as [|ev evs IH]; intros x Hx; [done|]. apply IH.
  assert (Hset : forall o y, timer y = false -> timer (settle o y) = false)
    by (intros o y Hy; unfold settle; by destruct (settled y)).
  destruct ev; simpl; repeat case_match; try done; unfold onResponse, onData, onEnd;
    repeat case_match; try done; simpl; by apply Hset.
Qed.

Lemma start_timer_off failures signal : num_gt_Z (p_timeoutMs p) 0 = false -> timer (start failures signal) = false.
Proof. intros Hno. unfold start, settle. rewrite Hno. by repeat case_match. Qed.

(** ** Theorems *)

(** C28. An exchange settles at most once, whatever events arrive in whatever order after
    any start: a settled outcome stays; with it the timer is disarmed and the abort
    listener removed; a resolved body is the decoding of received chunks of at most
    [maxResponseBytes] bytes in all, parsed and checked as [outcome] says.  While it has
    not settled, an exchange with a positive time-out still has its timer, unless the
    timer has fired and destroyed the request; without one (0 disables it) there never
    is a timer; and any 'error' event settles it. *)
Theorem exchange_settles_once failures signal evs :
  0 <= p_maxResponseBytes p ->
  let x := exchange_run evs (start failures signal) in
  (forall evs' o, settled x = Some o -> settled (exchange_run evs' x) = Some o) /\
  (settled x <> None -> timer x = false /\ listening x = false) /\
  (forall r, settled x = Some (Ok r) -> exists cs,
     rawBody r = utf8_decode (String.concat "" cs) /\ total cs <= p_maxResponseBytes p /\
     outcome (status r) (response_headers r) (rawBody r) = Ok r) /\
  (num_gt_Z (p_timeoutMs p) 0 = false -> timer x = false) /\
  (settled x = None ->
     (num_gt_Z (p_timeoutMs p) 0 = true -> timer x = true \/ timeout_error ∈ destroyed x) /\
     forall e, settled (exchange_step (OnRequestError e) x) = Some (Throw e)).
Proof.
  intros Hmax x. assert (Hx : exchange_ok x) by (by apply run_ok, exchange_start_ok).
  split_and!; [intros evs' o; by apply run_settled|apply (ok_cleanup _ Hx)|apply (ok_result _ Hx)
    |intros Hno; by apply timer_off, start_timer_off|].
  intros Hs. split; [by apply (ok_timer _ Hx)|]. intros e. simpl.
  destruct (error_listener x) eqn:Hl; [by rewrite settled_settle, Hs|].
  by destruct (ok_listener _ Hx Hl).
Qed.

(** Reference for a complete response: the first size at which it is too large. *)
Fixpoint too_large (received : Z) (cs : list string) : option Z :=
  match cs with
  | [] => None
  | c :: cs =>
      let received := received + str_len c in
      if p_maxResponseBytes p <? received then Some received else too_large received cs
  end.

Definition expected_outcome (statusCode : option Z) (hs : IncomingHttpHeaders) (cs : list string) :
    result http_error JsonResponse :=
  let limit := ResponseSizeLimitError target (default 0 statusCode) (p_maxResponseBytes p) in
  let sized :=
    match too_large 0 cs with
    | Some n => Throw (limit n)
    | None => outcome (default 0 statusCode) hs (utf8_decode (String.concat "" cs))
    end in
  match parseContentLength hs with
  | Some declared => if p_maxResponseBytes p <? declared then Throw (limit declared) else sized
  | None => sized
  end.

(** Where the chunks lead from any point of the response. *)
Lemma data_run st hs cs x :
  response x = Some (st, hs) -> overflowError x = None -> settled x = None ->
  settled (exchange_run ((OnData <$> cs) ++ [OnEnd]) x) =
    Some match too_large (receivedBytes x) cs with
         | Some n => Throw (ResponseSizeLimitError target st (p_maxResponseBytes p) n)
         | None => outcome st hs (utf8_decode (String.concat "" (chunks x ++ cs)))
         end.
Proof.
  revert x. induction cs as [|c cs IH]; intros x Hr Ho Hs.
  - simpl. rewrite Hr. unfold onEnd. rewrite Ho, settled_settle, Hs. by rewrite app_nil_r.
  - change (exchange_run ((OnData <$> c :: cs) ++ [OnEnd]) x) with
      (exchange_run ((OnData <$> cs) ++ [OnEnd]) (exchange_step (OnData c) x)).
    cbn [exchange_step too_large]. rewrite Hr. unfold onData. rewrite Ho.
    destruct (Z.ltb_spec (p_maxResponseBytes p) (receivedBytes x + str_len c)).
    + apply run_settled. rewrite settled_destroy, settled_settle. simpl. by rewrite Hs.
    + rewrite IH by done. cbn [receivedBytes chunks]. by rewrite <- app_assoc.
Qed.

Lemma exchange_complete signal statusCode hs cs :
  match signal with Some s => aborted s = false | None => True end ->
  settled (exchange_run (OnResponse statusCode hs :: (OnData <$> cs) ++ [OnEnd])
             (start (Failures None None) signal)) =
    Some (expected_outcome statusCode hs cs).
Proof.
  intros Hsig. unfold start. cbn [requester_throws write_throws].
  replace (match signal with Some s => aborted s | None => false end) with false
    by (by destruct signal).
  set (x := Exchange _ _ _ _ _ _ _ _ _ _ _).
  change (exchange_run (?ev :: ?evs) x) with (exchange_run evs (exchange_step ev x)).
  cbn [exchange_step responded]. unfold x at 1. cbn [responded]. unfold onResponse, expected_outcome.
  destruct (parseContentLength hs) as [declared|]; [|by rewrite (data_run (default 0 statusCode) hs)].
  destruct (_ <? declared); [|by rewrite (data_run (default 0 statusCode) hs)].
  apply run_settled. by rewrite settled_destroy, settled_settle.
Qed.

(** A response that arrives completely settles the request with exactly the
    reference's outcome: too large as declared, too large as received (at the first
    chunk over the limit), not JSON, an HTTP error status, or the parsed body; an
    empty body is [null]. *)
Theorem response_settles signal statusCode hs cs :
  match signal with Some s => aborted s = false | None => True end ->
  settled (exchange_run (OnResponse statusCode hs :: (OnData <$> cs) ++ [OnEnd])
             (start (Failures None None) signal)) =
    Some (expected_outcome statusCode hs cs).
Proof. apply exchange_complete. Qed.

Lemma expected_Ok statusCode hs cs r : expected_outcome statusCode hs cs = Ok r ->
  exists raw, outcome (default 0 statusCode) hs raw = Ok r.
Proof. unfold expected_outcome. repeat case_match; try done; eauto. Qed.

Lemma expected_Throw statusCode hs cs e : expected_outcome statusCode hs cs = Throw e ->
  (exists a b c d, e = ResponseSizeLimitError a b c d) \/
  exists raw, outcome (default 0 statusCode) hs raw = Throw e.
Proof. unfold expected_outcome. repeat case_match; try (intros [= <-]; left; by eexists _, _, _, _); eauto. Qed.

(** The error of an aborted request is built before the request: its reason is the
    signal's reason at that time, which is undefined as long as the signal is not
    aborted, so the reason given to [abort] never reaches the caller. *)
Theorem abort_reason_lost failures evs :
  signal0 = Some (Signal false JUndefined) ->
  let x := exchange_run evs (start failures signal0) in
  Forall (fun e => forall t r, e = RequestAbortedError t r -> r = JUndefined) (destroyed x).
Proof.
  intros Hsig. cbv zeta. set (ok := fun e => forall t r, e = RequestAbortedError t r -> r = JUndefined).
  assert (Habort : ok abortError) by (unfold abortError; rewrite Hsig; by intros t r [= _ <-]).
  assert (Hrun : forall evs x, Forall ok (destroyed x) -> Forall ok (destroyed (exchange_run evs x))).
  { clear evs. induction evs as [|ev evs IH]; intros x Hx; [done|]. apply IH.
    assert (Hsettle : forall o y, destroyed (settle o y) = destroyed y)
      by (intros o y; unfold settle; by case_match).
    destruct ev; simpl; repeat case_match; try done; unfold onResponse, onData, onEnd;
      repeat case_match; cbn [destroy destroyed]; rewrite ?Hsettle; try done;
      (apply Forall_app; split; [done|by apply Forall_singleton]). }
  apply Hrun. unfold start. rewrite Hsig. simpl. repeat case_match; simpl; try done.
Qed.
End Exchange.

(** ** Headers *)

Lemma hasHeader_set h k k' v : hasHeader h k = true -> jm_get k' h = None ->
  hasHeader (jm_set k' v h) k = true.
Proof.
  intros Hh Hk. rewrite jm_set_fresh by done. unfold hasHeader in *. by rewrite existsb_app, Hh.
Qed.

Lemma hasHeader_set_eq h k v : jm_get k h = None -> hasHeader (jm_set k v h) k = true.
Proof.
  intros Hk. rewrite jm_set_fresh by done. unfold hasHeader. rewrite existsb_app. simpl.
  rewrite bool_decide_true by done. by rewrite orb_true_r.
Qed.

Lemma hasHeader_absent h k : hasHeader h k = false -> jm_get k h = None.
Proof.
  intros Hh. apply jm_get_None. intros (kv & -> & Hin)%list_elem_of_fmap.
  assert (Ht : hasHeader h kv.1 = true); [|by rewrite Hh in Ht].
  apply existsb_exists. exists kv. rewrite bool_decide_true by done. split; [|done].
  by apply list_elem_of_In.
Qed.

Lemma hasHeader_in h k : hasHeader h k = true <-> exists kv, kv ∈ h /\ to_lower kv.1 = to_lower k.
Proof.
  unfold hasHeader. rewrite existsb_exists. split; intros (kv & Hin & Hk); exists kv.
  - apply bool_decide_eq_true in Hk. by apply list_elem_of_In in Hin.
  - rewrite bool_decide_true by done. split; [by apply list_elem_of_In|done].
Qed.

Lemma set_in (h : OutgoingHttpHeaders) k v kv : kv ∈ jm_set k v h -> kv ∈ h \/ kv.1 = k.
Proof.
  induction h as [|[q w] h IH]; simpl; [intros ->%list_elem_of_singleton; by right|].
  destruct (decide _) as [<-|Hne]; intros [->|H]%elem_of_cons; [by right|by left; right|by left; left|].
  apply IH in H as [H|H]; [left; by right|by right].
Qed.

(** A header of [{ ...a, ...b }] is one of [a] or of [b]. *)
Lemma hasHeader_spread k (a b : OutgoingHttpHeaders) :
  hasHeader (js_spread a b) k = true -> hasHeader a k = true \/ hasHeader b k = true.
Proof.
  revert a. induction b as [|[q w] b IH]; intros a H; [by left|].
  apply (IH (jm_set q w a)) in H as [H|H].
  - apply hasHeader_in in H as (kv & [Hin|Hq]%set_in & Hk); [left|right]; apply hasHeader_in.
    + by exists kv.
    + exists (q, w). rewrite Hq in Hk. split; [by left|done].
  - right. apply hasHeader_in in H as (kv & Hin & Hk). apply hasHeader_in. exists kv. split; [by right|done].
Qed.

Lemma header_appended (h : OutgoingHttpHeaders) k v : jm_get k h = None ->
  jm_get k ((fun kv => (kv.1, HeaderString kv.2)) <$> (h ++ [(k, v)])) = Some (HeaderString v).
Proof.
  induction h as [|[q w] h IH]; simpl; [by rewrite decide_True|].
  destruct (decide _); [done|]. by apply IH.
Qed.

Lemma length_header_reads_back n : 0 <= n <= max_safe_integer ->
  let s := int_to_string n in
  is_empty (trim s) || negb (str_forallb is_num (trim s)) = false /\
  num_safe_integer (parse_int (trim s)) = Some n.
Proof.
  intros Hn. cbv zeta. pose proof (int_to_string_digits n ltac:(lia)) as Hd.
  rewrite trim_nospace.
  2:{ eapply str_forallb_impl; [|exact Hd]. intros c Hc.
      revert Hc. clear. by destruct c as [[] [] [] [] [] [] [] []]. }
  rewrite parse_int_to_string by done. split.
  - destruct (int_to_string_head n ltac:(lia)) as (c & r & d & Heq & _).
    apply orb_false_iff. split; [by rewrite Heq|]. apply negb_false_iff.
    eapply str_forallb_impl; [|exact Hd]. intros c'. clear. by destruct c' as [[] [] [] [] [] [] [] []].
  - unfold num_safe_integer. rewrite num_to_Z_int. by rewrite (proj2 (Z.leb_le _ _)) by lia.
Qed.

(** The headers of a request with a body: the caller's own, whatever their case, are
    all sent; a content type and a length are always among them; and unless the caller
    set one, the length is the number of bytes of the body, as the receiving side
    reads it. *)
Theorem sent_headers input body :
  jm_wf input ->
  let sent := buildHeaders input (Some body) in
  hasHeader sent "content-type" = true /\ hasHeader sent "content-length" = true /\
  (forall k v, jm_get k input = Some v -> jm_get k sent = Some v) /\
  (hasHeader input "content-length" = false -> 0 <= utf8_byte_length body <= max_safe_integer ->
   parseContentLength ((fun kv => (kv.1, HeaderString kv.2)) <$> sent) = Some (utf8_byte_length body)).
Proof.
  intros Hwf. cbv zeta. unfold buildHeaders. set (h0 := js_spread _ input).
  set (h1 := if negb (hasHeader h0 "content-type") then _ else h0).
  assert (H1 : hasHeader h1 "content-type" = true).
  { unfold h1. destruct (hasHeader h0 "content-type") eqn:H; [done|].
    apply hasHeader_set_eq. by apply hasHeader_absent. }
  assert (Hkeep : forall k v h k' v', jm_get k h = Some v -> hasHeader h k' = false -> to_lower k' = k' ->
    jm_get k (jm_set k' v' h) = Some v).
  { intros k v h k' v' Hk Hno _. rewrite jm_get_set_ne; [done|]. intros ->.
    apply hasHeader_absent in Hno. congruence. }
  assert (H0 : forall k v, jm_get k input = Some v -> jm_get k h1 = Some v).
  { intros k v Hk. assert (jm_get k h0 = Some v) by (by apply js_spread_get_new).
    unfold h1. destruct (hasHeader h0 "content-type") eqn:Hct; [done|]. by apply Hkeep. }
  destruct (hasHeader h1 "content-length") eqn:H2; cbn [negb].
  - split_and!; [done..|]. intros Hno. exfalso.
    assert (Hh0 : hasHeader h0 "content-length" = true).
    { unfold h1 in H2. destruct (hasHeader h0 "content-type") eqn:Ht; [done|]. cbn [negb] in H2.
      rewrite jm_set_fresh in H2 by (by apply hasHeader_absent).
      unfold hasHeader in *. rewrite existsb_app in H2. simpl in H2. by rewrite orb_false_r in H2. }
    apply hasHeader_spread in Hh0 as [Hh0|Hh0]; [done|by rewrite Hno in Hh0].
  - assert (Hnone : jm_get "content-length"%string h1 = None) by (by apply hasHeader_absent).
    split_and!.
    + by apply hasHeader_set.
    + by apply hasHeader_set_eq.
    + intros k v Hk. apply Hkeep; [by apply H0|done|done].
    + intros _ Hn. unfold parseContentLength.
      rewrite jm_set_fresh, header_appended by done. cbv zeta iota beta.
      destruct (length_header_reads_back _ Hn) as [-> ->]. done.
Qed.

(** ** Concrete inputs *)

Definition demo_json (s : string) : option jsval := if bool_decide (s = "{}"%string) then Some (JObj []) else None.
Definition demo_params : ExecuteJsonRequestParams :=
  Params (Url "http:" "h" "" "http://h/") "GET" None [] (num_of_Z 8000) 4 true None.

Lemma exchange_settles_once_witness :
  let x := exchange_run demo_json (fun s => s) demo_params None
             [OnTimer; OnRequestError (RequestTimeoutError (num_of_Z 8000) "http://h/")]
             (start demo_params None (Failures None None) None) in
  settled x = Some (Throw (RequestTimeoutError (num_of_Z 8000) "http://h/")) /\
  timer x = false /\ listening x = false.
Proof.
  pose proof (exchange_settles_once demo_json (fun s => s) demo_params None (Failures None None) None
    [OnTimer; OnRequestError (RequestTimeoutError (num_of_Z 8000) "http://h/")] ltac:(done)) as (_ & H & _).
  split; [reflexivity|]. by apply H.
Defined.

Lemma response_settles_witness :
  settled (exchange_run demo_json (fun s => s) demo_params None
    [OnResponse (Some 502) []; OnData "Bad"; OnEnd] (start demo_params None (Failures None None) None)) =
  Some (Throw (JsonParseError 502 "Bad")).
Proof.
  exact (response_settles demo_json (fun s => s) demo_params None None (Some 502) [] ["Bad"%string] I).
Defined.

Lemma abort_reason_lost_witness :
  let x := exchange_run demo_json (fun s => s) demo_params (Some (Signal false JUndefined)) [OnAbort]
             (start demo_params (Some (Signal false JUndefined)) (Failures None None)
                (Some (Signal false JUndefined))) in
  destroyed x = [RequestAbortedError "http://h/" JUndefined] /\
  Forall (fun e => forall t r, e = RequestAbortedError t r -> r = JUndefined) (destroyed x).
Proof.
  split; [reflexivity|].
  exact (abort_reason_lost demo_json (fun s => s) demo_params (Some (Signal false JUndefined))
    (Failures None None) [OnAbort] eq_refl).
Defined.

Lemma sent_headers_witness :
  parseContentLength ((fun kv => (kv.1, HeaderString kv.2)) <$>
    buildHeaders [("Content-Type", "text/plain")]%string (Some "{}"%string)) = Some 2.
Proof.
  destruct (sent_headers [("Content-Type", "text/plain")]%string "{}") as (_ & _ & _ & H).
  - by repeat constructor; set_solver.
  - apply H; [reflexivity|]. split; vm_compute; discriminate.
Defined.
