(* ===== verification/ControlPlane.v ===== *)
(** * Control-plane client ([src/control-plane/control-plane-client.ts])

    The client of the auth, pairing and telemetry APIs, on top of [HttpClient].  What a
    request function throws is a value: an Error with its name, message and code, a
    string, or anything else.  [new URL(path, base)] and Number-to-string are
    parameters. *)

From S2P Require Import Prelude JsMap ProxyCore ProxyAgents HttpClient.
Local Open Scope Z_scope.

Inductive ControlPlaneTransportErrorCode : Type :=
| request_timeout
| request_aborted
| transport_error
| unknown_transport_error.

(** A thrown value; [Transport] and [Http] are the two errors of this file. *)
Inductive thrown : Type :=
| ThrownError (name message : string) (code : option string)
| ThrownString (s : string)
| ThrownOther (v : jsval)
| ControlPlaneTransportError (code : ControlPlaneTransportErrorCode) (url : string) (cause : thrown)
| ControlPlaneHttpError (status : Z) (url : string) (responseBody : jsval).

Record ControlPlaneResponse : Type := CPResponse {
  cp_status : Z;
  cp_headers : IncomingHttpHeaders;
  cp_body : jsval
}.

Record ControlPlaneRequestOptions : Type := CPOptions {
  o_method : string;
  o_headers : OutgoingHttpHeaders;
  o_body : jsval;
  o_timeoutMs : num
}.

Record ControlPlaneClient : Type := CPClient {
  baseUrl : url;
  apiToken : option string;
  c_timeoutMs : num
}.

Definition normalizeTimeoutMs (timeoutMs : option num) : num :=
  match timeoutMs with
  | None => num_of_Z 8000
  | Some (Fin m e) =>
      if m <=? 0 then num_of_Z 8000
      else num_of_Z (trunc m e)  (* [Math.floor] of a positive number *)
  | Some _ => num_of_Z 8000
  end.

Definition inferTransportErrorCode (error : thrown) : option ControlPlaneTransportErrorCode :=
  match error with
  | ThrownString s =>
      if starts_with "request_timeout:" s then Some request_timeout
      else if bool_decide (s = "request_aborted"%string) then Some request_aborted
      else Some transport_error
  | ThrownError name message code =>
      if starts_with "request_timeout:" message || bool_decide (name = "RequestTimeoutError"%string)
      then Some request_timeout
      else if bool_decide (message = "request_aborted"%string) ||
              bool_decide (name = "RequestAbortedError"%string) ||
              bool_decide (name = "AbortError"%string) || bool_decide (code = Some "ABORT_ERR"%string)
      then Some request_aborted
      else if bool_decide (message = "proxy_resolution_error"%string) ||
              bool_decide (name = "ProxyResolutionError"%string)
      then Some transport_error
      else None
  | ControlPlaneTransportError _ _ _ | ControlPlaneHttpError _ _ _ => None
  | ThrownOther _ => Some unknown_transport_error
  end.

Definition normalizeTransportError (u : url) (error : thrown) : thrown :=
  match error with
  | ControlPlaneTransportError _ _ _ => error
  | _ =>
      match inferTransportErrorCode error with
      | Some code => ControlPlaneTransportError code (href u) error
      | None =>
          match error with
          | ThrownError _ _ _ | ControlPlaneHttpError _ _ _ => error
          | _ => ControlPlaneTransportError unknown_transport_error (href u) error
          end
      end
  end.

Definition assertSuccess (u : url) (response : ControlPlaneResponse) : result thrown unit :=
  if (200 <=? cp_status response) && (cp_status response <? 300) then Ok tt
  else Throw (ControlPlaneHttpError (cp_status response) (href u) (cp_body response)).

Section ControlPlane.
Context (URL_parse : string -> option url) (URL_resolve : string -> url -> option url).
Context (Number_toString : num -> string).

(** The [name], [message] and [code] of the errors of [HttpClient]. *)
Definition as_thrown (e : http_error) : thrown :=
  match e with
  | TypeError message => ThrownError "TypeError" message None
  | UnsupportedProtocolError protocol =>
      ThrownError "UnsupportedProtocolError" ("unsupported_protocol:" +:+ protocol)%string None
  | ProxyResolutionError _ => ThrownError "ProxyResolutionError" "proxy_resolution_error" None
  | RequestAbortedError _ _ => ThrownError "RequestAbortedError" "request_aborted" None
  | HttpStatusError status _ _ _ =>
      ThrownError "HttpStatusError" ("http_status_error:" +:+ int_to_string status)%string None
  | RequestTimeoutError timeoutMs _ =>
      ThrownError "RequestTimeoutError" ("request_timeout:" +:+ Number_toString timeoutMs)%string None
  | JsonParseError status _ =>
      ThrownError "JsonParseError" ("json_parse_error:" +:+ int_to_string status)%string None
  | ResponseSizeLimitError _ _ maxBytes _ =>
      ThrownError "ResponseSizeLimitError" ("response_size_limit_exceeded:" +:+ int_to_string maxBytes)%string None
  | NodeError name message code => ThrownError name message code
  end.

(** [None] when the base URL does not parse. *)
Definition newControlPlaneClient (base : request_target) (token : option string) (timeoutMs : option num) :
    option ControlPlaneClient :=
  u ← match base with RequestUrl u => Some u | RequestString s => URL_parse s end;
  let trimmed := trim (default EmptyString token) in
  Some (CPClient u (if is_empty trimmed then None else Some trimmed) (normalizeTimeoutMs timeoutMs)).

Definition request_options (client : ControlPlaneClient) (payload : jsval) : ControlPlaneRequestOptions :=
  CPOptions "POST"
    match apiToken client with
    | Some token => [("authorization", "Bearer " +:+ token)%string]
    | None => []
    end
    payload (c_timeoutMs client).

(** [post], with the request function's answer for the URL and options it is given. *)
Definition post (requestFn : url -> ControlPlaneRequestOptions -> result thrown ControlPlaneResponse)
    (client : ControlPlaneClient) (path : string) (payload : jsval) : result thrown jsval :=
  match URL_resolve path (baseUrl client) with
  | None => Throw (ThrownError "TypeError" "Invalid URL" (Some "ERR_INVALID_URL"%string))
  | Some u =>
      match requestFn u (request_options client payload) with
      | Throw error => Throw (normalizeTransportError u error)
      | Ok response => (let! _ := assertSuccess u response in Ok (cp_body response))%js
      end
  end.

Definition authenticate requestFn client input := post requestFn client "auth/device" input.
Definition claimPairing requestFn client input := post requestFn client "pair/claim" input.
Definition sendTelemetry requestFn client input := post requestFn client "telemetry/events" input.

(** ** The default request function *)

Definition package_options (options : ControlPlaneRequestOptions) : JsonRequestOptions :=
  RequestOptions (Some (o_method options)) (Some (o_headers options)) (o_body options)
    (Some (o_timeoutMs options)) None None (Some false) true.

Context (JSON_parse : string -> option jsval) (JSON_stringify : jsval -> result unit (option string)).
Context (utf8_decode : string -> string).

(** [toProxyAgentResolver]: the resolver's agent, or its exception. *)
Definition toProxyAgentResolver (proxyFactory : option (url -> option (option nat))) (u : url) : resolver_answer :=
  match proxyFactory with
  | None => NoResolver
  | Some resolve => match resolve u with Some agent => Resolved agent | None => ResolverFailed end
  end.

(** The exchange the environment answers a request with. *)
Abbreviation network := (ExecuteJsonRequestParams -> transport_failures * list exchange_event).

(** [None] while the request has not settled. *)
Definition requestViaProxyHttpPackage (net : network) (proxyFactory : option (url -> option (option nat)))
    (u : url) (options : ControlPlaneRequestOptions) : option (result thrown ControlPlaneResponse) :=
  match prepareRequest URL_parse JSON_stringify (RequestUrl u) (package_options options)
          (toProxyAgentResolver proxyFactory u) None with
  | Throw e => Some (Throw (as_thrown e))
  | Ok p =>
      let x := exchange_run JSON_parse utf8_decode p None (net p).2 (start p None (net p).1 None) in
      match settled x with
      | None => None
      | Some (Throw e) => Some (Throw (as_thrown e))
      | Some (Ok r) => Some (Ok (CPResponse (status r) (response_headers r) (body r)))
      end
  end.

(** [post] of a client without [requestFn]; [None] while the request is pending. *)
Definition post_default (net : network) proxyFactory (client : ControlPlaneClient) (path : string)
    (payload : jsval) : option (result thrown jsval) :=
  match URL_resolve path (baseUrl client) with
  | None => Some (post (fun _ _ => Throw (ThrownOther JUndefined)) client path payload)
  | Some u =>
      answer ← requestViaProxyHttpPackage net proxyFactory u (request_options client payload);
      Some (post (fun _ _ => answer) client path payload)
  end.

(** ** Lemmas *)

Lemma trunc_zero m e : 0 < m -> 0 <= trunc m e /\ (trunc m e = 0 <-> num_lt_Z (Fin m e) 1 = true).
Proof.
  intros Hm. unfold trunc, num_lt_Z. destruct (Z.leb_spec 0 e) as [He|He].
  - assert (0 < 2 ^ e) by (apply Z.pow_pos_nonneg; lia). rewrite Z.ltb_lt. nia.
  - assert (0 < 2 ^ (- e)) by (apply Z.pow_pos_nonneg; lia). rewrite Z.ltb_lt, Z.mul_1_l.
    rewrite Z.quot_div_nonneg by lia. split; [apply Z.div_pos; lia|].
    rewrite Z.div_small_iff by lia. lia.
Qed.

Lemma normalizeTimeoutMs_spec timeoutMs : exists n, normalizeTimeoutMs timeoutMs = num_of_Z n /\ 0 <= n /\
  (n = 0 <-> exists m e, timeoutMs = Some (Fin m e) /\ 0 < m /\ num_lt_Z (Fin m e) 1 = true).
Proof.
  destruct timeoutMs as [[| |m e]|]; simpl; try (exists 8000; split_and!; [done|lia|split; [lia|naive_solver]]).
  destruct (Z.leb_spec m 0).
  - exists 8000. split_and!; [done|lia|]. split; [lia|]. intros (m' & e' & [= -> ->] & ? & _). lia.
  - destruct (trunc_zero m e ltac:(lia)) as [H0 Hiff]. exists (trunc m e). split_and!; [done..|].
    rewrite Hiff. split; [intros Hlt; by exists m, e|by intros (? & ? & [= -> ->] & _ & ?)].
Qed.

(** ** Theorems *)

(** What a complete exchange answers with. *)
Lemma package_answer net proxyFactory u options p statusCode hs cs :
  prepareRequest URL_parse JSON_stringify (RequestUrl u) (package_options options)
    (toProxyAgentResolver proxyFactory u) None = Ok p ->
  net p = (Failures None None, OnResponse statusCode hs :: (OnData <$> cs) ++ [OnEnd]) ->
  requestViaProxyHttpPackage net proxyFactory u options =
    Some match expected_outcome JSON_parse utf8_decode p statusCode hs cs with
         | Throw e => Throw (as_thrown e)
         | Ok r => Ok (CPResponse (status r) (response_headers r) (body r))
         end.
Proof.
  intros Hp Hnet. unfold requestViaProxyHttpPackage. rewrite Hp, Hnet. cbn [fst snd].
  rewrite (exchange_complete JSON_parse utf8_decode p None None statusCode hs cs I).
  by destruct (expected_outcome _ _ _ _ _ _).
Qed.

(** What the documentation promises of a call that is answered ([ControlPlaneHttpError] is
    "raised for non-2xx control-plane responses"). *)
Definition success (status : Z) : bool := (200 <=? status) && (status <? 300).

Definition as_documented (status : Z) (u : url) (out : result thrown jsval) : Prop :=
  success status = false -> exists b, out = Throw (ControlPlaneHttpError status (href u) b).

Lemma post_default_answer net proxyFactory client path payload u p statusCode hs cs :
  URL_resolve path (baseUrl client) = Some u ->
  prepareRequest URL_parse JSON_stringify (RequestUrl u) (package_options (request_options client payload))
    (toProxyAgentResolver proxyFactory u) None = Ok p ->
  net p = (Failures None None, OnResponse statusCode hs :: (OnData <$> cs) ++ [OnEnd]) ->
  post_default net proxyFactory client path payload =
    Some match expected_outcome JSON_parse utf8_decode p statusCode hs cs with
         | Ok r => if success (default 0 statusCode) then Ok (body r)
                   else Throw (ControlPlaneHttpError (default 0 statusCode) (href u) (body r))
         | Throw e => Throw (as_thrown e)
         end.
Proof.
  intros Hu Hp Hnet. unfold post_default. rewrite Hu. cbn [mbind option_bind].
  rewrite (package_answer _ _ _ _ _ _ _ _ Hp Hnet). cbn [mbind option_bind].
  unfold post. rewrite Hu.
  assert (Hthrow : p_throwOnHttpError p = false).
  { by apply prepare_fields in Hp as (_ & _ & _ & ->). }
  destruct (expected_outcome _ _ p statusCode hs cs) as [r|e] eqn:He.
  - apply expected_Ok in He as (raw & Hr). apply outcome_fields in Hr as (<- & _ & _).
    unfold assertSuccess, rbind, success. simpl. by destruct (_ && _).
  - f_equal. f_equal. apply expected_Throw in He as [(a & b & c & d & ->)|(raw & He)]; [done|].
    unfold outcome, rbind in He. rewrite Hthrow in He. cbn [andb] in He.
    destruct (is_empty raw); [done|]. destruct (JSON_parse raw); [done|]. by injection He as <-.
Qed.


(** The errors of the HTTP package as the client reports them: time-outs, aborted
    requests and failed proxy resolutions become [ControlPlaneTransportError]s; the
    errors of a connection, such as a refused one, are rethrown as they are. *)
Theorem transport_errors_classified u e :
  normalizeTransportError u (as_thrown e) =
    match e with
    | RequestTimeoutError _ _ => ControlPlaneTransportError request_timeout (href u) (as_thrown e)
    | RequestAbortedError _ _ => ControlPlaneTransportError request_aborted (href u) (as_thrown e)
    | ProxyResolutionError _ => ControlPlaneTransportError transport_error (href u) (as_thrown e)
    | TypeError _ | NodeError _ _ _ => normalizeTransportError u (as_thrown e)
    | _ => as_thrown e
    end /\
  forall host code,
    normalizeTransportError u (as_thrown (NodeError "Error" ("connect " +:+ host)%string (Some code))) =
      if bool_decide (code = "ABORT_ERR"%string)
      then ControlPlaneTransportError request_aborted (href u)
             (as_thrown (NodeError "Error" ("connect " +:+ host)%string (Some code)))
      else as_thrown (NodeError "Error" ("connect " +:+ host)%string (Some code)).
Proof.
  split; [by destruct e|]. intros host code. unfold normalizeTransportError, as_thrown, inferTransportErrorCode.
  rewrite !str_app_cons, str_app_nil_l. simpl. destruct (decide (code = "ABORT_ERR"%string)) as [->|Hne]; [done|].
  rewrite !bool_decide_false by (intros [=]; congruence). done.
Qed.

(** The time-out of a client is a whole number of milliseconds and never negative, but
    it is 0 for an option between 0 and 1, and a request with time-out 0 never arms its
    timer: it is never timed out. *)
Theorem client_timeout base token timeoutMs client :
  newControlPlaneClient base token timeoutMs = Some client ->
  exists n, c_timeoutMs client = num_of_Z n /\ 0 <= n /\
    (n = 0 <-> exists m e, timeoutMs = Some (Fin m e) /\ 0 < m /\ num_lt_Z (Fin m e) 1 = true) /\
    (n = 0 -> forall p failures signal evs, p_timeoutMs p = c_timeoutMs client ->
       timer (start p None failures signal) = false /\
       timer (exchange_run JSON_parse utf8_decode p None evs (start p None failures signal)) = false).
Proof.
  intros Hc. assert (Htimeout : c_timeoutMs client = normalizeTimeoutMs timeoutMs).
  { unfold newControlPlaneClient in Hc. destruct base as [s|u]; simpl in Hc; [destruct (URL_parse s); [|done]|];
      by injection Hc as <-. }
  destruct (normalizeTimeoutMs_spec timeoutMs) as (n & Hn & H0 & Hiff).
  exists n. rewrite Htimeout, Hn. split_and!; [done..|].
  intros -> p failures signal evs Hp.
  assert (Hstart : timer (start p None failures signal) = false).
  { unfold start. rewrite Hp. simpl. destruct (requester_throws failures); [done|].
    unfold settle. repeat case_match; done. }
  split; [done|]. by apply timer_off.
Qed.
End ControlPlane.

(** ** Concrete inputs *)

Definition demo_base : url := Url "https:" "cp.example" "" "https://cp.example/".
Definition demo_resolve (path : string) (base : url) : option url :=
  Some (Url (protocol base) (hostname base) (url_port base) (href base +:+ path)%string).

(** An HTML error page from a gateway. *)
Definition demo_net : ExecuteJsonRequestParams -> transport_failures * list exchange_event :=
  fun _ => (Failures None None, [OnResponse (Some 502) []; OnData "<html>"; OnEnd]).

Definition demo_url : url := Url "https:" "cp.example" "" "https://cp.example/auth/device".
Definition demo_prepared : ExecuteJsonRequestParams :=
  Params demo_url "POST" (Some "{}"%string)
    [("accept", "application/json"); ("content-type", "application/json"); ("content-length", "2")]%string
    (num_of_Z 8000) 1048576 false None.


Lemma client_timeout_witness :
  exists n, num_of_Z 0 = num_of_Z n /\ 0 <= n.
Proof.
  destruct (client_timeout demo_parse demo_json (fun s => s) (RequestUrl demo_base) None (Some (Fin 1 (-1)))
    (CPClient demo_base None (num_of_Z 0)) eq_refl) as (n & Hn & H0 & _).
  exists n. split; [exact Hn|exact H0].
Defined.
