(* ===== verification/SshPreflight.v ===== *)
(** * SSH client preflight ([src/ssh/ssh-preflight.ts])

    Is there an SSH client, and of which version?  The two commands the check may run
    are answered by the environment: standard output, or the thrown value.  The four
    regular expressions are searches for the leftmost match; each is written as what
    it matches at one position. *)

From S2P Require Import Prelude.
Local Open Scope Z_scope.

(** A thrown value: an Error of a child process with the properties Node gives it, or
    any other value. *)
Inductive command_error : Type :=
| ErrorObject (message : string) (stdout stderr error_code : jsval)
| ErrorValue (v : jsval).

Record SshPreflightResult : Type := PreflightResult {
  available : bool;
  version : option string;
  reason : option string
}.

Definition DEFAULT_SSH_COMMAND : string := "ssh".
Definition DEFAULT_TIMEOUT_MS : Z := 5000.

Definition normalizeSshCommand (sshCommand : option string) : string :=
  let trimmed := match sshCommand with Some s => trim s | None => EmptyString end in
  if is_empty trimmed then DEFAULT_SSH_COMMAND else trimmed.

Definition normalizeTimeoutMs (timeoutMs : option num) : Z :=
  match timeoutMs with
  | Some (Fin m e) => if m <=? 0 then DEFAULT_TIMEOUT_MS else Z.max 1 (trunc m e)
  | _ => DEFAULT_TIMEOUT_MS
  end.

(** ** Regular expressions *)

(** [\w], and [\b] before a word character that follows [prev]. *)
Definition word_char (c : ascii) : bool := is_alnum c || Ascii.eqb c "_".
Definition boundary (prev : option ascii) : bool :=
  match prev with Some c => negb (word_char c) | None => true end.

(** [[^\s,]]. *)
Definition token_char (c : ascii) : bool := negb (is_space c) && negb (Ascii.eqb c ",").

(** The leftmost match of an expression that starts with [\b] and a word character:
    [at_here] is what the rest of the expression matches at a position. *)
Fixpoint leftmost (at_here : string -> option string) (prev : option ascii) (s : string) : option string :=
  match (if boundary prev then at_here s else None) with
  | Some m => Some m
  | None =>
      match s with
      | EmptyString => None
      | String c r => leftmost at_here (Some c) r
      end
  end.

(** [name[^\s,]*\d[^\s,]*], ignoring case: the star takes the whole run, which must
    hold a digit. *)
Definition named_version (name : string) (s : string) : option string :=
  if starts_with name (to_lower s) then
    let prefix := str_take (String.length name) s in
    let run := take_while token_char (str_drop (String.length name) s) in
    if str_forallb (fun c => negb (is_num c)) run then None else Some (prefix +:+ run)%string
  else None.

(** [ssh(?:\.exe)?\s+version\s+[^\s,]+], ignoring case. *)
Definition version_label (s : string) : option string :=
  if starts_with "ssh" (to_lower s) then
    let s1 := str_drop 3 s in
    let ext := if starts_with ".exe" (to_lower s1) then str_take 4 s1 else EmptyString in
    let s2 := str_drop (String.length ext) s1 in
    let gap1 := take_while is_space s2 in
    let s3 := str_drop (String.length gap1) s2 in
    if is_empty gap1 || negb (starts_with "version" (to_lower s3)) then None
    else
      let s4 := str_drop 7 s3 in
      let gap2 := take_while is_space s4 in
      let run := take_while token_char (str_drop (String.length gap2) s4) in
      if is_empty gap2 || is_empty run then None
      else Some (str_take 3 s +:+ ext +:+ gap1 +:+ str_take 7 s3 +:+ gap2 +:+ run)%string
  else None.

(** [SSH-\d\.\d-[^\s,]+]. *)
Definition banner (s : string) : option string :=
  match s with
  | String "S" (String "S" (String "H" (String "-" (String d (String "." (String d' (String "-" r))))))) =>
      let run := take_while token_char r in
      if is_num d && is_num d' && negb (is_empty run)
      then Some (str_take 8 s +:+ run)%string else None
  | _ => None
  end.

(** [text.replace(/\0/g, " ")]. *)
Definition clear_nul : string -> string := str_map (fun c => if Ascii.eqb c "000" then " "%char else c).

Definition extractSshVersion (rawText : string) : option string :=
  let normalized := trim (clear_nul rawText) in
  if is_empty normalized then None
  else
    match leftmost (named_version "openssh") None normalized with
    | Some m => Some m
    | None =>
        match leftmost (named_version "dropbear") None normalized with
        | Some m => Some m
        | None =>
            match leftmost version_label None normalized with
            | Some m => Some m
            | None => leftmost banner None normalized
            end
        end
    end.

(** ** Errors *)

Definition readText (value : jsval) : string := match value with JStr s => s | _ => EmptyString end.

(** The [message], [stdout], [stderr] and [code] of [asRecord(error)]. *)
Definition record_fields (error : command_error) : option (jsval * jsval * jsval * jsval) :=
  match error with
  | ErrorObject message stdout stderr code => Some (JStr message, stdout, stderr, code)
  | ErrorValue (JObj fs) =>
      Some (field "message" fs, field "stdout" fs, field "stderr" fs, field "code" fs)
  | _ => None
  end.

Definition nonempty (s : string) : list string := if is_empty s then [] else [s].

Definition readErrorText (error : command_error) : string :=
  let segments :=
    match error with
    | ErrorValue (JStr s) => [s]
    | ErrorObject message _ _ _ => [message]
    | ErrorValue _ => []
    end in
  let segments :=
    match record_fields error with
    | Some (message, stdout, stderr, _) =>
        segments ++ nonempty (readText message) ++ nonempty (readText stdout) ++ nonempty (readText stderr)
    | None => segments
    end in
  join (String "010" EmptyString) segments.

Definition error_code_text (error : command_error) : string :=
  match record_fields error with
  | Some (_, _, _, code) => to_upper (readText code)
  | None => EmptyString
  end.

Definition isMissingBinary (error : command_error) (errorText : string) : bool :=
  bool_decide (error_code_text error = "ENOENT"%string) ||
  (let normalized := to_lower errorText in
   includes "enoent" normalized || includes "not found" normalized ||
   includes "is not recognized as an internal or external command" normalized).

Definition isTimedOut (error : command_error) (errorText : string) : bool :=
  bool_decide (error_code_text error = "ETIMEDOUT"%string) ||
  (let normalized := to_lower errorText in
   includes "timed out" normalized || includes "timeout" normalized).

Definition classifyFailureReason (error : command_error) (errorText : string) : string :=
  if isMissingBinary error errorText then "ssh_command_not_found"
  else if isTimedOut error errorText then "ssh_version_check_timeout"
  else "ssh_version_check_failed".

(** ** The check *)

(** How a started command ends: [stdout] and [stderr], or the thrown value. *)
Abbreviation command_answer := (result command_error (string * string)).

Definition readVersionFromExecFile (answer : command_answer) : option string :=
  match answer with
  | Ok (stdout, stderr) => extractSshVersion (stdout +:+ String "010" stderr)
  | Throw error => extractSshVersion (readErrorText error)
  end.

(** [run] answers a command with its arguments and time-out: the runner's command
    first, then [execFile]'s; [default_runner] says that the runner is [runCommand]. *)
Definition checkSshClientAvailability (default_runner : bool) (sshCommand : option string)
    (timeoutMs : option num)
    (run : string -> list string -> Z -> command_answer)
    (run_again : string -> list string -> Z -> command_answer) : SshPreflightResult :=
  let command := normalizeSshCommand sshCommand in
  let timeout := normalizeTimeoutMs timeoutMs in
  match run command ["-V"%string] timeout with
  | Ok (stdout, _) =>
      let version :=
        match extractSshVersion stdout with
        | Some v => Some v
        | None =>
            if default_runner then readVersionFromExecFile (run_again command ["-V"%string] timeout) else None
        end in
      match version with
      | None => PreflightResult false None (Some "ssh_version_check_failed"%string)
      | Some v => PreflightResult true (Some v) None
      end
  | Throw error =>
      let errorText := readErrorText error in
      match extractSshVersion errorText with
      | Some v => PreflightResult true (Some v) None
      | None => PreflightResult false None (Some (classifyFailureReason error errorText))
      end
  end.

(** ** Lemmas *)

Lemma str_map_app f a b : str_map f (a +:+ b)%string = (str_map f a +:+ str_map f b)%string.
Proof. induction a as [|c a IH]; [by rewrite !str_app_nil_l|]. rewrite str_app_cons. simpl. by rewrite IH. Qed.

Lemma str_map_id f s : str_forallb (fun c => Ascii.eqb (f c) c) s = true -> str_map f s = s.
Proof.
  induction s as [|c s IH]; [done|]. simpl. intros [Hc%Ascii.eqb_eq Hs]%andb_true_iff. by rewrite Hc, IH.
Qed.

(** The search passes a prefix at whose positions nothing matches. *)
Fixpoint misses (at_here : string -> option string) (prev : option ascii) (prefix s : string) : Prop :=
  match prefix with
  | EmptyString => True
  | String c r =>
      (boundary prev = true -> at_here (prefix +:+ s)%string = None) /\ misses at_here (Some c) r s
  end.

Fixpoint last_char (prev : option ascii) (s : string) : option ascii :=
  match s with EmptyString => prev | String c r => last_char (Some c) r end.

Lemma leftmost_skip at_here prefix : forall prev s,
  misses at_here prev prefix s ->
  leftmost at_here prev (prefix +:+ s)%string = leftmost at_here (last_char prev prefix) s.
Proof.
  induction prefix as [|c r IH]; intros prev s; [by rewrite str_app_nil_l|].
  cbn [misses last_char]. intros [Hc Hr]. rewrite str_app_cons. cbn [leftmost].
  rewrite <- str_app_cons. destruct (boundary prev); [rewrite Hc by done|]; by apply IH.
Qed.

Lemma leftmost_here at_here prev s m : boundary prev = true -> at_here s = Some m ->
  leftmost at_here prev s = Some m.
Proof. intros Hb Hs. destruct s; simpl; by rewrite Hb, Hs. Qed.

Definition version_text (v : string) : Prop :=
  str_forallb (fun c => token_char c && negb (Ascii.eqb c "000")) v = true /\
  str_forallb (fun c => negb (is_num c)) v = false.

Lemma named_version_run name run c rest :
  str_forallb token_char run = true -> token_char c = false -> to_lower name = name ->
  named_version name (name +:+ run +:+ String c rest)%string =
    if str_forallb (fun c => negb (is_num c)) run then None else Some (name +:+ run)%string.
Proof.
  intros Hrun Hc Hname. unfold named_version. unfold to_lower at 1. rewrite str_map_app.
  fold (to_lower name). rewrite Hname, starts_with_app.
  by rewrite str_take_app, str_drop_app, take_while_app.
Qed.

(** ** Theorems *)

(** The check always answers, and its answer is consistent: a client is available
    exactly when a version was found, exactly when no reason is given; and the
    commands get a time-out of at least one millisecond. *)
Theorem preflight_consistent default_runner sshCommand timeoutMs run run_again :
  let r := checkSshClientAvailability default_runner sshCommand timeoutMs run run_again in
  (available r = true <-> is_Some (version r)) /\ (available r = true <-> reason r = None) /\
  1 <= normalizeTimeoutMs timeoutMs /\ is_empty (normalizeSshCommand sshCommand) = false.
Proof.
  assert (Htimeout : 1 <= normalizeTimeoutMs timeoutMs).
  { unfold normalizeTimeoutMs, DEFAULT_TIMEOUT_MS. repeat case_match; lia. }
  assert (Hcommand : is_empty (normalizeSshCommand sshCommand) = false).
  { unfold normalizeSshCommand. destruct sshCommand as [s|]; [|done].
    by destruct (is_empty (trim s)) eqn:Hs. }
  cbv zeta. unfold checkSshClientAvailability. split_and!; try done;
    repeat case_match; simpl; split; naive_solver.
Qed.

(** The message of a command that could not be started. *)
Definition enoent_error (command : string) : command_error :=
  ErrorObject ("spawn " +:+ command +:+ " ENOENT")%string JUndefined JUndefined (JStr "ENOENT").

Lemma error_text message code : is_empty message = false ->
  readErrorText (ErrorObject message JUndefined JUndefined code) = (message +:+ String "010" message)%string.
Proof.
  intros Hm. unfold readErrorText. cbn [record_fields readText]. unfold nonempty at 1. rewrite Hm.
  cbn [nonempty is_empty app join]. by rewrite str_app_cons, str_app_nil_l.
Qed.

Lemma enoent_version v :
  version_text v ->
  let message := ("spawn " +:+ ("/opt/openssh-" +:+ v +:+ "/bin/ssh") +:+ " ENOENT")%string in
  extractSshVersion (message +:+ String "010" message)%string = Some ("openssh-" +:+ v +:+ "/bin/ssh")%string.
Proof.
  intros [Hv Hdigit]. cbv zeta. set (command := ("/opt/openssh-" +:+ v +:+ "/bin/ssh")%string).
  set (text := (_ +:+ String "010" _)%string).
  assert (Hsplit : text = ("spawn /opt/" +:+ "openssh" +:+ ("-" +:+ v +:+ "/bin/ssh") +:+
    String " " ("ENOENT" +:+ String "010" ("spawn " +:+ command +:+ " ENOENT")))%string).
  { unfold text, command. rewrite <- !str_app_assoc. rewrite !str_app_cons, !str_app_nil_l.
    reflexivity. }
  assert (Hrun' : str_forallb token_char ("-" +:+ v +:+ "/bin/ssh")%string = true).
  { rewrite !str_forallb_app. simpl. rewrite andb_true_r. eapply str_forallb_impl; [|exact Hv].
    intros c Hc. by apply andb_true_iff in Hc as [-> _]. }
  assert (Hdig : str_forallb (fun c => negb (is_num c)) ("-" +:+ v +:+ "/bin/ssh")%string = false).
  { by rewrite !str_forallb_app, Hdigit. }
  assert (Hnul : clear_nul text = text).
  { apply str_map_id. rewrite Hsplit. unfold command. rewrite !str_forallb_app. cbn [str_forallb].
    rewrite !str_forallb_app. cbn [str_forallb]. rewrite !str_forallb_app.
    assert (Hid : str_forallb (fun c => Ascii.eqb (if Ascii.eqb c "000" then " "%char else c) c) v = true).
    { eapply str_forallb_impl; [|exact Hv]. intros c Hc. apply andb_true_iff in Hc as [_ Hc].
      destruct (Ascii.eqb c "000"); [done|apply Ascii.eqb_refl]. }
    by rewrite Hid. }
  assert (Htrim : trim text = text).
  { eapply (trim_id _ "s" _ (("spawn " +:+ command +:+ " ENOENT" +:+ String "010" ("spawn " +:+ command +:+ " ENOEN"))%string) "T").
    - unfold text. by rewrite !str_app_cons.
    - done.
    - unfold text. by rewrite <- !str_app_assoc, !str_app_cons, <- !str_app_assoc.
    - done. }
  unfold extractSshVersion. rewrite Hnul, Htrim.
  replace (is_empty text) with false by (unfold text; by rewrite !str_app_cons).
  rewrite Hsplit, leftmost_skip.
  2:{ cbn [misses]. split_and!; try done; intros _; unfold named_version; by rewrite !str_app_cons. }
  erewrite leftmost_here; [done|done|]. by rewrite named_version_run, Hdig by done.
Qed.

(** The text of an error is searched for a version before it is classified, and the
    path of the command is part of the text: a client installed under a versioned
    directory, such as /opt/openssh-9.8/bin/ssh, is reported as available, with its
    path as the version, when it cannot be started at all. *)
Theorem missing_binary_reported_available default_runner v timeoutMs run run_again :
  version_text v ->
  let command := ("/opt/openssh-" +:+ v +:+ "/bin/ssh")%string in
  (forall args t, run command args t = Throw (enoent_error command)) ->
  checkSshClientAvailability default_runner (Some command) timeoutMs run run_again =
    PreflightResult true (Some ("openssh-" +:+ v +:+ "/bin/ssh")%string) None.
Proof.
  intros Hversion command Hrun. pose proof Hversion as [Hv _]. unfold checkSshClientAvailability.
  assert (Hcommand : normalizeSshCommand (Some command) = command).
  { unfold normalizeSshCommand. rewrite trim_nospace; [done|]. unfold command.
    rewrite !str_forallb_app. simpl. rewrite andb_true_r. eapply str_forallb_impl; [|exact Hv].
    intros c Hc. unfold token_char in Hc. by destruct (is_space c). }
  rewrite Hcommand, Hrun. unfold enoent_error. rewrite error_text by (by rewrite str_app_cons).
  pose proof (enoent_version v Hversion) as Htext. cbv zeta in Htext. unfold command. by rewrite Htext.
Qed.

(** ** Concrete inputs *)

Lemma missing_binary_reported_available_witness :
  checkSshClientAvailability true (Some "/opt/openssh-9.8/bin/ssh"%string) None
    (fun command _ _ => Throw (enoent_error command)) (fun command _ _ => Throw (enoent_error command)) =
  PreflightResult true (Some "openssh-9.8/bin/ssh"%string) None.
Proof. refine (missing_binary_reported_available true "9.8" None _ _ _ _); [done|]. intros. reflexivity. Defined.

(** A client that was killed by the time-out is not recognised as timed out: Node gives
    such an error no code and the text of a failed command. *)
Example killed_is_not_a_timeout :
  checkSshClientAvailability true None None
    (fun _ _ _ => Throw (ErrorObject "Command failed: ssh -V" (JStr "") (JStr "") JNull))
    (fun _ _ _ => Throw (ErrorObject "Command failed: ssh -V" (JStr "") (JStr "") JNull)) =
  PreflightResult false None (Some "ssh_version_check_failed"%string).
Proof. reflexivity. Qed.
