(* ===== verification/Startup.v ===== *)
(** * Start-up ([src/index.ts], [src/startup/startup-profile.ts])

    The start-up policy checks and the sequence of [main] up to [startBridgeServer].
    The file system is what [stat] and [access] answer, unchanged during start-up;
    [path.resolve] and [path.dirname] are parameters.  Console output is left out,
    except for the report's log lines. *)

From S2P Require Import Prelude JsMap SshTarget Config Process SshPreflight Multiplexer RuntimeFactory.
Local Open Scope Z_scope.

Definition STARTUP_PROFILE_NAME : string := "remote_host".
Definition STARTUP_PROFILE_MIN_NODE_MAJOR : Z := 22.

Inductive StartupProfileCheckStatus : Type := pass | fail | skip.

#[export] Instance status_eq_dec : EqDecision StartupProfileCheckStatus.
Proof. solve_decision. Defined.

Record StartupProfileCheckResult : Type := Check {
  id : string;
  check_status : StartupProfileCheckStatus;
  detail : string;
  remediation : option string;
  metadata : list (string * jsval)
}.

Record StartupProfileReport : Type := Report {
  profile : string;
  nodeVersion : string;
  checks : list StartupProfileCheckResult;
  passed : Z;
  failed : Z;
  skipped : Z
}.

(** [stat]: no entry, another error, or an entry. *)
Inductive fs_entry : Type :=
| NoEntry
| StatError (message : string)
| Directory
| NotDirectory.

(** The modes [access] is asked for. *)
Inductive access_mode : Type := R_X | W_X | W_only.

Section Startup.
Context (stat : string -> fs_entry).
(** The message of the error [access] throws, if it throws. *)
Context (access : string -> access_mode -> option string).
Context (path_resolve path_dirname : string -> string).

(** [/^v?(\d+)(?:\.\d+)?(?:\.\d+)?/] on the trimmed text: the first number. *)
Definition parseNodeMajorVersion (version : string) : option Z :=
  let trimmed := trim version in
  let digits := take_while is_num
    match trimmed with String "v" r => r | _ => trimmed end in
  if is_empty digits then None
  else match parse_int digits with Fin m e => Some (trunc m e) | _ => None end.

Definition evaluateNodeRuntimeVersionPolicy (nodeVersion : string) : StartupProfileCheckResult :=
  let required := ("requiredMajor"%string, JInt STARTUP_PROFILE_MIN_NODE_MAJOR) in
  match parseNodeMajorVersion nodeVersion with
  | None =>
      Check "node_runtime_version" fail
        ("Unable to parse Node runtime version " +:+ in_quotes nodeVersion)
        (Some "Install Node 22+ and restart the bridge"%string)
        [("nodeVersion"%string, JStr nodeVersion); required]
  | Some nodeMajor =>
      if nodeMajor <? STARTUP_PROFILE_MIN_NODE_MAJOR then
        Check "node_runtime_version" fail
          ("Detected Node " +:+ nodeVersion +:+ "; requires major version >= 22")
          (Some "Upgrade Node runtime on the host to 22+"%string)
          [("nodeVersion"%string, JStr nodeVersion); ("nodeMajor"%string, JInt nodeMajor); required]
      else
        Check "node_runtime_version" pass
          ("Node runtime " +:+ nodeVersion +:+ " satisfies startup policy") None
          [("nodeVersion"%string, JStr nodeVersion); ("nodeMajor"%string, JInt nodeMajor); required]
  end.

Definition evaluateTmuxBackendSignalPolicy (runtimeBackends : list string)
    (runtimeAvailability : list (string * bool)) : StartupProfileCheckResult :=
  let id := "tmux_backend_signal"%string in
  if negb (bool_decide ("tmux"%string ∈ runtimeBackends)) then
    Check id skip "tmux backend is not configured in COMMANDRELAY_RUNTIME_BACKENDS" None
      [("configured"%string, JBool false)]
  else
    match jm_get "tmux"%string runtimeAvailability with
    | None =>
        Check id fail "tmux backend availability signal is missing from startup probe results"
          (Some "Ensure tmux is included in runtime startup availability probing"%string)
          [("configured"%string, JBool true)]
    | Some false =>
        Check id fail "tmux backend reported unavailable during startup probe"
          (Some "Install/start tmux on the host or remove tmux from COMMANDRELAY_RUNTIME_BACKENDS"%string)
          [("configured", JBool true); ("signaled", JBool true); ("available", JBool false)]%string
    | Some true =>
        Check id pass "tmux backend availability signal is present and healthy" None
          [("configured", JBool true); ("signaled", JBool true); ("available", JBool true)]%string
    end.

(** [null] for a missing entry; other errors are thrown. *)
Definition safeStat (path : string) : result string (option fs_entry) :=
  match stat path with
  | NoEntry => Ok None
  | StatError message => Throw message
  | entry => Ok (Some entry)
  end.

Definition isDirectory (e : fs_entry) : bool := match e with Directory => true | _ => false end.

Definition evaluateAppStaticDirPolicy (appStaticEnabled : bool) (appStaticDir : string) :
    result string StartupProfileCheckResult :=
  let id := "app_static_dir_policy"%string in
  let resolvedPath := path_resolve appStaticDir in
  let meta enabled := [("enabled", JBool enabled); ("resolvedPath", JStr resolvedPath)]%string in
  if negb appStaticEnabled then
    Ok (Check id skip "Static app hosting is disabled; app directory policy check skipped" None (meta false))
  else
    (let! pathStats := safeStat resolvedPath in
     Ok match pathStats with
        | None =>
            Check id fail ("Static app directory does not exist: " +:+ resolvedPath)
              (Some "Create COMMANDRELAY_APP_STATIC_DIR or disable static hosting"%string) (meta true)
        | Some e =>
            if negb (isDirectory e) then
              Check id fail ("Static app path is not a directory: " +:+ resolvedPath)
                (Some "Point COMMANDRELAY_APP_STATIC_DIR to a readable directory"%string) (meta true)
            else
              match access resolvedPath R_X with
              | Some message =>
                  Check id fail
                    ("Static app directory is not readable: " +:+ resolvedPath +:+ " (" +:+ message +:+ ")")
                    (Some "Grant read/execute permissions for COMMANDRELAY_APP_STATIC_DIR"%string) (meta true)
              | None => Check id pass "Static app directory policy check passed" None (meta true)
              end
        end)%js.

Definition evaluateAuditLogPathPolicy (auditLogPath : option string) :
    result string StartupProfileCheckResult :=
  let id := "audit_log_path_policy"%string in
  match auditLogPath with
  | None | Some EmptyString =>
      Ok (Check id skip "Audit log path is not configured; audit file policy check skipped" None
            [("configured"%string, JBool false)])
  | Some path =>
      let resolvedAuditPath := path_resolve path in
      let parentPath := path_dirname resolvedAuditPath in
      let meta := [("configured", JBool true); ("resolvedAuditPath", JStr resolvedAuditPath);
                   ("parentPath", JStr parentPath)]%string in
      (let! parentStats := safeStat parentPath in
       match parentStats with
       | None =>
           Ok (Check id fail ("Audit log parent directory does not exist: " +:+ parentPath)
                 (Some "Create the parent directory or set COMMANDRELAY_AUDIT_LOG to a valid writable path"%string) meta)
       | Some e =>
           if negb (isDirectory e) then
             Ok (Check id fail ("Audit log parent path is not a directory: " +:+ parentPath)
                   (Some "Set COMMANDRELAY_AUDIT_LOG to a path under a writable directory"%string) meta)
           else
             let! auditPathStats := safeStat resolvedAuditPath in
             Ok (if match auditPathStats with Some e => isDirectory e | None => false end then
                   Check id fail ("Audit log path points to a directory: " +:+ resolvedAuditPath)
                     (Some "Set COMMANDRELAY_AUDIT_LOG to a file path, not a directory"%string) meta
                 else
                   match access parentPath W_X with
                   | Some message =>
                       Check id fail
                         ("Audit log parent directory is not writable: " +:+ parentPath +:+ " (" +:+ message +:+ ")")
                         (Some "Grant write permissions to the audit log parent directory"%string) meta
                   | None =>
                       match auditPathStats, access resolvedAuditPath W_only with
                       | Some _, Some message =>
                           Check id fail
                             ("Audit log file is not writable: " +:+ resolvedAuditPath +:+ " (" +:+ message +:+ ")")
                             (Some "Grant write permissions to the audit log file or choose another path"%string) meta
                       | _, _ => Check id pass "Audit log path policy check passed" None meta
                       end
                   end)
       end)%js
  end.

Definition count (s : StartupProfileCheckStatus) (checks : list StartupProfileCheckResult) : Z :=
  Z.of_nat (length (filter (fun c => check_status c = s) checks)).

Definition evaluateStartupProfile (config : BridgeConfig) (runtimeAvailability : list (string * bool))
    (nodeVersion : string) : result string StartupProfileReport :=
  let node := evaluateNodeRuntimeVersionPolicy nodeVersion in
  let tmux := evaluateTmuxBackendSignalPolicy (runtimeBackends config) runtimeAvailability in
  (let! static := evaluateAppStaticDirPolicy (appStaticEnabled config) (appStaticDir config) in
   let! audit := evaluateAuditLogPathPolicy (auditLogPath config) in
   let checks := [node; tmux; static; audit] in
   Ok (Report STARTUP_PROFILE_NAME nodeVersion checks (count pass checks) (count fail checks) (count skip checks)))%js.

Definition check_status_text (s : StartupProfileCheckStatus) : string :=
  match s with pass => "pass" | fail => "fail" | skip => "skip" end.

(** The lines with their level; the payload is given to [JSON.stringify]. *)
Definition logStartupProfileReport (report : StartupProfileReport) : list (string * jsval) :=
  ("info"%string,
   JObj [("event", JStr "startup_profile_summary"); ("profile", JStr (profile report));
         ("nodeVersion", JStr (nodeVersion report)); ("passed", JInt (passed report));
         ("failed", JInt (failed report)); ("skipped", JInt (skipped report))]%string)
  :: ((fun check =>
        (if bool_decide (check_status check = fail) then "warn" else "info",
         JObj [("event", JStr "startup_profile_check"); ("profile", JStr (profile report));
               ("id", JStr (id check)); ("status", JStr (check_status_text (check_status check)));
               ("detail", JStr (detail check));
               ("remediation", match remediation check with Some r => JStr r | None => JNull end);
               ("metadata", JObj (metadata check))])%string) <$> checks report).

Definition assertStartupProfilePass (report : StartupProfileReport) : result string unit :=
  if failed report =? 0 then Ok tt
  else
    let failedChecks := filter (fun c => check_status c = fail) (checks report) in
    let reasonText := join " "
      ((fun check =>
          (id check +:+ ": " +:+ detail check +:+ "." +:+
           match remediation check with Some r => " Remediation: " +:+ r | None => "" end)%string) <$> failedChecks) in
    Throw ("Startup profile " +:+ in_quotes (profile report) +:+ " failed with " +:+
           int_to_string (Z.of_nat (length failedChecks)) +:+ " check(s). " +:+ reasonText)%string.

(** ** [main] *)

Definition formatSshPreflightFailureReason (reason : option string) (sshCommand : string) : string :=
  match reason with
  | Some r =>
      if bool_decide (r = "ssh_command_not_found"%string)
      then "SSH client binary " +:+ in_quotes sshCommand +:+ " was not found in PATH."
      else if bool_decide (r = "ssh_version_check_timeout"%string) then "SSH client version check timed out."
      else if bool_decide (r = "ssh_version_check_failed"%string) then "SSH client version check failed."
      else "unknown failure"
  | None => "unknown failure"
  end.

(** How the two commands of the preflight check are answered. *)
Context (ssh_answer ssh_answer_again : string -> list string -> Z -> command_answer).

Definition preflightSshTransport (transportConfig : StartupTransportConfig) : result string unit :=
  if negb (bool_decide (mode transportConfig = "ssh"%string)) then Ok tt
  else
    let availability := checkSshClientAvailability true (Some (t_sshCommand transportConfig)) None
                          ssh_answer ssh_answer_again in
    if negb (available availability) then
      Throw ("SSH startup preflight failed: " +:+
             formatSshPreflightFailureReason (reason availability) (t_sshCommand transportConfig))%string
    else
      match version availability with
      | None | Some EmptyString =>
          Throw "SSH startup preflight failed: SSH client version was unavailable."%string
      | Some _ => Ok tt
      end.

Context (JSON_parse : string -> option jsval) (isIP : string -> Z) (readable : string -> bool).
Context (w : world) (st : bool).

(** From the environment to the adapter given to [startBridgeServer]. *)
Definition main (env : environment) (nodeVersion : string) : result string runtime_adapter :=
  (let! config := loadConfig isIP env in
   let! _ := validateStartupConfig readable config in
   let transportConfig := resolveStartupTransportConfig config in
   let! _ := preflightSshTransport transportConfig in
   let! runtimeBackends := createRuntimeBackends (runtimeBackends config) (Config.cmuxCommand config) transportConfig in
   let adapters := backend_at JSON_parse w st [] <$> runtimeBackends in
   let backendAvailability := checkRuntimeBackendAvailability adapters in
   let availableBackends := (logRuntimeBackendAvailability backendAvailability).2 in
   if (availableBackends =? 0) && negb (isTmuxOnly (Config.runtimeBackends config)) then
     Throw ("No configured runtime backends are available (" +:+ join "," (Config.runtimeBackends config) +:+ ")")%string
   else
     let! startupProfile := evaluateStartupProfile config backendAvailability nodeVersion in
     let! _ := assertStartupProfilePass startupProfile in
     match createRuntimeAdapter (Config.runtimeBackends config) adapters with
     | Ok adapter => Ok adapter
     | Throw e => Throw (err_message e)
     end)%js.

(** ** What start-up asks of the host *)

Definition static_ok (config : BridgeConfig) : Prop :=
  appStaticEnabled config = true ->
  stat (path_resolve (appStaticDir config)) = Directory /\ access (path_resolve (appStaticDir config)) R_X = None.

Definition audit_ok (config : BridgeConfig) : Prop :=
  match auditLogPath config with
  | None | Some EmptyString => True
  | Some path =>
      let file := path_resolve path in
      let parent := path_dirname file in
      stat parent = Directory /\ access parent W_X = None /\
      (stat file = NoEntry \/ stat file = NotDirectory /\ access file W_only = None)
  end.

Definition node_ok (nodeVersion : string) : Prop :=
  exists major, parseNodeMajorVersion nodeVersion = Some major /\ STARTUP_PROFILE_MIN_NODE_MAJOR <= major.

Definition tmux_ok (backends : list string) (availability : list (string * bool)) : Prop :=
  "tmux"%string ∈ backends -> jm_get "tmux"%string availability = Some true.

(** ** Lemmas *)

Lemma node_policy v : check_status (evaluateNodeRuntimeVersionPolicy v) <> fail <-> node_ok v.
Proof.
  unfold evaluateNodeRuntimeVersionPolicy, node_ok. destruct (parseNodeMajorVersion v) as [m|]; simpl.
  - destruct (Z.ltb_spec m STARTUP_PROFILE_MIN_NODE_MAJOR); simpl; split; try done.
    + intros (? & [= <-] & ?). lia.
    + intros _. by exists m.
  - split; [done|]. by intros (? & ? & _).
Qed.

Lemma tmux_policy backends availability :
  check_status (evaluateTmuxBackendSignalPolicy backends availability) <> fail <-> tmux_ok backends availability.
Proof.
  unfold evaluateTmuxBackendSignalPolicy, tmux_ok. case_bool_decide; simpl; [|by split].
  destruct (jm_get _ _) as [[]|]; simpl; split; try done; intros H'; by specialize (H' H).
Qed.

Lemma static_policy config :
  (exists c, evaluateAppStaticDirPolicy (appStaticEnabled config) (appStaticDir config) = Ok c /\
     check_status c <> fail) <-> static_ok config.
Proof.
  unfold evaluateAppStaticDirPolicy, static_ok, safeStat. destruct (appStaticEnabled config); simpl.
  2:{ split; [done|]. intros _. by eexists. }
  destruct (stat _); simpl; (split; [intros (c & [= <-] & Hc)|intros H; specialize (H eq_refl) as [H1 H2]]);
    try done; destruct (access _ R_X); try done. by eexists.
Qed.

Lemma audit_policy config :
  (exists c, evaluateAuditLogPathPolicy (auditLogPath config) = Ok c /\ check_status c <> fail) <->
  audit_ok config.
Proof.
  unfold evaluateAuditLogPathPolicy, audit_ok, safeStat.
  destruct (auditLogPath config) as [[|ch path]|]; try (split; [done|]; intros _; by eexists).
  set (p := String ch path). destruct (stat (path_dirname (path_resolve p))) eqn:Hparent; simpl;
    try (split; [intros (c & [= <-] & Hc)|]; by intuition).
  destruct (stat (path_resolve p)) eqn:Hfile; simpl;
    destruct (access (path_dirname (path_resolve p)) W_X) eqn:Hwx; simpl;
    try destruct (access (path_resolve p) W_only) eqn:Hw; simpl;
    (split; [intros (c & Hok & Hc); simplify_eq/=; by intuition|
             intros (_ & Hwx' & [Hf|[Hf Hw']]); simplify_eq/=; try done; by eexists]).
Qed.

Lemma count_fail l : count fail l = 0 <-> Forall (fun c => check_status c <> fail) l.
Proof.
  unfold count. induction l as [|c l IH]; [split; [constructor|done]|].
  rewrite filter_cons, Forall_cons. destruct (decide (check_status c = fail)).
  - simpl. split; [lia|]. by intros [].
  - rewrite IH. tauto.
Qed.

Lemma count_total l : count pass l + count fail l + count skip l = Z.of_nat (length l).
Proof.
  unfold count. induction l as [|c l IH]; [done|]. rewrite !filter_cons.
  destruct (check_status c) eqn:Hs; rewrite ?(decide_True _ _ eq_refl); simpl; lia.
Qed.

Lemma profile_passes config availability v :
  (exists r, evaluateStartupProfile config availability v = Ok r /\ assertStartupProfilePass r = Ok tt) <->
  node_ok v /\ tmux_ok (runtimeBackends config) availability /\ static_ok config /\ audit_ok config.
Proof.
  rewrite <- node_policy, <- tmux_policy, <- static_policy, <- audit_policy. unfold evaluateStartupProfile.
  set (n := evaluateNodeRuntimeVersionPolicy v). set (t := evaluateTmuxBackendSignalPolicy _ _).
  assert (Hassert : forall s a,
    assertStartupProfilePass (Report STARTUP_PROFILE_NAME v [n; t; s; a]
      (count pass [n; t; s; a]) (count fail [n; t; s; a]) (count skip [n; t; s; a])) = Ok tt <->
    Forall (fun c => check_status c <> fail) [n; t; s; a]).
  { intros s a. rewrite <- count_fail. unfold assertStartupProfilePass. cbn [failed].
    destruct (Z.eqb_spec (count fail [n; t; s; a]) 0); by split. }
  split.
  - intros (r & Hr & Hpass). apply rbind_Ok in Hr as (s & Hs & Hr). apply rbind_Ok in Hr as (a & Ha & [= <-]).
    apply Hassert in Hpass. rewrite !Forall_cons in Hpass. naive_solver.
  - intros (Hn & Ht & (s & Hs & Hsf) & (a & Ha & Haf)). rewrite Hs, Ha. eexists. split; [done|].
    apply Hassert. by repeat constructor.
Qed.

(** ** Theorems *)

(** A report has its four checks, each counted once; and start-up passes it exactly
    when Node is of major version 22 or later, tmux is available if it is among the
    backends, the static directory is a readable directory if it is served, and the
    audit log can be written if there is one. *)
Theorem startup_profile_iff config availability v :
  ((exists r, evaluateStartupProfile config availability v = Ok r /\ assertStartupProfilePass r = Ok tt) <->
   node_ok v /\ tmux_ok (runtimeBackends config) availability /\ static_ok config /\ audit_ok config) /\
  forall r, evaluateStartupProfile config availability v = Ok r ->
    id <$> checks r = ["node_runtime_version"; "tmux_backend_signal"; "app_static_dir_policy";
                       "audit_log_path_policy"]%string /\ passed r + failed r + skipped r = 4.
Proof.
  split; [apply profile_passes|]. intros r Hr. unfold evaluateStartupProfile in Hr.
  apply rbind_Ok in Hr as (s & Hs & Hr). apply rbind_Ok in Hr as (a & Ha & [= <-]).
  cbn [passed failed skipped checks]. split; [|by rewrite count_total].
  assert (Hid : forall f c, f = Ok c -> (f = evaluateAppStaticDirPolicy (appStaticEnabled config) (appStaticDir config) ->
    id c = "app_static_dir_policy"%string) /\ (f = evaluateAuditLogPathPolicy (auditLogPath config) ->
    id c = "audit_log_path_policy"%string)).
  { intros f c Hc. split; intros ->; revert Hc; unfold evaluateAppStaticDirPolicy, evaluateAuditLogPathPolicy, rbind;
      repeat case_match; by intros [= <-]. }
  cbn [fmap list_fmap]. f_equal; [by unfold evaluateNodeRuntimeVersionPolicy; repeat case_match|].
  f_equal; [by unfold evaluateTmuxBackendSignalPolicy; repeat case_match|].
  f_equal; [by apply (Hid _ s Hs)|]. f_equal. by apply (Hid _ a Ha).
Qed.

Lemma availability_count av : (logRuntimeBackendAvailability av).2 = 0 <-> Forall (fun b => b.2 = false) av.
Proof.
  assert (Hnn : forall av, 0 <= (logRuntimeBackendAvailability av).2).
  { clear. induction av as [|[b []] av IH]; simpl; [done|..]; destruct (logRuntimeBackendAvailability av); simpl in *; lia. }
  induction av as [|[b []] av IH]; simpl; [by split|..]; rewrite Forall_cons; pose proof (Hnn av);
    destruct (logRuntimeBackendAvailability av); simpl in *; [|by intuition].
  split; [lia|]. by intros [? _].
Qed.

(** The bridge starts exactly when the host is as the configuration asks: for an
    environment that loads and passes the configuration check, [main] reaches
    [startBridgeServer] if and only if the SSH client answers (in SSH mode), Node, the
    static directory and the audit log are as the profile wants them, and tmux - if it
    is among the backends, alone or not - is available, or else some other backend is. *)
Theorem main_starts_iff env v c backends :
  loadConfig isIP env = Ok c -> validateStartupConfig readable c = Ok tt ->
  createRuntimeBackends (runtimeBackends c) (Config.cmuxCommand c) (resolveStartupTransportConfig c) = Ok backends ->
  let availability := checkRuntimeBackendAvailability (backend_at JSON_parse w st [] <$> backends) in
  (exists adapter, main env v = Ok adapter) <->
  preflightSshTransport (resolveStartupTransportConfig c) = Ok tt /\
  node_ok v /\ static_ok c /\ audit_ok c /\
  tmux_ok (runtimeBackends c) availability /\
  (exists b, (b, true) ∈ availability).
Proof.
  intros Hload Hvalid Hbackends. cbv zeta. set (availability := checkRuntimeBackendAvailability _).
  destruct (startup_adapters JSON_parse isIP readable env c w st Hload Hvalid) as (adapters & Hmake & Hids & adapter & Had & _).
  rewrite Hbackends in Hmake. injection Hmake as <-.
  unfold main. rewrite Hload. cbn [rbind]. rewrite Hvalid. cbn [rbind].
  destruct (preflightSshTransport _) as [[]|e]; cbn [rbind]; [|split; [by intros []|by intros []]].
  rewrite Hbackends. cbn [rbind]. fold availability. rewrite Had.
  assert (Havail : (exists b, (b, true) ∈ availability) <-> (logRuntimeBackendAvailability availability).2 <> 0).
  { rewrite availability_count. split.
    - intros [b Hb] Hall. by apply (proj1 (Forall_forall _ _) Hall) in Hb.
    - intros Hno. apply not_Forall_Exists in Hno; [|intros ?; apply _]. apply Exists_exists in Hno as ([b av] & Hb & Hne).
      exists b. destruct av; [exact Hb|]. exfalso. by apply Hne. }
  rewrite Havail.
  assert (Htail : (exists a, (let! p := evaluateStartupProfile c availability v in
      let! _ := assertStartupProfilePass p in Ok adapter)%js = Ok a) <->
    node_ok v /\ tmux_ok (runtimeBackends c) availability /\ static_ok c /\ audit_ok c).
  { rewrite <- profile_passes. split.
    - intros (a & Ha). apply rbind_Ok in Ha as (r & Hr & Ha). apply rbind_Ok in Ha as ([] & Ha & _). eauto.
    - intros (r & Hr & Ha). exists adapter. by rewrite Hr; simpl; rewrite Ha. }
  destruct (Z.eqb_spec (logRuntimeBackendAvailability availability).2 0) as [H0|H0]; cbn [andb].
  - destruct (isTmuxOnly (runtimeBackends c)) eqn:Honly; cbn [negb].
    + rewrite Htail. split; [|tauto]. intros (_ & Htmux & _). exfalso.
      unfold isTmuxOnly in Honly. apply bool_decide_eq_true in Honly.
      specialize (Htmux ltac:(rewrite Honly; by left)). apply jm_get_In in Htmux.
      apply Havail in H0; [done|eauto].
    + split; [by intros []|tauto].
  - rewrite Htail. tauto.
Qed.
End Startup.

(** ** Concrete inputs *)

Definition demo_ssh : string -> list string -> Z -> command_answer := fun _ _ _ => Ok ("", "OpenSSH_9.8p1")%string.

Lemma main_starts_iff_witness :
  (exists adapter, main (fun _ => Directory) (fun _ _ => None) (fun s => s) (fun s => s) demo_ssh demo_ssh
     (fun _ => None) demo_isIP (fun _ => true) (fun _ _ => Ok "%1"%string) false ssh_env "v22.4.0" = Ok adapter).
Proof.
  eapply (main_starts_iff (fun _ => Directory) (fun _ _ => None) (fun s => s) (fun s => s) demo_ssh demo_ssh
    (fun _ => None) demo_isIP (fun _ => true) (fun _ _ => Ok "%1"%string) false ssh_env "v22.4.0" ssh_config);
    [vm_compute; reflexivity..|].
  split; [vm_compute; reflexivity|]. split; [exists 22; split; [vm_compute; reflexivity|by apply Z.leb_le]|].
  split; [intros _; split; vm_compute; reflexivity|]. split; [exact I|].
  split; [intros _; vm_compute; reflexivity|]. exists "tmux"%string. vm_compute. by left.
Defined.
