(* ===== verification/Tui.v ===== *)
(** * Terminal client ([packages/commandrelay-tui/src/cli-runtime.ts], [cli-state.ts],
    [cli.ts], [cli-commands.ts])

    The connection life of the terminal client: bootstraps with their awaits, the
    reconnect timer with its back-off and cool-down, the heartbeat timer, close events,
    and the commands that change them.  A bootstrap in flight is a task that waits for
    one answer of the environment; several may be in flight.  A client of the gateway
    package is a number; it is [alive] from its creation until it is closed, by either
    side: a closed client has no listeners, so it emits nothing more, and its requests
    throw ([Client.closed_client_is_dead]).  A handler reads the clock once, and its
    random jitter is an argument. *)

From S2P Require Import Prelude JsMap.
Local Open Scope Z_scope.

Definition RECONNECT_ATTEMPTS_MAX : Z := 6.
Definition RECONNECT_COOLDOWN_MS : Z := 45000.
Definition RECONNECT_FAILURE_THRESHOLD : Z := 3.
Definition RECONNECT_BASE_MS : Z := 1000.
Definition RECONNECT_MAX_MS : Z := 20000.
Definition RECONNECT_JITTER_MS : Z := 250.

(** ** State *)

Record CliHelloState : Type := HelloState {
  requiresAuth : bool;
  inputEnabled : bool;
  globalInputDisabled : bool;
  maxInputBytes : option num
}.

(** The two callbacks a reconnect timer can have, with its delay. *)
Inductive reconnect_timer : Type :=
| CooldownTimer (delay : Z)
| AttemptTimer (delay : Z).

(** The state of the reconnect logic. *)
Record reconnect_state : Type := Reconnect {
  reconnectTimer : option reconnect_timer;
  reconnectAttempts : Z;
  reconnectFailures : Z;
  reconnectCooldownUntil : Z
}.

Record CliState : Type := State {
  client : option nat;
  connected : bool;
  hello : option CliHelloState;
  activePane : option string;
  heartbeatTimer : bool;
  reconnect : reconnect_state;
  userRequestedClose : bool;
  authFailureBlocked : bool;
  authToken : option string
}.

Definition createInitialCliState : CliState :=
  State None false None None false (Reconnect None 0 0 0) false false None.

Definition set_client c s := State c (connected s) (hello s) (activePane s) (heartbeatTimer s) (reconnect s) (userRequestedClose s) (authFailureBlocked s) (authToken s).
Definition set_connected c s := State (client s) c (hello s) (activePane s) (heartbeatTimer s) (reconnect s) (userRequestedClose s) (authFailureBlocked s) (authToken s).
Definition set_hello h s := State (client s) (connected s) h (activePane s) (heartbeatTimer s) (reconnect s) (userRequestedClose s) (authFailureBlocked s) (authToken s).
Definition set_pane p s := State (client s) (connected s) (hello s) p (heartbeatTimer s) (reconnect s) (userRequestedClose s) (authFailureBlocked s) (authToken s).
Definition set_heartbeat b s := State (client s) (connected s) (hello s) (activePane s) b (reconnect s) (userRequestedClose s) (authFailureBlocked s) (authToken s).
Definition set_reconnect r s := State (client s) (connected s) (hello s) (activePane s) (heartbeatTimer s) r (userRequestedClose s) (authFailureBlocked s) (authToken s).
Definition set_user_close b s := State (client s) (connected s) (hello s) (activePane s) (heartbeatTimer s) (reconnect s) b (authFailureBlocked s) (authToken s).
Definition set_blocked b s := State (client s) (connected s) (hello s) (activePane s) (heartbeatTimer s) (reconnect s) (userRequestedClose s) b (authToken s).
Definition set_token t s := State (client s) (connected s) (hello s) (activePane s) (heartbeatTimer s) (reconnect s) (userRequestedClose s) (authFailureBlocked s) t.

Definition set_timer t r := Reconnect t (reconnectAttempts r) (reconnectFailures r) (reconnectCooldownUntil r).

(** [Math.ceil(ms / 1000)] of a non-negative integer. *)
Definition ceil_seconds (ms : Z) : Z := (ms + 999) / 1000.

Definition getReconnectMetricsLine (now : Z) (s : CliState) : string :=
  let r := reconnect s in
  let cooldownRemainingMs := Z.max (reconnectCooldownUntil r - now) 0 in
  ("reconnect metrics: attempts=" +:+ int_to_string (reconnectAttempts r) +:+ "/" +:+
   int_to_string RECONNECT_ATTEMPTS_MAX +:+ ", failures=" +:+ int_to_string (reconnectFailures r) +:+
   ", cooldown=" +:+ int_to_string (ceil_seconds cooldownRemainingMs) +:+ "s, blocked=" +:+
   (if authFailureBlocked s then "true" else "false") +:+ ", timer=" +:+
   match reconnectTimer r with Some _ => "armed" | None => "idle" end)%string.

(** ** Reconnecting *)

(** The branch of [scheduleReconnect] during a cool-down. *)
Definition schedule_cooldown (now jitter : Z) (s : CliState) : list string * CliState :=
  let r := reconnect s in
  let remainingMs := Z.max (reconnectCooldownUntil r - now) 0 in
  (["reconnect cooldown active: " +:+ int_to_string (ceil_seconds (reconnectCooldownUntil r - now)) +:+ "s remaining";
    getReconnectMetricsLine now s]%string,
   set_reconnect (set_timer (Some (CooldownTimer (remainingMs + jitter))) r) s).

Definition scheduleReconnect (now jitter : Z) (s : CliState) : list string * CliState :=
  if userRequestedClose s then ([], s)
  else
    let r := reconnect s in
    match reconnectTimer r with
    | Some _ => ([], s)
    | None =>
        if now <? reconnectCooldownUntil r then schedule_cooldown now jitter s
        else if RECONNECT_ATTEMPTS_MAX <=? reconnectAttempts r then
          let s := set_reconnect (Reconnect None 0 0 (now + RECONNECT_COOLDOWN_MS)) s in
          let (out, s') := schedule_cooldown now jitter s in
          ("reconnect attempts exhausted; cooling down for 45s"%string :: getReconnectMetricsLine now s :: out, s')
        else
          let delay := Z.min RECONNECT_MAX_MS (RECONNECT_BASE_MS * 2 ^ reconnectAttempts r) + jitter in
          let r := Reconnect None (reconnectAttempts r + 1) (reconnectFailures r) (reconnectCooldownUntil r) in
          let s := set_reconnect r s in
          (["reconnecting in " +:+ int_to_string (ceil_seconds delay) +:+ "s (attempt " +:+
            int_to_string (reconnectAttempts r) +:+ "/" +:+ int_to_string RECONNECT_ATTEMPTS_MAX +:+ ")";
            getReconnectMetricsLine now s]%string,
           set_reconnect (set_timer (Some (AttemptTimer delay)) r) s)
    end.

Definition stopHeartbeat (s : CliState) : CliState := set_heartbeat false s.

Definition startHeartbeat (s : CliState) : CliState :=
  match client s with
  | None => s
  | Some _ => set_heartbeat true s
  end.

Definition auth_words : list string :=
  ["auth"; "token"; "credential"; "permission"; "invalid token"; "forbidden"; "not authorized"]%string.

Definition isAuthenticationClose (reason : string) (code : Z) : bool :=
  (code =? 1008) || existsb (fun w => includes w (to_lower reason)) auth_words.

(** The "close" listener. *)
Definition onClose (now jitter code : Z) (closeReason : string) (s : CliState) : list string * CliState :=
  let s := set_pane None (set_hello None (set_client None (stopHeartbeat (set_connected false s)))) in
  let (out1, s) :=
    if isAuthenticationClose closeReason code then
      (["authentication closed connection; run /token"%string],
       set_reconnect (set_timer None (reconnect s)) (set_token None (set_blocked true s)))
    else ([], s) in
  let (out2, s) :=
    if negb (userRequestedClose s) && negb (authFailureBlocked s)
    then scheduleReconnect now jitter s else ([], s) in
  (out1 ++ out2 ++ ["closed " +:+ int_to_string code +:+ ": " +:+ closeReason]%string, s).

(** ** Bootstraps in flight *)

Record boot_error : Type := BootError { boot_message : string; authentication : bool }.

(** Who called [connectAndBootstrap]: [main], the reconnect timer, [reconnectNow], or
    [runAuth] with the token that was typed. *)
Inductive caller : Type :=
| FromMain
| FromTimer
| FromReconnect
| FromToken (candidate : string).

(** What a task waits for; [boot_client] is [None] until the client is made.  The last
    two are no bootstraps: [runAuth] on the current client, and [disconnectCleanly]. *)
Inductive phase : Type :=
| Loading
| Connecting
| Prompting
| Authenticating (token : string)
| Refreshing
| DirectAuth (token : string)
| Disconnecting.

(** [boot_hello]: the hello payload of the client, its [clientId] first. *)
Record task : Type := Task {
  boot_caller : caller;
  boot_client : option nat;
  boot_phase : phase;
  boot_hello : option (string * CliHelloState)
}.

(** [alive]: the clients made so far; [tasks]: the calls in flight, by number;
    [uncaught]: rejections nobody handles. *)
Record tui : Type := Tui {
  st : CliState;
  alive : list bool;
  tasks : list (nat * task);
  next_task : nat;
  uncaught : list string
}.

Definition initial_tui : tui := Tui createInitialCliState [] [] 0 [].

Definition set_st s x := Tui s (alive x) (tasks x) (next_task x) (uncaught x).

Definition add_task (t : task) (x : tui) : tui :=
  Tui (st x) (alive x) (tasks x ++ [(next_task x, t)]) (S (next_task x)) (uncaught x).

(** A call of [connectAndBootstrap], up to its first await. *)
Definition connectAndBootstrap (c : caller) (x : tui) : tui :=
  add_task (Task c None Loading None) x.

Definition set_task (i : nat) (t : task) (x : tui) : tui :=
  Tui (st x) (alive x) (jm_set i t (tasks x)) (next_task x) (uncaught x).
Definition end_task (i : nat) (x : tui) : tui :=
  Tui (st x) (alive x) (jm_delete i (tasks x)) (next_task x) (uncaught x).
Definition kill (n : nat) (x : tui) : tui :=
  Tui (st x) (<[n := false]> (alive x)) (tasks x) (next_task x) (uncaught x).

(** The module is loaded: make the client and connect. *)
Definition bootLoaded (i : nat) (t : task) (x : tui) : tui :=
  let n := length (alive x) in
  set_task i (Task (boot_caller t) (Some n) Connecting None)
    (Tui (set_client (Some n) (set_user_close false (st x))) (alive x ++ [true]) (tasks x) (next_task x) (uncaught x)).

(** The [catch] block of [connectAndBootstrap], and then the caller's. *)
Definition bootFailed (i : nat) (t : task) (e : boot_error) (now jitter : Z) (x : tui) : list string * tui :=
  let s := st x in
  let r := reconnect s in
  let (out1, s) :=
    if authentication e then
      (["authentication failed; use /token to provide valid credentials"%string],
       set_reconnect (Reconnect (reconnectTimer r) 0 0 0) (set_token None (set_blocked true s)))
    else
      let failures := reconnectFailures r + 1 in
      if RECONNECT_FAILURE_THRESHOLD <=? failures
      then (["temporary network issue; cooling down for 45s"%string],
            set_reconnect (Reconnect (reconnectTimer r) 0 0 (now + RECONNECT_COOLDOWN_MS)) s)
      else ([], set_reconnect (Reconnect (reconnectTimer r) (reconnectAttempts r) failures
                                 (reconnectCooldownUntil r)) s) in
  let (out2, s) :=
    match boot_caller t with
    | FromMain =>
        (("connect failure: " +:+ boot_message e)%string ::
         (if authentication e then ["start disconnected; use /token to provide valid credentials"%string]
          else ["connection unavailable; auto-reconnect is active when possible.";
                "run /reconnect to retry immediately."]%string), s)
    | FromTimer =>
        let (out, s) := scheduleReconnect now jitter s in
        (("reconnect failed: " +:+ boot_message e)%string :: out, s)
    | FromReconnect =>
        if authentication e then ([], s)
        else
          let (out, s) := scheduleReconnect now jitter s in
          (("reconnect failed: " +:+ boot_message e)%string :: out, s)
    | FromToken _ =>
        (["auth failed: " +:+ boot_message e]%string,
         set_token None (if authentication e then set_blocked true s else s))
    end in
  let x := end_task i (set_st s x) in
  (out1 ++ out2, match boot_client t with Some n => kill n x | None => x end).

(** After the handshake and the authentication: up to [refreshSessions]. *)
Definition bootReady (i : nat) (t : task) (x : tui) : tui :=
  let h := default (HelloState false false false None) (snd <$> boot_hello t) in
  let s := set_hello (Some h) (set_blocked false (st x)) in
  let s := set_reconnect (Reconnect (reconnectTimer (reconnect s)) 0 0 0) s in
  set_task i (Task (boot_caller t) (boot_client t) Refreshing (boot_hello t)) (set_st s x).

(** [client.connect()] resolved; [h] is [client.hello]. *)
Definition bootConnected (i : nat) (t : task) (h : option (string * CliHelloState)) (x : tui) :
    list string * tui :=
  let t := Task (boot_caller t) (boot_client t) (boot_phase t) h in
  if match h with Some (_, h) => requiresAuth h | None => false end then
    match authToken (st x) with
    | Some (String c r) =>
        ([], set_task i (Task (boot_caller t) (boot_client t) (Authenticating (String c r)) h) x)
    | _ => ([], set_task i (Task (boot_caller t) (boot_client t) Prompting h) x)
    end
  else
    (["connected to " +:+ match h with Some (clientId, _) => clientId | None => "server" end]%string,
     bootReady i t x).

Definition bootPrompted (i : nat) (t : task) (answer : option string) (now jitter : Z) (x : tui) :
    list string * tui :=
  match answer with
  | None | Some EmptyString => bootFailed i t (BootError "auth token required" false) now jitter x
  | Some token => ([], set_task i (Task (boot_caller t) (boot_client t) (Authenticating token) (boot_hello t)) x)
  end.

(** [client.authenticate(token)] settled. *)
Definition bootAuthenticated (i : nat) (t : task) (token : string) (r : option boot_error)
    (now jitter : Z) (x : tui) : list string * tui :=
  match r with
  | None =>
      (["authenticated"%string], bootReady i t (set_st (set_token (Some token) (st x)) x))
  | Some e => bootFailed i t e now jitter (set_st (set_token None (st x)) x)
  end.

(** [refreshSessions(true)] returned; then the caller goes on. *)
Definition bootRefreshed (i : nat) (t : task) (x : tui) : list string * tui :=
  let x := end_task i (set_st (startHeartbeat (st x)) x) in
  match boot_caller t with
  | FromMain => ([], x)
  | FromTimer => (["reconnected"%string], x)
  | FromReconnect => ([], x)
  | FromToken _ => (["authenticated"%string], x)
  end.

(** ** Commands *)

Definition reconnectNow (x : tui) : list string * tui :=
  let s := st x in
  if match client s with Some _ => true | None => connected s end
  then (["already connected; use /token for auth or /quit then /reconnect"%string], x)
  else
    let s := set_reconnect (Reconnect None 0 0 0) (set_blocked false s) in
    (["manual reconnect requested"%string], connectAndBootstrap FromReconnect (set_st s x)).

(** [runAuth] once a token was typed, and, on a connected client, once
    [client.authenticate(token)] settled. *)
Definition runAuth (candidate : option string) (x : tui) : list string * tui :=
  match candidate with
  | None | Some EmptyString => (["auth token cancelled"%string], x)
  | Some token =>
      let s := st x in
      match client s with
      | None => ([], connectAndBootstrap (FromToken token) (set_st (set_blocked false (set_token (Some token) s)) x))
      | Some n => ([], add_task (Task (FromToken token) (Some n) (DirectAuth token) None) x)
      end
  end.

Definition directAuthenticated (i : nat) (token : string) (r : option boot_error) (x : tui) : list string * tui :=
  let s := st x in
  match r with
  | None => (["authenticated"%string], end_task i (set_st (set_token (Some token) s) x))
  | Some e =>
      (["auth failed: " +:+ boot_message e]%string,
       end_task i (set_st (set_token None (if authentication e then set_blocked true s else s)) x))
  end.

(** [disconnectCleanly] up to its await, and once [client.disconnect()] settled; its
    [finally] block has closed the client either way. *)
Definition disconnectCleanly (x : tui) : tui :=
  let s := set_user_close true (set_connected false (st x)) in
  let s := stopHeartbeat (set_reconnect (set_timer None (reconnect s)) s) in
  let x := set_st s x in
  match client s with
  | None => x
  | Some n => add_task (Task FromMain (Some n) Disconnecting None) x
  end.

Definition disconnected (i : nat) (t : task) (ok : bool) (x : tui) : tui :=
  let x := match boot_client t with Some n => kill n x | None => x end in
  let x := end_task i x in
  let cleared := set_st (set_pane None (set_hello None (set_client None (st x)))) x in
  if ok then cleared
  else
    match client (st x) with
    | Some n => kill n cleared
    | None =>
        Tui (st x) (alive x) (tasks x) (next_task x)
          (uncaught x ++ ["Cannot read properties of null (reading 'close')"%string])
    end.

(** ** Events *)

Inductive event : Type :=
| Loaded (i : nat)
| Connected (i : nat) (h : option (string * CliHelloState))
| ConnectFailed (i : nat) (e : boot_error)
| Prompted (i : nat) (answer : option string)
| Authenticated (i : nat) (r : option boot_error)
| Refreshed (i : nat)
| TimerFired
| HelloEvent (n : nat)
| CloseEvent (n : nat) (code : Z) (reason : string)
| CommandReconnect
| CommandToken (candidate : option string)
| CommandDisconnect
| Disconnected (i : nat) (ok : bool).

Definition with_task (i : nat) (x : tui) (k : task -> list string * tui) : list string * tui :=
  match jm_get i (tasks x) with Some t => k t | None => ([], x) end.

Definition step (now jitter : Z) (ev : event) (x : tui) : list string * tui :=
  match ev with
  | Loaded i =>
      with_task i x (fun t =>
        match boot_phase t with Loading => ([], bootLoaded i t x) | _ => ([], x) end)
  | Connected i h =>
      with_task i x (fun t =>
        match boot_phase t with Connecting => bootConnected i t h x | _ => ([], x) end)
  | ConnectFailed i e =>
      with_task i x (fun t =>
        match boot_phase t with Connecting => bootFailed i t e now jitter x | _ => ([], x) end)
  | Prompted i answer =>
      with_task i x (fun t =>
        match boot_phase t with Prompting => bootPrompted i t answer now jitter x | _ => ([], x) end)
  | Authenticated i r =>
      with_task i x (fun t =>
        match boot_phase t with
        | Authenticating token => bootAuthenticated i t token r now jitter x
        | DirectAuth token => directAuthenticated i token r x
        | _ => ([], x)
        end)
  | Refreshed i =>
      with_task i x (fun t =>
        match boot_phase t with Refreshing => bootRefreshed i t x | _ => ([], x) end)
  | TimerFired =>
      let s := st x in
      match reconnectTimer (reconnect s) with
      | None => ([], x)
      | Some (CooldownTimer _) =>
          let s := set_reconnect (set_timer None (reconnect s)) s in
          let (out, s) := scheduleReconnect now jitter s in
          (out, set_st s x)
      | Some (AttemptTimer _) =>
          let s := set_reconnect (set_timer None (reconnect s)) s in
          let s := set_pane None (set_hello None (set_client None (stopHeartbeat s))) in
          ([], connectAndBootstrap FromTimer (set_st s x))
      end
  | HelloEvent n =>
      if default false (alive x !! n) then ([], set_st (set_connected true (st x)) x) else ([], x)
  | CloseEvent n code reason =>
      if default false (alive x !! n) then
        let (out, s) := onClose now jitter code reason (st x) in
        (out, kill n (set_st s x))
      else ([], x)
  | CommandReconnect => reconnectNow x
  | CommandToken candidate => runAuth candidate x
  | CommandDisconnect => ([], disconnectCleanly x)
  | Disconnected i ok =>
      with_task i x (fun t =>
        match boot_phase t with Disconnecting => ([], disconnected i t ok x) | _ => ([], x) end)
  end.

(** Events with their clock reading and jitter. *)
Fixpoint run (evs : list (Z * Z * event)) (x : tui) : list string * tui :=
  match evs with
  | [] => ([], x)
  | (now, jitter, ev) :: evs =>
      let (out, x) := step now jitter ev x in
      let (out', x) := run evs x in
      (out ++ out', x)
  end.

(** What the gateway package can answer: the requests of a closed client throw. *)
Definition possible (ev : event) (x : tui) : Prop :=
  match ev with
  | Connected i _ | Authenticated i None | Disconnected i true =>
      exists t n, jm_get i (tasks x) = Some t /\ boot_client t = Some n /\ alive x !! n = Some true
  | _ => True
  end.

Fixpoint possible_run (evs : list (Z * Z * event)) (x : tui) : Prop :=
  match evs with
  | [] => True
  | (now, jitter, ev) :: evs => possible ev x /\ possible_run evs (step now jitter ev x).2
  end.

(** ** The reconnect state stays in bounds *)

(** The clock does not go back, and the jitter is [Math.floor(Math.random() * 250)]. *)
Fixpoint clock_ok (t : Z) (evs : list (Z * Z * event)) : Prop :=
  match evs with
  | [] => True
  | (now, jitter, _) :: evs => t <= now /\ 0 <= jitter < RECONNECT_JITTER_MS /\ clock_ok now evs
  end.

Definition timer_ok (t : option reconnect_timer) : Prop :=
  match t with
  | None => True
  | Some (AttemptTimer d) => RECONNECT_BASE_MS <= d < RECONNECT_MAX_MS + RECONNECT_JITTER_MS
  | Some (CooldownTimer d) => 0 <= d < RECONNECT_COOLDOWN_MS + RECONNECT_JITTER_MS
  end.

Definition reconnect_ok (t : Z) (r : reconnect_state) : Prop :=
  0 <= reconnectAttempts r <= RECONNECT_ATTEMPTS_MAX /\
  0 <= reconnectFailures r < RECONNECT_FAILURE_THRESHOLD /\
  reconnectCooldownUntil r <= t + RECONNECT_COOLDOWN_MS /\ timer_ok (reconnectTimer r).

Lemma reconnect_ok_later t t' r : t <= t' -> reconnect_ok t r -> reconnect_ok t' r.
Proof. intros Ht (? & ? & ? & ?). split_and!; try tauto; lia. Qed.

Lemma scheduleReconnect_ok now jitter s : 0 <= jitter < RECONNECT_JITTER_MS ->
  reconnect_ok now (reconnect s) -> reconnect_ok now (reconnect (scheduleReconnect now jitter s).2).
Proof.
  intros Hj (Ha & Hf & Hc & Ht). unfold scheduleReconnect. destruct (userRequestedClose s); [done|].
  destruct (reconnectTimer (reconnect s)) eqn:Htimer; [by rewrite <- Htimer in Ht|].
  unfold RECONNECT_JITTER_MS, RECONNECT_ATTEMPTS_MAX, RECONNECT_COOLDOWN_MS, RECONNECT_FAILURE_THRESHOLD in *.
  destruct (Z.ltb_spec now (reconnectCooldownUntil (reconnect s))).
  - unfold reconnect_ok. cbn. unfold RECONNECT_COOLDOWN_MS, RECONNECT_JITTER_MS. split_and!; try tauto; lia.
  - destruct (Z.leb_spec 6 (reconnectAttempts (reconnect s))).
    + unfold reconnect_ok. cbn. unfold RECONNECT_COOLDOWN_MS, RECONNECT_JITTER_MS, RECONNECT_ATTEMPTS_MAX, RECONNECT_FAILURE_THRESHOLD.
      split_and!; try lia.
    + assert (1 <= 2 ^ reconnectAttempts (reconnect s)) by (apply (Z.pow_le_mono_r 2 0); lia).
      unfold reconnect_ok. cbn -[Z.pow Z.mul Z.min].
      unfold RECONNECT_BASE_MS, RECONNECT_MAX_MS, RECONNECT_JITTER_MS, RECONNECT_ATTEMPTS_MAX, RECONNECT_FAILURE_THRESHOLD, RECONNECT_COOLDOWN_MS.
      split_and!; try lia.
Qed.

Lemma bootFailed_ok i t e now jitter x : 0 <= now -> 0 <= jitter < RECONNECT_JITTER_MS ->
  reconnect_ok now (reconnect (st x)) -> reconnect_ok now (reconnect (st (bootFailed i t e now jitter x).2)).
Proof.
  intros Hnow Hj (Ha & Hf & Hc & Ht). unfold bootFailed.
  set (failed := (if authentication e then _ else _) : list string * CliState).
  assert (Hfail : reconnect_ok now (reconnect failed.2)).
  { unfold failed, reconnect_ok, RECONNECT_ATTEMPTS_MAX, RECONNECT_COOLDOWN_MS, RECONNECT_FAILURE_THRESHOLD in *.
    destruct (authentication e); [|destruct (Z.leb_spec 3 (reconnectFailures (reconnect (st x)) + 1))];
      cbn; split_and!; try tauto; lia. }
  destruct failed as [out1 s]. cbn [snd] in Hfail.
  assert (Hkill : forall y, reconnect (st (match boot_client t with Some n => kill n y | None => y end)) = reconnect (st y))
    by (intros y; by destruct (boot_client t)).
  pose proof (scheduleReconnect_ok now jitter s Hj Hfail) as Hsched.
  destruct (boot_caller t); simpl.
  - rewrite Hkill. done.
  - destruct (scheduleReconnect now jitter s). simpl. by rewrite Hkill.
  - destruct (authentication e); [|destruct (scheduleReconnect now jitter s)]; simpl; by rewrite Hkill.
  - rewrite Hkill. by destruct (authentication e).
Qed.

(** A success, or a command, starts the count again. *)
Lemma reset_ok now timer : 0 <= now -> timer_ok timer -> reconnect_ok now (Reconnect timer 0 0 0).
Proof.
  intros Hn Ht. unfold reconnect_ok, RECONNECT_ATTEMPTS_MAX, RECONNECT_FAILURE_THRESHOLD, RECONNECT_COOLDOWN_MS.
  cbn. split_and!; try done; lia.
Qed.

Lemma no_timer_ok now r : reconnect_ok now r -> reconnect_ok now (set_timer None r).
Proof. intros (Ha & Hf & Hc & _). unfold reconnect_ok. cbn. tauto. Qed.

Lemma bootReady_ok i t now x : 0 <= now -> reconnect_ok now (reconnect (st x)) ->
  reconnect_ok now (reconnect (st (bootReady i t x))).
Proof. intros Hn (_ & _ & _ & Ht). by apply reset_ok. Qed.

Lemma tui_step_ok now jitter ev x : 0 <= now -> 0 <= jitter < RECONNECT_JITTER_MS ->
  reconnect_ok now (reconnect (st x)) -> reconnect_ok now (reconnect (st (step now jitter ev x).2)).
Proof.
  intros Hn Hj Hr. destruct ev as [i|i h|i e|i answer|i r|i| |n|n code reason| |c| |i ok]; cbn [step]; unfold with_task;
    try (destruct (jm_get i (tasks x)) as [t|]; [|done]; destruct (boot_phase t) eqn:Hphase; try done).
  - unfold bootConnected. destruct h as [[id h]|]; [|by apply bootReady_ok].
    destruct (requiresAuth h); [|by apply bootReady_ok]. by repeat case_match.
  - by apply bootFailed_ok.
  - unfold bootPrompted. destruct answer as [[|ch tk]|]; [by apply bootFailed_ok|done|by apply bootFailed_ok].
  - unfold bootAuthenticated. destruct r; [by apply bootFailed_ok|by apply bootReady_ok].
  - unfold directAuthenticated. destruct r as [e|]; [|done]. simpl. by destruct (authentication e).
  - unfold bootRefreshed. assert (reconnect (startHeartbeat (st x)) = reconnect (st x)) as Heq
      by (unfold startHeartbeat; by destruct (client (st x))).
    destruct (boot_caller t); simpl; by rewrite Heq.
  - destruct (reconnectTimer (reconnect (st x))) as [[d|d]|]; [| |done].
    + pose proof (scheduleReconnect_ok now jitter (set_reconnect (set_timer None (reconnect (st x))) (st x)) Hj
        (no_timer_ok _ _ Hr)) as H. by destruct (scheduleReconnect _ _ _).
    + by apply no_timer_ok.
  - by destruct (default false _).
  - destruct (default false _); [|done]. unfold onClose.
    set (s1 := (if isAuthenticationClose reason code then _ else _) : list string * CliState).
    assert (H1 : reconnect_ok now (reconnect s1.2)).
    { unfold s1. destruct (isAuthenticationClose reason code); [by apply no_timer_ok|done]. }
    destruct s1 as [out1 s]. cbn [snd] in H1.
    destruct (negb (userRequestedClose s) && negb (authFailureBlocked s)); [|done].
    pose proof (scheduleReconnect_ok now jitter s Hj H1) as H. by destruct (scheduleReconnect _ _ _).
  - unfold reconnectNow. destruct (match client (st x) with Some _ => true | None => _ end); [done|].
    by apply reset_ok.
  - unfold runAuth. destruct c as [[|ch tk]|]; [done| |done]. by destruct (client (st x)).
  - unfold disconnectCleanly. assert (H : reconnect_ok now (set_timer None (reconnect (st x)))) by (by apply no_timer_ok).
    by destruct (client _).
  - unfold disconnected. destruct (boot_client t), ok; try done; simpl; by destruct (client (st x)).
Qed.

(** ** Theorems *)

Fixpoint end_time (t : Z) (evs : list (Z * Z * event)) : Z :=
  match evs with [] => t | (now, _, _) :: evs => end_time now evs end.

Lemma run_cons now jitter ev evs x : (run ((now, jitter, ev) :: evs) x).2 = (run evs (step now jitter ev x).2).2.
Proof. simpl. destruct (step now jitter ev x) as [out y]. simpl. by destruct (run evs y). Qed.

(** Whatever happens, in whatever order: there are never more than six attempts or two
    counted failures, an attempt is made after at least one second and less than 20.25,
    and a cool-down lasts less than 45.25 seconds. *)
Theorem reconnect_bounded t evs : 0 <= t -> clock_ok t evs ->
  reconnect_ok (end_time t evs) (reconnect (st (run evs (connectAndBootstrap FromMain initial_tui)).2)).
Proof.
  intros Ht. assert (H0 : reconnect_ok t (reconnect (st (connectAndBootstrap FromMain initial_tui)))) by (by apply reset_ok).
  revert t H0 Ht. generalize (connectAndBootstrap FromMain initial_tui).
  induction evs as [|[[now jitter] ev] evs IH]; intros x t Hx Ht; [done|].
  intros (Hnow & Hj & Hc). rewrite run_cons. apply (IH _ now); [|lia|done].
  apply tui_step_ok; [lia|done|]. by eapply reconnect_ok_later.
Qed.

(** Nothing is left that could connect: the state names a closed client, no client is
    alive, no timer is armed and no bootstrap is in flight. *)
Definition stuck (x : tui) : Prop :=
  is_Some (client (st x)) /\ Forall (fun b => b = false) (alive x) /\
  reconnectTimer (reconnect (st x)) = None /\
  Forall (fun t => match boot_phase t.2 with DirectAuth _ => True | _ => False end) (tasks x).

Lemma Forall_end_task (P : nat * task -> Prop) i l : Forall P l -> Forall P (jm_delete i l).
Proof. intros H. unfold jm_delete. by apply Forall_filter_l. Qed.

Lemma none_alive x n : Forall (fun b => b = false) (alive x) -> alive x !! n <> Some true.
Proof. intros H Hn. apply (Forall_lookup_1 _ _ _ _ H) in Hn. discriminate Hn. Qed.

Lemma step_stuck now jitter ev x : ev <> CommandDisconnect -> possible ev x -> stuck x ->
  stuck (step now jitter ev x).2.
Proof.
  intros Hev Hp (Hc & Ha & Ht & Htasks).
  assert (Hphase : forall i t, jm_get i (tasks x) = Some t -> exists tok, boot_phase t = DirectAuth tok).
  { intros i t Hi%jm_get_In. apply (proj1 (Forall_forall _ _) Htasks) in Hi. simpl in Hi.
    destruct (boot_phase t); naive_solver. }
  assert (Hdead : forall n, default false (alive x !! n) = false).
  { intros n. destruct (alive x !! n) as [[]|] eqn:Hn; [|done..]. by apply none_alive in Hn. }
  destruct ev as [i|i h|i e|i answer|i r|i| |n|n code reason| |c| |i ok]; cbn [step]; unfold with_task;
    try (destruct (jm_get i (tasks x)) as [t|] eqn:Hi; [destruct (Hphase i t Hi) as [tok Hph]; rewrite Hph|by split_and!]);
    try (by split_and!).
  - unfold directAuthenticated. destruct r as [e|].
    + unfold stuck. simpl. destruct (authentication e); (split_and!; [done..|by apply Forall_end_task]).
    + destruct Hp as (t' & n & _ & _ & Hn). by apply none_alive in Hn.
  - rewrite Ht. by split_and!.
  - rewrite Hdead. by split_and!.
  - rewrite Hdead. by split_and!.
  - unfold reconnectNow. destruct Hc as [n Hn]. rewrite Hn. by split_and!.
  - unfold runAuth. destruct c as [[|ch tk]|]; [by split_and!| |by split_and!].
    destruct Hc as [n Hn]. rewrite Hn. unfold stuck. simpl. rewrite Hn.
    split_and!; try done. apply Forall_app. split; [done|]. by repeat constructor.
Qed.

(** The two ways in which the first connection fails: it cannot be made, or the server
    wants a token and refuses the one that is typed. *)
Inductive failing_start : list event -> Prop :=
| start_refused e : failing_start [Loaded 0; ConnectFailed 0 e]
| start_unauthorized id h c r e : requiresAuth h = true ->
    failing_start [Loaded 0; HelloEvent 0; Connected 0 (Some (id, h)); Prompted 0 (Some (String c r)); Authenticated 0 (Some e)].

Lemma failing_start_stuck start : failing_start start.*2 ->
  stuck (run start (connectAndBootstrap FromMain initial_tui)).2.
Proof.
  intros H. remember start.*2 as evs eqn:Hevs. revert Hevs.
  destruct H as [e|id h c r e Hauth]; intros Hevs;
    repeat (destruct start as [|[[? ?] ?] start]; simplify_eq/=; try done).
  - destruct e as [message []]; vm_compute; (split_and!; [by eexists|by repeat constructor..]).
  - destruct h, e as [message []]; simpl in Hauth; subst; vm_compute; (split_and!; [by eexists|by repeat constructor..]).
Qed.

(** After a failed start the terminal client cannot connect any more.  It says that
    /reconnect or /token will help; but the state still names the client that failed,
    which is closed and silent: as long as the user does not disconnect, whatever is
    typed and whatever happens, no connection is attempted, no timer is armed,
    /reconnect answers "already connected", and /token goes to the closed client. *)
Theorem failed_start_is_stuck start evs :
  failing_start start.*2 ->
  let x := (run start (connectAndBootstrap FromMain initial_tui)).2 in
  possible_run evs x -> Forall (fun e => e.2 <> CommandDisconnect) evs ->
  let y := (run evs x).2 in
  stuck y /\
  reconnectNow y = (["already connected; use /token for auth or /quit then /reconnect"]%string, y).
Proof.
  intros Hstart x Hp Hev y.
  assert (Hy : stuck y).
  { unfold y. assert (Hx : stuck x) by (by apply failing_start_stuck). clearbody x. clear y.
    revert x Hx Hp. induction Hev as [|[[now jitter] ev] evs Hev _ IH]; intros x Hx Hp; [done|].
    rewrite run_cons. destruct Hp as [Hp Hps]. apply IH; [|done]. by apply step_stuck. }
  split; [done|]. destruct Hy as ([n Hn] & _). unfold reconnectNow. by rewrite Hn.
Qed.

(** *** Reconnecting goes on *)

(** A timer is armed, a client is alive, or a bootstrap is about to make one. *)
Definition trying (x : tui) : Prop :=
  is_Some (reconnectTimer (reconnect (st x))) \/ (exists n, alive x !! n = Some true) \/
  exists i t, jm_get i (tasks x) = Some t /\ boot_phase t = Loading.

(** Bootstraps of the timer or of /reconnect only, and nothing that forbids a retry. *)
Record unattended (x : tui) : Prop := {
  no_close : userRequestedClose (st x) = false;
  no_block : authFailureBlocked (st x) = false;
  own_tasks : forall i t, jm_get i (tasks x) = Some t ->
    (boot_caller t = FromTimer \/ boot_caller t = FromReconnect) /\
    boot_phase t <> Disconnecting /\ forall tok, boot_phase t <> DirectAuth tok;
  fresh_task : forall i, (next_task x <= i)%nat -> jm_get i (tasks x) = None
}.

(** Events in which nobody is refused for their credentials and the user types neither
    /token nor a command that disconnects. *)
Definition network_only (ev : event) : Prop :=
  match ev with
  | ConnectFailed _ e | Authenticated _ (Some e) => authentication e = false
  | CloseEvent _ code reason => isAuthenticationClose reason code = false
  | CommandToken _ | CommandDisconnect => False
  | _ => True
  end.

Lemma scheduleReconnect_arms now jitter s : userRequestedClose s = false ->
  let s' := (scheduleReconnect now jitter s).2 in
  is_Some (reconnectTimer (reconnect s')) /\ userRequestedClose s' = false /\
  authFailureBlocked s' = authFailureBlocked s.
Proof.
  intros Hu. unfold scheduleReconnect. rewrite Hu.
  destruct (reconnectTimer (reconnect s)) eqn:Ht; [by simpl; rewrite Ht|].
  destruct (now <? _); [done|]. by destruct (_ <=? _).
Qed.

Lemma add_task_get t x i : jm_get (next_task x) (tasks x) = None ->
  jm_get i (tasks (add_task t x)) = if decide (i = next_task x) then Some t else jm_get i (tasks x).
Proof. intros Hf. unfold add_task. simpl. rewrite <- jm_set_fresh by done. apply jm_get_set. Qed.

(** Adding a bootstrap. *)
Lemma unattended_add c x s : unattended x -> c = FromTimer \/ c = FromReconnect ->
  userRequestedClose s = false -> authFailureBlocked s = false ->
  unattended (connectAndBootstrap c (set_st s x)) /\ trying (connectAndBootstrap c (set_st s x)).
Proof.
  intros [_ _ Ho Hf] Hc Hu Hb.
  assert (Hget : forall i, jm_get i (tasks (connectAndBootstrap c (set_st s x))) =
    if decide (i = next_task x) then Some (Task c None Loading None) else jm_get i (tasks x)).
  { intros i. unfold connectAndBootstrap. rewrite add_task_get; [done|]. by apply Hf. }
  split; [split; try done|].
  - intros i t. rewrite Hget. destruct (decide _); [intros [= <-]; by split_and!|apply Ho].
  - intros i Hi. rewrite Hget. simpl in Hi. rewrite decide_False by lia. apply Hf. lia.
  - right. right. exists (next_task x), (Task c None Loading None). rewrite Hget. by rewrite decide_True.
Qed.

(** Changing one task to a phase after [Loading], or ending it. *)
Lemma unattended_set i t t' x s al : unattended x -> jm_get i (tasks x) = Some t ->
  boot_caller t' = boot_caller t -> boot_phase t' <> Disconnecting -> (forall tok, boot_phase t' <> DirectAuth tok) ->
  userRequestedClose s = false -> authFailureBlocked s = false ->
  unattended (Tui s al (jm_set i t' (tasks x)) (next_task x) (uncaught x)).
Proof.
  intros [_ _ Ho Hf] Hi Hc Hp Hp' Hu Hb. split; try done; simpl.
  - intros j u. rewrite jm_get_set. destruct (decide _); [|apply Ho].
    intros [= <-]. rewrite Hc. split_and!; try done. by apply (Ho i t).
  - intros j Hj. rewrite jm_get_set. destruct (decide _) as [->|]; [|by apply Hf].
    by rewrite Hf in Hi by done.
Qed.

Lemma unattended_end i x s al : unattended x ->
  userRequestedClose s = false -> authFailureBlocked s = false ->
  unattended (Tui s al (jm_delete i (tasks x)) (next_task x) (uncaught x)).
Proof.
  intros [_ _ Ho Hf] Hu Hb. split; try done; simpl.
  - intros j u. rewrite jm_get_delete. destruct (decide _); [done|apply Ho].
  - intros j Hj. rewrite jm_get_delete. destruct (decide _); [done|by apply Hf].
Qed.

(** A failed bootstrap arms the timer. *)
Lemma bootFailed_trying i t e now jitter x s : unattended x -> jm_get i (tasks x) = Some t ->
  authentication e = false -> userRequestedClose s = false -> authFailureBlocked s = false ->
  unattended (bootFailed i t e now jitter (set_st s x)).2 /\ trying (bootFailed i t e now jitter (set_st s x)).2.
Proof.
  intros Hx Hi He Hu Hb. unfold bootFailed. rewrite He. cbn [st set_st].
  set (failed := (if RECONNECT_FAILURE_THRESHOLD <=? _ then _ else _) : list string * CliState).
  assert (Hf : userRequestedClose failed.2 = false /\ authFailureBlocked failed.2 = false)
    by (unfold failed; by destruct (_ <=? _)).
  destruct failed as [out1 s1]. cbn [snd] in Hf. destruct Hf as [Hu1 Hb1].
  destruct (scheduleReconnect_arms now jitter s1 Hu1) as (Htimer & Hu2 & Hb2). rewrite Hb1 in Hb2.
  destruct (own_tasks _ Hx i t Hi) as ([Hc|Hc] & _ & _); rewrite Hc;
    destruct (scheduleReconnect now jitter s1) as [out2 s2]; cbn [snd] in *;
    (split; [destruct (boot_client t); exact (unattended_end i x s2 _ Hx Hu2 Hb2)|left; by destruct (boot_client t)]).
Qed.

Lemma bootReady_unattended i t x s : unattended x -> jm_get i (tasks x) = Some t ->
  userRequestedClose s = false -> unattended (bootReady i t (set_st s x)).
Proof.
  intros Hx Hi Hu. unfold bootReady.
  apply (unattended_set i t (Task (boot_caller t) (boot_client t) Refreshing (boot_hello t)) x _ (alive x)); by try done.
Qed.

(** A step that keeps the clients, the timer and the loading bootstraps keeps trying. *)
Lemma trying_mono x y : trying x ->
  (is_Some (reconnectTimer (reconnect (st x))) -> is_Some (reconnectTimer (reconnect (st y)))) ->
  alive y = alive x ->
  (forall i t, jm_get i (tasks x) = Some t -> boot_phase t = Loading -> jm_get i (tasks y) = Some t) ->
  trying y.
Proof.
  intros [H|[H|(i & t & Hi & Hl)]] Ht Ha Hl'; [left; by apply Ht|right; left; by rewrite Ha|].
  right. right. exists i, t. split; [by apply Hl'|done].
Qed.

Lemma not_loading_set i t t' x : jm_get i (tasks x) = Some t -> boot_phase t <> Loading ->
  forall j u, jm_get j (tasks x) = Some u -> boot_phase u = Loading -> jm_get j (jm_set i t' (tasks x)) = Some u.
Proof.
  intros Hi Hl j u Hj Hu. rewrite jm_get_set_ne; [done|]. intros ->. by simplify_eq.
Qed.

Lemma not_loading_delete i t x : jm_get i (tasks x) = Some t -> boot_phase t <> Loading ->
  forall j u, jm_get j (tasks x) = Some u -> boot_phase u = Loading -> jm_get j (jm_delete i (tasks x)) = Some u.
Proof.
  intros Hi Hl j u Hj Hu. rewrite jm_get_delete, decide_False; [done|]. intros ->. by simplify_eq.
Qed.

(** The events of a task that is not loading and does not fail. *)
Lemma step_task_trying x y s i t t' : unattended x -> trying x ->
  jm_get i (tasks x) = Some t -> boot_phase t <> Loading ->
  boot_caller t' = boot_caller t -> boot_phase t' <> Disconnecting -> (forall tok, boot_phase t' <> DirectAuth tok) ->
  y = set_task i t' (set_st s x) \/ y = end_task i (set_st s x) ->
  reconnectTimer (reconnect s) = reconnectTimer (reconnect (st x)) ->
  userRequestedClose s = false -> authFailureBlocked s = false ->
  unattended y /\ trying y.
Proof.
  intros Hx Htry Hi Hl Hc Hp Hp' [-> | ->] Ht Hu Hb; split.
  - exact (unattended_set i t t' x s (alive x) Hx Hi Hc Hp Hp' Hu Hb).
  - apply (trying_mono x); [done|by simpl; rewrite Ht|done|exact (not_loading_set i t t' x Hi Hl)].
  - exact (unattended_end i x s (alive x) Hx Hu Hb).
  - apply (trying_mono x); [done|by simpl; rewrite Ht|done|exact (not_loading_delete i t x Hi Hl)].
Qed.

Lemma bootReady_trying i t t' x s : unattended x -> trying x ->
  jm_get i (tasks x) = Some t -> boot_phase t <> Loading -> boot_caller t' = boot_caller t ->
  reconnectTimer (reconnect s) = reconnectTimer (reconnect (st x)) -> userRequestedClose s = false ->
  unattended (bootReady i t' (set_st s x)) /\ trying (bootReady i t' (set_st s x)).
Proof.
  intros Hx Htry Hi Hl Hc Ht Hu.
  apply (step_task_trying x _ (st (bootReady i t' (set_st s x))) i t
    (Task (boot_caller t') (boot_client t') Refreshing (boot_hello t'))); try done. by left.
Qed.

(** Waiting for something else. *)
Lemma set_task_trying i t p h x : unattended x -> trying x ->
  jm_get i (tasks x) = Some t -> boot_phase t <> Loading -> p <> Disconnecting -> (forall tok, p <> DirectAuth tok) ->
  let y := set_task i (Task (boot_caller t) (boot_client t) p h) x in unattended y /\ trying y.
Proof.
  intros Hx Htry Hi Hl Hp Hp'. cbv zeta.
  apply (step_task_trying x _ (st x) i t (Task (boot_caller t) (boot_client t) p h)); try done.
  - by left; destruct x.
  - by apply no_close.
  - by apply no_block.
Qed.

Lemma bootFailed_trying' i t e now jitter x : unattended x -> jm_get i (tasks x) = Some t ->
  authentication e = false ->
  unattended (bootFailed i t e now jitter x).2 /\ trying (bootFailed i t e now jitter x).2.
Proof.
  intros Hx Hi He. pose proof (bootFailed_trying i t e now jitter x (st x) Hx Hi He (no_close _ Hx) (no_block _ Hx)).
  by destruct x.
Qed.

(** The events of a task. *)
Lemma task_event_trying now jitter ev x : network_only ev -> unattended x -> trying x ->
  match ev with Loaded _ | Connected _ _ | ConnectFailed _ _ | Prompted _ _ | Authenticated _ _ | Refreshed _ | Disconnected _ _ => True | _ => False end ->
  let y := (step now jitter ev x).2 in unattended y /\ trying y.
Proof.
  intros Hev Hx Htry Htask. cbv zeta. pose proof (no_close x Hx) as Hu. pose proof (no_block x Hx) as Hb.
  destruct ev as [i|i h|i e|i answer|i r|i| |n|n code reason| |c| |i ok]; try done; cbn [step network_only] in *;
    unfold with_task; (destruct (jm_get i (tasks x)) as [t|] eqn:Hi; [|done]);
    destruct (boot_phase t) eqn:Hph; try done.
  - split.
    + exact (unattended_set i t (Task (boot_caller t) (Some (length (alive x))) Connecting None) x
        (set_client (Some (length (alive x))) (set_user_close false (st x))) (alive x ++ [true])
        Hx Hi eq_refl ltac:(done) ltac:(done) eq_refl Hb).
    + right. left. exists (length (alive x)). simpl. by rewrite lookup_app_r, Nat.sub_diag.
  - assert (Hnl : boot_phase t <> Loading) by (by rewrite Hph).
    assert (Hready : forall t', boot_caller t' = boot_caller t -> unattended (bootReady i t' x) /\ trying (bootReady i t' x)).
    { intros t' Hc. pose proof (bootReady_trying i t t' x (st x) Hx Htry Hi ltac:(by rewrite Hph) Hc eq_refl Hu). by destruct x. }
    unfold bootConnected. destruct h as [[id h]|]; [|by apply Hready].
    destruct (requiresAuth h); [|by apply Hready].
    destruct (authToken (st x)) as [[|ch r]|];
      [exact (set_task_trying i t Prompting _ x Hx Htry Hi Hnl ltac:(done) ltac:(done))
      |exact (set_task_trying i t (Authenticating _) _ x Hx Htry Hi Hnl ltac:(done) ltac:(done))
      |exact (set_task_trying i t Prompting _ x Hx Htry Hi Hnl ltac:(done) ltac:(done))].
  - by apply bootFailed_trying'.
  - assert (Hnl : boot_phase t <> Loading) by (by rewrite Hph).
    unfold bootPrompted. destruct answer as [[|ch r]|]; [by apply bootFailed_trying'| |by apply bootFailed_trying'].
    exact (set_task_trying i t (Authenticating _) _ x Hx Htry Hi Hnl ltac:(done) ltac:(done)).
  - unfold bootAuthenticated. destruct r as [e|]; [by apply bootFailed_trying|].
    apply (bootReady_trying i t); try done. by rewrite Hph.
  - exfalso. destruct (own_tasks x Hx i t Hi) as (_ & _ & H). by apply (H token).
  - assert (Hs : startHeartbeat (st x) = set_heartbeat (heartbeatTimer (startHeartbeat (st x))) (st x)).
    { unfold startHeartbeat. destruct (client (st x)) eqn:Hc; [done|]. by destruct (st x). }
    unfold bootRefreshed. rewrite Hs. set (s' := set_heartbeat _ (st x)).
    assert (Hend : unattended (end_task i (set_st s' x)) /\ trying (end_task i (set_st s' x))).
    { apply (step_task_trying x _ s' i t (Task (boot_caller t) (boot_client t) Refreshing None)); try done; [by rewrite Hph|by right]. }
    by destruct (boot_caller t).
  - exfalso. by destruct (own_tasks x Hx i t Hi) as (_ & H & _).
Qed.

Lemma step_trying now jitter ev x : network_only ev -> unattended x -> trying x ->
  let y := (step now jitter ev x).2 in unattended y /\ trying y.
Proof.
  intros Hev Hx Htry. pose proof (no_close x Hx) as Hu. pose proof (no_block x Hx) as Hb.
  destruct ev as [i|i h|i e|i answer|i r|i| |n|n code reason| |c| |i ok]; try (by apply task_event_trying);
    cbv zeta; cbn [step network_only] in *; try done.
  - destruct (reconnectTimer (reconnect (st x))) as [[d|d]|]; [| |done].
    + set (s := set_reconnect (set_timer None (reconnect (st x))) (st x)).
      destruct (scheduleReconnect_arms now jitter s Hu) as (Ht & Hu' & Hb').
      destruct (scheduleReconnect now jitter s) as [out s']. cbn [snd] in *.
      split; [|by left]. destruct Hx as [_ _ Ho Hf]. split; [exact Hu'|exact (eq_trans Hb' Hb)|exact Ho|exact Hf].
    + by apply unattended_add; [|left|..].
  - destruct (default false _); [|done]. split.
    + destruct Hx as [_ _ Ho Hf]. by split.
    + by apply (trying_mono x).
  - destruct (default false _); [|done]. unfold onClose. rewrite Hev.
    set (s := set_pane None _). assert (Hs : userRequestedClose s = false /\ authFailureBlocked s = false) by done.
    destruct Hs as [Hsu Hsb]. rewrite Hsu, Hsb. cbn [negb andb].
    destruct (scheduleReconnect_arms now jitter s Hsu) as (Ht & Hu' & Hb').
    destruct (scheduleReconnect now jitter s) as [out s']. cbn [snd] in *. rewrite Hsb in Hb'.
    split; [|by left]. destruct Hx as [_ _ Ho Hf]. by split.
  - unfold reconnectNow. destruct (match client (st x) with Some _ => true | None => _ end); [done|].
    by apply unattended_add; [|right|..].
Qed.

Lemma trying_run x evs : unattended x -> trying x -> Forall (fun e => network_only e.2) evs ->
  trying (run evs x).2.
Proof.
  intros Hx Htry Hev. revert x Hx Htry. induction Hev as [|[[now jitter] ev] evs Hev _ IH]; intros x Hx Htry; [done|].
  rewrite run_cons. destruct (step_trying now jitter ev x Hev Hx Htry) as [Hy Ht]. by apply IH.
Qed.

(** The terminal client as [main] starts it, with the token it has stored. *)
Definition start_tui (token : option string) : tui := set_st (set_token token createInitialCliState) initial_tui.

(** The ways in which the first connection succeeds: without authentication, with the
    stored token, with a typed one. *)
Inductive successful_start (token : option string) : list event -> Prop :=
| start_open id h : requiresAuth h = false ->
    successful_start token [Loaded 0; HelloEvent 0; Connected 0 (Some (id, h)); Refreshed 0]
| start_stored id h c r : requiresAuth h = true -> token = Some (String c r) ->
    successful_start token [Loaded 0; HelloEvent 0; Connected 0 (Some (id, h)); Authenticated 0 None; Refreshed 0]
| start_typed id h c r : requiresAuth h = true -> default EmptyString token = EmptyString ->
    successful_start token [Loaded 0; HelloEvent 0; Connected 0 (Some (id, h)); Prompted 0 (Some (String c r));
      Authenticated 0 None; Refreshed 0].

Lemma successful_start_trying token start : successful_start token start.*2 ->
  let x := (run start (connectAndBootstrap FromMain (start_tui token))).2 in
  unattended x /\ trying x.
Proof.
  intros H. remember start.*2 as evs eqn:Hevs. revert Hevs.
  destruct H as [id h Hauth|id h c r Hauth ->|id h c r Hauth Htok]; intros Hevs;
    repeat (destruct start as [|[[? ?] ?] start]; simplify_eq/=; try done).
  - destruct h; simpl in Hauth; subst. vm_compute. split; [by split|]. right. left. by exists 0%nat.
  - destruct h; simpl in Hauth; subst. vm_compute. split; [by split|]. right. left. by exists 0%nat.
  - destruct h, token as [[]|]; simpl in Hauth, Htok; subst; try done; vm_compute;
      (split; [by split|]; right; left; by exists 0%nat).
Qed.

(** C29. Once its first connection has succeeded, the terminal client never gives up on
    the network: whatever connections fail or close, and however often, a client is
    alive, a timer is armed or a bootstrap is starting, as long as nobody is refused for
    their credentials and the user types neither /token nor a command that disconnects.
    The same holds from any state in which it is trying and whose bootstraps come from
    the timer or /reconnect.  A first connection that fails is excepted: after it
    nothing reconnects ([failed_start_is_stuck]). *)
Theorem keeps_trying evs : Forall (fun e => network_only e.2) evs ->
  (forall token start, successful_start token start.*2 ->
     trying (run evs (run start (connectAndBootstrap FromMain (start_tui token))).2).2) /\
  (forall x, unattended x -> trying x -> trying (run evs x).2).
Proof.
  intros Hev. split; [|intros x Hx Htry; by apply trying_run].
  intros token start [Hx Htry]%successful_start_trying. by apply trying_run.
Qed.

(** The timer does not respect a refusal: a bootstrap of the reconnect timer that is
    refused for its token blocks reconnecting and forgets the token, and in the same
    step arms the timer again, so the next attempt asks for a token on its own. *)
Theorem refusal_is_retried now jitter x i t token e :
  jm_get i (tasks x) = Some t -> boot_phase t = Authenticating token -> boot_caller t = FromTimer ->
  authentication e = true -> userRequestedClose (st x) = false ->
  let s := st (step now jitter (Authenticated i (Some e)) x).2 in
  authFailureBlocked s = true /\ authToken s = None /\ is_Some (reconnectTimer (reconnect s)).
Proof.
  intros Hi Hp Hc He Hu. cbn [step]. unfold with_task. rewrite Hi, Hp. unfold bootAuthenticated, bootFailed.
  rewrite He, Hc. cbn [st set_st]. set (s1 := set_reconnect _ _).
  destruct (scheduleReconnect_arms now jitter s1 Hu) as (Ht & _ & Hb).
  assert (Htok : authToken (scheduleReconnect now jitter s1).2 = None).
  { unfold scheduleReconnect. repeat case_match; done. }
  destruct (scheduleReconnect now jitter s1) as [out s2]. cbn [snd] in *.
  destruct (boot_client t); simpl; by rewrite Hb.
Qed.

(** ** Concrete inputs *)

Definition demo_hello : CliHelloState := HelloState false true false None.
Definition started : list (Z * Z * event) :=
  [(0, 0, Loaded 0); (0, 0, HelloEvent 0); (0, 0, Connected 0 (Some ("c"%string, demo_hello))); (0, 0, Refreshed 0)].
Definition refused : boot_error := BootError "connect ECONNREFUSED" false.

Lemma reconnect_bounded_witness :
  reconnectTimer (reconnect (st (run (started ++ [(5, 0, CloseEvent 0 1006 ""); (1005, 0, TimerFired)])
    (connectAndBootstrap FromMain initial_tui)).2)) = None /\
  reconnect_ok 1005 (reconnect (st (run (started ++ [(5, 0, CloseEvent 0 1006 ""); (1005, 0, TimerFired)])
    (connectAndBootstrap FromMain initial_tui)).2)).
Proof.
  split; [by vm_compute|].
  exact (reconnect_bounded 0 (started ++ [(5, 0, CloseEvent 0 1006 ""); (1005, 0, TimerFired)])
    ltac:(done) ltac:(vm_compute; intuition congruence)).
Defined.

Lemma failed_start_is_stuck_witness :
  stuck (run [(9, 0, CommandReconnect); (10, 0, CommandToken (Some "t"%string)); (11, 0, Authenticated 1 (Some refused))]
    (run [(0, 0, Loaded 0); (0, 0, ConnectFailed 0 refused)] (connectAndBootstrap FromMain initial_tui)).2).2.
Proof.
  refine (proj1 (failed_start_is_stuck [(0, 0, Loaded 0); (0, 0, ConnectFailed 0 refused)]
    [(9, 0, CommandReconnect); (10, 0, CommandToken (Some "t"%string)); (11, 0, Authenticated 1 (Some refused))] _ _ _)).
  - exact (start_refused refused).
  - vm_compute. tauto.
  - by repeat constructor.
Defined.

Lemma keeps_trying_witness :
  trying (run [(5, 0, CloseEvent 0 1006 ""); (1005, 0, TimerFired); (1006, 0, Loaded 1); (1007, 0, ConnectFailed 1 refused)]
    (run started (connectAndBootstrap FromMain (start_tui None))).2).2.
Proof.
  refine (proj1 (keeps_trying _ _) None started _).
  - by repeat constructor.
  - exact (start_open None "c" demo_hello eq_refl).
Defined.

Lemma refusal_is_retried_witness :
  let x := Tui (set_client (Some 0%nat) createInitialCliState) [true]
             [(0%nat, Task FromTimer (Some 0%nat) (Authenticating "t") None)] 1 [] in
  let s := st (step 0 0 (Authenticated 0 (Some (BootError "invalid token" true))) x).2 in
  authFailureBlocked s = true /\ authToken s = None /\ is_Some (reconnectTimer (reconnect s)).
Proof.
  refine (refusal_is_retried 0 0 (Tui (set_client (Some 0%nat) createInitialCliState) [true]
             [(0%nat, Task FromTimer (Some 0%nat) (Authenticating "t") None)] 1 []) 0
    (Task FromTimer (Some 0%nat) (Authenticating "t") None) "t" (BootError "invalid token" true) _ _ _ _ _); reflexivity.
Defined.

(** /token on a lost connection connects without stopping the reconnect timer; when the
    timer fires, the connected client is dropped without being closed. *)
Example token_leaves_the_timer_armed :
  let x := (run (started ++ [(5, 0, CloseEvent 0 1006 ""); (6, 0, CommandToken (Some "t"%string)); (7, 0, Loaded 1);
              (8, 0, Connected 1 (Some ("c"%string, demo_hello))); (9, 0, Refreshed 1);
              (1005, 0, TimerFired); (1006, 0, Loaded 2)])
             (connectAndBootstrap FromMain initial_tui)).2 in
  alive x = [false; true; true] /\ client (st x) = Some 2%nat.
Proof. by vm_compute. Qed.

(** A request to disconnect that fails after the connection closed throws. *)
Example disconnect_after_close_throws :
  let x := (run (started ++ [(5, 0, CommandDisconnect); (6, 0, CloseEvent 0 1006 ""); (7, 0, Disconnected 1 false)])
             (connectAndBootstrap FromMain initial_tui)).2 in
  uncaught x = ["Cannot read properties of null (reading 'close')"%string].
Proof. by vm_compute. Qed.
