(* ===== verification/TuiProfiles.v ===== *)
(** * Connection profiles ([packages/commandrelay-tui/src/connection-profile.ts])

    The store of profiles and the file it is kept in.  The file is its text, if it
    exists and can be read; [JSON.parse], [JSON.stringify] and the [URL] constructor are
    parameters.  A profile object has the fields of [ConnectionProfile]; one that is
    [undefined] is absent.  The store is looked up by own properties: the names that an
    object inherits, such as "constructor", are outside. *)

From S2P Require Import Prelude JsMap ProxyCore.
Local Open Scope Z_scope.

Definition PROFILE_FILE_VERSION : num := num_of_Z 1.

Record ConnectionProfile : Type := Profile {
  name : string;
  profile_url : string;
  backend : option string;
  authToken : option string;
  notes : option string;
  createdAt : num;
  updatedAt : num;
  lastUsedAt : option num
}.

Record StoredProfiles : Type := Store {
  version : num;
  activeProfileName : option string;
  profiles : list (string * ConnectionProfile)
}.

Record ActiveProfileState : Type := Active {
  selectedName : option string;
  selectedProfile : option ConnectionProfile;
  hasProfileStore : bool
}.

Definition empty_store : StoredProfiles := Store PROFILE_FILE_VERSION None [].

Definition profile_name_char (c : ascii) : bool := is_alnum c || one_of "._-" c.

(** [PROFILE_NAME_PATTERN] on the trimmed name. *)
Definition isValidProfileName (name : string) : bool :=
  let s := trim name in
  (1 <=? str_len s) && (str_len s <=? 64) && str_forallb profile_name_char s.

(** ** Object.keys: array indices first, in ascending order *)

Definition is_index (s : string) : bool :=
  match parse_int_exact s with
  | Some n => (0 <=? n) && (n <? 2 ^ 32 - 1) && String.eqb (int_to_string n) s
  | None => false
  end.

Definition index_of_key (s : string) : Z := default 0 (parse_int_exact s).

(** The own entries of an object in the order of [Object.entries], from the order in
    which they were added. *)
Definition own_entries {A} (m : list (string * A)) : list (string * A) :=
  js_sort (fun a b => index_of_key a.1 - index_of_key b.1) (filter (fun e => is_index e.1 = true) m) ++
  filter (fun e => ~ is_index e.1 = true) m.

Lemma own_entries_perm {A} (m : list (string * A)) : own_entries m ≡ₚ m.
Proof. unfold own_entries. rewrite js_sort_perm. apply filter_app_complement. Qed.

(** [Object.entries] of a parsed value: its properties, or the elements under their indices. *)
Definition entries_of (v : jsval) : list (string * jsval) :=
  match v with
  | JObj fs => fs
  | JArr vs => imap (fun i v => (int_to_string (Z.of_nat i), v)) vs
  | _ => []
  end.

Section Profiles.
Context (URL_parse : string -> option url).

Definition isValidProfileUrl (u : string) : bool :=
  match URL_parse u with
  | Some normalized => bool_decide (protocol normalized = "ws:"%string) || bool_decide (protocol normalized = "wss:"%string)
  | None => false
  end.

Definition backends : list string := ["tmux"; "ghostty"; "console"]%string.

(** The own properties of an object, or of an array: none of those looked up. *)
Definition properties (v : jsval) : list (string * jsval) := match v with JObj fs => fs | _ => [] end.

Definition is_object (v : jsval) : bool := match v with JObj _ | JArr _ => true | _ => false end.

Definition str_field (k : string) (fs : list (string * jsval)) : option string :=
  match field k fs with JStr s => Some s | _ => None end.
Definition num_field (k : string) (fs : list (string * jsval)) : option num :=
  match field k fs with JNum n => Some n | _ => None end.

(** A string that passes [test]. *)
Definition valid (test : string -> bool) (s : option string) : option string :=
  s ≫= fun s => if test s then Some s else None.

Definition normalizeProfileCandidate (now : Z) (raw : jsval) (fallbackName : option string) :
    option ConnectionProfile :=
  if negb (is_object raw) then None
  else
    let record := properties raw in
    match (match valid isValidProfileName (str_field "name" record) with
           | Some n => Some n
           | None => valid (fun s => negb (is_empty s) && isValidProfileName s) fallbackName
           end) with
    | None | Some EmptyString => None
    | Some name =>
        let u := trim (default EmptyString (str_field "url" record)) in
        if negb (isValidProfileUrl u) then None
        else
          let createdAt := default (num_of_Z now) (num_field "createdAt" record) in
          Some (Profile name u
            (valid (fun s => bool_decide (s ∈ backends)) (str_field "backend" record))
            (str_field "authToken" record) (str_field "notes" record)
            createdAt (default createdAt (num_field "updatedAt" record)) (num_field "lastUsedAt" record))
    end.

Definition normalizeProfileStore (now : Z) (candidate : jsval) : StoredProfiles :=
  if negb (is_object candidate) then empty_store
  else
    let raw := properties candidate in
    let version :=
      match field "version" raw with
      | JNum NaN => PROFILE_FILE_VERSION
      | JNum n => if num_lt_Z n 1 then PROFILE_FILE_VERSION else n
      | _ => PROFILE_FILE_VERSION
      end in
    let active := valid isValidProfileName (str_field "activeProfileName" raw) in
    Store version active
      (foldl (fun acc e =>
         match normalizeProfileCandidate now e.2 (Some e.1) with
         | Some p => jm_set e.1 p acc
         | None => acc
         end) [] (entries_of (field "profiles" raw))).

Context (JSON_parse : string -> option jsval) (JSON_stringify : jsval -> string).

(** [None]: no file, or it cannot be read. *)
Definition loadProfiles (now : Z) (file : option string) : StoredProfiles :=
  match file with
  | None => empty_store
  | Some text =>
      let raw := trim text in
      if is_empty raw then empty_store
      else match JSON_parse raw with
           | Some parsed => normalizeProfileStore now parsed
           | None => empty_store
           end
  end.

Definition opt_field (k : string) (v : option jsval) : list (string * jsval) :=
  match v with Some v => [(k, v)] | None => [] end.

Definition profile_json (p : ConnectionProfile) : jsval :=
  JObj ([("name"%string, JStr (name p)); ("url"%string, JStr (profile_url p))] ++
        opt_field "backend" (JStr <$> backend p) ++
        [("authToken"%string, match authToken p with Some t => JStr t | None => JNull end)] ++
        opt_field "notes" (JStr <$> notes p) ++
        [("createdAt"%string, JNum (createdAt p)); ("updatedAt"%string, JNum (updatedAt p))] ++
        opt_field "lastUsedAt" (JNum <$> lastUsedAt p)).

Definition store_json (s : StoredProfiles) : jsval :=
  JObj [("version"%string, JNum (version s));
        ("activeProfileName"%string, match activeProfileName s with Some n => JStr n | None => JNull end);
        ("profiles"%string, JObj ((fun e => (e.1, profile_json e.2)) <$> own_entries (profiles s)))].

Definition saveProfiles (s : StoredProfiles) : string := JSON_stringify (store_json s).

(** ** Operations on a loaded store *)

Definition select (preferredProfileName : option string) (store : StoredProfiles) : ActiveProfileState :=
  match preferredProfileName ≫= fun n => if is_empty n then None else p ← jm_get n (profiles store); Some (n, p) with
  | Some (n, p) => Active (Some n) (Some p) true
  | None =>
      match activeProfileName store ≫= fun n => if is_empty n then None else p ← jm_get n (profiles store); Some (n, p) with
      | Some (n, p) => Active (Some n) (Some p) true
      | None => Active None None (bool_decide (profiles store <> []))
      end
  end.

(** The candidate given to [upsertProfile]. *)
Record upsert_candidate : Type := Candidate {
  c_name : string;
  c_url : string;
  c_backend : option string;
  c_authToken : option string;
  c_notes : option string
}.

Definition candidate_json (c : upsert_candidate) : jsval :=
  JObj ([("name"%string, JStr (c_name c)); ("url"%string, JStr (c_url c))] ++
        opt_field "backend" (JStr <$> c_backend c) ++ opt_field "authToken" (JStr <$> c_authToken c) ++
        opt_field "notes" (JStr <$> c_notes c)).

(** [{ ...existing, ...normalized, name, createdAt, updatedAt }]: the normalized profile
    has every field, so nothing else of [existing] is left. *)
Definition upsert (now : Z) (c : upsert_candidate) (store : StoredProfiles) : option StoredProfiles :=
  match normalizeProfileCandidate now (candidate_json c) None with
  | None => None
  | Some p =>
      let existing := jm_get (name p) (profiles store) in
      let p' := Profile (name p) (profile_url p) (backend p) (authToken p) (notes p)
                  (match existing with Some e => createdAt e | None => num_of_Z now end)
                  (num_of_Z now) (lastUsedAt p) in
      Some (Store (version store)
              (match activeProfileName store with
               | Some (String _ _) => activeProfileName store
               | _ => Some (name p)
               end)
              (jm_set (name p) p' (profiles store)))
  end.

Definition remove (n : string) (store : StoredProfiles) : StoredProfiles :=
  let left := jm_delete n (profiles store) in
  Store (version store)
    (if bool_decide (activeProfileName store = Some n) then head (own_entries left).*1
     else activeProfileName store) left.

Definition set_active (n : option string) (store : StoredProfiles) : StoredProfiles :=
  Store (version store)
    (match jm_get (default EmptyString n) (profiles store) with Some _ => n | None => None end)
    (profiles store).

Definition update_profile (n : string) (f : ConnectionProfile -> ConnectionProfile) (store : StoredProfiles) :
    option StoredProfiles :=
  match jm_get n (profiles store) with
  | None => None
  | Some p => Some (Store (version store) (activeProfileName store) (jm_set n (f p) (profiles store)))
  end.

Definition with_token (now : Z) (token : option string) (p : ConnectionProfile) : ConnectionProfile :=
  Profile (name p) (profile_url p) (backend p) token (notes p) (createdAt p) (num_of_Z now) (lastUsedAt p).

Definition with_use (now : Z) (p : ConnectionProfile) : ConnectionProfile :=
  Profile (name p) (profile_url p) (backend p) (authToken p) (notes p) (createdAt p) (num_of_Z now) (Some (num_of_Z now)).

(** ** The operations on the file *)

Definition resolveProfileSelection (now : Z) (preferred : option string) (file : option string) : ActiveProfileState :=
  select preferred (loadProfiles now file).

Definition upsertProfile (now : Z) (c : upsert_candidate) (file : option string) : option string :=
  match upsert now c (loadProfiles now file) with
  | Some store => Some (saveProfiles store)
  | None => file
  end.

Definition removeProfile (now : Z) (n : string) (file : option string) : option string :=
  Some (saveProfiles (remove n (loadProfiles now file))).

Definition setActiveProfile (now : Z) (n : option string) (file : option string) : option string :=
  Some (saveProfiles (set_active n (loadProfiles now file))).

Definition setProfileToken (now : Z) (n : string) (token : option string) (file : option string) : option string :=
  match update_profile n (with_token now token) (loadProfiles now file) with
  | Some store => Some (saveProfiles store)
  | None => file
  end.

Definition touchProfile (now : Z) (n : string) (file : option string) : option string :=
  match update_profile n (with_use now) (loadProfiles now file) with
  | Some store => Some (saveProfiles store)
  | None => file
  end.

(** ** Well-formed stores *)

Record profile_ok (p : ConnectionProfile) : Prop := {
  ok_name : isValidProfileName (name p) = true;
  ok_trimmed : trim (profile_url p) = profile_url p;
  ok_url : isValidProfileUrl (profile_url p) = true;
  ok_backend : forall b, backend p = Some b -> b ∈ backends
}.

Definition version_ok (v : num) : Prop := v <> NaN /\ num_lt_Z v 1 = false.

Record store_ok (s : StoredProfiles) : Prop := {
  ok_version : version_ok (version s);
  ok_keys : jm_wf (profiles s);
  ok_profiles : Forall (fun e => profile_ok e.2) (profiles s)
}.

Lemma valid_Some test s x : valid test s = Some x <-> s = Some x /\ test x = true.
Proof.
  destruct s as [y|]; cbn; [|by split; [|intros [? _]]]. destruct (test y) eqn:Ht; split.
  - by intros [= ->].
  - by intros [[= ->] _].
  - done.
  - intros [[= ->] ?]. congruence.
Qed.

Lemma normalizeProfileCandidate_ok now raw fb p : normalizeProfileCandidate now raw fb = Some p -> profile_ok p.
Proof.
  unfold normalizeProfileCandidate. destruct (negb (is_object raw)); [done|].
  set (record := properties raw). set (named := match valid isValidProfileName _ with Some n => _ | None => _ end).
  assert (Hn : forall n, named = Some n -> isValidProfileName n = true).
  { intros n. unfold named. destruct (valid isValidProfileName _) as [m|] eqn:Hv.
    - intros [= <-]. by apply valid_Some in Hv as [_ ?].
    - intros [_ ?%andb_true_iff]%valid_Some. tauto. }
  destruct named as [[|c r]|]; [done| |done]. cbv zeta. destruct (isValidProfileUrl _) eqn:Hu; cbn [negb]; [|done].
  intros [= <-]. split; simpl; [by apply Hn|apply trim_idem|done|].
  intros b [_ Hb%bool_decide_eq_true]%valid_Some. done.
Qed.

Lemma fold_profiles_ok now entries acc : jm_wf acc -> Forall (fun e => profile_ok e.2) acc ->
  let r := foldl (fun acc e =>
             match normalizeProfileCandidate now e.2 (Some e.1) with
             | Some p => jm_set e.1 p acc
             | None => acc
             end) acc entries in
  jm_wf r /\ Forall (fun e => profile_ok e.2) r.
Proof.
  revert acc. induction entries as [|[k v] entries IH]; intros acc Hwf Hok; [done|]. simpl.
  destruct (normalizeProfileCandidate now v (Some k)) as [p|] eqn:Hp; [|by apply IH].
  apply IH; [by apply jm_wf_set|]. apply Forall_jm_set; [|done]. exact (normalizeProfileCandidate_ok _ _ _ _ Hp).
Qed.

Lemma empty_store_ok : store_ok empty_store.
Proof. split; [by split|constructor|constructor]. Qed.

Lemma loadProfiles_ok now file : store_ok (loadProfiles now file).
Proof.
  unfold loadProfiles. destruct file as [text|]; [|apply empty_store_ok].
  destruct (is_empty (trim text)); [apply empty_store_ok|].
  destruct (JSON_parse (trim text)) as [v|]; [|apply empty_store_ok].
  unfold normalizeProfileStore. destruct (negb (is_object v)); [apply empty_store_ok|].
  destruct (fold_profiles_ok now (entries_of (field "profiles" (properties v))) []) as [Hwf Hall]; [constructor..|].
  split; simpl; [|exact Hwf|exact Hall].
  destruct (field "version" (properties v)) as [| | |n| | |]; try by split.
  destruct (num_lt_Z n 1) eqn:Hn; destruct n; by split.
Qed.

(** ** What the operations keep *)

Lemma upsert_ok now c s s' : store_ok s -> upsert now c s = Some s' -> store_ok s'.
Proof.
  intros [Hv Hk Hp]. unfold upsert. destruct (normalizeProfileCandidate _ _ _) as [p|] eqn:Hn; [|done].
  intros [= <-]. pose proof (normalizeProfileCandidate_ok _ _ _ _ Hn) as [? ? ? ?].
  split; simpl; [done|by apply jm_wf_set|by apply Forall_jm_set].
Qed.

Lemma remove_ok n s : store_ok s -> store_ok (remove n s).
Proof.
  intros [Hv Hk Hp]. split; simpl; [done|by apply jm_wf_delete|].
  apply Forall_forall. intros e [_ He]%list_elem_of_filter. exact (proj1 (Forall_forall _ _) Hp e He).
Qed.

Lemma set_active_ok n s : store_ok s -> store_ok (set_active n s).
Proof. by intros [Hv Hk Hp]. Qed.

Lemma update_profile_ok n f s s' : (forall p, profile_ok p -> profile_ok (f p)) ->
  store_ok s -> update_profile n f s = Some s' -> store_ok s'.
Proof.
  intros Hf [Hv Hk Hp]. unfold update_profile. destruct (jm_get n (profiles s)) as [p|] eqn:Hn; [|done].
  intros [= <-]. split; simpl; [done|by apply jm_wf_set|]. apply Forall_jm_set; [|done]. apply Hf.
  exact (proj1 (Forall_forall _ _) Hp _ (jm_get_In _ _ _ Hn)).
Qed.

(** The operations on the file. *)
Inductive profile_op : Type :=
| Upsert (c : upsert_candidate)
| Remove (n : string)
| SetActive (n : option string)
| SetToken (n : string) (token : option string)
| Touch (n : string).

Definition run_op (now : Z) (op : profile_op) (file : option string) : option string :=
  match op with
  | Upsert c => upsertProfile now c file
  | Remove n => removeProfile now n file
  | SetActive n => setActiveProfile now n file
  | SetToken n token => setProfileToken now n token file
  | Touch n => touchProfile now n file
  end.

(** C32. Whatever the profile file holds - nothing, broken text, another program's JSON -
    an operation on it leaves it alone or writes a well-formed store: profiles under
    distinct names, each with a valid name, a trimmed ws: or wss: url and a known
    backend, and a version of at least 1. *)
Theorem stored_profiles_typed now op file :
  run_op now op file = file \/
  exists s, store_ok s /\ run_op now op file = Some (saveProfiles s).
Proof.
  pose proof (loadProfiles_ok now file) as Hok.
  assert (Hup : forall n f, (forall p, profile_ok p -> profile_ok (f p)) ->
    let file' := match update_profile n f (loadProfiles now file) with
                 | Some store => Some (saveProfiles store) | None => file end in
    file' = file \/ exists s, store_ok s /\ file' = Some (saveProfiles s)).
  { intros n f Hf. cbv zeta. destruct (update_profile n f _) as [s|] eqn:Hs; [|by left].
    right. exists s. split; [exact (update_profile_ok n f _ s Hf Hok Hs)|done]. }
  destruct op as [c|n|n|n token|n]; cbn [run_op].
  - unfold upsertProfile. destruct (upsert now c _) as [s|] eqn:Hs; [|by left].
    right. exists s. split; [exact (upsert_ok now c _ s Hok Hs)|done].
  - right. eexists. split; [exact (remove_ok n _ Hok)|done].
  - right. eexists. split; [exact (set_active_ok n _ Hok)|done].
  - apply Hup. by intros p [? ? ? ?].
  - apply Hup. by intros p [? ? ? ?].
Qed.

(** ** The round trip through the file *)

Lemma str_field_obj k v fs : field k fs = JStr v -> str_field k fs = Some v.
Proof. unfold str_field. by intros ->. Qed.

Lemma normalize_profile_json now fb p : profile_ok p ->
  normalizeProfileCandidate now (profile_json p) fb = Some p.
Proof.
  intros [Hn Ht Hu Hb]. unfold normalizeProfileCandidate, profile_json, properties, valid, str_field, num_field.
  destruct p as [n u b t nt c up l]. cbn [name profile_url backend authToken notes createdAt updatedAt lastUsedAt] in *.
  cbn [is_object negb]. simpl. rewrite Hn. destruct n as [|ch n]; [by vm_compute in Hn|].
  rewrite Ht, Hu. simpl.
  destruct b as [b|]; [pose proof (Hb b eq_refl) as Hb'|]; destruct t as [t|], nt as [nt|], l as [l|]; simpl;
    rewrite ?bool_decide_eq_true_2 by exact Hb'; done.
Qed.

Lemma fold_own now entries acc : Forall (fun e => profile_ok e.2) entries ->
  NoDup (acc.*1 ++ entries.*1) ->
  foldl (fun acc e =>
    match normalizeProfileCandidate now e.2 (Some e.1) with
    | Some p => jm_set e.1 p acc
    | None => acc
    end) acc ((fun e => (e.1, profile_json e.2)) <$> entries) = acc ++ entries.
Proof.
  revert acc. induction entries as [|[k p] entries IH]; intros acc Hok Hnd; [by rewrite app_nil_r|].
  apply Forall_cons in Hok as [Hp Hok]. cbn [fmap list_fmap foldl fst snd] in *.
  rewrite (normalize_profile_json now _ p Hp).
  assert (Hk : jm_get k acc = None).
  { apply jm_get_None. apply NoDup_app in Hnd as (_ & H & _). intros Hin. apply (H k Hin). by left. }
  rewrite (jm_set_fresh k p acc Hk), IH; [by rewrite <- app_assoc|done|].
  rewrite fmap_app. simpl. by rewrite <- app_assoc.
Qed.

(** A saved store is loaded as it was: the same version, the same profiles (in the order
    in which a JavaScript object lists its keys), and the active name if it is valid. *)
Theorem profiles_roundtrip now s : store_ok s -> JSON_parse "" = None ->
  JSON_parse (trim (saveProfiles s)) = Some (store_json s) ->
  loadProfiles now (Some (saveProfiles s)) =
    Store (version s) (valid isValidProfileName (activeProfileName s)) (own_entries (profiles s)).
Proof.
  intros [[Hnan Hv] Hk Hp] Hempty Hparse. unfold loadProfiles.
  destruct (is_empty (trim (saveProfiles s))) eqn:He.
  { destruct (trim (saveProfiles s)); [|done]. by rewrite Hparse in Hempty. }
  rewrite Hparse. unfold normalizeProfileStore, store_json. cbn [is_object negb properties].
  replace (match field "version" _ with JNum NaN => _ | _ => _ end) with (version s);
    [|revert Hnan Hv; simpl; destruct (version s); simpl; intros Hnan Hv; rewrite ?Hv; done].
  simpl field. f_equal.
  - unfold str_field. simpl. by destruct (activeProfileName s).
  - simpl. rewrite fold_own; [done| |].
    + by rewrite own_entries_perm.
    + rewrite app_nil_l, own_entries_perm. exact Hk.
Qed.

(** ** What the operations do *)

(** Updating a profile replaces it: only its creation time is kept.  The token, the
    notes, the backend and the time of last use are those of the candidate, and are
    lost when it has none. *)
Theorem upsert_replaces now c s s' : upsert now c s = Some s' ->
  exists p, jm_get (c_name c) (profiles s') = Some p /\
    authToken p = c_authToken c /\ notes p = c_notes c /\ lastUsedAt p = None /\
    createdAt p = match jm_get (c_name c) (profiles s) with Some e => createdAt e | None => num_of_Z now end /\
    (forall n, n <> c_name c -> jm_get n (profiles s') = jm_get n (profiles s)).
Proof.
  unfold upsert. destruct (normalizeProfileCandidate now (candidate_json c) None) as [p|] eqn:Hp; [|done].
  intros [= <-]. cbn [profiles].
  assert (Hf : name p = c_name c /\ authToken p = c_authToken c /\ notes p = c_notes c /\ lastUsedAt p = None).
  { revert Hp. destruct c as [n u b t nt]. unfold normalizeProfileCandidate, candidate_json, properties, valid, str_field, num_field.
    cbn [c_name c_url c_backend c_authToken c_notes is_object negb]. simpl.
    destruct (isValidProfileName n); [|by destruct b, t, nt]. destruct n as [|ch n]; [done|].
    destruct (isValidProfileUrl (trim u)); [|by destruct b, t, nt]. simpl. intros [= <-].
    cbn [name authToken notes lastUsedAt]. by destruct b, t, nt. }
  destruct Hf as (-> & Ht & Hn & Hl). eexists. split; [apply jm_get_set_eq|].
  cbn [authToken notes lastUsedAt createdAt]. repeat split; try done.
  intros n Hne. by apply jm_get_set_ne.
Qed.

(** Removing the active profile makes another one active, if there is one. *)
Theorem remove_selects_another n s : jm_wf (profiles s) ->
  let s' := remove n s in
  jm_get n (profiles s') = None /\ activeProfileName s' <> Some n /\
  (activeProfileName s = Some n -> profiles s' <> [] ->
   exists m p, activeProfileName s' = Some m /\ jm_get m (profiles s') = Some p).
Proof.
  intros Hwf. cbv zeta. unfold remove. cbn [profiles activeProfileName].
  assert (Hdel : jm_get n (jm_delete n (profiles s)) = None) by (by rewrite jm_get_delete, decide_True).
  assert (Hhead : forall m, head (own_entries (jm_delete n (profiles s))).*1 = Some m ->
    exists p, jm_get m (jm_delete n (profiles s)) = Some p).
  { intros m Hm. destruct (own_entries (jm_delete n (profiles s))) as [|[k p] l] eqn:Ho; [done|].
    injection Hm as <-. exists p. apply jm_In_get; [by apply jm_wf_delete|].
    rewrite <- own_entries_perm, Ho. by left. }
  split; [exact Hdel|]. destruct (bool_decide_reflect (activeProfileName s = Some n)) as [Ha|Ha].
  - split.
    + intros [p Hp]%Hhead. congruence.
    + intros _ Hne. destruct (head (own_entries (jm_delete n (profiles s))).*1) as [m|] eqn:Hm.
      * destruct (Hhead m eq_refl) as [p Hp]. by exists m, p.
      * exfalso. apply Hne. apply Permutation_nil_r. rewrite <- (own_entries_perm (jm_delete n (profiles s))).
        by destruct (own_entries (jm_delete n (profiles s))).
  - split; [exact Ha|]. intros. done.
Qed.
End Profiles.

(** ** Concrete inputs *)

Definition demo_ws (s : string) : option url :=
  if starts_with "ws:" s then Some (Url "ws:" "relay" "" s) else None.

Definition office : ConnectionProfile :=
  Profile "office" "ws://relay" (Some "tmux"%string) (Some "secret"%string) None (num_of_Z 1) (num_of_Z 2) (Some (num_of_Z 3)).
Definition demo_store : StoredProfiles :=
  Store PROFILE_FILE_VERSION (Some "office"%string) [("office"%string, office); ("7"%string, office)].

(** A one-text JSON: enough to read back the demonstration store. *)
Definition demo_json_parse (s : string) : option jsval :=
  if String.eqb s "the store" then Some (store_json demo_store) else None.
Definition demo_json_stringify (v : jsval) : string := "the store".

Lemma demo_store_ok : store_ok demo_ws demo_store.
Proof.
  assert (Hp : profile_ok demo_ws office) by (split; [done..|by intros b [= <-]; left]).
  split; [by split| |by apply Forall_cons; split; [|apply Forall_cons; split]].
  apply (bool_decide_unpack (NoDup ["office"; "7"]%string)). by vm_compute.
Qed.

Lemma profiles_roundtrip_witness :
  profiles (loadProfiles demo_ws demo_json_parse 9 (Some (saveProfiles demo_json_stringify demo_store))) =
    [("7"%string, office); ("office"%string, office)].
Proof.
  rewrite (profiles_roundtrip demo_ws demo_json_parse demo_json_stringify 9 demo_store demo_store_ok
    ltac:(reflexivity) ltac:(vm_compute; reflexivity)).
  by vm_compute.
Defined.

(** "/profile add office ws://new" on a saved profile: the token is gone. *)
Lemma upsert_replaces_witness :
  exists s' p, upsert demo_ws 9 (Candidate "office" "ws://new" None None None) demo_store = Some s' /\
    jm_get "office"%string (profiles s') = Some p /\ authToken p = None.
Proof.
  destruct (upsert demo_ws 9 (Candidate "office" "ws://new" None None None) demo_store) as [s'|] eqn:Hs;
    [|by vm_compute in Hs].
  destruct (upsert_replaces demo_ws 9 (Candidate "office" "ws://new" None None None) demo_store s' Hs)
    as (p & Hp & Ht & _).
  by exists s', p.
Defined.

Lemma remove_selects_another_witness :
  jm_wf (profiles demo_store) /\
  exists m p, activeProfileName (remove "office" demo_store) = Some m /\
    jm_get m (profiles (remove "office" demo_store)) = Some p.
Proof.
  split; [exact (ok_keys demo_ws demo_store demo_store_ok)|].
  apply (remove_selects_another "office" demo_store (ok_keys demo_ws demo_store demo_store_ok)); [done|].
  by vm_compute.
Defined.

(** A name that is no valid profile name can be selected, saved as active and forgotten. *)
Example invalid_key_not_remembered :
  let s := normalizeProfileStore demo_ws 0 (JObj [("profiles"%string,
    JObj [("bad name!"%string, JObj [("name"%string, JStr "good"); ("url"%string, JStr "ws://x")])])]) in
  activeProfileName (set_active (Some "bad name!"%string) s) = Some "bad name!"%string /\
  activeProfileName (normalizeProfileStore demo_ws 0 (store_json (set_active (Some "bad name!"%string) s))) = None.
Proof. by vm_compute. Qed.
