(* ===== verification/TuiQa.v ===== *)
(** * Production QA runner of the terminal client
    ([packages/commandrelay-tui/src/qa-mode.ts])

    The choice of sections, the command line of the runner and the run with its artifact.
    The file system, the shell's answer to a probe, the clock and the exit codes of the
    runner are arguments; the status icons are left out of the screen. *)

From S2P Require Import Prelude.
Local Open Scope Z_scope.

Inductive QaSectionName : Type := deps | ci | release | relay | smoke.

#[export] Instance QaSectionName_eq_dec : EqDecision QaSectionName.
Proof. solve_decision. Defined.

Definition SECTION_ORDER : list QaSectionName := [deps; ci; release; relay; smoke].

Definition section_name (s : QaSectionName) : string :=
  match s with deps => "deps" | ci => "ci" | release => "release" | relay => "relay" | smoke => "smoke" end.

Inductive QaStatus : Type := pending | running | pass | fail.

#[export] Instance QaStatus_eq_dec : EqDecision QaStatus.
Proof. solve_decision. Defined.

(** ** The selection *)

Definition tokenToSection (token : string) : option QaSectionName :=
  if negb (is_empty token) && str_forallb is_num token then
    match parse_int_exact token with
    | Some index =>
        if (1 <=? index) && (index <=? Z.of_nat (length SECTION_ORDER))
        then SECTION_ORDER !! Z.to_nat (index - 1) else None
    | None => None
    end
  else if String.eqb token "deps" || String.eqb token "dependencies" then Some deps
  else if String.eqb token "ci" then Some ci
  else if String.eqb token "release" then Some release
  else if String.eqb token "relay" then Some relay
  else if String.eqb token "smoke" then Some smoke
  else None.

(** Split at runs of commas and blanks, trimmed, in lower case, without the empty ones. *)
Definition section_tokens (raw : string) : list string :=
  filter (fun t => is_empty t = false)
    ((fun entry => to_lower (trim entry)) <$>
     split_on "," (str_map (fun c => if Ascii.eqb c " " then ","%char else c) raw)).

Fixpoint collect_sections (tokens : list string) (deduped : list QaSectionName) :
    result string (list QaSectionName) :=
  match tokens with
  | [] => Ok deduped
  | token :: rest =>
      if String.eqb token "all" then Ok SECTION_ORDER
      else
        match tokenToSection token with
        | None => Throw ("Unknown section: " +:+ token +:+ ". Use deps, ci, release, relay, smoke, all.")%string
        | Some mapped =>
            collect_sections rest (if decide (mapped ∈ deduped) then deduped else deduped ++ [mapped])
        end
  end.

Definition parseSections (raw : string) : result string (list QaSectionName) :=
  if is_empty (trim raw) then Ok [] else collect_sections (section_tokens raw) [].

Definition resolveSelectedSections (raw : list string) : result string (list QaSectionName) :=
  match raw with
  | [] => Ok SECTION_ORDER
  | _ =>
      rbind (parseSections (join "," raw)) (fun selected =>
      Ok (match selected with [] => SECTION_ORDER | _ => selected end))
  end.

(** ** The runner *)

Record RunnerInvocation : Type := Runner {
  command : string;
  args : list string;
  sectionArg : string;
  skipInstallArg : string
}.

Definition resolveRunnerInvocation (pathExists commandExists : string -> bool) (win32 : bool)
    (bash_runner ps1_runner : string) : result string RunnerInvocation :=
  if negb (pathExists bash_runner) || negb (pathExists ps1_runner)
  then Throw "Production QA runner scripts are missing from scripts/ops."%string
  else if win32 then
    match (if commandExists "pwsh"%string then Some "pwsh"%string
           else if commandExists "powershell"%string then Some "powershell"%string else None) with
    | None => Throw "No supported PowerShell executable found; install PowerShell 7+."%string
    | Some command =>
        Ok (Runner command
          ["-NoProfile"; "-NonInteractive"; "-ExecutionPolicy"; "Bypass"; "-File"; ps1_runner]%string
          "-Section" "-SkipInstall")
    end
  else Ok (Runner "bash" [bash_runner] "--section" "--skip-install").

Definition buildSectionInvocation (runner : RunnerInvocation) (section : QaSectionName) (skipInstall : bool) :
    list string :=
  args runner ++ [sectionArg runner; section_name section] ++
  (if skipInstall then [skipInstallArg runner] else []).

Record QaSectionState : Type := SectionState {
  name : QaSectionName;
  status : QaStatus;
  startedAt : option Z;
  finishedAt : option Z;
  exitCode : option Z
}.

Definition new_section (name : QaSectionName) : QaSectionState := SectionState name pending None None None.

(** One run of the runner: its vector, and the clock before and after it with the exit
    code ([None]: it could not be started, or was killed). *)
Record section_run : Type := Run { began : Z; ended : Z; exit_code : option Z }.

Definition start_section (t : Z) (s : QaSectionState) : QaSectionState :=
  SectionState (name s) running (Some t) (finishedAt s) (exitCode s).

Definition passed (r : section_run) : bool := match exit_code r with Some 0 => true | _ => false end.

Definition finish_section (r : section_run) (s : QaSectionState) : QaSectionState :=
  SectionState (name s) (if passed r then pass else fail) (startedAt s) (Some (ended r)) (exit_code r).

(** [writeRunArtifact]: the sections, and the verdict of the final artifact. *)
Record QaRunArtifact : Type := Artifact {
  sections : list QaSectionState;
  overallPassed : option bool
}.

(** What the loop over the sections has done so far. *)
Record qa_run : Type := QaRun {
  states : list QaSectionState;
  vectors : list (list string);
  artifacts : list QaRunArtifact;
  allPassed : bool
}.

Definition run_section (runner : RunnerInvocation) (skipInstall : bool) (runs : nat -> section_run)
    (index : nat) (x : qa_run) : qa_run :=
  match states x !! index with
  | None => x
  | Some section =>
      let r := runs index in
      let started := start_section (began r) section in
      let states1 := <[index := started]> (states x) in
      let states2 := <[index := finish_section r started]> states1 in
      QaRun states2
        (vectors x ++ [buildSectionInvocation runner (name section) (skipInstall || (0 <? Z.of_nat index))])
        (artifacts x ++ [Artifact states1 None; Artifact states2 None])
        (allPassed x && passed r)
  end.

Definition runProductionQaMode (runner : RunnerInvocation) (selected : list QaSectionName)
    (skipInstall : bool) (runs : nat -> section_run) : qa_run :=
  let states0 := new_section <$> selected in
  let x := foldl (fun x index => run_section runner skipInstall runs index x)
    (QaRun states0 [] [Artifact states0 None] true) (seq 0 (length selected)) in
  QaRun (states x) (vectors x) (artifacts x ++ [Artifact (states x) (Some (allPassed x))]) (allPassed x).

(** ** The selection is a choice of sections *)

Lemma collect_sections_NoDup tokens deduped l : NoDup deduped ->
  collect_sections tokens deduped = Ok l -> NoDup l.
Proof.
  revert deduped. induction tokens as [|token tokens IH]; intros deduped Hnd; cbn [collect_sections].
  - by intros [= <-].
  - destruct (String.eqb token "all").
    + intros [= <-]. apply (bool_decide_unpack (NoDup SECTION_ORDER)). by vm_compute.
    + destruct (tokenToSection token) as [s|]; [|done]. case_decide as Hin; apply IH; [done|].
      apply NoDup_app. split; [done|]. split; [|apply NoDup_singleton].
      by intros t Ht ->%list_elem_of_singleton.
Qed.

Lemma selection_ok raw l : resolveSelectedSections raw = Ok l -> l <> [] /\ NoDup l.
Proof.
  assert (Hall : SECTION_ORDER <> [] /\ NoDup SECTION_ORDER).
  { split; [done|]. apply (bool_decide_unpack (NoDup SECTION_ORDER)). by vm_compute. }
  unfold resolveSelectedSections. destruct raw as [|r raw]; [by intros [= <-]|].
  rewrite rbind_Ok. intros (selected & Hs & [= <-]). destruct selected as [|s selected]; [done|].
  split; [done|]. unfold parseSections in Hs. destruct (is_empty _); [done|].
  apply (collect_sections_NoDup _ _ _ (NoDup_nil_2) Hs).
Qed.

(** Whatever the options say, a selection that is accepted runs at least one section
    and none twice. *)
Theorem qa_selection_ok raw l : resolveSelectedSections raw = Ok l -> l <> [] /\ NoDup l.
Proof. apply selection_ok. Qed.

(** ** The run *)

(** The states, vectors and verdict after the first [n] sections. *)
Definition section_result (runs : nat -> section_run) (i : nat) (s : QaSectionName) : QaSectionState :=
  SectionState s (if passed (runs i) then pass else fail) (Some (began (runs i))) (Some (ended (runs i))) (exit_code (runs i)).

Definition after (runner : RunnerInvocation) (selected : list QaSectionName) (skipInstall : bool)
    (runs : nat -> section_run) (n : nat) (x : qa_run) : Prop :=
  states x = imap (section_result runs) (take n selected) ++ (new_section <$> drop n selected) /\
  vectors x = imap (fun i s => buildSectionInvocation runner s (skipInstall || (0 <? Z.of_nat i))) (take n selected) /\
  allPassed x = forallb (fun i => passed (runs i)) (seq 0 n).

Lemma run_section_after runner selected skipInstall runs n x : (n < length selected)%nat ->
  after runner selected skipInstall runs n x ->
  after runner selected skipInstall runs (S n) (run_section runner skipInstall runs n x).
Proof.
  intros Hn (Hs & Hv & Hp). destruct (lookup_lt_is_Some_2 selected n Hn) as [s Hlook].
  assert (Hlen : length (imap (section_result runs) (take n selected)) = n)
    by (rewrite length_imap, length_take; lia).
  assert (Hat : states x !! n = Some (new_section s)).
  { rewrite Hs, lookup_app_r by lia. rewrite Hlen, Nat.sub_diag, list_lookup_fmap.
    by rewrite lookup_drop, Nat.add_0_r, Hlook. }
  unfold run_section. rewrite Hat. unfold after. cbn [states vectors allPassed].
  rewrite (take_S_r selected n s Hlook), !imap_app, Hs, Hv, Hp. rewrite length_take, Nat.min_l by lia.
  split; [|split].
  - rewrite list_insert_insert_eq, <- app_assoc. rewrite insert_app_r_alt by lia.
    rewrite Hlen, Nat.sub_diag. f_equal. rewrite (drop_S selected s n Hlook). simpl.
    by rewrite Nat.add_0_r.
  - simpl. by rewrite Nat.add_0_r.
  - rewrite seq_S, forallb_app. simpl. by rewrite andb_true_r.
Qed.

Lemma run_all_after runner selected skipInstall runs n : (n <= length selected)%nat ->
  after runner selected skipInstall runs n
    (foldl (fun x index => run_section runner skipInstall runs index x)
      (QaRun (new_section <$> selected) [] [Artifact (new_section <$> selected) None] true) (seq 0 n)).
Proof.
  induction n as [|n IH]; intros Hn; [by split|]. rewrite seq_S, foldl_app. simpl.
  apply run_section_after; [lia|]. apply IH. lia.
Qed.

(** Every selected section is run once, in order, whatever the ones before it gave; only
    the first one may install dependencies.  The run passes exactly when every section
    exits with 0, and its last artifact says so, with every section settled. *)
Theorem qa_run_complete runner selected skipInstall runs :
  let x := runProductionQaMode runner selected skipInstall runs in
  vectors x = imap (fun i s => buildSectionInvocation runner s (skipInstall || (0 <? Z.of_nat i))) selected /\
  (allPassed x = true <-> forall i s, selected !! i = Some s -> exit_code (runs i) = Some 0) /\
  last (artifacts x) = Some (Artifact (imap (section_result runs) selected) (Some (allPassed x))).
Proof.
  cbv zeta. unfold runProductionQaMode. cbv zeta.
  destruct (run_all_after runner selected skipInstall runs (length selected) (le_n _)) as (Hs & Hv & Hp).
  set (x := foldl _ _ _) in *. rewrite firstn_all, drop_all, app_nil_r in Hs. rewrite firstn_all in Hv.
  cbn [vectors allPassed artifacts]. split; [exact Hv|]. split; [|by rewrite last_snoc, Hs].
  rewrite Hp, forallb_forall. split.
  - intros H i s Hi%lookup_lt_Some.
    assert (Hin : In i (seq 0 (length selected))) by (apply in_seq; simpl; lia). specialize (H i Hin).
    unfold passed in H. by destruct (exit_code (runs i)) as [[]|].
  - intros H i [_ Hi]%in_seq. destruct (lookup_lt_is_Some_2 selected i Hi) as [s Hs'].
    unfold passed. by rewrite (H i s Hs').
Qed.

(** ** Concrete inputs *)

Lemma qa_selection_ok_witness :
  resolveSelectedSections ["ci, 1"; "ci"]%string = Ok [ci; deps] /\ NoDup [ci; deps].
Proof.
  split; [by vm_compute|]. exact (proj2 (qa_selection_ok ["ci, 1"; "ci"]%string [ci; deps] ltac:(vm_compute; reflexivity))).
Defined.

Example unknown_section :
  resolveSelectedSections ["9"]%string = Throw "Unknown section: 9. Use deps, ci, release, relay, smoke, all."%string.
Proof. by vm_compute. Qed.
