(* ===== verification/TuiLaunch.v ===== *)
(** * Start of the terminal client ([packages/commandrelay-tui/src/cli.ts], [backend.ts],
    [token.ts])

    Arguments, the choice of url, backend and token, the token prompt, and the launch of
    a local terminal.  The file system, the path functions, the environment and the
    process table are arguments. *)

From S2P Require Import Prelude ProxyCore SshTmux TuiProfiles TuiQa.
Local Open Scope Z_scope.

(** ** Backends ([backend.ts]) *)

Definition isBackend (value : string) : bool :=
  String.eqb value "tmux" || String.eqb value "ghostty" || String.eqb value "console".

Section Machine.
Context (win32 : bool) (env : string -> option string).
(** What is at a path, if anything: [true] for a regular file; whether it may be
    executed; [path.normalize] and [path.join]. *)
Context (is_file : string -> option bool) (access_x : string -> bool).
Context (path_normalize : string -> string) (path_join : string -> string -> string).

Definition isExecutablePath (candidate : string) : bool :=
  match is_file candidate with
  | Some true => win32 || access_x candidate
  | _ => false
  end.

Definition defaultShell : string :=
  if win32 then default "cmd" (env "COMSPEC") else default "sh" (env "SHELL").

(** [replace(/^["']|["']$/g, "")]. *)
Definition is_quote (c : ascii) : bool := Ascii.eqb c squote || Ascii.eqb c dquote.
Definition strip_first_quote (s : string) : string :=
  match s with String c r => if is_quote c then r else s | EmptyString => s end.
Definition strip_quotes (s : string) : string :=
  let s := strip_first_quote s in String.rev (strip_first_quote (String.rev s)).

Definition path_delimiter : ascii := if win32 then ";"%char else ":"%char.

Definition hasExecutable (name : string) : bool :=
  let trimmed := trim name in
  if is_empty trimmed then false
  else if negb (str_forallb (fun c => negb (one_of "\/" c)) trimmed) then isExecutablePath trimmed
  else
    let pathEntries := filter (fun e => is_empty e = false) (split_on path_delimiter (default EmptyString (env "PATH"))) in
    let exts :=
      if win32 then (fun e => to_upper (trim e)) <$> split_on ";" (default ".COM;.EXE;.BAT;.CMD" (env "PATHEXT"))
      else [EmptyString] in
    existsb (fun entry =>
      let normalizedDir := path_normalize (strip_quotes (trim entry)) in
      existsb (fun ext => isExecutablePath (path_join normalizedDir (trimmed +:+ ext))) exts) pathEntries.

Definition hasBackendExecutable (backend : string) : bool :=
  if String.eqb backend "console" then true
  else if String.eqb backend "tmux" then negb win32 && hasExecutable "tmux"
  else hasExecutable "ghostty".

Definition detectTerminalBackend (preferred : option string) : string :=
  match preferred with
  | Some b => if hasBackendExecutable b then b
              else if hasBackendExecutable "tmux" then "tmux"
              else if hasBackendExecutable "ghostty" then "ghostty" else "console"
  | None => if hasBackendExecutable "tmux" then "tmux"
            else if hasBackendExecutable "ghostty" then "ghostty" else "console"
  end.

(** ** Launching *)

(** A call of [spawn]: a vector, or a command line for the system's shell. *)
Inductive spawned : Type :=
| Vector (command : string) (args : list string)
| ShellLine (command : string).

(** Whether [spawn] throws at once.  A program that does not exist does not make it
    throw: it is reported by an "error" event of the child. *)
Context (spawn_throws : string -> list string -> bool) (cwd : string).

Definition shellQuote (value : string) : string :=
  (String squote "" +:+ replace_quotes value +:+ String squote "")%string.

Definition launchWithConsole (command : string) : list spawned := [ShellLine command].

Definition tmux_args (command : string) : list string :=
  let shell := if win32 then "cmd"%string else default "bash"%string (env "SHELL") in
  ["new-window"; "-n"; "commandrelay"; "-c"; cwd; shell +:+ " -lc " +:+ shellQuote command]%string.

Definition launchWithTmux (command : string) : list spawned :=
  if spawn_throws "tmux" (tmux_args command) then launchWithConsole command
  else [Vector "tmux" (tmux_args command)].

Definition ghostty_attempts (command : string) : list (list string) :=
  [["--"; defaultShell; "-lc"; command]; ["-e"; defaultShell; "-lc"; command];
   ["--command"; defaultShell; "-lc"; command]; [defaultShell; "-lc"; command]; []]%string.

Definition launchWithGhostty (command : string) : option (list spawned) :=
  (fun args => [Vector "ghostty" args]) <$>
  head (filter (fun args => spawn_throws "ghostty" args = false) (ghostty_attempts command)).

Definition launchLocalTerminal (backend command : string) : list spawned :=
  if String.eqb backend "tmux" then launchWithTmux command
  else
    match (if String.eqb backend "ghostty" then launchWithGhostty command else None) with
    | Some started => started
    | None => launchWithConsole command
    end.

(** ** Tokens ([token.ts]) *)

Context (readFile : string -> option string).

Definition first_token (candidates : list (option string)) : option string :=
  head (omap (fun t => t ≫= fun t => if is_empty (trim t) then None else Some (trim t)) candidates).

Definition resolveStoredAuthToken : option string :=
  first_token
    (((fun name => match env name with Some (String c r) => readFile (String c r) | _ => None end)
        <$> ["CRC_TOKEN_FILE"; "COMMANDRELAY_TOKEN_FILE"]%string) ++
     (env <$> ["CRC_TOKEN"; "COMMANDRELAY_TOKEN"]%string)).
End Machine.

(** The masked prompt: the characters typed, and the answer once there is one. *)
Record prompt : Type := Prompt {
  chars : string;
  answer : option (option string)
}.

Definition token_or_null (value : string) : option string :=
  if is_empty (trim value) then None else Some (trim value).

Definition finish (value : string) (p : prompt) : prompt := Prompt (chars p) (Some (token_or_null value)).

(** One character of a "data" event. *)
Definition onChar (p : prompt) (c : ascii) : prompt :=
  match answer p with
  | Some _ => p
  | None =>
      let n := code c in
      if ((n =? 13) || (n =? 10))%N then finish (chars p) p
      else if ((n =? 3) || (n =? 4))%N then finish EmptyString p
      else if ((n =? 8) || (n =? 127))%N then Prompt (str_take (String.length (chars p) - 1) (chars p)) None
      else if (32 <=? n)%N then Prompt (chars p +:+ String c "")%string None
      else p
  end.

Fixpoint onData (p : prompt) (chunk : string) : prompt :=
  match chunk with
  | EmptyString => p
  | String c r => onData (onChar p c) r
  end.

Definition empty_prompt : prompt := Prompt EmptyString None.

(** [promptToken] on a stream that is no terminal: the answer to a question. *)
Definition question_answer (line : string) : option string := token_or_null line.

(** ** Arguments ([cli.ts]) *)

Definition DEFAULT_WS_URL : string := "ws://127.0.0.1:8787/ws".

Record CliArgs : Type := Args {
  explicitUrl : bool;
  a_url : string;
  profile : option string;
  command_text : string;
  a_backend : option string;
  qaMode : bool;
  qaSections : list QaSectionName;
  qaSkipInstall : bool;
  qaArtifact : option string
}.

(** What [parseArgs] does: return, print the usage and exit, or throw. *)
Inductive parsed_args : Type :=
| Parsed (a : CliArgs)
| Usage
| ArgError (message : string).

Definition default_args : CliArgs := Args false DEFAULT_WS_URL None EmptyString None false [] false None.

Definition set_url u a := Args true u (profile a) (command_text a) (a_backend a) (qaMode a) (qaSections a) (qaSkipInstall a) (qaArtifact a).
Definition set_profile p a := Args (explicitUrl a) (a_url a) (Some p) (command_text a) (a_backend a) (qaMode a) (qaSections a) (qaSkipInstall a) (qaArtifact a).
Definition set_command c a := Args (explicitUrl a) (a_url a) (profile a) c (a_backend a) (qaMode a) (qaSections a) (qaSkipInstall a) (qaArtifact a).
Definition set_backend b a := Args (explicitUrl a) (a_url a) (profile a) (command_text a) (Some b) (qaMode a) (qaSections a) (qaSkipInstall a) (qaArtifact a).
Definition set_qa a := Args (explicitUrl a) (a_url a) (profile a) (command_text a) (a_backend a) true (qaSections a) (qaSkipInstall a) (qaArtifact a).
Definition set_sections l a := Args (explicitUrl a) (a_url a) (profile a) (command_text a) (a_backend a) (qaMode a) l (qaSkipInstall a) (qaArtifact a).
Definition set_skip a := Args (explicitUrl a) (a_url a) (profile a) (command_text a) (a_backend a) (qaMode a) (qaSections a) true (qaArtifact a).
Definition set_artifact p a := Args (explicitUrl a) (a_url a) (profile a) (command_text a) (a_backend a) (qaMode a) (qaSections a) (qaSkipInstall a) (Some p).

(** An option with a value: it is missing when absent or empty. *)
Definition with_value (option_name : string) (rest : list string) (k : string -> list string -> parsed_args) :
    parsed_args :=
  match rest with
  | [] | EmptyString :: _ => ArgError ("missing " +:+ option_name +:+ " value")
  | value :: rest => k value rest
  end.

(** The loop from [argv[index]] on. *)
Fixpoint parse_from (fuel : nat) (argv : list string) (a : CliArgs) : parsed_args :=
  match fuel, argv with
  | O, _ | _, [] => Parsed a
  | S fuel, current :: rest =>
      if String.eqb current "--url" then
        with_value current rest (fun v rest => parse_from fuel rest (set_url v a))
      else if String.eqb current "--profile" then
        with_value current rest (fun v rest =>
          if isValidProfileName v then parse_from fuel rest (set_profile v a)
          else ArgError ("invalid --profile '" +:+ v +:+ "'"))
      else if String.eqb current "--backend" then
        with_value current rest (fun v rest =>
          if isBackend v then parse_from fuel rest (set_backend v a)
          else ArgError ("invalid backend '" +:+ v +:+ "'"))
      else if String.eqb current "--help" || String.eqb current "-h" then Usage
      else if String.eqb current "--qa" then parse_from fuel rest (set_qa a)
      else if String.eqb current "--qa-skip-install" then parse_from fuel rest (set_skip a)
      else if String.eqb current "--qa-artifact" then
        with_value current rest (fun v rest => parse_from fuel rest (set_artifact v a))
      else if String.eqb current "--qa-sections" then
        with_value current rest (fun v rest =>
          match resolveSelectedSections ((section_name <$> qaSections a) ++ [v]) with
          | Ok l => parse_from fuel rest (set_sections l a)
          | Throw e => ArgError e
          end)
      else if String.eqb current "--" then Parsed (set_command (join " " rest) a)
      else if starts_with "--" current then ArgError ("unknown option '" +:+ current +:+ "'")
      else Parsed (set_command (join " " (current :: rest)) a)
  end.

(** A "--" in front of an option is skipped. *)
Fixpoint skip_dashes (argv : list string) : list string :=
  match argv with
  | a :: (b :: _) as rest => if String.eqb a "--" && starts_with "--" b then skip_dashes rest else argv
  | _ => argv
  end.

Definition parseArgs (argv : list string) : parsed_args :=
  let argv := skip_dashes argv in parse_from (S (length argv)) argv default_args.

(** What [main] connects with. *)
Record start_state : Type := Start {
  start_url : string;
  start_backend : string;
  start_token : option string
}.

Definition prepare (a : CliArgs) (selected : option ConnectionProfile) (detected : string)
    (stored : option string) : start_state :=
  let from_profile {A} (f : ConnectionProfile -> option A) : option A := selected ≫= f in
  Start
    (if explicitUrl a then a_url a else default (a_url a) (from_profile (fun p => Some (profile_url p))))
    (match a_backend a with
     | Some _ => detected
     | None => default detected (from_profile (fun p => valid isBackend (backend p)))
     end)
    (match from_profile authToken with
     | Some (String c r) => Some (String c r)
     | _ => stored
     end).

(** ** The loop over the arguments ends *)

Lemma with_value_ext o rest k k' :
  (forall v r, (length r < length rest)%nat -> k v r = k' v r) -> with_value o rest k = with_value o rest k'.
Proof. intros H. destruct rest as [|[|c v] rest]; [done..|]. apply H. simpl. lia. Qed.

(** The result does not depend on the fuel once there is as much as there are arguments. *)
Lemma parse_from_fuel n m argv a : (length argv <= n)%nat -> (length argv <= m)%nat ->
  parse_from n argv a = parse_from m argv a.
Proof.
  revert m argv a. induction n as [|n IH]; intros m argv a Hn Hm.
  { destruct argv; [by destruct m|simpl in Hn; lia]. }
  destruct m as [|m]; [destruct argv; [done|simpl in Hm; lia]|].
  destruct argv as [|current rest]; [done|]. simpl in Hn, Hm. cbn [parse_from].
  assert (Hw : forall o k k', (forall v r, (length r <= n)%nat -> (length r <= m)%nat -> k v r = k' v r) ->
    with_value o rest k = with_value o rest k').
  { intros o k k' Hk. apply with_value_ext. intros v r Hr. apply Hk; lia. }
  repeat match goal with |- (if ?b then _ else _) = _ => destruct b end;
    first [done | (apply IH; lia) | apply Hw; intros v r Hr Hr'].
  - by apply IH.
  - destruct (isValidProfileName v); [by apply IH|done].
  - destruct (isBackend v); [by apply IH|done].
  - by apply IH.
  - destruct (resolveSelectedSections _); [by apply IH|done].
Qed.

Record args_ok (a : CliArgs) : Prop := {
  args_profile : forall p, profile a = Some p -> isValidProfileName p = true;
  args_backend : forall b, a_backend a = Some b -> isBackend b = true;
  args_url : explicitUrl a = true \/ a_url a = DEFAULT_WS_URL;
  args_sections : qaSections a = [] \/ (qaSections a <> [] /\ NoDup (qaSections a))
}.

Lemma with_value_Parsed o rest k a : with_value o rest k = Parsed a ->
  exists v r, k v r = Parsed a.
Proof. destruct rest as [|[|c v] rest]; [done..|]. simpl. eauto. Qed.

Lemma parse_from_ok n argv a b : args_ok a -> parse_from n argv a = Parsed b -> args_ok b.
Proof.
  revert argv a. induction n as [|n IH]; intros argv a Ha; [destruct argv; cbn; by intros [= <-]|].
  destruct argv as [|current rest]; [by intros [= <-]|]. cbn [parse_from]. destruct Ha as [Hp Hb Hu Hs].
  repeat match goal with |- (if ?b then _ else _) = _ -> _ => destruct b end; try done.
  - intros (v & r & Hk)%with_value_Parsed. eapply IH; [|exact Hk]. split; simpl; [done|done|by left|done].
  - intros (v & r & Hk)%with_value_Parsed. destruct (isValidProfileName v) eqn:Hv; [|done].
    eapply IH; [|exact Hk]. split; simpl; [by intros p [= <-]|done..].
  - intros (v & r & Hk)%with_value_Parsed. destruct (isBackend v) eqn:Hv; [|done].
    eapply IH; [|exact Hk]. split; simpl; [done|by intros p [= <-]|done..].
  - apply IH. by split.
  - apply IH. by split.
  - intros (v & r & Hk)%with_value_Parsed. eapply IH; [|exact Hk]. by split.
  - intros (v & r & Hk)%with_value_Parsed. destruct (resolveSelectedSections _) as [l|e] eqn:Hl; [|done].
    eapply IH; [|exact Hk]. split; simpl; [done..|]. right. exact (selection_ok _ _ Hl).
  - intros [= <-]. by split.
  - intros [= <-]. by split.
Qed.

(** Arguments that are accepted name a valid profile and a known backend, keep the
    default url unless one was given, and select quality sections without repetition. *)
Theorem parsed_args_ok argv a : parseArgs argv = Parsed a -> args_ok a.
Proof.
  apply parse_from_ok. split; simpl; [done|done|by right|by left].
Qed.

(** ** Launching *)

Section Launching.
Context (win32 : bool) (env : string -> option string) (is_file : string -> option bool) (access_x : string -> bool)
  (path_normalize : string -> string) (path_join : string -> string -> string)
  (spawn_throws : string -> list string -> bool) (cwd : string).

Lemma words_plain v r : negb (is_empty v) && str_forallb shell_safe_char v = true ->
  shell_words Unquoted None (v +:+ r)%string = shell_words Unquoted (Some v) r.
Proof. intros Hv. rewrite <- words_escaped. unfold shellEscape. by rewrite Hv. Qed.

(** The command line that tmux hands to its shell is read back as exactly the user's
    shell, "-lc" and the command as it was typed, whatever quotes, blanks or
    metacharacters it contains. *)
Theorem tmux_runs_command command shell :
  shell = (if win32 then "cmd"%string else default "bash"%string (env "SHELL")) ->
  negb (is_empty shell) && str_forallb shell_safe_char shell = true ->
  shell_words Unquoted None (default EmptyString (last (tmux_args win32 env cwd command))) =
    Some [shell; "-lc"; command]%string.
Proof.
  intros -> Hshell. unfold tmux_args. cbn [last default]. set (shell := if win32 then _ else _) in *.
  change (shell_words Unquoted None (shell +:+ (" -lc " +:+ shellQuote command)) = Some [shell; "-lc"; command]%string).
  rewrite words_plain by exact Hshell. unfold shellQuote. rewrite !str_app_cons, !str_app_nil_l. simpl.
  rewrite <- ?str_app_assoc, words_quoted. simpl. by rewrite ?str_app_nil_l.
Qed.

(** The backend that is chosen can be launched, and the preferred one is chosen if it can. *)
Theorem detected_backend_works preferred :
  let has := hasBackendExecutable win32 env is_file access_x path_normalize path_join in
  let b := detectTerminalBackend win32 env is_file access_x path_normalize path_join preferred in
  has b = true /\ (forall p, preferred = Some p -> has p = true -> b = p).
Proof.
  cbv zeta. unfold detectTerminalBackend. set (has := hasBackendExecutable _ _ _ _ _ _).
  assert (Hfallback : has (if has "tmux"%string then "tmux"%string
    else if has "ghostty"%string then "ghostty"%string else "console"%string) = true).
  { destruct (has "tmux"%string) eqn:Ht; [done|]. by destruct (has "ghostty"%string) eqn:Hg. }
  destruct preferred as [p|]; [|done]. destruct (has p) eqn:Hp.
  - split; [done|]. by intros q [= <-].
  - split; [done|]. intros q [= <-]. congruence.
Qed.

(** As long as spawn does not throw - a missing program does not make it throw - one
    process is started, and the fallbacks of the tmux and ghostty launchers are dead. *)
Lemma launch_never_falls_back backend command :
  (forall program args, spawn_throws program args = false) -> backend = "tmux"%string \/ backend = "ghostty"%string ->
  exists args, launchLocalTerminal win32 env spawn_throws cwd backend command = [Vector backend args].
Proof.
  intros Hs [-> | ->]; unfold launchLocalTerminal; simpl.
  - unfold launchWithTmux. rewrite Hs. by eexists.
  - unfold launchWithGhostty, ghostty_attempts. rewrite filter_cons_True by apply Hs. by eexists.
Qed.
End Launching.

(** ** The prompt *)

Lemma onData_app p a b : onData p (a +:+ b) = onData (onData p a) b.
Proof. revert p. induction a as [|c a IH]; intros p; [done|]. rewrite str_app_cons. apply IH. Qed.

Lemma onData_chunks p chunks : foldl onData p chunks = onData p (foldr (fun a b => (a +:+ b)%string) EmptyString chunks).
Proof. revert p. induction chunks as [|a chunks IH]; intros p; [done|]. simpl. by rewrite IH, onData_app. Qed.

Lemma onData_answered p s : answer p <> None -> onData p s = p.
Proof.
  intros H. induction s as [|c s IH]; [done|]. simpl. unfold onChar. by destruct (answer p) eqn:Ha.
Qed.

(** A character that is kept: no control character and no delete. *)
Definition kept (c : ascii) : bool := ((32 <=? code c) && negb (code c =? 127))%N.

Lemma onData_kept s keys : str_forallb kept keys = true ->
  onData (Prompt s None) keys = Prompt (s +:+ keys) None.
Proof.
  revert s. induction keys as [|c keys IH]; intros s; [by rewrite str_app_nil_r|].
  intros [Hc Hk]%andb_true_iff. unfold kept in Hc. apply andb_true_iff in Hc as [H32 H127].
  cbn [onData]. unfold onChar. cbn [answer chars].
  apply N.leb_le in H32. apply negb_true_iff, N.eqb_neq in H127.
  rewrite !(proj2 (N.eqb_neq _ _)) by lia. rewrite (proj2 (N.leb_le _ _)) by done. simpl.
  rewrite IH by done. by rewrite <- str_app_assoc, str_app_cons, str_app_nil_l.
Qed.

(** What is typed before the first end of line is the token, without the blanks around
    it, however the terminal cuts the text into chunks and whatever follows. *)
Theorem prompt_reads_line chunks keys rest :
  foldr (fun a b => (a +:+ b)%string) EmptyString chunks = (keys +:+ String "013" rest)%string ->
  str_forallb kept keys = true ->
  answer (foldl onData empty_prompt chunks) = Some (token_or_null keys).
Proof.
  intros Hchunks Hk. rewrite onData_chunks, Hchunks, onData_app. unfold empty_prompt.
  rewrite onData_kept, str_app_nil_l by done. cbn [onData]. unfold onChar. cbn [answer].
  change (code "013") with 13%N. cbn [N.eqb Pos.eqb orb]. by rewrite onData_answered.
Qed.

(** ** Concrete inputs *)

Lemma parsed_args_ok_witness :
  exists a, parseArgs ["--"; "--profile"; "office"; "--backend"; "tmux"; "--qa-sections"; "ci,1"; "/list"; "x"]%string = Parsed a /\
    command_text a = "/list x"%string /\ args_ok a.
Proof.
  destruct (parseArgs ["--"; "--profile"; "office"; "--backend"; "tmux"; "--qa-sections"; "ci,1"; "/list"; "x"]%string) as [a| |e] eqn:Ha;
    [|by vm_compute in Ha..].
  exists a. split; [done|]. split; [vm_compute in Ha; by injection Ha as <-|].
  exact (parsed_args_ok _ a Ha).
Defined.

Lemma tmux_runs_command_witness :
  shell_words Unquoted None (default EmptyString
    (last (tmux_args false (fun _ => Some "/bin/zsh"%string) "/home" "echo 'it''s' $HOME; ls"))) =
    Some ["/bin/zsh"; "-lc"; "echo 'it''s' $HOME; ls"]%string.
Proof.
  exact (tmux_runs_command false (fun _ => Some "/bin/zsh"%string) "/home" "echo 'it''s' $HOME; ls" "/bin/zsh"
    eq_refl ltac:(vm_compute; reflexivity)).
Defined.

Lemma prompt_reads_line_witness :
  answer (foldl onData empty_prompt [" se"; String "c" (String "013" "late"); "x"]%string) = Some (Some "sec"%string).
Proof.
  exact (prompt_reads_line [" se"; String "c" (String "013" "late"); "x"]%string " sec" "latex" eq_refl eq_refl).
Defined.

(** Deleting goes back one character; an interrupt gives no token. *)
Example prompt_edits :
  answer (onData empty_prompt (String "a" (String "b" (String "127" (String "c" (String "010" "")))))) = Some (Some "ac"%string) /\
  answer (onData empty_prompt (String "a" (String "003" ""))) = Some None.
Proof. by vm_compute. Qed.

(** "--qa-sections" twice: the second value is added to the first. *)
Example sections_accumulate :
  match parseArgs ["--qa-sections"; "ci"; "--qa-sections"; "smoke"]%string with
  | Parsed a => qaSections a = [ci; smoke]
  | _ => False
  end.
Proof. by vm_compute. Qed.
