(* ===== verification/TuiCommands.v ===== *)
(** * Commands of the terminal client ([packages/commandrelay-tui/src/cli-commands.ts],
    the listeners and the prompt loop of [cli-runtime.ts])

    A line typed at the prompt, from its dispatch to the requests it makes and the state
    it leaves, on top of the connection of [Tui] and the profiles of [TuiProfiles].  A
    command that waits - for a reply of the gateway client, for a token, for a
    disconnection - leaves a waiter; several may wait at once, since the prompt does not
    wait for the command before.  Writing the profile file does not fail; the /health
    request is left out but for the texts it prints. *)

From S2P Require Import Prelude JsMap ProxyCore TuiProfiles TuiLaunch Tui.
Local Open Scope Z_scope.

(** ** Which command a line is *)

Inductive action : Type :=
| DoHelp | DoList | AttachUsage | DoAttach (pane : string) | DoDetach | DoProfiles | DoProfile
| DoEnable | DoDisable | DoToken | TokenUsage | DoReconnect | DoHealth | DoBackend
| DoOpen (command : string) | DoStatus | DoQuit | DoUnknown.

Definition action_of (defaultShell raw : string) : action :=
  if starts_with "/help" raw then DoHelp
  else if starts_with "/list" raw then DoList
  else if String.eqb raw "/attach" then AttachUsage
  else if starts_with "/attach " raw then
    let pane := trim (str_drop 8 raw) in if is_empty pane then AttachUsage else DoAttach pane
  else if String.eqb raw "/detach" then DoDetach
  else if String.eqb raw "/profiles" then DoProfiles
  else if starts_with "/profile" raw then DoProfile
  else if String.eqb raw "/enable" then DoEnable
  else if String.eqb raw "/disable" then DoDisable
  else if String.eqb raw "/token" then DoToken
  else if starts_with "/token " raw then TokenUsage
  else if starts_with "/reconnect" raw then DoReconnect
  else if starts_with "/health" raw then DoHealth
  else if String.eqb raw "/backend" then DoBackend
  else if String.eqb raw "/open" || starts_with "/open " raw then
    let command := trim (str_drop 5 raw) in DoOpen (if is_empty command then defaultShell else command)
  else if starts_with "/status" raw then DoStatus
  else if String.eqb raw "/quit" || String.eqb raw "/exit" then DoQuit
  else DoUnknown.

(** [raw.trim().split(/\s+/)]. *)
Definition split_blanks (raw : string) : list string :=
  match filter (fun w => is_empty w = false)
          (split_on " " (str_map (fun c => if is_space c then " "%char else c) raw)) with
  | [] => [EmptyString]
  | ws => ws
  end.

(** The actions of /profile. *)
Inductive profile_action : Type :=
| ProfileHelp
| ProfileAdd (name url backend : option string)
| ProfileRemove (name : option string)
| ProfileUse (name : option string)
| ProfileToken (name : option string)
| ProfileUnknown.

Definition profile_action_of (raw : string) : profile_action :=
  let parts := split_blanks raw in
  let action := to_lower (default EmptyString (parts !! 1%nat)) in
  if is_empty action || String.eqb action "help" then ProfileHelp
  else if String.eqb action "add" then ProfileAdd (parts !! 2%nat) (parts !! 3%nat) (parts !! 4%nat)
  else if String.eqb action "rm" || String.eqb action "remove" then ProfileRemove (parts !! 2%nat)
  else if String.eqb action "use" then ProfileUse (parts !! 2%nat)
  else if String.eqb action "token" then ProfileToken (parts !! 2%nat)
  else ProfileUnknown.

(** ** State *)

(** A request to the gateway client: a call of its methods. *)
Inductive request : Type :=
| ReqAuthenticate (token : string)
| ReqDisconnect
| ReqHeartbeat
| ReqList
| ReqAttach (pane : string) (lastSeq : option num)
| ReqDetach (pane : string)
| ReqPolicy (enable : bool)
| ReqInput (pane data : string).

(** What follows a disconnection: [requestExit], or the new profile's connection. *)
Inductive continuation : Type := ThenExit | ThenReconnect.

Inductive waiter : Type :=
| WList (silent : bool)
| WAttach (pane : string)
| WDetach
| WPolicy (enable : bool)
| WInput
| WToken
| WProfileToken (name : string)
| WDisconnect (task : nat) (k : continuation).

Inductive effect : Type :=
| Say (text : string)
| Ask (client : nat) (r : request)
| Open (s : list spawned)
| Dial (client : nat) (url : string)
| Write (chunk : string)
| Exit.

Record cli : Type := Cli {
  core : tui;
  termBackend : string;
  wsUrl : string;
  activeProfile : ActiveProfileState;
  lastSeqByPane : list (string * num);
  file : option string;
  waiting : list (nat * waiter);
  next_waiter : nat;
  exited : bool
}.

Definition with_core c x := Cli c (termBackend x) (wsUrl x) (activeProfile x) (lastSeqByPane x) (file x) (waiting x) (next_waiter x) (exited x).
Definition with_backend b x := Cli (core x) b (wsUrl x) (activeProfile x) (lastSeqByPane x) (file x) (waiting x) (next_waiter x) (exited x).
Definition with_url u x := Cli (core x) (termBackend x) u (activeProfile x) (lastSeqByPane x) (file x) (waiting x) (next_waiter x) (exited x).
Definition with_profile p x := Cli (core x) (termBackend x) (wsUrl x) p (lastSeqByPane x) (file x) (waiting x) (next_waiter x) (exited x).
Definition with_seqs l x := Cli (core x) (termBackend x) (wsUrl x) (activeProfile x) l (file x) (waiting x) (next_waiter x) (exited x).
Definition with_file f x := Cli (core x) (termBackend x) (wsUrl x) (activeProfile x) (lastSeqByPane x) f (waiting x) (next_waiter x) (exited x).
Definition with_exit x := Cli (core x) (termBackend x) (wsUrl x) (activeProfile x) (lastSeqByPane x) (file x) (waiting x) (next_waiter x) true.

Definition cli_state (x : cli) : CliState := st (core x).
Definition with_state (s : CliState) (x : cli) : cli := with_core (set_st s (core x)) x.

(** A command that waits. *)
Definition wait (w : waiter) (x : cli) : cli :=
  Cli (core x) (termBackend x) (wsUrl x) (activeProfile x) (lastSeqByPane x) (file x)
    (waiting x ++ [(next_waiter x, w)]) (S (next_waiter x)) (exited x).
Definition unwait (i : nat) (x : cli) : cli :=
  Cli (core x) (termBackend x) (wsUrl x) (activeProfile x) (lastSeqByPane x) (file x)
    (jm_delete i (waiting x)) (next_waiter x) (exited x).

Definition says (l : list string) : list effect := Say <$> l.

(** The name of the active profile, if it is not empty. *)
Definition active_name (x : cli) : option string :=
  selectedName (activeProfile x) ≫= fun n => if is_empty n then None else Some n.

(** ** Texts *)

Definition help_lines : list string :=
  ["commands:";
   "  /help                     this help";
   "  /list                     refresh sessions";
   "  /attach <pane-id>         attach to pane";
   "  /detach                   detach current pane";
   "  /enable                   enable input";
   "  /disable                  disable input";
   "  /reconnect                retry connection now";
   "  /status                   show runtime status";
   "  /profiles                 list profiles";
   "  /profile                  profile management (add/use/rm/token)";
   "  /health                   check server health snapshot";
   "  /backend                  show detected local backend";
   "  /open [cmd]               open local backend shell";
   "  /token                    authenticate with token";
   "  /quit, /exit              close client";
   "  type raw input             send to attached pane";
   "  env: CRC_TOKEN, COMMANDRELAY_TOKEN, CRC_TOKEN_FILE, COMMANDRELAY_TOKEN_FILE"]%string.

Definition profile_usage : list string :=
  ["usage:";
   "  /profiles                       list profiles";
   "  /profile add <name> <ws-url> [tmux|ghostty|console]";
   "  /profile use <name>";
   "  /profile rm <name>";
   "  /profile token [name]"]%string.

Definition next_reconnect (now : Z) (s : CliState) : string :=
  let until := reconnectCooldownUntil (reconnect s) in
  if authFailureBlocked s then "manual-auth"
  else if now <? until then ("after " +:+ int_to_string (ceil_seconds (Z.max (until - now) 0)) +:+ "s")%string
  else "immediate".

Definition writeStatus (now : Z) (x : cli) : list string :=
  let s := cli_state x in
  let profile_line := ("profile: " +:+ default "none" (selectedName (activeProfile x)))%string in
  let manual := ("manual auth required: " +:+ if authFailureBlocked s then "yes" else "no")%string in
  if negb (connected s) then
    ["status: disconnected"; profile_line; manual;
     "next reconnect: " +:+ next_reconnect now s; getReconnectMetricsLine now s]%string
  else
    let flag (f : CliHelloState -> bool) := if default false (f <$> hello s) then "on"%string else "off"%string in
    ["status: connected"; profile_line; "url: " +:+ wsUrl x; "backend: " +:+ termBackend x;
     "active pane: " +:+ default "(none)" (activePane s);
     "input enabled: " +:+ flag inputEnabled;
     "global input disabled: " +:+ flag globalInputDisabled; manual;
     "reconnect next: " +:+ next_reconnect now s; getReconnectMetricsLine now s]%string.

(** The duration of /health, for a whole number of milliseconds. *)
Definition formatDurationMs (value : Z) : string :=
  if value <? 0 then "0ms"%string
  else
    let totalSeconds := value / 1000 in
    let days := totalSeconds / 86400 in
    let hours := (totalSeconds mod 86400) / 3600 in
    let minutes := (totalSeconds mod 3600) / 60 in
    let seconds := totalSeconds mod 60 in
    let d := (int_to_string days +:+ "d")%string in
    let h := (int_to_string hours +:+ "h")%string in
    let m := (int_to_string minutes +:+ "m")%string in
    let s := (int_to_string seconds +:+ "s")%string in
    if 0 <? days then (d +:+ h +:+ m +:+ s)%string
    else if 0 <? hours then (h +:+ m +:+ s)%string
    else if 0 <? minutes then (m +:+ s)%string
    else s.

Definition resolveHeartbeatMs (payload : list (string * jsval)) : option num :=
  match field "heartbeat" payload with
  | JNum n => Some n
  | JObj nested => match field "checkedAtMs" nested with JNum n => Some n | _ => None end
  | _ => None
  end.

Section Commands.
Context (URL_parse : string -> option url).
Context (JSON_parse : string -> option jsval) (JSON_stringify : jsval -> string).
(** [new Date(n).toISOString()]; [None] where it throws. *)
Context (toISOString : num -> option string).
Context (win32 : bool) (env : string -> option string) (spawn_throws : string -> list string -> bool) (cwd : string).

Abbreviation load now x := (loadProfiles URL_parse JSON_parse now (file x)).

(** ** /profiles *)

(** A time of last use that counts: 0 and NaN do not. *)
Definition used_at (p : ConnectionProfile) : option num :=
  lastUsedAt p ≫= fun n => match n with NaN => None | _ => if num_is_Z n 0 then None else Some n end.

Definition profile_line (active : option string) (n : string) (p : ConnectionProfile) : option string :=
  lastUsed ← match used_at p with None => Some "never"%string | Some t => toISOString t end;
  Some ((if bool_decide (active = Some n) then " * " else "   ") +:+ n +:+ "  " +:+ profile_url p +:+ "  " +:+
        match backend p with Some (String c r) => " backend=" +:+ String c r | _ => "" end +:+
        "  lastUsed=" +:+ lastUsed)%string.

(** The lines up to the first profile whose time cannot be printed, and whether all were. *)
Fixpoint profile_lines (active : option string) (ps : list (string * ConnectionProfile)) : list string * bool :=
  match ps with
  | [] => ([("active: " +:+ default "none" active)%string], true)
  | (n, p) :: rest =>
      match profile_line active n p with
      | None => ([], false)
      | Some line => let (out, ok) := profile_lines active rest in (line :: out, ok)
      end
  end.

(** A rejection of a command is handled by nobody. *)
Definition reject (message : string) (x : cli) : cli :=
  with_core (Tui (st (core x)) (alive (core x)) (tasks (core x)) (next_task (core x)) (uncaught (core x) ++ [message])) x.

Definition listProfilesCommand (now : Z) (x : cli) : list effect * cli :=
  let store := load now x in
  match js_sort (fun a b => str_order a.1 b.1) (profiles store) with
  | [] => (says ["no profiles saved"; "add profile: /profile add <name> <ws-url> [backend]"]%string, x)
  | ps =>
      let (out, ok) := profile_lines (selectedName (activeProfile x)) ps in
      (says ("saved profiles:"%string :: out), if ok then x else reject "Invalid time value" x)
  end.

(** ** Commands that ask the gateway *)

Definition ask (r : request) (w : waiter) (x : cli) : list effect * cli :=
  match client (cli_state x) with
  | Some n => ([Ask n r], wait w x)
  | None => ([Say "not connected"], x)
  end.

Definition refreshSessions (silent : bool) (x : cli) : list effect * cli :=
  match client (cli_state x) with
  | Some n => ([Ask n ReqList], wait (WList silent) x)
  | None => ([], x)
  end.

Definition attachPane (pane : string) (x : cli) : list effect * cli :=
  ask (ReqAttach pane (jm_get pane (lastSeqByPane x))) (WAttach pane) x.

Definition detachCurrentPane (x : cli) : list effect * cli :=
  match client (cli_state x), activePane (cli_state x) with
  | Some n, Some (String c r) => ([Ask n (ReqDetach (String c r))], wait WDetach x)
  | _, _ => ([Say "no attached pane"], x)
  end.

(** [runInputCommand]. *)
Definition runInputCommand (raw : string) (x : cli) : list effect * cli :=
  match client (cli_state x), activePane (cli_state x) with
  | Some n, Some (String c r) =>
      match hello (cli_state x) with
      | Some h =>
          if negb (inputEnabled h) || globalInputDisabled h then ([Say "input disabled; run /enable first"], x)
          else
            let payload := (raw +:+ String "010" "")%string in
            match maxInputBytes h with
            | Some limit =>
                if negb (num_gt_Z limit 0) && negb (bool_decide (limit = NaN)) then ([Say "input disabled by remote limit"], x)
                else if num_lt_Z limit (utf8_byte_length payload) then ([Say "input too large"], x)
                else ([Ask n (ReqInput (String c r) payload)], wait WInput x)
            | None => ([Ask n (ReqInput (String c r) payload)], wait WInput x)
            end
      | None => ([Say "input disabled; run /enable first"], x)
      end
  | _, _ => ([Say "attach a pane first: /attach <pane-id>"], x)
  end.

(** ** Connection commands *)

Definition requestReconnect (x : cli) : list effect * cli :=
  let (out, c) := reconnectNow (core x) in (says out, with_core c x).

Definition continue (k : continuation) (x : cli) : list effect * cli :=
  match k with
  | ThenExit => ([Exit], with_exit x)
  | ThenReconnect => requestReconnect (with_state (set_user_close false (cli_state x)) x)
  end.

(** [await requestDisconnect()], then [k]. *)
Definition disconnect_then (k : continuation) (x : cli) : list effect * cli :=
  let i := next_task (core x) in
  let x' := with_core (disconnectCleanly (core x)) x in
  match client (cli_state x) with
  | None => continue k x'
  | Some n => ([Ask n ReqDisconnect], wait (WDisconnect i k) x')
  end.

(** ** /profile *)

Definition profile_add (now : Z) (n u : string) (b : option string) (x : cli) : list effect * cli :=
  let backend := b ≫= fun b => if is_empty b then None else Some b in
  let x := with_file (upsertProfile URL_parse JSON_parse JSON_stringify now (Candidate n u backend None None) (file x)) x in
  let selected := resolveProfileSelection URL_parse JSON_parse now (Some n) (file x) in
  let x := with_profile selected x in
  let x := match selectedProfile selected with
           | Some p =>
               let x := with_url (profile_url p) x in
               match TuiProfiles.backend p with Some (String c r) => with_backend (String c r) x | _ => x end
           | None => x
           end in
  (says (("saved profile " +:+ n)%string ::
         (if negb (connected (cli_state x)) && bool_decide (client (cli_state x) = None)
          then ["active profile set to " +:+ n]%string else [])), x).

Definition profile_remove (now : Z) (n : string) (x : cli) : list effect * cli :=
  let x := with_file (removeProfile URL_parse JSON_parse JSON_stringify now n (file x)) x in
  let x := if bool_decide (selectedName (activeProfile x) = Some n)
           then with_profile (resolveProfileSelection URL_parse JSON_parse now None (file x)) x else x in
  (says ["removed profile " +:+ n]%string, x).

Definition profile_use (now : Z) (n : string) (x : cli) : list effect * cli :=
  let selected := resolveProfileSelection URL_parse JSON_parse now (Some n) (file x) in
  match selectedProfile selected with
  | None => (says ["profile not found: " +:+ n]%string, x)
  | Some p =>
      let x := with_url (profile_url p) x in
      let x := match TuiProfiles.backend p with Some (String c r) => with_backend (String c r) x | _ => x end in
      let x := with_state (set_token (TuiProfiles.authToken p) (cli_state x)) (with_profile selected x) in
      let x := with_file (setActiveProfile URL_parse JSON_parse JSON_stringify now (Some n) (file x)) x in
      let x := with_file (touchProfile URL_parse JSON_parse JSON_stringify now n (file x)) x in
      let (out, x) := match client (cli_state x) with
                      | Some _ => disconnect_then ThenReconnect x
                      | None => requestReconnect x
                      end in
      (Say ("switched profile " +:+ n) :: out, x)
  end.

Definition profile_token (now : Z) (requested : option string) (x : cli) : list effect * cli :=
  match nullish requested (selectedName (activeProfile x)) with
  | None | Some EmptyString => (says ["usage: /profile token [name]"]%string, x)
  | Some n =>
      match jm_get n (profiles (load now x)) with
      | None => (says ["profile not found: " +:+ n]%string, x)
      | Some _ => ([], wait (WProfileToken n) x)
      end
  end.

Definition add_usage : string := "usage: /profile add <name> <ws-url> [tmux|ghostty|console]".

Definition runProfile (now : Z) (raw : string) (x : cli) : list effect * cli :=
  match profile_action_of raw with
  | ProfileHelp => (says profile_usage, x)
  | ProfileAdd (Some n) (Some u) b =>
      if negb (isValidProfileName n) then (says ["invalid profile name"]%string, x)
      else if negb (isValidProfileUrl URL_parse u) then (says ["profile URL must be ws:// or wss://"]%string, x)
      else if negb (is_empty (default EmptyString b)) && negb (isBackend (default EmptyString b)) then (says ["invalid backend"]%string, x)
      else profile_add now n u b x
  | ProfileAdd _ _ _ => (says [add_usage], x)
  | ProfileRemove (Some n) => profile_remove now n x
  | ProfileRemove None => (says ["usage: /profile rm <name>"]%string, x)
  | ProfileUse (Some n) => profile_use now n x
  | ProfileUse None => (says ["usage: /profile use <name>"]%string, x)
  | ProfileToken n => profile_token now n x
  | ProfileUnknown => (says ["unknown /profile action; /profile help"]%string, x)
  end.

(** [runCommand]; the answer to /health is not modelled. *)
Definition runCommand (now : Z) (raw : string) (x : cli) : list effect * cli :=
  match action_of (defaultShell win32 env) raw with
  | DoHelp => (says help_lines, x)
  | DoList => refreshSessions false x
  | AttachUsage => (says ["usage: /attach <pane-id>"]%string, x)
  | DoAttach pane => attachPane pane x
  | DoDetach => detachCurrentPane x
  | DoProfiles => listProfilesCommand now x
  | DoProfile => runProfile now raw x
  | DoEnable => ask (ReqPolicy true) (WPolicy true) x
  | DoDisable => ask (ReqPolicy false) (WPolicy false) x
  | DoToken => ([], wait WToken x)
  | TokenUsage => (says ["usage: /token"]%string, x)
  | DoReconnect => requestReconnect x
  | DoHealth => ([], x)
  | DoBackend => (says ["local backend preference: " +:+ termBackend x]%string, x)
  | DoOpen command => ([Open (launchLocalTerminal win32 env spawn_throws cwd (termBackend x) command)], x)
  | DoStatus => (says (writeStatus now x), x)
  | DoQuit => disconnect_then ThenExit x
  | DoUnknown => (says ["unknown command; /help for options"]%string, x)
  end.

(** The "line" listener. *)
Definition onLine (now : Z) (rawLine : string) (x : cli) : list effect * cli :=
  let trimmed := trim rawLine in
  if is_empty trimmed then ([], x)
  else if starts_with "/" trimmed then runCommand now trimmed x
  else runInputCommand trimmed x.

(** ** Answers *)

(** What a request or a prompt is answered with: the flags are those of a policy reply. *)
Inductive reply : Type :=
| Done (enabled disabled : bool)
| Failed (message : string)
| Typed (token : option string).

Definition on_hello (f : CliHelloState -> CliHelloState) (x : cli) : cli :=
  with_state (set_hello (f <$> hello (cli_state x)) (cli_state x)) x.

Definition with_policy (enabled disabled : bool) (h : CliHelloState) : CliHelloState :=
  HelloState (requiresAuth h) enabled disabled (maxInputBytes h).

Definition save_token (now : Z) (token : string) (x : cli) : cli :=
  match active_name x with
  | Some n => with_file (setProfileToken URL_parse JSON_parse JSON_stringify now n (Some token) (file x)) x
  | None => x
  end.

(** [runAuth] with the token that was typed, on a connected client. *)
Definition auth_asks (token : option string) (x : cli) : list effect :=
  match token, client (cli_state x) with
  | Some (String c r), Some n => [Ask n (ReqAuthenticate (String c r))]
  | _, _ => []
  end.

Definition profile_token_typed (now : Z) (n token : string) (x : cli) : list effect * cli :=
  let x := with_file (setProfileToken URL_parse JSON_parse JSON_stringify now n (Some token) (file x)) x in
  let x := if bool_decide (selectedName (activeProfile x) = Some n)
           then with_state (set_token (Some token) (cli_state x)) x else x in
  (says ["token saved for profile " +:+ n]%string, x).

Definition settle (now : Z) (w : waiter) (r : reply) (x : cli) : list effect * cli :=
  match w, r with
  | WList silent, Failed m => (if silent then [] else says ["list failed: " +:+ m]%string, x)
  | WAttach pane, Done _ _ =>
      (says ["attached " +:+ pane]%string, with_state (set_pane (Some pane) (cli_state x)) x)
  | WAttach _, Failed m => (says ["attach failed: " +:+ m]%string, x)
  | WDetach, Done _ _ =>
      (says ["detached " +:+ default "null" (activePane (cli_state x))]%string,
       with_state (set_pane None (cli_state x)) x)
  | WDetach, Failed m => (says ["detach failed: " +:+ m]%string, x)
  | WPolicy on, Done enabled disabled =>
      (says [if on then "input enabled" else "input disabled"]%string, on_hello (with_policy enabled disabled) x)
  | WPolicy on, Failed m => (says [(if on then "enable failed: " else "disable failed: ") +:+ m]%string, x)
  | WInput, Failed m => (says ["send failed: " +:+ m]%string, x)
  | WToken, Typed token =>
      let (out, c) := runAuth token (core x) in (says out ++ auth_asks token x, with_core c x)
  | WProfileToken n, Typed (Some (String c r)) => profile_token_typed now n (String c r) x
  | WProfileToken _, Typed _ => (says ["token cancelled"]%string, x)
  | _, _ => ([], x)
  end.

(** ** Messages of the gateway *)

Definition onOutput (paneId chunk streamSeq : jsval) (x : cli) : list effect * cli :=
  let x := match paneId, streamSeq with
           | JStr p, JNum n =>
               match num_to_Z n with
               | Some z => if 0 <=? z then with_seqs (jm_set p n (lastSeqByPane x)) x else x
               | None => x
               end
           | _, _ => x
           end in
  match paneId with
  | JStr p => if bool_decide (Some p = activePane (cli_state x))
              then match chunk with JStr (String c r) => ([Write (String c r)], x) | _ => ([], x) end
              else ([], x)
  | _ => ([], x)
  end.

Definition onSessionList (sessions : list (string * list string)) (panes : nat) (x : cli) : list effect :=
  says ((("sessions=" +:+ int_to_string (Z.of_nat (length sessions)) +:+ " panes=" +:+ int_to_string (Z.of_nat panes))%string ::
         ((fun '(n, ids) => "  " +:+ n +:+ ": " +:+ (let l := join ", " ids in if is_empty l then "(empty)" else l))%string <$> sessions)) ++
        (if String.eqb (termBackend x) "console" then [] else ["backend hint: " +:+ termBackend x]%string)).

(** ** Events *)

Inductive cli_event : Type :=
| Line (raw : string)
| Reply (i : nat) (r : reply)
| Core (ev : event)
| Output (paneId chunk streamSeq : jsval)
| SessionList (sessions : list (string * list string)) (panes : nat)
| PolicyUpdate (enabled disabled : bool)
| HeartbeatTick.

(** What the bootstraps and /token write to the profile file once they succeed. *)
Definition core_files (now : Z) (ev : event) (x : cli) : cli :=
  match ev with
  | Refreshed i =>
      match jm_get i (tasks (core x)) with
      | Some (Task c _ Refreshing _) =>
          let x := match active_name x with
                   | Some n => with_file (touchProfile URL_parse JSON_parse JSON_stringify now n (file x)) x
                   | None => x
                   end in
          match c with FromToken token => save_token now token x | _ => x end
      | _ => x
      end
  | Authenticated i None =>
      match jm_get i (tasks (core x)) with
      | Some (Task _ _ (DirectAuth token) _) => save_token now token x
      | _ => x
      end
  | _ => x
  end.

(** The client that a bootstrap makes, with the url it is given. *)
Definition dialled (ev : event) (x : cli) : list effect :=
  match ev with
  | Loaded i =>
      match jm_get i (tasks (core x)) with
      | Some (Task _ _ Loading _) => [Dial (length (alive (core x))) (wsUrl x)]
      | _ => []
      end
  | _ => []
  end.

(** [refreshSessions], which asks the current client. *)
Definition list_asks (x : cli) : list effect :=
  match client (cli_state x) with Some n => [Ask n ReqList] | None => [] end.

(** What [connectAndBootstrap] asks once its client is connected and once a token was
    typed: authentication of the client it made.  When it is ready it lists the sessions
    of the current client, which need not be that one. *)
Definition boot_asks (ev : event) (x : cli) : list effect :=
  match ev with
  | Connected i h =>
      match jm_get i (tasks (core x)) with
      | Some (Task _ (Some n) Connecting _) =>
          if match h with Some (_, h) => requiresAuth h | None => false end then
            match Tui.authToken (cli_state x) with
            | Some (String c r) => [Ask n (ReqAuthenticate (String c r))]
            | _ => []
            end
          else list_asks x
      | _ => []
      end
  | Prompted i (Some (String c r)) =>
      match jm_get i (tasks (core x)) with
      | Some (Task _ (Some n) Prompting _) => [Ask n (ReqAuthenticate (String c r))]
      | _ => []
      end
  | Authenticated i None =>
      match jm_get i (tasks (core x)) with
      | Some (Task _ _ (Authenticating _) _) => list_asks x
      | _ => []
      end
  | CommandToken token => auth_asks token x
  | CommandDisconnect => match client (cli_state x) with Some n => [Ask n ReqDisconnect] | None => [] end
  | _ => []
  end.

(** The callback of the heartbeat interval. *)
Definition heartbeat_asks (x : cli) : list effect :=
  if heartbeatTimer (cli_state x)
  then match client (cli_state x) with Some n => [Ask n ReqHeartbeat] | None => [] end
  else [].

Definition is_disconnect (i : nat) (w : nat * waiter) : option (nat * continuation) :=
  match w.2 with WDisconnect j k => if decide (i = j) then Some (w.1, k) else None | _ => None end.

(** A command goes on once its disconnection is over, unless that threw. *)
Definition after_disconnect (ev : event) (rejected : bool) (x : cli) : list effect * cli :=
  match ev with
  | Disconnected i _ =>
      match head (omap (is_disconnect i) (waiting x)) with
      | Some (w, k) => if rejected then ([], unwait w x) else continue k (unwait w x)
      | None => ([], x)
      end
  | _ => ([], x)
  end.

Definition core_step (now jitter : Z) (ev : event) (x : cli) : list effect * cli :=
  let d := dialled ev x in
  let asks := boot_asks ev x in
  let (out, c) := step now jitter ev (core x) in
  let rejected := negb (Nat.eqb (length (uncaught c)) (length (uncaught (core x)))) in
  let ran := negb (Nat.eqb (length (tasks c)) (length (tasks (core x)))) in
  let x := with_core c (core_files now ev x) in
  let (out', x) := if ran then after_disconnect ev rejected x else ([], x) in
  (d ++ says out ++ asks ++ out', x).

Definition cli_step (now jitter : Z) (ev : cli_event) (x : cli) : list effect * cli :=
  if exited x then ([], x)
  else
    match ev with
    | Line raw => onLine now raw x
    | Reply i r =>
        match jm_get i (waiting x) with
        | Some (WDisconnect _ _) | None => ([], x)
        | Some w => settle now w r (unwait i x)
        end
    | Core ev => core_step now jitter ev x
    | Output p c q => onOutput p c q x
    | SessionList sessions panes => (onSessionList sessions panes x, x)
    | PolicyUpdate enabled disabled => ([], on_hello (with_policy enabled disabled) x)
    | HeartbeatTick => (heartbeat_asks x, x)
    end.

Fixpoint cli_run (evs : list (Z * Z * cli_event)) (x : cli) : list effect * cli :=
  match evs with
  | [] => ([], x)
  | (now, jitter, ev) :: evs =>
      let (out, x) := cli_step now jitter ev x in
      let (out', x) := cli_run evs x in
      (out ++ out', x)
  end.
End Commands.

(** ** Who is asked, and for what *)

Section Requests.
Context (URL_parse : string -> option url).
Context (JSON_parse : string -> option jsval) (JSON_stringify : jsval -> string).
Context (toISOString : num -> option string).
Context (win32 : bool) (env : string -> option string) (spawn_throws : string -> list string -> bool) (cwd : string).

Abbreviation do_step := (cli_step URL_parse JSON_parse JSON_stringify toISOString win32 env spawn_throws cwd).

(** Effects that ask for nothing. *)
Definition quiet (l : list effect) : Prop := Forall (fun e => match e with Ask _ _ => False | _ => True end) l.

Lemma quiet_says l : quiet (says l).
Proof. unfold quiet, says. induction l; by constructor. Qed.

Lemma quiet_app a b : quiet a -> quiet b -> quiet (a ++ b).
Proof. intros Ha Hb. by apply Forall_app. Qed.

Lemma quiet_no_ask l n r : quiet l -> Ask n r ∉ l.
Proof. intros Hl Hin. exact (proj1 (Forall_forall _ _) Hl _ Hin). Qed.

Lemma quiet_reconnect x : quiet (requestReconnect x).1.
Proof. unfold requestReconnect. destruct (reconnectNow (core x)). apply quiet_says. Qed.

Lemma quiet_continue k x : quiet (continue k x).1.
Proof. destruct k; [by repeat constructor|apply quiet_reconnect]. Qed.

(** Effects that ask the current client only, and not with a text, a token or a heartbeat. *)
Definition routine (r : request) : Prop :=
  match r with ReqInput _ _ | ReqAuthenticate _ | ReqHeartbeat => False | _ => True end.

Definition routine_asks (x : cli) (l : list effect) : Prop :=
  Forall (fun e => match e with Ask n r => client (cli_state x) = Some n /\ routine r | _ => True end) l.

Lemma quiet_routine x l : quiet l -> routine_asks x l.
Proof. intros Hl. eapply Forall_impl; [exact Hl|]. by intros []. Qed.

Lemma routine_ask x l n r : routine_asks x l -> Ask n r ∈ l -> client (cli_state x) = Some n /\ routine r.
Proof. intros Hl Hin. exact (proj1 (Forall_forall _ _) Hl _ Hin). Qed.

Lemma routine_one x n r : client (cli_state x) = Some n -> routine r -> routine_asks x [Ask n r].
Proof. by repeat constructor. Qed.

Lemma routine_disconnect_then k x : routine_asks x (disconnect_then k x).1.
Proof.
  unfold disconnect_then. destruct (client (cli_state x)) eqn:Hc; [by apply routine_one|].
  apply quiet_routine, quiet_continue.
Qed.

Lemma routine_profile_use now n x : routine_asks x (profile_use URL_parse JSON_parse JSON_stringify now n x).1.
Proof.
  unfold profile_use. destruct (selectedProfile _) as [p|]; [|apply quiet_routine, quiet_says].
  set (y := with_file _ (with_file _ _)).
  assert (Hy : client (cli_state y) = client (cli_state x)) by (unfold y; by repeat case_match).
  destruct (client (cli_state y)) eqn:Hc.
  - pose proof (routine_disconnect_then ThenReconnect y) as H. destruct (disconnect_then _ y). constructor; [done|].
    unfold routine_asks in *. by rewrite Hc, Hy in H.
  - pose proof (quiet_reconnect y) as H. destruct (requestReconnect y). apply quiet_routine. by constructor.
Qed.

Lemma routine_profile now raw x : routine_asks x (runProfile URL_parse JSON_parse JSON_stringify now raw x).1.
Proof.
  unfold runProfile, profile_add, profile_remove, profile_token.
  destruct (profile_action_of raw) as [|[n|] [u|] b|[n|]|[n|]|n|]; try apply quiet_routine, quiet_says;
    try apply routine_profile_use; apply quiet_routine.
  - repeat case_match; apply quiet_says.
  - repeat case_match; first [apply quiet_says | constructor].
Qed.

Lemma quiet_list now x : quiet (listProfilesCommand URL_parse JSON_parse toISOString now x).1.
Proof. unfold listProfilesCommand. repeat case_match; apply quiet_says. Qed.

Lemma quiet_settle now w r x : w <> WToken ->
  quiet (settle URL_parse JSON_parse JSON_stringify now w r x).1.
Proof.
  intros Hw. unfold settle, profile_token_typed. repeat case_match; first [done | apply quiet_says | constructor].
Qed.

Lemma quiet_after ev rejected x : quiet (after_disconnect ev rejected x).1.
Proof.
  destruct ev; try constructor. cbn [after_disconnect].
  destruct (head (omap (is_disconnect i) (waiting x))) as [[w k]|]; [|constructor].
  destruct rejected; [constructor|apply quiet_continue].
Qed.

Lemma quiet_dialled ev x : quiet (dialled ev x).
Proof. unfold dialled. repeat case_match; by repeat constructor. Qed.

Lemma core_asks now jitter ev x n r :
  Ask n r ∈ (core_step URL_parse JSON_parse JSON_stringify now jitter ev x).1 -> Ask n r ∈ boot_asks ev x.
Proof.
  unfold core_step. destruct (step now jitter ev (core x)) as [out c]. set (y := with_core c _).
  set (rejected := negb (Nat.eqb (length (uncaught c)) _)).
  assert (He : forall b : bool, quiet (if b then after_disconnect ev rejected y else ([], y)).1)
    by (intros [|]; [apply quiet_after|constructor]).
  specialize (He (negb (Nat.eqb (length (tasks c)) (length (tasks (core x)))))).
  destruct (if negb _ then _ else _) as [out' z]. cbn [fst] in *. rewrite !elem_of_app.
  intros [H|[H|[H|H]]]; [|..|done|]; exfalso; revert H; apply quiet_no_ask; [apply quiet_dialled|apply quiet_says|exact He].
Qed.

(** The requests of the commands are routine. *)
Lemma command_asks now raw x :
  routine_asks x (runCommand URL_parse JSON_parse JSON_stringify toISOString win32 env spawn_throws cwd now raw x).1.
Proof.
  unfold runCommand, refreshSessions, attachPane, ask, detachCurrentPane.
  destruct (action_of _ raw); try apply routine_profile; try apply routine_disconnect_then;
    try (apply quiet_routine; first [apply quiet_says | apply quiet_list | apply quiet_reconnect | by repeat constructor]);
    destruct (client (cli_state x)) as [m|] eqn:Hc; try (by apply routine_one); try (by repeat constructor).
  destruct (activePane (cli_state x)) as [[|c s]|]; [by repeat constructor|by apply routine_one|by repeat constructor].
Qed.

(** What a text line may send. *)
Definition input_allowed (x : cli) (n : nat) (pane data : string) : Prop :=
  client (cli_state x) = Some n /\ activePane (cli_state x) = Some pane /\ pane <> EmptyString /\
  exists h, hello (cli_state x) = Some h /\ inputEnabled h = true /\ globalInputDisabled h = false /\
    forall limit, maxInputBytes h = Some (num_of_Z limit) -> 0 < limit /\ utf8_byte_length data <= limit.

Lemma input_asks raw x n r : Ask n r ∈ (runInputCommand raw x).1 ->
  exists pane, r = ReqInput pane (raw +:+ String "010" "") /\ input_allowed x n pane (raw +:+ String "010" "").
Proof.
  unfold runInputCommand. destruct (client (cli_state x)) as [m|] eqn:Hc; [|by intros H%list_elem_of_singleton].
  destruct (activePane (cli_state x)) as [[|c s]|] eqn:Hp; try (by intros H%list_elem_of_singleton).
  destruct (hello (cli_state x)) as [h|] eqn:Hh; [|by intros H%list_elem_of_singleton].
  destruct (inputEnabled h) eqn:Hi; [|by intros H%list_elem_of_singleton].
  destruct (globalInputDisabled h) eqn:Hg; [by intros H%list_elem_of_singleton|]. cbn [negb orb].
  cbv zeta. set (data := (raw +:+ _)%string). intros H.
  assert (Hask : Ask n r = Ask m (ReqInput (String c s) data) /\
    forall limit, maxInputBytes h = Some (num_of_Z limit) -> 0 < limit /\ utf8_byte_length data <= limit).
  { destruct (maxInputBytes h) as [l|]; [|apply list_elem_of_singleton in H; by split].
    destruct (negb (num_gt_Z l 0) && negb (bool_decide (l = NaN))) eqn:Hl0; [by apply list_elem_of_singleton in H|].
    destruct (num_lt_Z l (utf8_byte_length data)) eqn:Hl; [by apply list_elem_of_singleton in H|].
    apply list_elem_of_singleton in H. split; [exact H|]. intros limit [= ->].
    rewrite num_lt_Z_int in Hl. apply Z.ltb_ge in Hl. split; [|exact Hl].
    rewrite num_gt_Z_int in Hl0. apply andb_false_iff in Hl0 as [Hl0|Hl0].
    - apply negb_false_iff, Z.ltb_lt in Hl0. lia.
    - apply negb_false_iff, bool_decide_eq_true in Hl0. done. }
  destruct Hask as [[= -> ->] Hlim]. exists (String c s). split; [done|].
  split; [done|]. split; [done|]. split; [done|]. exists h. by repeat split; [..|apply Hlim|apply Hlim].
Qed.

(** When a token may be sent to a client: it is not empty; and either a bootstrap
    authenticates the client it made, with the stored token once that is connected or
    with the token typed at its prompt, or the user answered /token, and the client is
    the current one. *)
Definition token_allowed (ev : cli_event) (x : cli) (n : nat) (token : string) : Prop :=
  token <> EmptyString /\
  ((exists i t, jm_get i (tasks (core x)) = Some t /\ boot_client t = Some n /\
      ((exists h, ev = Core (Connected i (Some h)) /\ requiresAuth h.2 = true /\ boot_phase t = Connecting /\
          Tui.authToken (cli_state x) = Some token) \/
       (ev = Core (Prompted i (Some token)) /\ boot_phase t = Prompting))) \/
   (client (cli_state x) = Some n /\
      ((exists i, ev = Reply i (Typed (Some token)) /\ jm_get i (waiting x) = Some WToken) \/
       ev = Core (CommandToken (Some token))))).

(** Who may be asked for what. *)
Definition entitled (ev : cli_event) (x : cli) (n : nat) (r : request) : Prop :=
  match r with
  | ReqInput pane data =>
      exists raw, ev = Line raw /\ data = (trim raw +:+ String "010" "")%string /\ input_allowed x n pane data
  | ReqAuthenticate token => token_allowed ev x n token
  | ReqHeartbeat => ev = HeartbeatTick /\ heartbeatTimer (cli_state x) = true /\ client (cli_state x) = Some n
  | _ => client (cli_state x) = Some n
  end.

Lemma routine_entitled ev x n r : client (cli_state x) = Some n -> routine r -> entitled ev x n r.
Proof. by destruct r. Qed.

Lemma auth_asks_inv token x n r : Ask n r ∈ auth_asks token x ->
  exists t, r = ReqAuthenticate t /\ token = Some t /\ t <> EmptyString /\ client (cli_state x) = Some n.
Proof.
  unfold auth_asks. destruct token as [[|c s]|]; [by intros H%elem_of_nil| |by intros H%elem_of_nil].
  destruct (client (cli_state x)) as [m|]; [|by intros H%elem_of_nil].
  intros H%list_elem_of_singleton. injection H as -> ->. by eexists.
Qed.

Lemma list_asks_inv x n r : Ask n r ∈ list_asks x -> r = ReqList /\ client (cli_state x) = Some n.
Proof.
  unfold list_asks. destruct (client (cli_state x)) as [m|]; [|by intros H%elem_of_nil].
  intros H%list_elem_of_singleton. by injection H as -> ->.
Qed.

Lemma boot_entitled ev x n r : Ask n r ∈ boot_asks ev x -> entitled (Core ev) x n r.
Proof.
  destruct ev as [| i h | |i answer|i res| | | | | |token| |]; cbn [boot_asks]; try (by intros H%elem_of_nil).
  - destruct (jm_get i (tasks (core x))) as [[c [m|] [] bh]|] eqn:Ht; try (by intros H%elem_of_nil).
    destruct h as [[id h]|]; [destruct (requiresAuth h) eqn:Hauth|]; try (by intros [-> ?]%list_asks_inv).
    destruct (Tui.authToken (cli_state x)) as [[|ch tok]|] eqn:Htok; try (by intros H%elem_of_nil).
    intros H%list_elem_of_singleton. injection H as -> ->. split; [done|]. left.
    eexists i, _. split; [exact Ht|]. split; [done|]. left. by exists (id, h).
  - destruct answer as [[|ch tok]|]; try (by intros H%elem_of_nil).
    destruct (jm_get i (tasks (core x))) as [[c [m|] [] bh]|] eqn:Ht; try (by intros H%elem_of_nil).
    intros H%list_elem_of_singleton. injection H as -> ->. split; [done|]. left.
    eexists i, _. split; [exact Ht|]. split; [done|]. by right.
  - destruct res; [by intros H%elem_of_nil|].
    destruct (jm_get i (tasks (core x))) as [[c m [] bh]|]; try (by intros H%elem_of_nil).
    by intros [-> ?]%list_asks_inv.
  - intros (t & -> & -> & Hne & Hc)%auth_asks_inv. split; [done|]. right. split; [done|by right].
  - destruct (client (cli_state x)) as [m|] eqn:Hc; [|by intros H%elem_of_nil].
    intros H%list_elem_of_singleton. by injection H as -> ->.
Qed.

(** C31. Every request of the terminal client is entitled, those of its bootstraps, of the
    heartbeat timer and of disconnections included.  Keystrokes are sent only for a line
    of text typed by the user, to the attached pane of the current client, with the line
    as it was typed (without the blanks around it) and one newline, while the gateway
    has input enabled, not globally disabled, and within the limit it announced.  A token
    is sent only by a bootstrap to the client it made itself - which need not be the
    current one when several are in flight - as the stored token or the one typed at its
    prompt, or to the current client after /token.  Everything else is asked of the
    current client, heartbeats only while the heartbeat timer runs. *)
Theorem requests_entitled now jitter ev x n r : Ask n r ∈ (do_step now jitter ev x).1 -> entitled ev x n r.
Proof.
  unfold cli_step. destruct (exited x); [by intros H%elem_of_nil|].
  destruct ev as [raw|i w|ev|p c q|sessions panes|a b|].
  - unfold onLine. destruct (is_empty (trim raw)); [by intros H%elem_of_nil|].
    destruct (starts_with "/" (trim raw)).
    + intros [Hc Hr]%(routine_ask x); [by apply routine_entitled|apply command_asks].
    + intros (pane & -> & Ha)%input_asks. by exists raw.
  - destruct (jm_get i (waiting x)) as [wt|] eqn:Hw; [|by intros H%elem_of_nil].
    assert (wt = WToken \/ wt <> WToken) as [->|Hne] by (destruct wt; first [by left|by right]).
    + destruct w as [| |token]; cbn [settle]; try (by intros H%elem_of_nil).
      destruct (runAuth token _). cbn [fst]. rewrite elem_of_app. intros [H|H]; [by apply quiet_no_ask in H; [|apply quiet_says]|].
      apply auth_asks_inv in H as (tok & -> & -> & Ht & Hc). split; [done|]. right. split; [exact Hc|]. left. by exists i.
    + intros H. exfalso. revert H. destruct wt; cbn [fst];
        first [by intros H%elem_of_nil | by apply quiet_no_ask, quiet_settle].
  - intros H%core_asks. by apply boot_entitled.
  - intros H. exfalso. revert H. apply quiet_no_ask. unfold onOutput. repeat case_match; by repeat constructor.
  - intros H. exfalso. revert H. apply quiet_no_ask, quiet_says.
  - by intros H%elem_of_nil.
  - unfold heartbeat_asks. destruct (heartbeatTimer (cli_state x)) eqn:Hh; [|by intros H%elem_of_nil].
    destruct (client (cli_state x)) as [m|] eqn:Hc; intros H; [|by apply elem_of_nil in H].
    apply list_elem_of_singleton in H. by injection H as -> ->.
Qed.
End Requests.

(** ** Switching profiles *)

Section Switching.
Context (URL_parse : string -> option url).
Context (JSON_parse : string -> option jsval) (JSON_stringify : jsval -> string).
Context (toISOString : num -> option string).
Context (win32 : bool) (env : string -> option string) (spawn_throws : string -> list string -> bool) (cwd : string).

Abbreviation do_run := (cli_run URL_parse JSON_parse JSON_stringify toISOString win32 env spawn_throws cwd).

Definition no_space (s : string) : bool := str_forallb (fun c => negb (is_space c)) s.

Lemma str_map_no_space s : no_space s = true ->
  str_map (fun c => if is_space c then " "%char else c) s = s.
Proof.
  induction s as [|c s IH]; [done|]. unfold no_space. simpl. intros [Hc Hs]%andb_true_iff.
  apply negb_true_iff in Hc. rewrite Hc. by f_equal; apply IH.
Qed.

Lemma no_space_no_blank s : no_space s = true -> index_of " " s = None.
Proof.
  intros Hs. apply index_of_None_forallb. revert Hs. apply str_forallb_impl. intros c Hc.
  destruct (Ascii.eqb_spec " "%char c) as [<-|]; [by vm_compute in Hc|done].
Qed.

Lemma use_action n : no_space n = true -> n <> EmptyString ->
  profile_action_of ("/profile use " +:+ n) = ProfileUse (Some n).
Proof.
  intros Hs Hne. unfold profile_action_of, split_blanks.
  assert (Hsplit : split_on " " (str_map (fun c => if is_space c then " "%char else c) ("/profile use " +:+ n)) =
    ["/profile"; "use"; n]%string).
  { rewrite !str_app_cons, str_app_nil_l. cbn [str_map]. rewrite (str_map_no_space n Hs).
    change (split_on " " (("/profile" +:+ String " " ("use" +:+ String " " n))%string) = ["/profile"; "use"; n]%string).
    rewrite !split_on_sep by done. by rewrite split_on_none by exact (no_space_no_blank n Hs). }
  rewrite Hsplit. by destruct n.
Qed.

(** The tasks and the waiters of a client are numbered below the next numbers. *)
Record fresh (x : cli) : Prop := {
  fresh_tasks : forall i t, jm_get i (tasks (core x)) = Some t -> (i < next_task (core x))%nat;
  fresh_waiters : forall i w, jm_get i (waiting x) = Some w -> (i < next_waiter x)%nat;
  fresh_disconnects : forall i j k, (i, WDisconnect j k) ∈ waiting x -> (j < next_task (core x))%nat
}.

Lemma head_omap_app {A B} (f : A -> option B) l a b :
  (forall y, y ∈ l -> f y = None) -> f a = Some b -> head (omap f (l ++ [a])) = Some b.
Proof.
  intros Hl Ha. induction l as [|y l IH]; [by simpl; rewrite Ha|]. simpl.
  rewrite (Hl y) by (by left). apply IH. intros z Hz. apply Hl. by right.
Qed.

Lemma fresh_none (l : list (nat * task)) n : (forall i t, jm_get i l = Some t -> (i < n)%nat) -> jm_get n l = None.
Proof. intros H. destruct (jm_get n l) as [t|] eqn:Hg; [|done]. specialize (H n t Hg). lia. Qed.

Lemma cli_run_cons now jitter ev evs x :
  do_run ((now, jitter, ev) :: evs) x =
    let (out, y) := cli_step URL_parse JSON_parse JSON_stringify toISOString win32 env spawn_throws cwd now jitter ev x in
    let (out', z) := do_run evs y in (out ++ out', z).
Proof. done. Qed.

(** A disconnection that is followed by a connection. *)
Lemma reconnect_after_disconnect y c t2 j2 t3 j3 :
  fresh y -> exited y = false -> client (cli_state y) = Some c ->
  let i := next_task (core y) in
  let r := do_run [(t2, j2, Core (Disconnected i true)); (t3, j3, Core (Loaded (S i)))]
             (disconnect_then ThenReconnect y).2 in
  Dial (length (alive (core y))) (wsUrl y) ∈ r.1 /\ wsUrl r.2 = wsUrl y /\
  Tui.authToken (cli_state r.2) = Tui.authToken (cli_state y) /\
  client (cli_state r.2) = Some (length (alive (core y))) /\ userRequestedClose (cli_state r.2) = false.
Proof.
  intros [Ht Hw Hd] Hex Hc. cbv zeta.
  destruct y as [[s al tk nt un] tb wu ap ls f wt nw ex]. unfold cli_state in *. cbn in Ht, Hw, Hd, Hex, Hc. subst ex.
  destruct s as [c0 cn he pa hb rc uc bl tok]. cbn in Hc. subst c0.
  pose proof (fresh_none tk nt Ht) as Hnone.
  set (D := Task FromMain (Some c) Disconnecting None). set (L := Task FromReconnect None Loading None).
  set (s1 := State (Some c) false he pa false (set_timer None rc) true bl tok).
  set (s2 := State None false None None false (Reconnect None 0 0 0) false false tok).
  set (al' := <[c := false]> al).
  set (x1 := Cli (Tui s1 al (tk ++ [(nt, D)]) (S nt) un) tb wu ap ls f (wt ++ [(nw, WDisconnect nt ThenReconnect)]) (S nw) false).
  set (x2 := Cli (Tui s2 al' (tk ++ [(S nt, L)]) (S (S nt)) un) tb wu ap ls f wt (S nw) false).
  change (let r := do_run [(t2, j2, Core (Disconnected nt true)); (t3, j3, Core (Loaded (S nt)))] x1 in
    Dial (length al) wu ∈ r.1 /\ wsUrl r.2 = wu /\ Tui.authToken (cli_state r.2) = tok /\
    client (cli_state r.2) = Some (length al) /\ userRequestedClose (cli_state r.2) = false).
  assert (Htk : tk ++ [(nt, D)] = jm_set nt D tk) by (by rewrite jm_set_fresh).
  assert (Hwt : wt ++ [(nw, WDisconnect nt ThenReconnect)] = jm_set nw (WDisconnect nt ThenReconnect) wt).
  { rewrite jm_set_fresh; [done|]. destruct (jm_get nw wt) as [w|] eqn:Hg; [|done]. specialize (Hw nw w Hg). lia. }
  assert (Hunwait : forall k, unwait nw (with_core k x1) = Cli k tb wu ap ls f wt (S nw) false).
  { intros k. unfold unwait. change (waiting (with_core k x1)) with (wt ++ [(nw, WDisconnect nt ThenReconnect)]).
    rewrite Hwt, jm_delete_set_fresh; [done|]. destruct (jm_get nw wt) as [w|] eqn:Hg; [|done]. specialize (Hw nw w Hg). lia. }
  assert (Hc1 : step t2 j2 (Disconnected nt true) (core x1) =
    ([], Tui (set_pane None (set_hello None (set_client None s1))) al' tk (S nt) un)).
  { unfold step, with_task. cbn [core x1 tasks]. rewrite Htk, jm_get_set_eq. cbn [boot_phase D].
    unfold disconnected, end_task, kill, set_st. cbn [boot_client D tasks st alive next_task uncaught].
    by rewrite jm_delete_set_fresh. }
  assert (H1 : cli_step URL_parse JSON_parse JSON_stringify toISOString win32 env spawn_throws cwd t2 j2
    (Core (Disconnected nt true)) x1 = (says ["manual reconnect requested"%string], x2)).
  { unfold cli_step, core_step. rewrite Hc1. cbn [exited x1 core tasks uncaught dialled core_files].
    rewrite length_app, (proj2 (Nat.eqb_neq _ _)) by (simpl; lia). rewrite Nat.eqb_refl. cbn [negb after_disconnect].
    change (waiting (with_core _ x1)) with (wt ++ [(nw, WDisconnect nt ThenReconnect)]).
    rewrite (head_omap_app _ _ _ (nw, ThenReconnect)); [|..].
    - by rewrite Hunwait.
    - intros [i w] Hin. unfold is_disconnect. cbn [fst snd]. destruct w; try done.
      rewrite decide_False; [done|]. specialize (Hd _ _ _ Hin). lia.
    - unfold is_disconnect. cbn [fst snd]. by rewrite decide_True. }
  assert (Htk2 : tk ++ [(S nt, L)] = jm_set (S nt) L tk).
  { rewrite jm_set_fresh; [done|]. destruct (jm_get (S nt) tk) as [t|] eqn:Hg; [|done]. specialize (Ht _ _ Hg). lia. }
  assert (H2 : cli_step URL_parse JSON_parse JSON_stringify toISOString win32 env spawn_throws cwd t3 j3
    (Core (Loaded (S nt))) x2 = ([Dial (length al') wu], with_core (bootLoaded (S nt) L (core x2)) x2)).
  { unfold cli_step, core_step, step, with_task, dialled. cbn [exited x2 core tasks]. rewrite Htk2, jm_get_set_eq.
    cbn [boot_phase L core_files after_disconnect]. by match goal with |- context [if ?b then _ else _] => destruct b end. }
  cbv zeta. cbn [cli_run]. rewrite H1, H2. cbn. unfold al'. rewrite length_insert. split; [|done]. set_solver.
Qed.

(** "/profile use" on a live connection: once the gateway has let the old client go, the
    next client dials the url of the profile that was named and carries its token, and
    nothing prevents it from reconnecting. *)
Theorem profile_use_dials x c n p raw t1 j1 t2 j2 t3 j3 :
  fresh x -> exited x = false -> client (cli_state x) = Some c ->
  trim raw = ("/profile use " +:+ n)%string -> no_space n = true -> n <> EmptyString ->
  selectedProfile (resolveProfileSelection URL_parse JSON_parse t1 (Some n) (file x)) = Some p ->
  let i := next_task (core x) in
  let r := do_run [(t1, j1, Line raw); (t2, j2, Core (Disconnected i true)); (t3, j3, Core (Loaded (S i)))] x in
  Dial (length (alive (core x))) (profile_url p) ∈ r.1 /\ wsUrl r.2 = profile_url p /\
  Tui.authToken (cli_state r.2) = TuiProfiles.authToken p /\
  client (cli_state r.2) = Some (length (alive (core x))) /\ userRequestedClose (cli_state r.2) = false.
Proof.
  intros Hx Hex Hc Hraw Hs Hne Hsel. cbv zeta.
  set (selected := resolveProfileSelection URL_parse JSON_parse t1 (Some n) (file x)) in *.
  set (x0 := match backend p with Some (String c0 r) => with_backend (String c0 r) (with_url (profile_url p) x) | _ => with_url (profile_url p) x end).
  set (y1 := with_state (set_token (TuiProfiles.authToken p) (cli_state x0)) (with_profile selected x0)).
  set (y2 := with_file (setActiveProfile URL_parse JSON_parse JSON_stringify t1 (Some n) (file y1)) y1).
  set (y := with_file (touchProfile URL_parse JSON_parse JSON_stringify t1 n (file y2)) y2).
  assert (Hline : cli_step URL_parse JSON_parse JSON_stringify toISOString win32 env spawn_throws cwd t1 j1 (Line raw) x =
    ([Say ("switched profile " +:+ n); Ask c ReqDisconnect], (disconnect_then ThenReconnect y).2)).
  { unfold cli_step, onLine. rewrite Hex, Hraw. simpl (is_empty _). simpl (starts_with _ _). cbv iota.
    unfold runCommand. replace (action_of _ _) with DoProfile by done. unfold runProfile. rewrite use_action by done.
    unfold profile_use. fold selected. rewrite Hsel. fold x0. fold y1. fold y2. fold y.
    assert (Hy : client (cli_state y) = Some c) by (unfold y, y2, y1, x0; by repeat case_match).
    rewrite Hy. unfold disconnect_then. by rewrite Hy. }
  assert (Hy : core y = set_st (set_token (TuiProfiles.authToken p) (st (core x))) (core x) /\ waiting y = waiting x /\
    next_waiter y = next_waiter x /\ exited y = exited x /\ wsUrl y = profile_url p)
    by (unfold y, y2, y1, x0; by repeat case_match).
  destruct Hy as (Hcore & Hwait & Hnext & Hexit & Hurl).
  assert (Hfresh : fresh y) by (destruct Hx as [? ? ?]; split; rewrite ?Hcore, ?Hwait, ?Hnext; done).
  assert (Hyc : client (cli_state y) = Some c) by (unfold cli_state; by rewrite Hcore).
  pose proof (reconnect_after_disconnect y c t2 j2 t3 j3 Hfresh (eq_trans Hexit Hex) Hyc) as H. cbv zeta in H.
  rewrite cli_run_cons, Hline. revert H. unfold cli_state at 2. rewrite Hcore, Hurl. cbn [next_task alive set_st st set_token Tui.authToken].
  destruct (cli_run _ _ _ _ _ _ _ _ _ _) as [out z]. cbn [fst snd]. intros (? & ? & ? & ? & ?).
  split; [|done]. apply elem_of_app. by right.
Qed.
End Switching.

(** ** Concrete inputs *)

Definition demo_cli : cli :=
  Cli (Tui (State (Some 0%nat) true (Some (HelloState false true false (Some (num_of_Z 8)))) (Some "%1"%string) true
              (Reconnect None 0 0 0) false false None) [true] [] 0 [])
    "tmux" "ws://old" (Active None None false) [] (Some "the store"%string) [] 0 false.

Lemma demo_fresh : fresh demo_cli.
Proof. split; simpl; [done|done|]. by intros i j k ?%elem_of_nil. Qed.

Abbreviation demo_step := (cli_step demo_ws demo_json_parse demo_json_stringify (fun _ => None) false (fun _ => None)
  (fun _ _ => false) "/").

Lemma requests_entitled_witness :
  Ask 0 (ReqInput "%1" (String "l" (String "s" (String "010" "")))) ∈ (demo_step 0 0 (Line " ls ") demo_cli).1 /\
  client (cli_state demo_cli) = Some 0%nat.
Proof.
  assert (H : Ask 0 (ReqInput "%1" (String "l" (String "s" (String "010" "")))) ∈ (demo_step 0 0 (Line " ls ") demo_cli).1)
    by (vm_compute; by left).
  split; [exact H|].
  destruct (requests_entitled demo_ws demo_json_parse demo_json_stringify (fun _ => None) false (fun _ => None)
    (fun _ _ => false) "/" 0 0 (Line " ls ") demo_cli 0 _ H) as (raw & _ & _ & Hc & _).
  exact Hc.
Defined.

Lemma profile_use_dials_witness :
  wsUrl (cli_run demo_ws demo_json_parse demo_json_stringify (fun _ => None) false (fun _ => None) (fun _ _ => false) "/"
    [(1, 0, Line "/profile use office"); (2, 0, Core (Disconnected 0 true)); (3, 0, Core (Loaded 1))] demo_cli).2 = "ws://relay"%string.
Proof.
  refine (proj1 (proj2 (profile_use_dials demo_ws demo_json_parse demo_json_stringify (fun _ => None) false (fun _ => None)
    (fun _ _ => false) "/" demo_cli 0 "office" office "/profile use office" 1 0 2 0 3 0 demo_fresh eq_refl eq_refl _ eq_refl _ _))).
  - by vm_compute.
  - done.
  - by vm_compute.
Defined.

Example input_refusals :
  (demo_step 0 0 (Line "longer than that") demo_cli).1 = [Say "input too large"] /\
  (demo_step 0 0 (Line "/detach") demo_cli).1 = [Ask 0 (ReqDetach "%1")] /\
  (demo_step 0 0 (Line "/bye") demo_cli).1 = [Say "unknown command; /help for options"].
Proof. by vm_compute. Qed.

Example durations :
  formatDurationMs 90061000 = "1d1h1m1s"%string /\ formatDurationMs 3600000 = "1h0m0s"%string /\
  formatDurationMs 999 = "0s"%string.
Proof. by vm_compute. Qed.
