(* ===== verification/Orchestration.v ===== *)
(** * Task capsules, worker briefs and dispatch messages
    ([src/orchestration/task-capsule.ts], [agent-brief.ts], [agent-dispatch.ts])

    Pure text processing: selectors, path normalisation, scope checks, the rendered brief
    and the parser of its task.  Errors are their messages. *)

From S2P Require Import Prelude JsMap.
Local Open Scope Z_scope.

(** ** Shared texts *)

(** [normalizeRequiredText], with the text that follows the field's name. *)
Definition required_text (what raw : string) : result string string :=
  if is_empty (trim raw) then Throw (what +:+ " is required.") else Ok (trim raw).

(** A [Set] filled with the trimmed, non-empty values: [normalizeStringList]. *)
Definition trimmed_set (values : list string) : list string :=
  foldl (fun acc v => if is_empty (trim v) then acc else js_add (trim v) acc) [] values.

(** [compareText]. *)
Definition compareText (a b : string) : Z := str_order a b.

Definition renderBulletSection (values : list string) : list string :=
  match values with
  | [] => ["- none"%string]
  | _ => (fun v => "- " +:+ v)%string <$> values
  end.

Definition newline : ascii := "010".
Definition join_lines (lines : list string) : string := join (String newline "") lines.

(** ** Capsules ([task-capsule.ts]) *)

Module Capsule.

Definition TASK_CAPSULE_SCHEMA_VERSION : string := "task-capsule.v1".
Definition DEFAULT_SELECTOR_LINE_MIN : Z := 1.
Definition DEFAULT_SELECTOR_LINE_MAX : Z := 200000.

Record FileSnippetSelector : Type := Selector {
  sel_path : string;
  startLine : option Z;
  endLine : option Z
}.

Record TaskCapsuleSnippet : Type := Snippet {
  snip_path : string;
  snip_start : option Z;
  snip_end : option Z;
  content : string
}.

Record TaskCapsuleInput : Type := Input {
  in_goal : string;
  in_owner : string;
  in_paths : list string;
  in_criteria : list string;
  in_risks : list string;
  in_snippets : list (string * string)
}.

Record TaskCapsuleConstraints : Type := Constraints {
  maxSnippets : Z;
  maxSnippetChars : Z;
  selectorLineMin : Z;
  selectorLineMax : Z
}.

Record TaskCapsule : Type := Capsule {
  goal : string;
  owner : string;
  paths : list string;
  acceptanceCriteria : list string;
  risks : list string;
  snippets : list TaskCapsuleSnippet
}.

Definition normalizeNonNegativeInteger (value : num) (fieldName : string) : result string Z :=
  match num_to_Z value with
  | Some z => if z <? 0 then Throw (fieldName +:+ " must be a non-negative integer.") else Ok z
  | None => Throw (fieldName +:+ " must be a non-negative integer.")
  end.

Definition normalizePositiveInteger (value : num) (fieldName : string) : result string Z :=
  match num_to_Z value with
  | Some z => if z <? 1 then Throw (fieldName +:+ " must be a positive integer.") else Ok z
  | None => Throw (fieldName +:+ " must be a positive integer.")
  end.

Definition clampLine (value : num) (min max : Z) : Z :=
  match num_to_Z value with
  | Some z => if z <? min then min else if max <? z then max else z
  | None => min
  end.

Definition parsePathAndRange (rawPath rawStart : string) (rawEnd : option string) (lineMin lineMax : Z) :
    result string FileSnippetSelector :=
  let path := trim rawPath in
  if is_empty path then Throw "Snippet selector path must be non-empty."%string
  else
    let start := clampLine (parse_int rawStart) lineMin lineMax in
    Ok (Selector path (Some start)
          ((fun e => Z.max start (clampLine (parse_int e) lineMin lineMax)) <$> rawEnd)).

(** [-?\d+]. *)
Definition is_integer_text (s : string) : bool :=
  let digits := match s with String "-" r => r | _ => s end%char in
  negb (is_empty digits) && str_forallb is_num digits.

(** A text without line breaks. *)
Definition one_line (s : string) : bool :=
  str_forallb (fun c => negb (Ascii.eqb c "010" || Ascii.eqb c "013")) s.

(** A text that ends in a colon and an integer, without a line break before: its two parts. *)
Definition split_number (s : string) : option (string * string) :=
  match last_index_of ":" s with
  | Some i =>
      let a := str_take i s in let b := str_drop (S i) s in
      if is_integer_text b then Some (a, b) else None
  | None => None
  end.

Definition parse_selector (rawSelector : string) (lineMin lineMax : Z) : result string FileSnippetSelector :=
  let selector := trim rawSelector in
  if is_empty selector then Throw "Snippet selector must be a non-empty string."%string
  else if lineMax <? lineMin then Throw "Invalid selector bounds: lineMin cannot exceed lineMax."%string
  else
    match split_number selector with
    | Some (before, last) =>
        if negb (one_line before) then Ok (Selector selector None None)
        else
          match split_number before with
          | Some (path, first) => parsePathAndRange path first (Some last) lineMin lineMax
          | None => parsePathAndRange before last None lineMin lineMax
          end
    | None => Ok (Selector selector None None)
    end.

Definition parseFileSnippetSelector (rawSelector : string) (lineMin lineMax : option num) :
    result string FileSnippetSelector :=
  if is_empty (trim rawSelector) then Throw "Snippet selector must be a non-empty string."%string
  else
    rbind (normalizePositiveInteger (default (num_of_Z DEFAULT_SELECTOR_LINE_MIN) lineMin) "lineMin") (fun lo =>
    rbind (normalizePositiveInteger (default (num_of_Z DEFAULT_SELECTOR_LINE_MAX) lineMax) "lineMax") (fun hi =>
    parse_selector rawSelector lo hi)).

(** [Partial<TaskCapsuleConstraints>]. *)
Record Overrides : Type := Override {
  o_maxSnippets : option num;
  o_maxSnippetChars : option num;
  o_selectorLineMin : option num;
  o_selectorLineMax : option num
}.

Definition resolveConstraints (o : Overrides) : result string TaskCapsuleConstraints :=
  rbind (normalizeNonNegativeInteger (default (num_of_Z 8) (o_maxSnippets o)) "maxSnippets") (fun a =>
  rbind (normalizeNonNegativeInteger (default (num_of_Z 1200) (o_maxSnippetChars o)) "maxSnippetChars") (fun b =>
  rbind (normalizePositiveInteger (default (num_of_Z DEFAULT_SELECTOR_LINE_MIN) (o_selectorLineMin o)) "selectorLineMin") (fun lo =>
  rbind (normalizePositiveInteger (default (num_of_Z DEFAULT_SELECTOR_LINE_MAX) (o_selectorLineMax o)) "selectorLineMax") (fun hi =>
  if hi <? lo then Throw "selectorLineMin cannot exceed selectorLineMax."%string
  else Ok (Constraints a b lo hi))))).

Definition truncateText (raw : string) (maxChars : Z) : string :=
  if maxChars <=? 0 then EmptyString
  else if str_len raw <=? maxChars then raw
  else str_take (Z.to_nat maxChars) raw.

Definition add_path (candidate : string) (set : list string) : list string :=
  if is_empty (trim candidate) then set else js_add (trim candidate) set.

(** The loop over the snippets, with the paths and the snippets so far. *)
Fixpoint collect_snippets (c : TaskCapsuleConstraints) (inputs : list (string * string))
    (paths : list string) (acc : list TaskCapsuleSnippet) :
    result string (list string * list TaskCapsuleSnippet) :=
  match inputs with
  | [] => Ok (paths, acc)
  | (rawSelector, text) :: inputs =>
      if maxSnippets c <=? Z.of_nat (length acc) then Ok (paths, acc)
      else
        rbind (parse_selector rawSelector (selectorLineMin c) (selectorLineMax c)) (fun s =>
        collect_snippets c inputs (add_path (sel_path s) paths)
          (acc ++ [Snippet (sel_path s) (startLine s) (endLine s) (truncateText text (maxSnippetChars c))]))
  end.

Definition buildTaskCapsule (input : TaskCapsuleInput) (o : Overrides) : result string TaskCapsule :=
  rbind (resolveConstraints o) (fun c =>
  rbind (required_text "Task capsule goal" (in_goal input)) (fun goal =>
  rbind (required_text "Task capsule owner" (in_owner input)) (fun owner =>
  rbind (collect_snippets c (in_snippets input) (trimmed_set (in_paths input)) []) (fun r =>
  Ok (Capsule goal owner r.1 (trimmed_set (in_criteria input)) (trimmed_set (in_risks input)) r.2))))).

End Capsule.

(** ** Paths of a scope *)

(** [replace(/\\+/g, "/")]: a run of backslashes becomes one slash. *)
Fixpoint slashes (in_run : bool) (s : string) : string :=
  match s with
  | EmptyString => EmptyString
  | String c r =>
      if Ascii.eqb c "\" then (if in_run then slashes true r else String "/" (slashes true r))
      else String c (slashes false r)
  end.

Definition drive_prefix (s : string) : option string :=
  match s with
  | String c (String d _) => if is_alpha c && Ascii.eqb d ":" then Some (String c (String d "")) else None
  | _ => None
  end.

Fixpoint path_segments (fieldName : string) (segments acc : list string) : result string (list string) :=
  match segments with
  | [] => Ok acc
  | seg :: rest =>
      if is_empty seg || String.eqb seg "." then path_segments fieldName rest acc
      else if String.eqb seg ".."
      then Throw (fieldName +:+ " cannot contain parent traversal segments (" +:+ in_quotes ".." +:+ ").")%string
      else path_segments fieldName rest (acc ++ [seg])
  end.

(** [normalizeScopedPath] and [normalizeOwnedPath], which are the same code. *)
Definition normalizeScopedPath (rawPath fieldName : string) : result string string :=
  let trimmed := trim rawPath in
  if is_empty trimmed then Throw (fieldName +:+ " must be a non-empty path.")%string
  else
    let slashNormalized := slashes false trimmed in
    let hasUnixRoot := starts_with "/" slashNormalized in
    let drive := drive_prefix slashNormalized in
    let remainder := match drive with Some _ => str_drop 2 slashNormalized | None => slashNormalized end in
    rbind (path_segments fieldName (split_on "/" remainder) []) (fun segments =>
    match segments with
    | [] => Throw (fieldName +:+ " must resolve to a non-empty path.")%string
    | _ =>
        let normalizedRemainder := join "/" segments in
        Ok match drive with
           | Some d => (d +:+ "/" +:+ normalizedRemainder)%string
           | None => if hasUnixRoot then ("/" +:+ normalizedRemainder)%string else normalizedRemainder
           end
    end).

(** A field name with its index. *)
Definition indexed (name : string) (i : nat) : string := (name +:+ "[" +:+ int_to_string (Z.of_nat i) +:+ "]")%string.

(** ** Briefs ([agent-brief.ts]) *)

Module Brief.
Import Capsule.

Record AgentBrief : Type := Brief {
  task : string;
  brief_owner : string;
  ownedFiles : list string;
  criteria : list string;
  brief_risks : list string;
  relevantSnippets : list TaskCapsuleSnippet
}.

Fixpoint normalizeCapsulePathSet (index : nat) (paths : list string) (acc : list string) : result string (list string) :=
  match paths with
  | [] => Ok acc
  | p :: rest =>
      if is_empty (trim p) then normalizeCapsulePathSet (S index) rest acc
      else rbind (normalizeScopedPath (trim p) (indexed "capsule.paths" index)) (fun n =>
           normalizeCapsulePathSet (S index) rest (js_add n acc))
  end.

Fixpoint owned_paths (index : nat) (allowed : list string) (owned : list string) (acc : list string) :
    result string (list string) :=
  match owned with
  | [] => Ok acc
  | p :: rest =>
      rbind (normalizeScopedPath p (indexed "ownedPaths" index)) (fun n =>
      if js_has n acc then Throw ("Duplicate owned path is not allowed: " +:+ in_quotes n +:+ ".")%string
      else if negb (js_has n allowed) then Throw ("Owned path is outside capsule scope: " +:+ in_quotes n +:+ ".")%string
      else owned_paths (S index) allowed rest (acc ++ [n]))
  end.

Definition validateAgentOwnedPaths (capsulePaths ownedPaths : list string) : result string (list string) :=
  rbind (normalizeCapsulePathSet 0 capsulePaths []) (fun allowed =>
  rbind (owned_paths 0 allowed ownedPaths []) (fun owned =>
  match owned with
  | [] => Throw "At least one owned path is required."%string
  | _ => Ok (js_sort compareText owned)
  end)).

Definition isInsideOwnedScope (candidatePath : string) (ownedPaths : list string) : bool :=
  existsb (fun o => String.eqb candidatePath o || starts_with (o +:+ "/") candidatePath) ownedPaths.

Definition compareSnippetOrder (a b : TaskCapsuleSnippet) : Z :=
  let pathOrder := compareText (snip_path a) (snip_path b) in
  if negb (pathOrder =? 0) then pathOrder
  else
    let startOrder := default 0 (snip_start a) - default 0 (snip_start b) in
    if negb (startOrder =? 0) then startOrder
    else
      let endOrder := default 0 (snip_end a) - default 0 (snip_end b) in
      if negb (endOrder =? 0) then endOrder else compareText (content a) (content b).

Definition scoped_snippet (owned : list string) (s : TaskCapsuleSnippet) : option TaskCapsuleSnippet :=
  match normalizeScopedPath (snip_path s) "snippet.path" with
  | Ok p => if isInsideOwnedScope p owned then Some (Snippet p (snip_start s) (snip_end s) (content s)) else None
  | Throw _ => None
  end.

Definition selectRelevantSnippets (snippets : list TaskCapsuleSnippet) (owned : list string) : list TaskCapsuleSnippet :=
  js_sort compareSnippetOrder (omap (scoped_snippet owned) snippets).

Definition normalizeAndSortTextList (values : list string) : list string :=
  js_sort compareText (trimmed_set values).

Definition formatSnippetSelector (s : TaskCapsuleSnippet) : string :=
  match snip_start s, snip_end s with
  | None, _ => snip_path s
  | Some a, None => (snip_path s +:+ ":" +:+ int_to_string a)%string
  | Some a, Some b => (snip_path s +:+ ":" +:+ int_to_string a +:+ ":" +:+ int_to_string b)%string
  end.

Definition renderSnippets (snippets : list TaskCapsuleSnippet) : list string :=
  match snippets with
  | [] => ["- none"%string]
  | _ =>
      concat ((fun s =>
        ("- " +:+ formatSnippetSelector s)%string ::
        match split_on newline (content s) with
        | [EmptyString] => ["  (empty snippet)"%string]
        | lines => (fun l => "  " +:+ l)%string <$> lines
        end) <$> snippets)
  end.

Definition brief_lines (b : AgentBrief) : list string :=
  (["Task:"; task b; ""; "Owner:"; brief_owner b; ""; "Owned Files:"]%string ++ renderBulletSection (ownedFiles b) ++
   [""; "Acceptance Criteria:"]%string ++ renderBulletSection (criteria b) ++
   [""; "Risks:"]%string ++ renderBulletSection (brief_risks b) ++
   [""; "Relevant Snippets:"]%string ++ renderSnippets (relevantSnippets b)).

Definition renderAgentBriefText (b : AgentBrief) : string :=
  (join_lines (brief_lines b) +:+ String newline "")%string.

(** The brief, whose [text] is [renderAgentBriefText]. *)
Definition buildAgentBrief (capsule : TaskCapsule) (ownedPaths : list string) : result string AgentBrief :=
  rbind (required_text "capsule.goal" (goal capsule)) (fun task =>
  rbind (required_text "capsule.owner" (owner capsule)) (fun o =>
  rbind (validateAgentOwnedPaths (paths capsule) ownedPaths) (fun owned =>
  Ok (Brief task o owned (normalizeAndSortTextList (acceptanceCriteria capsule))
        (normalizeAndSortTextList (risks capsule)) (selectRelevantSnippets (snippets capsule) owned))))).

End Brief.

(** ** Dispatch messages ([agent-dispatch.ts]) *)

Module Dispatch.

Definition DISPATCH_SAFETY_NOTICE : string :=
  "You are NOT alone in the codebase; ignore edits by others unless overlapping your owned files.".

(** [replace(/\r\n/g, "\n")]. *)
Fixpoint replace_crlf (s : string) : string :=
  match s with
  | String c r =>
      match r with
      | String d r' => if Ascii.eqb c "013" && Ascii.eqb d newline then String newline (replace_crlf r')
                       else String c (replace_crlf r)
      | EmptyString => s
      end
  | EmptyString => EmptyString
  end.

Definition normalizeMultilineText (raw fieldName : string) : result string string :=
  rbind (required_text fieldName raw) (fun t => Ok (trim (replace_crlf t))).

(** [SECTION_HEADING_PATTERN] on a trimmed line. *)
Definition is_heading (line : string) : bool :=
  match line with
  | String c r =>
      is_alpha c && ends_with ":" r &&
      str_forallb (fun d => is_alnum d || one_of " _/-" d) (str_take (String.length r - 1) r)
  | EmptyString => false
  end.

Definition isSectionBoundary (line : string) : bool :=
  let trimmed := trim line in
  if is_empty trimmed then false
  else is_heading trimmed && negb (String.eqb (to_lower trimmed) "task:").

(** [TASK_HEADING_PATTERN] with its group. *)
Definition task_heading (line : string) : option string :=
  let s := trim_start line in
  if String.eqb (to_lower (str_take 5 s)) "task:" then
    let rest := trim_start (str_drop 5 s) in
    if Capsule.one_line rest then Some rest else None
  else None.

(** The lines up to the next section. *)
Fixpoint until_boundary (lines : list string) : list string :=
  match lines with
  | [] => []
  | l :: rest => if isSectionBoundary l then [] else l :: until_boundary rest
  end.

Fixpoint find_task (lines : list string) : result string string :=
  match lines with
  | [] => Throw ("Task is required. Provide `task` explicitly or include a " +:+ in_quotes "Task:" +:+ " section in `briefBody`.")%string
  | line :: rest =>
      match task_heading line with
      | None => find_task rest
      | Some inline =>
          let inlineTask := trim inline in
          let collected := (if is_empty inlineTask then [] else [inlineTask]) ++ until_boundary rest in
          let task := trim (join_lines collected) in
          if is_empty task then Throw "Task section is present but empty."%string else Ok task
      end
  end.

Definition parseTaskFromBrief (briefBody : string) : result string string :=
  rbind (normalizeMultilineText briefBody "briefBody") (fun body => find_task (split_on newline body)).

Fixpoint owned_set (index : nat) (owned acc : list string) : result string (list string) :=
  match owned with
  | [] => Ok acc
  | p :: rest =>
      rbind (normalizeScopedPath p (indexed "ownedPaths" index)) (fun n => owned_set (S index) rest (js_add n acc))
  end.

Definition validateOwnedPaths (ownedPaths : list string) : result string (list string) :=
  match ownedPaths with
  | [] => Throw "At least one owned path is required."%string
  | _ =>
      rbind (owned_set 0 ownedPaths []) (fun set =>
      match js_sort compareText set with
      | [] => Throw "At least one owned path is required."%string
      | l => Ok l
      end)
  end.

Record BuildInput : Type := DispatchInput {
  in_task : option string;
  dispatch_owner : string;
  ownedPaths : list string;
  briefBody : string;
  instructions : list string
}.

Record SpawnAgentTemplate : Type := Template {
  agent_type : string;
  message : string;
  t_task : string;
  t_owner : string;
  owned_files : list string;
  additional_instructions : list string;
  brief_body : string
}.

Definition normalizeInstructionList (raw : list string) : list string := js_sort compareText (trimmed_set raw).

Definition renderDispatchMessage (task owner : string) (ownedFiles instructions : list string) (body : string) : string :=
  (join_lines
     (["Task:"; task; ""; "Owner:"; owner; ""; "Owned Files:"]%string ++ ((fun p => "- " +:+ p)%string <$> ownedFiles) ++
      [""; "Additional Instructions:"]%string ++ renderBulletSection instructions ++
      [""; "Safety Notice:"; DISPATCH_SAFETY_NOTICE; ""; "Brief Body:"; body]%string) +:+ String newline "")%string.

(** What both builders compute before the message is rendered. *)
Definition dispatch_parts (input : BuildInput) :
    result string (string * string * list string * list string * string) :=
  rbind (required_text "owner" (dispatch_owner input)) (fun owner =>
  rbind (normalizeMultilineText (briefBody input) "briefBody") (fun body =>
  rbind (validateOwnedPaths (ownedPaths input)) (fun owned =>
  rbind (match in_task input with
         | Some (String c r) => normalizeMultilineText (String c r) "task"
         | _ => parseTaskFromBrief body
         end) (fun task =>
  Ok (task, owner, owned, normalizeInstructionList (instructions input), body))))).

Definition buildAgentDispatchMessage (input : BuildInput) : result string string :=
  rbind (dispatch_parts input) (fun '(task, owner, owned, instr, body) =>
  Ok (renderDispatchMessage task owner owned instr body)).

Definition buildSpawnAgentTemplate (agentType : string) (input : BuildInput) : result string SpawnAgentTemplate :=
  rbind (required_text "agentType" agentType) (fun agent =>
  rbind (dispatch_parts input) (fun '(task, owner, owned, instr, body) =>
  Ok (Template agent (renderDispatchMessage task owner owned instr body) task owner owned instr body))).

End Dispatch.

(** ** Sets of trimmed texts *)

(** Every value is trimmed and not empty. *)
Definition trimmed_texts (l : list string) : Prop := NoDup l /\ Forall (fun t => trim t = t /\ t <> EmptyString) l.

Lemma js_add_Forall (P : string -> Prop) x l : P x -> Forall P l -> Forall P (js_add x l).
Proof.
  intros Hx Hl. apply Forall_forall. intros y [->|Hy]%elem_of_js_add; [done|].
  exact (proj1 (Forall_forall _ _) Hl y Hy).
Qed.

Lemma trimmed_add v acc : trimmed_texts acc -> is_empty (trim v) = false -> trimmed_texts (js_add (trim v) acc).
Proof.
  intros [Hnd Hall] Hv. split; [by apply NoDup_js_add|]. apply js_add_Forall; [|done].
  split; [apply trim_idem|]. by destruct (trim v).
Qed.

Lemma trimmed_fold values acc : trimmed_texts acc ->
  trimmed_texts (foldl (fun acc v => if is_empty (trim v) then acc else js_add (trim v) acc) acc values).
Proof.
  revert acc. induction values as [|v values IH]; intros acc H; [done|]. simpl. apply IH.
  destruct (is_empty (trim v)) eqn:Hv; [done|]. by apply trimmed_add.
Qed.

Lemma trimmed_set_ok values : trimmed_texts (trimmed_set values).
Proof. apply trimmed_fold. split; constructor. Qed.

Lemma elem_of_trimmed_fold values acc x :
  x ∈ foldl (fun acc v => if is_empty (trim v) then acc else js_add (trim v) acc) acc values <->
  x ∈ acc \/ exists v, v ∈ values /\ trim v = x /\ x <> EmptyString.
Proof.
  revert acc. induction values as [|v values IH]; intros acc; simpl.
  - split; [by left|]. intros [?|(v & Hv & _)]; [done|]. by apply elem_of_nil in Hv.
  - rewrite IH. destruct (is_empty (trim v)) eqn:Hv.
    + split; (intros [?|(w & Hw & Ht & Hne)]; [by left|]).
      * right. exists w. split; [by right|done].
      * apply elem_of_cons in Hw as [->|Hw]; [|right; by exists w]. exfalso. apply Hne. rewrite <- Ht. by destruct (trim v).
    + rewrite elem_of_js_add. split.
      * intros [[->|?]|(w & Hw & Ht & Hne)]; [|by left|].
        -- right. exists v. split; [by left|]. split; [done|]. by destruct (trim v).
        -- right. exists w. split; [by right|done].
      * intros [?|(w & Hw & Ht & Hne)]; [by left; right|].
        apply elem_of_cons in Hw as [->|Hw]; [left; by left|]. right. by exists w.
Qed.

Lemma elem_of_trimmed_set values x :
  x ∈ trimmed_set values <-> exists v, v ∈ values /\ trim v = x /\ x <> EmptyString.
Proof.
  unfold trimmed_set. rewrite elem_of_trimmed_fold. split; [|by right]. by intros [?%elem_of_nil|?].
Qed.

(** ** Capsules are bounded *)

Section CapsuleFacts.
Import Capsule.

Definition snippet_ok (c : TaskCapsuleConstraints) (ps : list string) (s : TaskCapsuleSnippet) : Prop :=
  snip_path s ∈ ps /\ str_len (content s) <= maxSnippetChars c /\
  (forall a, snip_start s = Some a -> selectorLineMin c <= a <= selectorLineMax c) /\
  (forall b, snip_end s = Some b -> exists a, snip_start s = Some a /\ a <= b <= selectorLineMax c).

Lemma clampLine_bounds v lo hi : lo <= hi -> lo <= clampLine v lo hi <= hi.
Proof.
  intros H. unfold clampLine. destruct (num_to_Z v) as [z|]; [|lia].
  destruct (Z.ltb_spec z lo); [lia|]. destruct (Z.ltb_spec hi z); lia.
Qed.

Lemma parsePathAndRange_ok path a b lo hi s : lo <= hi -> parsePathAndRange path a b lo hi = Ok s ->
  is_empty (trim (sel_path s)) = false /\
  (forall x, startLine s = Some x -> lo <= x <= hi) /\
  (forall y, endLine s = Some y -> exists x, startLine s = Some x /\ x <= y <= hi).
Proof.
  intros Hlh. unfold parsePathAndRange. destruct (is_empty (trim path)) eqn:Hp; [done|]. intros [= <-].
  pose proof (clampLine_bounds (parse_int a) lo hi Hlh). cbn [sel_path startLine endLine].
  split; [by rewrite trim_idem|]. split; [by intros x [= <-]|].
  intros y Hy. eexists. split; [done|]. destruct b as [e|]; [|done].
  pose proof (clampLine_bounds (parse_int e) lo hi Hlh). injection Hy as <-. lia.
Qed.

Lemma parse_selector_ok raw lo hi s : parse_selector raw lo hi = Ok s ->
  is_empty (trim (sel_path s)) = false /\
  (forall x, startLine s = Some x -> lo <= x <= hi) /\
  (forall y, endLine s = Some y -> exists x, startLine s = Some x /\ x <= y <= hi).
Proof.
  unfold parse_selector. destruct (is_empty (trim raw)) eqn:He; [done|].
  destruct (Z.ltb_spec hi lo); [done|].
  destruct (split_number (trim raw)) as [[b l]|]; [destruct (one_line b); cbn [negb]|].
  - destruct (split_number b) as [[p f]|]; by apply parsePathAndRange_ok.
  - intros [= <-]. cbn. by rewrite trim_idem.
  - intros [= <-]. cbn. by rewrite trim_idem.
Qed.

Lemma truncateText_length raw n : 0 <= n -> str_len (truncateText raw n) <= n.
Proof.
  intros Hn. unfold truncateText. destruct (Z.leb_spec n 0); [done|]. destruct (Z.leb_spec (str_len raw) n); [done|].
  unfold str_len in *. rewrite str_take_length by lia. lia.
Qed.

Lemma trim_add_path p ps : is_empty (trim p) = false -> trim p = p -> p ∈ add_path p ps.
Proof. intros He Ht. unfold add_path. rewrite He, Ht. apply elem_of_js_add. by left. Qed.

Lemma add_path_mono p q ps : q ∈ ps -> q ∈ add_path p ps.
Proof. intros Hq. unfold add_path. destruct (is_empty _); [done|]. apply elem_of_js_add. by right. Qed.

Lemma add_path_trimmed p ps : trimmed_texts ps -> trimmed_texts (add_path p ps).
Proof. intros H. unfold add_path. destruct (is_empty (trim p)) eqn:He; [done|]. by apply trimmed_add. Qed.

Lemma parse_selector_trimmed raw lo hi s : parse_selector raw lo hi = Ok s -> trim (sel_path s) = sel_path s.
Proof.
  unfold parse_selector, parsePathAndRange. repeat case_match; try done; intros [= <-]; apply trim_idem.
Qed.

Lemma collect_snippets_ok c inputs ps acc r : 0 <= maxSnippetChars c -> 0 <= maxSnippets c ->
  trimmed_texts ps -> Forall (snippet_ok c ps) acc -> Z.of_nat (length acc) <= maxSnippets c ->
  collect_snippets c inputs ps acc = Ok r ->
  trimmed_texts r.1 /\ Forall (snippet_ok c r.1) r.2 /\ Z.of_nat (length r.2) <= maxSnippets c.
Proof.
  intros Hc Hm. revert ps acc. induction inputs as [|[raw text] inputs IH]; intros ps acc Hps Hacc Hlen; cbn [collect_snippets].
  - by intros [= <-].
  - destruct (Z.leb_spec (maxSnippets c) (Z.of_nat (length acc))); [by intros [= <-]|].
    rewrite rbind_Ok. intros (s & Hs & Hr). revert Hr. destruct (parse_selector_ok _ _ _ _ Hs) as (He & Ha & Hb).
    pose proof (parse_selector_trimmed _ _ _ _ Hs) as Ht.
    apply IH; [by apply add_path_trimmed| |rewrite length_app; simpl; lia].
    apply Forall_app. split.
    + eapply Forall_impl; [exact Hacc|]. intros t (H1 & H2). split; [by apply add_path_mono|done].
    + apply Forall_singleton. split; [by apply trim_add_path|]. split; [by apply truncateText_length|]. by split.
Qed.

Lemma nonneg_ok v f z : normalizeNonNegativeInteger v f = Ok z -> 0 <= z.
Proof. unfold normalizeNonNegativeInteger. destruct (num_to_Z v); [|done]. destruct (Z.ltb_spec z0 0); [done|]. by intros [= <-]. Qed.

(** A capsule never carries more than its limits allow: at most [maxSnippets] snippets,
    none longer than [maxSnippetChars], every line number within the selector's bounds
    and every range in order; its paths, which include those of all its snippets, its
    criteria and its risks are trimmed, not empty, and without repetition. *)
Theorem capsule_bounded input o c : buildTaskCapsule input o = Ok c ->
  exists cs, resolveConstraints o = Ok cs /\
    Z.of_nat (length (snippets c)) <= maxSnippets cs /\ Forall (snippet_ok cs (paths c)) (snippets c) /\
    trimmed_texts (paths c) /\ trimmed_texts (acceptanceCriteria c) /\ trimmed_texts (risks c).
Proof.
  unfold buildTaskCapsule. rewrite rbind_Ok. intros (cs & Hcs & Hr). exists cs. split; [done|].
  rewrite rbind_Ok in Hr. destruct Hr as (g & _ & Hr). rewrite rbind_Ok in Hr. destruct Hr as (w & _ & Hr).
  rewrite rbind_Ok in Hr. destruct Hr as (r & Hsnip & [= <-]). cbn [paths snippets acceptanceCriteria risks].
  assert (Hb : 0 <= maxSnippets cs /\ 0 <= maxSnippetChars cs).
  { unfold resolveConstraints in Hcs. rewrite rbind_Ok in Hcs. destruct Hcs as (a & Ha%nonneg_ok & Hcs).
    rewrite rbind_Ok in Hcs. destruct Hcs as (b & Hb%nonneg_ok & Hcs). rewrite rbind_Ok in Hcs. destruct Hcs as (lo & _ & Hcs).
    rewrite rbind_Ok in Hcs. destruct Hcs as (hi & _ & Hcs). destruct (hi <? lo); [done|]. by injection Hcs as <-. }
  destruct Hb as [Hb1 Hb2].
  destruct (collect_snippets_ok cs _ _ [] r Hb2 Hb1 (trimmed_set_ok (in_paths input)) (Forall_nil_2 _) Hb1 Hsnip) as (H1 & H2 & H3).
  split; [done|]. split; [done|]. split; [done|]. split; apply trimmed_set_ok.
Qed.
End CapsuleFacts.

(** ** Briefs stay inside their scope *)

Section BriefFacts.
Import Capsule Brief.

Lemma path_segments_field f g segs acc r : path_segments f segs acc = Ok r -> path_segments g segs acc = Ok r.
Proof.
  revert acc. induction segs as [|s segs IH]; intros acc; cbn [path_segments]; [done|].
  destruct (is_empty s || String.eqb s "."); [by apply IH|]. destruct (String.eqb s ".."); [done|by apply IH].
Qed.

(** The field only matters to the error. *)
Lemma normalize_field f g p n : normalizeScopedPath p f = Ok n -> normalizeScopedPath p g = Ok n.
Proof.
  unfold normalizeScopedPath. destruct (is_empty (trim p)); [done|]. rewrite !rbind_Ok.
  intros (segs & Hs & Hn). exists segs. split; [exact (path_segments_field f g _ _ _ Hs)|]. by destruct segs.
Qed.

Lemma path_segments_ok f segs acc r : Forall (fun s => s <> EmptyString /\ s <> "."%string /\ s <> ".."%string) acc ->
  path_segments f segs acc = Ok r -> Forall (fun s => s <> EmptyString /\ s <> "."%string /\ s <> ".."%string) r.
Proof.
  revert acc. induction segs as [|s segs IH]; intros acc Hacc; cbn [path_segments]; [by intros [= <-]|].
  destruct (is_empty s) eqn:He; [by apply IH|]. destruct (String.eqb_spec s "."); [by apply IH|].
  destruct (String.eqb_spec s ".."); [done|]. apply IH. apply Forall_app. split; [done|].
  apply Forall_singleton. split; [by destruct s|done].
Qed.

Definition in_capsule (capsulePaths : list string) (n : string) : Prop :=
  exists p, p ∈ capsulePaths /\ normalizeScopedPath (trim p) "path" = Ok n.

Lemma capsule_set_ok i ps acc r : normalizeCapsulePathSet i ps acc = Ok r ->
  forall n, n ∈ r -> n ∈ acc \/ in_capsule ps n.
Proof.
  revert i acc. induction ps as [|p ps IH]; intros i acc; cbn [normalizeCapsulePathSet]; [intros [= <-]; by left|].
  assert (Hcons : forall n, in_capsule ps n -> in_capsule (p :: ps) n).
  { intros n (q & Hq & Hn). exists q. split; [by right|done]. }
  destruct (is_empty (trim p)).
  - intros H n Hn. destruct (IH _ _ H n Hn); [by left|]. right. by apply Hcons.
  - rewrite rbind_Ok. intros (m & Hm & H) n Hn. destruct (IH _ _ H n Hn) as [Hacc|Hin]; [|right; by apply Hcons].
    apply elem_of_js_add in Hacc as [->|]; [|by left]. right. exists p. split; [by left|].
    exact (normalize_field _ _ _ _ Hm).
Qed.

(** What the check of the owned paths means. *)
Lemma owned_paths_iff i allowed owned acc r : NoDup acc ->
  owned_paths i allowed owned acc = Ok r <->
  exists ns, Forall2 (fun p n => normalizeScopedPath p "path" = Ok n) owned ns /\
    NoDup (acc ++ ns) /\ Forall (fun n => n ∈ allowed) ns /\ r = acc ++ ns.
Proof.
  revert i acc. induction owned as [|p owned IH]; intros i acc Hacc; cbn [owned_paths].
  - split.
    + intros [= <-]. exists []. rewrite app_nil_r. by repeat split; [constructor|..|constructor].
    + intros (ns & Hns & _ & _ & ->). apply Forall2_nil_inv_l in Hns as ->. by rewrite app_nil_r.
  - rewrite rbind_Ok. split.
    + intros (n & Hn & Hr). destruct (js_has n acc) eqn:Hh; [done|]. destruct (js_has n allowed) eqn:Ha; [|done].
      assert (Hni : n ∉ acc) by (intros Hin%js_has_spec; congruence).
      cbn [negb] in Hr. apply IH in Hr as (ns & H1 & H2 & H3 & ->).
      2: { apply NoDup_app. split; [done|]. split; [|apply NoDup_singleton]. by intros x Hx ->%list_elem_of_singleton. }
      exists (n :: ns). rewrite <- app_assoc in *. split; [constructor; [exact (normalize_field _ _ _ _ Hn)|done]|].
      split; [done|]. split; [|done]. constructor; [by apply js_has_spec|done].
    + intros (ns & H1 & H2 & H3 & ->). apply Forall2_cons_inv_l in H1 as (n & ns' & Hn & H1 & ->).
      exists n. split; [exact (normalize_field _ _ _ _ Hn)|].
      assert (Hni : n ∉ acc).
      { apply NoDup_app in H2 as (_ & H2 & _). intros Hin. apply (H2 n Hin). by left. }
      apply Forall_cons in H3 as [Ha H3]. rewrite (proj2 (js_has_spec n allowed) Ha).
      destruct (js_has n acc) eqn:Hh; [by apply js_has_spec in Hh|]. cbn [negb].
      apply IH.
      { apply NoDup_app. split; [done|]. split; [|apply NoDup_singleton]. by intros x Hx ->%list_elem_of_singleton. }
      exists ns'. rewrite <- !app_assoc. by repeat split.
Qed.

Lemma validate_iff capsulePaths owned l :
  validateAgentOwnedPaths capsulePaths owned = Ok l <->
  exists allowed ns, normalizeCapsulePathSet 0 capsulePaths [] = Ok allowed /\
    Forall2 (fun p n => normalizeScopedPath p "path" = Ok n) owned ns /\ NoDup ns /\
    Forall (fun n => n ∈ allowed) ns /\ ns <> [] /\ l = js_sort compareText ns.
Proof.
  unfold validateAgentOwnedPaths. rewrite rbind_Ok. split.
  - intros (allowed & Ha & Hr). rewrite rbind_Ok in Hr. destruct Hr as (ns & Hns & Hl).
    apply owned_paths_iff in Hns as (ms & H1 & H2 & H3 & ->); [|constructor]. simpl in *.
    exists allowed, ms. destruct ms; [done|]. by injection Hl as <-.
  - intros (allowed & ns & Ha & H1 & H2 & H3 & Hne & ->). exists allowed. split; [done|]. rewrite rbind_Ok.
    exists ns. split; [apply owned_paths_iff; [constructor|]; by exists ns|]. by destruct ns.
Qed.

(** The order in which the owned paths are given does not matter. *)
Theorem owned_paths_order capsulePaths owned owned' l : owned ≡ₚ owned' ->
  validateAgentOwnedPaths capsulePaths owned = Ok l -> validateAgentOwnedPaths capsulePaths owned' = Ok l.
Proof.
  rewrite !validate_iff. intros Hp (allowed & ns & Ha & H1 & H2 & H3 & Hne & ->).
  destruct (Permutation_Forall2 Hp H1) as (ns' & Hp' & H1').
  exists allowed, ns'. split; [done|]. split; [done|]. split; [by rewrite <- Hp'|].
  split; [apply Forall_forall; intros n Hn; apply (proj1 (Forall_forall _ _) H3); by rewrite Hp'|].
  split; [|exact (js_sort_strings_perm _ _ Hp')]. intros ->. apply Hne. by apply Permutation_nil_r in Hp'.
Qed.

(** A brief owns at least one file, no file twice, and only files of its capsule; its
    snippets are exactly those of the capsule that are, or lie below, an owned file,
    with the text and the lines they had: nothing of the capsule outside the scope of
    the worker gets into the brief. *)
Theorem brief_in_scope capsule owned b : buildAgentBrief capsule owned = Ok b ->
  ownedFiles b <> [] /\ NoDup (ownedFiles b) /\ Forall (in_capsule (paths capsule)) (ownedFiles b) /\
  forall s, s ∈ relevantSnippets b <->
    exists s0, s0 ∈ snippets capsule /\ normalizeScopedPath (snip_path s0) "path" = Ok (snip_path s) /\
      snip_start s = snip_start s0 /\ snip_end s = snip_end s0 /\ content s = content s0 /\
      exists f, f ∈ ownedFiles b /\ (snip_path s = f \/ starts_with (f +:+ "/") (snip_path s) = true).
Proof.
  unfold buildAgentBrief. rewrite rbind_Ok. intros (t & _ & Hr). rewrite rbind_Ok in Hr. destruct Hr as (w & _ & Hr).
  rewrite rbind_Ok in Hr. destruct Hr as (l & Hl & [= <-]). cbn [ownedFiles relevantSnippets].
  apply validate_iff in Hl as (allowed & ns & Ha & _ & Hnd & Hall & Hne & ->).
  split; [|split; [|split]].
  - intros He. apply Hne. apply Permutation_nil_r. rewrite <- He. symmetry. apply js_sort_perm.
  - by rewrite js_sort_perm.
  - rewrite js_sort_perm. eapply Forall_impl; [exact Hall|]. intros n Hn.
    destruct (capsule_set_ok _ _ _ _ Ha n Hn) as [?%elem_of_nil|?]; done.
  - intros s. unfold selectRelevantSnippets. rewrite js_sort_perm, list_elem_of_omap.
    assert (Hin : forall p, isInsideOwnedScope p (js_sort compareText ns) = true <->
      exists f, f ∈ js_sort compareText ns /\ (p = f \/ starts_with (f +:+ "/") p = true)).
    { intros p. unfold isInsideOwnedScope. rewrite existsb_exists. split; intros (f & Hf & Ho); exists f.
      - split; [by apply list_elem_of_In|]. apply orb_true_iff in Ho as [->%String.eqb_eq|]; [by left|by right].
      - split; [by apply list_elem_of_In|]. apply orb_true_iff. destruct Ho as [->|]; [left; apply String.eqb_refl|by right]. }
    split.
    + intros (s0 & Hs0 & Hs). exists s0. split; [done|]. unfold scoped_snippet in Hs.
      destruct (normalizeScopedPath (snip_path s0) "snippet.path") as [p|e] eqn:Hp; [|done].
      destruct (isInsideOwnedScope p _) eqn:Hi; [|done]. injection Hs as <-. cbn.
      split; [exact (normalize_field _ _ _ _ Hp)|]. repeat split. by apply Hin.
    + intros (s0 & Hs0 & Hp & Ha1 & Hb & Hc & Hf). exists s0. split; [done|]. unfold scoped_snippet.
      rewrite (normalize_field "path" "snippet.path" _ _ Hp), (proj2 (Hin _) Hf). rewrite <- Ha1, <- Hb, <- Hc. by destruct s.
Qed.
End BriefFacts.

(** ** The task of a brief is read back *)

Lemma trim_end_app a d b : is_space d = false -> trim_end (a +:+ String d b)%string = (a +:+ String d (trim_end b))%string.
Proof.
  intros Hd. induction a as [|c a IH]; [rewrite !str_app_nil_l; by apply trim_end_cons|].
  rewrite !str_app_cons. simpl. rewrite IH. by destruct a.
Qed.

Lemma trim_end_snoc a d : is_space d = true -> trim_end (a +:+ String d "")%string = trim_end a.
Proof.
  intros Hd. induction a as [|c a IH]; [rewrite str_app_nil_l; simpl; by rewrite Hd|].
  rewrite str_app_cons. simpl. by rewrite IH.
Qed.

Lemma trim_trimmed_snoc s d : trim s = s -> is_space d = true -> trim (s +:+ String d "")%string = s.
Proof.
  intros Hs Hd. destruct s as [|c s]; [rewrite str_app_nil_l; unfold trim; simpl; by rewrite Hd|].
  assert (Hc : is_space c = false).
  { destruct (is_space c) eqn:Hc; [|done]. exfalso. assert (Hlen : forall t, (String.length (trim_start t) <= String.length t)%nat).
    { induction t as [|x t IH]; simpl; [lia|]. destruct (is_space x); simpl; lia. }
    assert (Hlen' : forall t, (String.length (trim_end t) <= String.length t)%nat).
    { induction t as [|x t IH]; simpl; [lia|]. destruct (trim_end t); simpl in *; [destruct (is_space x); simpl; lia|lia]. }
    unfold trim in Hs. simpl in Hs. rewrite Hc in Hs. apply (f_equal String.length) in Hs.
    pose proof (Hlen s). pose proof (Hlen' (trim_start s)). simpl in Hs. lia. }
  unfold trim in *. rewrite str_app_cons. simpl (trim_start _) in *. rewrite Hc in *.
  rewrite <- str_app_cons, trim_end_snoc by done. exact Hs.
Qed.

(** Empty, or a text that starts with a line break. *)
Definition starts_line (s : string) : Prop := s = EmptyString \/ exists r, s = String newline r.

Lemma trim_end_starts_line r : starts_line (trim_end (String newline r)).
Proof. simpl. destruct (trim_end r); [by left|right; eauto]. Qed.

Section DispatchFacts.
Import Capsule Brief Dispatch.

Lemma replace_crlf_app a b : index_of "013" a = None -> replace_crlf (a +:+ b) = (a +:+ replace_crlf b)%string.
Proof.
  induction a as [|c a IH]; [by rewrite !str_app_nil_l|]. cbn [index_of].
  destruct (Ascii.eqb_spec "013"%char c) as [<-|Hc]; [done|]. intros Ha.
  assert (Hc' : Ascii.eqb c "013" = false) by (apply Ascii.eqb_neq; congruence).
  assert (Hrec : forall r, replace_crlf (String c r) = String c (replace_crlf r)).
  { intros [|d r]; [done|].
    change (replace_crlf (String c (String d r))) with
      (if Ascii.eqb c "013" && Ascii.eqb d newline then String newline (replace_crlf r) else String c (replace_crlf (String d r))).
    by rewrite Hc'. }
  rewrite !str_app_cons, Hrec, IH; [done|]. by destruct (index_of "013" a).
Qed.

Lemma replace_crlf_starts_line s : starts_line s -> starts_line (replace_crlf s).
Proof.
  intros [->|[r ->]]; [by left|]. right. exists (replace_crlf r). destruct r as [|d r]; [done|]. reflexivity.
Qed.

Lemma trim_end_line s : starts_line s -> starts_line (trim_end s).
Proof. intros [->|[r ->]]; [by left|apply trim_end_starts_line]. Qed.

(** The beginning of a brief: its task up to the heading of the owner, which no
    normalisation changes. *)
Definition brief_head (b : AgentBrief) : string :=
  ("Task:" +:+ String newline (Brief.task b +:+ String newline (String newline "Owner:")))%string.

Definition brief_shape (b : AgentBrief) (text : string) : Prop :=
  exists r, text = (brief_head b +:+ r)%string /\ starts_line r.

Lemma head_visible b r : exists x, (brief_head b +:+ r)%string = String "T" x /\
  (forall r', trim_end (brief_head b +:+ r') = brief_head b +:+ trim_end r')%string.
Proof.
  set (p := ("Task:" +:+ String newline (Brief.task b +:+ String newline (String newline "Owner")))%string).
  assert (Hp : forall x, (brief_head b +:+ x)%string = (p +:+ String ":" x)%string).
  { intros x. unfold brief_head, p. repeat rewrite <- ?str_app_assoc, ?str_app_cons, ?str_app_nil_l. reflexivity. }
  eexists. split; [reflexivity|]. intros r'. rewrite !Hp. by apply trim_end_app.
Qed.

Lemma shape_trim_end b t : brief_shape b t -> brief_shape b (trim_end t).
Proof.
  intros (r & -> & Hr). destruct (head_visible b r) as (_ & _ & Ht). exists (trim_end r).
  split; [apply Ht|by apply trim_end_line].
Qed.

Lemma shape_trim b t : brief_shape b t -> brief_shape b (trim t).
Proof.
  intros H. replace (trim t) with (trim_end t); [by apply shape_trim_end|]. destruct H as (r & -> & _).
  destruct (head_visible b r) as (x & -> & _). done.
Qed.

Lemma shape_crlf b t : index_of "013" (Brief.task b) = None -> brief_shape b t -> brief_shape b (replace_crlf t).
Proof.
  intros Hcr (r & -> & Hr). exists (replace_crlf r). split; [|by apply replace_crlf_starts_line].
  apply replace_crlf_app. apply index_of_None_forallb. apply index_of_None_forallb in Hcr.
  unfold brief_head. rewrite str_forallb_app. cbn [str_forallb]. rewrite str_forallb_app, Hcr. by vm_compute.
Qed.

Lemma shape_newline b t : brief_shape b t -> brief_shape b (t +:+ String newline "")%string.
Proof.
  intros (r & -> & Hr). exists (r +:+ String newline "")%string. rewrite <- str_app_assoc. split; [done|].
  right. destruct Hr as [->|[x ->]]; [by exists ""%string|]. eexists. by rewrite str_app_cons.
Qed.

Lemma shape_nonempty b t : brief_shape b t -> is_empty t = false.
Proof. intros (r & -> & _). destruct (head_visible b r) as (x & -> & _). done. Qed.

Lemma shape_multiline b t name : index_of "013" (Brief.task b) = None -> brief_shape b t ->
  exists t', normalizeMultilineText t name = Ok t' /\ brief_shape b t'.
Proof.
  intros Hcr H. unfold normalizeMultilineText, required_text. apply shape_trim in H. rewrite (shape_nonempty _ _ H).
  eexists. split; [reflexivity|]. by apply shape_trim, shape_crlf.
Qed.

Lemma rendered_shape b : brief_shape b (renderAgentBriefText b).
Proof.
  unfold renderAgentBriefText, join_lines, brief_lines. cbn [app]. rewrite !join_cons2. unfold brief_shape, brief_head.
  eexists. split; [|right; eexists; reflexivity].
  repeat rewrite <- ?str_app_assoc, ?str_app_cons, ?str_app_nil_l. reflexivity.
Qed.

Lemma until_boundary_app l x rest : Forall (fun l => isSectionBoundary l = false) l -> isSectionBoundary x = true ->
  until_boundary (l ++ x :: rest) = l.
Proof.
  intros Hl Hx. induction Hl as [|y l Hy _ IH]; simpl; [by rewrite Hx|]. by rewrite Hy, IH.
Qed.

(** The lines of a brief. *)
Lemma shape_lines b t : brief_shape b t ->
  exists rest, split_on newline t = ("Task:" :: split_on newline (Brief.task b) ++ "" :: "Owner:" :: rest)%string.
Proof.
  intros (r & -> & Hr).
  assert (Hsplit : exists rest, split_on newline (String "O" (String "w" (String "n" (String "e" (String "r" (String ":" r)))))) =
    "Owner:"%string :: rest).
  { destruct Hr as [->|[r2 ->]]; [by exists []|].
    exists (split_on newline r2). by rewrite <- (split_on_sep newline "Owner:" r2). }
  destruct Hsplit as [rest Hsplit]. exists rest. unfold brief_head.
  repeat rewrite <- ?str_app_assoc, ?str_app_cons, ?str_app_nil_l.
  change (split_on newline (("Task:" +:+ String newline (Brief.task b +:+ String newline (("" +:+ String newline (String "O" (String "w" (String "n" (String "e" (String "r" (String ":" r)))))))%string)))%string) =
    "Task:"%string :: split_on newline (Brief.task b) ++ ""%string :: "Owner:"%string :: rest).
  rewrite split_on_sep by done. f_equal. rewrite split_on_app. f_equal. rewrite split_on_sep by done. by rewrite Hsplit.
Qed.

Lemma shape_parsed b t : index_of "013" (Brief.task b) = None -> brief_shape b t ->
  exists rest, parseTaskFromBrief t =
    find_task ("Task:" :: split_on newline (Brief.task b) ++ "" :: "Owner:" :: rest)%string.
Proof.
  intros Hcr H. destruct (shape_multiline b t "briefBody" Hcr H) as (t' & Hn & H').
  destruct (shape_lines b t' H') as [rest Hrest]. exists rest. unfold parseTaskFromBrief. rewrite Hn. cbn [rbind]. by rewrite Hrest.
Qed.

(** The task section of a brief is its task, when no line of it looks like a heading. *)
Lemma shape_task b t : index_of "013" (Brief.task b) = None -> brief_shape b t ->
  Forall (fun l => isSectionBoundary l = false) (split_on newline (Brief.task b)) ->
  trim (Brief.task b) = Brief.task b -> is_empty (Brief.task b) = false ->
  parseTaskFromBrief t = Ok (Brief.task b).
Proof.
  intros Hcr H Hlines Ht He. destruct (shape_parsed b t Hcr H) as [rest ->]. cbn [find_task].
  change (task_heading "Task:") with (Some ""%string).
  cbn [is_empty]. change (trim "") with ""%string. cbn [is_empty app].
  change ((split_on newline (Brief.task b) ++ ""%string :: "Owner:"%string :: rest)) with
    (split_on newline (Brief.task b) ++ [""%string] ++ "Owner:"%string :: rest).
  rewrite app_assoc, until_boundary_app; [|apply Forall_app; split; [exact Hlines|by repeat constructor]|done].
  unfold join_lines. rewrite join_snoc_empty by apply split_on_not_nil. rewrite join_split.
  rewrite trim_trimmed_snoc by done. by rewrite He.
Qed.

(** A brief carries its task to the dispatcher: the task section of the rendered text is
    parsed back as exactly the goal of the capsule, unless one of its lines looks like
    the heading of a section. *)
Theorem brief_task_roundtrip capsule owned b : buildAgentBrief capsule owned = Ok b ->
  index_of "013" (goal capsule) = None ->
  Forall (fun l => isSectionBoundary l = false) (split_on newline (Brief.task b)) ->
  parseTaskFromBrief (renderAgentBriefText b) = Ok (trim (goal capsule)).
Proof.
  unfold buildAgentBrief. rewrite rbind_Ok. intros (t & Ht & Hr) Hcr.
  rewrite rbind_Ok in Hr. destruct Hr as (w & _ & Hr). rewrite rbind_Ok in Hr. destruct Hr as (l & _ & Hb). injection Hb as Hb.
  unfold required_text in Ht. destruct (is_empty (trim (goal capsule))) eqn:He; [done|]. injection Ht as <-.
  assert (Htask : Brief.task b = trim (goal capsule)) by (by rewrite <- Hb).
  rewrite Htask. intros Hlines.
  assert (Hcr' : index_of "013" (Brief.task b) = None).
  { rewrite Htask. apply index_of_None_forallb. apply index_of_None_forallb in Hcr. by apply trim_forallb. }
  rewrite <- Htask in *. rewrite (shape_task b _ Hcr' (rendered_shape b)); [done|exact Hlines| |].
  - rewrite Htask. apply trim_idem.
  - done.
Qed.

(** A goal whose first line looks like a heading - "Fix the parser:" - makes the brief
    useless: its task cannot be read back at all. *)
Theorem heading_task_lost b l ls : index_of "013" (Brief.task b) = None ->
  split_on newline (Brief.task b) = l :: ls -> isSectionBoundary l = true ->
  parseTaskFromBrief (renderAgentBriefText b) = Throw "Task section is present but empty."%string.
Proof.
  intros Hcr Hsplit Hl. destruct (shape_parsed b _ Hcr (rendered_shape b)) as [rest ->]. rewrite Hsplit. cbn [find_task].
  change (task_heading "Task:") with (Some ""%string). cbn [app until_boundary]. by rewrite Hl.
Qed.
End DispatchFacts.

(** ** Concrete inputs *)

Definition demo_input : Capsule.TaskCapsuleInput :=
  Capsule.Input " Fix the parser " "ops" ["src/a.ts"; "docs"; "src/a.ts "]%string ["tests pass"]%string []
    [("docs/x.md:5:2", "hello"); ("secret/key:1", "token"); ("src/a.ts:900000", "body")]%string.

Definition demo_overrides : Capsule.Overrides := Capsule.Override None (Some (num_of_Z 4)) None None.

Definition demo_capsule : Capsule.TaskCapsule :=
  Capsule.Capsule "Fix the parser" "ops" ["src/a.ts"; "docs"; "docs/x.md"; "secret/key"]%string ["tests pass"]%string []
    [Capsule.Snippet "docs/x.md" (Some 5) (Some 5) "hell"; Capsule.Snippet "secret/key" (Some 1) None "toke";
     Capsule.Snippet "src/a.ts" (Some 200000) None "body"].

Lemma demo_capsule_built : Capsule.buildTaskCapsule demo_input demo_overrides = Ok demo_capsule.
Proof. by vm_compute. Qed.

Definition demo_brief : Brief.AgentBrief :=
  Brief.Brief "Fix the parser" "ops" ["docs"; "src/a.ts"]%string ["tests pass"]%string []
    [Capsule.Snippet "docs/x.md" (Some 5) (Some 5) "hell"; Capsule.Snippet "src/a.ts" (Some 200000) None "body"].

Lemma demo_brief_built : Brief.buildAgentBrief demo_capsule [".\src\\a.ts"; "docs/"]%string = Ok demo_brief.
Proof. by vm_compute. Qed.

Lemma capsule_bounded_witness :
  Capsule.buildTaskCapsule demo_input demo_overrides = Ok demo_capsule /\ trimmed_texts (Capsule.paths demo_capsule).
Proof.
  split; [exact demo_capsule_built|].
  destruct (capsule_bounded demo_input demo_overrides demo_capsule demo_capsule_built) as (cs & _ & _ & _ & H & _). exact H.
Defined.

Lemma owned_paths_order_witness :
  Brief.validateAgentOwnedPaths (Capsule.paths demo_capsule) ["docs/"; ".\src\\a.ts"]%string = Ok ["docs"; "src/a.ts"]%string.
Proof.
  refine (owned_paths_order (Capsule.paths demo_capsule) [".\src\\a.ts"; "docs/"]%string ["docs/"; ".\src\\a.ts"]%string _ _ _).
  - apply Permutation_swap.
  - by vm_compute.
Defined.

Lemma brief_in_scope_witness :
  Brief.buildAgentBrief demo_capsule [".\src\\a.ts"; "docs/"]%string = Ok demo_brief /\ NoDup (Brief.ownedFiles demo_brief).
Proof.
  split; [exact demo_brief_built|].
  exact (proj1 (proj2 (brief_in_scope demo_capsule [".\src\\a.ts"; "docs/"]%string demo_brief demo_brief_built))).
Defined.

Lemma brief_task_roundtrip_witness :
  Dispatch.parseTaskFromBrief (Brief.renderAgentBriefText demo_brief) = Ok "Fix the parser"%string.
Proof.
  refine (brief_task_roundtrip demo_capsule [".\src\\a.ts"; "docs/"]%string demo_brief demo_brief_built _ _).
  - by vm_compute.
  - apply Forall_singleton. by vm_compute.
Defined.

Lemma heading_task_lost_witness :
  Dispatch.parseTaskFromBrief (Brief.renderAgentBriefText
    (Brief.Brief "Fix the parser:" "ops" ["a"]%string [] [] [])) = Throw "Task section is present but empty."%string.
Proof.
  exact (heading_task_lost (Brief.Brief "Fix the parser:" "ops" ["a"]%string [] [] []) "Fix the parser:" []
    eq_refl eq_refl eq_refl).
Defined.

(** An inline task, and a message whose task is taken from the brief. *)
Example inline_task :
  Dispatch.parseTaskFromBrief ("notes" +:+ String newline ("  task:  do x" +:+ String newline ("and y" +:+ String newline "Owner: me"))) =
    Ok ("do x" +:+ String newline ("and y" +:+ String newline "Owner: me"))%string.
Proof. by vm_compute. Qed.

Example traversal_refused :
  Dispatch.validateOwnedPaths ["a"; "b/../c"]%string =
    Throw ("ownedPaths[1] cannot contain parent traversal segments (" +:+ in_quotes ".." +:+ ").")%string /\
  Dispatch.validateOwnedPaths ["C:\x\.\y"; "/z//w/"; "/z/w"]%string = Ok ["/z/w"; "C:/x/y"]%string.
Proof. by vm_compute. Qed.
