(* ===== verification/CliProxy.v ===== *)
(** * The proxy explainer ([packages/cli-proxy/src])

    Arguments ([arg-parser.ts]), the inspection of the environment ([env-inspector.ts]),
    the explanation of routes ([route-explainer.ts]), which repeats part of the matching
    of [ProxyCore], their texts ([formatter.ts]) and the dispatch ([cli-runner.ts]).  The
    resolver of the optional agent package is an argument; so are the URL constructor and
    [JSON.stringify]. *)

From S2P Require Import Prelude ProxyCore.
Local Open Scope Z_scope.

(** ** Arguments *)

Inductive CliCommand : Type :=
| HelpCommand
| EnvCommand (json : bool)
| ExplainCommand (json withAgent : bool) (urls : list string).

Inductive error_code : Type := unknown_command | unknown_option | missing_url | unexpected_argument.

Record CliParseError : Type := ParseError { e_code : error_code; e_message : string; e_hint : string }.

Abbreviation CliParseResult := (result CliParseError CliCommand).

Definition is_help_flag (t : string) : bool := String.eqb t "-h" || String.eqb t "--help".
Definition is_json_flag (t : string) : bool := String.eqb t "-j" || String.eqb t "--json".

Definition parse_fail {A} (c : error_code) (message hint : string) : result CliParseError A :=
  Throw (ParseError c message hint).

(** [parseLeadingGlobalFlags]: help, json, and the arguments that are left. *)
Fixpoint parseLeadingGlobalFlags (argv : list string) (help json : bool) :
    result CliParseError (bool * bool * list string) :=
  match argv with
  | [] => Ok (help, json, [])
  | EmptyString :: _ => Ok (help, json, argv)
  | token :: rest =>
      if is_help_flag token then parseLeadingGlobalFlags rest true json
      else if is_json_flag token then parseLeadingGlobalFlags rest help true
      else if starts_with "-" token then
        parse_fail unknown_option ("Unknown option: " +:+ token) "Use --help to see supported options."
      else Ok (help, json, argv)
  end.

Definition parseHelpCommand (rest : list string) : CliParseResult :=
  match rest with
  | [] => Ok HelpCommand
  | t :: _ => parse_fail unexpected_argument ("Unexpected argument for help: " +:+ t) "Run 'commandrelay-cli-proxy help'."
  end.

Fixpoint parseEnvCommand (rest : list string) (json : bool) : CliParseResult :=
  match rest with
  | [] => Ok (EnvCommand json)
  | token :: rest =>
      if is_json_flag token then parseEnvCommand rest true
      else if is_help_flag token then Ok HelpCommand
      else if starts_with "-" token then
        parse_fail unknown_option ("Unknown option for env: " +:+ token) "Supported: --json, --help"
      else
        parse_fail unexpected_argument ("Unexpected argument for env: " +:+ token)
          "The env command does not accept positional arguments."
  end.

Definition explain_command (json withAgent : bool) (urls : list string) : CliParseResult :=
  match urls with
  | [] => parse_fail missing_url "The explain command requires at least one URL."
            "Example: commandrelay-cli-proxy explain https://example.com"
  | _ => Ok (ExplainCommand json withAgent urls)
  end.

Fixpoint parseExplainCommand (rest : list string) (json withAgent : bool) (urls : list string) : CliParseResult :=
  match rest with
  | [] => explain_command json withAgent urls
  | token :: rest =>
      if is_empty token then parseExplainCommand rest json withAgent urls
      else if String.eqb token "--" then explain_command json withAgent (urls ++ rest)
      else if is_json_flag token then parseExplainCommand rest true withAgent urls
      else if is_help_flag token then Ok HelpCommand
      else if String.eqb token "--with-agent" then parseExplainCommand rest json true urls
      else if String.eqb token "--no-agent" then parseExplainCommand rest json false urls
      else if starts_with "-" token then
        parse_fail unknown_option ("Unknown option for explain: " +:+ token)
          "Supported: --json, --with-agent, --no-agent, --help"
      else parseExplainCommand rest json withAgent (urls ++ [token])
  end.

Definition parseCliArgs (argv : list string) : CliParseResult :=
  rbind (parseLeadingGlobalFlags argv false false) (fun '(help, json, args_left) =>
  if (help : bool) then Ok HelpCommand
  else
    match args_left with
    | [] | EmptyString :: _ => Ok HelpCommand
    | command :: rest =>
        if String.eqb command "help" then parseHelpCommand rest
        else if String.eqb command "env" then parseEnvCommand rest json
        else if String.eqb command "explain" then parseExplainCommand rest json true []
        else parse_fail unknown_command ("Unknown command: " +:+ command)
               "Use 'commandrelay-cli-proxy help' to see available commands."
    end).

(** ** The environment *)

Inductive logical_name : Type := n_httpProxy | n_httpsProxy | n_allProxy | n_noProxy.

Definition logical_text (n : logical_name) : string :=
  match n with n_httpProxy => "httpProxy" | n_httpsProxy => "httpsProxy" | n_allProxy => "allProxy" | n_noProxy => "noProxy" end.
Definition LOWERCASE (n : logical_name) : string :=
  match n with n_httpProxy => "http_proxy" | n_httpsProxy => "https_proxy" | n_allProxy => "all_proxy" | n_noProxy => "no_proxy" end.
Definition UPPERCASE (n : logical_name) : string :=
  match n with n_httpProxy => "HTTP_PROXY" | n_httpsProxy => "HTTPS_PROXY" | n_allProxy => "ALL_PROXY" | n_noProxy => "NO_PROXY" end.

Definition SNAPSHOT_KEYS : list string :=
  ["http_proxy"; "HTTP_PROXY"; "https_proxy"; "HTTPS_PROXY"; "all_proxy"; "ALL_PROXY"; "no_proxy"; "NO_PROXY";
   "REQUEST_METHOD"; "request_method"]%string.

Record ProxyVariableResolution : Type := VariableResolution {
  logicalName : logical_name;
  selectedKey : option string;
  selectedValue : option string;
  lowerValue : option string;
  upperValue : option string;
  ignoredUppercase : bool
}.

Record ProxyEnvironmentInspection : Type := Inspection {
  cgiMode : bool;
  variables : list (string * option string);
  resolution : list ProxyVariableResolution;
  settings : ProxySettings
}.

Definition buildResolution (n : logical_name) (env : ProxyEnvironment) (ignoreUppercase : bool) :
    ProxyVariableResolution :=
  let lower := env (LOWERCASE n) in
  let upper := env (UPPERCASE n) in
  let selected :=
    match lower, upper with
    | Some v, _ => Some (LOWERCASE n, v)
    | None, Some v => if ignoreUppercase then None else Some (UPPERCASE n, v)
    | None, None => None
    end in
  VariableResolution n (fst <$> selected) (snd <$> selected) lower upper
    (ignoreUppercase && bool_decide (is_Some upper) && bool_decide (lower = None)).

Section Explainer.
Context (URL_parse : string -> option url) (isIP : string -> Z).

Definition inspectProxyEnvironment (env : ProxyEnvironment) : ProxyEnvironmentInspection :=
  let cgi := negb (is_empty (default EmptyString (nullish (env "REQUEST_METHOD"%string) (env "request_method"%string)))) in
  Inspection cgi ((fun k => (k, env k)) <$> SNAPSHOT_KEYS)
    [buildResolution n_httpProxy env cgi; buildResolution n_httpsProxy env false;
     buildResolution n_allProxy env false; buildResolution n_noProxy env false]
    (loadProxySettings URL_parse isIP env).

(** ** Routes *)

Inductive ProxySettingSource : Type := from_httpProxy | from_httpsProxy | from_allProxy.
Inductive RouteDecision : Type := decide_proxy | decide_direct | decide_error.
Inductive AgentSupport : Type := agent_enabled | agent_unavailable | agent_disabled.

Record ProxyAgentResolutionDetail : Type := AgentDetail {
  adapter : string;
  agentClass : option string;
  viaProxy : bool;
  agent_proxyUrl : option string;
  agent_error : option string
}.

Record RouteExplanation : Type := Explanation {
  input : string;
  decision : RouteDecision;
  targetUrl : option string;
  targetProtocol : option string;
  proxyUrl : option string;
  proxySource : option ProxySettingSource;
  matchedNoProxyRule : option NoProxyRule;
  reason : string;
  agent : option ProxyAgentResolutionDetail;
  error : option string
}.

(** [matchesRuleHost], [normalizeHost], [getPort] and [formatNoProxyRule] of this package. *)
Definition explainer_matchesRuleHost (targetHost : string) (rule : NoProxyRule) : bool :=
  if String.eqb targetHost (rule_host rule) then true
  else if negb (matchSubdomains rule) then false
  else if negb (ends_with (rule_host rule) targetHost) then false
  else
    let boundaryIndex := str_len targetHost - str_len (rule_host rule) - 1 in
    (0 <=? boundaryIndex) && bool_decide (String.get (Z.to_nat boundaryIndex) targetHost = Some "."%char).

Definition explainer_normalizeHost (hostname : string) : option string :=
  let trimmed := to_lower (trim hostname) in
  if is_empty trimmed then None
  else
    let unbracketed := if starts_with "[" trimmed && ends_with "]" trimmed
                       then str_take (String.length trimmed - 2) (str_drop 1 trimmed) else trimmed in
    let normalized := if ends_with "." unbracketed
                      then str_take (String.length unbracketed - 1) unbracketed else unbracketed in
    if is_empty normalized || includes "/" normalized || includes " " normalized then None else Some normalized.

Definition getPort (target : url) : Z :=
  let default_port := if String.eqb (protocol target) "https:" || String.eqb (protocol target) "wss:" then 443 else 80 in
  if is_empty (url_port target) then default_port
  else match num_safe_integer (parse_int (url_port target)) with
       | Some parsed => if (0 <? parsed) && (parsed <=? 65535) then parsed else default_port
       | None => default_port
       end.

Definition formatNoProxyRule (rule : NoProxyRule) : string :=
  let host := if matchSubdomains rule && negb (String.eqb (rule_host rule) "*")
              then ("*." +:+ rule_host rule)%string else rule_host rule in
  match rule_port rule with None => host | Some p => (host +:+ ":" +:+ int_to_string p)%string end.

Definition rule_applies (host : string) (port : Z) (rule : NoProxyRule) : bool :=
  if String.eqb (rule_host rule) "*" then true
  else if negb (explainer_matchesRuleHost host rule) then false
  else match rule_port rule with None => true | Some p => p =? port end.

Definition findMatchingNoProxyRule (target : url) (rules : list NoProxyRule) : option NoProxyRule :=
  host ← explainer_normalizeHost (hostname target);
  head (filter (fun rule => rule_applies host (getPort target) rule = true) rules).

Definition resolveProxySource (p : string) (s : ProxySettings) (proxyUrl : option string) : option ProxySettingSource :=
  let equals (setting : option string) := bool_decide (setting = proxyUrl) in
  match proxyUrl with
  | None | Some EmptyString => None
  | Some _ =>
      if bool_decide (p ∈ ["http:"; "ws:"]%string) then
        if equals (httpProxy s) then Some from_httpProxy
        else if equals (allProxy s) then Some from_allProxy else None
      else if bool_decide (p ∈ ["https:"; "wss:"]%string) then
        if equals (httpsProxy s) then Some from_httpsProxy
        else if equals (httpProxy s) then Some from_httpProxy
        else if equals (allProxy s) then Some from_allProxy else None
      else if equals (allProxy s) then Some from_allProxy else None
  end.

Definition source_text (s : ProxySettingSource) : string :=
  match s with from_httpProxy => "httpProxy" | from_httpsProxy => "httpsProxy" | from_allProxy => "allProxy" end.

Definition explainOneRoute (agentResolver : option (url -> ProxyAgentResolutionDetail)) (s : ProxySettings)
    (text : string) : RouteExplanation :=
  match URL_parse text with
  | None =>
      Explanation text decide_error None None None None None "Target is not a valid URL." None
        (Some "invalid_target_url"%string)
  | Some target =>
      let bypass := shouldBypassProxy target (noProxy s) in
      let matched := if bypass then findMatchingNoProxyRule target (noProxy s) else None in
      let proxy := resolve_for_url target s in
      let source := resolveProxySource (protocol target) s proxy in
      let '(d, why) :=
        if bypass then
          (decide_direct,
           match matched with
           | Some rule => "Direct route due to NO_PROXY rule " +:+ formatNoProxyRule rule +:+ "."
           | None => "Direct route due to NO_PROXY bypass."
           end)
        else match proxy with
             | Some (String c r) =>
                 (decide_proxy,
                  match source with
                  | Some src => "Route uses " +:+ source_text src +:+ " with proxy " +:+ String c r +:+ "."
                  | None => "Route uses proxy " +:+ String c r +:+ "."
                  end)
             | _ => (decide_direct, "Direct route because no proxy setting matched this protocol.")
             end%string in
      Explanation text d (Some (href target)) (Some (protocol target)) proxy source matched why
        ((fun r => r target) <$> agentResolver) None
  end.

Record ExplainRoutesResult : Type := Routes {
  inspection : ProxyEnvironmentInspection;
  routes : list RouteExplanation;
  agentSupport : AgentSupport
}.

(** [agentResolver] of the options: [null], given, or not given and loaded if installed. *)
Inductive resolver_option : Type :=
| NullResolver
| GivenResolver (r : url -> ProxyAgentResolutionDetail)
| LoadedResolver (installed : option (url -> ProxyAgentResolutionDetail)).

Definition resolveAgentResolver (enableAgent : bool) (o : resolver_option) :
    AgentSupport * option (url -> ProxyAgentResolutionDetail) :=
  if negb enableAgent then (agent_disabled, None)
  else match o with
       | NullResolver | LoadedResolver None => (agent_unavailable, None)
       | GivenResolver r | LoadedResolver (Some r) => (agent_enabled, Some r)
       end.

Definition explainProxyRoutes (inputs : list string) (env : ProxyEnvironment) (enableAgent : bool)
    (o : resolver_option) : ExplainRoutesResult :=
  let inspection := inspectProxyEnvironment env in
  let '(support, resolver) := resolveAgentResolver enableAgent o in
  Routes inspection (explainOneRoute resolver (settings inspection) <$> inputs) support.

(** ** Texts *)

Definition formatNullable (v : option string) : string := default "<unset>" v.

Definition formatParseError (e : CliParseError) : string :=
  join (String "010" "")
    (("Error: " +:+ e_message e)%string :: if is_empty (e_hint e) then [] else ["Hint: " +:+ e_hint e]%string).

Definition formatEnvironmentInspectionHuman (i : ProxyEnvironmentInspection) : list string :=
  (["Proxy Environment Inspection"; ""; "CGI mode: " +:+ if cgiMode i then "yes" else "no"; "Environment variables:"]%string ++
   ((fun '(k, v) => "  " +:+ k +:+ "=" +:+ formatNullable v)%string <$> variables i) ++
   [""; "Resolution:"]%string ++
   ((fun r => "  " +:+ logical_text (logicalName r) +:+ ": " +:+
       match selectedKey r with
       | Some (String c k) => String c k +:+ "=" +:+ formatNullable (selectedValue r)
       | _ => "<unset>"
       end +:+ (if ignoredUppercase r then " (uppercase ignored)" else ""))%string <$> resolution i) ++
   [""; "Effective settings:";
    "  httpProxy=" +:+ formatNullable (httpProxy (settings i));
    "  httpsProxy=" +:+ formatNullable (httpsProxy (settings i));
    "  allProxy=" +:+ formatNullable (allProxy (settings i))]%string ++
   match noProxy (settings i) with
   | [] => ["  noProxyRules=<none>"%string]
   | rules => "  noProxyRules:"%string :: ((fun r => "    - " +:+ formatNoProxyRule r)%string <$> rules)
   end).

Definition support_text (s : AgentSupport) : string :=
  match s with agent_enabled => "enabled" | agent_unavailable => "unavailable" | agent_disabled => "disabled" end.
Definition decision_text (d : RouteDecision) : string :=
  match d with decide_proxy => "proxy" | decide_direct => "direct" | decide_error => "error" end.

Definition route_lines (index : nat) (r : RouteExplanation) : list string :=
  ([""; "[" +:+ int_to_string (Z.of_nat index + 1) +:+ "] " +:+ input r;
    "  decision: " +:+ decision_text (decision r)]%string ++
   match error r with
   | Some e => ["  error: " +:+ e; "  reason: " +:+ reason r]%string
   | None =>
       ["  target: " +:+ formatNullable (targetUrl r); "  protocol: " +:+ formatNullable (targetProtocol r);
        "  proxyUrl: " +:+ formatNullable (proxyUrl r); "  proxySource: " +:+ formatNullable (source_text <$> proxySource r);
        "  matchedNoProxyRule: " +:+ match matchedNoProxyRule r with Some rule => formatNoProxyRule rule | None => "<none>" end;
        "  reason: " +:+ reason r]%string ++
       match agent r with
       | Some a => ["  agent.adapter: " +:+ adapter a; "  agent.class: " +:+ formatNullable (agentClass a);
                    "  agent.viaProxy: " +:+ (if viaProxy a then "true" else "false");
                    "  agent.proxyUrl: " +:+ formatNullable (agent_proxyUrl a);
                    "  agent.error: " +:+ formatNullable (agent_error a)]%string
       | None => []
       end
   end).

Definition formatExplainRoutesHuman (r : ExplainRoutesResult) : list string :=
  ["Proxy Route Explain"; "Agent support: " +:+ support_text (agentSupport r)]%string ++
  concat (imap route_lines (routes r)).

(** ** The dispatch: what is printed, on which stream, and the exit code *)

Inductive printed : Type :=
| PrintHelp
| PrintParseError (e : CliParseError)
| PrintInspection (json : bool) (i : ProxyEnvironmentInspection)
| PrintRoutes (json : bool) (r : ExplainRoutesResult).

Definition runCli (argv : list string) (env : ProxyEnvironment) (o : resolver_option) : printed * Z :=
  match parseCliArgs argv with
  | Throw e => (PrintParseError e, 2)
  | Ok HelpCommand => (PrintHelp, 0)
  | Ok (EnvCommand json) => (PrintInspection json (inspectProxyEnvironment env), 0)
  | Ok (ExplainCommand json withAgent urls) => (PrintRoutes json (explainProxyRoutes urls env withAgent o), 0)
  end.

(** ** The explanation is that of the router *)

Lemma explainer_matches_core host rule : explainer_matchesRuleHost host rule = matchesRuleHost host rule.
Proof.
  unfold explainer_matchesRuleHost, matchesRuleHost, isSubdomainOf.
  destruct (String.eqb_spec host (rule_host rule)) as [->|Hne]; [by rewrite bool_decide_eq_true_2|].
  by rewrite (bool_decide_eq_false_2 (host = rule_host rule)) by done.
Qed.

(** The port text of a URL: digits, or nothing. *)
Definition port_ok (u : url) : Prop := str_forallb is_num (url_port u) = true.

Lemma getPort_core u : port_ok u -> getPort u = getTargetPort u.
Proof.
  intros Hp. unfold getPort, getTargetPort, parsePort. rewrite Hp. cbn [negb].
  replace (String.eqb (protocol u) "https:" || String.eqb (protocol u) "wss:")
    with (bool_decide (protocol u ∈ ["https:"; "wss:"]%string)).
  2: { apply eq_true_iff_eq. rewrite bool_decide_eq_true, orb_true_iff, !String.eqb_eq. set_solver. }
  destruct (is_empty (url_port u)); [done|]. destruct (num_safe_integer _) as [p|]; [|done].
  destruct (Z.ltb_spec 0 p), (Z.leb_spec p 65535), (Z.leb_spec p 0), (Z.ltb_spec 65535 p); try lia; done.
Qed.

Lemma rule_applies_core host port rule :
  rule_applies host port rule =
    (if bool_decide (rule_host rule = "*"%string) then true
     else if negb (matchesRuleHost host rule) then false
     else match rule_port rule with None => true | Some p => p =? port end).
Proof.
  unfold rule_applies. rewrite explainer_matches_core.
  destruct (String.eqb_spec (rule_host rule) "*") as [->|Hne]; [done|].
  by rewrite (bool_decide_eq_false_2 (rule_host rule = "*"%string)).
Qed.

(** The explainer names a NO_PROXY rule exactly when the router bypasses the proxy. *)
Lemma found_iff_bypass u rules : port_ok u ->
  is_Some (findMatchingNoProxyRule u rules) <-> shouldBypassProxy u rules = true.
Proof.
  intros Hp. unfold findMatchingNoProxyRule, shouldBypassProxy.
  change (explainer_normalizeHost (hostname u)) with (normalizeHost (hostname u)).
  destruct (normalizeHost (hostname u)) as [host|]; simpl.
  2: { split; [by intros [? ?]|by destruct (length rules =? 0)%nat]. }
  rewrite (getPort_core u Hp). set (port := getTargetPort u).
  match goal with |- _ <-> (if _ then false else existsb ?q rules) = true => set (p := q) end. replace (length rules =? 0)%nat with (match rules with [] => true | _ => false end) by (by destruct rules).
  assert (Hhead : is_Some (head (filter (fun rule => rule_applies host port rule = true) rules)) <-> existsb p rules = true).
  { induction rules as [|rule rules IH]; simpl; [split; [by intros [? ?]|done]|].
    rewrite filter_cons. unfold p at 1. rewrite <- rule_applies_core.
    destruct (rule_applies host port rule) eqn:Hr.
    - rewrite decide_True by done. simpl. split; [done|by eexists].
    - rewrite decide_False by done. exact IH. }
  rewrite Hhead. by destruct rules.
Qed.

(** A NO_PROXY rule applies to a host and a port: it is [*], or it covers the host and
    names no port or that one. *)
Definition applies_to (host : string) (port : Z) (rule : NoProxyRule) : Prop :=
  rule_host rule = "*"%string \/
  (covers host rule /\ (rule_port rule = None \/ rule_port rule = Some port)).

Lemma rule_applies_iff host port rule : rule_applies host port rule = true <-> applies_to host port rule.
Proof.
  unfold rule_applies, applies_to. rewrite explainer_matches_core.
  destruct (String.eqb_spec (rule_host rule) "*") as [He|Hne]; [split; [by left|done]|].
  destruct (matchesRuleHost host rule) eqn:Hm; simpl.
  - apply matchesRuleHost_iff in Hm. destruct (rule_port rule) as [q|].
    + rewrite Z.eqb_eq. split; [intros ->; right; split; [done|by right]|].
      intros [?|[_ [?|[= ->]]]]; done.
    + split; [intros _; right; split; [done|by left]|done].
  - split; [done|]. intros [?|[Hc _]]; [done|]. apply matchesRuleHost_iff in Hc. by rewrite Hm in Hc.
Qed.

Lemma head_filter {A} (P : A -> Prop) `{forall x, Decision (P x)} l x : head (filter P l) = Some x ->
  exists before after, l = before ++ x :: after /\ P x /\ Forall (fun y => ~ P y) before.
Proof.
  induction l as [|y l IH]; [done|]. rewrite filter_cons. destruct (decide (P y)) as [Hy|Hy].
  - intros [= ->]. by exists [], l.
  - intros (b & a & -> & Hx & Hb)%IH. exists (y :: b), a. split_and!; [done|done|by constructor].
Qed.

(** The rule that is named is the first that applies. *)
Lemma found_first u rules rule : port_ok u -> findMatchingNoProxyRule u rules = Some rule ->
  exists host before after, normalizeHost (hostname u) = Some host /\ rules = before ++ rule :: after /\
    applies_to host (getTargetPort u) rule /\
    Forall (fun r => ~ applies_to host (getTargetPort u) r) before.
Proof.
  intros Hp. unfold findMatchingNoProxyRule.
  change (explainer_normalizeHost (hostname u)) with (normalizeHost (hostname u)). rewrite (getPort_core u Hp).
  destruct (normalizeHost (hostname u)) as [host|]; [|done]. cbn [mbind option_bind].
  intros (b & a & -> & Hx & Hb)%head_filter. exists host, b, a. split_and!; [done|done|by apply rule_applies_iff|].
  eapply Forall_impl; [exact Hb|]. intros r Hr. by rewrite <- rule_applies_iff.
Qed.

(** C36. The explanation of a route tells the truth about the router: the decision is
    "proxy" exactly when the router uses a proxy, and then its url is that of the
    setting named as its source; a NO_PROXY rule is named exactly when the router
    bypasses the proxy, and it is the first of the settings' rules that applies to the
    host and port of the target. *)
Theorem explanation_true resolver s text u : URL_parse text = Some u -> port_ok u ->
  httpProxy s <> Some EmptyString -> httpsProxy s <> Some EmptyString -> allProxy s <> Some EmptyString ->
  let e := explainOneRoute resolver s text in
  proxyUrl e = resolve_for_url u s /\
  (decision e = decide_proxy <-> is_Some (resolve_for_url u s)) /\
  (is_Some (resolve_for_url u s) ->
   exists src, proxySource e = Some src /\
     match src with from_httpProxy => httpProxy s | from_httpsProxy => httpsProxy s | from_allProxy => allProxy s end = proxyUrl e) /\
  (is_Some (matchedNoProxyRule e) <-> shouldBypassProxy u (noProxy s) = true) /\
  (forall rule, matchedNoProxyRule e = Some rule ->
   exists host before after, normalizeHost (hostname u) = Some host /\ noProxy s = before ++ rule :: after /\
     applies_to host (getTargetPort u) rule /\
     Forall (fun r => ~ applies_to host (getTargetPort u) r) before).
Proof.
  intros Hu Hport Hh Hs Ha. cbv zeta. unfold explainOneRoute. rewrite Hu. cbv zeta.
  assert (Hnone : shouldBypassProxy u (noProxy s) = true -> resolve_for_url u s = None)
    by (intros H; unfold resolve_for_url; by rewrite H).
  assert (Hne : resolve_for_url u s <> Some EmptyString).
  { unfold resolve_for_url, nullish. repeat case_match; simplify_eq; congruence. }
  assert (Hsource : is_Some (resolve_for_url u s) -> exists src,
    resolveProxySource (protocol u) s (resolve_for_url u s) = Some src /\
    match src with from_httpProxy => httpProxy s | from_httpsProxy => httpsProxy s | from_allProxy => allProxy s end = resolve_for_url u s).
  { intros [p Hp]. unfold resolveProxySource. rewrite Hp. destruct p as [|c r]; [done|]. revert Hp. unfold resolve_for_url.
    destruct (shouldBypassProxy u (noProxy s)); [done|].
    destruct (bool_decide (protocol u ∈ ["http:"; "ws:"]%string)); [|destruct (bool_decide (protocol u ∈ ["https:"; "wss:"]%string))];
      unfold nullish; intros Hp; repeat case_bool_decide;
      first [by exists from_httpProxy | by exists from_httpsProxy | by exists from_allProxy
            | exfalso; destruct (httpProxy s), (httpsProxy s), (allProxy s); congruence]. }
  destruct (shouldBypassProxy u (noProxy s)) eqn:Hb.
  - rewrite (Hnone eq_refl) in *. cbn [proxyUrl decision proxySource matchedNoProxyRule].
    split; [done|]. split; [split; [done|by intros [? ?]]|]. split; [by intros [? ?]|].
    split; [split; [done|]; intros _; by apply found_iff_bypass|].
    intros rule. by apply found_first.
  - destruct (resolve_for_url u s) as [[|c r]|]; [done| |]; cbn [proxyUrl decision proxySource matchedNoProxyRule].
    + split; [done|]. split; [by split; [eexists|]|]. split; [exact Hsource|]. split; [by split; [intros [? ?]|]|done].
    + split; [done|]. split; [split; [done|by intros [? ?]]|]. split; [by intros [? ?]|]. split; [by split; [intros [? ?]|]|done].
Qed.

(** ** The inspection *)

(** The variable that the inspection reports as selected is the one the settings are
    made from - except for NO_PROXY, where the settings prefer the upper-case variable
    and the inspection the lower-case one. *)
Theorem inspection_resolution env :
  let i := inspectProxyEnvironment env in
  let s := settings i in
  exists rh rs ra rn, resolution i = [rh; rs; ra; rn] /\
    httpProxy s = sanitizeProxyUrl URL_parse (selectedValue rh) /\
    httpsProxy s = sanitizeProxyUrl URL_parse (selectedValue rs) /\
    allProxy s = sanitizeProxyUrl URL_parse (selectedValue ra) /\
    selectedValue rn = nullish (env "no_proxy"%string) (env "NO_PROXY"%string) /\
    noProxy s = parseNoProxy URL_parse isIP (default "" (nullish (env "NO_PROXY"%string) (env "no_proxy"%string)))%string.
Proof.
  cbv zeta. unfold inspectProxyEnvironment. cbn [resolution settings].
  do 4 eexists. split; [reflexivity|]. unfold loadProxySettings, readProxyEnv, readRawEnv, nullish, is_cgi, buildResolution.
  cbn [httpProxy httpsProxy allProxy noProxy selectedValue LOWERCASE UPPERCASE].
  destruct (env "http_proxy"%string), (env "HTTP_PROXY"%string), (env "https_proxy"%string), (env "HTTPS_PROXY"%string),
    (env "all_proxy"%string), (env "ALL_PROXY"%string), (env "no_proxy"%string), (env "NO_PROXY"%string);
    (repeat split); simpl; try done;
    unfold readRawEnv, nullish; by destruct (negb (is_empty _)).
Qed.
End Explainer.

(** ** Commands that are accepted *)

Lemma explain_urls rest json withAgent urls c : parseExplainCommand rest json withAgent urls = Ok c ->
  c = HelpCommand \/ exists j w us, c = ExplainCommand j w us /\ us <> [].
Proof.
  assert (Hfin : forall j w us, explain_command j w us = Ok c -> c = HelpCommand \/ exists j w us, c = ExplainCommand j w us /\ us <> []).
  { intros j w us. unfold explain_command. destruct us; [done|]. intros [= <-]. right. by do 3 eexists. }
  revert json withAgent urls. induction rest as [|t rest IH]; intros json withAgent urls; cbn [parseExplainCommand]; [apply Hfin|].
  repeat match goal with |- (if ?b then _ else _) = _ -> _ => destruct b end; try apply IH; try apply Hfin; [|done].
  intros [= <-]. by left.
Qed.

(** A command line is either refused with exit code 2 or runs with exit code 0, and
    routes are only explained for at least one URL. *)
Theorem cli_exit URL_parse isIP argv env o :
  let r := runCli URL_parse isIP argv env o in
  (r.2 = 2 <-> exists e, r.1 = PrintParseError e) /\ (r.2 = 0 \/ r.2 = 2) /\
  (forall json x, r.1 = PrintRoutes json x -> routes x <> []).
Proof.
  cbv zeta. unfold runCli. destruct (parseCliArgs argv) as [[|json|json withAgent urls]|e] eqn:Hp; cbn [fst snd].
  - split; [split; [done|by intros [? ?]]|]. by split; [left|].
  - split; [split; [done|by intros [? ?]]|]. by split; [left|].
  - split; [split; [done|by intros [? ?]]|]. split; [by left|]. intros j x [= <- <-].
    unfold explainProxyRoutes. destruct (resolveAgentResolver withAgent o). cbn [routes].
    assert (Hne : urls <> []); [|by destruct urls].
    unfold parseCliArgs in Hp. apply rbind_Ok in Hp as ([[help js] args_left] & _ & Hp). destruct help; [done|].
    destruct args_left as [|[|c l] rest]; [done..|].
    destruct (String.eqb _ "help"); [destruct rest; discriminate|].
    destruct (String.eqb _ "env").
    { exfalso. clear -Hp. revert Hp. revert js. induction rest as [|t rest IH]; intros js; cbn [parseEnvCommand]; [done|].
      repeat match goal with |- (if ?b then _ else _) = _ -> _ => destruct b end; try done. apply IH. }
    destruct (String.eqb _ "explain"); [|done].
    destruct (explain_urls _ _ _ _ _ Hp) as [?|(j & w & us & [= <- <- <-] & Hus)]; [done|exact Hus].
  - split; [split; [by eexists|done]|]. by split; [right|].
Qed.

(** ** Concrete inputs *)

Definition demo_target_url (s : string) : option url :=
  if String.eqb s "https://api.example.com" then Some (Url "https:" "api.example.com" "" s) else
  if String.eqb s "http://proxy:3128" then Some (Url "http:" "proxy" "3128" s) else None.

Definition demo_settings : ProxySettings :=
  Settings (Some "http://proxy:3128"%string) None None [Rule "internal.example.com" None true].

Lemma explanation_true_witness :
  let e := explainOneRoute demo_target_url None demo_settings "https://api.example.com" in
  decision e = decide_proxy /\ proxySource e = Some from_httpProxy /\ proxyUrl e = Some "http://proxy:3128"%string.
Proof.
  cbv zeta. split; [by vm_compute|]. split; [by vm_compute|].
  exact (proj1 (explanation_true demo_target_url None demo_settings "https://api.example.com"
    (Url "https:" "api.example.com" "" "https://api.example.com") eq_refl eq_refl
    ltac:(discriminate) ltac:(discriminate) ltac:(discriminate))).
Defined.

(** With both NO_PROXY variables set, the report shows the one that is not used. *)
Example no_proxy_misreported :
  let env := fun k => if String.eqb k "no_proxy" then Some "lower"%string
                      else if String.eqb k "NO_PROXY" then Some "upper"%string else None in
  let i := inspectProxyEnvironment demo_target_url (fun _ => 0) env in
  option_map selectedKey (last (resolution i)) = Some (Some "no_proxy"%string) /\
  rule_host <$> noProxy (settings i) = ["upper"%string].
Proof. by vm_compute. Qed.
