(* ===== verification/ProxyResolvers.v ===== *)
(** * Agents for axios and got ([packages/proxy-axios/src/proxy-axios-agent-resolver.ts],
    [packages/proxy-got/src/proxy-got-agent-resolver.ts], [errors.ts])

    Both packages derive the target of a request from its options, ask a resolver for
    the agent and put it into the options.  They are written against the resolver's
    interface, the class [Resolver]; the agent factory of [ProxyAgents] is its instance.
    [new URL(text)] is [URL_parse], [new URL(text, base)] is [URL_resolve]; the path of
    a URL is read and written by [pathname] and [set_pathname].  An options object is a
    record of the fields the code names and its other own properties. *)

From S2P Require Import Prelude JsMap ProxyCore AgentCache ProxyAgents.
Local Open Scope Z_scope.

(** A resolver with state [S]: what [resolve(url)] returns or throws. *)
Class Resolver (S : Type) : Type :=
  route : url -> S -> result agent_error ProxyAgentResolution * S.

(** What callers rely on: an agent comes with a proxy URL, and exactly then is the
    request said to go through a proxy. *)
Class ResolverLaws (S : Type) `{Resolver S} : Prop :=
  route_consistent u s r : (route u s).1 = Ok r ->
    bool_decide (is_Some (agent r)) = viaProxy r /\
    bool_decide (is_Some (proxyUrl r)) = viaProxy r /\
    (fromCache r = true -> viaProxy r = true).

Section FactoryResolver.
Context (URL_parse : string -> option url).
Context (constructs : agent_spec -> bool) (has : agent_spec -> cleanup -> bool).

#[local] Instance factory_resolver : Resolver ProxyAgentFactory :=
  fun u f => resolve URL_parse constructs has (TargetUrl u) f.

#[local] Instance factory_resolver_laws : ResolverLaws ProxyAgentFactory.
Proof.
  intros u f r. unfold route, factory_resolver, resolve. simpl. unfold resolve_url.
  destruct (agent_resolveProxyForUrl u (settings f)) as [p|]; [|by intros [= <-]].
  destruct (is_empty p); [by intros [= <-]|].
  destruct (get _ _) as [[id|] c]; [by intros [= <-]|].
  destruct (createProxyAgent _ _ _ _) as [a|e]; [|done]. destruct (set _ _ _). by intros [= <-].
Qed.
End FactoryResolver.

(** ** axios *)

Module Axios.

Inductive axios_error : Type :=
| AxiosTypeError (message : string)
| NativeInvalidUrl
| ResolverError (e : agent_error).

Inductive proxy_field : Type :=
| ProxyFalse
| ProxyConfig (host : string) (port : option Z).

Record ProxyAxiosRequestConfig : Type := AxiosConfig {
  url_field : option target;
  baseURL : option target;
  httpAgent : option nat;
  httpsAgent : option nat;
  proxy : option proxy_field;
  rest : list (string * jsval)
}.

Record ProxyAxiosApplyOptions : Type := ApplyOptions {
  mutate : option bool;
  disableAxiosProxyConfig : option bool
}.

Record ProxyAxiosRoutingMetadata : Type := Routing {
  r_viaProxy : bool;
  r_proxyUrl : option string;
  r_fromCache : bool
}.

(** [string | URL | { url, baseURL }]. *)
Inductive ProxyAxiosTarget : Type :=
| Plain (t : target)
| Input (url_field baseURL : option target).

Definition is_ascii_letter (c : ascii) : bool := is_alpha c.
Definition scheme_char (c : ascii) : bool := is_alnum c || one_of "+.-" c.

(** The rest of [ABSOLUTE_URL_PREFIX_PATTERN] after its first letter. *)
Fixpoint scheme_tail (s : string) : bool :=
  match s with
  | EmptyString => false
  | String c s => Ascii.eqb c ":" || (scheme_char c && scheme_tail s)
  end.

(** [ABSOLUTE_URL_PREFIX_PATTERN.test]. *)
Definition has_absolute_prefix (s : string) : bool :=
  match s with
  | EmptyString => false
  | String c s => is_ascii_letter c && scheme_tail s
  end.

Definition normalizeTargetInput (t : ProxyAxiosTarget) (base : option target) :
    option target * option target :=
  match t with
  | Plain t => (Some t, base)
  | Input u b => (u, b)
  end.

Definition ensureNonEmptyUrl (u : option target) : result axios_error string :=
  match u with
  | Some (TargetString s) =>
      let trimmed := trim s in
      if is_empty trimmed then Throw (AxiosTypeError "axios_request_url_required") else Ok trimmed
  | _ => Throw (AxiosTypeError "axios_request_url_required")
  end.

Definition toAxiosResolution (r : ProxyAgentResolution) : ProxyAgentResolution :=
  Resolution (agent r) (proxyUrl r) (viaProxy r) (fromCache r).

Definition toRoutingMetadata (r : ProxyAgentResolution) : ProxyAxiosRoutingMetadata :=
  Routing (viaProxy r) (proxyUrl r) (fromCache r).

Definition applyResolvedAgent (config : ProxyAxiosRequestConfig) (targetProtocol : string) (agent : nat) :
    ProxyAxiosRequestConfig :=
  let '(AxiosConfig u b h s p o) := config in
  if bool_decide (targetProtocol = "http:"%string) then AxiosConfig u b (Some agent) s p o
  else if bool_decide (targetProtocol = "https:"%string) then AxiosConfig u b h (Some agent) p o
  else AxiosConfig u b (Some agent) (Some agent) p o.

Arguments applyResolvedAgent : simpl never.

Section Axios.
Context (URL_parse : string -> option url) (URL_resolve : string -> url -> option url).

Definition cloneUrl (u : url) : result axios_error url :=
  match URL_parse (href u) with Some u => Ok u | None => Throw NativeInvalidUrl end.

Definition parseUrl (input errorCode : string) : result axios_error url :=
  match URL_parse input with Some u => Ok u | None => Throw (AxiosTypeError errorCode) end.

Definition parseBaseUrl (base : option target) : result axios_error (option url) :=
  match base with
  | None => Ok None
  | Some (TargetUrl u) => rbind (cloneUrl u) (fun u => Ok (Some u))
  | Some (TargetString s) =>
      let trimmed := trim s in
      if is_empty trimmed then Ok None
      else rbind (parseUrl trimmed "invalid_baseURL") (fun u => Ok (Some u))
  end.

Definition resolveAxiosRequestTarget (t : ProxyAxiosTarget) (base : option target) :
    result axios_error url :=
  let (u, base) := normalizeTargetInput t base in
  match u with
  | Some (TargetUrl u) => cloneUrl u
  | _ =>
      (let! requestUrl := ensureNonEmptyUrl u in
       if has_absolute_prefix requestUrl || starts_with "//" requestUrl
       then parseUrl requestUrl "invalid_request_url"
       else
         let! resolvedBaseUrl := parseBaseUrl base in
         match resolvedBaseUrl with
         | None => Throw (AxiosTypeError "relative_url_requires_baseURL")
         | Some b =>
             match URL_resolve requestUrl b with Some u => Ok u | None => Throw NativeInvalidUrl end
         end)%js
  end.

Context {S : Type} `{Resolver S}.

Definition resolveProxyAxiosAgent (t : ProxyAxiosTarget) (s : S) :
    result axios_error (url * ProxyAgentResolution) * S :=
  match resolveAxiosRequestTarget t None with
  | Throw e => (Throw e, s)
  | Ok u =>
      let (r, s) := route u s in
      (match r with
       | Ok r => Ok (u, toAxiosResolution r)
       | Throw e => Throw (ResolverError e)
       end, s)
  end.

Definition set_proxy_false (c : ProxyAxiosRequestConfig) : ProxyAxiosRequestConfig :=
  AxiosConfig (url_field c) (baseURL c) (httpAgent c) (httpsAgent c) (Some ProxyFalse) (rest c).

(** Beside the result, the object the caller passed, as it is after the call. *)
Definition applyProxyAgentToAxiosConfig (config : ProxyAxiosRequestConfig) (options : ProxyAxiosApplyOptions)
    (s : S) :
    result axios_error (ProxyAxiosRequestConfig * url * ProxyAxiosRoutingMetadata) *
    ProxyAxiosRequestConfig * S :=
  let mutate := default true (mutate options) in
  let disableAxiosProxyConfig := default true (disableAxiosProxyConfig options) in
  match resolveProxyAxiosAgent (Input (url_field config) (baseURL config)) s with
  | (Throw e, s) => (Throw e, config, s)
  | (Ok (target, resolution), s) =>
      let nextConfig := if disableAxiosProxyConfig then set_proxy_false config else config in
      let nextConfig :=
        match viaProxy resolution, agent resolution with
        | true, Some id => applyResolvedAgent nextConfig (protocol target) id
        | _, _ => nextConfig
        end in
      (Ok (nextConfig, target, toRoutingMetadata resolution),
       if mutate then nextConfig else config, s)
  end.

End Axios.
End Axios.

(** ** got *)

Module Got.

Definition SUPPORTED_TARGET_PROTOCOLS : list string := ["http:"; "https:"]%string.

(** Errors with their [cause], where they are given one. *)
Inductive got_error : Type :=
| MissingGotTargetError
| UnsupportedGotProtocolError (protocol : string)
| NativeInvalidUrl
| InvalidGotTargetError (input : string) (cause : got_error)
| InvalidGotPrefixUrlError (input : string) (cause : option got_error)
| ResolverError (e : agent_error).

Inductive ProxyGotAgentProtocol : Type := got_http | got_https.

(** A slot of the [agent] option: absent, [false] or an agent. *)
Inductive agent_slot : Type :=
| NoSlot
| SlotFalse
| SlotAgent (id : nat).

Record ProxyGotAgentOptions : Type := GotAgents {
  got_http_agent : agent_slot;
  got_https_agent : agent_slot;
  http2 : jsval
}.

Record ProxyGotOptions : Type := GotOptions {
  got_url : option target;
  prefixUrl : option target;
  agents : option ProxyGotAgentOptions;
  got_rest : list (string * jsval)
}.

Record ProxyGotAgentResolution : Type := GotResolution {
  targetUrl : url;
  got_protocol : ProxyGotAgentProtocol;
  g_agent : option nat;
  g_viaProxy : bool;
  g_proxyUrl : option string;
  g_fromCache : bool
}.

Record ProxyGotApplyResult : Type := GotApplied {
  a_targetUrl : url;
  a_protocol : ProxyGotAgentProtocol;
  a_options : ProxyGotOptions;
  a_viaProxy : bool;
  a_proxyUrl : option string;
  a_fromCache : bool
}.

Definition toGotAgentProtocol (protocol : string) : result got_error ProxyGotAgentProtocol :=
  let normalized := to_lower protocol in
  if negb (bool_decide (normalized ∈ SUPPORTED_TARGET_PROTOCOLS))
  then Throw (UnsupportedGotProtocolError normalized)
  else Ok (if bool_decide (normalized = "http:"%string) then got_http else got_https).

Definition assertSupportedTargetProtocol (u : url) : result got_error url :=
  rbind (toGotAgentProtocol (protocol u)) (fun _ => Ok u).

Definition mergeAgentOptions (existing : option ProxyGotAgentOptions) (p : ProxyGotAgentProtocol)
    (resolvedAgent : option nat) : option ProxyGotAgentOptions :=
  match resolvedAgent with
  | None => existing
  | Some id =>
      let next := default (GotAgents NoSlot NoSlot JUndefined) existing in
      Some match p with
           | got_http => GotAgents (SlotAgent id) (got_https_agent next) (http2 next)
           | got_https => GotAgents (got_http_agent next) (SlotAgent id) (http2 next)
           end
  end.

Section Got.
Context (URL_parse : string -> option url) (URL_resolve : string -> url -> option url).
Context (pathname : url -> string) (set_pathname : string -> url -> url).

Definition new_URL (text : string) : result got_error url :=
  match URL_parse text with Some u => Ok u | None => Throw NativeInvalidUrl end.

Definition new_URL_from (text : string) (base : url) : result got_error url :=
  match URL_resolve text base with Some u => Ok u | None => Throw NativeInvalidUrl end.

Definition ensureTrailingSlash (u : url) : result got_error url :=
  (let! normalized := new_URL (href u) in
   Ok (if ends_with "/" (pathname normalized) then normalized
       else set_pathname (pathname normalized +:+ "/") normalized))%js.

Definition parsePrefixUrl (prefix : target) : result got_error url :=
  let raw := match prefix with TargetUrl u => href u | TargetString s => trim s end in
  if is_empty raw then
    Throw (InvalidGotPrefixUrlError (match prefix with TargetUrl u => href u | TargetString s => s end) None)
  else
    match (let! u := new_URL raw in
           let! u := assertSupportedTargetProtocol u in
           ensureTrailingSlash u)%js with
    | Ok u => Ok u
    | Throw e => Throw (InvalidGotPrefixUrlError raw (Some e))
    end.

Definition nullish_target (a b : option target) : option target := match a with Some t => Some t | None => b end.

Definition resolveGotRequestTarget (input : option target) (options : ProxyGotOptions) :
    result got_error url :=
  match nullish_target (got_url options) input with
  | None => Throw MissingGotTargetError
  | Some rawTarget =>
      (let! prefixBase := match prefixUrl options with
                          | None => Ok None
                          | Some prefix => rbind (parsePrefixUrl prefix) (fun u => Ok (Some u))
                          end in
       match rawTarget with
       | TargetUrl u => let! u := new_URL (href u) in assertSupportedTargetProtocol u
       | TargetString s =>
           let inputText := trim s in
           check! negb (is_empty inputText) else MissingGotTargetError;
           match rbind (new_URL inputText) assertSupportedTargetProtocol with
           | Ok u => Ok u
           | Throw absoluteError =>
               match prefixBase with
               | None => Throw (InvalidGotTargetError inputText absoluteError)
               | Some base =>
                   match rbind (new_URL_from inputText base) assertSupportedTargetProtocol with
                   | Ok u => Ok u
                   | Throw relativeError => Throw (InvalidGotTargetError inputText relativeError)
                   end
               end
           end
       end)%js
  end.

Definition parseAbsoluteTarget (t : target) : result got_error url :=
  match t with
  | TargetUrl u => (let! u := new_URL (href u) in assertSupportedTargetProtocol u)%js
  | TargetString s =>
      let value := trim s in
      if is_empty value then Throw MissingGotTargetError
      else
        match rbind (new_URL value) assertSupportedTargetProtocol with
        | Ok u => Ok u
        | Throw error => Throw (InvalidGotTargetError value error)
        end
  end.

Context {S : Type} `{Resolver S}.

Definition resolveProxyGotAgentEntry (t : target) (s : S) : result got_error ProxyGotAgentResolution * S :=
  match (let! u := parseAbsoluteTarget t in
         let! p := toGotAgentProtocol (protocol u) in Ok (u, p))%js with
  | Throw e => (Throw e, s)
  | Ok (u, p) =>
      let (r, s) := route u s in
      (match r with
       | Throw e => Throw (ResolverError e)
       | Ok r =>
           Ok (GotResolution u p (if viaProxy r then agent r else None)
                 (viaProxy r) (proxyUrl r) (fromCache r))
       end, s)
  end.

Definition applyProxyGotAgent (options : ProxyGotOptions) (input : option target) (s : S) :
    result got_error ProxyGotApplyResult * S :=
  match resolveGotRequestTarget input options with
  | Throw e => (Throw e, s)
  | Ok u =>
      match resolveProxyGotAgentEntry (TargetUrl u) s with
      | (Throw e, s) => (Throw e, s)
      | (Ok r, s) =>
          let merged := mergeAgentOptions (agents options) (got_protocol r) (g_agent r) in
          let nextOptions :=
            match merged with
            | Some m => GotOptions (got_url options) (prefixUrl options) (Some m) (got_rest options)
            | None => options
            end in
          (Ok (GotApplied (targetUrl r) (got_protocol r) nextOptions
                 (g_viaProxy r) (g_proxyUrl r) (g_fromCache r)), s)
      end
  end.

(** [ProxyGotAgentResolver.resolveForOptions]. *)
Definition resolveForOptions (options : ProxyGotOptions) (input : option target) (s : S) :
    result got_error ProxyGotAgentResolution * S :=
  match resolveGotRequestTarget input options with
  | Throw e => (Throw e, s)
  | Ok u => resolveProxyGotAgentEntry (TargetUrl u) s
  end.
End Got.
End Got.

(** ** Theorems *)

Section Theorems.
Context (URL_parse : string -> option url) (URL_resolve : string -> url -> option url) (isIP : string -> Z).
Context (pathname : url -> string) (set_pathname : string -> url -> url).
Context (constructs : agent_spec -> bool) (has : agent_spec -> cleanup -> bool).
(** A scheme is made of letters, digits and [+-.]. *)
Context (parse_chars : forall s u, URL_parse s = Some u -> no_bar (protocol u)).
Context (resolve_chars : forall s b u, URL_resolve s b = Some u -> no_bar (protocol u)).

#[local] Existing Instance factory_resolver.
Local Abbreviation run := (foldl (fun f o => factory_step URL_parse isIP constructs has o f)).
Local Abbreviation axios_target := (Axios.resolveAxiosRequestTarget URL_parse URL_resolve).
Local Abbreviation apply_axios :=
  (@Axios.applyProxyAgentToAxiosConfig URL_parse URL_resolve _ (factory_resolver URL_parse constructs has)).
Local Abbreviation apply_got :=
  (@Got.applyProxyGotAgent URL_parse URL_resolve pathname set_pathname _ (factory_resolver URL_parse constructs has)).

Lemma axios_target_no_bar t base u : axios_target t base = Ok u -> no_bar (protocol u).
Proof.
  unfold Axios.resolveAxiosRequestTarget. destruct (Axios.normalizeTargetInput t base) as [v b].
  assert (Hrel : forall v, (let! requestUrl := Axios.ensureNonEmptyUrl v in
       if Axios.has_absolute_prefix requestUrl || starts_with "//" requestUrl
       then Axios.parseUrl URL_parse requestUrl "invalid_request_url"
       else
         let! resolvedBaseUrl := Axios.parseBaseUrl URL_parse b in
         match resolvedBaseUrl with
         | None => Throw (Axios.AxiosTypeError "relative_url_requires_baseURL")
         | Some b =>
             match URL_resolve requestUrl b with Some u => Ok u | None => Throw Axios.NativeInvalidUrl end
         end)%js = Ok u -> no_bar (protocol u)).
  { intros v'. rewrite rbind_Ok. intros (r & _ & Hu). destruct (_ || _).
    - unfold Axios.parseUrl in Hu. destruct (URL_parse r) eqn:H; [|done]. simplify_eq. by eapply parse_chars.
    - rewrite rbind_Ok in Hu. destruct Hu as ([b'|] & _ & Hu); [|done].
      destruct (URL_resolve r b') eqn:H; [|done]. simplify_eq. by eapply resolve_chars. }
  destruct v as [[s|w]|]; try apply Hrel.
  unfold Axios.cloneUrl. destruct (URL_parse (href w)) eqn:H; [|done]. intros [= <-]. by eapply parse_chars.
Qed.

(** The agents of a configuration, by target protocol. *)
Definition uses_agent (c : Axios.ProxyAxiosRequestConfig) (targetProtocol : string) : option nat :=
  if bool_decide (targetProtocol = "https:"%string) then Axios.httpsAgent c else Axios.httpAgent c.

Lemma uses_applied c p id : uses_agent (Axios.applyResolvedAgent c p id) p = Some id.
Proof. unfold uses_agent, Axios.applyResolvedAgent. destruct c.
  destruct (decide (p = "http:"%string)) as [->|]; [done|]. rewrite (bool_decide_false (p = "http:"%string)) by done.
  destruct (decide (p = "https:"%string)) as [->|]; [done|]. by rewrite !(bool_decide_false (p = "https:"%string)).
Qed.

(** What a call does, in terms of the factory's answer. *)
Lemma apply_axios_ok c o f c' u m orig f' : apply_axios c o f = (Ok (c', u, m), orig, f') ->
  axios_target (Axios.Input (Axios.url_field c) (Axios.baseURL c)) None = Ok u /\
  exists r, resolve_url URL_parse constructs has u f = (Ok r, f') /\
    m = Axios.Routing (viaProxy r) (proxyUrl r) (fromCache r) /\
    orig = (if default true (Axios.mutate o) then c' else c) /\
    let c1 := if default true (Axios.disableAxiosProxyConfig o) then Axios.set_proxy_false c else c in
    c' = match viaProxy r, agent r with true, Some id => Axios.applyResolvedAgent c1 (protocol u) id | _, _ => c1 end.
Proof.
  unfold Axios.applyProxyAgentToAxiosConfig, Axios.resolveProxyAxiosAgent.
  destruct (axios_target _ None) as [v|e]; [|done]. unfold route, factory_resolver, resolve. cbn [parseTargetUrl].
  destruct (resolve_url _ _ _ v f) as [[r|e] f1] eqn:Hr; [|done]. intros [= <- <- <- <- <-].
  split; [done|]. by exists r.
Qed.

(** A configuration without agents of its own ends up with an agent exactly when the
    factory's current settings name a proxy for its target - whatever the factory went
    through before -, and that agent is the one made for this proxy and target, and is
    not disposed of; the routing metadata says which. *)
Theorem axios_follows_settings s env n opts os c o c' u m orig f' :
  Forall op_ok os ->
  Axios.httpAgent c = None -> Axios.httpsAgent c = None ->
  let f := run (newFactory URL_parse isIP s env n opts) os in
  apply_axios c o f = (Ok (c', u, m), orig, f') ->
  match agent_resolveProxyForUrl u (settings f) with
  | None | Some EmptyString =>
      m = Axios.Routing false None false /\ Axios.httpAgent c' = None /\ Axios.httpsAgent c' = None
  | Some proxy =>
      Axios.r_viaProxy m = true /\ Axios.r_proxyUrl m = Some proxy /\
      exists id spec, uses_agent c' (protocol u) = Some id /\
        createProxyAgent URL_parse constructs proxy (protocol u) (agentOptions f) = Ok spec /\
        heap f' !! id = Some spec /\ id ∉ (disposed f').*1
  end.
Proof.
  intros Hos Hh Hs f (Ht & r & Hr & -> & _ & Hc')%apply_axios_ok. apply axios_target_no_bar in Ht.
  assert (Hf : factory_inv URL_parse constructs f) by (apply run_inv; [done..|apply newFactory_inv]).
  pose proof (resolve_url_expected URL_parse constructs has u f Ht Hf) as Hexp. rewrite Hr in Hexp.
  unfold expected in Hexp. cbv zeta in Hc'.
  assert (Hdirect : r = direct_resolution ->
    Axios.Routing (viaProxy r) (proxyUrl r) (fromCache r) = Axios.Routing false None false /\
    Axios.httpAgent c' = None /\ Axios.httpsAgent c' = None).
  { intros ->. simpl in *. subst c'. by destruct (default true _). }
  destruct (agent_resolveProxyForUrl u (settings f)) as [[|ch p]|].
  - apply Hdirect. congruence.
  - destruct (createProxyAgent _ _ _ _ _) as [spec|e]; [|done].
    destruct r as [[id|] [p'|] [] ?]; try done. destruct Hexp as (-> & Hheap & Hlive).
    simpl in *. split; [done|]. split; [done|]. exists id, spec. subst c'. by rewrite uses_applied.
  - apply Hdirect. congruence.
Qed.

Lemma applied_target c p id : Axios.url_field (Axios.applyResolvedAgent c p id) = Axios.url_field c /\
  Axios.baseURL (Axios.applyResolvedAgent c p id) = Axios.baseURL c.
Proof. unfold Axios.applyResolvedAgent. destruct c. by repeat destruct (bool_decide _). Qed.

Lemma resolve_url_maxEntries u f :
  maxEntries (cache (resolve_url URL_parse constructs has u f).2) = maxEntries (cache f).
Proof.
  unfold resolve_url. destruct (agent_resolveProxyForUrl _ _) as [p|]; [|done]. destruct (is_empty p); [done|].
  rewrite get_spec. assert (Hset : forall k v c, maxEntries (set (K := string) (V := nat) k v c).2 = maxEntries c).
  { intros k v c. unfold set. repeat case_match; by simplify_eq. }
  destruct (jm_get _ _) as [id|]; [done|]. cbn [settings agentOptions cache heap disposed].
  destruct (createProxyAgent _ _ _ _) as [created|e]; [|done].
  specialize (Hset (cacheKey p (protocol u)) (length (heap f)) (cache f)).
  by destruct (set _ _ _).
Qed.

Lemma destroyed_all f id : factory_inv URL_parse constructs f -> maxEntries (cache f) <> 0 ->
  (id < length (heap f))%nat -> id ∈ (disposed (destroy has f)).*1.
Proof.
  intros Hf H0 Hid. pose proof (inv_agents _ _ _ Hf H0) as Hp. destruct f as [s a c h d].
  unfold destroy. simpl in *. rewrite fmap_app, dispose_agents_ids.
  change (id ∈ d.*1 ++ (store c).*2). rewrite Hp. apply elem_of_seq. lia.
Qed.

(** A call changes the configuration it is given, unless told not to.  A configuration
    that is used again after the settings have changed still carries the agent of its
    first use, although the answer of the second call says that the request goes
    direct - an agent that the change of settings has disposed of. *)
Theorem axios_reused_config_is_stale s env n opts os c c1 u m1 c1' f1 settings' :
  Forall op_ok os ->
  let f := run (newFactory URL_parse isIP s env n opts) os in
  let default_options := Axios.ApplyOptions None None in
  maxEntries (cache f) <> 0 ->
  apply_axios c default_options f = (Ok (c1, u, m1), c1', f1) -> Axios.r_viaProxy m1 = true ->
  agent_resolveProxyForUrl u settings' = None ->
  let f2 := updateSettings has settings' f1 in
  exists c2 id,
    apply_axios c1' default_options f2 = (Ok (c2, u, Axios.Routing false None false), c2, f2) /\
    uses_agent c2 (protocol u) = Some id /\ id ∈ (disposed f2).*1.
Proof.
  intros Hos f d H0 (Ht & r & Hr & -> & Horig & Hc1)%apply_axios_ok Hvia Hnone f2. cbv zeta in Hc1. simpl in *.
  assert (Hf : factory_inv URL_parse constructs f) by (apply run_inv; [done..|apply newFactory_inv]).
  pose proof (axios_target_no_bar _ _ _ Ht) as Hu.
  pose proof (resolve_url_expected URL_parse constructs has u f Hu Hf) as Hexp. rewrite Hr in Hexp.
  pose proof (resolve_url_inv URL_parse constructs has u f Hu Hf) as Hf1. rewrite Hr in Hf1.
  unfold expected in Hexp. destruct (agent_resolveProxyForUrl u (settings f)) as [[|ch p]|]; [by simplify_eq| |by simplify_eq].
  destruct (createProxyAgent _ _ _ _ _) as [spec|e]; [|done].
  destruct r as [[id|] [p'|] [] ?]; try done. destruct Hexp as (-> & Hheap & _). simpl in *.
  exists (Axios.set_proxy_false c1), id. subst c1'. split_and!.
  - unfold Axios.applyProxyAgentToAxiosConfig, Axios.resolveProxyAxiosAgent.
    assert (Hfields : Axios.url_field c1 = Axios.url_field c /\ Axios.baseURL c1 = Axios.baseURL c).
    { subst c1. destruct (applied_target (Axios.set_proxy_false c) (protocol u) id) as [-> ->]. done. }
    destruct Hfields as [-> ->]. rewrite Ht. unfold route, factory_resolver, resolve. cbn [parseTargetUrl].
    unfold resolve_url. subst f2. unfold updateSettings, destroy. cbn [cache clear settings]. simpl.
    by rewrite Hnone.
  - transitivity (uses_agent c1 (protocol u)); [done|]. subst c1. apply uses_applied.
  - subst f2. unfold updateSettings. apply destroyed_all.
    + destruct Hf1. by split.
    + simpl. pose proof (resolve_url_maxEntries u f) as Hm. rewrite Hr in Hm. simpl in Hm. by rewrite Hm.
    + simpl. by apply lookup_lt_Some in Hheap.
Qed.

Lemma supported_ok u v : Got.assertSupportedTargetProtocol u = Ok v ->
  v = u /\ to_lower (protocol u) ∈ Got.SUPPORTED_TARGET_PROTOCOLS.
Proof.
  unfold Got.assertSupportedTargetProtocol, Got.toGotAgentProtocol.
  case_bool_decide as Hp; simpl; [|done]. by intros [= <-].
Qed.

Lemma new_URL_supported text v :
  rbind (Got.new_URL URL_parse text) Got.assertSupportedTargetProtocol = Ok v ->
  URL_parse text = Some v /\ to_lower (protocol v) ∈ Got.SUPPORTED_TARGET_PROTOCOLS.
Proof.
  unfold Got.new_URL. destruct (URL_parse text) as [u|]; [|done]. by intros [-> Hp]%supported_ok.
Qed.

Lemma got_entry_ok t f r f' :
  @Got.resolveProxyGotAgentEntry URL_parse _ (factory_resolver URL_parse constructs has) t f = (Ok r, f') ->
  no_bar (protocol (Got.targetUrl r)) /\
  to_lower (protocol (Got.targetUrl r)) ∈ Got.SUPPORTED_TARGET_PROTOCOLS /\
  Got.toGotAgentProtocol (protocol (Got.targetUrl r)) = Ok (Got.got_protocol r) /\
  exists a, resolve_url URL_parse constructs has (Got.targetUrl r) f = (Ok a, f') /\
    Got.g_agent r = (if viaProxy a then agent a else None) /\
    Got.g_viaProxy r = viaProxy a /\ Got.g_proxyUrl r = proxyUrl a.
Proof.
  unfold Got.resolveProxyGotAgentEntry.
  destruct (Got.parseAbsoluteTarget URL_parse t) as [u|e] eqn:Hu; [|done]. cbn [rbind].
  assert (Hchars : no_bar (protocol u) /\ to_lower (protocol u) ∈ Got.SUPPORTED_TARGET_PROTOCOLS).
  { unfold Got.parseAbsoluteTarget in Hu. destruct t as [s|w].
    - destruct (is_empty (trim s)); [done|].
      destruct (rbind _ _) as [v|e] eqn:Hv; [|done]. injection Hu as ->.
      apply new_URL_supported in Hv as [Hp Hs]. split; [by eapply parse_chars|done].
    - apply new_URL_supported in Hu as [Hp Hs]. split; [by eapply parse_chars|done]. }
  destruct (Got.toGotAgentProtocol (protocol u)) as [p|e] eqn:Hp; [|done]. cbn [rbind].
  unfold route, factory_resolver, resolve. cbn [parseTargetUrl].
  destruct (resolve_url _ _ _ u f) as [[a|e] f1] eqn:Hr; [|done]. intros [= <- <-]. simpl.
  split_and!; [apply Hchars..|done|]. by exists a.
Qed.

Definition slot_of (p : Got.ProxyGotAgentProtocol) (a : Got.ProxyGotAgentOptions) : Got.agent_slot :=
  match p with Got.got_http => Got.got_http_agent a | Got.got_https => Got.got_https_agent a end.

Definition other_slot (p : Got.ProxyGotAgentProtocol) : Got.ProxyGotAgentProtocol :=
  match p with Got.got_http => Got.got_https | Got.got_https => Got.got_http end.

(** The options for got are new ones in which only the agent of the target's protocol
    - http or https - is replaced, and only when the current settings name a proxy: by
    the agent made for this proxy and target, not disposed of.  A direct route leaves
    the options as they were. *)
Theorem got_follows_settings s env n opts os o input r f' :
  Forall op_ok os ->
  let f := run (newFactory URL_parse isIP s env n opts) os in
  apply_got o input f = (Ok r, f') ->
  let u := Got.a_targetUrl r in
  Got.toGotAgentProtocol (protocol u) = Ok (Got.a_protocol r) /\
  match agent_resolveProxyForUrl u (settings f) with
  | None | Some EmptyString => Got.a_options r = o /\ Got.a_viaProxy r = false
  | Some proxy =>
      Got.a_viaProxy r = true /\ Got.a_proxyUrl r = Some proxy /\
      let before := default (Got.GotAgents Got.NoSlot Got.NoSlot JUndefined) (Got.agents o) in
      exists id spec after, Got.agents (Got.a_options r) = Some after /\
        slot_of (Got.a_protocol r) after = Got.SlotAgent id /\
        slot_of (other_slot (Got.a_protocol r)) after = slot_of (other_slot (Got.a_protocol r)) before /\
        Got.http2 after = Got.http2 before /\
        createProxyAgent URL_parse constructs proxy (protocol u) (agentOptions f) = Ok spec /\
        heap f' !! id = Some spec /\ id ∉ (disposed f').*1
  end.
Proof.
  intros Hos f. unfold Got.applyProxyGotAgent.
  destruct (Got.resolveGotRequestTarget _ _ _ _ _ _) as [w|e]; [|done].
  destruct (Got.resolveProxyGotAgentEntry _ _ _) as [[g|e] f1] eqn:Hg; [|done]. intros [= <- <-].
  apply got_entry_ok in Hg as (Hbar & _ & Hp & a & Ha & Hagent & Hvia & Hproxy). simpl.
  split; [done|].
  assert (Hf : factory_inv URL_parse constructs f) by (apply run_inv; [done..|apply newFactory_inv]).
  pose proof (resolve_url_expected URL_parse constructs has _ f Hbar Hf) as Hexp. rewrite Ha in Hexp.
  unfold expected in Hexp. rewrite Hvia, Hproxy.
  assert (Hdirect : a = direct_resolution -> match Got.mergeAgentOptions (Got.agents o) (Got.got_protocol g) (Got.g_agent g) with
    | Some m => Got.GotOptions (Got.got_url o) (Got.prefixUrl o) (Some m) (Got.got_rest o) | None => o end = o).
  { intros ->. rewrite Hagent. destruct o as [? ? [|] ?]; done. }
  destruct (agent_resolveProxyForUrl _ (settings f)) as [[|ch p]|].
  - injection Hexp as ->. by split; [apply Hdirect|].
  - destruct (createProxyAgent _ _ _ _ _) as [spec|e]; [|done].
    destruct a as [[id|] [p'|] [] ?]; try done. destruct Hexp as (-> & Hheap & Hlive).
    split; [done|]. split; [done|]. rewrite Hagent. simpl.
    eexists id, spec, _. split; [done|]. by destruct (Got.got_protocol g).
  - injection Hexp as ->. by split; [apply Hdirect|].
Qed.

(** A target given as text is never refused for its protocol: whatever is wrong with it
    and whether or not there is a [prefixUrl], the error is that of a missing or an
    invalid target or prefix - an unsupported protocol is only its cause. *)
Theorem got_protocol_error_hidden o input text p :
  Got.nullish_target (Got.got_url o) input = Some (TargetString text) ->
  Got.resolveGotRequestTarget URL_parse URL_resolve pathname set_pathname input o
    <> Throw (Got.UnsupportedGotProtocolError p).
Proof.
  intros Ht. unfold Got.resolveGotRequestTarget. rewrite Ht.
  assert (Hprefix : forall q, Got.parsePrefixUrl URL_parse pathname set_pathname q <>
    Throw (Got.UnsupportedGotProtocolError p)).
  { intros q. unfold Got.parsePrefixUrl. destruct (is_empty _); [done|]. by destruct (rbind _ _). }
  assert (Hb : forall b : option url,
    match rbind (Got.new_URL URL_parse (trim text)) Got.assertSupportedTargetProtocol with
    | Ok u => Ok u
    | Throw e => match b with
        | None => Throw (Got.InvalidGotTargetError (trim text) e)
        | Some base => match rbind (Got.new_URL_from URL_resolve (trim text) base) Got.assertSupportedTargetProtocol with
            | Ok u => Ok u | Throw e => Throw (Got.InvalidGotTargetError (trim text) e) end
        end
    end <> Throw (Got.UnsupportedGotProtocolError p)).
  { intros b. destruct (rbind _ _); [done|]. destruct b as [b|]; [|done]. by destruct (rbind _ _). }
  destruct (Got.prefixUrl o) as [q|]; simpl.
  - specialize (Hprefix q). destruct (Got.parsePrefixUrl _ _ _ q) as [b|e]; simpl; [|congruence].
    destruct (is_empty (trim text)); [done|]. apply (Hb (Some b)).
  - destruct (is_empty (trim text)); [done|]. apply (Hb None).
Qed.
End Theorems.

(** ** Concrete inputs *)

(** Relative references, against an http: base only. *)
Definition demo_relative (s : string) (b : url) : option url :=
  if bool_decide (protocol b = "http:"%string)
  then Some (Url "http:" (hostname b) (url_port b) (href b +:+ s)) else None.

Lemma demo_relative_chars s b u : demo_relative s b = Some u -> no_bar (protocol u).
Proof. unfold demo_relative. case_match; [|done]. by intros [= <-]. Defined.

Definition demo_config : Axios.ProxyAxiosRequestConfig :=
  Axios.AxiosConfig (Some (TargetString "/items")) (Some (TargetString "http://example.com")) None None None [].

Definition demo_start : ProxyAgentFactory :=
  newFactory demo_parse (fun _ => 0) (Some (demo_proxies "http://p:8080")) demo_env None demo_options.

Definition demo_apply (c : Axios.ProxyAxiosRequestConfig) (f : ProxyAgentFactory) :=
  @Axios.applyProxyAgentToAxiosConfig demo_parse demo_relative _
    (factory_resolver demo_parse (fun _ => true) (fun _ _ => true)) c (Axios.ApplyOptions None None) f.

Lemma axios_follows_settings_witness :
  exists c' u m orig f', demo_apply demo_config demo_start = (Ok (c', u, m), orig, f') /\
    Axios.r_proxyUrl m = Some "http://p:8080"%string /\ uses_agent c' (protocol u) = Some 0%nat.
Proof.
  eexists _, _, _, _, _. split; [vm_compute; reflexivity|].
  pose proof (axios_follows_settings demo_parse demo_relative (fun _ => 0) (fun _ => true) (fun _ _ => true)
    demo_scheme_chars demo_relative_chars (Some (demo_proxies "http://p:8080")) demo_env None demo_options []
    demo_config (Axios.ApplyOptions None None) _ _ _ _ _ ltac:(constructor) eq_refl eq_refl
    ltac:(vm_compute; reflexivity)) as H.
  vm_compute in H. destruct H as (_ & H & id & spec & Hid & _). split; [exact H|]. vm_compute. reflexivity.
Defined.

Lemma axios_reused_config_is_stale_witness :
  exists c1 u m c1' f1, demo_apply demo_config demo_start = (Ok (c1, u, m), c1', f1) /\
    let f2 := updateSettings (fun _ _ => true) (Settings.Settings None None None []) f1 in
    exists c2 id, demo_apply c1' f2 = (Ok (c2, u, Axios.Routing false None false), c2, f2) /\
      uses_agent c2 (protocol u) = Some id /\ id ∈ (disposed f2).*1.
Proof.
  eexists _, _, _, _, _. split; [vm_compute; reflexivity|].
  eapply (axios_reused_config_is_stale demo_parse demo_relative (fun _ => 0) (fun _ => true) (fun _ _ => true)
    demo_scheme_chars demo_relative_chars (Some (demo_proxies "http://p:8080")) demo_env None demo_options []
    demo_config) with (m1 := Axios.Routing true (Some "http://p:8080"%string) false);
    [constructor|by vm_compute|vm_compute; reflexivity|done|vm_compute; reflexivity].
Defined.

Definition demo_got : Got.ProxyGotOptions :=
  Got.GotOptions None (Some (TargetString "http://example.com/"))
    (Some (Got.GotAgents Got.SlotFalse (Got.SlotAgent 7) JNull)) [].

Lemma got_follows_settings_witness :
  exists r f', @Got.applyProxyGotAgent demo_parse demo_relative href (fun _ u => u) _
      (factory_resolver demo_parse (fun _ => true) (fun _ _ => true)) demo_got
      (Some (TargetString "items")) demo_start = (Ok r, f') /\
    Got.a_proxyUrl r = Some "http://p:8080"%string /\
    Got.agents (Got.a_options r) = Some (Got.GotAgents (Got.SlotAgent 0) (Got.SlotAgent 7) JNull).
Proof.
  eexists _, _. split; [vm_compute; reflexivity|].
  pose proof (got_follows_settings demo_parse demo_relative (fun _ => 0) href (fun _ u => u) (fun _ => true) (fun _ _ => true)
    demo_scheme_chars (Some (demo_proxies "http://p:8080")) demo_env None demo_options [] demo_got
    (Some (TargetString "items")) _ _ ltac:(constructor) ltac:(vm_compute; reflexivity)) as H.
  vm_compute in H. destruct H as (_ & _ & H & _). split; [exact H|]. vm_compute. reflexivity.
Defined.

Lemma got_protocol_error_hidden_witness :
  Got.resolveGotRequestTarget demo_parse demo_relative href (fun _ u => u) (Some (TargetString "socks5://p")) demo_got
    <> Throw (Got.UnsupportedGotProtocolError "socks5:").
Proof. exact (got_protocol_error_hidden demo_parse demo_relative href (fun _ u => u) demo_got _ _ "socks5:" eq_refl). Defined.
