(* ===== verification/ProxyFetch.v ===== *)
(** * Proxy-aware fetch ([packages/proxy-fetch/src/proxy-fetch-client.ts],
    [proxy-fetch-runtime.ts], [errors.ts])

    The client around [fetch]: preparation of a call, the abort control, the event
    machine of one call with the bounded reader of its body, and the one-shot
    functions.  [fetch], its responses and their readers are outside: their events
    come in any order the environment chooses.  Chunks are their bytes, one per
    [ascii].  The client of a call is a value; the dispatcher factory it uses, which
    may be shared, is threaded through as state. *)

From S2P Require Import Prelude JsMap ProxyCore AgentCache ProxyAgents ProxyDispatchers.
Local Open Scope Z_scope.

Definition DEFAULT_TIMEOUT_MS : num := num_of_Z 8000.
Definition DEFAULT_MAX_RESPONSE_BYTES : Z := 1048576.
Definition SUPPORTED_PROTOCOLS : list string := ["http:"; "https:"]%string.

Inductive NonJsonResponseReason : Type := invalid_content_type | invalid_json.

(** [FetchRejection]: whatever [fetch] or a reader rejected with. *)
Inductive fetch_error : Type :=
| InvalidUrlError (input : string) (cause : option string)
| NonJsonResponseError (target : string) (status : Z) (contentType : option string)
    (rawBody : string) (reason : NonJsonResponseReason)
| ResponseSizeLimitError (target : string) (status maxBytes receivedBytes : Z)
| RequestTimeoutError (target : string) (timeoutMs : num)
| FetchTypeError (message : string)
| DispatcherError (e : dispatcher_error)
| FetchRejection (reason : jsval).

(** The values of an init object. *)
Inductive init_value : Type :=
| InitDispatcher (id : nat)
| InitValue (v : jsval).
Abbreviation init_object := (list (string * init_value)).

Record ProxyFetchRequestOptions : Type := FetchOptions {
  method : option string;
  headers : jsval;
  request_body : jsval;
  timeoutMs : option num;
  requestInit : option init_object;
  maxResponseBytes : option num
}.

(** A response as [fetch] gives it; header names are in lower case. *)
Record Response : Type := FetchResponse {
  status : Z;
  response_headers : list (string * string);
  has_body : bool
}.

Definition header (name : string) (r : Response) : option string := jm_get name (response_headers r).

(** ** Preparation ([proxy-fetch-runtime.ts]) *)

Definition createRequestInit (options : ProxyFetchRequestOptions)
    (routing : ProxyUndiciDispatcherResolution) : init_object :=
  let init := default [] (requestInit options) in
  let init := jm_set "dispatcher"%string (InitDispatcher (d_dispatcher routing)) init in
  let init_method :=
    match method options with
    | Some m => InitValue (JStr m)
    | None =>
        match jm_get "method"%string init with
        | None | Some (InitValue (JUndefined | JNull)) => InitValue (JStr "GET")
        | Some m => m
        end
    end in
  let init := jm_set "method"%string init_method init in
  let init := match headers options with
              | JUndefined => init
              | h => jm_set "headers"%string (InitValue h) init
              end in
  match request_body options with
  | JUndefined => init
  | b => jm_set "body"%string (InitValue b) init
  end.

Definition assertSupportedProtocol (u : url) : result fetch_error unit :=
  if bool_decide (protocol u ∈ SUPPORTED_PROTOCOLS) then Ok tt
  else Throw (InvalidUrlError (href u) (Some ("unsupported_protocol:" +:+ protocol u)%string)).

Definition normalizeTimeout (value : option num) (fallback : num) : result fetch_error num :=
  let candidate := default fallback value in
  match candidate with
  | Fin _ _ =>
      if num_lt_Z candidate 0 then Throw (FetchTypeError "timeoutMs must be a finite number >= 0")
      else Ok candidate
  | _ => Throw (FetchTypeError "timeoutMs must be a finite number >= 0")
  end.

Definition normalizeMaxResponseBytes (value : option num) (fallback : Z) : result fetch_error Z :=
  match num_safe_integer (default (num_of_Z fallback) value) with
  | Some candidate =>
      if candidate <=? 0 then Throw (FetchTypeError "maxResponseBytes must be a safe integer > 0")
      else Ok candidate
  | None => Throw (FetchTypeError "maxResponseBytes must be a safe integer > 0")
  end.

Definition parseContentLength (value : option string) : option Z :=
  match value with
  | None | Some EmptyString => None
  | Some value =>
      let trimmed := trim value in
      if is_empty trimmed || negb (str_forallb is_num trimmed) then None
      else num_safe_integer (parse_int trimmed)
  end.

Definition isJsonMediaType (contentType : option string) : bool :=
  match contentType with
  | None | Some EmptyString => false
  | Some contentType =>
      let mediaType := to_lower (trim (default EmptyString (head (split_on ";" contentType)))) in
      if is_empty mediaType then false
      else bool_decide (mediaType = "application/json"%string) || ends_with "+json" mediaType
  end.

(** ** One call *)

(** Why the controller's signal was aborted. *)
Inductive abort_reason : Type :=
| ExternalReason (reason : jsval)
| TimeoutReason.

Inductive fetch_result : Type :=
| RawResult (r : Response) (routing : ProxyUndiciDispatcherResolution)
| JsonResult (r : Response) (routing : ProxyUndiciDispatcherResolution) (body : jsval) (rawBody : string).

(** Where a call is suspended: in [fetch], in [reader.read()], in [reader.cancel()]. *)
Inductive phase : Type :=
| Fetching
| Reading (r : Response) (chunks : list string) (receivedBytes : Z)
| Cancelling (e : fetch_error)
| Settled (outcome : result fetch_error fetch_result).

(** [maxBytes]: the limit of [fetchJson]; [None] for [fetch]. *)
Record call : Type := Call {
  target : url;
  call_timeoutMs : num;
  maxBytes : option Z;
  routing : ProxyUndiciDispatcherResolution;
  init : init_object;
  signal : option abort_reason;
  didTimeout : bool;
  timer : bool;
  listening : bool;
  call_phase : phase
}.

(** [AbortSignal] of the caller when the call starts. *)
Record AbortSignal : Type := ExternalSignal {
  aborted : bool;
  reason : jsval
}.

(** [createAbortControl]: signal, [didTimeout], timer and listener of a new call. *)
Definition createAbortControl (timeoutMs : num) (external : option AbortSignal) :
    option abort_reason * bool * bool * bool :=
  let '(signal, listening) :=
    match external with
    | Some s => if aborted s then (Some (ExternalReason (reason s)), false) else (None, true)
    | None => (None, false)
    end in
  (signal, false, num_gt_Z timeoutMs 0, listening).

(** [controller.abort]: only the first call counts. *)
Definition abort (why : abort_reason) (signal : option abort_reason) : option abort_reason :=
  match signal with Some w => Some w | None => Some why end.

Definition set_phase (p : phase) (c : call) : call :=
  Call (target c) (call_timeoutMs c) (maxBytes c) (routing c) (init c) (signal c) (didTimeout c)
    (timer c) (listening c) p.

Definition cleanup (c : call) : call :=
  Call (target c) (call_timeoutMs c) (maxBytes c) (routing c) (init c) (signal c) (didTimeout c)
    false false (call_phase c).

Section Fetch.
Context (JSON_parse : string -> option jsval) (utf8_decode : string -> string).
Context (URL_parse : string -> option url) (isIP : string -> Z).
Context (createDirect : nat -> option dispatcher) (createProxy : string -> nat -> option dispatcher).

Definition parseTargetUrl (t : ProxyAgents.target) : result fetch_error url :=
  match t with
  | TargetUrl u => rbind (assertSupportedProtocol u) (fun _ => Ok u)
  | TargetString input =>
      match URL_parse input with
      | Some parsed => rbind (assertSupportedProtocol parsed) (fun _ => Ok parsed)
      | None => Throw (InvalidUrlError input None)
      end
  end.

(** [fetchJson] once the body is read. *)
Definition json_outcome (c : call) (r : Response) (rawBody : string) : result fetch_error fetch_result :=
  if is_empty rawBody then Ok (JsonResult r (routing c) JNull rawBody)
  else
    let contentType := header "content-type" r in
    if negb (isJsonMediaType contentType)
    then Throw (NonJsonResponseError (href (target c)) (status r) contentType rawBody invalid_content_type)
    else
      match JSON_parse rawBody with
      | Some body => Ok (JsonResult r (routing c) body rawBody)
      | None => Throw (NonJsonResponseError (href (target c)) (status r) contentType rawBody invalid_json)
      end.

(** [readResponseTextWithLimit] up to its first [read]. *)
Definition readResponseTextWithLimit (max : Z) (r : Response) (c : call) : call :=
  let declared := parseContentLength (header "content-length" r) in
  match declared with
  | Some declared =>
      if max <? declared
      then set_phase (Settled (Throw (ResponseSizeLimitError (href (target c)) (status r) max declared))) c
      else if negb (has_body r) then set_phase (Settled (json_outcome c r EmptyString)) c
      else set_phase (Reading r [] 0) c
  | None =>
      if negb (has_body r) then set_phase (Settled (json_outcome c r EmptyString)) c
      else set_phase (Reading r [] 0) c
  end.

(** [performFetch] after [fetch] resolved, and what its caller does next. *)
Definition onFetched (r : Response) (c : call) : call :=
  let c := cleanup c in
  match maxBytes c with
  | None => set_phase (Settled (Ok (RawResult r (routing c)))) c
  | Some max => readResponseTextWithLimit max r c
  end.

(** [performFetch] after [fetch] rejected. *)
Definition onFetchFailed (error : jsval) (c : call) : call :=
  set_phase (Settled (Throw
    (if didTimeout c then RequestTimeoutError (href (target c)) (call_timeoutMs c)
     else FetchRejection error))) (cleanup c).

(** A chunk, or no value. *)
Definition onRead (max : Z) (value : option string) (r : Response) (chunks : list string) (received : Z)
    (c : call) : call :=
  match value with
  | None => c
  | Some value =>
      let received := received + str_len value in
      if max <? received
      then set_phase (Cancelling (ResponseSizeLimitError (href (target c)) (status r) max received)) c
      else set_phase (Reading r (chunks ++ [value]) received) c
  end.

Inductive call_event : Type :=
| FetchResolved (r : Response)
| FetchRejected (error : jsval)
| Read (value : option string)
| ReadDone
| ReadRejected (error : jsval)
| CancelSettled
| TimerFires
| ExternalAbort (reason : jsval).

(** Events the call is not suspended on do nothing. *)
Definition call_step (ev : call_event) (c : call) : call :=
  match ev, call_phase c with
  | FetchResolved r, Fetching => onFetched r c
  | FetchRejected e, Fetching => onFetchFailed e c
  | Read v, Reading r chunks received => onRead (default 0 (maxBytes c)) v r chunks received c
  | ReadDone, Reading r chunks _ =>
      set_phase (Settled (json_outcome c r (utf8_decode (String.concat "" chunks)))) c
  | ReadRejected e, Reading _ _ _ => set_phase (Cancelling (FetchRejection e)) c
  | CancelSettled, Cancelling e => set_phase (Settled (Throw e)) c
  | TimerFires, _ =>
      if timer c then
        Call (target c) (call_timeoutMs c) (maxBytes c) (routing c) (init c)
          (abort TimeoutReason (signal c)) true false (listening c) (call_phase c)
      else c
  | ExternalAbort reason, _ =>
      if listening c then
        Call (target c) (call_timeoutMs c) (maxBytes c) (routing c) (init c)
          (abort (ExternalReason reason) (signal c)) (didTimeout c) (timer c) false (call_phase c)
      else c
  | _, _ => c
  end.

Definition call_run (evs : list call_event) (c : call) : call := foldl (fun c ev => call_step ev c) c evs.

(** ** The client *)

Record ProxyFetchClient : Type := FetchClient {
  ownsDispatcherFactory : bool;
  defaultTimeoutMs : num;
  defaultMaxResponseBytes : Z
}.

(** [settings], [env] and [maxCacheEntries] of the client options, and the factory
    they may name instead. *)
Record ProxyFetchClientOptions : Type := ClientOptions {
  o_settings : option ProxyCore.ProxySettings;
  o_env : ProxyEnvironment;
  o_maxCacheEntries : option num;
  dispatcherFactory : option ProxyUndiciDispatcherFactory;
  o_defaultTimeoutMs : option num;
  o_defaultMaxResponseBytes : option num
}.

(** The client and the state of the factory it uses. *)
Definition newProxyFetchClient (options : ProxyFetchClientOptions) :
    result fetch_error (ProxyFetchClient * ProxyUndiciDispatcherFactory) :=
  (let factory :=
     match dispatcherFactory options with
     | Some f => f
     | None => newDispatcherFactory URL_parse isIP (o_settings options) (o_env options) (o_maxCacheEntries options)
     end in
   let owns := negb (bool_decide (is_Some (dispatcherFactory options))) in
   let! timeout := normalizeTimeout (o_defaultTimeoutMs options) DEFAULT_TIMEOUT_MS in
   let! max := normalizeMaxResponseBytes (o_defaultMaxResponseBytes options) DEFAULT_MAX_RESPONSE_BYTES in
   Ok (FetchClient owns timeout max, factory))%js.

Local Abbreviation resolve_dispatcher := (d_resolve URL_parse createDirect createProxy).

(** [performFetch] up to the call of [fetch]. *)
Definition performFetch (client : ProxyFetchClient) (targetUrl : url) (max : option Z)
    (options : ProxyFetchRequestOptions) (external : option AbortSignal) (f : ProxyUndiciDispatcherFactory) :
    result fetch_error call * ProxyUndiciDispatcherFactory :=
  match normalizeTimeout (timeoutMs options) (defaultTimeoutMs client) with
  | Throw e => (Throw e, f)
  | Ok timeoutMs =>
      let (routing, f) := resolve_dispatcher (TargetUrl targetUrl) f in
      match routing with
      | Throw e => (Throw (DispatcherError e), f)
      | Ok routing =>
          let requestInit := createRequestInit options routing in
          let '(signal, didTimeout, timer, listening) := createAbortControl timeoutMs external in
          (Ok (Call targetUrl timeoutMs max routing requestInit signal didTimeout timer listening Fetching), f)
      end
  end.

(** [ProxyFetchClient.fetch]. *)
Definition fetch (client : ProxyFetchClient) (t : ProxyAgents.target) (options : ProxyFetchRequestOptions)
    (external : option AbortSignal) (f : ProxyUndiciDispatcherFactory) :
    result fetch_error call * ProxyUndiciDispatcherFactory :=
  match parseTargetUrl t with
  | Throw e => (Throw e, f)
  | Ok targetUrl => performFetch client targetUrl None options external f
  end.

(** [ProxyFetchClient.fetchJson]. *)
Definition fetchJson (client : ProxyFetchClient) (t : ProxyAgents.target) (options : ProxyFetchRequestOptions)
    (external : option AbortSignal) (f : ProxyUndiciDispatcherFactory) :
    result fetch_error call * ProxyUndiciDispatcherFactory :=
  match parseTargetUrl t with
  | Throw e => (Throw e, f)
  | Ok targetUrl =>
      match normalizeMaxResponseBytes (maxResponseBytes options) (defaultMaxResponseBytes client) with
      | Throw e => (Throw e, f)
      | Ok max => performFetch client targetUrl (Some max) options external f
      end
  end.

(** [destroy], also called [dispose]. *)
Definition client_destroy (client : ProxyFetchClient) (f : ProxyUndiciDispatcherFactory) :
    ProxyUndiciDispatcherFactory :=
  if ownsDispatcherFactory client then d_destroy_all f else f.

Definition client_clear (client : ProxyFetchClient) (f : ProxyUndiciDispatcherFactory) :
    ProxyUndiciDispatcherFactory := d_destroy_all f.

Definition client_updateSettings (client : ProxyFetchClient) (settings : ProxyCore.ProxySettings)
    (f : ProxyUndiciDispatcherFactory) : ProxyUndiciDispatcherFactory := d_updateSettings settings f.

Definition client_reloadFromEnvironment (client : ProxyFetchClient) (env : ProxyEnvironment)
    (f : ProxyUndiciDispatcherFactory) : ProxyCore.ProxySettings * ProxyUndiciDispatcherFactory :=
  d_reloadFromEnvironment URL_parse isIP env f.

(** [proxyFetch] and [proxyFetchJson]: a temporary client, destroyed in the [finally]
    block of the call that [json] selects. *)
Record one_shot : Type := OneShot {
  os_client : ProxyFetchClient;
  os_call : result fetch_error call;
  os_factory : ProxyUndiciDispatcherFactory
}.

Definition settled (c : call) : bool := match call_phase c with Settled _ => true | _ => false end.

Definition proxyFetch (json : bool) (options : ProxyFetchClientOptions) (t : ProxyAgents.target)
    (request : ProxyFetchRequestOptions) (external : option AbortSignal) : result fetch_error one_shot :=
  (let! made := newProxyFetchClient options in
   let (client, f) := (made : ProxyFetchClient * ProxyUndiciDispatcherFactory) in
   let (r, f) := (if json then fetchJson else fetch) client t request external f in
   Ok (OneShot client r match r with Ok _ => f | Throw _ => client_destroy client f end))%js.

Definition one_shot_step (ev : call_event) (x : one_shot) : one_shot :=
  match os_call x with
  | Throw _ => x
  | Ok c =>
      let c' := call_step ev c in
      OneShot (os_client x) (Ok c')
        (if settled c' && negb (settled c) then client_destroy (os_client x) (os_factory x) else os_factory x)
  end.

Definition one_shot_run (evs : list call_event) (x : one_shot) : one_shot :=
  foldl (fun x ev => one_shot_step ev x) x evs.
End Fetch.

(** ** Lemmas *)

Definition total (chunks : list string) : Z := foldr (fun s n => str_len s + n) 0 chunks.

Lemma total_app a b : total (a ++ b) = total a + total b.
Proof. induction a as [|s a IH]; [done|]. simpl. lia. Qed.

Definition is_json (o : result fetch_error fetch_result) : Prop :=
  match o with Ok (JsonResult _ _ _ _) => True | _ => False end.

Section Lemmas.
Context (JSON_parse : string -> option jsval) (utf8_decode : string -> string).
Local Abbreviation step := (call_step JSON_parse utf8_decode).
Local Abbreviation run := (call_run JSON_parse utf8_decode).
Implicit Types (c : call).

(** Where the phase of a call is compatible with its other fields. *)
Definition phase_ok c : Prop :=
  match call_phase c with
  | Fetching => num_gt_Z (call_timeoutMs c) 0 = true -> timer c = true \/ didTimeout c = true
  | Reading _ cs n => timer c = false /\ listening c = false /\ n = total cs /\
      exists max, maxBytes c = Some max /\ n <= max
  | Cancelling _ => timer c = false /\ listening c = false
  | Settled o => timer c = false /\ listening c = false /\
      match maxBytes c, o with
      | _, Throw _ => True
      | None, Ok x => exists r, x = RawResult r (routing c)
      | Some max, Ok _ => exists r cs, total cs <= max /\
          (o = json_outcome JSON_parse c r (utf8_decode (String.concat "" cs)) \/
           has_body r = false /\ o = json_outcome JSON_parse c r EmptyString)
      end
  end.

Lemma json_outcome_eq c c' r raw : target c = target c' -> routing c = routing c' ->
  json_outcome JSON_parse c r raw = json_outcome JSON_parse c' r raw.
Proof. intros Ht Hr. unfold json_outcome. by rewrite Ht, Hr. Qed.

(** Outside [Fetching] neither timer nor listener is there. *)
Lemma phase_quiet c : phase_ok c -> call_phase c <> Fetching -> timer c = false /\ listening c = false.
Proof. unfold phase_ok. destruct (call_phase c); intros; [done|tauto..]. Qed.

Local Ltac by_phase :=
  match goal with
  | Hc : phase_ok ?c, Hp : call_phase ?c = _ |- _ =>
      let Hq := fresh in
      pose proof (phase_quiet c Hc ltac:(congruence)) as Hq;
      destruct Hq as [Hq ?]; first [rewrite Hq | idtac];
      first [done | by match goal with H : listening c = false |- _ => rewrite H end]
  end.

Lemma step_phase_ok ev c : (forall max, maxBytes c = Some max -> 0 <= max) -> phase_ok c -> phase_ok (step ev c).
Proof.
  intros Hmax Hc.
  destruct ev as [r|e|v| |e| | |w], (call_phase c) as [|r0 cs n|e0|o] eqn:Hp; cbn [call_step]; rewrite ?Hp; try done.
  - unfold onFetched. destruct (maxBytes (cleanup c)) as [max|] eqn:Hm; simpl in Hm.
    2:{ unfold phase_ok. simpl. rewrite Hm. split_and!; [done..|by exists r]. }
    pose proof (Hmax max Hm) as Hpos.
    assert (Hend : phase_ok (set_phase (Settled (json_outcome JSON_parse (cleanup c) r EmptyString)) (cleanup c)) \/ has_body r = true).
    { destruct (has_body r) eqn:Hb; [by right|left]. unfold phase_ok. simpl. rewrite Hm. split_and!; [done..|].
      destruct (json_outcome _ _ _ _) eqn:Ho; [|done]. exists r, []. split; [done|]. right. split; [done|].
      rewrite <- Ho. by apply json_outcome_eq. }
    assert (Hread : phase_ok (set_phase (Reading r [] 0) (cleanup c))).
    { unfold phase_ok. simpl. split_and!; [done..|]. by exists max. }
    unfold readResponseTextWithLimit. destruct (parseContentLength _) as [d|].
    + destruct (max <? d); [unfold phase_ok; simpl; by rewrite Hm|].
      destruct Hend as [He| ->]; [|done]. by destruct (has_body r).
    + destruct Hend as [He| ->]; [|done]. by destruct (has_body r).
  - unfold onFetchFailed, phase_ok. simpl. by destruct (maxBytes c).
  - unfold phase_ok in Hc. rewrite Hp in Hc. destruct Hc as (Ht & Hl & -> & max & Hm & Hn). rewrite Hm. simpl.
    unfold onRead. destruct v as [v|].
    + destruct (Z.ltb_spec max (total cs + str_len v)); [done|]. unfold phase_ok. simpl. split_and!; try done.
      * rewrite total_app. simpl. lia.
      * by exists max.
    + unfold phase_ok. rewrite Hp. split_and!; try done. by exists max.
  - unfold phase_ok in Hc. rewrite Hp in Hc. destruct Hc as (Ht & Hl & -> & max & Hm & Hn).
    unfold phase_ok. simpl. rewrite Hm. split_and!; try done.
    destruct (json_outcome _ _ _ _) eqn:Ho; [|done]. exists r0, cs. split; [done|]. left. by rewrite <- Ho.
  - unfold phase_ok in *. rewrite Hp in Hc. simpl. by destruct Hc as (? & ? & _).
  - unfold phase_ok in *. rewrite Hp in Hc. simpl. destruct Hc as (? & ?). by destruct (maxBytes c).
  - destruct (timer c) eqn:Ht; [|done]. unfold phase_ok. simpl. by right.
  - by_phase.
  - by_phase.
  - by_phase.
  - destruct (listening c); [|done]. unfold phase_ok in *. simpl. by rewrite Hp in Hc.
  - by_phase.
  - by_phase.
  - by_phase.
Qed.

Lemma step_fields ev c : target (step ev c) = target c /\ maxBytes (step ev c) = maxBytes c /\
  routing (step ev c) = routing c /\ call_timeoutMs (step ev c) = call_timeoutMs c.
Proof.
  unfold call_step, onFetched, onFetchFailed, onRead, readResponseTextWithLimit. by repeat case_match.
Qed.

Lemma run_fields evs c : target (run evs c) = target c /\ maxBytes (run evs c) = maxBytes c /\
  routing (run evs c) = routing c /\ call_timeoutMs (run evs c) = call_timeoutMs c.
Proof.
  revert c. induction evs as [|ev evs IH]; intros c; [done|].
  destruct (IH (step ev c)) as (? & ? & ? & ?), (step_fields ev c) as (? & ? & ? & ?).
  unfold call_run in *. simpl. split_and!; congruence.
Qed.

Lemma run_phase_ok evs c : (forall max, maxBytes c = Some max -> 0 <= max) -> phase_ok c -> phase_ok (run evs c).
Proof.
  revert c. induction evs as [|ev evs IH]; intros c Hmax Hc; [done|]. apply (IH (step ev c)).
  - destruct (step_fields ev c) as (_ & -> & _). done.
  - by apply step_phase_ok.
Qed.

Lemma call_run_settled evs c o : call_phase c = Settled o -> call_phase (run evs c) = Settled o.
Proof.
  revert c. induction evs as [|ev evs IH]; intros c Hc; [done|]. apply (IH (step ev c)).
  unfold call_step. rewrite Hc. by repeat case_match.
Qed.

(** The clock and the caller's signal. *)
Definition clock_event (ev : call_event) : Prop :=
  match ev with TimerFires | ExternalAbort _ => True | _ => False end.

Lemma quiet_run evs c : timer c = false -> listening c = false -> Forall clock_event evs -> run evs c = c.
Proof.
  intros Ht Hl Hev. induction Hev as [|ev evs Hev _ IH]; [done|]. unfold call_run in *. simpl.
  enough (step ev c = c) as -> by done. destruct ev; try done; unfold call_step; [by rewrite Ht|by rewrite Hl].
Qed.

(** A call that has just reached [fetch]. *)
Definition starts (max : option Z) (c : call) : Prop :=
  call_phase c = Fetching /\ maxBytes c = max /\ didTimeout c = false /\
  timer c = num_gt_Z (call_timeoutMs c) 0.

Lemma starts_ok max c : starts max c -> phase_ok c.
Proof. intros (Hp & _ & _ & Ht). unfold phase_ok. rewrite Hp, Ht. by left. Qed.
End Lemmas.

Section Theorems.
Context (JSON_parse : string -> option jsval) (utf8_decode : string -> string).
Context (URL_parse : string -> option url) (isIP : string -> Z).
Context (createDirect : nat -> option dispatcher) (createProxy : string -> nat -> option dispatcher).
Local Abbreviation run := (call_run JSON_parse utf8_decode).
Local Abbreviation fetch_json := (fetchJson URL_parse createDirect createProxy).

Lemma performFetch_starts client u max options external f c f' :
  performFetch URL_parse createDirect createProxy client u max options external f = (Ok c, f') ->
  starts max c /\ target c = u /\ exists t, normalizeTimeout (timeoutMs options) (defaultTimeoutMs client) = Ok t /\ call_timeoutMs c = t.
Proof.
  unfold performFetch. destruct (normalizeTimeout _ _) as [t|e]; [|done].
  destruct (d_resolve _ _ _ _ f) as [[r|e] f1]; [|done]. unfold createAbortControl.
  destruct external as [[[] ?]|]; intros [= <- <-]; (split; [done|]; split; [done|]; by exists t).
Qed.

Lemma fetchJson_starts client t options external f c f' :
  fetch_json client t options external f = (Ok c, f') ->
  exists max, normalizeMaxResponseBytes (maxResponseBytes options) (defaultMaxResponseBytes client) = Ok max /\
    0 < max /\ starts (Some max) c /\ parseTargetUrl URL_parse t = Ok (target c) /\
    protocol (target c) ∈ SUPPORTED_PROTOCOLS.
Proof.
  unfold fetchJson. destruct (parseTargetUrl URL_parse t) as [u|e] eqn:Hu; [|done].
  destruct (normalizeMaxResponseBytes _ _) as [max|e] eqn:Hm; [|done].
  intros (Hs & -> & _)%performFetch_starts. exists max.
  assert (Hpos : 0 < max).
  { unfold normalizeMaxResponseBytes in Hm. destruct (num_safe_integer _) as [m|]; [|done].
    destruct (Z.leb_spec m 0); [done|]. by injection Hm as ->. }
  split_and!; try done. unfold parseTargetUrl, assertSupportedProtocol in Hu.
  repeat case_match; simplify_eq/=; try done; by eapply bool_decide_eq_true.
Qed.

(** A JSON call, whatever [fetch], the body, the clock and the caller's signal do and
    in whatever order: its outcome is final; it resolves only with a response whose
    text is the decoding of at most [max] received bytes (or empty), and with what
    [json_outcome] makes of that text; while it waits for the response its timer is
    armed or has fired, and once that has fired a failure of [fetch] is reported as a
    time-out, whatever it was. *)
Theorem fetchJson_settles client t options external f c0 f' evs :
  fetch_json client t options external f = (Ok c0, f') ->
  let c := run evs c0 in
  (forall o evs', call_phase c = Settled o -> call_phase (run evs' c) = Settled o) /\
  (forall x, call_phase c = Settled (Ok x) -> exists max r cs raw,
     normalizeMaxResponseBytes (maxResponseBytes options) (defaultMaxResponseBytes client) = Ok max /\
     total cs <= max /\ (raw = utf8_decode (String.concat "" cs) \/ has_body r = false /\ raw = EmptyString) /\
     json_outcome JSON_parse c0 r raw = Ok x) /\
  (call_phase c = Fetching ->
     (num_gt_Z (call_timeoutMs c0) 0 = true -> timer c = true \/ didTimeout c = true) /\
     forall e, didTimeout c = true ->
       call_phase (call_step JSON_parse utf8_decode (FetchRejected e) c) =
         Settled (Throw (RequestTimeoutError (href (target c0)) (call_timeoutMs c0)))).
Proof.
  intros (max & Hm & Hpos & Hs & _)%fetchJson_starts c.
  assert (Hok : phase_ok JSON_parse utf8_decode c).
  { apply run_phase_ok; [|by eapply starts_ok]. intros m Hm'. destruct Hs as (_ & Hmax & _). simplify_eq. lia. }
  destruct (run_fields JSON_parse utf8_decode evs c0) as (Ht & Hb & Hr & Hto). fold c in Ht, Hb, Hr, Hto.
  unfold phase_ok in Hok. split_and!.
  - intros o evs' Ho. by apply call_run_settled.
  - intros x Hx. rewrite Hx, Hb in Hok. destruct Hs as (_ & Hsm & _). rewrite Hsm in Hok.
    destruct Hok as (_ & _ & r & cs & Hcs & Ho). exists max, r, cs.
    destruct Ho as [Ho|[Hbody Ho]]; eexists; (split; [done|]; split; [done|]; split; [by auto|]);
      rewrite Ho; by apply json_outcome_eq.
  - intros Hp. rewrite Hp, Hto in Hok. split; [done|]. intros e Hd.
    unfold call_step. rewrite Hp. unfold onFetchFailed. simpl. by rewrite Hd, Ht, Hto.
Qed.

(** The time-out covers the wait for the response only: from then on neither the clock
    nor the caller's signal changes anything, so a body that stalls is never given up. *)
Theorem stalled_body_never_times_out client t options external f c0 f' evs r cs n :
  fetch_json client t options external f = (Ok c0, f') ->
  call_phase (run evs c0) = Reading r cs n ->
  forall evs', Forall clock_event evs' -> call_phase (run (evs ++ evs') c0) = Reading r cs n.
Proof.
  intros (max & _ & Hpos & Hs & _)%fetchJson_starts Hp evs' Hev.
  assert (Hok : phase_ok JSON_parse utf8_decode (run evs c0)).
  { apply run_phase_ok; [|by eapply starts_ok]. intros m Hm'. destruct Hs as (_ & Hmax & _). simplify_eq. lia. }
  destruct (phase_quiet _ _ _ Hok ltac:(congruence)) as [Ht Hl].
  assert (Hrun : run (evs ++ evs') c0 = run evs' (run evs c0)) by apply foldl_app.
  by rewrite Hrun, quiet_run.
Qed.

Local Abbreviation shot_run := (one_shot_run JSON_parse utf8_decode).
Local Abbreviation shot := (proxyFetch URL_parse isIP createDirect createProxy).

(** Nothing of a factory is left: no dispatcher is current or cached, and each one it
    made was given to [closeDispatcher] once. *)
Definition released (f : ProxyUndiciDispatcherFactory) : Prop :=
  directDispatcher f = None /\ store (d_cache f) = [] /\
  (maxEntries (d_cache f) <> 0 -> (calls f).*1 ≡ₚ seq 0 (length (d_heap f))).

Lemma destroyed_released f : dispatchers_inv createDirect createProxy f -> released (d_destroy_all f).
Proof.
  intros Hf. apply (d_destroy_inv _ _ f (d_settings f)) in Hf.
  assert (Hd : d_destroy_all (DFactory (d_settings f) (d_cache f) (directDispatcher f) (d_heap f) (calls f)) = d_destroy_all f)
    by (by destruct f).
  rewrite Hd in Hf. destruct Hf as [_ _ _ _ (lost & Hl & Hown)]. split; [done|]. split; [done|].
  intros H0. rewrite (Hl H0) in Hown. unfold direct_ids in Hown. simpl in Hown. by rewrite app_nil_r in Hown.
Qed.

(** The factory of a one-shot call: as the call left it until it settles; released
    after that if it is the client's own. *)
Definition shot_ok (x : one_shot) : Prop :=
  ownsDispatcherFactory (os_client x) = true ->
  match os_call x with
  | Ok c => if settled c then released (os_factory x) else dispatchers_inv createDirect createProxy (os_factory x)
  | Throw _ => released (os_factory x)
  end.

Lemma shot_step_ok ev x : shot_ok x -> shot_ok (one_shot_step JSON_parse utf8_decode ev x).
Proof.
  intros Hx. unfold one_shot_step. destruct (os_call x) as [c|e] eqn:Hc; [|done].
  intros Hown. simpl in *. specialize (Hx Hown). rewrite Hc in Hx. revert Hx.
  destruct (settled c) eqn:Hs; intros Hx.
  - assert (Hs' : settled (call_step JSON_parse utf8_decode ev c) = true).
    { unfold settled in *. destruct (call_phase c) eqn:Hp; try done.
      pose proof (call_run_settled JSON_parse utf8_decode [ev] c _ Hp) as H. simpl in H. by rewrite H. }
    by rewrite Hs'.
  - destruct (settled (call_step JSON_parse utf8_decode ev c)); simpl; [|done].
    unfold client_destroy. rewrite Hown. by apply destroyed_released.
Qed.

Lemma shot_start_ok json options t request external x :
  shot json options t request external = Ok x -> shot_ok x.
Proof.
  unfold proxyFetch. rewrite rbind_Ok. intros ([client f] & Hclient & Hx).
  assert (Hown : ownsDispatcherFactory client = true -> dispatchers_inv createDirect createProxy f).
  { unfold newProxyFetchClient in Hclient. rewrite rbind_Ok in Hclient. destruct Hclient as (t0 & _ & H).
    rewrite rbind_Ok in H. destruct H as (m & _ & H). injection H as <- <-. simpl.
    destruct (dispatcherFactory options); [by rewrite bool_decide_true|]. intros _. apply newDispatcherFactory_inv. }
  assert (Hperf : forall u max, let (r, f') := performFetch URL_parse createDirect createProxy client u max request external f in
    (ownsDispatcherFactory client = true -> dispatchers_inv createDirect createProxy f') /\
    forall c, r = Ok c -> settled c = false).
  { intros u max. unfold performFetch. destruct (normalizeTimeout _ _) as [t0|e]; [|done].
    pose proof (d_resolve_inv URL_parse createDirect createProxy (TargetUrl u) f) as Hinv.
    destruct (d_resolve _ _ _ _ f) as [[r|e] f1]; simpl in Hinv; [|by split; [auto|]].
    destruct (createAbortControl t0 external) as [[[? ?] ?] ?]. split; [auto|]. by intros c [= <-]. }
  assert (Hcall : let (r, f') := (if json then fetchJson URL_parse createDirect createProxy else
      fetch URL_parse createDirect createProxy) client t request external f in
    (ownsDispatcherFactory client = true -> dispatchers_inv createDirect createProxy f') /\
    forall c, r = Ok c -> settled c = false).
  { destruct json; unfold fetchJson, fetch; (destruct (parseTargetUrl URL_parse t); [|done]); [|apply Hperf].
    destruct (normalizeMaxResponseBytes _ _); [|done]. apply Hperf. }
  destruct ((if json then _ else _) client t request external f) as [r f'].
  destruct Hcall as [Hinv Hset]. injection Hx as <-. intros Ho. simpl in *.
  destruct r as [c|e].
  - rewrite (Hset c eq_refl). auto.
  - unfold client_destroy. rewrite Ho. by apply destroyed_released, Hinv.
Qed.

Lemma shot_run_client evs x : os_client (shot_run evs x) = os_client x.
Proof.
  revert x. induction evs as [|ev evs IH]; intros x; [done|].
  transitivity (os_client (one_shot_step JSON_parse utf8_decode ev x)); [apply IH|].
  unfold one_shot_step. by destruct (os_call x).
Qed.

(** A one-shot call without a factory of the caller's leaves nothing behind: once it
    has failed at once, resolved or rejected - whatever happened on the way - its
    temporary factory holds no dispatcher, and each one it made was given to
    [closeDispatcher] exactly once (those made while the cache is disabled excepted). *)
Theorem one_shot_releases json options t request external x evs :
  dispatcherFactory options = None ->
  shot json options t request external = Ok x ->
  let y := shot_run evs x in
  match os_call y with Ok c => settled c = true | Throw _ => True end ->
  released (os_factory y).
Proof.
  intros Hnone Hx y Hy.
  assert (Hok : shot_ok y).
  { subst y. apply shot_start_ok in Hx. clear Hy. revert x Hx. induction evs as [|ev evs IH]; intros x Hx; [done|].
    apply (IH (one_shot_step JSON_parse utf8_decode ev x)). by apply shot_step_ok. }
  assert (Hown : ownsDispatcherFactory (os_client y) = true).
  { subst y. rewrite shot_run_client. unfold proxyFetch in Hx. rewrite rbind_Ok in Hx.
    destruct Hx as ([client f] & Hclient & Hx). unfold newProxyFetchClient in Hclient. rewrite rbind_Ok in Hclient.
    destruct Hclient as (t0 & _ & H). rewrite rbind_Ok in H. destruct H as (m & _ & H).
    injection H as Hcl _. subst client.
    destruct ((if json then _ else _) _ t request external f) as [r f']. injection Hx as <-. simpl.
    by rewrite Hnone. }
  specialize (Hok Hown). destruct (os_call y) as [c|e]; [|done]. by rewrite Hy in Hok.
Qed.
End Theorems.

(** ** Concrete inputs *)

Definition demo_url (s : string) : option url :=
  if starts_with "http:" s then Some (Url "http:" "example.com" "" s) else None.
Definition demo_direct (id : nat) : option dispatcher := Some (Dispatcher None (Some (fun _ => true)) None).
Definition demo_proxy (p : string) (id : nat) : option dispatcher := Some (Dispatcher (Some p) (Some (fun _ => true)) None).
Definition demo_json (s : string) : option jsval := if bool_decide (s = "{}"%string) then Some (JObj []) else None.
Definition demo_client : ProxyFetchClient := FetchClient true DEFAULT_TIMEOUT_MS 4.
Definition demo_request : ProxyFetchRequestOptions := FetchOptions None JUndefined JUndefined None None None.
Definition demo_factory : ProxyUndiciDispatcherFactory :=
  newDispatcherFactory demo_url (fun _ => 0) (Some (ProxyCore.Settings None None None [])) demo_env None.
Definition demo_response : Response := FetchResponse 200 [("content-type", "application/json; charset=utf-8")]%string true.

Lemma fetchJson_settles_witness :
  exists c0 f', fetchJson demo_url demo_direct demo_proxy demo_client (TargetString "http://example.com/") demo_request
      None demo_factory = (Ok c0, f') /\
    let c := call_run demo_json id [FetchResolved demo_response; Read (Some "{"%string); Read None; Read (Some "}"%string); ReadDone] c0 in
    call_phase c = Settled (Ok (JsonResult demo_response (DResolution 0 None false false) (JObj []) "{}")) /\
    call_phase (call_run demo_json id [TimerFires; ReadRejected JNull] c) = call_phase c.
Proof.
  eexists _, _. split; [vm_compute; reflexivity|].
  pose proof (fetchJson_settles demo_json id demo_url demo_direct demo_proxy demo_client
    (TargetString "http://example.com/") demo_request None demo_factory _ _
    [FetchResolved demo_response; Read (Some "{"%string); Read None; Read (Some "}"%string); ReadDone]
    ltac:(vm_compute; reflexivity)) as (H & _).
  cbv zeta. split; [vm_compute; reflexivity|].
  apply (H (Ok (JsonResult demo_response (DResolution 0 None false false) (JObj []) "{}"))). vm_compute. reflexivity.
Defined.

Lemma stalled_body_never_times_out_witness :
  exists c0 f', fetchJson demo_url demo_direct demo_proxy demo_client (TargetString "http://example.com/") demo_request
      None demo_factory = (Ok c0, f') /\
    call_phase (call_run demo_json id ([FetchResolved demo_response; Read (Some "{"%string)] ++
      [TimerFires; ExternalAbort JNull; TimerFires]) c0) = Reading demo_response ["{"%string] 1.
Proof.
  eexists _, _. split; [vm_compute; reflexivity|].
  apply (stalled_body_never_times_out demo_json id demo_url demo_direct demo_proxy demo_client
    (TargetString "http://example.com/") demo_request None demo_factory _
    (snd (fetchJson demo_url demo_direct demo_proxy demo_client (TargetString "http://example.com/") demo_request
      None demo_factory)));
    [vm_compute; reflexivity|vm_compute; reflexivity|by repeat constructor].
Defined.

Lemma one_shot_releases_witness :
  exists x, proxyFetch demo_url (fun _ => 0) demo_direct demo_proxy true
      (ClientOptions (Some (ProxyCore.Settings (Some "http://p:8080"%string) None None [])) demo_env None None None None)
      (TargetString "http://example.com/") demo_request None = Ok x /\
    calls (os_factory x) = [] /\
    let y := one_shot_run demo_json id [TimerFires; FetchRejected JNull] x in
    released (os_factory y) /\ (calls (os_factory y)).*1 = [0%nat].
Proof.
  eexists. split; [vm_compute; reflexivity|]. split; [vm_compute; reflexivity|]. cbv zeta. split.
  - eapply (one_shot_releases demo_json id demo_url (fun _ => 0) demo_direct demo_proxy true
      (ClientOptions (Some (ProxyCore.Settings (Some "http://p:8080"%string) None None [])) demo_env None None None None)
      (TargetString "http://example.com/") demo_request None);
      [reflexivity|vm_compute; reflexivity|vm_compute; reflexivity].
  - vm_compute. reflexivity.
Defined.
