(* ===== verification/NodePath.v ===== *)
(** * The POSIX functions of [node:path]

    [normalize], [resolve], [basename] and [extname] as the servers of the repository use
    them, and what the names of a resolved path are.  Paths are strings. *)

From S2P Require Import Prelude.
Local Open Scope Z_scope.

Module Path.
Definition slash : ascii := "/".

(** One segment in [normalizeString]; the segments so far are in reverse. *)
Definition push_segment (allowAboveRoot : bool) (acc : list string) (seg : string) : list string :=
  if bool_decide (seg = ""%string) || bool_decide (seg = "."%string) then acc
  else if bool_decide (seg = ".."%string) then
    match acc with
    | prev :: rest => if bool_decide (prev = ".."%string) then (if allowAboveRoot then seg :: acc else acc) else rest
    | [] => if allowAboveRoot then [seg] else []
    end
  else seg :: acc.

(** [normalizeString]. *)
Definition normalize_segments (allowAboveRoot : bool) (path : string) : list string :=
  rev (foldl (push_segment allowAboveRoot) [] (split_on slash path)).

(** [path.normalize]. *)
Definition normalize (path : string) : string :=
  if is_empty path then "."%string
  else
    let isAbsolute := starts_with "/" path in
    let trailingSeparator := ends_with "/" path in
    let p := join "/" (normalize_segments (negb isAbsolute) path) in
    if is_empty p then
      (if isAbsolute then "/" else if trailingSeparator then "./" else ".")%string
    else
      let p := if trailingSeparator then (p +:+ "/")%string else p in
      if isAbsolute then ("/" +:+ p)%string else p.

(** The loop of [path.resolve] from the last argument to the first, then the working
    directory. *)
Fixpoint resolve_right (cwd : string) (paths : list string) (resolvedPath : string) : string :=
  match paths with
  | [] => (cwd +:+ "/" +:+ resolvedPath)%string
  | path :: paths =>
      if is_empty path then resolve_right cwd paths resolvedPath
      else
        let resolvedPath := (path +:+ "/" +:+ resolvedPath)%string in
        if starts_with "/" path then resolvedPath else resolve_right cwd paths resolvedPath
  end.

(** [path.resolve]. *)
Definition resolve (cwd : string) (paths : list string) : string :=
  ("/" +:+ join "/" (normalize_segments false (resolve_right cwd (rev paths) "")))%string.

Definition basename (path : string) : string := List.last (split_on slash path) ""%string.

(** The names without those the two lists start with. *)
Fixpoint strip_common (a b : list string) : list string * list string :=
  match a, b with
  | x :: a', y :: b' => if String.eqb x y then strip_common a' b' else (a, b)
  | _, _ => (a, b)
  end.

(** [path.relative]. *)
Definition relative (cwd from to : string) : string :=
  let names_of p := normalize_segments false (resolve_right cwd [p] "") in
  let (up, down) := strip_common (names_of from) (names_of to) in
  join "/" (replicate (length up) ".."%string ++ down).

(** [path.extname]. *)
Definition extname (path : string) : string :=
  let base := basename path in
  match last_index_of "." base with
  | None | Some O => EmptyString
  | Some i => if bool_decide (base = ".."%string) then EmptyString else str_drop i base
  end.
End Path.

(** ** Paths *)

Import Path.

(** A name a path goes through. *)
Definition proper (seg : string) : Prop :=
  seg <> ""%string /\ seg <> "."%string /\ seg <> ".."%string /\ index_of slash seg = None.

(** The names of an absolute path. *)
Definition names (path : string) : list string := filter (fun s => s <> ""%string) (split_on slash path).

Definition absolute (segs : list string) : string := ("/" +:+ join "/" segs)%string.

Lemma split_segments c s : Forall (fun w => index_of c w = None) (split_on c s).
Proof.
  induction s as [|d s IH]; [by repeat constructor|]. cbn [split_on].
  destruct (Ascii.eqb c d) eqn:Hd; [by constructor|].
  destruct IH as [|w ws Hw Hws]; [by constructor; [simpl; rewrite Hd|]|].
  constructor; [simpl; by rewrite Hd, Hw|done].
Qed.

Lemma push_proper acc seg : index_of slash seg = None -> Forall proper acc -> Forall proper (push_segment false acc seg).
Proof.
  intros Hs Hacc. unfold push_segment.
  destruct (decide (seg = ""%string)); [by rewrite bool_decide_true|]. rewrite (bool_decide_false (seg = "")) by done.
  destruct (decide (seg = "."%string)); [by rewrite bool_decide_true|]. rewrite (bool_decide_false (seg = ".")) by done.
  destruct (decide (seg = ".."%string)); [rewrite bool_decide_true by done|rewrite (bool_decide_false (seg = "..")) by done].
  - destruct Hacc as [|prev rest Hprev Hrest]; [done|]. simpl. by case_bool_decide; [constructor|].
  - by constructor.
Qed.

Lemma normalized_proper path : Forall proper (normalize_segments false path).
Proof.
  unfold normalize_segments. apply Forall_rev.
  assert (H : forall segs acc, Forall (fun w => index_of slash w = None) segs -> Forall proper acc ->
    Forall proper (foldl (push_segment false) acc segs)).
  { induction segs as [|seg segs IH]; intros acc Hs Hacc; [done|]. apply Forall_cons in Hs as [Hseg Hs].
    by apply IH, push_proper. }
  apply H; [apply split_segments|constructor].
Qed.

Lemma resolve_absolute cwd paths : exists segs, resolve cwd paths = absolute segs /\ Forall proper segs.
Proof. eexists. split; [reflexivity|]. apply normalized_proper. Qed.

(** Proper names survive normalisation. *)
Lemma push_all above acc segs : Forall proper segs -> foldl (push_segment above) acc segs = rev segs ++ acc.
Proof.
  intros H. revert acc. induction H as [|seg segs (H1 & H2 & H3 & _) _ IH]; intros acc; [done|].
  simpl. rewrite IH, <- app_assoc. unfold push_segment. by rewrite !bool_decide_false.
Qed.

Lemma proper_slashless segs : Forall proper segs -> Forall (fun w => index_of slash w = None) segs.
Proof. intros H. eapply Forall_impl; [exact H|]. by intros s (_ & _ & _ & ?). Qed.

Lemma filter_proper segs : Forall proper segs -> filter (fun s => s <> ""%string) segs = segs.
Proof. intros H. apply filter_all. eapply Forall_impl; [exact H|]. by intros s (? & _). Qed.

Lemma names_join segs : Forall proper segs -> names (join "/" segs) = segs.
Proof.
  intros H. unfold names. destruct segs as [|s segs]; [done|].
  rewrite split_on_join by (done || by apply proper_slashless). by apply filter_proper.
Qed.

Lemma names_app a b : names (a +:+ String slash b)%string = names a ++ names b.
Proof. unfold names. by rewrite split_on_app, filter_app. Qed.

Lemma names_absolute segs : Forall proper segs -> names (absolute segs) = segs.
Proof. intros H. unfold absolute. rewrite <- (names_join segs) at 2 by done. apply (names_app ""). Qed.

Lemma normalize_names above path :
  Forall proper (names path) -> normalize_segments above path = names path.
Proof.
  intros H. unfold normalize_segments, names in *.
  enough (He : forall acc, foldl (push_segment above) acc (split_on slash path) =
    rev (filter (fun s => s <> ""%string) (split_on slash path)) ++ acc) by (by rewrite He, app_nil_r, List.rev_involutive).
  induction (split_on slash path) as [|seg segs IH]; intros acc; [done|]. cbn [foldl].
  destruct (decide (seg = ""%string)) as [->|Hne].
  - rewrite filter_cons_False in * by (intros []; done). by apply IH.
  - rewrite filter_cons_True in * by done. apply Forall_cons in H as [(H1 & H2 & H3 & _) H].
    rewrite IH by done. cbn [rev]. rewrite <- app_assoc. unfold push_segment. by rewrite !bool_decide_false.
Qed.

Lemma resolve_right_absolute cwd dir paths acc :
  resolve_right cwd (absolute dir :: paths) acc = (absolute dir +:+ String slash acc)%string.
Proof. reflexivity. Qed.

(** Resolving a relative path against an absolute one. *)
Lemma resolve_below cwd dir rel : Forall proper dir -> Forall proper (names rel) ->
  starts_with "/" rel = false -> resolve cwd [absolute dir; rel] = absolute (dir ++ names rel).
Proof.
  intros Hd Hr Hrel. unfold resolve. cbn [rev app].
  assert (Hright : exists p, resolve_right cwd [rel; absolute dir] "" = p /\ names p = dir ++ names rel).
  { eexists. split; [reflexivity|]. cbn [resolve_right]. destruct (is_empty rel) eqn:He.
    - destruct rel; [|done]. change (names (resolve_right cwd [absolute dir] "") = dir ++ names "").
      rewrite resolve_right_absolute, names_app, names_absolute by done. by rewrite app_nil_r.
    - rewrite Hrel. change (names (resolve_right cwd [absolute dir] (rel +:+ String slash "")) = dir ++ names rel).
      rewrite resolve_right_absolute, !names_app, names_absolute by done. by rewrite app_nil_r. }
  destruct Hright as (p & -> & Hp). unfold absolute. f_equal. f_equal.
  rewrite normalize_names; [done|]. rewrite Hp. by apply Forall_app.
Qed.

Lemma join_ends segs : segs <> [] -> Forall proper segs ->
  is_empty (join "/" segs) = false /\ starts_with "/" (join "/" segs) = false /\ ends_with "/" (join "/" segs) = false.
Proof.
  intros Hne Hp.
  assert (Hsplit : split_on slash (join "/" segs) = segs) by (apply split_on_join; [done|by apply proper_slashless]).
  assert (Hempty : ""%string ∉ segs) by (intros Hin; by apply (proj1 (Forall_forall _ _) Hp) in Hin as [? _]).
  split_and!.
  - destruct (join "/" segs); [|done]. simpl in Hsplit. rewrite <- Hsplit in Hempty. destruct Hempty. by left.
  - apply not_true_is_false. intros [b Hb]%starts_with_iff. rewrite Hb in Hsplit.
    change (split_on slash ("" +:+ String slash b)%string = segs) in Hsplit. rewrite split_on_app in Hsplit.
    rewrite <- Hsplit in Hempty. destruct Hempty. by left.
  - apply not_true_is_false. intros [a Ha]%ends_with_iff. rewrite Ha in Hsplit.
    change (split_on slash (a +:+ String slash "")%string = segs) in Hsplit. rewrite split_on_app in Hsplit.
    rewrite <- Hsplit in Hempty. destruct Hempty. apply elem_of_app. right. by left.
Qed.

Lemma normalize_relative segs : segs <> [] -> Forall proper segs -> normalize (join "/" segs) = join "/" segs.
Proof.
  intros Hne Hp. destruct (join_ends segs Hne Hp) as (He & Hs & Ht). unfold normalize.
  rewrite He, Hs, Ht. simpl negb. rewrite normalize_names by (by rewrite names_join). rewrite names_join by done. by rewrite He.
Qed.

Lemma absolute_app a b : a <> [] -> b <> [] -> absolute (a ++ b) = (absolute a +:+ String slash (join "/" b))%string.
Proof.
  intros Ha Hb. unfold absolute. rewrite <- str_app_assoc. f_equal.
  induction a as [|x [|y a] IH]; [done| |].
  - destruct b as [|z b]; [done|]. done.
  - cbn [app]. rewrite !join_cons2. cbn [app] in IH. rewrite IH by done. by rewrite !str_app_assoc.
Qed.

(** A path is at or below a root. *)
Definition at_or_below (root path : string) : Prop :=
  exists more, Forall proper more /\ names path = names root ++ more.

(** The guard both servers use: an absolute path that is the root or starts with the root
    and a slash. *)
Lemma guarded_below root segs : Forall proper segs ->
  absolute segs = root \/ starts_with (root +:+ "/") (absolute segs) = true -> at_or_below root (absolute segs).
Proof.
  intros Hsegs [Heq|[rest Hrest]%starts_with_iff]; unfold at_or_below.
  - exists []. by rewrite Heq, app_nil_r.
  - rewrite <- str_app_assoc in Hrest. rewrite str_app_cons, str_app_nil_l in Hrest.
    exists (names rest). rewrite Hrest, names_app. split; [|done].
    assert (Hall : Forall proper (names (absolute segs))) by (by rewrite names_absolute).
    rewrite Hrest, names_app in Hall. by apply Forall_app in Hall as [_ H].
Qed.
