(* ===== verification/HttpSurface.v ===== *)
(** * HTTP surface of the bridge ([src/server/bridge-server.ts]: the request handler, the
    upgrade listener and [close]; [src/server/audit-log.ts])

    The handler of GET /health and of the static files of the web application, with
    the POSIX functions of [node:path] it uses.  Paths, as URLs, are strings; reading a
    file is a parameter ([None]: [readFile] rejects), and so is [decodeURIComponent]
    ([None]: it throws).  The state of the bridge is that of [Server]. *)

From S2P Require Import Prelude JsMap NodePath Engine Telemetry Status ServerUtils Server ServerInv Config.
Local Open Scope Z_scope.

(** ** Requests and responses *)

Inductive http_body : Type :=
| NoBody
| FileBody (contents : string)
| NotFoundBody
| HealthBody (payload : list (string * jsval)) (telemetry : BridgeTelemetrySnapshot).

Record HttpResponse : Type := HttpResp {
  statusCode : Z;
  response_headers : list (string * string);
  response_body : http_body
}.

Definition STATIC_CONTENT_TYPES : list (string * string) :=
  [(".html", "text/html; charset=utf-8"); (".js", "text/javascript; charset=utf-8");
   (".mjs", "text/javascript; charset=utf-8"); (".css", "text/css; charset=utf-8");
   (".json", "application/json; charset=utf-8"); (".svg", "image/svg+xml");
   (".ico", "image/x-icon")]%string.

Definition not_found : HttpResponse :=
  HttpResp 404 [("content-type", "application/json")]%string NotFoundBody.

Definition redirect_to_app : HttpResponse := HttpResp 308 [("location", "/app/")]%string NoBody.

(** [replace(/^([/\\])+/, "")]. *)
Fixpoint strip_slashes (s : string) : string :=
  match s with
  | String c r => if Ascii.eqb c "/" || Ascii.eqb c "092" then strip_slashes r else s
  | EmptyString => s
  end.

Section Handler.
Context (cwd : string) (decodeURIComponent : string -> option string) (readFile : string -> option string).
(** [config.appStaticDir], its default applied. *)
Context (appStaticDir : string).

Definition appStaticRoot : string := Path.resolve cwd [appStaticDir].

(** The path a request below /app/ is resolved to, or [None] for [forbidden_path] and
    for what [decodeURIComponent] throws. *)
Definition static_target (rawRelativePath : string) : option string :=
  match decodeURIComponent rawRelativePath with
  | None => None
  | Some decoded =>
      let safeRelativePath := strip_slashes (Path.normalize decoded) in
      let targetPath := Path.resolve cwd [appStaticRoot; safeRelativePath] in
      if is_empty safeRelativePath || starts_with ".." safeRelativePath ||
         (negb (bool_decide (targetPath = appStaticRoot)) &&
          negb (starts_with (appStaticRoot +:+ "/") targetPath))
      then None else Some targetPath
  end.

(** The files asked for, in order, with the one found and its contents. *)
Definition read_static (targetPath : string) : list string * option (string * string) :=
  match readFile targetPath with
  | Some body => ([targetPath], Some (targetPath, body))
  | None =>
      let filePath := Path.resolve cwd [targetPath; "index.html"%string] in
      ([targetPath; filePath], (fun body => (filePath, body)) <$> readFile filePath)
  end.

Definition static_response (filePath body : string) : HttpResponse :=
  let extension := to_lower (Path.extname filePath) in
  HttpResp 200
    [("content-type", default "application/octet-stream"%string (jm_get extension STATIC_CONTENT_TYPES));
     ("cache-control", if bool_decide (extension = ".html"%string) then "no-cache" else "public, max-age=3600");
     ("x-content-type-options", "nosniff")]%string (FileBody body).

(** A request below /app/. *)
Definition serve_static (rawRelativePath : string) : list string * HttpResponse :=
  match static_target rawRelativePath with
  | None => ([], not_found)
  | Some targetPath =>
      let (reads, found) := read_static targetPath in
      (reads, match found with Some (filePath, body) => static_response filePath body | None => not_found end)
  end.

Definition panes_attached (s : server) : Z :=
  foldr (fun c n => Z.of_nat (length (attachedPanes (object c s))) + n) 0 (clients s).

Definition severity_text (s : BridgeStatusSeverity) : string :=
  match s with SevOk => "ok" | SevWarn => "warn" | SevFail => "fail" end.

(** GET /health. *)
Definition health (config : BridgeConfig) (startupTs now : Z) (s : server) : HttpResponse :=
  let telemetrySnapshot := getSafeSnapshot now (Z.of_nat (length (clients s))) (telemetry s) in
  let (panes, polling) := getStats (eng (engine s)) in
  HttpResp 200 [("content-type", "application/json")]%string
    (HealthBody
      [("status", JStr (severity_text (overall (ts_status telemetrySnapshot))));
       ("uptimeMs", JInt (now - startupTs));
       ("clients", JInt (Z.of_nat (length (clients s))));
       ("panesAttached", JInt (panes_attached s));
       ("transportMode", JStr (transportMode config));
       ("runtimeBackends", JArr (JStr <$> runtimeBackends config));
       ("globalInputDisabled", JBool (globalInputDisabled config));
       ("engine", JObj [("watchedPanes", JInt panes); ("polling", JBool polling)]);
       ("timestamp", JInt now)]%string
      telemetrySnapshot).

(** The configuration with another token. *)
Definition with_token (token : option string) (c : BridgeConfig) : BridgeConfig :=
  let '(BConfig a b d e f g h i j k l m n o p q r s t u v w x y z aa _ ab) := c in
  BConfig a b d e f g h i j k l m n o p q r s t u v w x y z aa token ab.

(** The request listener: the files read and the response. *)
Definition onRequest (config : BridgeConfig) (startupTs now : Z) (s : server)
    (appStaticEnabled : bool) (method : string) (url : option string) : list string * HttpResponse :=
  if bool_decide (method = "GET"%string) && bool_decide (url = Some "/health"%string)
  then ([], health config startupTs now s)
  else
    match url with
    | Some (String _ _ as u) =>
        if appStaticEnabled && bool_decide (method = "GET"%string) then
          let requestPath := default EmptyString (head (split_on "?" u)) in
          if bool_decide (requestPath = "/"%string) || bool_decide (requestPath = "/app"%string)
          then ([], redirect_to_app)
          else if bool_decide (requestPath = "/app/"%string) || starts_with "/app/" requestPath
          then serve_static (if bool_decide (requestPath = "/app/"%string) then "index.html" else str_drop 5 requestPath)
          else ([], not_found)
        else ([], not_found)
    | _ => ([], not_found)
    end.
End Handler.

(** The 'upgrade' listener: does the socket go on to the WebSocket server, or is it
    destroyed. *)
Definition onUpgrade (url : option string) : bool := bool_decide (url = Some "/ws"%string).

(** What [close] asks for, in order: every connected socket (what its [close] throws is
    ignored), the WebSocket server, the HTTP server, each after the one before it has
    ended. *)
Inductive close_action : Type :=
| CloseSocket (client : string)
| CloseWebSocketServer
| CloseHttpServer.

Definition close_server (s : server) : list close_action :=
  (CloseSocket <$> clients s) ++ [CloseWebSocketServer; CloseHttpServer].

Import Path.

(** ** Static files *)

Section Static.
Context (cwd : string) (decodeURIComponent : string -> option string) (readFile : string -> option string).
Context (appStaticDir : string).
Local Abbreviation root := (appStaticRoot cwd appStaticDir).

Definition below_root (path : string) : Prop := at_or_below root path.

Lemma target_below raw target : static_target cwd decodeURIComponent appStaticDir raw = Some target ->
  below_root target /\ exists segs, target = absolute segs /\ Forall proper segs.
Proof.
  unfold static_target. destruct (decodeURIComponent raw) as [d|]; [|done].
  set (safe := strip_slashes _). set (t := resolve cwd [_; safe]).
  destruct (resolve_absolute cwd [root; safe]) as (segs & Ht & Hsegs). fold t in Ht.
  destruct (_ || _ || _) eqn:Hguard; [done|]. intros [= <-]. split; [|by exists segs].
  apply orb_false_iff in Hguard as [_ Hguard]. rewrite Ht. apply guarded_below; [done|]. rewrite <- Ht.
  destruct (bool_decide_reflect (t = root)) as [Heq|Hne]; [by left|right]. by apply negb_false_iff in Hguard.
Qed.

Lemma read_below target segs reads found : target = absolute segs -> Forall proper segs ->
  below_root target -> read_static cwd readFile target = (reads, found) ->
  Forall below_root reads /\ forall f b, found = Some (f, b) -> f ∈ reads /\ readFile f = Some b.
Proof.
  intros -> Hsegs Hb. unfold read_static. destruct (readFile (absolute segs)) as [body|] eqn:Hr; intros [= <- <-].
  - split; [by constructor|]. intros f b [= <- <-]. split; [by left|done].
  - assert (Hindex : resolve cwd [absolute segs; "index.html"%string] = absolute (segs ++ ["index.html"%string]))
      by (apply resolve_below; [done|by repeat constructor|done]).
    rewrite Hindex. split.
    + repeat constructor; [done|]. destruct Hb as (more & Hmore & Hn). exists (more ++ ["index.html"%string]).
      assert (Hp : proper "index.html") by done.
      split; [by apply Forall_app; split; [|constructor]|].
      rewrite names_absolute in Hn by done. rewrite names_absolute by (by apply Forall_app; split; [|constructor]).
      by rewrite Hn, app_assoc.
    + intros f b. destruct (readFile (absolute (segs ++ _))) eqn:Hf; [|done]. intros [= <- <-].
      split; [right; left|done].
Qed.

(** C27. Whatever is requested, whatever [decodeURIComponent] makes of it and whatever files
    there are: every path the handler reads goes through the names of the static
    directory and then through proper names, without "..", and what a response carries
    from a file is the contents of such a path. *)
Theorem static_files_confined config startupTs now s enabled method url :
  let (reads, response) := onRequest cwd decodeURIComponent readFile appStaticDir config startupTs now s enabled method url in
  Forall below_root reads /\
  forall b, response_body response = FileBody b -> exists f, f ∈ reads /\ readFile f = Some b.
Proof.
  unfold onRequest. destruct (_ && _).
  { unfold health. destruct (getStats _). by split. }
  destruct url as [[|ch u]|]; [by split| |by split]. destruct (enabled && _); [|by split].
  destruct (_ || _); [by split|]. destruct (_ || _); [|by split].
  unfold serve_static. destruct (static_target _ _ _ _) as [target|] eqn:Ht; [|by split].
  apply target_below in Ht as (Hb & segs & Ht & Hsegs).
  destruct (read_static cwd readFile target) as [reads found] eqn:Hr.
  destruct (read_below _ _ _ _ Ht Hsegs Hb Hr) as [Hall Hfound]. split; [done|].
  destruct found as [[f b]|]; [|done]. intros b' [= <-]. exists f. by apply Hfound.
Qed.

(** *** What is served *)

Definition root_names : list string := names root.

Lemma root_absolute : root = absolute root_names /\ Forall proper root_names.
Proof.
  unfold root_names, appStaticRoot. destruct (resolve_absolute cwd [appStaticDir]) as (segs & -> & Hsegs).
  by rewrite names_absolute.
Qed.

(** A request for a file by names that do not start with a dot pair or a backslash is
    answered with that file of the static directory, under the content type of its
    extension; if it cannot be read, with the index.html below it; else with 404. *)
Theorem static_file_served raw segs :
  root_names <> [] -> segs <> [] -> Forall proper segs ->
  decodeURIComponent raw = Some (join "/" segs) ->
  starts_with ".." (join "/" segs) = false -> starts_with "\" (join "/" segs) = false ->
  let file := absolute (root_names ++ segs) in
  let index := absolute (root_names ++ segs ++ ["index.html"%string]) in
  serve_static cwd decodeURIComponent readFile appStaticDir raw =
    match readFile file, readFile index with
    | Some body, _ => ([file], static_response file body)
    | None, Some body => ([file; index], static_response index body)
    | None, None => ([file; index], not_found)
    end.
Proof.
  intros Hroot Hne Hp Hd Hdots Hback file index. destruct root_absolute as [Hr Hrp].
  destruct (join_ends segs Hne Hp) as (He & Hs & _).
  unfold serve_static, static_target. rewrite Hd, normalize_relative by done.
  assert (Hstrip : strip_slashes (join "/" segs) = join "/" segs).
  { destruct (join "/" segs) as [|c r]; [done|]. cbn [strip_slashes].
    destruct (Ascii.eqb_spec c "/") as [->|_]; [done|]. by destruct (Ascii.eqb_spec c "092") as [->|_]. }
  rewrite Hstrip, He, Hdots. rewrite Hr, resolve_below by (done || by rewrite names_join).
  rewrite names_join by done. fold file.
  assert (Hstart : starts_with (absolute root_names +:+ "/") file = true).
  { apply starts_with_iff. exists (join "/" segs). unfold file. rewrite absolute_app by done.
    rewrite <- str_app_assoc. by rewrite str_app_cons, str_app_nil_l. }
  rewrite Hstart, andb_false_r. simpl orb. cbn iota. unfold read_static.
  destruct (readFile file) as [body|]; [done|].
  assert (Hindex : resolve cwd [file; "index.html"%string] = index).
  { unfold file. rewrite resolve_below; [unfold index; by rewrite <- app_assoc| |by repeat constructor|done].
    by apply Forall_app. }
  rewrite Hindex. by destruct (readFile index).
Qed.

(** With the root of the file system as static directory nothing below it is served:
    the guard asks for a path that starts with "//". *)
Theorem filesystem_root_not_served raw target :
  root_names = [] -> static_target cwd decodeURIComponent appStaticDir raw = Some target -> target = "/"%string.
Proof.
  intros Hroot Ht. destruct root_absolute as [Hr _]. rewrite Hroot in Hr. change (root = "/"%string) in Hr.
  destruct (target_below raw target Ht) as [_ (segs & -> & Hsegs)].
  unfold static_target in Ht. destruct (decodeURIComponent raw); [|done].
  destruct (_ || _ || _) eqn:Hg; [done|]. apply (inj Some) in Ht. rewrite Ht, Hr in Hg.
  apply orb_false_iff in Hg as [_ Hg]. destruct (bool_decide_reflect (absolute segs = "/"%string)) as [Heq|_]; [done|].
  apply negb_false_iff in Hg.
  destruct segs as [|seg segs]; [done|]. apply Forall_cons in Hsegs as [(Hne & _ & _ & Hsl) _].
  destruct seg as [|c seg]; [done|]. exfalso. cbn [index_of] in Hsl.
  assert (Hh : exists r, join "/" (String c seg :: segs) = String c r) by (destruct segs; eexists; reflexivity).
  destruct Hh as [r Hh]. unfold absolute in Hg. rewrite Hh in Hg.
  destruct (Ascii.eqb_spec slash c) as [|Hc]; [done|]. apply starts_with_iff in Hg as [b Hb].
  apply Hc. rewrite str_app_cons in Hb. simpl in Hb. by injection Hb.
Qed.
End Static.

(** ** Health *)

(** In every reachable state of the server, whatever its clients did, the report counts
    between no pane and the attach limit for each connected client, and it says the same
    whatever the token is. *)
Theorem health_within_limits cwd decode readFile dir (config : BridgeConfig) (cfg : ServerConfig)
    (JSON_parse : string -> option jsval) (localeCompare : string -> string -> Z)
    (sha256_hex : string -> string) (evs : list (Z * event)) startupTs now enabled :
  0 <= Server.maxHistoryEvents cfg ->
  let s := srv (steps JSON_parse localeCompare sha256_hex cfg evs (init_system cfg)).2 in
  exists payload telemetry clients attached,
    onRequest cwd decode readFile dir config startupTs now s enabled "GET" (Some "/health"%string) =
      ([], HttpResp 200 [("content-type", "application/json")]%string (HealthBody payload telemetry)) /\
    jm_get "clients"%string payload = Some (JInt clients) /\
    jm_get "panesAttached"%string payload = Some (JInt attached) /\
    0 <= attached <= clients * Z.max 0 (Server.maxAttachedPanes cfg) /\
    forall token, health (with_token token config) startupTs now s = health config startupTs now s.
Proof.
  intros Hmax s.
  eexists _, _, (Z.of_nat (length (clients s))), (panes_attached s). split; [reflexivity|].
  split; [reflexivity|]. split; [reflexivity|]. split; [|by intros token; destruct config].
  assert (Hbound : forall c, Z.of_nat (length (attachedPanes (object c s))) <= Z.max 0 (Server.maxAttachedPanes cfg)).
  { intros c. destruct (every_run_ok cfg JSON_parse localeCompare sha256_hex evs Hmax) as [_ [Hs _]].
    apply (co_max _ _ (so_objects _ _ _ Hs c)). }
  unfold panes_attached. induction (clients s) as [|c cs IH]; [simpl; lia|]. cbn [foldr length].
  specialize (Hbound c). nia.
Qed.

(** ** The audit log *)

Module Audit_.
(** What one call of [AuditLogger.write] meets: a sink that throws, an append that
    fails. *)
Record outcome_of_write : Type := WriteOutcome {
  sink_throws : option string;
  append_fails : option string
}.

(** The log file, what the sink got and the warnings. *)
Record log : Type := Log {
  file : string;
  sunk : list (Z * AuditEvent);
  warnings : list string
}.

(** [new AuditLogger]: [path] and whether the logger has an [audit] function. *)
Record AuditLogger : Type := Logger {
  log_path : option string;
  has_sink : bool
}.

Section Audit.
Context (JSON_stringify : Z * AuditEvent -> string).

Definition writeToSink (l : AuditLogger) (o : outcome_of_write) (e : Z * AuditEvent) (g : log) : log :=
  if negb (has_sink l) then g
  else
    match sink_throws o with
    | None => Log (file g) (sunk g ++ [e]) (warnings g)
    | Some m => Log (file g) (sunk g ++ [e]) (warnings g ++ [("[bridge] audit sink failed: " +:+ m)%string])
    end.

(** [AuditLogger.write] at time [now]. *)
Definition write (l : AuditLogger) (now : Z) (o : outcome_of_write) (event : AuditEvent) (g : log) : log :=
  let persistedEvent := (now, event) in
  let g := writeToSink l o persistedEvent g in
  match log_path l with
  | None | Some EmptyString => g
  | Some path =>
      let line := JSON_stringify persistedEvent in
      match append_fails o with
      | None => Log (file g +:+ line +:+ String "010" "") (sunk g) (warnings g)
      | Some m => Log (file g) (sunk g) (warnings g ++ [("[bridge] audit write failed: " +:+ m)%string])
      end
  end.

Definition write_all (l : AuditLogger) (calls : list (Z * outcome_of_write * AuditEvent)) (g : log) : log :=
  foldl (fun g c => write l c.1.1 c.1.2 c.2 g) g calls.

Definition succeeded (calls : list (Z * outcome_of_write * AuditEvent)) : list (Z * AuditEvent) :=
  omap (fun c => match append_fails c.1.2 with None => Some (c.1.1, c.2) | Some _ => None end) calls.

(** [JSON.stringify] escapes line breaks. *)
Context (one_line : forall e, index_of "010" (JSON_stringify e) = None).

Lemma write_all_file l path calls g : log_path l = Some path -> path <> EmptyString ->
  file (write_all l calls g) =
    (file g +:+ foldr (fun e s => JSON_stringify e +:+ String "010" s) EmptyString (succeeded calls))%string.
Proof.
  intros Hl Hp. revert g. induction calls as [|[[now o] e] calls IH]; intros g; [by rewrite str_app_nil_r|].
  simpl. rewrite IH. unfold write. rewrite Hl. destruct path as [|ch path]; [done|].
  assert (Hf : file (writeToSink l o (now, e) g) = file g)
    by (unfold writeToSink; by repeat case_match).
  destruct (append_fails o); simpl; rewrite Hf; [done|].
  by rewrite <- !str_app_assoc.
Qed.

(** With a path configured the log holds one line per event whose append succeeded, in
    order, each the event as it was, behind what was there before; and a sink gets
    every event in order, whatever fails: no event is logged twice or garbled by
    another, and writing an event never fails. *)
Theorem audit_log_lines l path calls before :
  log_path l = Some path -> path <> EmptyString ->
  before = EmptyString \/ (exists b, before = (b +:+ String "010" "")%string) ->
  let g := write_all l calls (Log before [] []) in
  split_on "010" (file g) =
    removelast (split_on "010" before) ++ (JSON_stringify <$> succeeded calls) ++ [""%string] /\
  sunk g = if has_sink l then (fun c => (c.1.1, c.2)) <$> calls else [].
Proof.
  intros Hl Hp Hbefore g. split.
  - unfold g. rewrite (write_all_file l path) by done. simpl.
    assert (Hlines : split_on "010" (foldr (fun e s => JSON_stringify e +:+ String "010" s)%string EmptyString (succeeded calls)) =
      (JSON_stringify <$> succeeded calls) ++ [""%string]).
    { induction (succeeded calls) as [|e es IH]; [done|]. simpl. by rewrite split_on_sep, IH. }
    destruct Hbefore as [->|[b ->]]; [by rewrite str_app_nil_l, Hlines|].
    rewrite <- str_app_assoc. rewrite str_app_cons, str_app_nil_l.
    assert (Hb : split_on "010" (b +:+ String "010" "")%string = split_on "010" b ++ [""%string]) by (by rewrite split_on_app).
    rewrite Hb, removelast_last, split_on_app, Hlines. done.
  - assert (Hsunk : forall g0, sunk (write_all l calls g0) =
      sunk g0 ++ if has_sink l then (fun c => (c.1.1, c.2)) <$> calls else []).
    { induction calls as [|[[now o] e] calls IH]; intros g0; simpl; [by case_match; rewrite app_nil_r|].
      rewrite IH. unfold write. rewrite Hl. destruct path as [|ch path]; [done|].
      assert (Hs : sunk (writeToSink l o (now, e) g0) = sunk g0 ++ if has_sink l then [(now, e)] else []).
      { unfold writeToSink. destruct (has_sink l); simpl; [by case_match|by rewrite app_nil_r]. }
      destruct (append_fails o); simpl; rewrite Hs, <- app_assoc; f_equal; by destruct (has_sink l). }
    apply Hsunk.
Qed.
End Audit.
End Audit_.

(** ** Concrete inputs *)

Definition demo_files (path : string) : option string :=
  if bool_decide (path = "/srv/apps/web/app.js"%string) then Some "code"%string else None.

Lemma static_file_served_witness :
  serve_static "/srv" Some demo_files "apps/web" "app.js" =
    (["/srv/apps/web/app.js"%string], static_response "/srv/apps/web/app.js" "code").
Proof.
  exact (static_file_served "/srv" Some demo_files "apps/web" "app.js" ["app.js"%string]
    ltac:(by vm_compute) ltac:(done) ltac:(by repeat constructor) eq_refl eq_refl eq_refl).
Defined.

Lemma filesystem_root_not_served_witness : static_target "/srv" Some "/" "." = Some "/"%string.
Proof.
  destruct (static_target "/srv" Some "/" ".") as [t|] eqn:Ht; [|by vm_compute in Ht].
  f_equal. exact (filesystem_root_not_served "/srv" Some "/" "." t eq_refl Ht).
Defined.

Example dotdot_refused :
  serve_static "/srv" (fun _ => Some "../../etc/passwd"%string) (fun _ => Some "secret"%string) "apps/web" "..%2f..%2fetc%2fpasswd" =
    ([], not_found).
Proof. vm_compute. reflexivity. Qed.

Lemma health_within_limits_witness :
  exists payload telemetry clients attached,
    onRequest "/" Some (fun _ => None) "apps/web"
      (BConfig [] "" "" (num_of_Z 0) "ws" "" None (num_of_Z 0) "" (num_of_Z 0) true None None true true "" (num_of_Z 0)
        (num_of_Z 0) (num_of_Z 0) (num_of_Z 0) (num_of_Z 0) (num_of_Z 0) (num_of_Z 0) false false (num_of_Z 0) None None)
      0 0 (srv demo_steps.2) true "GET" (Some "/health"%string) =
      ([], HttpResp 200 [("content-type", "application/json")]%string (HealthBody payload telemetry)) /\
    jm_get "panesAttached"%string payload = Some (JInt attached) /\
    0 <= attached <= clients * Z.max 0 (Server.maxAttachedPanes demo_config).
Proof.
  destruct (health_within_limits "/" Some (fun _ => None) "apps/web"
    (BConfig [] "" "" (num_of_Z 0) "ws" "" None (num_of_Z 0) "" (num_of_Z 0) true None None true true "" (num_of_Z 0)
      (num_of_Z 0) (num_of_Z 0) (num_of_Z 0) (num_of_Z 0) (num_of_Z 0) (num_of_Z 0) false false (num_of_Z 0) None None)
    demo_config demo_parse (fun _ _ => 0) (fun s => s) demo_session 0 0 true)
    as (payload & t & c & a & H & _ & Ha & Hb & _); [vm_compute; discriminate|].
  exists payload, t, c, a. split; [exact H|]. by split.
Defined.

Definition demo_line (e : Z * AuditEvent) : string := int_to_string e.1.
Definition demo_write (fails : option string) : Audit_.outcome_of_write := Audit_.WriteOutcome None fails.

Lemma demo_line_ok e : index_of "010" (demo_line (Z.abs e.1, e.2)) = None.
Proof.
  unfold demo_line. simpl. apply index_of_None_forallb. eapply str_forallb_impl; [|apply (int_to_string_digits (Z.abs e.1)); lia].
  intros c Hc. destruct (Ascii.eqb_spec "010" c) as [<-|]; [done|done].
Defined.

Lemma audit_log_lines_witness :
  let line := fun e => demo_line (Z.abs e.1, e.2) in
  let e := Audit "attach" "ann" [] in
  split_on "010" (Audit_.file (Audit_.write_all line (Audit_.Logger (Some "/log"%string) false)
    [(5, demo_write None, e); (6, demo_write (Some "full"%string), e); (7, demo_write None, e)] (Audit_.Log "" [] []))) =
    ["5"; "7"; ""]%string.
Proof.
  pose proof (Audit_.audit_log_lines (fun e => demo_line (Z.abs e.1, e.2)) demo_line_ok
    (Audit_.Logger (Some "/log"%string) false) "/log"
    [(5, demo_write None, Audit "attach" "ann" []); (6, demo_write (Some "full"%string), Audit "attach" "ann" []);
     (7, demo_write None, Audit "attach" "ann" [])] "" eq_refl ltac:(done) (or_introl eq_refl)) as [H _].
  cbv zeta. rewrite H. vm_compute. reflexivity.
Defined.
