(* ===== verification/WebApp.v ===== *)
(** * The web application ([apps/web/app.js])

    The state [S] with every handler of the page: user actions, socket listeners and
    timers.  Sockets are numbers; each has a [readyState].  A promise of [sendRequest]
    that settles runs its continuation after the handler that settled it; continuations
    are named by the function that awaits ([waiter]).  What the page does is a list of
    actions; texts of errors that the platform words are left out.  [JSON.parse], the validity of a WebSocket URL and the text of a time are
    parameters; the random part of a delay is an argument of the step.  Drawing lists of
    sessions is left out but for the HTML text of their rows. *)

From S2P Require Import Prelude JsMap.
Local Open Scope Z_scope.

(** ** Configuration and state *)

Definition heartbeatMs : Z := 15000.
Definition heartbeatStaleMs : Z := 45000.
Definition reconnectBaseMs : Z := 1000.
Definition reconnectMaxMs : Z := 12000.
Definition requestTimeoutMs : Z := 8000.
Definition maxOutputChars : Z := 200000.
Definition maxCommandHistory : nat := 60.

Inductive readyState : Type := CONNECTING | OPEN | CLOSING | CLOSED.

#[export] Instance readyState_eq_dec : EqDecision readyState.
Proof. solve_decision. Defined.

(** Who awaits a request. *)
Inductive waiter : Type :=
| AwaitAuth
| AwaitHeartbeat
| AwaitList (silent : bool)
| AwaitDetach
| AwaitAttach (paneId : string) (isResume : bool)
| AwaitPolicy
| AwaitInput (row : nat)
| AwaitDisconnect.

Record pending_request : Type := Pending {
  p_waiter : waiter;
  p_type : string;
  p_silent : bool
}.

(** What a promise settles with: the message, or the text of the error. *)
Abbreviation settlement := (result string (list (string * jsval))).

Record command_row : Type := Row {
  row_id : nat;
  row_paneId : string;
  row_text : string;
  row_state : string;
  row_detail : option string;
  row_at : Z
}.

(** The fields of the page the code reads. *)
Record form : Type := Form {
  wsUrl : string;
  authTokenText : string;
  autoReconnect : bool;
  commandInput : string;
  appendNewline : bool;
  overrideLane : bool
}.

#[export] Instance form_eq_dec : EqDecision form.
Proof. solve_decision. Defined.

Inductive level : Type := info | warn | error_level.

Inductive action : Type :=
| Dial (socket : nat) (url : string)
| Send (socket : nat) (type requestId : string) (timestamp : Z) (payload : list (string * jsval))
| CloseSocket (socket : nat)
| Status (state text : string)
| Notify (text : string) (l : level)
| RetryIn (delay : Z).

(** [S] and the page.  [sockets]: their states, and whether they were made to reconnect.
    [queue]: promises settled during the current handler. *)
Record app : Type := App {
  ws : option nat;
  desired : bool;
  manualClose : bool;
  ready : bool;
  authed : bool;
  reconnectAttempt : Z;
  reconnectTimer : bool;
  heartbeatTimer : bool;
  lastHeartbeatAckAt : Z;
  requestSeq : Z;
  pending : list (string * pending_request);
  panes : list jsval;
  sessions : list jsval;
  activePane : option string;
  lastSeqByPane : list (string * num);
  inputEnabled : bool;
  globalInputDisabled : bool;
  commands : list command_row;
  rows_made : nat;
  outputLog : string;
  page : form;
  sockets : list (readyState * bool);
  queue : list (waiter * settlement)
}.

(** Assignments. *)
Definition set_ws v x :=
  App v (desired x) (manualClose x) (ready x) (authed x) (reconnectAttempt x) (reconnectTimer x)
    (heartbeatTimer x) (lastHeartbeatAckAt x) (requestSeq x) (pending x) (panes x) (sessions x)
    (activePane x) (lastSeqByPane x) (inputEnabled x) (globalInputDisabled x) (commands x)
    (rows_made x) (outputLog x) (page x) (sockets x) (queue x).
Definition set_desired v x :=
  App (ws x) v (manualClose x) (ready x) (authed x) (reconnectAttempt x) (reconnectTimer x)
    (heartbeatTimer x) (lastHeartbeatAckAt x) (requestSeq x) (pending x) (panes x) (sessions x)
    (activePane x) (lastSeqByPane x) (inputEnabled x) (globalInputDisabled x) (commands x)
    (rows_made x) (outputLog x) (page x) (sockets x) (queue x).
Definition set_manualClose v x :=
  App (ws x) (desired x) v (ready x) (authed x) (reconnectAttempt x) (reconnectTimer x)
    (heartbeatTimer x) (lastHeartbeatAckAt x) (requestSeq x) (pending x) (panes x) (sessions x)
    (activePane x) (lastSeqByPane x) (inputEnabled x) (globalInputDisabled x) (commands x)
    (rows_made x) (outputLog x) (page x) (sockets x) (queue x).
Definition set_ready v x :=
  App (ws x) (desired x) (manualClose x) v (authed x) (reconnectAttempt x) (reconnectTimer x)
    (heartbeatTimer x) (lastHeartbeatAckAt x) (requestSeq x) (pending x) (panes x) (sessions x)
    (activePane x) (lastSeqByPane x) (inputEnabled x) (globalInputDisabled x) (commands x)
    (rows_made x) (outputLog x) (page x) (sockets x) (queue x).
Definition set_authed v x :=
  App (ws x) (desired x) (manualClose x) (ready x) v (reconnectAttempt x) (reconnectTimer x)
    (heartbeatTimer x) (lastHeartbeatAckAt x) (requestSeq x) (pending x) (panes x) (sessions x)
    (activePane x) (lastSeqByPane x) (inputEnabled x) (globalInputDisabled x) (commands x)
    (rows_made x) (outputLog x) (page x) (sockets x) (queue x).
Definition set_reconnectAttempt v x :=
  App (ws x) (desired x) (manualClose x) (ready x) (authed x) v (reconnectTimer x)
    (heartbeatTimer x) (lastHeartbeatAckAt x) (requestSeq x) (pending x) (panes x) (sessions x)
    (activePane x) (lastSeqByPane x) (inputEnabled x) (globalInputDisabled x) (commands x)
    (rows_made x) (outputLog x) (page x) (sockets x) (queue x).
Definition set_reconnectTimer v x :=
  App (ws x) (desired x) (manualClose x) (ready x) (authed x) (reconnectAttempt x) v
    (heartbeatTimer x) (lastHeartbeatAckAt x) (requestSeq x) (pending x) (panes x) (sessions x)
    (activePane x) (lastSeqByPane x) (inputEnabled x) (globalInputDisabled x) (commands x)
    (rows_made x) (outputLog x) (page x) (sockets x) (queue x).
Definition set_heartbeatTimer v x :=
  App (ws x) (desired x) (manualClose x) (ready x) (authed x) (reconnectAttempt x)
    (reconnectTimer x) v (lastHeartbeatAckAt x) (requestSeq x) (pending x) (panes x) (sessions
    x) (activePane x) (lastSeqByPane x) (inputEnabled x) (globalInputDisabled x) (commands x)
    (rows_made x) (outputLog x) (page x) (sockets x) (queue x).
Definition set_lastHeartbeatAckAt v x :=
  App (ws x) (desired x) (manualClose x) (ready x) (authed x) (reconnectAttempt x)
    (reconnectTimer x) (heartbeatTimer x) v (requestSeq x) (pending x) (panes x) (sessions x)
    (activePane x) (lastSeqByPane x) (inputEnabled x) (globalInputDisabled x) (commands x)
    (rows_made x) (outputLog x) (page x) (sockets x) (queue x).
Definition set_requestSeq v x :=
  App (ws x) (desired x) (manualClose x) (ready x) (authed x) (reconnectAttempt x)
    (reconnectTimer x) (heartbeatTimer x) (lastHeartbeatAckAt x) v (pending x) (panes x)
    (sessions x) (activePane x) (lastSeqByPane x) (inputEnabled x) (globalInputDisabled x)
    (commands x) (rows_made x) (outputLog x) (page x) (sockets x) (queue x).
Definition set_pending v x :=
  App (ws x) (desired x) (manualClose x) (ready x) (authed x) (reconnectAttempt x)
    (reconnectTimer x) (heartbeatTimer x) (lastHeartbeatAckAt x) (requestSeq x) v (panes x)
    (sessions x) (activePane x) (lastSeqByPane x) (inputEnabled x) (globalInputDisabled x)
    (commands x) (rows_made x) (outputLog x) (page x) (sockets x) (queue x).
Definition set_panes v x :=
  App (ws x) (desired x) (manualClose x) (ready x) (authed x) (reconnectAttempt x)
    (reconnectTimer x) (heartbeatTimer x) (lastHeartbeatAckAt x) (requestSeq x) (pending x) v
    (sessions x) (activePane x) (lastSeqByPane x) (inputEnabled x) (globalInputDisabled x)
    (commands x) (rows_made x) (outputLog x) (page x) (sockets x) (queue x).
Definition set_sessions v x :=
  App (ws x) (desired x) (manualClose x) (ready x) (authed x) (reconnectAttempt x)
    (reconnectTimer x) (heartbeatTimer x) (lastHeartbeatAckAt x) (requestSeq x) (pending x)
    (panes x) v (activePane x) (lastSeqByPane x) (inputEnabled x) (globalInputDisabled x)
    (commands x) (rows_made x) (outputLog x) (page x) (sockets x) (queue x).
Definition set_activePane v x :=
  App (ws x) (desired x) (manualClose x) (ready x) (authed x) (reconnectAttempt x)
    (reconnectTimer x) (heartbeatTimer x) (lastHeartbeatAckAt x) (requestSeq x) (pending x)
    (panes x) (sessions x) v (lastSeqByPane x) (inputEnabled x) (globalInputDisabled x)
    (commands x) (rows_made x) (outputLog x) (page x) (sockets x) (queue x).
Definition set_lastSeqByPane v x :=
  App (ws x) (desired x) (manualClose x) (ready x) (authed x) (reconnectAttempt x)
    (reconnectTimer x) (heartbeatTimer x) (lastHeartbeatAckAt x) (requestSeq x) (pending x)
    (panes x) (sessions x) (activePane x) v (inputEnabled x) (globalInputDisabled x) (commands
    x) (rows_made x) (outputLog x) (page x) (sockets x) (queue x).
Definition set_inputEnabled v x :=
  App (ws x) (desired x) (manualClose x) (ready x) (authed x) (reconnectAttempt x)
    (reconnectTimer x) (heartbeatTimer x) (lastHeartbeatAckAt x) (requestSeq x) (pending x)
    (panes x) (sessions x) (activePane x) (lastSeqByPane x) v (globalInputDisabled x) (commands
    x) (rows_made x) (outputLog x) (page x) (sockets x) (queue x).
Definition set_globalInputDisabled v x :=
  App (ws x) (desired x) (manualClose x) (ready x) (authed x) (reconnectAttempt x)
    (reconnectTimer x) (heartbeatTimer x) (lastHeartbeatAckAt x) (requestSeq x) (pending x)
    (panes x) (sessions x) (activePane x) (lastSeqByPane x) (inputEnabled x) v (commands x)
    (rows_made x) (outputLog x) (page x) (sockets x) (queue x).
Definition set_commands v x :=
  App (ws x) (desired x) (manualClose x) (ready x) (authed x) (reconnectAttempt x)
    (reconnectTimer x) (heartbeatTimer x) (lastHeartbeatAckAt x) (requestSeq x) (pending x)
    (panes x) (sessions x) (activePane x) (lastSeqByPane x) (inputEnabled x)
    (globalInputDisabled x) v (rows_made x) (outputLog x) (page x) (sockets x) (queue x).
Definition set_rows_made v x :=
  App (ws x) (desired x) (manualClose x) (ready x) (authed x) (reconnectAttempt x)
    (reconnectTimer x) (heartbeatTimer x) (lastHeartbeatAckAt x) (requestSeq x) (pending x)
    (panes x) (sessions x) (activePane x) (lastSeqByPane x) (inputEnabled x)
    (globalInputDisabled x) (commands x) v (outputLog x) (page x) (sockets x) (queue x).
Definition set_outputLog v x :=
  App (ws x) (desired x) (manualClose x) (ready x) (authed x) (reconnectAttempt x)
    (reconnectTimer x) (heartbeatTimer x) (lastHeartbeatAckAt x) (requestSeq x) (pending x)
    (panes x) (sessions x) (activePane x) (lastSeqByPane x) (inputEnabled x)
    (globalInputDisabled x) (commands x) (rows_made x) v (page x) (sockets x) (queue x).
Definition set_page v x :=
  App (ws x) (desired x) (manualClose x) (ready x) (authed x) (reconnectAttempt x)
    (reconnectTimer x) (heartbeatTimer x) (lastHeartbeatAckAt x) (requestSeq x) (pending x)
    (panes x) (sessions x) (activePane x) (lastSeqByPane x) (inputEnabled x)
    (globalInputDisabled x) (commands x) (rows_made x) (outputLog x) v (sockets x) (queue x).
Definition set_sockets v x :=
  App (ws x) (desired x) (manualClose x) (ready x) (authed x) (reconnectAttempt x)
    (reconnectTimer x) (heartbeatTimer x) (lastHeartbeatAckAt x) (requestSeq x) (pending x)
    (panes x) (sessions x) (activePane x) (lastSeqByPane x) (inputEnabled x)
    (globalInputDisabled x) (commands x) (rows_made x) (outputLog x) (page x) v (queue x).
Definition set_queue v x :=
  App (ws x) (desired x) (manualClose x) (ready x) (authed x) (reconnectAttempt x)
    (reconnectTimer x) (heartbeatTimer x) (lastHeartbeatAckAt x) (requestSeq x) (pending x)
    (panes x) (sessions x) (activePane x) (lastSeqByPane x) (inputEnabled x)
    (globalInputDisabled x) (commands x) (rows_made x) (outputLog x) (page x) (sockets x) v.

(** ** Handlers *)

(** Code that changes the state and does things. *)
Abbreviation handler := (app -> list action * app).

Definition skip : handler := fun x => ([], x).
Definition update (f : app -> app) : handler := fun x => ([], f x).
Definition emit (a : action) : handler := fun x => ([a], x).
Definition seq_ (a b : handler) : handler := fun x =>
  let (o1, x) := a x in let (o2, x) := b x in (o1 ++ o2, x).
Infix ";;" := seq_ (at level 100, right associativity).
Definition when (b : bool) (h : handler) : handler := if b then h else skip.

Definition notify text l := emit (Notify text l).
Definition setStatus state text := emit (Status state text).

(** [S.ws.readyState], when there is a socket. *)
Definition state_of (i : nat) (x : app) : option readyState := fst <$> sockets x !! i.

Definition set_state (i : nat) (s : readyState) (x : app) : app :=
  set_sockets (alter (fun p => (s, p.2)) i (sockets x)) x.

Definition ws_state (x : app) : option readyState := i ← ws x; state_of i x.

Definition ws_live (x : app) : bool :=
  match ws_state x with Some CONNECTING | Some OPEN => true | _ => false end.

(** [S.ws.close()]. *)
Definition close_ws : handler := fun x =>
  match ws x with
  | Some i => ([CloseSocket i], set_state i CLOSING x)
  | None => ([], x)
  end.

(** [if (S.ws && S.ws.readyState <= WebSocket.OPEN) S.ws.close()]. *)
Definition close_live : handler := fun x => if ws_live x then close_ws x else ([], x).

(** A promise settles: its continuation is queued. *)
Definition settle (w : waiter) (r : settlement) : handler := update (fun x => set_queue (queue x ++ [(w, r)]) x).

Definition request_id (prefix : string) (now seq : Z) : string :=
  (prefix +:+ "-" +:+ int_to_string now +:+ "-" +:+ int_to_string seq)%string.

(** [sendRequest]. *)
Definition sendRequest (now : Z) (prefix type : string) (payload : list (string * jsval)) (silent : bool)
    (w : waiter) : handler := fun x =>
  match ws x, ws_state x with
  | Some i, Some OPEN =>
      let seq := requestSeq x + 1 in
      let requestId := request_id prefix now seq in
      ([Send i type requestId now payload],
       set_pending (jm_set requestId (Pending w type silent) (pending x)) (set_requestSeq seq x))
  | _, _ => settle w (Throw "WebSocket is not connected."%string) x
  end.

Definition clearReconnectTimer : handler := update (set_reconnectTimer false).
Definition stopHeartbeat : handler := update (set_heartbeatTimer false).
Definition startHeartbeat : handler := stopHeartbeat;; update (set_heartbeatTimer true).

(** The back-off of [scheduleReconnect]. *)
Definition reconnect_base (attempt : Z) : Z := Z.min reconnectMaxMs (reconnectBaseMs * 2 ^ (attempt - 1)).

Definition scheduleReconnect (jitter : Z) (reason : string) : handler :=
  clearReconnectTimer;; fun x =>
  if negb (desired x) || negb (autoReconnect (page x))
  then setStatus "disconnected" (reason +:+ " Auto reconnect is disabled.")%string x
  else
    let attempt := reconnectAttempt x + 1 in
    let delay := reconnect_base attempt + jitter in
    (setStatus "reconnecting" reason;; emit (RetryIn delay);;
     update (fun x => set_reconnectTimer true (set_reconnectAttempt attempt x))) x.

(** [connect]; [valid]: the constructor of [WebSocket] accepts the URL. *)
Definition connect (valid : string -> bool) (jitter : Z) (isReconnect : bool) : handler := fun x =>
  let url := trim (wsUrl (page x)) in
  if is_empty url then notify "WebSocket URL is required." warn x
  else if ws_live x then notify "A websocket is already active." warn x
  else
    (update (fun x => set_authed false (set_ready false (set_manualClose false (set_desired true x))));;
     setStatus (if isReconnect then "reconnecting" else "connecting")
       (if isReconnect then "Reconnecting..." else "Connecting...");;
     if valid url then fun x =>
       ([Dial (length (sockets x)) url],
        set_ws (Some (length (sockets x))) (set_sockets (sockets x ++ [(CONNECTING, isReconnect)]) x))
     else
       notify "Connection failed." error_level;; setStatus "disconnected" "Connection failed.";;
       scheduleReconnect jitter "Failed to create websocket.") x.

Definition refreshSessions (now : Z) (silent : bool) : handler := fun x =>
  if negb (ready x) then when (negb silent) (notify "Connect first to list sessions." warn) x
  else sendRequest now "list" "list_sessions" [] silent (AwaitList silent) x.

Definition attachPane (now : Z) (paneId : string) (isResume : bool) : handler := fun x =>
  if negb (ready x) then notify "Connect and authenticate before attach." warn x
  else
    ((fun x =>
        match activePane x with
        | Some p =>
            if is_empty p || bool_decide (p = paneId) then ([], x)
            else sendRequest now "detach" "detach" [("paneId", JStr p)]%string true AwaitDetach x
        | None => ([], x)
        end);;
     fun x =>
       let lastSeq := match jm_get paneId (lastSeqByPane x) with
                      | Some n => if bool_decide (is_Some (num_to_Z n)) then [("lastSeq"%string, JNum n)] else []
                      | None => []
                      end in
       sendRequest now "attach" "attach" (("paneId"%string, JStr paneId) :: lastSeq) false
         (AwaitAttach paneId isResume) x) x.

Definition requestPolicy (now : Z) (type : string) : handler := fun x =>
  if negb (ready x) then notify "Connect first to change input state." warn x
  else sendRequest now type type [] false AwaitPolicy x.

Definition requestAuth (now : Z) : handler := fun x =>
  let token := trim (authTokenText (page x)) in
  if is_empty token then
    (setStatus "connecting" "Token required. Enter token and submit again.";;
     notify "Relay requires auth token." warn) x
  else sendRequest now "auth" "auth" [("token", JStr token)]%string false AwaitAuth x.

Definition onAuthenticated (now : Z) : handler := fun x =>
  if ready x then ([], x)
  else
    (update (fun x => set_reconnectAttempt 0 (set_ready true x));; clearReconnectTimer;;
     update (set_lastHeartbeatAckAt now);; setStatus "connected" "Connected and synchronized.";;
     startHeartbeat;; refreshSessions now true;;
     fun x => match activePane x with
              | Some p => when (negb (is_empty p)) (attachPane now p true) x
              | None => ([], x)
              end) x.

Definition applyPolicy (payload : list (string * jsval)) : handler :=
  update (fun x => set_globalInputDisabled (truthy (field "globalInputDisabled" payload))
                     (set_inputEnabled (truthy (field "inputEnabled" payload)) x)).

Definition records_of (v : jsval) : list jsval :=
  match v with JArr l => filter (fun e => is_record e = true) l | _ => [] end.

Definition applySessionList (payload : list (string * jsval)) : handler :=
  update (fun x => set_sessions (records_of (field "sessions" payload))
                     (set_panes (records_of (field "panes" payload)) x)).

(** [text.slice(-n)]. *)
Definition slice_last (n : Z) (s : string) : string := str_drop (Z.to_nat (str_len s - n)) s.

Definition applyOutput (payload : list (string * jsval)) : handler := fun x =>
  let paneId := match field "paneId" payload with JStr s => s | _ => EmptyString end in
  let chunk := match field "chunk" payload with JStr s => s | _ => EmptyString end in
  let x :=
    match field "streamSeq" payload with
    | JNum n =>
        if negb (is_empty paneId) && bool_decide (is_Some (num_to_Z n))
        then set_lastSeqByPane (jm_set paneId n (lastSeqByPane x)) x else x
    | _ => x
    end in
  if is_empty paneId || negb (bool_decide (activePane x = Some paneId)) || is_empty chunk then ([], x)
  else
    let text := (outputLog x +:+ chunk)%string in
    ([], set_outputLog (if maxOutputChars <? str_len text then slice_last maxOutputChars text else text) x).

(** [addCommand]. *)
Definition addCommand (now : Z) (paneId text : string) : handler := update (fun x =>
  let row := Row (rows_made x) paneId text "pending" None now in
  set_rows_made (S (rows_made x)) (set_commands (take maxCommandHistory (row :: commands x)) x)).

Definition set_commandInput (s : string) (f : form) : form :=
  Form (wsUrl f) (authTokenText f) (autoReconnect f) s (appendNewline f) (overrideLane f).


Definition sendCommand (now : Z) : handler := fun x =>
  match activePane x with
  | Some (String _ _ as pane) =>
      if negb (ready x) then notify "Attach to a pane first." warn x
      else if negb (inputEnabled x) || globalInputDisabled x then notify "Input is disabled." warn x
      else
        let text := commandInput (page x) in
        let text := if appendNewline (page x) && negb (ends_with newline_text text)
                    then (text +:+ newline_text)%string else text in
        if is_empty (trim text) then notify "Command is empty." warn x
        else
          let row := rows_made x in
          let override := if overrideLane (page x) then [("override"%string, JBool true)] else [] in
          (update (fun x => set_page (set_commandInput "" (page x)) x);; addCommand now pane text;;
           sendRequest now "input" "input" ([("paneId", JStr pane); ("data", JStr text)]%string ++ override)
             false (AwaitInput row)) x
  | _ => notify "Attach to a pane first." warn x
  end.

Definition set_row (row : nat) (state : string) (detail : option string) (l : list command_row) : list command_row :=
  (fun r => if bool_decide (row_id r = row)
            then Row (row_id r) (row_paneId r) (row_text r) state detail (row_at r) else r) <$> l.

(** The second half of [disconnect]. *)
Definition finish_disconnect : handler :=
  close_live;; update (set_activePane None);; setStatus "disconnected" "Disconnected.".

Definition disconnect (now : Z) : handler :=
  update (fun x => set_manualClose true (set_desired false x));; clearReconnectTimer;; stopHeartbeat;;
  fun x => if ready x then sendRequest now "disconnect" "disconnect" [] true AwaitDisconnect x
           else finish_disconnect x.

Section Page.
Context (JSON_parse : string -> option jsval) (valid_url : string -> bool) (js_text : jsval -> string).

(** The settlement of a reply: [settlePending] from its lookup on. *)
Definition reply_error (payload : list (string * jsval)) : string :=
  let code := match field "code" payload with JStr s => s | _ => "unknown_error"%string end in
  let details := match field "message" payload with JStr s => (" (" +:+ s +:+ ")")%string | _ => EmptyString end in
  (code +:+ details)%string.

Definition settlePending (requestId : jsval) (type : string) (payload : list (string * jsval))
    (message : list (string * jsval)) : handler := fun x =>
  match requestId with
  | JStr (String _ _ as id) =>
      match jm_get id (pending x) with
      | None => ([], x)
      | Some p =>
          (update (fun x => set_pending (jm_delete id (pending x)) x);;
           if bool_decide (type = "error"%string) || bool_decide (type = "auth_error"%string) then
             settle (p_waiter p) (Throw (reply_error payload));;
             when (negb (p_silent p)) (notify ("Request failed: " +:+ reply_error payload)%string error_level)
           else settle (p_waiter p) (Ok message)) x
      end
  | _ => ([], x)
  end.

Definition dispatch (now : Z) (type : string) (requestId : jsval) (payload : list (string * jsval)) : handler :=
  if bool_decide (type = "hello"%string) then
    applyPolicy payload;;
    if negb (truthy (field "requiresAuth" payload)) then update (set_authed true);; onAuthenticated now
    else requestAuth now
  else if bool_decide (type = "auth_ok"%string) then
    update (set_authed true);; onAuthenticated now;; notify "Authenticated." info
  else if bool_decide (type = "auth_error"%string) then
    update (fun x => set_desired false (set_authed false x));;
    setStatus "disconnected" "Authentication failed.";; notify "Auth failed. Verify token." error_level
  else if bool_decide (type = "session_list"%string) then applySessionList payload
  else if bool_decide (type = "output"%string) then applyOutput payload
  else if bool_decide (type = "policy_update"%string) then applyPolicy payload
  else if bool_decide (type = "heartbeat_ack"%string) then update (set_lastHeartbeatAckAt now)
  else if bool_decide (type = "error"%string) then
    when (negb (truthy requestId))
      (notify ("Server error: " +:+ match field "code" payload with
                                    | JUndefined | JNull => "unknown"
                                    | code => js_text code
                                    end)%string error_level)
  else skip.

Definition onMessage (now : Z) (raw : string) : handler :=
  match JSON_parse raw with
  | None => notify "Invalid JSON from relay." warn
  | Some (JObj message) =>
      match field "type" message, field "payload" message with
      | JStr type, JObj payload =>
          settlePending (field "requestId" message) type payload message;;
          dispatch now type (field "requestId" message) payload
      | _, _ => skip
      end
  | Some _ => skip
  end.

(** [rejectAllPending]. *)
Definition rejectAllPending (reason : string) : handler := update (fun x =>
  set_pending [] (set_queue (queue x ++ ((fun e => (p_waiter e.2, Throw reason)) <$> pending x)) x)).

Definition onClose (jitter : Z) : handler :=
  rejectAllPending "Connection closed.";; stopHeartbeat;;
  update (fun x => set_activePane None (set_globalInputDisabled false (set_inputEnabled false
                     (set_authed false (set_ready false (set_ws None x))))));;
  fun x =>
    if manualClose x || negb (desired x)
    then (update (set_manualClose false);; setStatus "disconnected" "Disconnected.") x
    else scheduleReconnect jitter "Relay connection lost." x.

(** What follows an [await]. *)
Definition resume (now : Z) (w : waiter) (r : settlement) : handler :=
  match w, r with
  | AwaitAuth, Throw e => notify ("Auth request failed: " +:+ e)%string error_level
  | AwaitHeartbeat, Ok _ => update (set_lastHeartbeatAckAt now)
  | AwaitHeartbeat, Throw _ => fun x =>
      if heartbeatStaleMs <? now - lastHeartbeatAckAt x
      then (notify "Heartbeat stale. Reconnecting socket." warn;; close_live) x else ([], x)
  | AwaitList false, Throw e => notify ("Session refresh failed: " +:+ e)%string error_level
  | AwaitAttach paneId isResume, Ok _ =>
      update (set_activePane (Some paneId));;
      when (negb isResume) (notify ("Attached to " +:+ paneId +:+ ".")%string info)
  | AwaitAttach _ _, Throw e => notify ("Attach failed: " +:+ e)%string error_level
  | AwaitPolicy, Throw e => notify ("Policy update failed: " +:+ e)%string error_level
  | AwaitInput row, Ok message =>
      let payload := match field "payload" message with JObj p => p | _ => [] end in
      let bytes := match field "bytes" payload with JUndefined | JNull => EmptyString | v => js_text v end in
      update (fun x => set_commands (set_row row "sent" (Some ("ack bytes=" +:+ bytes)%string) (commands x)) x)
  | AwaitInput row, Throw e =>
      update (fun x => set_commands (set_row row "failed" (Some e) (commands x)) x)
  | AwaitDisconnect, _ => finish_disconnect
  | AwaitAuth, Ok _ | AwaitList _, _ | AwaitDetach, _ | AwaitPolicy, Ok _ => skip
  end.

(** The microtasks after a handler. *)
Definition drain (now : Z) : handler := fun x =>
  foldl (fun (acc : list action * app) e =>
           let (o, x) := resume now e.1 e.2 acc.2 in (acc.1 ++ o, x)) ([], set_queue [] x) (queue x).

(** ** Events *)

Inductive event : Type :=
| Edit (f : form)
| SubmitConnection
| ClickDisconnect
| ClickRefresh
| ClickClear
| ClickPane (paneId : string)
| ClickPolicy (enable : bool)
| SubmitCommand
| Unload
| Opened (socket : nat)
| Message (socket : nat) (raw : string)
| Closed (socket : nat)
| Errored (socket : nat)
| ReconnectFires
| HeartbeatFires
| RequestTimesOut (requestId : string).

#[export] Instance event_eq_dec : EqDecision event.
Proof. solve_decision. Defined.

Definition handle (now jitter : Z) (ev : event) : handler := fun x =>
  match ev with
  | Edit f => ([], set_page f x)
  | SubmitConnection =>
      if bool_decide (ws_state x = Some OPEN) && negb (ready x) then requestAuth now x
      else connect valid_url jitter false x
  | ClickDisconnect => disconnect now x
  | ClickRefresh => (when (ready x) (setStatus "connected" "Refreshing sessions...");; refreshSessions now false) x
  | ClickClear => (update (set_outputLog EmptyString);; notify "Output cleared." info) x
  | ClickPane paneId => when (negb (is_empty paneId)) (attachPane now paneId false) x
  | ClickPolicy enable => requestPolicy now (if enable then "enable_input" else "disable_input") x
  | SubmitCommand => sendCommand now x
  | Unload => (update (fun x => set_manualClose true (set_desired false x));; stopHeartbeat;; close_live) x
  | Opened i =>
      match (sockets x !! i : option (readyState * bool)) with
      | Some (CONNECTING, isReconnect) =>
          (update (set_state i OPEN);;
           setStatus (if isReconnect then "reconnecting" else "connecting") "Socket open. Waiting for hello...") x
      | _ => ([], x)
      end
  | Message i raw => if bool_decide (state_of i x = Some OPEN) then onMessage now raw x else ([], x)
  | Closed i =>
      match state_of i x with
      | Some CLOSED | None => ([], x)
      | Some _ => (update (set_state i CLOSED);; onClose jitter) x
      end
  | Errored i => notify "WebSocket transport error." error_level x
  | ReconnectFires =>
      if reconnectTimer x then (clearReconnectTimer;; connect valid_url jitter true) x else ([], x)
  | HeartbeatFires =>
      if heartbeatTimer x && ready x
      then sendRequest now "hb" "heartbeat" [] true AwaitHeartbeat x else ([], x)
  | RequestTimesOut id =>
      match jm_get id (pending x) with
      | None => ([], x)
      | Some p =>
          (update (fun x => set_pending (jm_delete id (pending x)) x);;
           settle (p_waiter p) (Throw ("Request timeout for " +:+ p_type p)%string)) x
      end
  end.

(** One event with the microtasks it causes. *)
Definition step (now jitter : Z) (ev : event) : handler := handle now jitter ev;; drain now.

Fixpoint run (evs : list (Z * Z * event)) : handler :=
  match evs with
  | [] => skip
  | (now, jitter, ev) :: evs => step now jitter ev;; run evs
  end.
End Page.

Definition initial (f : form) : app :=
  App None false false false false 0 false false 0 0 [] [] [] None [] false false [] 0 "" f [] [].

(** ** What the page shows *)

(** [updateControls]: connect, disconnect, refresh, enable, disable, send; [true]: the
    button can be used. *)
Record controls : Type := Controls {
  can_connect : bool;
  connect_authenticates : bool;
  can_disconnect : bool;
  can_refresh : bool;
  can_enable : bool;
  can_disable : bool;
  can_send : bool
}.

Definition updateControls (x : app) : controls :=
  let socketActive := ws_live x in
  let connecting := bool_decide (ws_state x = Some CONNECTING) in
  let openNotReady := bool_decide (ws_state x = Some OPEN) && negb (ready x) in
  let attached := match activePane x with Some p => negb (is_empty p) | None => false end in
  let canSend := ready x && attached && inputEnabled x && negb (globalInputDisabled x) &&
                 negb (is_empty (trim (commandInput (page x)))) in
  Controls (negb (connecting || (socketActive && ready x))) openNotReady socketActive (ready x)
    (negb (negb (ready x) || globalInputDisabled x)) (negb (negb (ready x) || negb (inputEnabled x))) canSend.

(** [escapeHtml]: the five replacements, "&" first. *)
Fixpoint replace_all (c : ascii) (by_ : string) (s : string) : string :=
  match s with
  | EmptyString => EmptyString
  | String d s => if Ascii.eqb c d then (by_ +:+ replace_all c by_ s)%string else String d (replace_all c by_ s)
  end.

Definition escapeHtml (s : string) : string :=
  replace_all squote "&#39;" (replace_all dquote "&quot;" (replace_all ">" "&gt;"
    (replace_all "<" "&lt;" (replace_all "&" "&amp;" s)))).

(** [innerHTML] of a command in the history. *)
Definition command_html (time : string) (r : command_row) : string :=
  ("<div class=" +:+ in_quotes "command-top" +:+ "><span>" +:+ escapeHtml time +:+ " " +:+ String "183" " " +:+ escapeHtml (row_paneId r) +:+
   "</span><span class=" +:+ in_quotes "command-state" +:+ ">" +:+ escapeHtml (row_state r) +:+ "</span></div><code>" +:+
   escapeHtml (row_text r) +:+ "</code>" +:+
   match row_detail r with
   | Some (String _ _ as d) => "<div class=" +:+ in_quotes "pane-meta" +:+ ">" +:+ escapeHtml d +:+ "</div>"
   | _ => ""
   end)%string.

(** [innerHTML] of a pane in the list of sessions. *)
Definition pane_html (paneId : string) (pane : list (string * jsval)) : string :=
  let text k := match field k pane with JStr s => Some s | _ => None end in
  let command := match text "currentCommand"%string with
                 | Some s => s
                 | None => default EmptyString (text "paneCurrentCommand"%string)
                 end in
  let windowName := default EmptyString (text "windowName"%string) in
  let paneTitle := match text "paneTitle"%string with
                   | Some s => if is_empty (trim s) then "Untitled pane"%string else s
                   | None => "Untitled pane"%string
                   end in
  ("<strong>" +:+ escapeHtml paneId +:+ "</strong> " +:+ escapeHtml paneTitle +:+ "<div class=" +:+ in_quotes "pane-meta" +:+ ">" +:+
   escapeHtml windowName +:+ (if is_empty command then "" else " - " +:+ escapeHtml command) +:+ "</div>")%string.

(** ** Reasoning about handlers *)

Definition preserves (P : app -> Prop) (h : handler) : Prop := forall x, P x -> P (h x).2.
Definition says (Q : action -> Prop) (h : handler) : Prop := forall x, Forall Q (h x).1.

Create HintDb web.

Lemma preserves_skip P : preserves P skip.
Proof. by intros x Hx. Qed.
Lemma preserves_emit P a : preserves P (emit a).
Proof. by intros x Hx. Qed.
Lemma preserves_update P f : (forall x, P x -> P (f x)) -> preserves P (update f).
Proof. intros H x Hx. by apply H. Qed.
Lemma preserves_seq P a b : preserves P a -> preserves P b -> preserves P (a;; b).
Proof.
  intros Ha Hb x Hx. unfold seq_. specialize (Ha x Hx). destruct (a x) as [o y].
  specialize (Hb y Ha). by destruct (b y).
Qed.
Lemma preserves_when P b h : preserves P h -> preserves P (when b h).
Proof. destruct b; [done|]. intros _. apply preserves_skip. Qed.

Lemma seq_update f h x : (update f;; h) x = h (f x).
Proof. unfold seq_, update. by destruct (h (f x)). Qed.

Lemma seq_snd a b x : ((a;; b) x).2 = (b (a x).2).2.
Proof. unfold seq_. destruct (a x) as [o y]. simpl. by destruct (b y). Qed.

Lemma seq_fst a b x : ((a;; b) x).1 = (a x).1 ++ (b (a x).2).1.
Proof. unfold seq_. destruct (a x) as [o y]. simpl. by destruct (b y). Qed.

Lemma says_skip Q : says Q skip.
Proof. intros x. constructor. Qed.
Lemma says_update Q f : says Q (update f).
Proof. intros x. constructor. Qed.
Lemma says_emit (Q : action -> Prop) a : Q a -> says Q (emit a).
Proof. intros H x. by constructor. Qed.
Lemma says_seq Q a b : says Q a -> says Q b -> says Q (a;; b).
Proof.
  intros Ha Hb x. unfold seq_. specialize (Ha x). destruct (a x) as [o y].
  specialize (Hb y). destruct (b y) as [o' z]. by apply Forall_app.
Qed.
Lemma says_when Q b h : says Q h -> says Q (when b h).
Proof. destruct b; [done|]. intros _. apply says_skip. Qed.

#[local] Hint Resolve preserves_skip preserves_emit preserves_seq preserves_when
  says_skip says_update says_seq says_when : web.

Lemma step_preserves P JSON_parse valid_url js_text now jitter ev :
  preserves P (handle JSON_parse valid_url js_text now jitter ev) ->
  (forall x q, P x -> P (set_queue q x)) ->
  (forall w r, preserves P (resume js_text now w r)) ->
  preserves P (step JSON_parse valid_url js_text now jitter ev).
Proof.
  intros Hh Hq Hr. apply preserves_seq; [done|]. intros x Hx. unfold drain.
  assert (H : forall q o y, P y -> P (foldl (fun (acc : list action * app) (e : waiter * settlement) =>
    let (o, x) := resume js_text now e.1 e.2 acc.2 in (acc.1 ++ o, x)) (o, y) q).2).
  { induction q as [|[w r] q IH]; intros o y Hy; [done|]. simpl. specialize (Hr w r y Hy).
    destruct (resume js_text now w r y) as [o' z]. by apply IH. }
  apply H. by apply Hq.
Qed.

Lemma step_says Q JSON_parse valid_url js_text now jitter ev x :
  Forall Q (handle JSON_parse valid_url js_text now jitter ev x).1 ->
  (forall w r, says Q (resume js_text now w r)) ->
  Forall Q (step JSON_parse valid_url js_text now jitter ev x).1.
Proof.
  intros Hh Hr. unfold step, seq_. destruct (handle _ _ _ _ _ _ x) as [o y]. cbn [fst] in Hh.
  unfold drain. assert (H : forall q o y, Forall Q o -> Forall Q (foldl (fun (acc : list action * app) (e : waiter * settlement) =>
    let (o, x) := resume js_text now e.1 e.2 acc.2 in (acc.1 ++ o, x)) (o, y) q).1).
  { induction q as [|[w r] q IH]; intros o' y' Ho; [done|]. simpl. specialize (Hr w r y').
    destruct (resume js_text now w r y') as [o'' z]. apply IH. by apply Forall_app. }
  specialize (H (queue y) [] (set_queue [] y) ltac:(constructor)).
  destruct (foldl _ _ _) as [o' z]. by apply Forall_app.
Qed.

Lemma run_preserves P JSON_parse valid_url js_text evs :
  (forall now jitter ev, preserves P (step JSON_parse valid_url js_text now jitter ev)) ->
  preserves P (run JSON_parse valid_url js_text evs).
Proof.
  intros Hs. induction evs as [|[[now jitter] ev] evs IH]; [apply preserves_skip|].
  simpl. by apply preserves_seq.
Qed.

(** Walking through a handler. *)
Local Ltac walk_says :=
  repeat match goal with
  | |- says _ (seq_ _ _) => apply says_seq
  | |- says _ (update _) => apply says_update
  | |- says _ (emit _) => apply says_emit; simpl
  | |- says _ (notify _ _) => apply says_emit; simpl
  | |- says _ (setStatus _ _) => apply says_emit; simpl
  | |- says _ (settle _ _) => apply says_update
  | |- says _ (when _ _) => apply says_when
  | |- says _ skip => apply says_skip
  | |- says _ _ => solve [eauto with web]
  | |- says _ (if ?b then _ else _) => destruct b eqn:?
  | |- says _ (match ?b with _ => _ end) => destruct b eqn:?
  | |- says _ (fun _ => _) => intros ?x; cbv beta
  | |- Forall _ (if ?b then _ else _).1 => destruct b eqn:?
  | |- Forall _ (match ?b with _ => _ end).1 => destruct b eqn:?
  | |- Forall _ ([], _).1 => constructor
  | |- Forall ?Q (?h ?x).1 => refine ((_ : says Q h) x)
  end.

(** *** Who sends what *)

(** Anything but a command for a pane, and but a command for a pane or a reconnection. *)
Definition no_input (a : action) : Prop := match a with Send _ type _ _ _ => type <> "input"%string | _ => True end.
Definition plain (a : action) : Prop := match a with RetryIn _ => False | _ => no_input a end.

Lemma says_impl (Q Q' : action -> Prop) h : (forall a, Q a -> Q' a) -> says Q h -> says Q' h.
Proof. intros H Hh x. eapply Forall_impl; [apply Hh|done]. Qed.

Lemma plain_no_input h : says plain h -> says no_input h.
Proof. apply says_impl. by intros []. Qed.

Lemma sendRequest_says Q now prefix type payload silent w :
  (forall i id, Q (Send i type id now payload)) -> says Q (sendRequest now prefix type payload silent w).
Proof.
  intros HQ x. unfold sendRequest. destruct (ws x); [|apply says_update]. destruct (ws_state x) as [[]|]; try apply says_update.
  by constructor.
Qed.

Lemma close_live_plain : says plain close_live.
Proof. intros x. unfold close_live, close_ws. destruct (ws_live x); [|constructor]. destruct (ws x); by repeat constructor. Qed.

Lemma request_plain now prefix type payload silent w : type <> "input"%string ->
  says plain (sendRequest now prefix type payload silent w).
Proof. intros H. by apply sendRequest_says. Qed.

#[local] Hint Resolve close_live_plain : web.
#[local] Hint Extern 2 (says plain (sendRequest _ _ _ _ _ _)) => apply request_plain; done : web.

Lemma refresh_plain now silent : says plain (refreshSessions now silent).
Proof. unfold refreshSessions. walk_says; done. Qed.

Lemma attach_plain now p b : says plain (attachPane now p b).
Proof. unfold attachPane. walk_says; done. Qed.

Lemma auth_plain now : says plain (requestAuth now).
Proof. unfold requestAuth. walk_says; done. Qed.

Lemma finish_plain : says plain finish_disconnect.
Proof. unfold finish_disconnect. walk_says; done. Qed.
#[local] Hint Resolve refresh_plain attach_plain auth_plain finish_plain : web.

Lemma authenticated_plain now : says plain (onAuthenticated now).
Proof. unfold onAuthenticated, clearReconnectTimer, startHeartbeat, stopHeartbeat. walk_says; done. Qed.
#[local] Hint Resolve authenticated_plain : web.

Lemma onMessage_plain JSON_parse js_text now raw : says plain (onMessage JSON_parse js_text now raw).
Proof.
  unfold onMessage, settlePending, dispatch, applyPolicy, applySessionList, applyOutput. walk_says; done.
Qed.

Lemma resume_plain js_text now w r : says plain (resume js_text now w r).
Proof. unfold resume. walk_says; done. Qed.
#[local] Hint Resolve onMessage_plain : web.

(** The events after which a socket may be dialled. *)
Definition reconnects (ev : event) : bool :=
  match ev with SubmitConnection | ReconnectFires | Closed _ => true | _ => false end.

Lemma handle_plain JSON_parse valid_url js_text now jitter ev :
  ev <> SubmitCommand -> reconnects ev = false -> says plain (handle JSON_parse valid_url js_text now jitter ev).
Proof.
  intros Hev Hr x. destruct ev; try done; cbn [handle];
    try (apply onMessage_plain || (case_bool_decide; [apply onMessage_plain|constructor])).
  all: unfold requestPolicy, disconnect, clearReconnectTimer, stopHeartbeat.
  all: walk_says; try done.
  all: apply request_plain; destruct enable; done.
Qed.

Lemma scheduleReconnect_no_input jitter reason : says no_input (scheduleReconnect jitter reason).
Proof. unfold scheduleReconnect, clearReconnectTimer. walk_says; done. Qed.
#[local] Hint Resolve scheduleReconnect_no_input : web.

Lemma connect_no_input valid jitter b : says no_input (connect valid jitter b).
Proof. unfold connect. walk_says; try done. by repeat constructor. Qed.

Lemma close_no_input jitter : says no_input (onClose jitter).
Proof. unfold onClose, rejectAllPending, stopHeartbeat. walk_says; done. Qed.
#[local] Hint Resolve connect_no_input close_no_input : web.

Lemma handle_no_input JSON_parse valid_url js_text now jitter ev :
  ev <> SubmitCommand -> says no_input (handle JSON_parse valid_url js_text now jitter ev).
Proof.
  intros Hev. destruct (reconnects ev) eqn:Hr; [|by apply plain_no_input, handle_plain].
  assert (Hauth : says no_input (requestAuth now)) by apply plain_no_input, auth_plain.
  intros x. destruct ev; try done; cbn [handle]; unfold clearReconnectTimer; walk_says; done.
Qed.

Section Input.
Context (JSON_parse : string -> option jsval) (valid_url : string -> bool) (js_text : jsval -> string).
Local Abbreviation do_step := (step JSON_parse valid_url js_text).

(** C33. Text reaches a terminal only as the user sent it: an "input" frame goes out only for
    a submitted command, on the current, open socket of an authenticated session, to
    the attached pane, while the relay has input enabled and not globally disabled, and
    it carries the typed text, not blank, with at most a newline added. *)
Theorem web_input_entitled now jitter ev x i id ts payload :
  Send i "input" id ts payload ∈ (do_step now jitter ev x).1 ->
  ev = SubmitCommand /\ ws x = Some i /\ ws_state x = Some OPEN /\ ready x = true /\
  inputEnabled x = true /\ globalInputDisabled x = false /\
  exists pane text, activePane x = Some pane /\
    field "paneId" payload = JStr pane /\ field "data" payload = JStr text /\ is_empty (trim text) = false /\
    (text = commandInput (page x) \/
     appendNewline (page x) = true /\ text = (commandInput (page x) +:+ newline_text)%string).
Proof.
  set (goal := _ /\ _). intros Hin.
  enough (H : Forall (fun a => a = Send i "input" id ts payload -> goal) (do_step now jitter ev x).1)
    by (by apply (proj1 (Forall_forall _ _) H _ Hin)).
  clear Hin. apply step_says.
  2:{ intros w r y. eapply Forall_impl; [apply plain_no_input, resume_plain|]. by intros a Ha ->. }
  destruct (decide (ev = SubmitCommand)) as [->|Hev].
  2:{ eapply Forall_impl; [by apply handle_no_input|]. by intros a Ha ->. }
  cbn [handle]. unfold sendCommand. destruct (activePane x) as [[|c p]|] eqn:Hp; try (by repeat constructor).
  destruct (ready x) eqn:Hr; [|by repeat constructor].
  destruct (inputEnabled x) eqn:Hi; [|by repeat constructor].
  destruct (globalInputDisabled x) eqn:Hg; [by repeat constructor|]. cbn [negb orb].
  set (text := if appendNewline (page x) && _ then _ else _).
  destruct (is_empty (trim text)) eqn:Ht; [by repeat constructor|].
  unfold addCommand. rewrite !seq_update. unfold sendRequest.
  change (ws (set_rows_made _ _)) with (ws x).
  change (ws_state (set_rows_made _ _)) with (ws_state x).
  destruct (ws x) as [j|] eqn:Hw; [|by repeat constructor].
  destruct (ws_state x) as [[]|] eqn:Hst; try (by repeat constructor).
  cbn [fst]. apply Forall_singleton. intros [= <- <- <- <-]. unfold goal. split_and!; try done.
  exists (String c p), text. split_and!; try done.
  unfold text. destruct (appendNewline (page x)); [|by left]. destruct (ends_with _ _); [by left|by right].
Qed.
End Input.

(** *** Bounds *)

(** Preservation through a handler, by its structure. *)
Local Ltac walk_preserves :=
  repeat match goal with
  | |- preserves _ (seq_ _ _) => apply preserves_seq
  | |- preserves _ (emit _) => apply preserves_emit
  | |- preserves _ (notify _ _) => apply preserves_emit
  | |- preserves _ (setStatus _ _) => apply preserves_emit
  | |- preserves _ (when _ _) => apply preserves_when
  | |- preserves _ skip => apply preserves_skip
  | |- preserves _ (update _) => apply preserves_update; intros ?x ?Hx; solve [eauto with web]
  | |- preserves _ _ => solve [eauto with web]
  | |- preserves _ (if ?b then _ else _) => destruct b eqn:?
  | |- preserves _ (match ?b with _ => _ end) => destruct b eqn:?
  | |- preserves _ (fun _ => _) => intros ?x ?Hx; cbv beta
  | |- context [(if ?b then _ else _).2] => destruct b eqn:?
  | |- context [(match ?b with _ => _ end).2] => destruct b eqn:?
  | |- context [([], ?x).2] => change (([], x).2) with x
  | H : ?P ?x |- ?P (?h ?x).2 => refine ((_ : preserves P h) x H)
  end.

Lemma str_drop_length n s : (n <= String.length s)%nat -> String.length (str_drop n s) = (String.length s - n)%nat.
Proof.
  revert s. induction n as [|n IH]; intros s Hs; [simpl; lia|]. destruct s as [|c s]; [simpl in *; lia|].
  simpl in *. by apply IH, le_S_n.
Qed.

(** What the page keeps is bounded. *)
Definition bounded (x : app) : Prop :=
  str_len (outputLog x) <= maxOutputChars /\ (length (commands x) <= maxCommandHistory)%nat /\
  0 <= reconnectAttempt x.

Lemma slice_last_length s : maxOutputChars < str_len s -> str_len (slice_last maxOutputChars s) = maxOutputChars.
Proof.
  intros H. unfold slice_last, str_len in *.
  assert (0 < maxOutputChars) by done. rewrite str_drop_length; lia.
Qed.

Section Bounds.
Context (JSON_parse : string -> option jsval) (valid_url : string -> bool) (js_text : jsval -> string).

Lemma sendRequest_bounded now prefix type payload silent w : preserves bounded (sendRequest now prefix type payload silent w).
Proof. intros x Hx. unfold sendRequest, settle, update. repeat case_match; done. Qed.

Lemma close_live_bounded : preserves bounded close_live.
Proof. intros x Hx. unfold close_live, close_ws. repeat case_match; done. Qed.

Lemma applyOutput_bounded payload : preserves bounded (applyOutput payload).
Proof.
  intros x Hx. unfold applyOutput.
  set (y := match field "streamSeq" payload with JNum n => _ | _ => x end).
  assert (Hy : bounded y) by (unfold y; repeat case_match; done). clearbody y.
  destruct (_ || _); [done|]. destruct Hy as (Ho & Hc & Ha). split; [|done]. cbn [snd outputLog set_outputLog].
  destruct (Z.ltb_spec maxOutputChars (str_len (outputLog y +:+ match field "chunk" payload with JStr s => s | _ => ""%string end)));
    [by rewrite slice_last_length|done].
Qed.

Lemma set_row_length row s d l : length (set_row row s d l) = length l.
Proof. apply length_fmap. Qed.

Local Ltac walk_bounded := walk_preserves; try done; try (intros ? ?; done).

#[local] Hint Resolve sendRequest_bounded close_live_bounded applyOutput_bounded : web.
#[local] Hint Extern 1 (bounded _) => assumption : web.

Lemma addCommand_bounded now p text : preserves bounded (addCommand now p text).
Proof.
  apply preserves_update. intros x (Ho & Hc & Ha). split; [done|]. split; [|done].
  cbn [commands set_rows_made set_commands]. rewrite length_take. lia.
Qed.

Lemma schedule_bounded jitter reason : preserves bounded (scheduleReconnect jitter reason).
Proof.
  unfold scheduleReconnect, clearReconnectTimer. apply preserves_seq; [by apply preserves_update|].
  intros x (Ho & Hc & Ha). case_match; [done|]. simpl. split; [done|]. split; [done|]. simpl. lia.
Qed.
#[local] Hint Resolve addCommand_bounded schedule_bounded : web.

Lemma connect_bounded valid jitter b : preserves bounded (connect valid jitter b).
Proof. unfold connect. walk_bounded. Qed.

Lemma refresh_bounded now silent : preserves bounded (refreshSessions now silent).
Proof. unfold refreshSessions. walk_bounded. Qed.

Lemma attach_bounded now p b : preserves bounded (attachPane now p b).
Proof. unfold attachPane. walk_bounded. Qed.

Lemma auth_bounded now : preserves bounded (requestAuth now).
Proof. unfold requestAuth. walk_bounded. Qed.

Lemma finish_bounded : preserves bounded finish_disconnect.
Proof. unfold finish_disconnect. walk_bounded. Qed.
#[local] Hint Resolve connect_bounded refresh_bounded attach_bounded auth_bounded finish_bounded : web.

Lemma authenticated_bounded now : preserves bounded (onAuthenticated now).
Proof.
  intros x Hx. unfold onAuthenticated, clearReconnectTimer, startHeartbeat, stopHeartbeat. destruct (ready x); [done|].
  revert x Hx. match goal with |- forall x, bounded x -> bounded (?h x).2 => change (preserves bounded h) end.
  apply preserves_seq; [|walk_bounded]. apply preserves_update. intros x (Ho & Hc & Ha). by repeat split.
Qed.

Lemma send_bounded now : preserves bounded (sendCommand now).
Proof. unfold sendCommand. walk_bounded. Qed.

Lemma message_bounded now raw : preserves bounded (onMessage JSON_parse js_text now raw).
Proof.
  pose proof authenticated_bounded.
  unfold onMessage, settlePending, dispatch, applyPolicy, applySessionList, settle. walk_bounded.
Qed.

Lemma close_bounded jitter : preserves bounded (onClose jitter).
Proof. unfold onClose, rejectAllPending, stopHeartbeat. walk_bounded. Qed.
#[local] Hint Resolve send_bounded message_bounded close_bounded : web.

Lemma row_bounded row s d : preserves bounded (update (fun x => set_commands (set_row row s d (commands x)) x)).
Proof. apply preserves_update. intros x (Ho & Hc & Ha). split; [done|]. split; [|done]. simpl. by rewrite set_row_length. Qed.
Lemma clear_bounded : preserves bounded (update (set_outputLog EmptyString)).
Proof. apply preserves_update. by intros x (Ho & Hc & Ha). Qed.
#[local] Hint Resolve row_bounded clear_bounded : web.

Lemma resume_bounded now w r : preserves bounded (resume js_text now w r).
Proof. unfold resume. walk_bounded. Qed.

Lemma handle_bounded now jitter ev : preserves bounded (handle JSON_parse valid_url js_text now jitter ev).
Proof.
  unfold handle, requestPolicy, disconnect, clearReconnectTimer, stopHeartbeat, settle. walk_bounded.
Qed.

(** The delay of a reconnection, from a bounded state. *)
Local Abbreviation delay_ok delay := (fun a => a = RetryIn delay -> reconnectBaseMs <= delay < reconnectMaxMs + 350).

Lemma schedule_delay jitter reason delay x : 0 <= jitter < 350 -> bounded x ->
  Forall (delay_ok delay) (scheduleReconnect jitter reason x).1.
Proof.
  intros Hj (_ & _ & Ha). unfold scheduleReconnect, clearReconnectTimer. rewrite seq_update.
  destruct (_ || _); [by repeat constructor|]. unfold setStatus, seq_, emit, update. cbn [fst Datatypes.app].
  apply Forall_cons. split; [done|]. apply Forall_singleton. intros [= <-]. cbn [reconnectAttempt set_reconnectTimer].
  unfold reconnect_base. assert (0 < 2 ^ (reconnectAttempt x + 1 - 1)) by (apply Z.pow_pos_nonneg; lia).
  unfold reconnectMaxMs, reconnectBaseMs. lia.
Qed.

Lemma connect_delay valid jitter b delay x : 0 <= jitter < 350 -> bounded x ->
  Forall (delay_ok delay) (connect valid jitter b x).1.
Proof.
  intros Hj Hx. unfold connect. destruct (is_empty _); [by repeat constructor|]. destruct (ws_live x); [by repeat constructor|].
  rewrite seq_update. destruct (valid _); unfold seq_ at 1, setStatus at 1, emit at 1; cbn [fst].
  - by repeat constructor.
  - unfold notify, setStatus, seq_, emit.
    match goal with |- context [scheduleReconnect jitter ?r ?y] => pose proof (schedule_delay jitter r delay y Hj) as Hs;
      destruct (scheduleReconnect jitter r y) as [o z] end.
    cbn [fst Datatypes.app] in *. repeat (apply Forall_cons; split; [done|]). by apply Hs.
Qed.

Lemma close_delay jitter delay x : 0 <= jitter < 350 -> bounded x ->
  Forall (delay_ok delay) (onClose jitter x).1.
Proof.
  intros Hj Hx. unfold onClose, rejectAllPending, stopHeartbeat. rewrite !seq_update.
  destruct (_ || _); [by repeat constructor|]. by apply schedule_delay.
Qed.

Lemma sendCommand_no_retry now delay : says (delay_ok delay) (sendCommand now).
Proof.
  assert (Hs : forall prefix type payload silent w, says (delay_ok delay) (sendRequest now prefix type payload silent w))
    by (intros; by apply sendRequest_says).
  unfold sendCommand, addCommand. walk_says; done.
Qed.

(** Whatever the relay sends and the user does: the output kept on the page has at most
    200000 characters and the history at most 60 commands, and a reconnection is put off
    by at least one second and less than 12.35. *)
Theorem web_bounds f evs now jitter ev :
  let x := (run JSON_parse valid_url js_text evs (initial f)).2 in
  str_len (outputLog x) <= maxOutputChars /\ (length (commands x) <= maxCommandHistory)%nat /\
  (0 <= jitter < 350 -> forall delay, RetryIn delay ∈ (step JSON_parse valid_url js_text now jitter ev x).1 ->
     reconnectBaseMs <= delay < reconnectMaxMs + 350).
Proof.
  intros x.
  assert (Hstep : forall now jitter ev, preserves bounded (step JSON_parse valid_url js_text now jitter ev)).
  { intros now' jitter' ev'. apply step_preserves; [apply handle_bounded|done|apply resume_bounded]. }
  assert (Hx : bounded x).
  { apply run_preserves; [done|]. split; [by vm_compute|]. split; [simpl; lia|done]. }
  pose proof Hx as (Ho & Hc & _). split; [done|]. split; [done|]. intros Hj delay Hin.
  enough (H : Forall (fun a => a = RetryIn delay -> reconnectBaseMs <= delay < reconnectMaxMs + 350)
    (step JSON_parse valid_url js_text now jitter ev x).1) by (by apply (proj1 (Forall_forall _ _) H _ Hin)).
  clear Hin. assert (Hplain : forall h, says plain h -> says (fun a => a = RetryIn delay -> reconnectBaseMs <= delay < reconnectMaxMs + 350) h).
  { intros h. apply says_impl. by intros a Ha ->. }
  apply step_says; [|intros w r; apply Hplain, resume_plain].
  destruct (decide (ev = SubmitCommand)) as [->|Hev].
  { cbn [handle]. apply sendCommand_no_retry. }
  destruct (reconnects ev) eqn:Hr; [|by apply Hplain, handle_plain].
  destruct ev as [|  | | | | | | | | | |i | | | |]; try done; cbn [handle].
  - case_match; [apply Hplain, auth_plain|]. by apply connect_delay.
  - destruct (state_of i x) as [[]|]; try (by constructor);
      rewrite seq_update; apply close_delay; done.
  - destruct (reconnectTimer x); [|by constructor]. unfold clearReconnectTimer. rewrite seq_update. by apply connect_delay.
Qed.
End Bounds.

(** *** Text in HTML *)

(** The tags of an HTML text: what stands between "<" and ">". *)
Fixpoint tags (open : option string) (s : string) : list string :=
  match s with
  | EmptyString => []
  | String c r =>
      match open with
      | None => tags (if Ascii.eqb c "<" then Some EmptyString else None) r
      | Some t => if Ascii.eqb c ">" then t :: tags None r else tags (Some (t +:+ String c "")%string) r
      end
  end.

(** Reading the five character references back; one unit of fuel per character read. *)
Fixpoint unescape (fuel : nat) (s : string) : string :=
  match fuel, s with
  | S fuel, String c r =>
      if starts_with "&amp;" s then String "&" (unescape fuel (str_drop 5 s))
      else if starts_with "&lt;" s then String "<" (unescape fuel (str_drop 4 s))
      else if starts_with "&gt;" s then String ">" (unescape fuel (str_drop 4 s))
      else if starts_with "&quot;" s then String dquote (unescape fuel (str_drop 6 s))
      else if starts_with "&#39;" s then String squote (unescape fuel (str_drop 5 s))
      else String c (unescape fuel r)
  | _, _ => EmptyString
  end.

Lemma replace_all_app c b x y : replace_all c b (x +:+ y)%string = (replace_all c b x +:+ replace_all c b y)%string.
Proof.
  induction x as [|d x IH]; [by rewrite str_app_nil_l|]. rewrite str_app_cons. cbn [replace_all].
  destruct (Ascii.eqb c d); rewrite IH; [by rewrite str_app_assoc|by rewrite str_app_cons].
Qed.

Lemma escape_cons c s : escapeHtml (String c s) = (escapeHtml (String c "") +:+ escapeHtml s)%string.
Proof.
  change (String c s) with (String c "" +:+ s)%string. unfold escapeHtml. by rewrite !replace_all_app.
Qed.

Definition text_char (c : ascii) : bool := negb (Ascii.eqb "<" c) && negb (Ascii.eqb ">" c).

Lemma escape_text s : str_forallb text_char (escapeHtml s) = true.
Proof.
  induction s as [|c s IH]; [done|]. rewrite escape_cons, str_forallb_app, IH, andb_true_r.
  by destruct c as [[] [] [] [] [] [] [] []].
Qed.

Lemma unescape_char n c rest :
  unescape (S n) (escapeHtml (String c "") +:+ rest)%string = String c (unescape n rest).
Proof. by destruct c as [[] [] [] [] [] [] [] []]. Qed.

(** The tag that is open at the end of a text. *)
Fixpoint open_tag (open : option string) (s : string) : option string :=
  match s with
  | EmptyString => open
  | String c r =>
      open_tag match open with
               | None => if Ascii.eqb c "<" then Some EmptyString else None
               | Some t => if Ascii.eqb c ">" then None else Some (t +:+ String c "")%string
               end r
  end.

Lemma tags_app open a b : tags open (a +:+ b)%string = tags open a ++ tags (open_tag open a) b.
Proof.
  revert open. induction a as [|c a IH]; intros open; [by rewrite str_app_nil_l|]. rewrite str_app_cons. cbn [tags open_tag].
  destruct open as [t|]; [|apply IH]. destruct (Ascii.eqb c ">"); [|apply IH]. by rewrite IH.
Qed.

Lemma tags_text a b : str_forallb text_char a = true -> tags None (a +:+ b)%string = tags None b.
Proof.
  induction a as [|c a IH]; [by rewrite str_app_nil_l|]. cbn [str_forallb]. intros [Hc Ha]%andb_true_iff.
  rewrite str_app_cons. cbn [tags]. apply andb_true_iff in Hc as [Hc _]. apply negb_true_iff in Hc.
  rewrite Ascii.eqb_sym, Hc. by apply IH.
Qed.

(** Reading a template from left to right: a text, or a literal. *)
Local Ltac read_tags :=
  repeat first
    [ rewrite tags_text by apply escape_text
    | match goal with
      | |- context [tags ?o (?a +:+ ?b)%string] =>
          rewrite (tags_app o a b);
          let w := eval vm_compute in (tags o a) in
          let v := eval vm_compute in (open_tag o a) in
          change (tags o a) with w; change (open_tag o a) with v
      end ].

Lemma pane_tags p t w c :
  tags None ("<strong>" +:+ escapeHtml p +:+ "</strong> " +:+ escapeHtml t +:+ "<div class=" +:+ in_quotes "pane-meta" +:+ ">" +:+
   escapeHtml w +:+ (if is_empty c then "" else " - " +:+ escapeHtml c) +:+ "</div>")%string =
  ["strong"; "/strong"; "div class=" +:+ in_quotes "pane-meta"; "/div"]%string.
Proof. destruct (is_empty c); [by read_tags|]. rewrite <- (str_app_assoc " - "). by read_tags. Qed.

(** Texts of the relay and of the user - pane ids, titles, commands, errors - never
    become markup: the tags of a history entry and of a pane row are those of their
    templates, whatever the texts are; and each text is read back from the page as it
    was. *)
Theorem page_text_is_not_markup time r paneId pane :
  tags None (command_html time r) =
    ["div class=" +:+ in_quotes "command-top"; "span"; "/span"; "span class=" +:+ in_quotes "command-state"; "/span";
     "/div"; "code"; "/code"]%string ++
     match row_detail r with
     | Some (String _ _) => ["div class=" +:+ in_quotes "pane-meta"; "/div"]%string
     | _ => []
     end /\
  tags None (pane_html paneId pane) = ["strong"; "/strong"; "div class=" +:+ in_quotes "pane-meta"; "/div"]%string /\
  forall s, unescape (String.length s) (escapeHtml s) = s.
Proof.
  split_and!.
  - unfold command_html. read_tags. destruct (row_detail r) as [[|c d]|]; [done| |done]. read_tags. done.
  - apply pane_tags.
  - intros s. induction s as [|c s IH]; [done|]. rewrite escape_cons. cbn [String.length].
    by rewrite unescape_char, IH.
Qed.

(** ** Reconnection and attachment *)

Section Connection.
Context (JSON_parse : string -> option jsval) (valid_url : string -> bool) (js_text : jsval -> string).
Local Abbreviation do_step := (step JSON_parse valid_url js_text).

(** The page without a socket of its own, while socket [j] stays open. *)
Definition orphaned (j : nat) (x : app) : Prop :=
  ws x = None /\ state_of j x = Some OPEN.

Lemma close_live_none x : ws x = None -> close_live x = ([], x).
Proof. intros H. unfold close_live, ws_live, ws_state. by rewrite H. Qed.

Lemma drain_orphaned (P : app -> Prop) now x :
  (forall x, P x -> ws x = None) ->
  (forall x q, P x -> P (set_queue q x)) -> (forall x p, P x -> P (set_activePane p x)) ->
  (forall x t, P x -> P (set_lastHeartbeatAckAt t x)) -> (forall x l, P x -> P (set_commands l x)) ->
  P x -> P (drain js_text now x).2.
Proof.
  intros Hw Hq Ha Ht Hc Hx. unfold drain.
  assert (H : forall q o y, P y -> P (foldl (fun (acc : list action * app) (e : waiter * settlement) =>
    let (o, x) := resume js_text now e.1 e.2 acc.2 in (acc.1 ++ o, x)) (o, y) q).2).
  { induction q as [|[w r] q IH]; intros o y Hy; [done|]. simpl.
    assert (Hr : P (resume js_text now w r y).2).
    { destruct w, r; cbn [resume]; unfold finish_disconnect, notify, setStatus, when, seq_, update, emit, skip; try done;
        try (by apply Ht); try (by apply Hc); try (destruct silent; done).
      - destruct (_ <? _); [|done]. cbv beta iota zeta. rewrite close_live_none by auto. done.
      - destruct isResume; by apply Ha.
      - cbv beta iota zeta. rewrite close_live_none by auto. by apply Ha.
      - cbv beta iota zeta. rewrite close_live_none by auto. by apply Ha. }
    destruct (resume _ _ _ _ y) as [o' z]. by apply IH. }
  apply H. by apply Hq.
Qed.

Lemma onClose_orphaned jitter j x : state_of j x = Some OPEN ->
  let y := (onClose jitter x).2 in orphaned j y /\ ready y = false /\ pending y = [] /\ activePane y = None.
Proof.
  intros Hj. unfold onClose, rejectAllPending, stopHeartbeat. rewrite !seq_update.
  destruct (_ || _); [done|]. unfold scheduleReconnect, clearReconnectTimer. rewrite seq_update.
  by destruct (_ || _).
Qed.

Lemma state_of_other i j st x : i <> j -> state_of j (set_state i st x) = state_of j x.
Proof. intros H. unfold state_of, set_state. cbn [sockets set_sockets]. by rewrite list_lookup_alter_ne. Qed.

(** The page believes to be connected, without a socket and without a timer. *)
Definition stranded (j : nat) (x : app) : Prop := orphaned j x /\ ready x = true /\ reconnectTimer x = false.

Lemma sendRequest_stranded j now prefix type payload silent w : preserves (stranded j) (sendRequest now prefix type payload silent w).
Proof. intros x Hx. unfold sendRequest. destruct Hx as ([Hw Hj] & Hr & Ht). by rewrite Hw. Qed.

Lemma onAuthenticated_stranded now j x : orphaned j x -> ready x = false -> stranded j (onAuthenticated now x).2.
Proof.
  intros Hx Hr. unfold onAuthenticated. rewrite Hr. unfold clearReconnectTimer. rewrite !seq_update.
  set (y := set_lastHeartbeatAckAt now _). assert (Hy : stranded j y) by done. clearbody y. revert y Hy.
  match goal with |- forall y, stranded j y -> stranded j (?h y).2 => change (preserves (stranded j) h) end.
  pose proof (sendRequest_stranded j). unfold startHeartbeat, stopHeartbeat, refreshSessions, attachPane.
  walk_preserves; try done. all: by intros ? ?.
Qed.

(** The close listener does not ask which socket closed.  When a new socket is opened
    before the old one has finished closing, the end of the old one takes the new one
    away from the page: it stays open and unreferenced; and when its relay greets the
    page, the page takes itself for connected, with no socket to send on and no timer
    that would open another. *)
Theorem stale_close_orphans x i j now jitter now' jitter' raw hello payload :
  ws x = Some j -> state_of j x = Some OPEN -> state_of i x = Some CLOSING ->
  JSON_parse raw = Some (JObj hello) -> field "type" hello = JStr "hello" -> field "requestId" hello = JUndefined ->
  field "payload" hello = JObj payload -> truthy (field "requiresAuth" payload) = false ->
  let y := (do_step now jitter (Closed i) x).2 in
  let z := (do_step now' jitter' (Message j raw) y).2 in
  ws y = None /\ state_of j y = Some OPEN /\ ready y = false /\
  ws z = None /\ state_of j z = Some OPEN /\ ready z = true /\ reconnectTimer z = false.
Proof.
  intros Hw Hj Hi Hraw Htype Hid Hpayload Hauth y z.
  assert (Hij : i <> j) by congruence.
  assert (Hy : orphaned j y /\ ready y = false).
  { unfold y, step, seq_. cbn [handle]. rewrite Hi.
    match goal with |- context [(update ?f;; onClose jitter) x] => rewrite (seq_update f (onClose jitter) x) end.
    assert (Hj' : state_of j (set_state i CLOSED x) = Some OPEN) by (by rewrite state_of_other).
    destruct (onClose_orphaned jitter j _ Hj') as (Ho & Hr & _).
    destruct (onClose jitter (set_state i CLOSED x)) as [o x1]. cbn [snd] in Ho, Hr.
    pose proof (drain_orphaned (fun x => orphaned j x /\ ready x = false) now x1) as Hd.
    destruct (drain js_text now x1) as [o' x2]. apply Hd; try done. by intros ? [[] _]. }
  destruct Hy as [[Hwy Hjy] Hry].
  assert (Hz : stranded j z).
  { unfold z, step. rewrite seq_snd.
    assert (Hm : stranded j (handle JSON_parse valid_url js_text now' jitter' (Message j raw) y).2).
    { cbn [handle]. rewrite Hjy, bool_decide_true by done. unfold onMessage. rewrite Hraw, Htype, Hpayload, Hid.
      rewrite seq_snd. change (settlePending JUndefined "hello" payload hello y).2 with y.
      unfold dispatch. rewrite bool_decide_true by done. rewrite Hauth. cbn [negb].
      unfold applyPolicy. rewrite !seq_update. by apply onAuthenticated_stranded. }
    apply drain_orphaned; try done. by intros ? [[] _]. }
  destruct Hz as ([Hwz Hjz] & Hrz & Htz). by split_and!.
Qed.

Definition no_attach (a : action) : Prop := match a with Send _ type _ _ _ => type <> "attach"%string | _ => True end.

Lemma request_no_attach now prefix type payload silent w : type <> "attach"%string ->
  says no_attach (sendRequest now prefix type payload silent w).
Proof. intros H. by apply sendRequest_says. Qed.

Lemma close_live_no_attach : says no_attach close_live.
Proof. intros x. unfold close_live, close_ws. destruct (ws_live x); [|constructor]. destruct (ws x); by repeat constructor. Qed.
#[local] Hint Resolve close_live_no_attach : web.
#[local] Hint Extern 2 (says no_attach (sendRequest _ _ _ _ _ _)) => apply request_no_attach; done : web.

Lemma resume_no_attach now w r : says no_attach (resume js_text now w r).
Proof. unfold resume, finish_disconnect. walk_says; done. Qed.

Lemma says_refresh now : says no_attach (refreshSessions now true).
Proof. unfold refreshSessions. walk_says; done. Qed.

Lemma onAuthenticated_no_attach now x : activePane x = None -> Forall no_attach (onAuthenticated now x).1.
Proof.
  intros Hx. unfold onAuthenticated. destruct (ready x); [constructor|]. unfold clearReconnectTimer. rewrite !seq_update.
  set (y := set_lastHeartbeatAckAt now _). assert (Hy : activePane y = None) by done. clearbody y. clear Hx x.
  unfold startHeartbeat, stopHeartbeat. rewrite seq_fst. apply Forall_app. split; [by repeat constructor|].
  change (setStatus "connected" "Connected and synchronized." y).2 with y.
  rewrite seq_fst. apply Forall_app. split; [constructor|]. set (z := (_ y).2).
  assert (Hz : activePane z = None) by done. clearbody z. clear Hy y.
  rewrite seq_fst. apply Forall_app. split; [by apply says_refresh|].
  assert (Hr : activePane (refreshSessions now true z).2 = None).
  { unfold refreshSessions, sendRequest, settle, update, when, skip. by repeat case_match. }
  rewrite Hr. constructor.
Qed.

Lemma settlePending_pane id type payload message x :
  activePane (settlePending id type payload message x).2 = activePane x.
Proof.
  unfold settlePending. repeat case_match; try done; unfold settle, notify, seq_, update, emit, when, skip; by repeat case_match; simplify_eq.
Qed.

Definition rejected (x : app) : Prop := activePane x = None /\ Forall (fun e => exists m, e.2 = Throw m) (queue x).

Lemma onClose_pane jitter y : activePane (onClose jitter y).2 = None.
Proof.
  unfold onClose, rejectAllPending, stopHeartbeat. rewrite !seq_update.
  destruct (_ || _); [done|]. unfold scheduleReconnect, clearReconnectTimer. rewrite seq_update.
  by destruct (_ || _).
Qed.

Lemma onClose_rejected jitter y : queue y = [] -> rejected (onClose jitter y).2.
Proof.
  intros Hy. split; [apply onClose_pane|]. unfold onClose. rewrite seq_snd.
  assert (Hr : Forall (fun e => exists m, e.2 = Throw m) (queue (rejectAllPending "Connection closed." y).2)).
  { change (Forall (fun e => exists m, e.2 = Throw m)
      (queue y ++ ((fun e => (p_waiter e.2, Throw "Connection closed."%string)) <$> pending y))).
    rewrite Hy. apply Forall_forall. intros e (p & -> & _)%list_elem_of_fmap. by eexists. }
  revert Hr. generalize (rejectAllPending "Connection closed." y).2.
  match goal with |- forall z, _ -> Forall ?R (queue (?h z).2) => change (preserves (fun z => Forall R (queue z)) h) end.
  unfold stopHeartbeat, scheduleReconnect, clearReconnectTimer.
  repeat (apply preserves_seq; [by apply preserves_update|]).
  intros z Hz. destruct (_ || _); [done|]. rewrite seq_snd. by destruct (_ || _).
Qed.

Lemma close_live_pane x : activePane (close_live x).2 = activePane x.
Proof. unfold close_live, close_ws. by repeat case_match. Qed.

Lemma resume_rejected now w m : preserves (fun x => activePane x = None) (resume js_text now w (Throw m)).
Proof.
  pose proof close_live_pane as Hc. intros x Hx. destruct w; try done; cbn [resume].
  - destruct (_ <? _); [|done]. by rewrite seq_snd, Hc.
  - by destruct silent.
  - unfold finish_disconnect. by rewrite !seq_snd.
Qed.

Lemma drain_rejected now y : rejected y -> activePane (drain js_text now y).2 = None.
Proof.
  intros [Hy Hq]. unfold drain.
  assert (H : forall z o, activePane z = None -> activePane (foldl (fun (acc : list action * app) (e : waiter * settlement) =>
    let (o, x) := resume js_text now e.1 e.2 acc.2 in (acc.1 ++ o, x)) (o, z) (queue y)).2 = None).
  { induction Hq as [|[w r] q [m Hm] _ IH]; intros z o Hz; [done|]. cbn [foldl fst snd]. simpl in Hm. subst r.
    pose proof (resume_rejected now w m z Hz) as Hr. destruct (resume _ _ _ _ z) as [o' z']. by apply IH. }
  by apply H.
Qed.

Lemma auth_no_attach now : says no_attach (requestAuth now).
Proof. unfold requestAuth. walk_says; done. Qed.

Lemma dispatch_no_attach now type id payload y : activePane y = None ->
  Forall no_attach (dispatch js_text now type id payload y).1.
Proof.
  intros Hy. unfold dispatch. repeat case_bool_decide; try (by constructor).
  - unfold applyPolicy. rewrite seq_update. destruct (negb _); [|apply auth_no_attach].
    rewrite seq_update. by apply onAuthenticated_no_attach.
  - rewrite seq_update, seq_fst. apply Forall_app. split; [by apply onAuthenticated_no_attach|by repeat constructor].
  - rewrite seq_update. by repeat constructor.
  - unfold applyOutput. repeat case_match; constructor.
  - unfold when. destruct (negb _); by repeat constructor.
Qed.

Lemma settlePending_no_attach id type payload message : says no_attach (settlePending id type payload message).
Proof. unfold settlePending. walk_says; done. Qed.

(** The end of the page's connection makes it forget the attached pane, and a page
    without an attached pane does not attach one on its own, whatever the relay says:
    the branch that resumes the stream after a reconnection is never taken. *)
Theorem reconnect_does_not_resume x now jitter :
  queue x = [] ->
  (forall i st, state_of i x = Some st -> st <> CLOSED -> activePane (do_step now jitter (Closed i) x).2 = None) /\
  (activePane x = None -> forall i raw, Forall no_attach (do_step now jitter (Message i raw) x).1).
Proof.
  intros Hq. split.
  - intros i st Hi Hst. unfold step. rewrite seq_snd. apply drain_rejected. cbn [handle]. rewrite Hi.
    destruct st; try done; rewrite seq_update; by apply onClose_rejected.
  - intros Hp i raw. apply step_says; [|intros; apply resume_no_attach]. cbn [handle].
    case_bool_decide; [|constructor]. unfold onMessage. destruct (JSON_parse raw) as [[]|]; try (by repeat constructor).
    destruct (field "type" fields); try (by constructor). destruct (field "payload" fields); try (by constructor).
    rewrite seq_fst. apply Forall_app. split; [apply settlePending_no_attach|].
    apply dispatch_no_attach. by rewrite settlePending_pane.
Qed.

Lemma drain_none now x : queue x = [] -> (drain js_text now x).2 = set_queue [] x.
Proof. intros H. unfold drain. by rewrite H. Qed.

Lemma drain_one now x w r : queue x = [(w, r)] -> (drain js_text now x).2 = (resume js_text now w r (set_queue [] x)).2.
Proof. intros H. unfold drain. rewrite H. cbn [foldl fst snd]. by destruct (resume _ _ _ _ _). Qed.

(** The relay answers a request to attach after it has sent the text of the pane, and
    until it answers the pane is not the page's: an output that arrives between the two
    is not shown, but its number is remembered, so that attaching again asks the relay
    for later text only. *)
Theorem output_before_attach_reply_is_lost x i id p b out_raw ack_raw out payload ack ack_payload n now1 now2 j1 j2 :
  queue x = [] -> state_of i x = Some OPEN ->
  jm_get id (pending x) = Some (Pending (AwaitAttach p b) "attach" false) -> id <> EmptyString ->
  activePane x <> Some p -> p <> EmptyString -> is_Some (num_to_Z n) ->
  JSON_parse out_raw = Some (JObj out) -> field "type" out = JStr "output" -> field "requestId" out = JUndefined ->
  field "payload" out = JObj payload -> field "paneId" payload = JStr p -> field "streamSeq" payload = JNum n ->
  JSON_parse ack_raw = Some (JObj ack) -> field "type" ack = JStr "ack" -> field "requestId" ack = JStr id ->
  field "payload" ack = JObj ack_payload ->
  let y := (do_step now2 j2 (Message i ack_raw) (do_step now1 j1 (Message i out_raw) x).2).2 in
  activePane y = Some p /\ outputLog y = outputLog x /\ jm_get p (lastSeqByPane y) = Some n.
Proof.
  intros Hq Hi Hid Hne Hact Hp Hn Ho Hot Hoi Hop Hopane Hoseq Ha Hat Hai Hap.
  assert (H1 : exists x1, (do_step now1 j1 (Message i out_raw) x).2 = set_queue [] x1 /\
    state_of i x1 = Some OPEN /\ pending x1 = pending x /\ outputLog x1 = outputLog x /\ jm_get p (lastSeqByPane x1) = Some n).
  { exists (set_lastSeqByPane (jm_set p n (lastSeqByPane x)) x). unfold step. rewrite seq_snd.
    assert (Hh : (handle JSON_parse valid_url js_text now1 j1 (Message i out_raw) x).2 = set_lastSeqByPane (jm_set p n (lastSeqByPane x)) x).
    { cbn [handle]. rewrite Hi, bool_decide_true by done. unfold onMessage. rewrite Ho, Hot, Hop, Hoi, seq_snd.
      change (settlePending JUndefined "output" payload out x).2 with x.
      change (dispatch js_text now1 "output" JUndefined payload) with (applyOutput payload).
      unfold applyOutput. rewrite Hopane, Hoseq. rewrite (bool_decide_true (is_Some _)) by done.
      destruct p as [|c p]; [done|]. cbn [is_empty negb andb orb].
      change (activePane (set_lastSeqByPane _ x)) with (activePane x).
      by rewrite (bool_decide_false (activePane x = _)) by done. }
    rewrite Hh, drain_none by done. split_and!; try done. apply jm_get_set_eq. }
  destruct H1 as (x1 & -> & Hi1 & Hp1 & Ho1 & Hs1). unfold step. rewrite seq_snd.
  set (x2 := set_queue [] x1).
  assert (Hh : exists x3, (handle JSON_parse valid_url js_text now2 j2 (Message i ack_raw) x2).2 = x3 /\
    queue x3 = [(AwaitAttach p b, Ok ack)] /\ outputLog x3 = outputLog x /\ jm_get p (lastSeqByPane x3) = Some n).
  { eexists. split; [reflexivity|]. cbn [handle]. change (state_of i x2) with (state_of i x1).
    rewrite Hi1, bool_decide_true by done. unfold onMessage. rewrite Ha, Hat, Hap, Hai, seq_snd.
    change (dispatch js_text now2 "ack" (JStr id) ack_payload) with skip.
    unfold settlePending. destruct id as [|c id]; [done|]. change (pending x2) with (pending x1). rewrite Hp1, Hid.
    rewrite seq_update. done. }
  destruct Hh as (x3 & -> & Hq3 & Ho3 & Hs3). rewrite (drain_one _ _ _ _ Hq3). cbn [resume]. rewrite seq_update.
  by destruct b.
Qed.
End Connection.

(** ** Concrete inputs *)

Definition demo_page : form := Form "ws://relay/ws" "t" true "ls" true false.
Definition demo_hello : string := "hello".
Definition demo_frame (type : string) (more payload : list (string * jsval)) : jsval :=
  JObj ([("type", JStr type)]%string ++ more ++ [("payload", JObj payload)]%string).
Definition demo_parse (s : string) : option jsval :=
  if bool_decide (s = "hello"%string) then
    Some (demo_frame "hello" [] [("requiresAuth", JBool false); ("inputEnabled", JBool true)]%string)
  else if bool_decide (s = "output"%string) then
    Some (demo_frame "output" [] [("paneId", JStr "%1"); ("chunk", JStr "$ "); ("streamSeq", JInt 1)]%string)
  else if bool_decide (s = "ack"%string) then Some (demo_frame "ack" [("requestId", JStr "attach-5-2")]%string [])
  else None.
Definition demo_run (evs : list (Z * Z * event)) : app :=
  (run demo_parse (fun _ => true) (fun _ => EmptyString) evs (initial demo_page)).2.

Definition demo_attaching : list (Z * Z * event) :=
  [(1, 0, SubmitConnection); (2, 0, Opened 0); (3, 0, Message 0 "hello"); (5, 0, ClickPane "%1")].

Lemma output_before_attach_reply_is_lost_witness :
  let y1 := (step demo_parse (fun _ => true) (fun _ => EmptyString) 6 0 (Message 0 "output") (demo_run demo_attaching)).2 in
  let y := (step demo_parse (fun _ => true) (fun _ => EmptyString) 7 0 (Message 0 "ack") y1).2 in
  activePane y = Some "%1"%string /\ outputLog y = outputLog (demo_run demo_attaching) /\
  jm_get "%1" (lastSeqByPane y) = Some (num_of_Z 1).
Proof.
  apply (output_before_attach_reply_is_lost demo_parse (fun _ => true) (fun _ => EmptyString)
    (demo_run demo_attaching) 0 "attach-5-2" "%1" false "output" "ack"
    ([("type", JStr "output"); ("payload", JObj [("paneId", JStr "%1"); ("chunk", JStr "$ "); ("streamSeq", JInt 1)])]%string)
    ([("paneId", JStr "%1"); ("chunk", JStr "$ "); ("streamSeq", JInt 1)]%string)
    ([("type", JStr "ack"); ("requestId", JStr "attach-5-2"); ("payload", JObj [])]%string) [] (num_of_Z 1) 6 7 0 0).
  all: try (vm_compute; (reflexivity || discriminate)).
  vm_compute. by eexists.
Defined.

Lemma stale_close_orphans_witness :
  let x := demo_run [(1, 0, SubmitConnection); (2, 0, Opened 0); (3, 0, ClickDisconnect); (4, 0, SubmitConnection); (5, 0, Opened 1)] in
  let y := (step demo_parse (fun _ => true) (fun _ => EmptyString) 6 0 (Closed 0) x).2 in
  let z := (step demo_parse (fun _ => true) (fun _ => EmptyString) 7 0 (Message 1 "hello") y).2 in
  ws z = None /\ state_of 1 z = Some OPEN /\ ready z = true /\ reconnectTimer z = false.
Proof.
  cbv zeta.
  destruct (stale_close_orphans demo_parse (fun _ => true) (fun _ => EmptyString)
    (demo_run [(1, 0, SubmitConnection); (2, 0, Opened 0); (3, 0, ClickDisconnect); (4, 0, SubmitConnection); (5, 0, Opened 1)])
    0 1 6 0 7 0 "hello" [("type", JStr "hello"); ("payload", JObj [("requiresAuth", JBool false); ("inputEnabled", JBool true)])]%string
    [("requiresAuth", JBool false); ("inputEnabled", JBool true)]%string)
    as (_ & _ & _ & H); try (vm_compute; reflexivity). exact H.
Defined.

Definition demo_attached : app := demo_run (demo_attaching ++ [(6, 0, Message 0 "ack")]).

Lemma reconnect_does_not_resume_witness :
  activePane demo_attached = Some "%1"%string /\
  activePane (step demo_parse (fun _ => true) (fun _ => EmptyString) 9 0 (Closed 0) demo_attached).2 = None.
Proof.
  split; [vm_compute; reflexivity|].
  assert (Hq : queue demo_attached = []) by (vm_compute; reflexivity).
  assert (Ho : state_of 0 demo_attached = Some OPEN) by (vm_compute; reflexivity).
  destruct (reconnect_does_not_resume demo_parse (fun _ => true) (fun _ => EmptyString) demo_attached 9 0 Hq) as [H _].
  exact (H 0%nat OPEN Ho ltac:(discriminate)).
Defined.

Definition demo_input : list (string * jsval) :=
  [("paneId", JStr "%1"); ("data", JStr ("ls" +:+ newline_text))]%string.

Lemma demo_submitted :
  (step demo_parse (fun _ => true) (fun _ => EmptyString) 8 0 SubmitCommand demo_attached).1 =
    [Send 0 "input" "input-8-3" 8 demo_input].
Proof. vm_compute. reflexivity. Qed.

Lemma web_input_entitled_witness :
  Send 0 "input" "input-8-3" 8 demo_input ∈
    (step demo_parse (fun _ => true) (fun _ => EmptyString) 8 0 SubmitCommand demo_attached).1 /\
  ws_state demo_attached = Some OPEN /\ inputEnabled demo_attached = true.
Proof.
  assert (Hin : Send 0 "input" "input-8-3" 8 demo_input ∈
    (step demo_parse (fun _ => true) (fun _ => EmptyString) 8 0 SubmitCommand demo_attached).1)
    by (rewrite demo_submitted; left).
  split; [exact Hin|].
  destruct (web_input_entitled demo_parse (fun _ => true) (fun _ => EmptyString) 8 0 SubmitCommand
    demo_attached 0 _ _ _ Hin) as (_ & _ & Hopen & _ & Henabled & _).
  by split.
Defined.
