(* ===== verification/OrchestrationCli.v ===== *)
(** * The three command-line tools of the orchestration
    ([scripts/orchestration/build-task-capsule.ts], [build-agent-brief.ts],
    [build-agent-dispatch.ts])

    Options, the reading of their inputs, the file each writes, and how the output of one
    is the input of the next.  The file system, [path.resolve] and [JSON] are parameters;
    the promises of the snippets end at moments the environment chooses. *)

From S2P Require Import Prelude JsMap Orchestration.
Local Open Scope Z_scope.

(** ** What the three scripts share (the same code in each file) *)

Definition isOptionToken (token : string) : bool :=
  String.eqb token "--help" || String.eqb token "-h" || starts_with "--" token.

Definition is_help (token : string) : bool := String.eqb token "--help" || String.eqb token "-h".

Definition parseOptionToken (token : string) : result string (string * option string) :=
  if negb (starts_with "--" token) then Throw ("Unexpected token: " +:+ token)%string
  else
    match index_of "=" token with
    | None => Ok (token, None)
    | Some i => Ok (str_take i token, Some (str_drop (S i) token))
    end.

(** The loop of [parseCliArgs] with [consumeValue]; [switch]: the cases of its [switch], by flag. *)
Section Scan.
Context {A : Type} (set_help : A -> A) (switch : string -> option (string -> A -> A)).

Fixpoint parse_args (argv : list string) (parsed : A) : result string A :=
  match argv with
  | [] => Ok parsed
  | token :: rest =>
      if is_help token then parse_args rest (set_help parsed)
      else
        match parseOptionToken token with
        | Throw e => Throw e
        | Ok (flag, inlineValue) =>
            match switch flag with
            | None => Throw ("Unknown option: " +:+ flag)%string
            | Some set =>
                match inlineValue with
                | Some v => parse_args rest (set v parsed)
                | None =>
                    match rest with
                    | next :: rest' =>
                        if isOptionToken next then Throw (flag +:+ " requires a value.")%string
                        else parse_args rest' (set next parsed)
                    | [] => Throw (flag +:+ " requires a value.")%string
                    end
                end
            end
        end
  end.
End Scan.

Definition requireValue (raw : option string) (flag : string) : result string string :=
  match raw with
  | None | Some EmptyString => Throw ("Missing required option: " +:+ flag)%string
  | Some s => if is_empty (trim s) then Throw (flag +:+ " cannot be empty.")%string else Ok (trim s)
  end.

Definition requireRepeatedValues (values : list string) (flag : string) : result string (list string) :=
  match trimmed_set values with
  | [] => Throw ("Missing required option: " +:+ flag +:+ " (provide at least one value).")%string
  | l => Ok l
  end.

(** The files, as the script finds them; [read_time]: when the n-th read of a
    [Promise.all] ends; [write_error]: why making the directory or writing fails. *)
Record Files : Type := MkFiles {
  resolve : string -> string;
  read_file : string -> result string string;
  read_time : nat -> nat;
  write_error : string -> option string
}.

Inductive outcome : Type :=
| ShowUsage
| Written (path text : string)
| Failed (message : string).

Definition write (f : Files) (out text : string) : result string outcome :=
  let outPath := resolve f out in
  match write_error f outPath with
  | Some e => Throw e
  | None => Ok (Written outPath text)
  end.

(** [main().catch]. *)
Definition main_catch (m : result string outcome) : outcome :=
  match m with Ok o => o | Throw e => Failed e end.


(** [Promise.all]: all values in order, or the error of the promise that fails first. *)
Fixpoint first_error {A} (l : list (nat * result string A)) : option (nat * string) :=
  match l with
  | [] => None
  | (_, Ok _) :: l => first_error l
  | (t, Throw e) :: l =>
      match first_error l with
      | Some (t', e') => if (t' <? t)%nat then Some (t', e') else Some (t, e)
      | None => Some (t, e)
      end
  end.

Definition promise_all {A} (l : list (nat * result string A)) : result string (list A) :=
  match first_error l with
  | Some (_, e) => Throw e
  | None => Ok (omap (fun p => match p.2 with Ok v => Some v | Throw _ => None end) l)
  end.

(** [map] with an index, where the function throws. *)
Fixpoint each {A B} (g : nat -> A -> result string B) (i : nat) (l : list A) : result string (list B) :=
  match l with
  | [] => Ok []
  | x :: l => rbind (g i x) (fun y => rbind (each g (S i) l) (fun ys => Ok (y :: ys)))
  end.

(** ** [build-task-capsule.ts] *)

Module CapsuleCli.
Import Capsule.

Record CliArgs : Type := Args {
  goal : option string;
  owner : option string;
  paths : list string;
  acceptanceCriteria : list string;
  risks : list string;
  snippets : list string;
  out : option string;
  help : bool
}.

Definition no_args : CliArgs := Args None None [] [] [] [] None false.
Definition set_help (a : CliArgs) : CliArgs :=
  Args (goal a) (owner a) (paths a) (acceptanceCriteria a) (risks a) (snippets a) (out a) true.

Definition switch (flag : string) : option (string -> CliArgs -> CliArgs) :=
  if String.eqb flag "--goal" then
    Some (fun v a => Args (Some v) (owner a) (paths a) (acceptanceCriteria a) (risks a) (snippets a) (out a) (help a))
  else if String.eqb flag "--owner" then
    Some (fun v a => Args (goal a) (Some v) (paths a) (acceptanceCriteria a) (risks a) (snippets a) (out a) (help a))
  else if String.eqb flag "--path" then
    Some (fun v a => Args (goal a) (owner a) (paths a ++ [v]) (acceptanceCriteria a) (risks a) (snippets a) (out a) (help a))
  else if String.eqb flag "--accept" then
    Some (fun v a => Args (goal a) (owner a) (paths a) (acceptanceCriteria a ++ [v]) (risks a) (snippets a) (out a) (help a))
  else if String.eqb flag "--risk" then
    Some (fun v a => Args (goal a) (owner a) (paths a) (acceptanceCriteria a) (risks a ++ [v]) (snippets a) (out a) (help a))
  else if String.eqb flag "--snippet" then
    Some (fun v a => Args (goal a) (owner a) (paths a) (acceptanceCriteria a) (risks a) (snippets a ++ [v]) (out a) (help a))
  else if String.eqb flag "--out" then
    Some (fun v a => Args (goal a) (owner a) (paths a) (acceptanceCriteria a) (risks a) (snippets a) (Some v) (help a))
  else None.

Definition parseCliArgs (argv : list string) : result string CliArgs := parse_args set_help switch argv no_args.

Definition clampLine (value min max : Z) : Z :=
  if value <? min then min else if max <? value then max else value.

(** [lines.slice(safeStart - 1, safeEnd)]: lines start to end, counted from 1. *)
Definition line_range (start last : Z) (lines : list string) : list string :=
  take (Z.to_nat (last - (start - 1))) (drop (Z.to_nat (start - 1)) lines).

Definition selectSnippetContent (fileContent : string) (startLine endLine : option Z) : string :=
  let normalizedContent := Dispatch.replace_crlf fileContent in
  match startLine, endLine with
  | None, None => normalizedContent
  | _, _ =>
      let lines := split_on newline normalizedContent in
      let n := Z.of_nat (length lines) in
      let safeStart := clampLine (default 1 startLine) 1 n in
      let safeEnd := clampLine (default n endLine) safeStart n in
      join_lines (line_range safeStart safeEnd lines)
  end.

(** [readSnippetInput], with the moment it ends: a selector is refused at once. *)
Definition readSnippetInput (f : Files) (index : nat) (selector : string) : nat * result string (string * string) :=
  let unreadable e := Throw ("Unable to read snippet for selector " +:+ in_quotes selector +:+ ": " +:+ e)%string in
  match parseFileSnippetSelector selector None None with
  | Throw e => (O, unreadable e)
  | Ok parsed =>
      (S (read_time f index),
       match read_file f (resolve f (sel_path parsed)) with
       | Throw e => unreadable e
       | Ok text => Ok (selector, selectSnippetContent text (startLine parsed) (endLine parsed))
       end)
  end.

Definition no_overrides : Overrides := Override None None None None.

(** [main] up to the capsule: where it goes, and the capsule. *)
Definition build (f : Files) (parsed : CliArgs) : result string (string * TaskCapsule) :=
  rbind (requireValue (goal parsed) "--goal") (fun g =>
  rbind (requireValue (owner parsed) "--owner") (fun o =>
  rbind (requireValue (out parsed) "--out") (fun outPath =>
  rbind (promise_all (imap (readSnippetInput f) (snippets parsed))) (fun snippetInputs =>
  rbind (buildTaskCapsule (Input g o (paths parsed) (acceptanceCriteria parsed) (risks parsed) snippetInputs) no_overrides)
    (fun capsule => Ok (outPath, capsule)))))).

(** The object [JSON.stringify] is given. *)
Definition snippet_json (s : TaskCapsuleSnippet) : jsval :=
  JObj ([("path", JStr (snip_path s))]%string ++
        match snip_start s with Some a => [("startLine"%string, JInt a)] | None => [] end ++
        match snip_end s with Some b => [("endLine"%string, JInt b)] | None => [] end ++
        [("content", JStr (content s))]%string).

Definition capsule_json (c : TaskCapsule) : jsval :=
  JObj [("schemaVersion", JStr TASK_CAPSULE_SCHEMA_VERSION); ("goal", JStr (Capsule.goal c)); ("owner", JStr (Capsule.owner c));
        ("paths", JArr (JStr <$> Capsule.paths c)); ("acceptanceCriteria", JArr (JStr <$> Capsule.acceptanceCriteria c));
        ("risks", JArr (JStr <$> Capsule.risks c)); ("snippets", JArr (snippet_json <$> Capsule.snippets c))]%string.

Definition main (JSON_stringify : jsval -> string) (f : Files) (argv : list string) : outcome :=
  main_catch
    (rbind (parseCliArgs argv) (fun parsed =>
     if help parsed then Ok ShowUsage
     else rbind (build f parsed) (fun '(out, capsule) =>
          write f out (JSON_stringify (capsule_json capsule) +:+ newline_text)%string))).
End CapsuleCli.

(** ** [build-agent-brief.ts] *)

Module BriefCli.
Import Capsule.

Record CliArgs : Type := Args {
  capsule : option string;
  task : option string;
  owner : option string;
  paths : list string;
  acceptanceCriteria : list string;
  risks : list string;
  out : option string;
  help : bool
}.

Definition no_args : CliArgs := Args None None None [] [] [] None false.
Definition set_help (a : CliArgs) : CliArgs :=
  Args (capsule a) (task a) (owner a) (paths a) (acceptanceCriteria a) (risks a) (out a) true.

Definition switch (flag : string) : option (string -> CliArgs -> CliArgs) :=
  if String.eqb flag "--capsule" then
    Some (fun v a => Args (Some v) (task a) (owner a) (paths a) (acceptanceCriteria a) (risks a) (out a) (help a))
  else if String.eqb flag "--task" then
    Some (fun v a => Args (capsule a) (Some v) (owner a) (paths a) (acceptanceCriteria a) (risks a) (out a) (help a))
  else if String.eqb flag "--owner" then
    Some (fun v a => Args (capsule a) (task a) (Some v) (paths a) (acceptanceCriteria a) (risks a) (out a) (help a))
  else if String.eqb flag "--path" then
    Some (fun v a => Args (capsule a) (task a) (owner a) (paths a ++ [v]) (acceptanceCriteria a) (risks a) (out a) (help a))
  else if String.eqb flag "--accept" then
    Some (fun v a => Args (capsule a) (task a) (owner a) (paths a) (acceptanceCriteria a ++ [v]) (risks a) (out a) (help a))
  else if String.eqb flag "--risk" then
    Some (fun v a => Args (capsule a) (task a) (owner a) (paths a) (acceptanceCriteria a) (risks a ++ [v]) (out a) (help a))
  else if String.eqb flag "--out" then
    Some (fun v a => Args (capsule a) (task a) (owner a) (paths a) (acceptanceCriteria a) (risks a) (Some v) (help a))
  else None.

Definition parseCliArgs (argv : list string) : result string CliArgs := parse_args set_help switch argv no_args.

Definition asRecord (value : jsval) (context : string) : result string (list (string * jsval)) :=
  match value with JObj fields => Ok fields | _ => Throw (context +:+ " must be an object.")%string end.

Definition readRequiredString (source : list (string * jsval)) (name context : string) (requireNonEmpty : bool) :
    result string string :=
  match field name source with
  | JStr value =>
      if requireNonEmpty && is_empty (trim value) then Throw (context +:+ "." +:+ name +:+ " cannot be empty.")%string
      else Ok (if requireNonEmpty then trim value else value)
  | _ => Throw (context +:+ "." +:+ name +:+ " must be a string.")%string
  end.

Definition readArray (source : list (string * jsval)) (name : string) : result string (list jsval) :=
  match field name source with
  | JArr l => Ok l
  | _ => Throw ("capsule." +:+ name +:+ " must be an array.")%string
  end.

Definition readStringArray (source : list (string * jsval)) (name : string) : result string (list string) :=
  rbind (readArray source name) (fun value =>
  rbind (each (fun i entry => match entry with
                              | JStr s => Ok (trim s)
                              | _ => Throw (indexed ("capsule." +:+ name) i +:+ " must be a string.")%string
                              end) 0 value) (fun texts =>
  Ok (trimmed_set (filter (fun t => t <> EmptyString) texts)))).

Definition readOptionalPositiveInteger (source : list (string * jsval)) (name context : string) : result string (option Z) :=
  let refuse := Throw (context +:+ "." +:+ name +:+ " must be a positive integer when provided.")%string in
  match field name source with
  | JUndefined => Ok None
  | JNum n => match num_to_Z n with
              | Some z => if z <? 1 then refuse else Ok (Some z)
              | None => refuse
              end
  | _ => refuse
  end.

Definition parseSnippet (index : nat) (value : jsval) : result string TaskCapsuleSnippet :=
  let context := indexed "capsule.snippets" index in
  rbind (asRecord value context) (fun snippet =>
  rbind (readOptionalPositiveInteger snippet "startLine" context) (fun startLine =>
  rbind (readOptionalPositiveInteger snippet "endLine" context) (fun endLine =>
  if match startLine, endLine with Some a, Some b => b <? a | _, _ => false end
  then Throw (context +:+ ".endLine cannot be less than startLine.")%string
  else
    rbind (readRequiredString snippet "path" context true) (fun path =>
    rbind (readRequiredString snippet "content" context false) (fun content =>
    Ok (Snippet path startLine endLine content)))))).

Definition parseTaskCapsuleEssential (value : jsval) : result string TaskCapsule :=
  rbind (asRecord value "capsule JSON root") (fun capsule =>
  rbind (readRequiredString capsule "schemaVersion" "capsule" true) (fun schemaVersion =>
  if negb (String.eqb schemaVersion TASK_CAPSULE_SCHEMA_VERSION) then
    Throw ("capsule.schemaVersion must be " +:+ in_quotes TASK_CAPSULE_SCHEMA_VERSION +:+
           " (received " +:+ in_quotes schemaVersion +:+ ").")%string
  else
    rbind (readArray capsule "snippets") (fun snippetsRaw =>
    rbind (each parseSnippet 0 snippetsRaw) (fun snippets =>
    rbind (readRequiredString capsule "goal" "capsule" true) (fun goal =>
    rbind (readRequiredString capsule "owner" "capsule" true) (fun owner =>
    rbind (readStringArray capsule "paths") (fun paths =>
    rbind (readStringArray capsule "acceptanceCriteria") (fun criteria =>
    rbind (readStringArray capsule "risks") (fun risks =>
    Ok (Capsule goal owner paths criteria risks snippets)))))))))).

Definition readAndValidateCapsule (JSON_parse : string -> result string jsval) (f : Files) (capsulePath : string) :
    result string TaskCapsule :=
  let absolutePath := resolve f capsulePath in
  rbind (read_file f absolutePath) (fun rawContent =>
  match JSON_parse rawContent with
  | Throw e => Throw ("Invalid capsule JSON at " +:+ in_quotes absolutePath +:+ ": " +:+ e)%string
  | Ok parsed => parseTaskCapsuleEssential parsed
  end).

(** [invokeCoreBuilder] on [buildAgentBrief], whose result carries its text in [text]. *)
Definition invokeCoreBuilder (c : TaskCapsule) (ownedPaths : list string) : result string string :=
  rbind (Brief.buildAgentBrief c ownedPaths) (fun b =>
  let text := Brief.renderAgentBriefText b in
  if is_empty (trim text)
  then Throw "Core builder returned unsupported output; expected non-empty string brief."%string else Ok text).

Definition normalizeBriefOutput (rawBrief : string) : string :=
  (trim_end (Dispatch.replace_crlf rawBrief) +:+ newline_text)%string.

(** [main] up to the text: where it goes, and the text. *)
Definition build (JSON_parse : string -> result string jsval) (f : Files) (parsed : CliArgs) : result string (string * string) :=
  rbind (requireValue (capsule parsed) "--capsule") (fun capsulePath =>
  rbind (requireValue (task parsed) "--task") (fun t =>
  rbind (requireValue (owner parsed) "--owner") (fun o =>
  rbind (requireValue (out parsed) "--out") (fun outPath =>
  rbind (requireRepeatedValues (paths parsed) "--path") (fun ownedPaths =>
  rbind (readAndValidateCapsule JSON_parse f capsulePath) (fun c =>
  let criteria := trimmed_set (Capsule.acceptanceCriteria c ++ acceptanceCriteria parsed) in
  let risks := trimmed_set (Capsule.risks c ++ risks parsed) in
  rbind (invokeCoreBuilder (Capsule t o (Capsule.paths c) criteria risks (Capsule.snippets c)) ownedPaths) (fun raw =>
  Ok (outPath, normalizeBriefOutput raw)))))))).

Definition main (JSON_parse : string -> result string jsval) (f : Files) (argv : list string) : outcome :=
  main_catch
    (rbind (parseCliArgs argv) (fun parsed =>
     if help parsed then Ok ShowUsage
     else rbind (build JSON_parse f parsed) (fun '(out, brief) => write f out brief))).
End BriefCli.

(** ** [build-agent-dispatch.ts] *)

Module DispatchCli.
Import Dispatch.

Record CliArgs : Type := Args {
  brief : option string;
  owner : option string;
  paths : list string;
  agentType : option string;
  task : option string;
  instructions : list string;
  out : option string;
  help : bool
}.

Definition no_args : CliArgs := Args None None [] None None [] None false.
Definition set_help (a : CliArgs) : CliArgs :=
  Args (brief a) (owner a) (paths a) (agentType a) (task a) (instructions a) (out a) true.

Definition switch (flag : string) : option (string -> CliArgs -> CliArgs) :=
  if String.eqb flag "--brief" then
    Some (fun v a => Args (Some v) (owner a) (paths a) (agentType a) (task a) (instructions a) (out a) (help a))
  else if String.eqb flag "--owner" then
    Some (fun v a => Args (brief a) (Some v) (paths a) (agentType a) (task a) (instructions a) (out a) (help a))
  else if String.eqb flag "--path" then
    Some (fun v a => Args (brief a) (owner a) (paths a ++ [v]) (agentType a) (task a) (instructions a) (out a) (help a))
  else if String.eqb flag "--agent-type" then
    Some (fun v a => Args (brief a) (owner a) (paths a) (Some v) (task a) (instructions a) (out a) (help a))
  else if String.eqb flag "--task" then
    Some (fun v a => Args (brief a) (owner a) (paths a) (agentType a) (Some v) (instructions a) (out a) (help a))
  else if String.eqb flag "--instruction" then
    Some (fun v a => Args (brief a) (owner a) (paths a) (agentType a) (task a) (instructions a ++ [v]) (out a) (help a))
  else if String.eqb flag "--out" then
    Some (fun v a => Args (brief a) (owner a) (paths a) (agentType a) (task a) (instructions a) (Some v) (help a))
  else None.

Definition parseCliArgs (argv : list string) : result string CliArgs := parse_args set_help switch argv no_args.

Definition normalizeOptionalText (raw : option string) : option string :=
  match raw with
  | None => None
  | Some s => if is_empty (trim s) then None else Some (trim s)
  end.

Definition parseAgentType (raw : option string) : result string string :=
  let normalized := default "worker"%string (normalizeOptionalText raw) in
  if js_has normalized ["worker"; "explorer"; "awaiter"; "default"]%string then Ok normalized
  else Throw ("--agent-type must be one of: worker, explorer, awaiter, default (received " +:+ in_quotes normalized +:+ ").")%string.

Definition readBrief (f : Files) (absolutePath : string) : result string string :=
  let unreadable e := Throw ("Unable to read brief file " +:+ in_quotes absolutePath +:+ ": " +:+ e)%string in
  match read_file f absolutePath with
  | Throw e => unreadable e
  | Ok raw =>
      let normalized := trim (replace_crlf raw) in
      if is_empty normalized then unreadable "brief file is empty."%string else Ok normalized
  end.

(** [main] up to the template: where it goes, and the template. *)
Definition build (f : Files) (parsed : CliArgs) : result string (string * SpawnAgentTemplate) :=
  rbind (requireValue (brief parsed) "--brief") (fun briefPath =>
  rbind (requireValue (owner parsed) "--owner") (fun o =>
  rbind (requireValue (out parsed) "--out") (fun outPath =>
  rbind (requireRepeatedValues (paths parsed) "--path") (fun owned =>
  rbind (parseAgentType (agentType parsed)) (fun agent =>
  let t := normalizeOptionalText (task parsed) in
  let instr := trimmed_set (instructions parsed) in
  rbind (readBrief f (resolve f briefPath)) (fun body =>
  rbind (buildSpawnAgentTemplate agent (DispatchInput t o owned body instr)) (fun payload =>
  Ok (outPath, payload)))))))).

Definition template_json (t : SpawnAgentTemplate) : jsval :=
  JObj [("agent_type", JStr (agent_type t)); ("message", JStr (message t));
        ("metadata", JObj [("task", JStr (t_task t)); ("owner", JStr (t_owner t)); ("owned_files", JArr (JStr <$> owned_files t));
                           ("additional_instructions", JArr (JStr <$> additional_instructions t));
                           ("safety_notice", JStr DISPATCH_SAFETY_NOTICE); ("brief_body", JStr (brief_body t))])]%string.

Definition main (JSON_stringify : jsval -> string) (f : Files) (argv : list string) : outcome :=
  main_catch
    (rbind (parseCliArgs argv) (fun parsed =>
     if help parsed then Ok ShowUsage
     else rbind (build f parsed) (fun '(out, payload) =>
          write f out (JSON_stringify (template_json payload) +:+ newline_text)%string))).
End DispatchCli.

(** ** What one tool writes the next one reads *)

Lemma trimmed_fold_id l acc : trimmed_texts l -> (forall x, x ∈ l -> x ∉ acc) ->
  foldl (fun acc v => if is_empty (trim v) then acc else js_add (trim v) acc) acc l = acc ++ l.
Proof.
  revert acc. induction l as [|x l IH]; intros acc [Hnd Hall] Hx; [by rewrite app_nil_r|].
  apply NoDup_cons in Hnd as [Hxl Hnd]. apply Forall_cons in Hall as [[Ht Hne] Hall]. cbn [foldl].
  rewrite Ht. destruct x as [|c x]; [done|]. cbn [is_empty]. unfold js_add. rewrite decide_False by (apply Hx; left).
  rewrite IH; [by rewrite <- app_assoc|by split|].
  intros y Hy [Hya| ->%list_elem_of_singleton]%elem_of_app; [|done]. exact (Hx y ltac:(by right) Hya).
Qed.

Lemma trimmed_set_id l : trimmed_texts l -> trimmed_set l = l.
Proof. intros H. unfold trimmed_set. rewrite trimmed_fold_id; [done|done|]. intros x _. apply not_elem_of_nil. Qed.

Lemma each_map {A B} (g : nat -> A -> result string B) (h : B -> A) l :
  Forall (fun y => forall i, g i (h y) = Ok y) l -> forall i, each g i (h <$> l) = Ok l.
Proof. intros H. induction H as [|y l Hy _ IH]; intros i; [done|]. cbn [fmap list_fmap each]. by rewrite Hy, IH. Qed.

Lemma each_Forall {A B} (P : B -> Prop) (g : nat -> A -> result string B) : (forall i x y, g i x = Ok y -> P y) ->
  forall l i ys, each g i l = Ok ys -> Forall P ys.
Proof.
  intros Hg l. induction l as [|x l IH]; intros i ys; cbn [each]; [by intros [= <-]|].
  rewrite rbind_Ok. intros (y & Hy & H). rewrite rbind_Ok in H. destruct H as (zs & Hzs & [= <-]).
  constructor; [by eapply Hg|by eapply IH].
Qed.

Section CapsuleFile.
Import Capsule CapsuleCli BriefCli.

Definition text_ok (s : string) : Prop := trim s = s /\ s <> EmptyString.

Definition snippet_wf (s : TaskCapsuleSnippet) : Prop :=
  text_ok (snip_path s) /\ (forall a, snip_start s = Some a -> 1 <= a) /\ (forall b, snip_end s = Some b -> 1 <= b) /\
  (forall a b, snip_start s = Some a -> snip_end s = Some b -> a <= b).

(** What both tools promise of a capsule. *)
Definition capsule_wf (c : TaskCapsule) : Prop :=
  text_ok (Capsule.goal c) /\ text_ok (Capsule.owner c) /\ trimmed_texts (Capsule.paths c) /\
  trimmed_texts (Capsule.acceptanceCriteria c) /\ trimmed_texts (Capsule.risks c) /\ Forall snippet_wf (Capsule.snippets c).

Lemma required_ok what raw t : required_text what raw = Ok t -> text_ok t.
Proof.
  unfold required_text. destruct (is_empty (trim raw)) eqn:He; [done|]. intros [= <-]. split; [apply trim_idem|].
  by destruct (trim raw).
Qed.

Lemma positive_ok v f z : normalizePositiveInteger v f = Ok z -> 1 <= z.
Proof. unfold normalizePositiveInteger. destruct (num_to_Z v); [|done]. destruct (Z.ltb_spec z0 1); [done|]. by intros [= <-]. Qed.

Lemma constraints_positive o cs : resolveConstraints o = Ok cs -> 1 <= selectorLineMin cs.
Proof.
  unfold resolveConstraints. rewrite rbind_Ok. intros (a & _ & H). rewrite rbind_Ok in H. destruct H as (b & _ & H).
  rewrite rbind_Ok in H. destruct H as (lo & Hlo%positive_ok & H). rewrite rbind_Ok in H. destruct H as (hi & _ & H).
  destruct (hi <? lo); [done|]. by injection H as <-.
Qed.

Lemma built_wf input o c : buildTaskCapsule input o = Ok c -> capsule_wf c.
Proof.
  intros Hb. destruct (capsule_bounded _ _ _ Hb) as (cs & Hcs & _ & Hsn & Hp & Hc & Hr).
  apply constraints_positive in Hcs.
  unfold buildTaskCapsule in Hb. rewrite rbind_Ok in Hb. destruct Hb as (cs' & _ & Hb).
  rewrite rbind_Ok in Hb. destruct Hb as (g & Hg%required_ok & Hb). rewrite rbind_Ok in Hb. destruct Hb as (w & Hw%required_ok & Hb).
  rewrite rbind_Ok in Hb. destruct Hb as (r & _ & [= <-]). cbn [Capsule.paths Capsule.snippets] in *.
  split_and!; try done. eapply Forall_impl; [exact Hsn|]. intros s (Hpath & _ & Ha & Hb). split_and!.
  - destruct Hp as [_ Hp]. exact (proj1 (Forall_forall _ _) Hp _ Hpath).
  - intros a Hs. pose proof (Ha a Hs). lia.
  - intros b Hs. destruct (Hb b Hs) as (a & Hs' & ?). pose proof (Ha a Hs'). lia.
  - intros a b Hs Ht. destruct (Hb b Ht) as (a' & Hs' & ?). assert (a = a') by congruence. lia.
Qed.

Lemma readRequired_ok src k s ctx b : field k src = JStr s -> b = false \/ text_ok s -> readRequiredString src k ctx b = Ok s.
Proof.
  intros Hf H. unfold readRequiredString. rewrite Hf. destruct b; [|done]. destruct H as [?|[Ht Hne]]; [done|].
  rewrite Ht. by destruct s.
Qed.

Lemma readArray_texts src k l : field k src = JArr (JStr <$> l) -> trimmed_texts l -> readStringArray src k = Ok l.
Proof.
  intros Hf Hl. unfold readStringArray, readArray. rewrite Hf. cbn [rbind]. rewrite each_map.
  - cbn [rbind]. rewrite filter_all; [by rewrite trimmed_set_id|]. destruct Hl as [_ Hl]. eapply Forall_impl; [exact Hl|]. by intros t [_ ?].
  - destruct Hl as [_ Hl]. eapply Forall_impl; [exact Hl|]. intros t [Ht _] _. by rewrite Ht.
Qed.

Lemma readLine_ok src k ctx z : field k src = match z with Some a => JInt a | None => JUndefined end ->
  (forall a, z = Some a -> 1 <= a) -> readOptionalPositiveInteger src k ctx = Ok z.
Proof.
  intros Hf Hz. unfold readOptionalPositiveInteger. rewrite Hf. destruct z as [a|]; [|done].
  rewrite num_to_Z_int. specialize (Hz a eq_refl). by destruct (Z.ltb_spec a 1); [lia|].
Qed.

Lemma parseSnippet_json s i : snippet_wf s -> parseSnippet i (snippet_json s) = Ok s.
Proof.
  destruct s as [p a b t]. intros (Hp & Ha & Hb & Hab). unfold parseSnippet, snippet_json. cbn [snip_path snip_start snip_end content] in *.
  cbn [asRecord rbind]. rewrite (readLine_ok _ "startLine" _ a), (readLine_ok _ "endLine" _ b); [|by destruct a, b|done|by destruct a, b|done].
  cbn [rbind]. replace (match a with Some a0 => match b with Some b0 => b0 <? a0 | None => false end | None => false end) with false.
  - rewrite (readRequired_ok _ "path" p), (readRequired_ok _ "content" t); [done|by destruct a, b|by left|done|by right].
  - destruct a as [a|]; [|done]. destruct b as [b|]; [|done]. specialize (Hab a b eq_refl eq_refl). symmetry. apply Z.ltb_ge. lia.
Qed.

Lemma parse_json c : capsule_wf c -> parseTaskCapsuleEssential (capsule_json c) = Ok c.
Proof.
  destruct c as [g w p cr r sn]. intros (Hg & Hw & Hp & Hcr & Hr & Hsn). unfold parseTaskCapsuleEssential, capsule_json.
  cbn [Capsule.goal Capsule.owner Capsule.paths Capsule.acceptanceCriteria Capsule.risks Capsule.snippets] in *.
  cbn [asRecord rbind]. rewrite (readRequired_ok _ "schemaVersion" TASK_CAPSULE_SCHEMA_VERSION); [|done|by right].
  cbn [rbind]. rewrite (String.eqb_refl TASK_CAPSULE_SCHEMA_VERSION). cbn [negb].
  unfold readArray at 1. change (field "snippets" _) with (JArr (snippet_json <$> sn)). cbn [rbind]. rewrite each_map.
  2: { eapply Forall_impl; [exact Hsn|]. intros s Hs i. by apply parseSnippet_json. }
  cbn [rbind]. rewrite (readRequired_ok _ "goal" g), (readRequired_ok _ "owner" w); [|done|by right|done|by right].
  cbn [rbind]. by rewrite (readArray_texts _ "paths" p), (readArray_texts _ "acceptanceCriteria" cr), (readArray_texts _ "risks" r).
Qed.

Lemma readRequired_inv src k ctx s : readRequiredString src k ctx true = Ok s -> text_ok s.
Proof.
  unfold readRequiredString. destruct (field k src); try done. cbn [andb].
  destruct (is_empty (trim s0)) eqn:He; [done|]. intros [= <-]. split; [apply trim_idem|]. by destruct (trim s0).
Qed.

Lemma readStringArray_inv src k l : readStringArray src k = Ok l -> trimmed_texts l.
Proof.
  unfold readStringArray. rewrite rbind_Ok. intros (v & _ & H). rewrite rbind_Ok in H. destruct H as (ts & _ & [= <-]).
  apply trimmed_set_ok.
Qed.

Lemma readLine_inv src k ctx z : readOptionalPositiveInteger src k ctx = Ok z -> forall a, z = Some a -> 1 <= a.
Proof.
  unfold readOptionalPositiveInteger. destruct (field k src); try done; [by intros [= <-]|].
  destruct (num_to_Z n) as [m|]; [|done]. destruct (Z.ltb_spec m 1); [done|]. intros [= <-] a [= <-]. done.
Qed.

Lemma parseSnippet_inv i v s : parseSnippet i v = Ok s -> snippet_wf s.
Proof.
  unfold parseSnippet. rewrite rbind_Ok. intros (fs & _ & H). rewrite rbind_Ok in H. destruct H as (a & Ha & H).
  rewrite rbind_Ok in H. destruct H as (b & Hb & H).
  destruct (match a with Some a0 => match b with Some b0 => b0 <? a0 | None => false end | None => false end) eqn:Hab; [done|].
  rewrite rbind_Ok in H. destruct H as (p & Hp%readRequired_inv & H). rewrite rbind_Ok in H. destruct H as (t & _ & [= <-]).
  split_and!; [done|by apply (readLine_inv _ _ _ _ Ha)|by apply (readLine_inv _ _ _ _ Hb)|].
  cbn [snip_start snip_end]. intros x y -> ->. by apply Z.ltb_ge in Hab.
Qed.

Lemma parse_wf v c : parseTaskCapsuleEssential v = Ok c -> capsule_wf c.
Proof.
  unfold parseTaskCapsuleEssential. rewrite rbind_Ok. intros (fs & _ & H). rewrite rbind_Ok in H. destruct H as (ver & _ & H).
  destruct (negb _); [done|]. rewrite rbind_Ok in H. destruct H as (raw & _ & H). rewrite rbind_Ok in H. destruct H as (sn & Hsn & H).
  rewrite rbind_Ok in H. destruct H as (g & Hg%readRequired_inv & H). rewrite rbind_Ok in H. destruct H as (w & Hw%readRequired_inv & H).
  rewrite rbind_Ok in H. destruct H as (p & Hp%readStringArray_inv & H). rewrite rbind_Ok in H. destruct H as (cr & Hcr%readStringArray_inv & H).
  rewrite rbind_Ok in H. destruct H as (r & Hr%readStringArray_inv & [= <-]). split_and!; try done.
  exact (each_Forall snippet_wf parseSnippet parseSnippet_inv _ _ _ Hsn).
Qed.

(** The capsule file: whatever [build-task-capsule] builds, [build-agent-brief] reads back
    as the same capsule; and whatever it accepts, from wherever, is such a capsule -
    trimmed, without repetitions, its line numbers positive and in order - which its own
    file gives again. *)
Theorem capsule_file_roundtrip input o v c :
  buildTaskCapsule input o = Ok c \/ parseTaskCapsuleEssential v = Ok c ->
  capsule_wf c /\ parseTaskCapsuleEssential (capsule_json c) = Ok c.
Proof.
  intros [H%built_wf|H%parse_wf]; (split; [done|by apply parse_json]).
Qed.
End CapsuleFile.

Section Pipeline.
Import Dispatch.

Lemma requireValue_inv raw flag v : requireValue raw flag = Ok v ->
  exists s, raw = Some s /\ v = trim s /\ is_empty (trim s) = false.
Proof.
  destruct raw as [[|c s]|]; try done. unfold requireValue.
  destruct (is_empty (trim (String c s))) eqn:He; [done|]. intros [= <-]. eauto.
Qed.

(** The text that [build-agent-brief] writes: a brief for the task of its command line. *)
Lemma brief_build_inv JSON_parse f a t out text : BriefCli.task a = Some t ->
  BriefCli.build JSON_parse f a = Ok (out, text) ->
  exists b, Brief.task b = trim t /\ is_empty (trim t) = false /\
    text = BriefCli.normalizeBriefOutput (Brief.renderAgentBriefText b).
Proof.
  intros Ht. unfold BriefCli.build. rewrite rbind_Ok. intros (cp & _ & H).
  rewrite rbind_Ok in H. destruct H as (t' & (s & Hs & -> & He)%requireValue_inv & H).
  assert (s = t) as -> by congruence. rewrite rbind_Ok in H. destruct H as (o & _ & H).
  rewrite rbind_Ok in H. destruct H as (p & _ & H). rewrite rbind_Ok in H. destruct H as (ow & _ & H).
  rewrite rbind_Ok in H. destruct H as (c & _ & H). cbv zeta in H. rewrite rbind_Ok in H. destruct H as (raw & Hraw & [= <- <-]).
  unfold BriefCli.invokeCoreBuilder in Hraw. rewrite rbind_Ok in Hraw. destruct Hraw as (b & Hb & Hraw).
  cbv zeta in Hraw. destruct (is_empty (trim (Brief.renderAgentBriefText b))); [done|]. injection Hraw as <-. exists b.
  split; [|done]. unfold Brief.buildAgentBrief in Hb. cbn [Capsule.goal] in Hb. rewrite rbind_Ok in Hb. destruct Hb as (g & Hg & Hb).
  rewrite rbind_Ok in Hb. destruct Hb as (w & _ & Hb). rewrite rbind_Ok in Hb. destruct Hb as (l & _ & [= <-]).
  unfold required_text in Hg. rewrite trim_idem, He in Hg. by injection Hg as <-.
Qed.

Lemma written_shape b : index_of "013" (Brief.task b) = None ->
  brief_shape b (trim (replace_crlf (BriefCli.normalizeBriefOutput (Brief.renderAgentBriefText b)))).
Proof.
  intros Hcr. apply shape_trim, shape_crlf; [done|]. unfold BriefCli.normalizeBriefOutput. apply shape_newline, shape_trim_end.
  apply shape_crlf; [done|]. apply rendered_shape.
Qed.

(** C35. The task of the whole pipeline, for a task without carriage returns none of whose
    lines looks like the heading of a section: when [build-agent-brief] has written a
    brief for [--task t] and [build-agent-dispatch] reads that file without a task of its
    own, the dispatch it builds carries exactly the trimmed task - and it does build one,
    for any owner, paths and agent type it accepts.  Without the two conditions it need
    not: see [Orchestration.heading_task_lost]. *)
Theorem pipeline_carries_task JSON_parse f a t out text g d brief_path owner out' :
  BriefCli.task a = Some t -> BriefCli.build JSON_parse f a = Ok (out, text) ->
  index_of "013" t = None -> Forall (fun l => isSectionBoundary l = false) (split_on newline (trim t)) ->
  requireValue (DispatchCli.brief d) "--brief" = Ok brief_path ->
  read_file g (resolve g brief_path) = Ok text ->
  requireValue (DispatchCli.owner d) "--owner" = Ok owner -> requireValue (DispatchCli.out d) "--out" = Ok out' ->
  is_Some (match validateOwnedPaths (trimmed_set (DispatchCli.paths d)) with Ok l => Some l | Throw _ => None end) ->
  is_Some (match DispatchCli.parseAgentType (DispatchCli.agentType d) with Ok l => Some l | Throw _ => None end) ->
  DispatchCli.normalizeOptionalText (DispatchCli.task d) = None ->
  exists payload, DispatchCli.build g d = Ok (out', payload) /\ t_task payload = trim t.
Proof.
  intros Ht Hb Hcr Hlines Hbp Hread Hown Hout Hpaths Hagent Htask.
  destruct (brief_build_inv _ _ _ _ _ _ Ht Hb) as (b & Hbt & He & ->).
  assert (Hcr' : index_of "013" (Brief.task b) = None).
  { rewrite Hbt. apply index_of_None_forallb. apply index_of_None_forallb in Hcr. by apply trim_forallb. }
  pose proof (written_shape b Hcr') as Hshape. set (body := trim (replace_crlf _)) in Hshape.
  destruct (shape_multiline b body "briefBody" Hcr' Hshape) as (body' & Hm & Hshape').
  assert (Hparse : parseTaskFromBrief body' = Ok (trim t)).
  { rewrite <- Hbt. apply shape_task; [done|done|by rewrite Hbt| |]; rewrite Hbt; [apply trim_idem|done]. }
  unfold DispatchCli.build. rewrite Hbp, Hown, Hout. cbn [rbind]. unfold requireRepeatedValues.
  destruct (validateOwnedPaths (trimmed_set (DispatchCli.paths d))) as [owned|] eqn:Hv; [|by destruct Hpaths].
  destruct (trimmed_set (DispatchCli.paths d)) as [|p ps] eqn:Hps; [done|]. cbn [rbind].
  destruct (DispatchCli.parseAgentType _) as [agent|] eqn:Ha; [|by destruct Hagent]. cbn [rbind]. cbv zeta.
  unfold DispatchCli.readBrief. rewrite Hread. fold body. rewrite (shape_nonempty _ _ Hshape). cbn [rbind].
  assert (Hag : required_text "agentType" agent = Ok agent).
  { unfold DispatchCli.parseAgentType in Ha. destruct (js_has _ _) eqn:Hin; [|done]. injection Ha as <-.
    apply js_has_spec in Hin. repeat (apply elem_of_cons in Hin as [->|Hin]; [reflexivity|]). by apply elem_of_nil in Hin. }
  destruct (requireValue_inv _ _ _ Hown) as (s & _ & -> & Hs).
  unfold buildSpawnAgentTemplate. rewrite Hag. cbn [rbind]. unfold dispatch_parts. cbn [dispatch_owner briefBody ownedPaths in_task instructions].
  unfold required_text at 1. rewrite trim_idem, Hs. cbn [rbind]. rewrite Hm. cbn [rbind]. rewrite Hv. cbn [rbind].
  rewrite Htask, Hparse. cbn [rbind]. eexists. split; reflexivity.
Qed.
End Pipeline.

(** ** Options *)

Section Options.
Context {A : Type} (set_help : A -> A) (switch : string -> option (string -> A -> A)).

(** An option with its value behind an equals sign takes any value, whatever it is. *)
Lemma inline_option flag set v rest parsed : switch flag = Some set -> starts_with "--" flag = true ->
  index_of "=" flag = None ->
  parse_args set_help switch ((flag +:+ String "=" v)%string :: rest) parsed = parse_args set_help switch rest (set v parsed).
Proof.
  intros Hs Hf He. assert (Hi : index_of "=" (flag +:+ String "=" v)%string = Some (String.length flag)) by by apply index_of_app_sep.
  cbn [parse_args]. replace (is_help (flag +:+ String "=" v)%string) with false.
  - unfold parseOptionToken. apply starts_with_iff in Hf as [r ->]. rewrite <- str_app_assoc, starts_with_app. cbn [negb].
    rewrite str_app_assoc, Hi. rewrite str_take_app, Hs.
    replace (S (String.length ("--" +:+ r)%string)) with (String.length (("--" +:+ r) +:+ String "=" "")%string)
      by (rewrite (str_app_length ("--" +:+ r)%string); cbn [String.length]; lia).
    replace (("--" +:+ r) +:+ String "=" v)%string with ((("--" +:+ r) +:+ String "=" "") +:+ v)%string
      by (rewrite <- (str_app_assoc ("--" +:+ r)%string); reflexivity).
    by rewrite str_drop_app.
  - symmetry. unfold is_help. apply orb_false_iff. split; apply String.eqb_neq; intros Heq; rewrite Heq in Hi; done.
Qed.

(** A separate value that starts with two dashes is refused. *)
Lemma dashed_value flag set v rest parsed : switch flag = Some set -> starts_with "--" flag = true -> is_help flag = false ->
  index_of "=" flag = None -> starts_with "--" v = true ->
  parse_args set_help switch (flag :: v :: rest) parsed = Throw (flag +:+ " requires a value.")%string.
Proof.
  intros Hs Hf Hh He Hv. cbn [parse_args]. rewrite Hh. unfold parseOptionToken. rewrite Hf, He. cbn [negb]. rewrite Hs.
  unfold isOptionToken. by rewrite Hv, orb_true_r.
Qed.
End Options.

Section DispatchOptions.
Import DispatchCli.

(** The command line a value of the options comes from. *)
Definition inline (flag v : string) : string := (flag +:+ String "=" v)%string.
Definition given (flag : string) (v : option string) : list string := match v with Some v => [inline flag v] | None => [] end.

Definition command_line (a : CliArgs) : list string :=
  given "--brief" (brief a) ++ given "--owner" (owner a) ++ (inline "--path" <$> paths a) ++
  given "--agent-type" (agentType a) ++ given "--task" (task a) ++ (inline "--instruction" <$> instructions a) ++
  given "--out" (out a) ++ if help a then ["--help"%string] else [].

Lemma given_option flag set v rest parsed : switch flag = Some set -> starts_with "--" flag = true ->
  index_of "=" flag = None ->
  parse_args set_help switch (given flag v ++ rest) parsed =
  parse_args set_help switch rest (match v with Some v => set v parsed | None => parsed end).
Proof. intros Hs Hf He. destruct v as [v|]; [|done]. unfold given, inline. cbn [app]. by apply inline_option. Qed.

Lemma given_list flag set l rest parsed : switch flag = Some set -> starts_with "--" flag = true ->
  index_of "=" flag = None ->
  parse_args set_help switch ((inline flag <$> l) ++ rest) parsed =
  parse_args set_help switch rest (foldl (fun p v => set v p) parsed l).
Proof.
  intros Hs Hf He. revert parsed. induction l as [|v l IH]; intros parsed; [done|].
  cbn [fmap list_fmap app foldl]. rewrite <- IH. by apply inline_option.
Qed.
Lemma foldl_paths l a : foldl (fun p v => Args (brief p) (owner p) (paths p ++ [v]) (agentType p) (task p) (instructions p) (out p) (help p)) a l =
  Args (brief a) (owner a) (paths a ++ l) (agentType a) (task a) (instructions a) (out a) (help a).
Proof.
  revert a. induction l as [|v l IH]; intros a; [by destruct a; rewrite app_nil_r|]. cbn [foldl]. rewrite IH.
  cbn [brief owner paths agentType task instructions out help]. by rewrite <- app_assoc.
Qed.

Lemma foldl_instructions l a : foldl (fun p v => Args (brief p) (owner p) (paths p) (agentType p) (task p) (instructions p ++ [v]) (out p) (help p)) a l =
  Args (brief a) (owner a) (paths a) (agentType a) (task a) (instructions a ++ l) (out a) (help a).
Proof.
  revert a. induction l as [|v l IH]; intros a; [by destruct a; rewrite app_nil_r|]. cbn [foldl]. rewrite IH.
  cbn [brief owner paths agentType task instructions out help]. by rewrite <- app_assoc.
Qed.

(** Every value of the options of [build-agent-dispatch] can be given: written with equals
    signs, the parser reads it back exactly; while a separate value that starts with two
    dashes is refused for every option. *)
Theorem dispatch_options_roundtrip a :
  parseCliArgs (command_line a) = Ok a /\
  (forall flag v rest, is_Some (switch flag) -> starts_with "--" v = true ->
     parseCliArgs (flag :: v :: rest) = Throw (flag +:+ " requires a value.")%string).
Proof.
  split.
  - unfold parseCliArgs, command_line. do 2 (erewrite given_option by reflexivity).
    erewrite given_list by reflexivity; rewrite foldl_paths.
    do 2 (erewrite given_option by reflexivity).
    erewrite given_list by reflexivity; rewrite foldl_instructions.
    erewrite given_option by reflexivity.
    destruct a as [b w p ag t ins o h]. cbn [brief owner paths agentType task instructions out help].
    by destruct b, w, ag, t, o, h.
  - intros flag v rest [set Hset] Hv. apply (dashed_value _ _ _ set); [done|..|done].
    all: clear Hv; revert Hset; unfold switch.
    all: repeat match goal with |- context [String.eqb ?g ?f] => destruct (String.eqb_spec g f) as [->|_]; [by vm_compute|] end; done.
Qed.
End DispatchOptions.

(** ** Snippets *)

(** Asked for lines past the end of the file, [build-task-capsule] takes the last line. *)
Theorem snippet_past_end text a e :
  let lines := split_on newline (Dispatch.replace_crlf text) in
  Z.of_nat (length lines) < a -> CapsuleCli.selectSnippetContent text (Some a) e = List.last lines EmptyString.
Proof.
  cbv zeta. intros Ha. unfold CapsuleCli.selectSnippetContent. set (lines := split_on newline _) in *.
  assert (Hn : (0 < length lines)%nat).
  { destruct lines eqn:Hl; [by apply split_on_not_nil in Hl|simpl; lia]. }
  clearbody lines.
  change (default 1 (Some a)) with a. replace (CapsuleCli.clampLine a 1 (Z.of_nat (length lines))) with (Z.of_nat (length lines)).
  2: { unfold CapsuleCli.clampLine. destruct (Z.ltb_spec a 1); [lia|]. by destruct (Z.ltb_spec (Z.of_nat (length lines)) a); [|lia]. }
  replace (CapsuleCli.clampLine _ _ _) with (Z.of_nat (length lines)).
  2: { unfold CapsuleCli.clampLine. destruct (Z.ltb_spec (default (Z.of_nat (length lines)) e) (Z.of_nat (length lines))); [done|].
       destruct (Z.ltb_spec (Z.of_nat (length lines)) (default (Z.of_nat (length lines)) e)); lia. }
  unfold CapsuleCli.line_range. replace (Z.to_nat (Z.of_nat (length lines) - (Z.of_nat (length lines) - 1))) with 1%nat by lia.
  replace (Z.to_nat (Z.of_nat (length lines) - 1)) with (length lines - 1)%nat by lia.
  clear Ha. induction lines as [|l lines IH]; [simpl in Hn; lia|].
  destruct lines as [|l' lines]; [done|]. cbn [length]. replace (S (S (length lines)) - 1)%nat with (S (S (length lines) - 1)) by lia.
  cbn [drop]. apply IH. simpl; lia.
Qed.

(** The promise that fails first decides the error, the list of snippets keeps its order. *)
Lemma promise_all_ok {A} (l : list (nat * result string A)) vs :
  promise_all l = Ok vs <-> l.*2 = Ok <$> vs.
Proof.
  unfold promise_all. assert (H : forall l : list (nat * result string A), first_error l = None -> l.*2 = Ok <$> omap (fun p => match p.2 with Ok v => Some v | Throw _ => None end) l).
  { clear. induction l as [|[t [v|e]] l IH]; cbn [first_error]; intros Hl; [done|change (Ok v :: l.*2 = Ok <$> (v :: omap (fun p : nat * result string A => match p.2 with Ok v => Some v | Throw _ => None end) l)); cbn [fmap list_fmap]; f_equal; by apply IH|]. by repeat case_match. }
  destruct (first_error l) as [[t e]|] eqn:He.
  - split; [done|]. intros Heq. exfalso. revert vs t e He Heq. clear. induction l as [|[t' [v|e']] l IH]; intros vs t e He Heq.
    + done.
    + destruct vs as [|w vs]; [done|]. cbn [fmap list_fmap] in Heq. injection Heq as _ Heq. by eapply IH.
    + by destruct vs.
  - split; [intros [= <-]; by apply H|]. intros Heq. f_equal. specialize (H l He). assert (Hv : Ok <$> vs = Ok <$> omap (fun p : nat * result string A => match p.2 with Ok v => Some v | Throw _ => None end) l) by (transitivity (l.*2); done).
    symmetry. by apply (inj (fmap (Ok (E:=string)))) in Hv.
Qed.

(** ** Concrete inputs *)

Definition demo_files : Files :=
  MkFiles (fun p => ("/w/" +:+ p)%string)
    (fun p => if String.eqb p "/w/a.ts" then Ok ("one" +:+ newline_text +:+ "two")%string
              else if String.eqb p "/w/c.json" then Ok ("{}" +:+ newline_text)%string
              else if String.eqb p "/w/b.md" then
                Ok (BriefCli.normalizeBriefOutput (Brief.renderAgentBriefText
                      (Brief.Brief "Fix it" "bob" ["a.ts"]%string [] [] [Capsule.Snippet "a.ts" (Some 2) None "two"])))
              else Throw "ENOENT"%string)
    (fun i => i) (fun _ => None).

Definition demo_argv : list string :=
  ["--goal=Ship"; "--owner"; "ops"; "--snippet"; "a.ts:2"; "--out"; "c.json"]%string.

Definition demo_made : Capsule.TaskCapsule :=
  Capsule.Capsule "Ship" "ops" ["a.ts"]%string [] [] [Capsule.Snippet "a.ts" (Some 2) None "two"].

Definition demo_stringify (v : jsval) : string := "{}".
Definition demo_json (s : string) : result string jsval :=
  if String.eqb s ("{}" +:+ newline_text) then Ok (CapsuleCli.capsule_json demo_made) else Throw "bad"%string.

Definition brief_args : BriefCli.CliArgs :=
  BriefCli.Args (Some "c.json") (Some " Fix it ") (Some "bob") ["a.ts"]%string [] [] (Some "b.md") false.
Definition dispatch_args : DispatchCli.CliArgs :=
  DispatchCli.Args (Some "b.md") (Some "eve") ["a.ts"]%string None None ["--be quick"]%string (Some "d.json") false.

Example demo_capsule_written :
  CapsuleCli.main demo_stringify demo_files demo_argv = Written "/w/c.json" ("{}" +:+ newline_text).
Proof. by vm_compute. Qed.

Lemma capsule_file_roundtrip_witness :
  BriefCli.parseTaskCapsuleEssential (CapsuleCli.capsule_json demo_made) = Ok demo_made.
Proof.
  refine (proj2 (capsule_file_roundtrip
    (Capsule.Input "Ship" "ops" [] [] [] [("a.ts:2"%string, "two"%string)]) CapsuleCli.no_overrides JNull demo_made _)).
  left. by vm_compute.
Defined.

Lemma pipeline_carries_task_witness :
  exists payload, DispatchCli.build demo_files dispatch_args = Ok ("d.json"%string, payload) /\ Dispatch.t_task payload = "Fix it"%string.
Proof.
  apply (pipeline_carries_task demo_json demo_files brief_args " Fix it " "b.md"
    (BriefCli.normalizeBriefOutput (Brief.renderAgentBriefText
      (Brief.Brief "Fix it" "bob" ["a.ts"]%string [] [] [Capsule.Snippet "a.ts" (Some 2) None "two"])))
    demo_files dispatch_args "b.md" "eve").
  - reflexivity.
  - by vm_compute.
  - by vm_compute.
  - apply Forall_singleton. by vm_compute.
  - by vm_compute.
  - by vm_compute.
  - by vm_compute.
  - by vm_compute.
  - vm_compute. by eexists.
  - vm_compute. by eexists.
  - reflexivity.
Defined.

Lemma snippet_past_end_witness :
  CapsuleCli.selectSnippetContent ("one" +:+ newline_text +:+ "two")%string (Some 9) None = "two"%string.
Proof. apply (snippet_past_end ("one" +:+ newline_text +:+ "two")%string 9 None). by vm_compute. Defined.
