(* ===== verification/BuildOrder.v ===== *)
(** * The build order of the packages ([scripts/packages/run-phase-ordered.mjs])

    Which packages there are, the order of their dependencies, and a phase run over it.
    Manifests are values; reading directories and files, and running a script, are
    answered by the environment; [localeCompare] is a parameter, any comparison. *)

From S2P Require Import Prelude JsMap.
Local Open Scope Z_scope.

(** ** Arguments *)

Record PhaseArgs : Type := MkArgs {
  command : string;
  includeRoot : bool;
  rootScript : string;
  dryRun : bool;
  printOrder : bool
}.

Inductive parsed_args : Type :=
| Usage (exit : Z)
| UnknownArgument (arg : string)
| Phase (a : PhaseArgs).

Fixpoint parse_options (args : list string) (a : PhaseArgs) : parsed_args :=
  match args with
  | [] => Phase a
  | current :: rest =>
      if String.eqb current "--include-root" then
        parse_options rest (MkArgs (command a) true (rootScript a) (dryRun a) (printOrder a))
      else if String.eqb current "--root-script" && negb (match rest with [] => true | _ => false end) then
        match rest with
        | s :: rest => parse_options rest (MkArgs (command a) (includeRoot a) s (dryRun a) (printOrder a))
        | [] => UnknownArgument current
        end
      else if String.eqb current "--print-order" then
        parse_options rest (MkArgs (command a) (includeRoot a) (rootScript a) (dryRun a) true)
      else if String.eqb current "--dry-run" then
        parse_options rest (MkArgs (command a) (includeRoot a) (rootScript a) true (printOrder a))
      else if String.eqb current "--help" || String.eqb current "-h" then Usage 0
      else UnknownArgument current
  end.

Definition parse_phase (args : list string) : parsed_args :=
  match args with
  | [] | EmptyString :: _ => Usage 2
  | command :: rest =>
      if js_has command ["-h"; "--help"; "help"]%string then Usage 0
      else
        let rootScript := if String.eqb command "build" then "build:packages:ordered"%string else command in
        parse_options rest (MkArgs command false rootScript false false)
  end.

(** ** Packages *)

Definition scope : string := "@commandrelay/".

(** A directory under [packages/] with what reading its manifest gives; [None]: there is
    no manifest. *)
Definition entry : Type := string * option (result string jsval).

(** The fields of a manifest; [Throw]: not JSON, or [null]. *)
Definition manifest_fields (m : result string jsval) : option (list (string * jsval)) :=
  match m with Ok (JObj fields) => Some fields | _ => None end.

(** [discoverWorkspacePackages]: by name, the directory and the manifest. *)
Definition discover_one (packages : list (string * (string * list (string * jsval)))) (e : entry) :
    list (string * (string * list (string * jsval))) :=
  match m ← e.2; manifest_fields m with
  | Some fields =>
      match field "name" fields with
      | JStr name => if starts_with scope name then jm_set name (e.1, fields) packages else packages
      | _ => packages
      end
  | None => packages
  end.

Definition discover (entries : list entry) : list (string * (string * list (string * jsval))) :=
  foldl discover_one [] entries.

Definition section_of (k : string) (manifest : list (string * jsval)) : list (string * jsval) :=
  match field k manifest with JObj l => l | _ => [] end.

Definition collectLocalCommandRelayDependencies (manifest : list (string * jsval)) (names : list string) : list string :=
  let all := js_spread (js_spread (section_of "dependencies" manifest) (section_of "devDependencies" manifest))
               (section_of "peerDependencies" manifest) in
  foldl (fun set k => if js_has k names && starts_with scope k then js_add k set else set) [] all.*1.

Definition hasScript (manifest : list (string * jsval)) (scriptName : string) : bool :=
  js_has scriptName (section_of "scripts" manifest).*1.

(** ** The root of the project *)

(** [climbToWorkspaceRoot]: at most eight directories upwards; [dirname] and [join_] are
    those of [node:path]. *)
Fixpoint climb (exists_file : string -> bool) (dirname : string -> string) (join_ : string -> string -> string)
    (fuel : nat) (cursor : string) : option string :=
  match fuel with
  | O => None
  | S fuel =>
      if (exists_file (join_ cursor "package.json"%string) && exists_file (join_ cursor "packages"%string)) ||
         exists_file (join_ cursor "pnpm-workspace.yaml"%string)
      then Some cursor
      else
        let next := dirname cursor in
        if String.eqb next cursor then None else climb exists_file dirname join_ fuel next
  end.

Definition climbToWorkspaceRoot exists_file dirname join_ (startDir : string) : option string :=
  climb exists_file dirname join_ 8 startDir.

(** [locateProjectRoot]: the first candidate that leads to a root. *)
Definition locateProjectRoot exists_file dirname join_ (candidates : list string) : option string :=
  head (omap (climbToWorkspaceRoot exists_file dirname join_) candidates).

(** ** The order *)

Section Order.
Context (localeCompare : string -> string -> Z).

(** [packages] by name with their local dependencies. *)
Context (packages : list (string * list string)).

Definition inDegree0 : list (string * Z) := (fun p => (p.1, 0)) <$> packages.
Definition adjacency0 : list (string * list string) := (fun p => (p.1, [])) <$> packages.

(** One dependency of [name]. *)
Definition add_edge (name : string) (m : list (string * Z) * list (string * list string)) (dependency : string) :=
  let '(inDegree, adjacency) := m in
  (jm_set name (default 0 (jm_get name inDegree) + 1) inDegree,
   jm_set dependency (js_add name (default [] (jm_get dependency adjacency))) adjacency).

Definition build_graph : list (string * Z) * list (string * list string) :=
  foldl (fun m p => foldl (add_edge p.1) m p.2) (inDegree0, adjacency0) packages.

(** One dependant of the package that has just been resolved. *)
Definition relax (m : list (string * Z) * list string) (dependant : string) : list (string * Z) * list string :=
  let '(inDegree, queue) := m in
  let degree := default 0 (jm_get dependant inDegree) - 1 in
  (jm_set dependant degree inDegree, if degree =? 0 then queue ++ [dependant] else queue).

(** [while (queue.length)]; the fuel is the number of packages. *)
Fixpoint drain (adjacency : list (string * list string)) (fuel : nat)
    (inDegree : list (string * Z)) (queue resolved : list string) : list (string * Z) * list string * list string :=
  match fuel, queue with
  | S fuel, current :: queue =>
      let '(inDegree, queue) := foldl relax (inDegree, queue) (default [] (jm_get current adjacency)) in
      drain adjacency fuel inDegree (js_sort localeCompare queue) (resolved ++ [current])
  | _, _ => (inDegree, queue, resolved)
  end.

(** The resolved order, or the packages that a cycle keeps from it. *)
Definition resolveBuildOrder : result (list string) (list string) :=
  let packageNames := packages.*1 in
  let '(inDegree, adjacency) := build_graph in
  let queue := js_sort localeCompare (filter (fun name => default 0 (jm_get name inDegree) = 0) packageNames) in
  let '(inDegree, _, resolved) := drain adjacency (length packageNames) inDegree queue [] in
  if Nat.eqb (length resolved) (length packageNames) then Ok resolved
  else Throw (filter (fun name => default 0 (jm_get name inDegree) <> 0) packageNames).
End Order.

(** ** A phase *)

(** The scripts that are started, in order, and the exit code; [run] tells whether the
    script of a package succeeds. *)
Fixpoint run_packages (run has : string -> bool) (dry : bool) (order : list string) : list string * Z :=
  match order with
  | [] => ([], 0)
  | name :: rest =>
      if negb (has name) || dry then run_packages run has dry rest
      else if run name then let (started, code) := run_packages run has dry rest in (name :: started, code)
      else ([name], 1)
  end.

Inductive phase_result : Type :=
| Cycle (unresolved : list string)
| NoPackages
| OrderPrinted (order : list string)
| RootFailed
| Ran (started : list string) (code : Z).

(** The packages with their local dependencies. *)
Definition package_graph (entries : list entry) : list (string * list string) :=
  let packages := discover entries in
  (fun p => (p.1, collectLocalCommandRelayDependencies p.2.2 packages.*1)) <$> packages.

Definition has_script (entries : list entry) (scriptName name : string) : bool :=
  match jm_get name (discover entries) with
  | Some p => hasScript p.2 scriptName
  | None => false
  end.

(** [run_root]: the root script is there, and succeeds. *)
Definition run_phase (localeCompare : string -> string -> Z) (a : PhaseArgs) (entries : list entry)
    (root_has : bool) (run_root : bool) (run : string -> bool) : phase_result :=
  match resolveBuildOrder localeCompare (package_graph entries) with
  | Throw unresolved => Cycle unresolved
  | Ok order =>
      if printOrder a && negb (dryRun a) then OrderPrinted order
      else
        match order with
        | [] => NoPackages
        | _ =>
            if includeRoot a && root_has && negb (dryRun a) && negb run_root then RootFailed
            else
              let (started, code) := run_packages run (has_script entries (command a)) (dryRun a) order in Ran started code
        end
  end.

(** ** The graph *)

Lemma jm_get_const {A B} (d : B) (l : list (string * A)) k : default d (jm_get k ((fun p => (p.1, d)) <$> l)) = d.
Proof. induction l as [|q l IH]; [done|]. cbn [fmap list_fmap jm_get fst]. case_decide; [done|exact IH]. Qed.

Section Graph.
Context (packages : list (string * list string)).
Context (Hnames : NoDup packages.*1).
Context (Hdeps : forall n ds, (n, ds) ∈ packages -> NoDup ds /\ forall d, d ∈ ds -> d ∈ packages.*1).

Abbreviation names := (packages.*1).

(** The dependencies of a package, and the packages that depend on it. *)
Definition deps (n : string) : list string := default [] (jm_get n packages).
Definition dependants (c : string) : list string := filter (fun n => c ∈ deps n) names.

Lemma deps_of p : p ∈ packages -> deps p.1 = p.2.
Proof. intros Hp. unfold deps. rewrite (jm_In_get p.1 p.2); [done|done|by destruct p]. Qed.

Lemma deps_NoDup n : NoDup (deps n).
Proof.
  unfold deps. destruct (jm_get n packages) as [ds|] eqn:H; [|constructor].
  apply jm_get_In in H. exact (proj1 (Hdeps _ _ H)).
Qed.

Lemma deps_names n d : d ∈ deps n -> d ∈ names.
Proof.
  unfold deps. destruct (jm_get n packages) as [ds|] eqn:H; [|by intros ?%elem_of_nil].
  apply jm_get_In in H. apply (Hdeps _ _ H).
Qed.

Abbreviation degree_of m n := (default 0 (jm_get n m)).
Abbreviation edges_of m n := (default [] (jm_get n m)).

Lemma add_edge_get n m d k :
  degree_of (add_edge n m d).1 k = (if decide (k = n) then degree_of m.1 n + 1 else degree_of m.1 k) /\
  edges_of (add_edge n m d).2 k = (if decide (k = d) then js_add n (edges_of m.2 d) else edges_of m.2 k).
Proof.
  destruct m as [deg adj]. cbn [add_edge fst snd]. split; rewrite jm_get_set; repeat case_decide; by subst.
Qed.

(** All the edges of one package. *)
Lemma add_edges n ds : NoDup ds -> forall m, (forall d, d ∈ ds -> n ∉ edges_of m.2 d) -> forall k,
  degree_of (foldl (add_edge n) m ds).1 k = (if decide (k = n) then degree_of m.1 n + Z.of_nat (length ds) else degree_of m.1 k) /\
  edges_of (foldl (add_edge n) m ds).2 k = edges_of m.2 k ++ (if decide (k ∈ ds) then [n] else []).
Proof.
  induction 1 as [|d ds Hd _ IH]; intros m Hfresh k; cbn [foldl length].
  - rewrite (decide_False (P := k ∈ [])) by apply not_elem_of_nil. rewrite app_nil_r. split; [case_decide; [subst; lia|done]|done].
  - destruct (IH (add_edge n m d)) with (k := k) as [H1 H2].
    { intros d' Hd'. destruct (add_edge_get n m d d') as [_ ->]. case_decide; [subst; done|]. apply Hfresh. by right. }
    rewrite H1, H2. destruct (add_edge_get n m d k) as [-> ->]. destruct (add_edge_get n m d n) as [-> _].
    rewrite (decide_True (P := n = n)) by done. split; [repeat case_decide; subst; try done; lia|].
    assert (Hn : js_add n (edges_of m.2 d) = edges_of m.2 d ++ [n]).
    { unfold js_add. rewrite decide_False; [done|]. apply Hfresh. by left. }
    destruct (decide (k = d)) as [->|Hk].
    + rewrite Hn, decide_False, app_nil_r by done. rewrite decide_True by by left. done.
    + destruct (decide (k ∈ ds)); [rewrite decide_True; [done|by right]|].
      rewrite decide_False; [done|]. by intros [?|?]%elem_of_cons.
Qed.

(** What the maps are once the packages before [rest] are done. *)
Lemma build_graph_spec : forall k,
  degree_of (build_graph packages).1 k = Z.of_nat (length (deps k)) /\ edges_of (build_graph packages).2 k = dependants k.
Proof.
  assert (H : forall done_ rest, packages = done_ ++ rest ->
    forall k, degree_of (foldl (fun m p => foldl (add_edge p.1) m p.2) (inDegree0 packages, adjacency0 packages) done_).1 k
                = (if decide (k ∈ done_.*1) then Z.of_nat (length (deps k)) else 0) /\
              edges_of (foldl (fun m p => foldl (add_edge p.1) m p.2) (inDegree0 packages, adjacency0 packages) done_).2 k
                = filter (fun n => k ∈ deps n) done_.*1).
  { induction done_ as [|p done_ IH] using rev_ind; intros rest Hp k.
    - cbn [foldl fst snd fmap list_fmap]. rewrite decide_False by apply not_elem_of_nil. unfold inDegree0, adjacency0.
      split; apply jm_get_const.
    - rewrite foldl_app. cbn [foldl]. assert (Hin : p ∈ packages) by (rewrite Hp; set_solver).
      assert (Hp' : packages = done_ ++ p :: rest) by (by rewrite Hp, <- app_assoc).
      specialize (IH _ Hp'). set (m := foldl _ _ done_) in *.
      assert (Hfresh : p.1 ∉ done_.*1).
      { pose proof Hnames as Hn. rewrite Hp', fmap_app in Hn. cbn [fmap list_fmap] in Hn. apply NoDup_app in Hn as (_ & Hn & _).
        intros Hpd. apply (Hn _ Hpd). by left. }
      destruct (add_edges p.1 p.2) with (m := m) (k := k) as [H1 H2].
      + destruct p as [n ds]. exact (proj1 (Hdeps _ _ Hin)).
      + intros d _ Hd. rewrite (proj2 (IH d)) in Hd. apply list_elem_of_filter in Hd as [_ Hd]. done.
      + rewrite H1, H2. rewrite fmap_app, filter_app. cbn [fmap list_fmap]. rewrite (proj2 (IH k)), (proj1 (IH k)), (proj1 (IH p.1)).
        rewrite (decide_False (P := p.1 ∈ done_.*1)) by done. rewrite <- (deps_of p Hin). split.
        * destruct (decide (k = p.1)) as [->|Hk].
          -- rewrite decide_True by set_solver. lia.
          -- destruct (decide (k ∈ done_.*1)); [rewrite decide_True by set_solver; done|]. rewrite decide_False by set_solver. done.
        * by f_equal. }
  intros k. destruct (H packages []) with (k := k) as [H1 H2]; [by rewrite app_nil_r|].
  unfold build_graph. rewrite H1, H2. split; [|done]. case_decide as Hk; [done|].
  unfold deps. by rewrite (proj2 (jm_get_None k packages)).
Qed.
(** ** The loop *)

(** The dependencies that are not resolved yet. *)
Definition missing (resolved : list string) (n : string) : list string := filter (fun d => d ∉ resolved) (deps n).

(** Every package comes after its dependencies. *)
Definition topological (order : list string) : Prop :=
  forall pre n post, order = pre ++ n :: post -> forall d, d ∈ deps n -> d ∈ pre.

Record inv (inDegree : list (string * Z)) (queue resolved : list string) : Prop := {
  inv_nodup : NoDup (resolved ++ queue);
  inv_names : forall n, n ∈ resolved ++ queue -> n ∈ names;
  inv_degree : forall n, n ∈ names -> degree_of inDegree n = Z.of_nat (length (missing resolved n));
  inv_queue : forall n, n ∈ names -> (n ∈ resolved ++ queue <-> missing resolved n = []);
  inv_topo : topological resolved
}.

Lemma relax_all l : NoDup l -> forall deg q,
  (forall k, degree_of (foldl relax (deg, q) l).1 k = degree_of deg k - (if decide (k ∈ l) then 1 else 0)) /\
  (foldl relax (deg, q) l).2 = q ++ filter (fun m => degree_of deg m = 1) l.
Proof.
  induction 1 as [|m l Hm _ IH]; intros deg q; cbn [foldl relax].
  - split; [|by rewrite app_nil_r]. intros k. rewrite decide_False by apply not_elem_of_nil. cbn. lia.
  - set (deg' := jm_set m _ deg). set (q' := if _ =? 0 then _ else q). destruct (IH deg' q') as [H1 H2].
    assert (Hget : forall k, degree_of deg' k = if decide (k = m) then degree_of deg m - 1 else degree_of deg k).
    { intros k. unfold deg'. rewrite jm_get_set. by case_decide. }
    split.
    + intros k. rewrite H1, Hget. destruct (decide (k = m)) as [->|Hk].
      * rewrite decide_False by done. rewrite decide_True by by left. lia.
      * destruct (decide (k ∈ l)); [rewrite decide_True by (by right); done|].
        rewrite decide_False; [done|]. by intros [?|?]%elem_of_cons.
    + rewrite H2. rewrite filter_cons.
      rewrite (list_filter_iff_in (fun x => degree_of deg' x = 1) (fun x => degree_of deg x = 1) l).
      2: { intros x Hx. rewrite Hget. by rewrite decide_False by (intros ->; done). }
      unfold q'. destruct (Z.eqb_spec (degree_of deg m - 1) 0) as [E|E].
      * rewrite decide_True by lia. by rewrite <- app_assoc.
      * by rewrite decide_False by lia.
Qed.

Lemma filter_resolved (res : list string) c l : NoDup l -> c ∉ res ->
  length (filter (fun d => d ∉ res) l) =
  ((if decide (c ∈ l) then 1 else 0) + length (filter (fun d => d ∉ res ++ [c]) l))%nat.
Proof.
  intros Hl Hc. induction Hl as [|d l Hd _ IH]; [done|]. rewrite !filter_cons.
  destruct (decide (d = c)) as [->|Hdc].
  - rewrite (decide_True (P := c ∈ c :: l)) by by left. rewrite decide_True by done.
    rewrite (decide_False (P := c ∉ res ++ [c])) by set_solver. cbn [length]. rewrite IH. by rewrite decide_False.
  - assert (Hiff : c ∈ d :: l <-> c ∈ l) by set_solver.
    destruct (decide (d ∈ res)).
    + rewrite (decide_False (P := d ∉ res)) by auto. rewrite (decide_False (P := d ∉ res ++ [c])) by set_solver.
      rewrite IH. repeat case_decide; first [lia|tauto].
    + rewrite (decide_True (P := d ∉ res)) by done. rewrite (decide_True (P := d ∉ res ++ [c])) by set_solver.
      cbn [length]. rewrite IH. repeat case_decide; first [lia|tauto].
Qed.

Lemma missing_step res c n : c ∉ res ->
  length (missing res n) = ((if decide (c ∈ deps n) then 1 else 0) + length (missing (res ++ [c]) n))%nat.
Proof. apply filter_resolved, deps_NoDup. Qed.

Lemma missing_nil res n : missing res n = [] <-> forall d, d ∈ deps n -> d ∈ res.
Proof.
  unfold missing. split.
  - intros H d Hd. destruct (decide (d ∈ res)) as [|Hr]; [done|]. exfalso.
    assert (Hin : d ∈ filter (fun d => d ∉ res) (deps n)) by by apply list_elem_of_filter. rewrite H in Hin. by apply elem_of_nil in Hin.
  - intros H. apply filter_none. apply Forall_forall. intros d Hd Hr. by apply Hr, H.
Qed.

Lemma loop_start localeCompare :
  inv (build_graph packages).1
    (js_sort localeCompare (filter (fun name => degree_of (build_graph packages).1 name = 0) names)) [].
Proof.
  set (q := filter _ _).
  assert (Hq : forall n, n ∈ js_sort localeCompare q <-> n ∈ names /\ deps n = []).
  { intros n. rewrite (js_sort_perm localeCompare q). unfold q. rewrite list_elem_of_filter, (proj1 (build_graph_spec n)).
    destruct (deps n); simpl; naive_solver lia. }
  assert (Hm : forall n, missing [] n = deps n).
  { intros n. apply filter_all, Forall_forall. intros d _. apply not_elem_of_nil. }
  split; cbn [app].
  - rewrite (js_sort_perm localeCompare q). by apply NoDup_filter.
  - intros n Hn. by apply Hq.
  - intros n _. by rewrite (proj1 (build_graph_spec n)), Hm.
  - intros n Hn. rewrite Hq, Hm. naive_solver.
  - intros pre n post H. by destruct pre.
Qed.

Lemma loop_step localeCompare deg c q res : inv deg (c :: q) res ->
  let '(deg', q') := foldl relax (deg, q) (dependants c) in inv deg' (js_sort localeCompare q') (res ++ [c]).
Proof.
  intros [Hnd Hin Hdeg Hq Htopo]. destruct (foldl relax (deg, q) (dependants c)) as [deg' q'] eqn:Hfold.
  destruct (relax_all (dependants c) ltac:(by apply NoDup_filter) deg q) as [H1 H2]. rewrite Hfold in H1, H2. cbn [fst snd] in H1, H2.
  assert (Hc : c ∈ names) by (apply Hin; set_solver).
  assert (Hcres : c ∉ res) by (apply NoDup_app in Hnd as (_ & Hd & _); intros Hr; apply (Hd _ Hr); by left).
  assert (Hdep : forall n, n ∈ names -> (n ∈ dependants c <-> c ∈ deps n)).
  { intros n Hn. unfold dependants. rewrite list_elem_of_filter. tauto. }
  assert (Hdeg' : forall n, n ∈ names -> degree_of deg' n = Z.of_nat (length (missing (res ++ [c]) n))).
  { intros n Hn. rewrite H1, (Hdeg n Hn), (missing_step res c n Hcres).
    destruct (decide (c ∈ deps n)); destruct (decide (n ∈ dependants c)); try lia; exfalso; naive_solver. }
  (* the packages that are queued: their last missing dependency was c *)
  assert (Hnew : forall n, n ∈ filter (fun m => degree_of deg m = 1) (dependants c) <->
    n ∈ names /\ c ∈ deps n /\ missing (res ++ [c]) n = []).
  { intros n. rewrite list_elem_of_filter. split.
    - intros [Hd Hn]. assert (Hnn : n ∈ names) by (by apply list_elem_of_filter in Hn as [_ ?]). apply Hdep in Hn; [|done].
      split; [done|]. split; [done|]. rewrite (Hdeg n Hnn), (missing_step res c n Hcres), decide_True in Hd by done.
      apply nil_length_inv. lia.
    - intros (Hnn & Hn & Hm). split; [|by apply Hdep]. rewrite (Hdeg n Hnn), (missing_step res c n Hcres), decide_True, Hm by done. done. }
  assert (Hperm : (res ++ [c]) ++ js_sort localeCompare q' ≡ₚ (res ++ c :: q) ++ filter (fun m => degree_of deg m = 1) (dependants c)).
  { rewrite (js_sort_perm localeCompare q'), H2, <- !app_assoc. done. }
  split.
  - rewrite Hperm. apply NoDup_app. split; [done|]. split.
    + intros n Hn Hnew'. apply Hnew in Hnew' as (Hnn & Hcn & _). apply (Hq n Hnn) in Hn.
      rewrite missing_nil in Hn. by apply Hcres, Hn.
    + by apply NoDup_filter, NoDup_filter.
  - intros n. rewrite Hperm. intros [Hn|Hn]%elem_of_app; [by apply Hin|by apply Hnew in Hn as [? _]].
  - exact Hdeg'.
  - intros n Hn. rewrite Hperm, elem_of_app, Hnew, (Hq n Hn), !missing_nil. split.
    + intros [H|(_ & _ & H)]; [intros d Hd; specialize (H d Hd); set_solver|exact H].
    + intros H. destruct (decide (c ∈ deps n)) as [Hcn|Hcn]; [by right|].
      left. intros d Hd. specialize (H d Hd). apply elem_of_app in H as [H| ->%list_elem_of_singleton]; done.
  - intros pre n post Heq d Hd. destruct post as [|x post _] using rev_ind.
    + apply app_inj_tail in Heq as [<- <-]. assert (Hcq : c ∈ res ++ c :: q) by set_solver.
      apply (Hq c Hc) in Hcq. by apply missing_nil with (d := d) in Hcq.
    + rewrite app_comm_cons, app_assoc in Heq. apply app_inj_tail in Heq as [Heq _]. by apply (Htopo pre n post).
Qed.

(** The loop ends before its fuel: every package is resolved at most once. *)
Lemma drain_inv localeCompare fuel deg q res : inv deg q res -> (length names <= length res + fuel)%nat ->
  let '(deg', q', res') := drain localeCompare (build_graph packages).2 fuel deg q res in q' = [] /\ inv deg' [] res'.
Proof.
  revert deg q res. induction fuel as [|fuel IH]; intros deg q res Hinv Hlen.
  - assert (Hq : q = []).
    { pose proof (inv_nodup _ _ _ Hinv) as Hnd. assert (Hsub : res ++ q ⊆+ names) by by apply NoDup_submseteq; [|apply (inv_names _ _ _ Hinv)].
      apply submseteq_length in Hsub. rewrite length_app in Hsub. apply nil_length_inv. lia. }
    subst q. by cbn [drain].
  - destruct q as [|c q]; [by cbn [drain]|]. cbn [drain]. rewrite (proj2 (build_graph_spec c)).
    pose proof (loop_step localeCompare deg c q res Hinv) as Hstep.
    destruct (foldl relax (deg, q) (dependants c)) as [deg' q']. apply IH; [done|]. rewrite length_app. simpl. lia.
Qed.

(** What is not resolved in the end: a package with such a package among its dependencies. *)
Lemma stuck deg res n : inv deg [] res -> n ∈ names -> n ∉ res -> exists d, d ∈ deps n /\ d ∉ res.
Proof.
  intros Hinv Hn Hr. assert (Hm : missing res n <> []).
  { intros Hm. apply (inv_queue _ _ _ Hinv n Hn) in Hm. rewrite app_nil_r in Hm. done. }
  destruct (missing res n) as [|d l] eqn:E; [done|]. exists d.
  assert (Hd : d ∈ missing res n) by (rewrite E; by left). by apply list_elem_of_filter in Hd as [? ?].
Qed.

Lemma resolved_all deg res : inv deg [] res -> (length res = length names)%nat <-> res ≡ₚ names.
Proof.
  intros Hinv. split; [|by intros ->]. intros Hlen. apply submseteq_length_Permutation; [|lia].
  pose proof (inv_nodup _ _ _ Hinv) as Hnd. pose proof (inv_names _ _ _ Hinv) as Hin. rewrite app_nil_r in Hnd.
  apply NoDup_submseteq; [done|]. intros n Hn. apply Hin. set_solver.
Qed.

Lemma drain_result localeCompare : exists deg res,
  inv deg [] res /\
  resolveBuildOrder localeCompare packages =
    (if Nat.eqb (length res) (length names) then Ok res else Throw (filter (fun n => degree_of deg n <> 0) names)).
Proof.
  pose proof (drain_inv localeCompare (length names) _ _ _ (loop_start localeCompare) ltac:(simpl; lia)) as H.
  unfold resolveBuildOrder. destruct (build_graph packages) as [deg0 adj]. cbn [fst snd] in H.
  destruct (drain _ _ _ _ _ _) as [[deg q] res]. destruct H as [-> H]. by exists deg, res.
Qed.

Lemma unresolved_iff deg res n : inv deg [] res -> n ∈ filter (fun n => degree_of deg n <> 0) names <-> n ∈ names /\ n ∉ res.
Proof.
  intros Hinv. rewrite list_elem_of_filter. split.
  - intros [Hd Hn]. split; [done|]. intros Hr. apply Hd. rewrite (inv_degree _ _ _ Hinv n Hn).
    rewrite (proj1 (inv_queue _ _ _ Hinv n Hn)); [done|]. by rewrite app_nil_r.
  - intros [Hn Hr]. split; [|done]. intros Hd. apply Hr. rewrite <- (app_nil_r res). apply (inv_queue _ _ _ Hinv n Hn).
    apply nil_length_inv. rewrite (inv_degree _ _ _ Hinv n Hn) in Hd. lia.
Qed.

(** A set that needs itself is in no topological order. *)
Lemma closed_not_ordered (stuck_set order : list string) :
  (forall n, n ∈ stuck_set -> exists d, d ∈ deps n /\ d ∈ stuck_set) -> topological order ->
  forall n, n ∈ order -> n ∉ stuck_set.
Proof.
  intros Hclosed Htopo.
  assert (H : forall pre post, order = pre ++ post -> forall n, n ∈ pre -> n ∉ stuck_set).
  { intros pre. induction pre as [|x pre IH] using rev_ind; intros post Heq n Hn; [by apply elem_of_nil in Hn|].
    rewrite <- app_assoc in Heq. apply elem_of_app in Hn as [Hn| ->%list_elem_of_singleton]; [by apply (IH _ Heq)|].
    intros (d & Hd & Hs)%Hclosed. exact (IH _ Heq d (Htopo pre x post Heq d Hd) Hs). }
  intros n Hn. apply (H order []); [by rewrite app_nil_r|done].
Qed.

Lemma order_correct localeCompare :
  match resolveBuildOrder localeCompare packages with
  | Ok order => order ≡ₚ names /\ topological order
  | Throw unresolved =>
      unresolved <> [] /\ (forall n, n ∈ unresolved -> n ∈ names /\ exists d, d ∈ deps n /\ d ∈ unresolved) /\
      forall order, order ≡ₚ names -> ~ topological order
  end.
Proof.
  destruct (drain_result localeCompare) as (deg & res & Hinv & ->).
  destruct (Nat.eqb_spec (length res) (length names)) as [Hlen|Hlen].
  - split; [by apply (resolved_all deg res Hinv)|exact (inv_topo _ _ _ Hinv)].
  - set (un := filter _ names).
    assert (Hun : forall n, n ∈ un <-> n ∈ names /\ n ∉ res) by (intros n; by apply unresolved_iff).
    assert (Hclosed : forall n, n ∈ un -> exists d, d ∈ deps n /\ d ∈ un).
    { intros n [Hn Hr]%Hun. destruct (stuck deg res n Hinv Hn Hr) as (d & Hd & Hdr). exists d. split; [done|].
      apply Hun. split; [by apply deps_names in Hd|done]. }
    assert (Hne : un <> []).
    { intros He. apply Hlen, (resolved_all deg res Hinv). apply NoDup_Permutation; [|done|].
      - pose proof (inv_nodup _ _ _ Hinv) as Hnd. by rewrite app_nil_r in Hnd.
      - intros n. split; [intros Hr; apply (inv_names _ _ _ Hinv); set_solver|]. intros Hn.
        destruct (decide (n ∈ res)) as [|Hr]; [done|]. assert (Hu : n ∈ un) by (by apply Hun). rewrite He in Hu. by apply elem_of_nil in Hu. }
    split; [done|]. split; [intros n Hn; split; [by apply Hun in Hn as [? _]|by apply Hclosed]|].
    intros order Hperm Htopo. destruct un as [|n un'] eqn:E; [done|].
    apply (closed_not_ordered (n :: un') order Hclosed Htopo n); [|by left]. rewrite Hperm. apply Hun. by left.
Qed.
End Graph.

(** ** The packages of the repository *)

Lemma discover_wf entries : NoDup (discover entries).*1.
Proof.
  unfold discover. assert (H : forall m, NoDup m.*1 -> NoDup (foldl discover_one m entries).*1); [|apply H; constructor].
  induction entries as [|e entries IH]; intros m Hm; [done|]. cbn [foldl]. apply IH.
  unfold discover_one. repeat case_match; try done. by apply (jm_wf_set (K := string)).
Qed.

Lemma collect_ok manifest names : NoDup (collectLocalCommandRelayDependencies manifest names) /\
  forall d, d ∈ collectLocalCommandRelayDependencies manifest names -> d ∈ names.
Proof.
  unfold collectLocalCommandRelayDependencies. cbv zeta. set (keys := (js_spread _ _).*1).
  assert (H : forall acc, NoDup acc /\ (forall d, d ∈ acc -> d ∈ names) ->
    NoDup (foldl (fun set k => if js_has k names && starts_with scope k then js_add k set else set) acc keys) /\
    forall d, d ∈ foldl (fun set k => if js_has k names && starts_with scope k then js_add k set else set) acc keys -> d ∈ names).
  { induction keys as [|k keys IH]; intros acc Hacc; [done|]. cbn [foldl]. apply IH.
    destruct (js_has k names) eqn:Hk; cbn [andb]; [|done]. destruct (starts_with scope k); [|done].
    destruct Hacc as [H1 H2]. split; [by apply NoDup_js_add|]. intros d [->|Hd]%elem_of_js_add; [by apply js_has_spec|by apply H2]. }
  apply H. split; [constructor|]. by intros d ?%elem_of_nil.
Qed.

Lemma graph_names entries : (package_graph entries).*1 = (discover entries).*1.
Proof. unfold package_graph. by rewrite <- list_fmap_compose. Qed.

Lemma graph_wf entries : NoDup (package_graph entries).*1 /\
  forall n ds, (n, ds) ∈ package_graph entries -> NoDup ds /\ forall d, d ∈ ds -> d ∈ (package_graph entries).*1.
Proof.
  rewrite graph_names. split; [apply discover_wf|]. intros n ds H. apply list_elem_of_fmap in H as (p & [= -> ->] & _).
  apply collect_ok.
Qed.

(** C40. The order of the packages: for whatever manifests are found and however names are
    compared, either every package is listed exactly once and after all the packages of
    the repository it depends on; or there is no such order at all, and the packages that
    are reported each depend on another one that is reported. *)
Theorem build_order_correct localeCompare entries :
  match resolveBuildOrder localeCompare (package_graph entries) with
  | Ok order => order ≡ₚ (discover entries).*1 /\ topological (package_graph entries) order
  | Throw unresolved =>
      unresolved <> [] /\
      (forall n, n ∈ unresolved -> exists d, d ∈ deps (package_graph entries) n /\ d ∈ unresolved) /\
      forall order, order ≡ₚ (discover entries).*1 -> ~ topological (package_graph entries) order
  end.
Proof.
  destruct (graph_wf entries) as [H1 H2]. pose proof (order_correct _ H1 H2 localeCompare) as H.
  rewrite <- graph_names. destruct (resolveBuildOrder _ _); [done|]. destruct H as (Hne & Hc & Hno). split_and!; [done| |done].
  intros n Hn. by apply Hc.
Qed.

(** ** A phase *)

Lemma run_packages_ok run has order started : run_packages run has false order = (started, 0) ->
  started = filter (fun n => has n = true) order /\ Forall (fun n => run n = true) started.
Proof.
  revert started. induction order as [|n order IH]; intros started; cbn [run_packages]; [by intros [= <-]|].
  rewrite orb_false_r. rewrite filter_cons. destruct (has n) eqn:Hn; cbn [negb].
  - rewrite decide_True by done. destruct (run n) eqn:Hr; [|done].
    destruct (run_packages run has false order) as [st code]. intros [= <- ->].
    destruct (IH st eq_refl) as [-> H]. split; [done|by constructor].
  - rewrite decide_False by done. apply IH.
Qed.

Lemma run_packages_fail run has order started code : run_packages run has false order = (started, code) -> code <> 0 ->
  exists pre n, started = pre ++ [n] /\ run n = false /\ Forall (fun n => run n = true) pre /\
    exists rest, filter (fun n => has n = true) order = pre ++ n :: rest.
Proof.
  revert started. induction order as [|n order IH]; intros started; cbn [run_packages]; [by intros [= <- <-]|].
  rewrite orb_false_r. rewrite filter_cons. destruct (has n) eqn:Hn; cbn [negb].
  - rewrite decide_True by done. destruct (run n) eqn:Hr.
    + destruct (run_packages run has false order) as [st c]. intros [= <- ->] Hc.
      destruct (IH st eq_refl Hc) as (pre & m & -> & Hm & Hpre & rest & ->).
      exists (n :: pre), m. split_and!; [done|done|by constructor|by exists rest].
    + intros [= <- <-] _. exists [], n. split_and!; [done|done|constructor|by eexists].
  - rewrite decide_False by done. apply IH.
Qed.

(** A filtered topological order: the dependencies that are kept come before. *)
Lemma topological_filter packages (P : string -> bool) order l rest : topological packages order ->
  filter (fun n => P n = true) order = l ++ rest ->
  forall pre n post, l = pre ++ n :: post -> forall d, d ∈ deps packages n -> P d = true -> d ∈ pre.
Proof.
  intros Htopo Hf pre n post -> d Hd HP. rewrite <- app_assoc in Hf. cbn [app] in Hf.
  assert (H : exists o1 o2, order = o1 ++ n :: o2 /\ filter (fun n => P n = true) o1 = pre).
  { clear Htopo. revert pre Hf. induction order as [|x order IH]; intros pre Hf; [by destruct pre|].
    rewrite filter_cons in Hf. destruct (decide (P x = true)) as [Hx|Hx].
    - destruct pre as [|y pre]; cbn [app] in Hf; injection Hf as -> Hf; [by exists [], order|].
      destruct (IH pre Hf) as (o1 & o2 & -> & <-). exists (y :: o1), o2. split; [done|]. by rewrite filter_cons, decide_True.
    - destruct (IH pre Hf) as (o1 & o2 & -> & <-). exists (x :: o1), o2. split; [done|]. by rewrite filter_cons, decide_False. }
  destruct H as (o1 & o2 & -> & <-). apply list_elem_of_filter. split; [done|]. exact (Htopo o1 n o2 eq_refl d Hd).
Qed.

(** A phase that runs: the script of a package is started only after the scripts of all
    its dependencies that have one, and these have succeeded; the exit code is 0 exactly
    when every script of the phase was started and succeeded, and otherwise the last one
    that was started is the only one that failed. *)
Theorem phase_respects_dependencies localeCompare a entries root_has run_root run started code :
  run_phase localeCompare a entries root_has run_root run = Ran started code -> dryRun a = false ->
  (forall pre n post, started = pre ++ n :: post -> forall d, d ∈ deps (package_graph entries) n ->
     has_script entries (command a) d = true -> d ∈ pre /\ run d = true) /\
  (code = 0 -> started ≡ₚ filter (fun n => has_script entries (command a) n = true) (discover entries).*1 /\
     Forall (fun n => run n = true) started) /\
  (code <> 0 -> exists pre n, started = pre ++ [n] /\ run n = false /\ Forall (fun n => run n = true) pre).
Proof.
  intros Hrun Hdry. unfold run_phase in Hrun. destruct (graph_wf entries) as [Hw1 Hw2].
  pose proof (order_correct _ Hw1 Hw2 localeCompare) as Hord. destruct (resolveBuildOrder _ _) as [order|]; [|done].
  destruct Hord as [Hperm Htopo]. rewrite Hdry in Hrun. rewrite graph_names in Hperm.
  destruct (printOrder a && negb false); [done|]. destruct order as [|o order]; [done|].
  destruct (includeRoot a && root_has && negb false && negb run_root); [done|].
  destruct (run_packages _ _ _ _) as [st c] eqn:Hp. injection Hrun as <- <-.
  set (has := has_script entries (command a)) in *. set (os := o :: order) in *.
  assert (Hpre : exists rest, filter (fun n => has n = true) os = st ++ rest /\
    (forall pre n post, st = pre ++ n :: post -> Forall (fun n => run n = true) pre)).
  { destruct (decide (c = 0)) as [->|Hc].
    - destruct (run_packages_ok _ _ _ _ Hp) as [-> Hall]. exists []. rewrite app_nil_r. split; [done|].
      intros pre n post Heq. rewrite Heq in Hall. by apply Forall_app in Hall as [? _].
    - destruct (run_packages_fail _ _ _ _ _ Hp Hc) as (pre & n & -> & _ & Hall & rest & ->). exists rest.
      rewrite <- app_assoc. split; [done|]. intros pre' n' post' Heq. destruct post' as [|x post' _] using rev_ind.
      + by apply app_inj_tail in Heq as [-> _].
      + rewrite app_comm_cons, app_assoc in Heq. apply app_inj_tail in Heq as [-> _]. by apply Forall_app in Hall as [? _]. }
  destruct Hpre as (rest & Hf & Hall). split.
  - intros pre n post Heq d Hd Hh. assert (Hdp : d ∈ pre) by by apply (topological_filter _ has os st rest Htopo Hf pre n post).
    split; [done|]. exact (proj1 (Forall_forall _ _) (Hall pre n post Heq) d Hdp).
  - split.
    + intros ->. destruct (run_packages_ok _ _ _ _ Hp) as [-> H]. split; [by rewrite Hperm|done].
    + intros Hc. destruct (run_packages_fail _ _ _ _ _ Hp Hc) as (pre & n & H1 & H2 & H3 & _). eauto.
Qed.

(** ** Concrete inputs *)

Definition demo_manifest (name : string) (ds : list string) : result string jsval :=
  Ok (JObj [("name", JStr name); ("dependencies", JObj ((fun d => (d, JStr "*")) <$> ds));
            ("scripts", JObj [("build", JStr "tsc")])]%string).

Definition demo_entries : list entry :=
  [("agent", Some (demo_manifest "@commandrelay/agent" ["@commandrelay/core"; "undici"]));
   ("core", Some (demo_manifest "@commandrelay/core" [])); ("docs", None);
   ("axios", Some (demo_manifest "@commandrelay/axios" ["@commandrelay/agent"; "@commandrelay/core"]))]%string.

Example demo_order : resolveBuildOrder str_order (package_graph demo_entries) =
  Ok ["@commandrelay/core"; "@commandrelay/agent"; "@commandrelay/axios"]%string.
Proof. by vm_compute. Qed.

Example demo_cycle : resolveBuildOrder str_order [("a", ["b"]); ("b", ["a"]); ("c", [])]%string = Throw ["a"; "b"]%string.
Proof. by vm_compute. Qed.

Lemma phase_respects_dependencies_witness :
  exists started, run_phase str_order (MkArgs "build" false "build" false false) demo_entries false true
                    (fun n => negb (String.eqb n "@commandrelay/agent")) = Ran started 1 /\
    exists pre n, started = pre ++ [n] /\ n = "@commandrelay/agent"%string.
Proof.
  exists ["@commandrelay/core"; "@commandrelay/agent"]%string. split; [by vm_compute|].
  destruct (phase_respects_dependencies str_order (MkArgs "build" false "build" false false) demo_entries false true
    (fun n => negb (String.eqb n "@commandrelay/agent")) ["@commandrelay/core"; "@commandrelay/agent"]%string 1
    ltac:(by vm_compute) eq_refl) as (_ & _ & H).
  destruct (H ltac:(done)) as (pre & n & Heq & Hn & _). exists pre, n. split; [done|].
  destruct (String.eqb_spec n "@commandrelay/agent") as [->|]; done.
Defined.
