(* ===== verification/Extensions.v ===== *)
(** * Extensions: registry, dispatcher, preview server and listings
    ([scripts/extensions/])

    The allowlist, the parser and dispatcher of [run-extension-cli.ts], the static server
    of [web-preview.ts] and what the two listings find.  The file system, JSON and
    [localeCompare] are parameters; processes are described by their command and
    arguments.  Names inherited from [Object.prototype] are left out of look-ups in the
    allowlist. *)

From S2P Require Import Prelude JsMap NodePath.
Local Open Scope Z_scope.

(** ** The registry ([extension-registry.ts]) *)

Inductive extension_kind : Type := app | package.

Record ExtensionDefinition : Type := Extension {
  id : string;
  kind : extension_kind;
  displayName : string;
  description : string;
  rootDir : string;
  skillPath : string;
  svgPath : string;
  workspace : option string;
  actions : list string
}.

Definition EXTENSION_ALLOWLIST : list (string * ExtensionDefinition) :=
  [("web", Extension "web" app "Web App" "Main browser-facing app surface." "apps/web" "apps/web/SKILL.md" "apps/web/assets/brand.svg" None
      ["help"; "info"; "preview"]);
   ("cli-proxy", Extension "cli-proxy" package "CLI Proxy" "Proxy diagnostics CLI extension." "packages/cli-proxy" "packages/cli-proxy/SKILL.md" "packages/cli-proxy/docs/assets/cli-proxy-brand.svg" (Some "@commandrelay/cli-proxy")
      ["help"; "info"; "check"; "build"; "test"; "cli"]);
   ("commandrelay-client", Extension "commandrelay-client" package "CommandRelay Client" "Typed websocket client primitives for CommandRelay protocol operations." "packages/commandrelay-client" "packages/commandrelay-client/SKILL.md" "" (Some "@commandrelay/client")
      ["help"; "info"; "check"; "build"]);
   ("commandrelay-protocol", Extension "commandrelay-protocol" package "CommandRelay Protocol" "Shared protocol constants and parsers for CommandRelay envelopes." "packages/commandrelay-protocol" "packages/commandrelay-protocol/SKILL.md" "" (Some "@commandrelay/protocol")
      ["help"; "info"; "check"; "build"]);
   ("commandrelay-relay-proxy", Extension "commandrelay-relay-proxy" package "CommandRelay Relay Proxy" "WebSocket relay sidecar for protected/observability-aware upstream control." "packages/commandrelay-relay-proxy" "packages/commandrelay-relay-proxy/SKILL.md" "" (Some "@commandrelay/relay-proxy")
      ["help"; "info"; "check"; "build"; "test"; "cli"]);
   ("commandrelay-tui", Extension "commandrelay-tui" package "CommandRelay TUI" "Cross-platform terminal UI client for CommandRelay gateways." "packages/commandrelay-tui" "packages/commandrelay-tui/SKILL.md" "" (Some "@commandrelay/tui")
      ["help"; "info"; "check"; "build"; "cli"]);
   ("proxy-agent", Extension "proxy-agent" package "Proxy Agent" "Protocol-aware proxy agent factory." "packages/proxy-agent" "packages/proxy-agent/SKILL.md" "packages/proxy-agent/docs/assets/proxy-agent-brand.svg" (Some "@commandrelay/proxy-agent")
      ["help"; "info"; "check"; "build"; "test"]);
   ("proxy-axios", Extension "proxy-axios" package "Proxy Axios" "Axios-friendly proxy resolver and request config helpers." "packages/proxy-axios" "packages/proxy-axios/SKILL.md" "packages/proxy-axios/docs/assets/proxy-axios-brand.svg" (Some "@commandrelay/proxy-axios")
      ["help"; "info"; "check"; "build"; "test"]);
   ("proxy-core", Extension "proxy-core" package "Proxy Core" "Core proxy settings and resolution utilities." "packages/proxy-core" "packages/proxy-core/SKILL.md" "packages/proxy-core/docs/assets/proxy-core-brand.svg" (Some "@commandrelay/proxy-core")
      ["help"; "info"; "check"; "build"; "test"]);
   ("proxy-got", Extension "proxy-got" package "Proxy Got" "Got-friendly proxy resolver and apply helpers." "packages/proxy-got" "packages/proxy-got/SKILL.md" "packages/proxy-got/docs/assets/proxy-got-brand.svg" (Some "@commandrelay/proxy-got")
      ["help"; "info"; "check"; "build"; "test"]);
   ("proxy-fetch", Extension "proxy-fetch" package "Proxy Fetch" "Proxy-aware fetch helpers." "packages/proxy-fetch" "packages/proxy-fetch/SKILL.md" "packages/proxy-fetch/docs/assets/proxy-fetch-brand.svg" (Some "@commandrelay/proxy-fetch")
      ["help"; "info"; "check"; "build"; "test"]);
   ("proxy-http-client", Extension "proxy-http-client" package "Proxy HTTP Client" "Proxy-aware JSON HTTP client." "packages/proxy-http-client" "packages/proxy-http-client/SKILL.md" "packages/proxy-http-client/docs/assets/proxy-http-client-brand.svg" (Some "@commandrelay/proxy-http-client")
      ["help"; "info"; "check"; "build"; "test"]);
   ("proxy-runtime", Extension "proxy-runtime" package "Proxy Runtime" "Runtime-level proxy decision controller and lifecycle utilities." "packages/proxy-runtime" "packages/proxy-runtime/SKILL.md" "packages/proxy-runtime/docs/assets/proxy-runtime-brand.svg" (Some "@commandrelay/proxy-runtime")
      ["help"; "info"; "check"; "build"; "test"]);
   ("proxy-undici", Extension "proxy-undici" package "Proxy Undici" "Proxy-aware Undici dispatcher factory." "packages/proxy-undici" "packages/proxy-undici/SKILL.md" "packages/proxy-undici/docs/assets/proxy-undici-brand.svg" (Some "@commandrelay/proxy-undici")
      ["help"; "info"; "check"; "build"; "test"])]%string.

Definition kind_text (k : extension_kind) : string := match k with app => "app" | package => "package" end.

(** ** Arguments ([run-extension-cli.ts]) *)

Inductive OutputFormat : Type := table | json.

Record ParsedArgs : Type := Parsed {
  extensionId : option string;
  action : option string;
  passthrough : list string;
  list_all : bool;
  show_help : bool;
  format : OutputFormat
}.

Definition set_extensionId v a := Parsed v (action a) (passthrough a) (list_all a) (show_help a) (format a).
Definition set_action v a := Parsed (extensionId a) v (passthrough a) (list_all a) (show_help a) (format a).
Definition set_list a := Parsed (extensionId a) (action a) (passthrough a) true (show_help a) (format a).
Definition set_help a := Parsed (extensionId a) (action a) (passthrough a) (list_all a) true (format a).
Definition set_format f a := Parsed (extensionId a) (action a) (passthrough a) (list_all a) (show_help a) f.

(** [parseOptionToken], the same in the four scripts. *)
Definition parseOptionToken (token : string) : string * option string :=
  match index_of "=" token with
  | None => (token, None)
  | Some i => (str_take i token, Some (str_drop (S i) token))
  end.

(** [consumeValue]: the value and the arguments after it. *)
Definition consumeValue (inlineValue : option string) (flag : string) (rest : list string) :
    result string (string * list string) :=
  match inlineValue with
  | Some v => Ok (v, rest)
  | None =>
      match rest with
      | next :: rest' => if starts_with "-" next then Throw (flag +:+ " requires a value.")%string else Ok (next, rest')
      | [] => Throw (flag +:+ " requires a value.")%string
      end
  end.

Definition parse_format (v : string) : result string OutputFormat :=
  if String.eqb v "table" then Ok table
  else if String.eqb v "json" then Ok json
  else Throw ("Unsupported --format value: " +:+ v)%string.

(** [argv.indexOf("--")]: the arguments before it and those passed through. *)
Fixpoint split_separator (argv : list string) : list string * list string :=
  match argv with
  | [] => ([], [])
  | token :: rest =>
      if String.eqb token "--" then ([], rest)
      else let (raw, through) := split_separator rest in (token :: raw, through)
  end.

(** The loop of [parseCliArgs]; each step takes at least one argument, so their number is
    enough fuel. *)
Fixpoint parse_tokens (fuel : nat) (rawArgs : list string) (positional : list string) (parsed : ParsedArgs) :
    result string (list string * ParsedArgs) :=
  match fuel, rawArgs with
  | S fuel, token :: rest =>
      if String.eqb token "--help" || String.eqb token "-h" then parse_tokens fuel rest positional (set_help parsed)
      else if String.eqb token "--list" then parse_tokens fuel rest positional (set_list parsed)
      else
        let '(flag, inlineValue) := parseOptionToken token in
        if String.eqb flag "--format" then
          rbind (consumeValue inlineValue "--format" rest) (fun '(v, rest) =>
          rbind (parse_format v) (fun f => parse_tokens fuel rest positional (set_format f parsed)))
        else if String.eqb flag "--extension" || String.eqb flag "-e" then
          rbind (consumeValue inlineValue flag rest) (fun '(v, rest) =>
          parse_tokens fuel rest positional (set_extensionId (Some v) parsed))
        else if String.eqb flag "--action" || String.eqb flag "-a" then
          rbind (consumeValue inlineValue flag rest) (fun '(v, rest) =>
          parse_tokens fuel rest positional (set_action (Some v) parsed))
        else if starts_with "-" token then Throw ("Unknown option: " +:+ token)%string
        else parse_tokens fuel rest (positional ++ [token]) parsed
  | _, _ => Ok (positional, parsed)
  end.

(** A value that [!value] is false for. *)
Definition given (v : option string) : bool := match v with Some s => negb (is_empty s) | None => false end.

Definition parseCliArgs (argv : list string) : result string ParsedArgs :=
  let (rawArgs, through) := split_separator argv in
  rbind (parse_tokens (length rawArgs) rawArgs [] (Parsed None None through false false table)) (fun '(positional, parsed) =>
  let '(positional, parsed) :=
    match positional with
    | p :: rest => if given (extensionId parsed) then (positional, parsed) else (rest, set_extensionId (Some p) parsed)
    | [] => (positional, parsed)
    end in
  let '(positional, parsed) :=
    match positional with
    | p :: rest => if given (action parsed) then (positional, parsed) else (rest, set_action (Some p) parsed)
    | [] => (positional, parsed)
    end in
  match positional with
  | [] => Ok parsed
  | _ => Throw ("Unexpected positional arguments: " +:+ join " " positional)%string
  end).

Definition requireValue (raw : option string) (what : string) : result string string :=
  match raw with
  | Some s => if is_empty (trim s) then Throw ("Missing required " +:+ what +:+ ".")%string else Ok (trim s)
  | None => Throw ("Missing required " +:+ what +:+ ".")%string
  end.

(** ** Tables *)

Fixpoint spaces (n : nat) : string := match n with O => EmptyString | S n => String " " (spaces n) end.
Fixpoint dashes (n : nat) : string := match n with O => EmptyString | S n => String "-" (dashes n) end.
Definition padEnd (s : string) (n : nat) : string := (s +:+ spaces (n - String.length s))%string.

Definition cell (row : list string) (i : nat) : string := default EmptyString (row !! i).
Definition widths (headers : list string) (rows : list (list string)) : list nat :=
  imap (fun i h => foldr (fun row w => Nat.max (String.length (cell row i)) w) (String.length h) rows) headers.
Definition table_row (ws : list nat) (row : list string) : string :=
  join "  " (imap (fun i v => padEnd v (default 0%nat (ws !! i))) row).

Definition table_lines (headers : list string) (rows : list (list string)) : list string :=
  let ws := widths headers rows in
  table_row ws headers :: join "  " (dashes <$> ws) :: (table_row ws <$> rows).


Definition renderTable (headers : list string) (rows : list (list string)) : string :=
  let ws := widths headers rows in
  let body := join newline_text (table_row ws <$> rows) in
  (table_row ws headers +:+ newline_text +:+ join "  " (dashes <$> ws) +:+
   (if is_empty body then "" else newline_text +:+ body))%string.

(** ** The dispatcher *)

Inductive outcome : Type :=
| ShowUsage
| Listing (format : OutputFormat) (rows : list (list string))
| HelpText (text : string)
| Info (e : ExtensionDefinition)
| Preview (e : ExtensionDefinition) (args : list string)
| Spawn (command : string) (args : list string)
| Failed (message : string).

Definition help_lines (e : ExtensionDefinition) : list string :=
  [(id e +:+ " (" +:+ kind_text (kind e) +:+ ")")%string; ("Description: " +:+ description e)%string;
   ("Allowed actions: " +:+ join ", " (actions e))%string; "Examples:"%string] ++
  ((fun a => "  - npm run extension:run -- " +:+ id e +:+ " " +:+ (if String.eqb a "cli" then "cli -- --help" else a))%string
     <$> actions e).

Definition printExtensionHelp (e : ExtensionDefinition) : string :=
  (join newline_text (help_lines e) +:+ newline_text)%string.

Section Dispatcher.
Context (cwd execPath : string) (windows : bool) (localeCompare : string -> string -> Z).

Definition executeAction (e : ExtensionDefinition) (action : string) (passthrough : list string) : outcome :=
  if String.eqb action "help" then HelpText (printExtensionHelp e)
  else if String.eqb action "info" then Info e
  else if String.eqb action "preview" then
    if negb (String.eqb (id e) "web")
    then Failed ("Action " +:+ in_quotes "preview" +:+ " is only supported for extension " +:+ in_quotes "web" +:+ ".")%string
    else Preview e passthrough
  else if String.eqb action "cli" then
    if negb (String.eqb (id e) "cli-proxy")
    then Failed ("Action " +:+ in_quotes "cli" +:+ " is only supported for extension " +:+ in_quotes "cli-proxy" +:+ ".")%string
    else Spawn execPath (["--import"; "tsx"; Path.resolve cwd ["packages/cli-proxy/src/cli.ts"]]%string ++ passthrough)
  else
    match workspace e with
    | Some (String _ _ as w) =>
        Spawn (if windows then "npm.cmd" else "npm")
          (["run"; "--workspace"; w; action]%string ++
           match passthrough with [] => [] | _ => "--"%string :: passthrough end)
    | _ => Failed ("Extension " +:+ in_quotes (id e) +:+ " does not define an npm workspace target.")%string
    end.

(** [printAllowlistedExtensions]. *)
Definition sorted_extensions : list ExtensionDefinition :=
  js_sort (fun a b => localeCompare (id a) (id b)) EXTENSION_ALLOWLIST.*2.
Definition listing_rows : list (list string) :=
  (fun e => [id e; kind_text (kind e); default "-"%string (workspace e); join "," (actions e)]) <$> sorted_extensions.

Definition main (argv : list string) : outcome :=
  match parseCliArgs argv with
  | Throw e => Failed e
  | Ok parsed =>
      if show_help parsed then ShowUsage
      else if list_all parsed then Listing (format parsed) listing_rows
      else
        match requireValue (extensionId parsed) "extension id" with
        | Throw e => Failed e
        | Ok extensionId =>
            match requireValue (action parsed) "action" with
            | Throw e => Failed e
            | Ok action =>
                match jm_get extensionId EXTENSION_ALLOWLIST with
                | None => Failed ("Unsupported extension " +:+ in_quotes extensionId +:+ ". Allowed: " +:+
                                  join ", " EXTENSION_ALLOWLIST.*1)%string
                | Some e =>
                    if negb (js_has action (actions e))
                    then Failed ("Unsupported action " +:+ in_quotes action +:+ " for " +:+ in_quotes extensionId +:+
                                 ". Allowed: " +:+ join ", " (actions e))%string
                    else executeAction e action (passthrough parsed)
                end
            end
        end
  end.
End Dispatcher.

(** ** The preview server ([web-preview.ts]) *)

Section PreviewServer.
Context (cwd : string).

Fixpoint preview_options (fuel : nat) (argv : list string) (host : string) (port : Z) : result string (string * Z) :=
  match fuel, argv with
  | S fuel, token :: rest =>
      let '(flag, inlineValue) := parseOptionToken token in
      if String.eqb flag "--host" then
        rbind (consumeValue inlineValue "--host" rest) (fun '(v, rest) => preview_options fuel rest v port)
      else if String.eqb flag "--port" then
        rbind (consumeValue inlineValue "--port" rest) (fun '(rawPort, rest) =>
        match num_to_Z (parse_int rawPort) with
        | Some p => if (p <? 1) || (65535 <? p) then Throw ("Invalid --port value: " +:+ rawPort)%string
                    else preview_options fuel rest host p
        | None => Throw ("Invalid --port value: " +:+ rawPort)%string
        end)
      else Throw ("Unsupported preview option: " +:+ token)%string
  | _, _ => Ok (host, port)
  end.

Definition parsePreviewOptions (argv : list string) : result string (string * Z) :=
  preview_options (length argv) argv "127.0.0.1" 4173.

Definition resolvePublicPath (appRoot requestPath : string) : option string :=
  let normalized := if String.eqb requestPath "/" then "/index.html"%string
                    else if ends_with "/" requestPath then (requestPath +:+ "index.html")%string
                    else requestPath in
  let safePath := Path.normalize normalized in
  let relativePath := match safePath with
                      | String c r => if Ascii.eqb c "/" then r else safePath
                      | EmptyString => safePath
                      end in
  let absolutePath := Path.resolve cwd [appRoot; relativePath] in
  let normalizedRoot := if ends_with "/" appRoot then appRoot else (appRoot +:+ "/")%string in
  if negb (String.eqb absolutePath appRoot) && negb (starts_with normalizedRoot absolutePath) then None
  else Some absolutePath.

Definition contentTypeFor (filePath : string) : string :=
  let extension := to_lower (Path.extname filePath) in
  if String.eqb extension ".html" then "text/html; charset=utf-8"
  else if String.eqb extension ".css" then "text/css; charset=utf-8"
  else if String.eqb extension ".js" then "text/javascript; charset=utf-8"
  else if String.eqb extension ".svg" then "image/svg+xml"
  else if String.eqb extension ".json" then "application/json; charset=utf-8"
  else "application/octet-stream".

Inductive preview_response : Type :=
| InvalidPath
| Served (path contentType body : string)
| NotFound (path : string).

(** [handleWebRequest]; [readFile]: [None] when it rejects. *)
Definition handleWebRequest (readFile : string -> option string) (appRoot : string) (url : option string) : preview_response :=
  let requestPath := default EmptyString (head (split_on "?" (default "/"%string url))) in
  match resolvePublicPath appRoot requestPath with
  | None => InvalidPath
  | Some p =>
      match readFile p with
      | Some body => Served p (contentTypeFor p) body
      | None => NotFound p
      end
  end.

(** [runWebPreview]: the root it serves, where it listens. *)
Definition runWebPreview (e : ExtensionDefinition) (passthrough : list string) : result string (string * string * Z) :=
  rbind (parsePreviewOptions passthrough) (fun '(host, port) => Ok (Path.resolve cwd [rootDir e], host, port)).
End PreviewServer.

(** ** Listings *)

(** [parseCliArgs] of both listings: whether help is asked for, and the format. *)
Fixpoint listing_args (fuel : nat) (argv : list string) (help : bool) (f : OutputFormat) : result string (bool * OutputFormat) :=
  match fuel, argv with
  | S fuel, token :: rest =>
      if String.eqb token "--help" || String.eqb token "-h" then listing_args fuel rest true f
      else
        let '(flag, inlineValue) := parseOptionToken token in
        if String.eqb flag "--format" then
          rbind (consumeValue inlineValue "--format" rest) (fun '(v, rest) =>
          rbind (parse_format v) (fun f => listing_args fuel rest help f))
        else Throw ("Unknown option: " +:+ token)%string
  | _, _ => Ok (help, f)
  end.

Definition parseListingArgs (argv : list string) : result string (bool * OutputFormat) :=
  listing_args (length argv) argv false table.

Inductive file_type : Type := Directory | RegularFile | OtherFile.

#[export] Instance file_type_eq_dec : EqDecision file_type.
Proof. solve_decision. Defined.

(** The files: which exist, what a directory holds ([None]: it cannot be read), and what a
    manifest parses to ([None]: it cannot be read or is not JSON). *)
Record Files : Type := MkFiles {
  exists_file : string -> bool;
  read_dir : string -> option (list (string * file_type));
  read_json : string -> option jsval
}.

Definition deriveDefaultAction (e : ExtensionDefinition) : string :=
  if js_has "check"%string (actions e) then "check"
  else if js_has "preview"%string (actions e) then "preview"
  else if js_has "cli"%string (actions e) then "cli"
  else "info".

(** [readPackageManifest]. *)
Definition readPackageManifest (f : Files) (path : string) : jsval := default (JObj []) (read_json f path).

(** [readPackageName]. *)
Definition readPackageName (f : Files) (path : string) : option string :=
  match read_json f path with
  | Some (JObj fields) => match field "name" fields with
                          | JStr name => if is_empty (trim name) then None else Some name
                          | _ => None
                          end
  | _ => None
  end.

(** The object [printExtensionInfo] prints. *)
Definition extension_info (cwd : string) (f : Files) (e : ExtensionDefinition) : jsval :=
  let readmePath := Path.resolve cwd [rootDir e; "README.md"%string] in
  let packageJsonPath := Path.resolve cwd [rootDir e; "package.json"%string] in
  let packageJsonExists := exists_file f packageJsonPath in
  let text_or_null v := match v with Some s => JStr s | None => JNull end in
  JObj [("id", JStr (id e)); ("kind", JStr (kind_text (kind e))); ("displayName", JStr (displayName e));
        ("description", JStr (description e)); ("rootDir", JStr (rootDir e)); ("workspace", text_or_null (workspace e));
        ("actions", JArr (JStr <$> actions e));
        ("files", JObj [("skillPath", JStr (skillPath e)); ("skillExists", JBool (exists_file f (Path.resolve cwd [skillPath e])));
                        ("svgPath", JStr (svgPath e)); ("svgExists", JBool (exists_file f (Path.resolve cwd [svgPath e])));
                        ("readmePath", JStr (Path.relative cwd cwd readmePath)); ("readmeExists", JBool (exists_file f readmePath));
                        ("packageJsonPath", JStr (Path.relative cwd cwd packageJsonPath));
                        ("packageJsonExists", JBool packageJsonExists)]);
        ("packageName", if packageJsonExists then text_or_null (readPackageName f packageJsonPath) else JNull)]%string.

(** [manifest.name ?? fallback]; a manifest that is [null] has no properties to read. *)
Definition manifest_name (manifest : jsval) (fallback : string) : result string jsval :=
  match manifest with
  | JNull => Throw "Cannot read properties of null (reading 'name')"%string
  | JObj fields => Ok match field "name" fields with JUndefined | JNull => JStr fallback | v => v end
  | _ => Ok (JStr fallback)
  end.

Section Listings.
Context (rootDir_ : string) (f : Files) (localeCompare : string -> string -> Z).

(** [list-discoverable-apps.ts]. *)
Record DiscoverableApp : Type := App_ {
  app_id : string;
  app_kind : string;
  app_name : jsval;
  app_rootDir : string;
  app_skillPath : string;
  app_svgPath : option string;
  app_actions : list string;
  defaultCli : string
}.

Definition svg_of (svgPath : string) : option string :=
  if exists_file f (Path.resolve rootDir_ [rootDir_; svgPath]) then Some svgPath else None.

Fixpoint discover_apps (l : list ExtensionDefinition) : result string (list DiscoverableApp) :=
  match l with
  | [] => Ok []
  | e :: l =>
      if negb (exists_file f (Path.resolve rootDir_ [rootDir_; skillPath e])) then discover_apps l
      else
        let packageJsonPath := Path.resolve rootDir_ [rootDir_; rootDir e; "package.json"%string] in
        let packageJson := match kind e with package => readPackageManifest f packageJsonPath | app => JObj [] end in
        rbind (manifest_name packageJson (displayName e)) (fun name =>
        rbind (discover_apps l) (fun rest =>
        Ok (App_ (id e) (match kind e with app => "app" | package => "extension" end) name (rootDir e) (skillPath e)
              (svg_of (svgPath e)) (actions e) ("npm run extension:run -- " +:+ id e +:+ " " +:+ deriveDefaultAction e)%string :: rest)))
  end.

Definition discoverApps : result string (list DiscoverableApp) := discover_apps (sorted_extensions localeCompare).

(** [list-discoverable-skills.ts]. *)
Record DiscoverableSkill : Type := Skill {
  skill_id : string;
  skill_scope : string;
  skill_name : jsval;
  skill_path : string;
  skill_svg : option string;
  extensionCli : string
}.

(** [readDirectoryNames] and [readFileNames]; [sort()] orders by code unit. *)
Definition entry_names (type : file_type) (path : string) : list string :=
  js_sort str_order ((filter (fun e => e.2 = type) (default [] (read_dir f path))).*1).

Definition default_action_of (extensionId fallbackAction : string) : string :=
  match jm_get extensionId EXTENSION_ALLOWLIST with
  | Some e => deriveDefaultAction e
  | None => fallbackAction
  end.

Definition app_skill (dir : string) : option DiscoverableSkill :=
  let skillPath := join "/" ["apps"; dir; "SKILL.md"]%string in
  if negb (exists_file f (Path.resolve rootDir_ [rootDir_; skillPath])) then None
  else
    let svgPath := join "/" ["apps"; dir; "assets"; "brand.svg"]%string in
    Some (Skill dir "app" (JStr dir) skillPath (svg_of svgPath)
            ("npm run extension:run -- " +:+ dir +:+ " " +:+ default_action_of dir "info")).

Definition findPackageSvg (dir : string) : option string :=
  let files := entry_names RegularFile (Path.resolve rootDir_ [rootDir_; "packages"; dir; "docs"; "assets"]%string) in
  match head (filter (fun e => ends_with ".svg" (to_lower e) = true) files) with
  | Some (String _ _ as svg) => Some (join "/" ["packages"; dir; "docs"; "assets"; svg]%string)
  | _ => None
  end.

Definition package_skill (dir : string) : result string (option DiscoverableSkill) :=
  let skillPath := join "/" ["packages"; dir; "SKILL.md"]%string in
  if negb (exists_file f (Path.resolve rootDir_ [rootDir_; skillPath])) then Ok None
  else
    let manifest := readPackageManifest f (Path.resolve rootDir_ [rootDir_; "packages"; dir; "package.json"]%string) in
    let action := default_action_of dir (if String.eqb dir "cli-proxy" then "cli" else "check") in
    rbind (manifest_name manifest dir) (fun name =>
    Ok (Some (Skill dir "package" name skillPath (findPackageSvg dir)
                (if String.eqb action "cli" then "npm run extension:run -- " +:+ dir +:+ " cli -- --help"
                 else "npm run extension:run -- " +:+ dir +:+ " " +:+ action)))).

Fixpoint package_skills (dirs : list string) : result string (list DiscoverableSkill) :=
  match dirs with
  | [] => Ok []
  | d :: dirs =>
      rbind (package_skill d) (fun s =>
      rbind (package_skills dirs) (fun rest => Ok (match s with Some s => s :: rest | None => rest end)))
  end.

Definition discoverSkills : result string (list DiscoverableSkill) :=
  let apps := omap app_skill (entry_names Directory (Path.resolve rootDir_ [rootDir_; "apps"%string])) in
  rbind (package_skills (entry_names Directory (Path.resolve rootDir_ [rootDir_; "packages"%string]))) (fun packages =>
  Ok (js_sort (fun a b => localeCompare (skill_id a) (skill_id b)) (apps ++ packages))).
End Listings.

(** ** What the dispatcher starts *)

Lemma split_separator_spec argv raw through : split_separator argv = (raw, through) ->
  "--"%string ∉ raw /\ (argv = raw ++ "--"%string :: through \/ (argv = raw /\ through = [])).
Proof.
  revert raw through. induction argv as [|t argv IH]; intros raw through; cbn [split_separator].
  - intros [= <- <-]. split; [apply not_elem_of_nil|by right].
  - destruct (String.eqb_spec t "--") as [->|Ht]; [intros [= <- <-]; split; [apply not_elem_of_nil|by left]|].
    destruct (split_separator argv) as [r th]. intros [= <- <-]. destruct (IH r th eq_refl) as [Hn Hr].
    split; [intros [?|?]%elem_of_cons; done|]. destruct Hr as [->|[-> ->]]; [by left|by right].
Qed.

Lemma parse_tokens_passthrough fuel raw pos p pos' p' : parse_tokens fuel raw pos p = Ok (pos', p') ->
  passthrough p' = passthrough p.
Proof.
  revert raw pos p. induction fuel as [|fuel IH]; intros raw pos p; cbn [parse_tokens]; [by intros [= _ <-]|].
  destruct raw as [|token rest]; [by intros [= _ <-]|].
  destruct (_ || _); [by intros ->%IH|]. destruct (String.eqb token "--list"); [by intros ->%IH|].
  destruct (parseOptionToken token) as [flag inline].
  destruct (String.eqb flag "--format"); [|destruct (String.eqb flag "--extension" || _); [|destruct (String.eqb flag "--action" || _)]].
  - rewrite rbind_Ok. intros ([v r] & _ & H). rewrite rbind_Ok in H. destruct H as (f & _ & H). by rewrite (IH _ _ _ H).
  - rewrite rbind_Ok. intros ([v r] & _ & H). by rewrite (IH _ _ _ H).
  - rewrite rbind_Ok. intros ([v r] & _ & H). by rewrite (IH _ _ _ H).
  - destruct (starts_with "-" token); [done|]. intros H. by rewrite (IH _ _ _ H).
Qed.

Lemma parsed_passthrough argv p : parseCliArgs argv = Ok p -> passthrough p = (split_separator argv).2.
Proof.
  unfold parseCliArgs. destruct (split_separator argv) as [raw through]. rewrite rbind_Ok. intros ([pos q] & H & Hp).
  apply parse_tokens_passthrough in H. cbn [passthrough] in H. cbn [snd]. rewrite <- H.
  destruct pos as [|x pos]; [by injection Hp as <-|]. destruct (given (extensionId q)).
  all: repeat (case_match; simplify_eq/=; try done).
Qed.

Lemma workspace_actions k e a : (k, e) ∈ EXTENSION_ALLOWLIST -> a ∈ actions e ->
  k = id e /\ a ∈ ["help"; "info"; "preview"; "check"; "build"; "test"; "cli"]%string.
Proof.
  intros He Ha. assert (Hall : Forall (fun p : string * ExtensionDefinition => bool_decide (p.1 = id p.2) &&
      forallb (fun a => js_has a ["help"; "info"; "preview"; "check"; "build"; "test"; "cli"]%string) (actions p.2) = true) EXTENSION_ALLOWLIST)
    by (repeat constructor).
  pose proof (proj1 (Forall_forall _ _) Hall _ He) as H. cbn [fst snd] in H. apply andb_true_iff in H as [H1 H2].
  split; [by apply bool_decide_eq_true in H1|]. rewrite forallb_forall in H2. apply js_has_spec, H2. by apply list_elem_of_In.
Qed.

(** C34. The dispatcher starts nothing but what the allowlist allows: the command line of
    cli-proxy, or one of the scripts check, build and test of the workspace of an
    allowlisted extension; what the user wrote appears only in the arguments behind the
    separator, handed on unchanged and not through a shell. *)
Theorem dispatch_allowlisted cwd execPath windows cmp argv command args :
  main cwd execPath windows cmp argv = Spawn command args ->
  exists e action through, (id e, e) ∈ EXTENSION_ALLOWLIST /\ action ∈ actions e /\
    (through = [] \/ exists raw, argv = raw ++ "--"%string :: through /\ "--"%string ∉ raw) /\
    ((id e = "cli-proxy"%string /\ action = "cli"%string /\ command = execPath /\
      args = ["--import"; "tsx"; Path.resolve cwd ["packages/cli-proxy/src/cli.ts"]]%string ++ through) \/
     (action ∈ ["check"; "build"; "test"]%string /\ command = (if windows then "npm.cmd" else "npm")%string /\
      exists w, workspace e = Some w /\
        args = ["run"; "--workspace"; w; action]%string ++ match through with [] => [] | _ => "--"%string :: through end)).
Proof.
  unfold main. destruct (parseCliArgs argv) as [parsed|] eqn:Hp; [|done].
  destruct (show_help parsed); [done|]. destruct (list_all parsed); [done|].
  destruct (requireValue (extensionId parsed) _) as [x|]; [|done]. destruct (requireValue (action parsed) _) as [a|]; [|done].
  destruct (jm_get x EXTENSION_ALLOWLIST) as [e|] eqn:He; [|done]. apply jm_get_In in He.
  destruct (js_has a (actions e)) eqn:Ha; [|done]. cbn [negb]. apply js_has_spec in Ha.
  destruct (workspace_actions _ _ _ He Ha) as [-> Hin]. apply parsed_passthrough in Hp.
  destruct (split_separator argv) as [raw through] eqn:Hsep. cbn [snd] in Hp. rewrite Hp.
  destruct (split_separator_spec _ _ _ Hsep) as [Hraw Hargv].
  intros Hexec. exists e, a, through. split; [done|]. split; [done|]. split.
  { destruct Hargv as [->|[-> ->]]; [right; eauto|by left]. }
  unfold executeAction in Hexec. destruct (String.eqb_spec a "help") as [->|H1]; [done|].
  destruct (String.eqb_spec a "info") as [->|H2]; [done|].
  destruct (String.eqb_spec a "preview") as [->|H3]; [by destruct (negb _)|].
  destruct (String.eqb_spec a "cli") as [->|H4].
  - left. destruct (String.eqb_spec (id e) "cli-proxy") as [Hid|]; [|done]. by injection Hexec as <- <-.
  - right. destruct (workspace e) as [[|c w]|]; try done. injection Hexec as <- <-.
    split_and!; [set_solver|done|by eexists].
Qed.

(** Two extensions are listed with an action, cli, that always fails for them. *)
Theorem advertised_cli_fails cwd execPath windows cmp :
  (forall k e, (k, e) ∈ EXTENSION_ALLOWLIST -> "cli"%string ∈ actions e -> k <> "cli-proxy"%string ->
     exists m, main cwd execPath windows cmp [k; "cli"]%string = Failed m) /\
  (fun p => p.1) <$> filter (fun p => "cli"%string ∈ actions p.2 /\ p.1 <> "cli-proxy"%string) EXTENSION_ALLOWLIST
    = ["commandrelay-relay-proxy"; "commandrelay-tui"]%string.
Proof.
  split; [|by vm_compute]. intros k e He Hcli Hk.
  assert (Hf : (k, e) ∈ filter (fun p => "cli"%string ∈ actions p.2 /\ p.1 <> "cli-proxy"%string) EXTENSION_ALLOWLIST)
    by by apply list_elem_of_filter.
  vm_compute in Hf. repeat (apply elem_of_cons in Hf as [Hf|Hf]; [injection Hf as -> ->; eexists; vm_compute; reflexivity|]).
  by apply elem_of_nil in Hf.
Qed.

(** ** Tables are aligned *)

Fixpoint total (ns : list nat) : nat :=
  match ns with
  | [] => 0%nat
  | [n] => n
  | n :: ns => (n + 2 + total ns)%nat
  end.

Lemma spaces_length n : String.length (spaces n) = n.
Proof. induction n; simpl; congruence. Qed.
Lemma dashes_length n : String.length (dashes n) = n.
Proof. induction n; simpl; congruence. Qed.

Lemma padEnd_length s n : (String.length s <= n)%nat -> String.length (padEnd s n) = n.
Proof. intros H. unfold padEnd. rewrite str_app_length, spaces_length. lia. Qed.

Lemma join_length ws : String.length (join "  " ws) = total (String.length <$> ws).
Proof.
  induction ws as [|a [|b ws] IH]; [done|done|]. rewrite join_cons2, !str_app_length, IH. cbn [fmap list_fmap total String.length]. lia.
Qed.

Lemma foldr_max (row : list string) rows n i : row ∈ rows ->
  (String.length (cell row i) <= foldr (fun row w => Nat.max (String.length (cell row i)) w) n rows)%nat.
Proof. induction 1; simpl; lia. Qed.

Lemma foldr_max_base rows n i : (n <= foldr (fun row w => Nat.max (String.length (cell row i)) w) n rows)%nat.
Proof. induction rows; simpl; lia. Qed.

Lemma widths_length headers rows : length (widths headers rows) = length headers.
Proof. apply length_imap. Qed.

Lemma width_lookup headers rows i h : headers !! i = Some h ->
  widths headers rows !! i = Some (foldr (fun row w => Nat.max (String.length (cell row i)) w) (String.length h) rows).
Proof. intros H. unfold widths. by rewrite list_lookup_imap, H. Qed.

(** A row whose cells fit. *)
Lemma row_lengths ws row : length row = length ws ->
  (forall i v w, row !! i = Some v -> ws !! i = Some w -> (String.length v <= w)%nat) ->
  String.length (table_row ws row) = total ws.
Proof.
  intros Hlen Hfit. unfold table_row. rewrite join_length. f_equal. apply list_eq. intros i.
  rewrite list_lookup_fmap, list_lookup_imap. destruct (row !! i) as [v|] eqn:Hv; cbn [fmap option_fmap option_map].
  - destruct (ws !! i) as [w|] eqn:Hw.
    + cbn [default]. f_equal. apply padEnd_length. by eapply Hfit.
    + apply lookup_ge_None in Hw. apply lookup_lt_Some in Hv. lia.
  - apply lookup_ge_None in Hv. symmetry. apply lookup_ge_None. lia.
Qed.

(** Every line of a table - headers, divider and rows - has the same length, so that the
    columns stand below each other, for rows with as many cells as there are headers. *)
Theorem table_aligned headers rows : Forall (fun row => length row = length headers) rows ->
  Forall (fun line => String.length line = total (widths headers rows)) (table_lines headers rows) /\
  renderTable headers rows =
    (if is_empty (join newline_text (table_row (widths headers rows) <$> rows))
     then join newline_text (take 2 (table_lines headers rows)) else join newline_text (table_lines headers rows)).
Proof.
  intros Hrows. unfold table_lines. cbv zeta. set (ws := widths headers rows). split.
  - constructor; [|constructor].
    + apply row_lengths; [by unfold ws; rewrite widths_length|]. intros i v w Hv Hw. unfold ws in Hw.
      rewrite (width_lookup _ _ _ _ Hv) in Hw. injection Hw as <-. apply foldr_max_base.
    + rewrite join_length. f_equal. rewrite <- list_fmap_compose. rewrite <- (list_fmap_id ws) at 2.
      apply list_fmap_ext. intros i n _. apply dashes_length.
    + apply Forall_fmap, Forall_forall. intros row Hrow. pose proof (proj1 (Forall_forall _ _) Hrows row Hrow) as Hlen. cbn in Hlen.
      apply row_lengths; [unfold ws; by rewrite widths_length|]. intros i v w Hv Hw.
      assert (exists h, headers !! i = Some h) as [h Hh] by (apply lookup_lt_is_Some; apply lookup_lt_Some in Hv; lia).
      unfold ws in Hw. rewrite (width_lookup _ _ _ _ Hh) in Hw. injection Hw as <-.
      replace (String.length v) with (String.length (cell row i)) by (unfold cell; by rewrite Hv). by apply foldr_max.
  - unfold renderTable. fold ws. destruct (table_row ws <$> rows) as [|r rs] eqn:Hr.
    + cbn [join is_empty take]. by rewrite str_app_nil_r.
    + destruct (is_empty (join newline_text (r :: rs))); cbn [take]; rewrite ?join_cons2.
      * cbn [join]. by rewrite str_app_nil_r.
      * done.
Qed.

(** ** The preview server stays below its root *)

Lemma absolute_root_names segs : Forall proper segs -> ends_with "/" (absolute segs) = true -> segs = [].
Proof.
  intros Hp He. destruct segs as [|s segs]; [done|]. exfalso.
  destruct (join_ends (s :: segs) ltac:(done) Hp) as (Hempty & _ & Hend). unfold absolute in He.
  apply ends_with_iff in He as [a Ha]. apply (f_equal String.rev) in Ha. rewrite !rev_app in Ha.
  revert Hend. apply eq_true_false_abs. apply ends_with_iff.
  destruct (String.rev (join "/" (s :: segs))) as [|c r] eqn:Hrev.
  - apply (f_equal String.rev) in Hrev. rewrite rev_involutive in Hrev. by rewrite Hrev in Hempty.
  - exists (String.rev r). rewrite <- (rev_involutive (join "/" (s :: segs))), Hrev, rev_cons.
    rewrite str_app_cons in Ha. change (String.rev "/") with "/"%string in Ha. rewrite str_app_cons in Ha. injection Ha as -> _. done.
Qed.

(** The preview server reads nothing outside the directory of its extension: whatever the
    URL of a request, the file it is resolved to is that directory or below it, and a
    body that is served is the contents of that file. *)
Theorem preview_confined cwd readFile e argv url :
  match runWebPreview cwd e argv with
  | Throw _ => True
  | Ok (root, _, _) =>
      match handleWebRequest cwd readFile root url with
      | InvalidPath => True
      | Served p _ body => at_or_below root p /\ readFile p = Some body
      | NotFound p => at_or_below root p /\ readFile p = None
      end
  end.
Proof.
  unfold runWebPreview. destruct (parsePreviewOptions argv) as [[host port]|]; [|done]. cbn [rbind].
  set (root := Path.resolve cwd [rootDir e]). destruct (resolve_absolute cwd [rootDir e]) as (rs & Hroot & Hrs). fold root in Hroot.
  unfold handleWebRequest. destruct (resolvePublicPath cwd root _) as [p|] eqn:Hp; [|done].
  assert (Hb : at_or_below root p); [|by destruct (readFile p) eqn:Hr].
  unfold resolvePublicPath in Hp. set (rel := match Path.normalize _ with String _ _ => _ | _ => _ end) in Hp.
  destruct (resolve_absolute cwd [root; rel]) as (segs & Habs & Hsegs). rewrite Habs in Hp.
  destruct (negb _ && negb _) eqn:Hguard; [done|]. injection Hp as <-.
  apply andb_false_iff in Hguard as [Hg|Hg]; apply negb_false_iff in Hg.
  - apply String.eqb_eq in Hg. apply guarded_below; [done|by left].
  - destruct (ends_with "/" root) eqn:Hend.
    + rewrite Hroot in Hend. apply absolute_root_names in Hend; [|done]. subst rs. rewrite Hroot. exists segs.
      split; [done|]. by rewrite names_absolute.
    + apply guarded_below; [done|by right].
Qed.

Lemma preview_options_port fuel argv host port h p : 1 <= port <= 65535 ->
  preview_options fuel argv host port = Ok (h, p) -> 1 <= p <= 65535.
Proof.
  revert argv host port. induction fuel as [|fuel IH]; intros argv host port Hport; cbn [preview_options]; [by intros [= _ <-]|].
  destruct argv as [|t rest]; [by intros [= _ <-]|]. destruct (parseOptionToken t) as [flag inline].
  destruct (String.eqb flag "--host").
  - rewrite rbind_Ok. intros ([v r] & _ & H). by apply IH in H.
  - destruct (String.eqb flag "--port"); [|done]. rewrite rbind_Ok. intros ([v r] & _ & H).
    destruct (num_to_Z (parse_int v)) as [z|]; [|done].
    destruct (Z.ltb_spec z 1); [done|]. destruct (Z.ltb_spec 65535 z); [done|]. apply IH in H; [done|lia].
Qed.

(** The port of the preview server is a port. *)
Theorem preview_port_in_range argv host port : parsePreviewOptions argv = Ok (host, port) -> 1 <= port <= 65535.
Proof. intros H. eapply preview_options_port; [|exact H]. lia. Qed.

(** ** What the listings find *)

Lemma discover_apps_in root f l apps a : discover_apps root f l = Ok apps -> a ∈ apps ->
  exists e, e ∈ l /\ app_id a = id e /\ app_actions a = actions e /\ app_svgPath a = svg_of root f (svgPath e) /\
    exists_file f (Path.resolve root [root; skillPath e]) = true.
Proof.
  revert apps. induction l as [|e l IH]; intros apps; cbn [discover_apps]; [intros [= <-] []%elem_of_nil|].
  destruct (exists_file f _) eqn:He; cbn [negb].
  - rewrite rbind_Ok. intros (name & _ & H). rewrite rbind_Ok in H. destruct H as (rest & Hrest & [= <-]).
    intros [->|Ha]%elem_of_cons; [exists e; split_and!; [by left|done..]|].
    destruct (IH rest Hrest Ha) as (e' & ? & ?). exists e'. split; [by right|done].
  - intros H Ha. destruct (IH apps H Ha) as (e' & ? & ?). exists e'. split; [by right|done].
Qed.

Lemma discover_apps_complete root f l apps e : discover_apps root f l = Ok apps -> e ∈ l ->
  exists_file f (Path.resolve root [root; skillPath e]) = true -> exists a, a ∈ apps /\ app_id a = id e.
Proof.
  revert apps. induction l as [|x l IH]; intros apps; cbn [discover_apps]; [intros _ []%elem_of_nil|].
  destruct (exists_file f (Path.resolve root [root; skillPath x])) eqn:Hx; cbn [negb].
  - rewrite rbind_Ok. intros (name & _ & H). rewrite rbind_Ok in H. destruct H as (rest & Hrest & [= <-]).
    intros [->|He]%elem_of_cons Hs; [eexists; split; [by left|done]|].
    destruct (IH rest Hrest He Hs) as (a & ? & ?). exists a. split; [by right|done].
  - intros H [->|He]%elem_of_cons Hs; [by rewrite Hs in Hx|]. by apply (IH apps).
Qed.

(** The listing of applications: exactly the allowlisted extensions whose SKILL.md exists,
    with the actions of the allowlist; and an extension without a picture is listed with
    the empty path, not with none, as the empty path is the root directory, which exists. *)
Theorem apps_listed root f cmp apps : discoverApps root f cmp = Ok apps ->
  (forall n, n ∈ app_id <$> apps <->
     exists e, (id e, e) ∈ EXTENSION_ALLOWLIST /\ id e = n /\ exists_file f (Path.resolve root [root; skillPath e]) = true) /\
  (exists_file f (Path.resolve root [root; ""%string]) = true ->
     forall a, a ∈ apps -> app_id a = "commandrelay-tui"%string -> app_svgPath a = Some ""%string).
Proof.
  intros H. assert (Hsorted : forall e, e ∈ sorted_extensions cmp <-> (id e, e) ∈ EXTENSION_ALLOWLIST).
  { intros e. unfold sorted_extensions. rewrite (js_sort_perm _ _). split.
    - intros (p & -> & Hp)%list_elem_of_fmap. destruct p as [k e]. cbn [snd].
      destruct (decide (k = id e)) as [->|Hk]; [done|]. exfalso. apply Hk. clear -Hp.
      assert (Hall : Forall (fun p : string * ExtensionDefinition => p.1 = id p.2) EXTENSION_ALLOWLIST) by (repeat constructor).
      exact (proj1 (Forall_forall _ _) Hall _ Hp).
    - intros He. apply list_elem_of_fmap. by exists (id e, e). }
  split.
  - intros n. rewrite list_elem_of_fmap. split.
    + intros (a & -> & Ha). destruct (discover_apps_in _ _ _ _ _ H Ha) as (e & He & Hid & _ & _ & Hs).
      exists e. split; [by apply Hsorted|done].
    + intros (e & He & <- & Hs). destruct (discover_apps_complete _ _ _ _ e H) as (a & Ha & Hid); [by apply Hsorted|done|]. by exists a.
  - intros Hroot a Ha Hid. destruct (discover_apps_in _ _ _ _ _ H Ha) as (e & He & Hid' & _ & -> & _).
    apply Hsorted in He. assert (Hsvg : svgPath e = ""%string).
    { assert (Hall : Forall (fun p : string * ExtensionDefinition => p.1 = "commandrelay-tui"%string -> svgPath p.2 = ""%string) EXTENSION_ALLOWLIST)
        by (repeat (constructor; [done|]); constructor).
      apply (proj1 (Forall_forall _ _) Hall _ He). cbn [fst]. congruence. }
    unfold svg_of. by rewrite Hsvg, Hroot.
Qed.

(** ** Concrete inputs *)

Lemma dispatch_allowlisted_witness :
  exists args, main "/repo" "/usr/bin/node" false str_order ["cli-proxy"; "cli"; "--"; "env"; "-j"]%string = Spawn "/usr/bin/node" args /\
  exists e, id e = "cli-proxy"%string /\ (id e, e) ∈ EXTENSION_ALLOWLIST.
Proof.
  exists ["--import"; "tsx"; "/repo/packages/cli-proxy/src/cli.ts"; "env"; "-j"]%string. split; [by vm_compute|].
  destruct (dispatch_allowlisted "/repo" "/usr/bin/node" false str_order ["cli-proxy"; "cli"; "--"; "env"; "-j"]%string
    "/usr/bin/node" ["--import"; "tsx"; "/repo/packages/cli-proxy/src/cli.ts"; "env"; "-j"]%string ltac:(by vm_compute))
    as (e & a & through & He & _ & _ & [(Hid & _)|(_ & Hc & _)]); [by exists e|done].
Defined.

Lemma table_aligned_witness :
  table_lines ["ID"; "KIND"]%string [["web"; "app"]; ["proxy-a"; "package"]]%string =
    ["ID       KIND   "; "-------  -------"; "web      app    "; "proxy-a  package"]%string /\
  Forall (fun line => String.length line = 16%nat) (table_lines ["ID"; "KIND"]%string [["web"; "app"]; ["proxy-a"; "package"]]%string).
Proof.
  split; [reflexivity|].
  refine (proj1 (table_aligned ["ID"; "KIND"]%string [["web"; "app"]; ["proxy-a"; "package"]]%string _)). by repeat constructor.
Defined.

Lemma preview_port_in_range_witness : 1 <= 8080 <= 65535.
Proof. apply (preview_port_in_range ["--port=8080"]%string "127.0.0.1" 8080). by vm_compute. Defined.

Definition demo_files : Files :=
  MkFiles (fun p => bool_decide (p = "/repo"%string) || ends_with "tui/SKILL.md" p) (fun _ => None) (fun _ => None).

Lemma apps_listed_witness :
  exists a, discoverApps "/repo" demo_files str_order = Ok [a] /\ app_svgPath a = Some ""%string.
Proof.
  eexists. split; [vm_compute; reflexivity|].
  match goal with |- app_svgPath ?x = _ => pose (a := x) end.
  apply (proj2 (apps_listed "/repo" demo_files str_order [a] ltac:(by vm_compute)) ltac:(by vm_compute) a); [by left|done].
Defined.
