(* ===== verification/RelayCli.v ===== *)
(** * The command line of the relay ([packages/commandrelay-relay-proxy/src/cli.ts])

    Arguments, how they are merged with the environment, and what a signal does.  The
    fields of the parsed arguments are named by the flag that sets them; all of them are
    strings, empty when not given. *)

From S2P Require Import Prelude JsMap Config RelaySession RelayOptions.
Local Open Scope Z_scope.

(** ** Arguments *)

Inductive cli_key : Type :=
| k_listenHost | k_listenPort | k_relayPath | k_healthPath | k_upstreamUrl | k_maxConnections
| k_idleTimeoutMs | k_shutdownTimeoutMs | k_requiredToken | k_allowedOrigins | k_upstreamSubprotocols
| k_upstreamTlsRejectUnauthorized | k_upstreamTlsCaFile | k_upstreamTlsCertFile | k_upstreamTlsKeyFile
| k_upstreamTlsPfxFile | k_upstreamTlsPassphrase | k_upstreamTlsServername | k_upstreamTlsMinVersion
| k_upstreamTlsMaxVersion | k_upstreamTlsWatchIntervalMs | k_upstreamTlsRestartOnChange.

#[export] Instance cli_key_eq_dec : EqDecision cli_key.
Proof. solve_decision. Defined.

(** The flags, in the order in which the code compares them. *)
Definition flags : list (string * cli_key) :=
  [("--host", k_listenHost); ("--port", k_listenPort); ("--relay-path", k_relayPath); ("--health-path", k_healthPath);
   ("--upstream", k_upstreamUrl); ("--max-connections", k_maxConnections); ("--idle-timeout-ms", k_idleTimeoutMs);
   ("--shutdown-timeout-ms", k_shutdownTimeoutMs); ("--token", k_requiredToken); ("--allowed-origins", k_allowedOrigins);
   ("--upstream-subprotocols", k_upstreamSubprotocols);
   ("--upstream-tls-reject-unauthorized", k_upstreamTlsRejectUnauthorized); ("--upstream-tls-ca-file", k_upstreamTlsCaFile);
   ("--upstream-tls-cert-file", k_upstreamTlsCertFile); ("--upstream-tls-key-file", k_upstreamTlsKeyFile);
   ("--upstream-tls-pfx-file", k_upstreamTlsPfxFile); ("--upstream-tls-passphrase", k_upstreamTlsPassphrase);
   ("--upstream-tls-servername", k_upstreamTlsServername); ("--upstream-tls-min-version", k_upstreamTlsMinVersion);
   ("--upstream-tls-max-version", k_upstreamTlsMaxVersion); ("--upstream-tls-watch-interval-ms", k_upstreamTlsWatchIntervalMs);
   ("--upstream-tls-restart-on-change", k_upstreamTlsRestartOnChange)]%string.

Record CliConfig : Type := MkCli { value_of : cli_key -> string; cli_help : bool }.

Definition empty_config : CliConfig := MkCli (fun _ => EmptyString) false.
Definition set_value (k : cli_key) (v : string) (c : CliConfig) : CliConfig :=
  MkCli (fun k' => if decide (k' = k) then v else value_of c k') (cli_help c).

(** [value.trim().toUpperCase().replace(/[^A-Z0-9_]/g, "_")]. *)
Definition env_char (c : ascii) : ascii :=
  let n := code c in
  if ((65 <=? n) && (n <=? 90) || (48 <=? n) && (n <=? 57))%N || Ascii.eqb c "_" then c else "_"%char.
Definition normalizeEnvKey (value : string) : string := str_map env_char (to_upper (trim value)).

(** The loop of [parseArgs]; [next] is missing when it is absent or empty. *)
Fixpoint parse_args (env : environment) (argv : list string) (config : CliConfig) : result string CliConfig :=
  match argv with
  | [] => Ok config
  | arg :: rest =>
      if String.eqb arg "--help" || String.eqb arg "-h" then Ok (MkCli (value_of config) true)
      else
        match jm_get arg flags with
        | Some k =>
            match rest with
            | (String _ _ as next) :: rest => parse_args env rest (set_value k next config)
            | _ => Throw ("missing " +:+ arg)%string
            end
        | None =>
            if String.eqb arg "--token-from-env" then
              match rest with
              | (String _ _ as next) :: rest =>
                  let envKey := normalizeEnvKey next in
                  match env envKey with
                  | Some v => if is_empty (trim v) then Throw ("missing env var: " +:+ envKey)%string
                              else parse_args env rest (set_value k_requiredToken v config)
                  | None => Throw ("missing env var: " +:+ envKey)%string
                  end
              | _ => Throw ("missing " +:+ arg)%string
              end
            else Throw ("unknown arg: " +:+ arg)%string
        end
  end.

Definition parseArgs (env : environment) (argv : list string) : result string CliConfig :=
  parse_args env argv empty_config.

(** ** Numbers *)

Definition invalid_integer {A} (value : string) : result string A := Throw ("invalid integer value: " +:+ value)%string.

Definition parsePositiveIntArg (value : string) (fallback : num) : result string num :=
  if is_empty value then Ok fallback
  else
    let trimmed := trim value in
    if negb (integer_text trimmed) then invalid_integer value
    else
      let parsed := parse_int trimmed in
      if negb (is_finite parsed) || negb (num_gt_Z parsed 0) then invalid_integer value else Ok parsed.

(** For a string, which is all that it is given. *)
Definition parseNonNegativeIntArg (value : string) (fallback : num) : result string num :=
  if is_empty value then Ok fallback
  else
    let trimmed := trim value in
    if negb (integer_text trimmed) then invalid_integer value
    else
      let parsed := parse_int trimmed in
      if negb (is_finite parsed) || num_lt_Z parsed 0 then invalid_integer value else Ok parsed.

(** ** [main] *)

(** The object [main] hands to [normalizeRelayOptions]. *)
Definition merge (args : CliConfig) (env : Env.ParsedEnv) : result string Env.ParsedEnv :=
  (let text k fallback := or_else (value_of args k) fallback in
   let! port := parsePositiveIntArg (value_of args k_listenPort) (Env.listenPort env) in
   let! maxConnections := parsePositiveIntArg (value_of args k_maxConnections) (Env.maxConnections env) in
   let! idle := parsePositiveIntArg (value_of args k_idleTimeoutMs) (Env.idleTimeoutMs env) in
   let! shutdown := parsePositiveIntArg (value_of args k_shutdownTimeoutMs) (Env.shutdownTimeoutMs env) in
   let! watch := if is_empty (value_of args k_upstreamTlsWatchIntervalMs) then Ok (Env.upstreamTlsWatchIntervalMs env)
                 else parseNonNegativeIntArg (value_of args k_upstreamTlsWatchIntervalMs) (Env.upstreamTlsWatchIntervalMs env) in
   Ok {|
     Env.listenHost := text k_listenHost (Env.listenHost env);
     Env.listenPort := port;
     Env.relayPath := text k_relayPath (Env.relayPath env);
     Env.healthPath := text k_healthPath (Env.healthPath env);
     Env.upstreamUrl := text k_upstreamUrl (Env.upstreamUrl env);
     Env.upstreamTlsRejectUnauthorized := text k_upstreamTlsRejectUnauthorized (Env.upstreamTlsRejectUnauthorized env);
     Env.upstreamTlsCaFile := text k_upstreamTlsCaFile (Env.upstreamTlsCaFile env);
     Env.upstreamTlsCertFile := text k_upstreamTlsCertFile (Env.upstreamTlsCertFile env);
     Env.upstreamTlsKeyFile := text k_upstreamTlsKeyFile (Env.upstreamTlsKeyFile env);
     Env.upstreamTlsPfxFile := text k_upstreamTlsPfxFile (Env.upstreamTlsPfxFile env);
     Env.upstreamTlsPassphrase := text k_upstreamTlsPassphrase (Env.upstreamTlsPassphrase env);
     Env.upstreamTlsServername := text k_upstreamTlsServername (Env.upstreamTlsServername env);
     Env.upstreamTlsMinVersion := text k_upstreamTlsMinVersion (Env.upstreamTlsMinVersion env);
     Env.upstreamTlsMaxVersion := text k_upstreamTlsMaxVersion (Env.upstreamTlsMaxVersion env);
     Env.upstreamTlsWatchIntervalMs := watch;
     Env.upstreamTlsRestartOnChange := text k_upstreamTlsRestartOnChange (Env.upstreamTlsRestartOnChange env);
     Env.maxConnections := maxConnections;
     Env.idleTimeoutMs := idle;
     Env.shutdownTimeoutMs := shutdown;
     Env.requiredToken := text k_requiredToken (Env.requiredToken env);
     Env.allowedOrigins := text k_allowedOrigins (Env.allowedOrigins env);
     Env.upstreamSubprotocols := text k_upstreamSubprotocols (Env.upstreamSubprotocols env)
   |})%js.

Section Main.
Context {B : Type} (readFileSync : string -> result string B) (URL : string -> result string (string * string)).

(** [None]: the usage is printed; otherwise the options the relay is created with. *)
Definition main (env : environment) (argv : list string) : result string (option (RelayProxyOptions (B := B))) :=
  (let! args := parseArgs env argv in
   if cli_help args then Ok None
   else
     let! values := merge args (parseRelayProxyEnv env) in
     let! o := normalizeRelayOptions readFileSync URL (inl values) in
     Ok (Some o))%js.

(** With what the server makes of them. *)
Definition start (env : environment) (argv : list string) : result string (option (RuntimeOptions (B := B))) :=
  (let! o := main env argv in
   match o with
   | None => Ok None
   | Some o => let! r := normalizeRuntimeOptions readFileSync URL o in Ok (Some r)
   end)%js.
End Main.

(** [stop]: the exit code, when closing succeeds or fails. *)
Definition stop_code (closed : bool) (reason : string) : Z :=
  if closed then (if String.eqb reason "SIGINT" then 130 else 0) else 1.

(** ** Reading the arguments *)

Lemma parse_args_app env a b c c' : parse_args env a c = Ok c' -> cli_help c' = false ->
  parse_args env (a ++ b) c = parse_args env b c'.
Proof.
  intros H Hh. revert c H. induction (Nat.lt_wf_0_projected (@length string) a) as [a _ IH]. intros c.
  destruct a as [|arg rest]; cbn [parse_args app]; [by intros [= <-]|].
  destruct (_ || _); [by intros [= <-]|]. destruct (jm_get arg flags) as [k|].
  - destruct rest as [|[|x next] rest]; [done|done|]. cbn [app]. apply IH. simpl; lia.
  - destruct (String.eqb arg "--token-from-env"); [|done].
    destruct rest as [|[|x next] rest]; [done|done|]. cbn [app]. cbv zeta.
    destruct (env _) as [v|]; [|done]. destruct (is_empty (trim v)); [done|]. apply IH. simpl; lia.
Qed.

Definition flag_of (k : cli_key) : string :=
  match k with
  | k_listenHost => "--host" | k_listenPort => "--port" | k_relayPath => "--relay-path" | k_healthPath => "--health-path"
  | k_upstreamUrl => "--upstream" | k_maxConnections => "--max-connections" | k_idleTimeoutMs => "--idle-timeout-ms"
  | k_shutdownTimeoutMs => "--shutdown-timeout-ms" | k_requiredToken => "--token" | k_allowedOrigins => "--allowed-origins"
  | k_upstreamSubprotocols => "--upstream-subprotocols"
  | k_upstreamTlsRejectUnauthorized => "--upstream-tls-reject-unauthorized"
  | k_upstreamTlsCaFile => "--upstream-tls-ca-file" | k_upstreamTlsCertFile => "--upstream-tls-cert-file"
  | k_upstreamTlsKeyFile => "--upstream-tls-key-file" | k_upstreamTlsPfxFile => "--upstream-tls-pfx-file"
  | k_upstreamTlsPassphrase => "--upstream-tls-passphrase" | k_upstreamTlsServername => "--upstream-tls-servername"
  | k_upstreamTlsMinVersion => "--upstream-tls-min-version" | k_upstreamTlsMaxVersion => "--upstream-tls-max-version"
  | k_upstreamTlsWatchIntervalMs => "--upstream-tls-watch-interval-ms"
  | k_upstreamTlsRestartOnChange => "--upstream-tls-restart-on-change"
  end.

Lemma parse_flag env k v rest c : v <> EmptyString ->
  parse_args env (flag_of k :: v :: rest) c = parse_args env rest (set_value k v c).
Proof. intros Hv. destruct v as [|x v]; [done|]. by destruct k. Qed.

(** Arguments written out: the parser gives every field the last value written for it,
    whatever the value is, and the empty text where none is written; the help flag ends
    the reading. *)
Theorem cli_arguments_roundtrip env (given : list (cli_key * string)) :
  Forall (fun p => p.2 <> EmptyString) given ->
  let argv := concat ((fun p => [flag_of p.1; p.2]) <$> given) in
  exists c, parseArgs env argv = Ok c /\ cli_help c = false /\
    (forall k, value_of c k = default EmptyString (snd <$> List.last (Some <$> filter (fun p => p.1 = k) given) None)) /\
    forall rest, parseArgs env (argv ++ "--help"%string :: rest) = Ok (MkCli (value_of c) true).
Proof.
  cbv zeta. intros Hg. unfold parseArgs.
  assert (H : forall c, cli_help c = false -> exists c', parse_args env (concat ((fun p => [flag_of p.1; p.2]) <$> given)) c = Ok c' /\
    cli_help c' = false /\ forall k, value_of c' k =
      match List.last (Some <$> filter (fun p => p.1 = k) given) None with Some p => p.2 | None => value_of c k end).
  { induction Hg as [|[k v] given Hv _ IH]; intros c Hc; [by exists c|]. cbn [fmap list_fmap concat app fst snd].
    rewrite parse_flag by done. destruct (IH (set_value k v c)) as (c' & Hp & Hh & Hval); [done|]. exists c'.
    split; [done|]. split; [done|]. intros k'. rewrite Hval, filter_cons. cbn [fst].
    destruct (decide (k = k')) as [->|Hk].
    - destruct (filter (fun p : cli_key * string => p.1 = k') given) as [|p l] eqn:Hf.
      + cbn. by rewrite decide_True.
      + change (List.last (Some <$> (k', v) :: p :: l) None) with (List.last (Some <$> p :: l) None).
        destruct (List.last (Some <$> p :: l) None) eqn:Hl; [done|]. exfalso. clear -Hl.
        revert p Hl. induction l as [|q l IHl]; intros p Hl; [done|]. exact (IHl q Hl).
    - destruct (List.last (Some <$> filter (fun p : cli_key * string => p.1 = k') given) None); [done|].
      unfold set_value. cbn [value_of]. by rewrite decide_False. }
  destruct (H empty_config eq_refl) as (c & Hp & Hh & Hval). exists c. split; [done|]. split; [done|]. split.
  - intros k. rewrite Hval. by destruct (List.last _ _).
  - intros rest. by rewrite (parse_args_app _ _ _ _ _ Hp Hh).
Qed.

(** ** What the relay starts with *)

(** With no arguments the environment decides alone. *)
Lemma merge_empty env : merge empty_config env = Ok env.
Proof. by destruct env. Qed.

Lemma positive_arg value z n : 1 <= z -> parsePositiveIntArg value (num_of_Z z) = Ok n ->
  exists m, n = num_of_Z m /\ 1 <= m.
Proof.
  intros Hz. unfold parsePositiveIntArg, invalid_integer. destruct (is_empty value); [intros [= <-]; by exists z|].
  destruct (negb (integer_text _)); [done|]. destruct (is_finite (parse_int (trim value))) eqn:Hf; [|done].
  destruct (parse_int_finite _ Hf) as [m Hm]. rewrite Hm, num_gt_Z_int. cbn [negb orb].
  destruct (Z.ltb_spec 0 m); [|done]. intros [= <-]. exists m. split; [done|lia].
Qed.

(** What [merge] makes of numbers that are positive integers in the environment. *)
Lemma merge_numbers args env v : merge args (parseRelayProxyEnv env) = Ok v ->
  (exists p, Env.listenPort v = num_of_Z p /\ 1 <= p) /\ (exists p, Env.maxConnections v = num_of_Z p /\ 1 <= p) /\
  (exists p, Env.idleTimeoutMs v = num_of_Z p /\ 1 <= p) /\ (exists p, Env.shutdownTimeoutMs v = num_of_Z p /\ 1 <= p).
Proof.
  unfold merge. cbv zeta. intros H.
  destruct (parseBoundedInteger_bounds (env "COMMANDRELAY_RELAY_LISTEN_PORT") 8788 1 65535) as (p1 & E1 & ?); [lia|].
  destruct (parseBoundedInteger_bounds (env "COMMANDRELAY_RELAY_MAX_CONNECTIONS") 128 1 10000) as (p2 & E2 & ?); [lia|].
  destruct (parseBoundedInteger_bounds (env "COMMANDRELAY_RELAY_IDLE_TIMEOUT_MS") 120000 1000 600000) as (p3 & E3 & ?); [lia|].
  destruct (parseBoundedInteger_bounds (env "COMMANDRELAY_RELAY_SHUTDOWN_TIMEOUT_MS") 10000 1000 60000) as (p4 & E4 & ?); [lia|].
  change (Env.listenPort (parseRelayProxyEnv env)) with (parseBoundedInteger (env "COMMANDRELAY_RELAY_LISTEN_PORT"%string) (num_of_Z 8788) 1 65535) in H.
  change (Env.maxConnections (parseRelayProxyEnv env)) with (parseBoundedInteger (env "COMMANDRELAY_RELAY_MAX_CONNECTIONS"%string) (num_of_Z 128) 1 10000) in H.
  change (Env.idleTimeoutMs (parseRelayProxyEnv env)) with (parseBoundedInteger (env "COMMANDRELAY_RELAY_IDLE_TIMEOUT_MS"%string) (num_of_Z 120000) 1000 600000) in H.
  change (Env.shutdownTimeoutMs (parseRelayProxyEnv env)) with (parseBoundedInteger (env "COMMANDRELAY_RELAY_SHUTDOWN_TIMEOUT_MS"%string) (num_of_Z 10000) 1000 60000) in H.
  rewrite E1, E2, E3, E4 in H.
  apply rbind_Ok in H as (n1 & M1 & H). apply rbind_Ok in H as (n2 & M2 & H). apply rbind_Ok in H as (n3 & M3 & H).
  apply rbind_Ok in H as (n4 & M4 & H). apply rbind_Ok in H as (n5 & _ & H). injection H as <-.
  split_and!; cbn; eapply positive_arg; try eassumption; lia.
Qed.

Section Started.
Context {B : Type} (readFileSync : string -> result string B) (URL : string -> result string (string * string)).

Lemma start_inv env argv (r : RuntimeOptions (B := B)) : start readFileSync URL env argv = Ok (Some r) ->
  exists args v o, parseArgs env argv = Ok args /\ cli_help args = false /\ merge args (parseRelayProxyEnv env) = Ok v /\
    normalizeRelayOptions readFileSync URL (inl v) = Ok o /\ normalizeRuntimeOptions readFileSync URL o = Ok r.
Proof.
  unfold start, main. intros (o & Hm & Hr)%rbind_Ok. apply rbind_Ok in Hm as (args & Ha & Hm).
  destruct (cli_help args) eqn:Hh; [injection Hm as <-; done|].
  apply rbind_Ok in Hm as (v & Hv & Hm). apply rbind_Ok in Hm as (o' & Ho & [= <-]).
  apply rbind_Ok in Hr as (r' & Hr & [= <-]). by exists args, v, o'.
Qed.

(** A relay started from the command line: its port and limits are positive integers, its
    time-outs at least a second, its TLS options consistent and its paths absolute; and
    in every state it can reach, sessions and upgrades in flight together stay within
    the limit it was started with. *)
Theorem started_relay_bounded {D} (getByteLength : D -> Z) URL_pathname sha256 env argv (r : RuntimeOptions (B := B)) s :
  (forall d, 0 <= getByteLength d) -> start readFileSync URL env argv = Ok (Some r) ->
  relay_reachable getByteLength URL_pathname sha256 (session_options r) s ->
  (exists port idle shut, r_listenPort r = num_of_Z port /\ 1 <= port /\ r_idleTimeoutMs r = num_of_Z idle /\ 1000 <= idle /\
     r_shutdownTimeoutMs r = num_of_Z shut /\ 1000 <= shut) /\
  tls_ok (r_upstreamTls r) /\ starts_with "/" (r_relayPath r) = true /\ starts_with "/" (r_healthPath r) = true /\
  exists conns, r_maxConnections r = num_of_Z conns /\ 1 <= conns /\
    Z.of_nat (length (sessions (rel s))) + inFlightUpgrades (rel s) <= conns.
Proof.
  intros Hb Hstart Hs. destruct (start_inv _ _ _ Hstart) as (args & v & o & _ & _ & Hv & Ho & Hr).
  destruct (merge_numbers _ _ _ Hv) as ((p & Hp & ?) & (c & Hc & ?) & (i & Hi & ?) & (sh & Hsh & ?)).
  destruct (normalizeRelayOptions_env _ _ _ _ Ho) as (_ & (tls & Htls & Hok & _) & _ & _ & Hport & Hconn & Hidle & Hshut & _).
  pose proof Hr as Hr'. unfold normalizeRuntimeOptions in Hr'. rewrite Hport, Hconn, Hidle, Hshut, Hp, Hc, Hi, Hsh, Htls in Hr'.
  apply rbind_Ok in Hr' as (u & _ & Hr'). apply rbind_Ok in Hr' as (t & Ht & Hr'). apply rbind_Ok in Hr' as (b & _ & Hr').
  rewrite !num_max_floor in Hr'. apply (inj Ok) in Hr'. cbn [normalizeUpstreamTls] in Ht. rewrite (proj2 (validate_cases tls)) in Ht by done. injection Ht as <-.
  subst r. cbn. split; [eexists _, _, _; split_and!; try done; lia|].
  split; [done|]. split; [by apply normalizePath_slash|]. split; [by apply normalizePath_slash|].
  eexists. split; [done|]. split; [lia|].
  eapply Z.le_trans; [eapply system_reachable; [done| |exact Hs]; unfold session_options; cbn; rewrite num_to_Z_int; cbn; lia|].
  unfold session_options. cbn. rewrite num_to_Z_int. cbn. lia.
Qed.
(** ** Limits of the command line *)

Lemma digit_char d : is_digit d = true -> is_space d = false /\ is_num d = true /\ Ascii.eqb d "-" = false.
Proof. destruct d as [[] [] [] [] [] [] [] []]; vm_compute; intros H; split_and!; congruence. Qed.

Lemma int_text n : 1 <= n -> trim (int_to_string n) = int_to_string n /\ integer_text (int_to_string n) = true /\
  is_empty (int_to_string n) = false.
Proof.
  intros Hn. pose proof (int_to_string_digits n ltac:(lia)) as Hd. destruct (int_to_string_head n) as (c & r & d & Hs & _); [lia|].
  split_and!.
  - apply trim_nospace. eapply str_forallb_impl; [|exact Hd]. intros x Hx%digit_char. by rewrite (proj1 Hx).
  - rewrite Hs in *. unfold integer_text. simpl in Hd. apply andb_true_iff in Hd as [Hc Hr].
    destruct (digit_char _ Hc) as (_ & Hn1 & ->). simpl. rewrite Hn1. eapply str_forallb_impl; [|exact Hr].
    by intros x (_ & ? & _)%digit_char.
  - by rewrite Hs.
Qed.

Lemma positive_arg_text n fallback : 1 <= n <= max_safe_integer -> parsePositiveIntArg (int_to_string n) fallback = Ok (num_of_Z n).
Proof.
  intros Hn. destruct (int_text n ltac:(lia)) as (Ht & Hi & He). unfold parsePositiveIntArg.
  rewrite He, Ht, Hi, parse_int_to_string, num_gt_Z_int by lia. cbn [negb is_finite orb].
  by rewrite (proj2 (Z.ltb_lt 0 n)) by lia.
Qed.

Definition with_port (n : num) (v : Env.ParsedEnv) : Env.ParsedEnv :=
  let '(Env.Parsed a _ c d e f g h i j k l m o p q r s t u w x) := v in Env.Parsed a n c d e f g h i j k l m o p q r s t u w x.

Lemma merge_port args env v n : 1 <= n <= max_safe_integer -> merge args env = Ok v ->
  merge (set_value k_listenPort (int_to_string n) args) env = Ok (with_port (num_of_Z n) v).
Proof.
  intros Hn. unfold merge. cbv zeta. intros H. apply rbind_Ok in H as (n1 & _ & H).
  apply rbind_Ok in H as (n2 & M2 & H). apply rbind_Ok in H as (n3 & M3 & H). apply rbind_Ok in H as (n4 & M4 & H).
  apply rbind_Ok in H as (n5 & M5 & H). apply (inj Ok) in H. subst v.
  change (value_of (set_value k_listenPort (int_to_string n) args) k_listenPort) with (int_to_string n).
  rewrite positive_arg_text by done. cbn [rbind].
  change (value_of (set_value k_listenPort (int_to_string n) args) k_maxConnections) with (value_of args k_maxConnections).
  change (value_of (set_value k_listenPort (int_to_string n) args) k_idleTimeoutMs) with (value_of args k_idleTimeoutMs).
  change (value_of (set_value k_listenPort (int_to_string n) args) k_shutdownTimeoutMs) with (value_of args k_shutdownTimeoutMs).
  change (value_of (set_value k_listenPort (int_to_string n) args) k_upstreamTlsWatchIntervalMs) with (value_of args k_upstreamTlsWatchIntervalMs).
  rewrite M2, M3, M4, M5. reflexivity.
Qed.

Lemma normalize_port v o n : normalizeRelayOptions readFileSync URL (inl v) = Ok o ->
  exists o', normalizeRelayOptions readFileSync URL (inl (with_port n v)) = Ok o' /\ o_listenPort o' = n /\
    o_upstreamUrl o' = o_upstreamUrl o /\ o_upstreamTls o' = o_upstreamTls o /\
    o_upstreamTlsRestartOnChange o' = o_upstreamTlsRestartOnChange o.
Proof.
  destruct v. unfold normalizeRelayOptions. cbn. intros (u & Hu & (tls & Ht & (r & Hr & [= <-])%rbind_Ok)%rbind_Ok)%rbind_Ok.
  rewrite Hu. cbn. unfold normalizeUpstreamTls in *. cbn in Ht |- *. rewrite Ht. cbn. rewrite Hr. cbn. by eexists.
Qed.

(** Where the environment falls back to the default for a port that is none, the command
    line takes any positive integer: a command line that starts the relay still starts
    it with a port of 70000 written behind it. *)
Theorem cli_port_unchecked env argv (r : RuntimeOptions (B := B)) n : start readFileSync URL env argv = Ok (Some r) ->
  1 <= n <= max_safe_integer ->
  exists r', start readFileSync URL env (argv ++ ["--port"%string; int_to_string n]) = Ok (Some r') /\
    r_listenPort r' = num_of_Z n.
Proof.
  intros Hstart Hn. destruct (start_inv _ _ _ Hstart) as (args & v & o & Hargs & Hh & Hv & Ho & Hr).
  destruct (normalize_port v o (num_of_Z n) Ho) as (o' & Ho' & Hport & Hurl & Htls & Hre).
  destruct (int_text n ltac:(lia)) as (_ & _ & He).
  unfold start, main, parseArgs in *. rewrite (parse_args_app _ _ _ _ _ Hargs Hh).
  change "--port"%string with (flag_of k_listenPort). rewrite parse_flag by (intros E; by rewrite E in He).
  cbn [parse_args rbind]. change (cli_help (set_value k_listenPort (int_to_string n) args)) with (cli_help args). rewrite Hh.
  rewrite (merge_port _ _ _ _ Hn Hv). cbn [rbind]. rewrite Ho'. cbn [rbind].
  unfold normalizeRuntimeOptions in *. rewrite Hurl, Htls, Hre. 
  apply rbind_Ok in Hr as (u & -> & Hr). cbn [rbind]. apply rbind_Ok in Hr as (t & -> & Hr). cbn [rbind].
  apply rbind_Ok in Hr as (b & -> & _). cbn [rbind]. eexists. split; [reflexivity|]. cbn [r_listenPort]. rewrite Hport, num_max_floor.
  f_equal. lia.
Qed.
End Started.

(** ** Concrete inputs *)

Definition demo_argv : list string :=
  ["--upstream-tls-min-version"; "TLSv1.2"; "--upstream-tls-max-version"; "TLSv1.3"; "--max-connections"; "3"]%string.

Lemma cli_arguments_roundtrip_witness :
  exists c, parseArgs (fun _ => None) ["--host"; "a"; "--port"; "1"; "--host"; "--help"]%string = Ok c /\
    value_of c k_listenHost = "--help"%string.
Proof.
  destruct (cli_arguments_roundtrip (fun _ => None) [(k_listenHost, "a"); (k_listenPort, "1"); (k_listenHost, "--help")]%string)
    as (c & Hp & _ & Hv & _); [by repeat constructor|].
  exists c. split; [exact Hp|]. by rewrite Hv.
Defined.

Lemma started_relay_bounded_witness :
  exists r, start demo_file demo_URL (fun _ => None) demo_argv = Ok (Some r) /\ r_maxConnections r = num_of_Z 3.
Proof.
  destruct (start demo_file demo_URL (fun _ => None) demo_argv) as [[r|]|] eqn:Hs; [|by vm_compute in Hs..].
  exists r. split; [done|].
  destruct (started_relay_bounded demo_file demo_URL (fun s : string => str_len s) Some (fun s => s) (fun _ => None) demo_argv r (RelaySystem [] [] init_relay))
    as (_ & _ & _ & _ & c & Hc & _ & _); [intros d; unfold str_len; lia|exact Hs|apply relay_init|].
  clear Hc. assert (Hm : match start demo_file demo_URL (fun _ => None) demo_argv with
                         | Ok (Some r) => Some (r_maxConnections r) | _ => None end = Some (num_of_Z 3)) by (by vm_compute).
  rewrite Hs in Hm. by injection Hm.
Defined.

Lemma cli_port_unchecked_witness :
  exists r, start demo_file demo_URL (fun _ => None) (demo_argv ++ ["--port"; "70000"]%string) = Ok (Some r) /\ r_listenPort r = num_of_Z 70000.
Proof.
  destruct (start demo_file demo_URL (fun _ => None) demo_argv) as [[r|]|] eqn:Hs; [|by vm_compute in Hs..].
  apply (cli_port_unchecked demo_file demo_URL (fun _ => None) demo_argv r 70000 Hs). by vm_compute.
Defined.
