(* ===== verification/Lockstep.v ===== *)
(** * Versions in lockstep ([scripts/release/check-proxy-lockstep-versions.ts])

    Which packages are compared, their versions, the specifiers of the dependencies
    between them, and the exit code.  Manifests are values ([None]: there is no file,
    [Throw]: it is not JSON); [localeCompare] and [String] are parameters. *)

From S2P Require Import Prelude JsMap.
Local Open Scope Z_scope.

Record ProxyPackage : Type := Package { packageDir : string; packageName : string; version : string }.

Inductive dependency_field : Type := dependencies | devDependencies | peerDependencies | optionalDependencies.

Record ProxyDependencyEdge : Type := Edge {
  e_packageName : string;
  e_packageDir : string;
  dependencyName : string;
  dependencyVersion : string;
  dependencyField : dependency_field
}.

Definition field_text (f : dependency_field) : string :=
  match f with
  | dependencies => "dependencies" | devDependencies => "devDependencies"
  | peerDependencies => "peerDependencies" | optionalDependencies => "optionalDependencies"
  end.

Definition dependencyFields : list dependency_field := [dependencies; devDependencies; peerDependencies; optionalDependencies].

(** [PACKAGE_NAME_PATTERNS]. *)
Definition is_lower_alnum (c : ascii) : bool :=
  let n := code c in ((97 <=? n) && (n <=? 122) || (48 <=? n) && (n <=? 57))%N.
Definition proxy_prefix : string := "@commandrelay/proxy-".
Definition matches_name (name : string) : bool :=
  (starts_with proxy_prefix name &&
   match str_drop (String.length proxy_prefix) name with
   | String c r => is_lower_alnum c && str_forallb (fun d => is_lower_alnum d || Ascii.eqb d "-") r
   | EmptyString => false
   end) || String.eqb name "@commandrelay/relay-proxy".

(** A directory of [packages/] with its manifest. *)
Definition entry : Type := string * option (result string jsval).

Section Check_.
Context (localeCompare : string -> string -> Z) (to_text : jsval -> string).

(** One directory in [readProxyPackages]: a manifest that is not JSON, or is [null], throws. *)
Definition read_package (e : entry) : result string (option ProxyPackage) :=
  match e.2 with
  | None => Ok None
  | Some (Throw err) => Throw err
  | Some (Ok JNull) => Throw "Cannot read properties of null (reading 'name')"%string
  | Some (Ok (JObj fields)) =>
      match field "name" fields, field "version" fields with
      | JStr name, JStr v => Ok (if matches_name name then Some (Package e.1 name v) else None)
      | _, _ => Ok None
      end
  | Some (Ok _) => Ok None
  end.

Fixpoint read_packages (l : list entry) : result string (list ProxyPackage) :=
  match l with
  | [] => Ok []
  | e :: l => rbind (read_package e) (fun p => rbind (read_packages l) (fun rest =>
              Ok match p with Some p => p :: rest | None => rest end))
  end.

(** [readProxyPackages], on the directories as [readdirSync] lists them. *)
Definition readProxyPackages (entries : list entry) : result string (list ProxyPackage) :=
  read_packages (js_sort (fun a b => localeCompare a.1 b.1) entries).

Definition isAlignedDependencySpecifier (specifier alignedVersion : string) : bool :=
  if String.eqb specifier "workspace:*" then true
  else if starts_with "workspace:" specifier then
    let w := str_drop (String.length "workspace:") specifier in
    String.eqb w "*" || String.eqb w alignedVersion || String.eqb w ("^" +:+ alignedVersion) || String.eqb w ("~" +:+ alignedVersion)
  else
    String.eqb specifier alignedVersion || String.eqb specifier ("^" +:+ alignedVersion) ||
    String.eqb specifier ("~" +:+ alignedVersion) || String.eqb specifier ("=" +:+ alignedVersion).

(** [readProxyPackageJson] of a package: its manifest, read again. *)
Definition manifest_of (entries : list entry) (pkg : ProxyPackage) : list (string * jsval) :=
  match jm_get (packageDir pkg) entries with
  | Some (Some (Ok (JObj fields))) => fields
  | _ => []
  end.

(** One dependency: the violation it is, if any. *)
Definition violation (known : list string) (alignedVersion : string) (pkg : ProxyPackage) (f : dependency_field)
    (name : string) (v : jsval) : option ProxyDependencyEdge :=
  if negb (starts_with "@commandrelay/" name) then None
  else
    match v with
    | JStr s =>
        if negb (js_has name known) then None
        else if isAlignedDependencySpecifier s alignedVersion then None
        else Some (Edge (packageName pkg) (packageDir pkg) name s f)
    | v => Some (Edge (packageName pkg) (packageDir pkg) name (to_text v) f)
    end.

(** [seenEdges] holds the name of the package, the dependency, the field and the
    specifier, or that it is no text; the names have no bars, which separate them in the
    code, and no specifier reads non-string. *)
Definition edge_key : Type := string * string * dependency_field * option string.
#[local] Instance dependency_field_eq_dec : EqDecision dependency_field.
Proof. solve_decision. Defined.

Definition key_of (pkg : ProxyPackage) (f : dependency_field) (name : string) (v : jsval) : edge_key :=
  (packageName pkg, name, f, match v with JStr s => Some s | _ => None end).

Definition scan_one (known : list string) (alignedVersion : string) (pkg : ProxyPackage) (f : dependency_field)
    (acc : list edge_key * list ProxyDependencyEdge) (d : string * jsval) : list edge_key * list ProxyDependencyEdge :=
  match violation known alignedVersion pkg f d.1 d.2 with
  | None => acc
  | Some e =>
      let k := key_of pkg f d.1 d.2 in
      if js_has k acc.1 then acc else (acc.1 ++ [k], acc.2 ++ [e])
  end.

Definition fields_of (manifest : list (string * jsval)) (f : dependency_field) : list (string * jsval) :=
  match field (field_text f) manifest with JObj l => l | _ => [] end.

Definition scan_package (entries : list entry) (known : list string) (alignedVersion : string)
    (acc : list edge_key * list ProxyDependencyEdge) (pkg : ProxyPackage) : list edge_key * list ProxyDependencyEdge :=
  foldl (fun acc f => foldl (scan_one known alignedVersion pkg f) acc (fields_of (manifest_of entries pkg) f)) acc dependencyFields.

Definition scanDependencyEdges (entries : list entry) (packages : list ProxyPackage) (alignedVersion : string) : list ProxyDependencyEdge :=
  (foldl (scan_package entries (packageName <$> packages) alignedVersion) ([], []) packages).2.

Inductive verdict : Type :=
| Help
| UnknownArguments
| Failed (message : string)
| NoPackages
| Drift (buckets : list (string * list string))
| Violations (l : list ProxyDependencyEdge)
| Pass (alignedVersion : string) (count : nat).

(** [printDriftByVersion]: the names by version, both sorted. *)
Definition add_to_bucket (m : list (string * list string)) (pkg : ProxyPackage) : list (string * list string) :=
  jm_set (version pkg) (default [] (jm_get (version pkg) m) ++ [packageName pkg]) m.
Definition drift_buckets (packages : list ProxyPackage) : list (string * list string) :=
  (fun b => (b.1, js_sort localeCompare b.2)) <$>
    js_sort (fun a b => localeCompare a.1 b.1) (foldl add_to_bucket [] packages).

Definition main (argv : list string) (entries : list entry) : verdict :=
  if js_has "--help"%string argv || js_has "-h"%string argv then Help
  else
    match argv with
    | _ :: _ => UnknownArguments
    | [] =>
        match readProxyPackages entries with
        | Throw e => Failed e
        | Ok [] => NoPackages
        | Ok packages =>
            match foldl (fun s p => js_add (version p) s) [] packages with
            | [alignedVersion] =>
                match scanDependencyEdges entries packages alignedVersion with
                | [] => Pass alignedVersion (length packages)
                | violations => Violations violations
                end
            | _ => Drift (drift_buckets packages)
            end
        end
    end.

Definition exit_code (v : verdict) : Z := match v with Help | Pass _ _ => 0 | _ => 1 end.
End Check_.

(** ** What passes *)

Section Facts.
Context (localeCompare : string -> string -> Z) (to_text : jsval -> string).

(** A fold that is empty exactly when nothing was added. *)
Lemma foldl_empty {A B} (empty : B -> Prop) (P : A -> Prop) (g : B -> A -> B) l acc :
  (forall acc x, empty (g acc x) <-> empty acc /\ P x) -> empty (foldl g acc l) <-> empty acc /\ Forall P l.
Proof.
  intros Hg. revert acc. induction l as [|x l IH]; intros acc; cbn [foldl].
  - split; [by intros ?|by intros [? _]].
  - rewrite IH, Hg, Forall_cons. tauto.
Qed.

Definition untouched (acc : list edge_key * list ProxyDependencyEdge) : Prop := acc = ([], []).

Lemma scan_one_empty known v pkg f acc d :
  untouched (scan_one to_text known v pkg f acc d) <-> untouched acc /\ violation to_text known v pkg f d.1 d.2 = None.
Proof.
  unfold scan_one, untouched. destruct (violation to_text known v pkg f d.1 d.2) as [e|]; [|tauto].
  destruct (js_has _ _) eqn:Hk; [|split; [intros [= H _]; by destruct acc.1|by intros [_ ?]]].
  split; [|by intros [_ ?]]. intros ->. by apply js_has_spec, elem_of_nil in Hk.
Qed.

Lemma scan_package_empty entries known v acc pkg : untouched (scan_package to_text entries known v acc pkg) <->
  untouched acc /\ forall f, Forall (fun d => violation to_text known v pkg f d.1 d.2 = None) (fields_of (manifest_of entries pkg) f).
Proof.
  unfold scan_package. rewrite (foldl_empty untouched (fun f => Forall (fun d => violation to_text known v pkg f d.1 d.2 = None)
    (fields_of (manifest_of entries pkg) f))).
  - assert (Hall : Forall (fun f => Forall (fun d => violation to_text known v pkg f d.1 d.2 = None) (fields_of (manifest_of entries pkg) f)) dependencyFields <->
      forall f, Forall (fun d => violation to_text known v pkg f d.1 d.2 = None) (fields_of (manifest_of entries pkg) f)).
    { split; [|intros H; by repeat constructor]. intros H f. apply (proj1 (Forall_forall _ _) H). destruct f; unfold dependencyFields; set_solver. }
    by rewrite Hall.
  - intros acc1 f. apply foldl_empty. intros acc2 d. apply scan_one_empty.
Qed.

(** Keys and violations are added together. *)
Definition balanced (acc : list edge_key * list ProxyDependencyEdge) : Prop := length acc.1 = length acc.2.

Lemma foldl_balanced {A} (g : _ -> A -> list edge_key * list ProxyDependencyEdge) l acc :
  (forall acc x, balanced acc -> balanced (g acc x)) -> balanced acc -> balanced (foldl g acc l).
Proof. intros Hg. revert acc. induction l as [|x l IH]; intros acc Ha; [done|]. cbn [foldl]. by apply IH, Hg. Qed.

Lemma scan_balanced entries known v packages acc : balanced acc -> balanced (foldl (scan_package to_text entries known v) acc packages).
Proof.
  apply foldl_balanced. intros acc1 pkg. apply foldl_balanced. intros acc2 f. apply foldl_balanced.
  intros [a b] d Ha. unfold scan_one, balanced in *. destruct (violation _ _ _ _ _ _ _); [|done]. destruct (js_has _ _); [done|].
  cbn [fst snd] in *. rewrite !length_app. simpl. lia.
Qed.

Lemma scan_nil entries packages v : scanDependencyEdges to_text entries packages v = [] <->
  Forall (fun pkg => forall f, Forall (fun d => violation to_text (packageName <$> packages) v pkg f d.1 d.2 = None)
    (fields_of (manifest_of entries pkg) f)) packages.
Proof.
  unfold scanDependencyEdges. set (r := foldl _ _ packages).
  assert (Hr : r.2 = [] <-> untouched r).
  { assert (Hl : balanced r) by by apply scan_balanced.
    unfold untouched, balanced in *. destruct r as [a b]. cbn [fst snd] in *. split; [intros ->; by destruct a|by intros [= _ ->]]. }
  rewrite Hr. unfold r. rewrite (foldl_empty untouched _ _ packages ([], []) (scan_package_empty entries (packageName <$> packages) v)).
  unfold untouched. tauto.
Qed.

Lemma versions_one packages v : foldl (fun s p => js_add (version p) s) [] packages = [v] <->
  packages <> [] /\ Forall (fun p => version p = v) packages.
Proof.
  assert (Hin : forall l acc x, x ∈ acc -> x ∈ foldl (fun s p => js_add (version p) s) acc l).
  { induction l as [|p l IH]; intros acc x Hx; [done|]. cbn [foldl]. apply IH. apply elem_of_js_add. by right. }
  assert (Hall : forall l acc p, p ∈ l -> version p ∈ foldl (fun s p => js_add (version p) s) acc l).
  { induction l as [|q l IH]; intros acc p; [by intros ?%elem_of_nil|]. intros [->|Hp]%elem_of_cons; cbn [foldl]; [|by apply IH].
    apply Hin, elem_of_js_add. by left. }
  split.
  - intros H. split; [by intros ->|]. apply Forall_forall. intros p Hp. apply (Hall packages [] p) in Hp. rewrite H in Hp.
    by apply list_elem_of_singleton in Hp.
  - intros [Hne HF]. destruct packages as [|p packages]; [done|]. apply Forall_cons in HF as [<- HF]. cbn [foldl].
    change (js_add (version p) []) with [version p]. clear Hne Hall. induction HF as [|q l Hq _ IH]; [done|]. cbn [foldl].
    unfold js_add. rewrite decide_True by (rewrite Hq; by left). exact IH.
Qed.

(** Every specifier for a package of the repository is a text, and aligned when it names
    a package that is compared. *)
Definition specifiers_aligned (entries : list entry) (packages : list ProxyPackage) (v : string) : Prop :=
  forall pkg f d w, pkg ∈ packages -> (d, w) ∈ fields_of (manifest_of entries pkg) f -> starts_with "@commandrelay/" d = true ->
    exists s, w = JStr s /\ (d ∈ packageName <$> packages -> isAlignedDependencySpecifier s v = true).

Lemma scan_aligned entries packages v : scanDependencyEdges to_text entries packages v = [] <-> specifiers_aligned entries packages v.
Proof.
  rewrite scan_nil, Forall_forall. split.
  - intros H pkg f d w Hp Hd Hs. specialize (H pkg Hp f). rewrite Forall_forall in H. specialize (H _ Hd). cbn [fst snd] in H.
    unfold violation in H. rewrite Hs in H. cbn [negb] in H. destruct w; try done. exists s. split; [done|]. intros Hk.
    apply js_has_spec in Hk. rewrite Hk in H. cbn [negb] in H. by destruct (isAlignedDependencySpecifier s v).
  - intros H pkg Hp f. apply Forall_forall. intros [d w] Hd. cbn [fst snd]. unfold violation.
    destruct (starts_with "@commandrelay/" d) eqn:Hs; [|done]. cbn [negb]. destruct (H pkg f d w Hp Hd Hs) as (s & -> & Ha).
    destruct (js_has d (packageName <$> packages)) eqn:Hk; [|done]. cbn [negb]. apply js_has_spec in Hk. by rewrite Ha.
Qed.

(** The release check passes exactly when there are packages to compare, all of them have
    one version, and every specifier they give for a package of the repository is a text,
    aligned with that version wherever it names one of the compared packages. *)
Theorem lockstep_pass_iff entries v n : main localeCompare to_text [] entries = Pass v n <->
  exists packages, readProxyPackages localeCompare entries = Ok packages /\ packages <> [] /\ n = length packages /\
    Forall (fun p => version p = v) packages /\ specifiers_aligned entries packages v.
Proof.
  unfold main. change (js_has "--help" [] || js_has "-h" [])%string with false. cbn match.
  destruct (readProxyPackages localeCompare entries) as [packages|]; [|split; [done|by intros (? & ? & _)]].
  transitivity (packages <> [] /\ n = length packages /\ Forall (fun p => version p = v) packages /\ scanDependencyEdges to_text entries packages v = []).
  - destruct packages as [|p ps]; [split; [done|by intros [? _]]|]. set (packages := p :: ps).
    assert (Hno : forall vs, foldl (fun s p => js_add (version p) s) [] packages = vs -> vs <> [v] -> ~ (packages <> [] /\ Forall (fun p => version p = v) packages)).
    { intros vs <- Hvs H. by apply Hvs, versions_one. }
    destruct (foldl _ [] packages) as [|v' [|v'' vs]] eqn:Hv.
    + specialize (Hno _ eq_refl). split; [done|naive_solver].
    + destruct (decide (v' = v)) as [->|Hvv].
      * apply versions_one in Hv as [Hne HF]. destruct (scanDependencyEdges to_text entries packages v) eqn:Hs.
        -- split; [intros [= <-]; done|by intros (_ & -> & _)].
        -- split; [done|by intros (_ & _ & _ & ?)].
      * specialize (Hno _ eq_refl). split; [|naive_solver]. destruct (scanDependencyEdges to_text entries packages v'); [intros [= ?]; done|done].
    + specialize (Hno _ eq_refl). split; [done|naive_solver].
  - rewrite scan_aligned. split; [intros (?&?&?&?); by exists packages|intros (? & [= <-] & ?); tauto].
Qed.
End Facts.

(** ** Concrete inputs *)

Definition demo_manifest (name v : string) (ds : list (string * jsval)) : option (result string jsval) :=
  Some (Ok (JObj [("name", JStr name); ("version", JStr v); ("peerDependencies", JObj ds)]%string)).

Example demo_pass : main str_order (fun _ => "?"%string) []
  [("b", demo_manifest "@commandrelay/proxy-got" "1.2.0" [("@commandrelay/proxy-core", JStr "workspace:^1.2.0"); ("@commandrelay/client", JStr "9")]);
   ("a", demo_manifest "@commandrelay/proxy-core" "1.2.0" []); ("c", demo_manifest "@commandrelay/client" "9.0.0" [])]%string
  = Pass "1.2.0" 2.
Proof. by vm_compute. Qed.

Example demo_drift : main str_order (fun _ => "?"%string) []
  [("b", demo_manifest "@commandrelay/proxy-got" "1.2.0" []); ("a", demo_manifest "@commandrelay/proxy-core" "1.3.0" [])]%string
  = Drift [("1.2.0", ["@commandrelay/proxy-got"]); ("1.3.0", ["@commandrelay/proxy-core"])]%string.
Proof. by vm_compute. Qed.
