(* ===== verification/ChildProcess.v ===== *)
(** * A child process that is given input

    [runCommandWithInput] of [src/runtime/ssh-tmux-adapter.ts]: the process is
    started, its output collected, and a promise settled by the first of the
    time-out, the [error] event and the [close] event.  The process, its pipes
    and the timer are the environment; [step] is what the listeners do with
    one event.  The host fingerprint check of the SSH adapter
    ([SshTmux.verifyExpectedHostFingerprint]) runs [ssh-keygen] this way. *)

From S2P Require Import Prelude JsMap Process SshTmux.
Local Open Scope Z_scope.

Inductive child_event : Type :=
| StdoutData (chunk : string)
| StderrData (chunk : string)
| ErrorEvent (error : js_error)
| CloseEvent (code : option Z) (signal : option string)
| TimerFires
| StdinError.

Record child : Type := Child {
  stdout : string;
  stderr : string;
  done : bool;
  timer_armed : bool;
  kills : nat;
  settled : option reply
}.

#[export] Instance child_event_eq_dec : EqDecision child_event.
Proof. solve_decision. Defined.

Definition spawned : child := Child EmptyString EmptyString false true 0 None.

(** [finish]: the first caller settles the promise and clears the timer. *)
Definition finish (c : child) (r : reply) : child :=
  if done c then c
  else Child (stdout c) (stderr c) true false (kills c) (Some r).

Definition code_text (code : option Z) : string :=
  match code with Some n => int_to_string n | None => "null" end.

Section Run.
Variables (command : string) (timeoutMs : Z).

Definition timed_out : reply :=
  Throw (Error ("Command timed out after " +:+ int_to_string timeoutMs +:+ "ms: " +:+ command)).

(** The rejection or the output for a [close] event. *)
Definition closed_with (out err : string) (code : option Z) (signal : option string) : reply :=
  if bool_decide (code = Some 0) then Ok out
  else
    let signalSuffix :=
      match signal with
      | Some s => if is_empty s then EmptyString else " signal=" +:+ s
      | None => EmptyString
      end in
    let stderrSuffix :=
      if is_empty (trim err) then EmptyString else " stderr=" +:+ trim err in
    Throw (Error ("Command failed (" +:+ code_text code +:+ ")" +:+ signalSuffix +:+ ": "
                  +:+ command +:+ stderrSuffix)).

Definition step (c : child) (e : child_event) : child :=
  match e with
  | StdoutData s =>
      Child (stdout c +:+ s) (stderr c) (done c) (timer_armed c) (kills c) (settled c)
  | StderrData s =>
      Child (stdout c) (stderr c +:+ s) (done c) (timer_armed c) (kills c) (settled c)
  | ErrorEvent e => finish c (Throw e)
  | CloseEvent code signal => finish c (closed_with (stdout c) (stderr c) code signal)
  | TimerFires =>
      if timer_armed c
      then finish (Child (stdout c) (stderr c) (done c) false (S (kills c)) (settled c)) timed_out
      else c
  | StdinError => c
  end.

Definition run (evs : list child_event) : child := foldl step spawned evs.

(** [runCommandWithInput]: [spawn] itself may throw, and then nothing is listened to. *)
Definition runCommandWithInput (spawn : result js_error unit) (evs : list child_event) :
    option reply :=
  match spawn with
  | Throw e => Some (Throw e)
  | Ok _ => settled (run evs)
  end.

(** The events that can settle the promise. *)
Definition decisive (e : child_event) : bool :=
  match e with
  | ErrorEvent _ | CloseEvent _ _ | TimerFires => true
  | _ => false
  end.

Definition stdout_of (evs : list child_event) : string :=
  foldr (fun e acc => match e with StdoutData s => s +:+ acc | _ => acc end) EmptyString evs.
Definition stderr_of (evs : list child_event) : string :=
  foldr (fun e acc => match e with StderrData s => s +:+ acc | _ => acc end) EmptyString evs.

(** What a decisive event, after the events [pre], settles the promise with. *)
Definition verdict (pre : list child_event) (e : child_event) : option reply :=
  match e with
  | ErrorEvent err => Some (Throw err)
  | CloseEvent code signal => Some (closed_with (stdout_of pre) (stderr_of pre) code signal)
  | TimerFires => Some timed_out
  | _ => None
  end.

Definition undecided (evs : list child_event) : Prop := Forall (fun e => decisive e = false) evs.

Lemma run_from_settled c evs :
  done c = true -> timer_armed c = false ->
  settled (foldl step c evs) = settled c /\ kills (foldl step c evs) = kills c.
Proof.
  revert c. induction evs as [|e evs IH]; intros c Hd Ht; [done|]. simpl.
  assert (done (step c e) = true /\ timer_armed (step c e) = false /\
          settled (step c e) = settled c /\ kills (step c e) = kills c) as (H1 & H2 & H3 & H4).
  { destruct e; simpl; unfold finish; rewrite ?Hd, ?Ht; done. }
  destruct (IH _ H1 H2) as [-> ->]. done.
Qed.

Lemma run_undecided c evs :
  undecided evs ->
  foldl step c evs =
    Child (stdout c +:+ stdout_of evs) (stderr c +:+ stderr_of evs) (done c) (timer_armed c)
      (kills c) (settled c).
Proof.
  revert c. induction evs as [|e evs IH]; intros c H; simpl.
  - rewrite !str_app_nil_r. by destruct c.
  - apply Forall_cons in H as [He H]. rewrite (IH _ H).
    destruct e; try done; simpl; by rewrite ?str_app_assoc.
Qed.

Lemma run_decided pre e post :
  undecided pre -> decisive e = true ->
  settled (run (pre ++ e :: post)) = verdict pre e /\
  kills (run (pre ++ e :: post)) = (if bool_decide (e = TimerFires) then 1 else 0)%nat.
Proof.
  intros Hpre He. unfold run. rewrite foldl_app, (run_undecided _ _ Hpre). simpl.
  rewrite !str_app_nil_l.
  destruct e; try done; unfold finish; cbn [done timer_armed stdout stderr kills settled spawned];
    match goal with |- context [foldl step ?c post] =>
      destruct (run_from_settled c post eq_refl eq_refl) as [-> ->] end; done.
Qed.
End Run.

(** The commands that are given input are answered by child processes whose
    events are [trace]; nothing is said of the others. *)
Definition children_answer (w : world) (trace : list call -> call -> list child_event) : Prop :=
  forall hist command args input timeoutMs,
    let c := CommandWithInput command args input timeoutMs in
    runCommandWithInput command timeoutMs (Ok tt) (trace hist c) = Some (w hist c).

(** An output was printed before a close with code 0. *)
Lemma printed_ok w trace hist command args input timeoutMs out :
  children_answer w trace ->
  w hist (CommandWithInput command args input timeoutMs) = Ok out ->
  exists pre signal post,
    trace hist (CommandWithInput command args input timeoutMs) =
      pre ++ CloseEvent (Some 0) signal :: post /\
    undecided pre /\ out = stdout_of pre.
Proof.
  intros Hw Ho. specialize (Hw hist command args input timeoutMs). cbv zeta in Hw. rewrite Ho in Hw.
  unfold runCommandWithInput in Hw.
  destruct (first_split decisive (trace hist (CommandWithInput command args input timeoutMs)))
    as [Hu|(pre & e & post & Ht & Hpre & He)].
  - unfold run in Hw. rewrite (run_undecided _ _ _ _ Hu) in Hw. done.
  - rewrite Ht in Hw. destruct (run_decided command timeoutMs pre e post Hpre He) as [Hs _].
    rewrite Hs in Hw. destruct e as [| |e|code signal| |]; try done.
    unfold verdict, closed_with in Hw. case_bool_decide as Hc; [|done]. subst code.
    injection Hw as <-. by exists pre, signal, post.
Qed.

(** ** Theorems *)

(** The promise of a command is settled exactly when the time-out, an
    error or the end of the process has been seen, by the first of them: the
    output is everything printed before a close with code 0, whatever comes
    later changes nothing, and the process is killed at most once, only when
    the time-out came first. *)
Theorem command_settled_by_first_event command timeoutMs evs :
  let c := run command timeoutMs evs in
  (forall r, settled c = Some r <->
     exists pre e post, evs = pre ++ e :: post /\ undecided pre /\ verdict command timeoutMs pre e = Some r) /\
  (settled c = None <-> undecided evs) /\
  (kills c = 1%nat <-> exists pre post, evs = pre ++ TimerFires :: post /\ undecided pre) /\
  (kills c <= 1)%nat.
Proof.
  cbv zeta. destruct (first_split decisive evs) as [Hu|(pre & e & post & -> & Hpre & He)].
  - assert (Hno : forall pre e post, evs = pre ++ e :: post -> decisive e = false).
    { intros pre e post ->. by apply Forall_app in Hu as [_ [Hu _]%Forall_cons]. }
    unfold run. rewrite (run_undecided _ _ _ _ Hu). simpl. split_and!; [|done| |lia].
    + intros r. split; [done|]. intros (pre & e & post & Hs & _ & Hv).
      apply Hno in Hs. by destruct e.
    + split; [done|]. intros (pre & post & Hs & _). by apply Hno in Hs.
  - destruct (run_decided command timeoutMs pre e post Hpre He) as [-> ->].
    split_and!.
    + intros r. split; [by eauto 6|]. intros (pre' & e' & post' & Hs & Hpre' & Hv).
      apply (first_split_unique decisive) in Hs as (-> & -> & _); [done..|by destruct e'].
    + split; [by destruct e|]. intros [_ Hu]%Forall_app. apply Forall_cons in Hu as [Hu _]. congruence.
    + case_bool_decide as Ht; [subst; split; by eauto|]. split; [done|].
      intros (pre' & post' & Hs & Hpre'). by apply (first_split_unique decisive) in Hs as (_ & -> & _).
    + by case_bool_decide; lia.
Qed.

(** C38. The host fingerprint is accepted only when [ssh-keygen] closed with
    code 0, in time and without an error before, and had by then printed the
    expected fingerprint: output printed by a process that fails, is killed or
    times out is never believed. *)
Theorem fingerprint_needs_clean_exit w trace a st hist st' hist' fp :
  children_answer w trace ->
  expectedFingerprintSha256 a = Some fp -> fp <> EmptyString ->
  exec w st hist (verifyExpectedHostFingerprint a) = (st', hist', Ok tt) ->
  exists keyscanOutput pre signal post,
    w hist (keyscan_call a) = Ok keyscanOutput /\
    trace (hist ++ [keyscan_call a]) (keygen_call a keyscanOutput) =
      pre ++ CloseEvent (Some 0) signal :: post /\
    undecided pre /\ fp ∈ parseSha256Fingerprints (stdout_of pre).
Proof.
  intros Hw Hfp Hne Hex. unfold verifyExpectedHostFingerprint in Hex. rewrite Hfp in Hex.
  destruct (is_empty fp) eqn:Hf; [by destruct fp|].
  rewrite exec_bind, exec_try_catch, exec_await_call in Hex.
  destruct (w hist (keyscan_call a)) as [out|e] eqn:Hscan; [|done].
  rewrite exec_bind in Hex. destruct (is_empty (trim out)); [done|]. cbn [exec mret proc_ret] in Hex.
  rewrite exec_bind, exec_try_catch, exec_await_call in Hex.
  destruct (w _ (keygen_call a out)) as [gen|e] eqn:Hgen; [|done]. cbv zeta in Hex.
  destruct (length _ =? 0)%nat; [done|].
  destruct (js_has fp _) eqn:Hhas; [|done]. apply js_has_spec in Hhas.
  destruct (printed_ok w trace _ _ _ _ _ _ Hw Hgen) as (pre & signal & post & Ht & Hu & ->).
  by exists out, pre, signal, post.
Qed.

(** ** Witnesses *)

(** [ssh-keygen] prints the fingerprint in two pieces and ends; every other
    process is too slow. *)
Definition demo_trace (hist : list call) (c : call) : list child_event :=
  if bool_decide (c = keygen_call demo_adapter "host ssh-ed25519 AAAA")
  then [StdoutData "256 SHA256:"; StderrData "note"; StdoutData "abc host"; StdinError;
        CloseEvent (Some 0) None; TimerFires]
  else [StdoutData "256 SHA256:abc host"; TimerFires; CloseEvent None (Some "SIGTERM")].

Definition demo_world : world := fun hist c =>
  match c with
  | CommandWithInput command _ _ timeoutMs =>
      default (Ok EmptyString) (runCommandWithInput command timeoutMs (Ok tt) (demo_trace hist c))
  | Command _ _ _ => Ok "host ssh-ed25519 AAAA"
  end.

Lemma demo_children : children_answer demo_world demo_trace.
Proof.
  intros hist command args input timeoutMs. cbv zeta. unfold demo_world, demo_trace.
  by case_bool_decide.
Qed.

Lemma fingerprint_needs_clean_exit_witness :
  exec demo_world false [] (verifyExpectedHostFingerprint demo_adapter) =
    (false, [] ++ [keyscan_call demo_adapter; keygen_call demo_adapter "host ssh-ed25519 AAAA"], Ok tt) /\
  exists keyscanOutput pre signal post,
    demo_world [] (keyscan_call demo_adapter) = Ok keyscanOutput /\
    demo_trace ([] ++ [keyscan_call demo_adapter]) (keygen_call demo_adapter keyscanOutput) =
      pre ++ CloseEvent (Some 0) signal :: post /\
    undecided pre /\ "SHA256:abc"%string ∈ parseSha256Fingerprints (stdout_of pre).
Proof.
  assert (He : exec demo_world false [] (verifyExpectedHostFingerprint demo_adapter) =
    (false, [] ++ [keyscan_call demo_adapter; keygen_call demo_adapter "host ssh-ed25519 AAAA"], Ok tt))
    by (vm_compute; reflexivity).
  split; [exact He|].
  exact (fingerprint_needs_clean_exit _ _ demo_adapter _ _ _ _ "SHA256:abc" demo_children eq_refl
           ltac:(discriminate) He).
Defined.

(** A process that is killed: the rejection names the time-out, and the later
    close is not heard. *)
Example slow_command :
  let evs := [StdoutData "partial"; TimerFires; StderrData "killed"; CloseEvent None (Some "SIGTERM")] in
  settled (run "ssh-keygen" 6000 evs) =
    Some (Throw (Error "Command timed out after 6000ms: ssh-keygen")) /\
  kills (run "ssh-keygen" 6000 evs) = 1%nat.
Proof. vm_compute. split; reflexivity. Qed.

Example failed_command :
  settled (run "ssh-keygen" 6000 [StderrData " no such file "; CloseEvent (Some 255) None]) =
    Some (Throw (Error "Command failed (255): ssh-keygen stderr=no such file")).
Proof. vm_compute. reflexivity. Qed.
