(* ===== verification/Soak.v ===== *)
(** * The flaky-network soak

    [scripts/checkpoints/run-flaky-network-soak.ts]: its options, the synthetic
    pane that grows by one line per capture, the bookkeeping of the probe that
    reconnects with its last sequence number, and the verdict.  The bridge it
    drives is [Engine]; the clock, the random draws, [parseFloat] and the
    sockets are outside. *)

From S2P Require Import Prelude JsMap Engine EngineInv.
Local Open Scope Z_scope.
Local Open Scope js_scope.

(** ** Options *)

Record SoakOptions : Type := SoakOptions_ {
  durationMinutes : num;
  dropMinMs : Z;
  dropMaxMs : Z;
  pollIntervalMs : Z;
  outputPath : option string
}.

Definition DEFAULTS : SoakOptions := SoakOptions_ (num_of_Z 30) 600 1600 80 None.

Definition set_durationMinutes x o := SoakOptions_ x (dropMinMs o) (dropMaxMs o) (pollIntervalMs o) (outputPath o).
Definition set_dropMinMs x o := SoakOptions_ (durationMinutes o) x (dropMaxMs o) (pollIntervalMs o) (outputPath o).
Definition set_dropMaxMs x o := SoakOptions_ (durationMinutes o) (dropMinMs o) x (pollIntervalMs o) (outputPath o).
Definition set_pollIntervalMs x o := SoakOptions_ (durationMinutes o) (dropMinMs o) (dropMaxMs o) x (outputPath o).
Definition set_outputPath x o := SoakOptions_ (durationMinutes o) (dropMinMs o) (dropMaxMs o) (pollIntervalMs o) x.

(** [/^\d+$/.test(raw)], then [Number.parseInt] and the safe positive range. *)
Definition parsePositiveInt (raw flag : string) : result string Z :=
  if is_empty raw || negb (str_forallb is_digit raw)
  then Throw (flag +:+ " must be an integer (received: " +:+ raw +:+ ")")%string
  else
    match num_safe_integer (parse_int raw) with
    | Some parsed =>
        if 0 <? parsed then Ok parsed
        else Throw (flag +:+ " must be > 0 (received: " +:+ raw +:+ ")")%string
    | None => Throw (flag +:+ " must be > 0 (received: " +:+ raw +:+ ")")%string
    end.

Section Options.
Variable parseFloat : string -> num.

Definition is_finite (n : num) : bool := match n with Fin _ _ => true | _ => false end.

Definition parsePositiveNumber (raw flag : string) : result string num :=
  let parsed := parseFloat raw in
  if negb (is_finite parsed) || negb (num_gt_Z parsed 0)
  then Throw (flag +:+ " must be > 0 (received: " +:+ raw +:+ ")")%string
  else Ok parsed.

(** One option with its value [next]. *)
Definition parse_option (token next : string) (o : SoakOptions) : option (result string SoakOptions) :=
  if String.eqb token "--duration-minutes" then
    Some (let! v := parsePositiveNumber next "--duration-minutes" in Ok (set_durationMinutes v o))
  else if String.eqb token "--drop-min-ms" then
    Some (let! v := parsePositiveInt next "--drop-min-ms" in Ok (set_dropMinMs v o))
  else if String.eqb token "--drop-max-ms" then
    Some (let! v := parsePositiveInt next "--drop-max-ms" in Ok (set_dropMaxMs v o))
  else if String.eqb token "--poll-interval-ms" then
    Some (let! v := parsePositiveInt next "--poll-interval-ms" in Ok (set_pollIntervalMs v o))
  else if String.eqb token "--output" then Some (Ok (set_outputPath (Some next) o))
  else None.

(** The loop over the arguments after the first two. *)
Fixpoint parse_args (args : list string) (o : SoakOptions) : result string SoakOptions :=
  match args with
  | [] => Ok o
  | token :: rest =>
      let incomplete := Throw ("Unknown or incomplete option: " +:+ token)%string in
      match rest with
      | [] => incomplete
      | next :: rest' =>
          if is_empty next then incomplete
          else
            match parse_option token next o with
            | Some r => let! o' := r in parse_args rest' o'
            | None => incomplete
            end
      end
  end.

Definition parseOptions (argv : list string) : result string SoakOptions :=
  let! options := parse_args (drop 2 argv) DEFAULTS in
  if dropMaxMs options <? dropMinMs options
  then Throw "--drop-max-ms must be >= --drop-min-ms"%string
  else Ok options.
End Options.

(** [draw] is the value of [Math.floor(Math.random() * (max - min + 1))]. *)
Definition randomIntInclusive (draw min max : Z) : Z :=
  if min =? max then min else draw + min.

(** ** The synthetic pane *)

Record SyntheticStreamingTmux : Type := Synthetic {
  lines : list string;
  nextLineNumber : Z
}.

Definition newSynthetic : SyntheticStreamingTmux := Synthetic [] 1.

Definition soak_line (n : Z) : string := ("soak-line-" +:+ padStart 5 (int_to_string n))%string.

Definition capturePane (t : SyntheticStreamingTmux) : string * SyntheticStreamingTmux :=
  let lines := lines t ++ [soak_line (nextLineNumber t)] in
  ((join newline_text lines +:+ newline_text)%string, Synthetic lines (nextLineNumber t + 1)).

(** ** The probe *)

Record soak : Type := Soak {
  cycles : Z;
  reconnectCursor : Z;
  outputEventsSeen : Z;
  replayMismatchCount : Z
}.

Definition new_soak : soak := Soak 0 0 0 0.

(** An output message: its [mode] when that is a string, and its [streamSeq]. *)
Record output_message : Type := OutputMessage {
  out_mode : option string;
  out_seq : Z
}.

(** The [lastSeq] of the attach request. *)
Definition attach_lastSeq (s : soak) : option num :=
  if 0 <? reconnectCursor s then Some (num_of_Z (reconnectCursor s)) else None.

(** One turn of the loop over the outputs of a connection. *)
Definition observe (s : soak) (o : output_message) : soak :=
  if bool_decide (out_mode o = Some "snapshot"%string) && (out_seq o =? reconnectCursor s) then s
  else if negb (out_seq o =? reconnectCursor s + 1) then
    Soak (cycles s) (Z.max (reconnectCursor s) (out_seq o)) (outputEventsSeen s) (replayMismatchCount s + 1)
  else Soak (cycles s) (out_seq o) (outputEventsSeen s + 1) (replayMismatchCount s).

(** A connection: the outputs it got before it was dropped. *)
Definition segment (s : soak) (outs : list output_message) : soak :=
  foldl observe (Soak (cycles s + 1) (reconnectCursor s) (outputEventsSeen s) (replayMismatchCount s)) outs.

Definition reconnects (s : soak) : Z := Z.max 0 (cycles s - 1).

(** [longEnough] is [durationMinutes >= options.durationMinutes] on the clock. *)
Definition pass (s : soak) (longEnough : bool) : bool := (replayMismatchCount s =? 0) && longEnough.

(** How the server puts an engine event on the wire. *)
Definition output_of (e : BridgePaneEvent) : output_message :=
  OutputMessage (Some match ev_mode e with Snapshot => "snapshot" | Delta => "delta" end)%string (ev_streamSeq e).

(** What the effects of the engine send to [c]. *)
Definition sent_to (c : string) (effs : list effect) : list output_message :=
  omap (fun eff => match eff with
                   | Output c' e => if bool_decide (c' = c) then Some (output_of e) else None
                   | PollError _ _ => None
                   end) effs.

(** ** Lemmas *)

Lemma join_snoc sep ws w : ws <> [] -> join sep (ws ++ [w]) = (join sep ws +:+ sep +:+ w)%string.
Proof.
  induction ws as [|v ws IH]; [done|]. intros _. destruct ws as [|v' ws]; [done|].
  change ((v :: v' :: ws) ++ [w]) with (v :: v' :: (ws ++ [w])). rewrite !join_cons2.
  change (v' :: ws ++ [w]) with ((v' :: ws) ++ [w]). rewrite IH by done. by rewrite !str_app_assoc.
Qed.

(** Bookkeeping of one output. *)
Lemma observe_bounds s o :
  let s' := observe s o in
  reconnectCursor s <= reconnectCursor s' /\
  outputEventsSeen s <= outputEventsSeen s' <= outputEventsSeen s + 1 /\
  replayMismatchCount s <= replayMismatchCount s' /\ cycles s' = cycles s /\
  (replayMismatchCount s' = replayMismatchCount s ->
   reconnectCursor s' - reconnectCursor s = outputEventsSeen s' - outputEventsSeen s /\
   (reconnectCursor s' = reconnectCursor s \/ reconnectCursor s' = out_seq o) /\
   reconnectCursor s <= out_seq o <= reconnectCursor s').
Proof.
  unfold observe. destruct (bool_decide _ && _) eqn:Hb;
    [apply andb_true_iff in Hb as [_ Hb]; apply Z.eqb_eq in Hb; simpl; split_and!; lia|].
  destruct (out_seq o =? reconnectCursor s + 1) eqn:He; simpl; [apply Z.eqb_eq in He; split_and!; lia|].
  split_and!; lia.
Qed.

Lemma observe_all_bounds s outs :
  let s' := foldl observe s outs in
  reconnectCursor s <= reconnectCursor s' /\ replayMismatchCount s <= replayMismatchCount s' /\
  cycles s' = cycles s.
Proof.
  cbv zeta. revert s. induction outs as [|o outs IH]; intros s; simpl; [lia|].
  destruct (observe_bounds s o) as (H1 & _ & H2 & H3 & _). specialize (IH (observe s o)). lia.
Qed.

(** The events [k + 1, ..., k + length evs]. *)
Definition follows (k : Z) (evs : list BridgePaneEvent) : Prop :=
  forall i e, evs !! i = Some e -> ev_streamSeq e = k + Z.of_nat i + 1.

Lemma observe_next s e :
  ev_streamSeq e = reconnectCursor s + 1 ->
  observe s (output_of e) =
    Soak (cycles s) (reconnectCursor s + 1) (outputEventsSeen s + 1) (replayMismatchCount s).
Proof.
  intros He. unfold observe. simpl. rewrite He.
  rewrite (proj2 (Z.eqb_neq _ _)) by lia. rewrite andb_false_r, Z.eqb_refl. done.
Qed.

Lemma observe_follows s evs :
  follows (reconnectCursor s) evs ->
  foldl observe s (map output_of evs) =
    Soak (cycles s) (reconnectCursor s + Z.of_nat (length evs))
      (outputEventsSeen s + Z.of_nat (length evs)) (replayMismatchCount s).
Proof.
  revert s. induction evs as [|e evs IH]; intros s Hf; simpl.
  - rewrite !Z.add_0_r. by destruct s.
  - rewrite (observe_next s e) by (rewrite (Hf 0%nat e eq_refl); lia).
    rewrite IH; [simpl; f_equal; lia|]. simpl. intros i e' Hi. rewrite (Hf (S i) e' Hi). lia.
Qed.

Lemma sent_to_outputs c evs : sent_to c (map (Output c) evs) = map output_of evs.
Proof.
  unfold sent_to. induction evs as [|e evs IH]; [done|]. simpl. rewrite bool_decide_true by done. f_equal. exact IH.
Qed.

Lemma follows_take k n evs : follows k evs -> follows k (take n evs).
Proof. intros H i e Hi. apply lookup_take_Some in Hi as [Hi _]. by apply H. Qed.

Lemma log_follows max s r k :
  0 <= max -> reachable max s -> 0 <= k -> follows k (drop (Z.to_nat k) (log r (published s))).
Proof.
  intros Hmax Hr Hk i e Hi. rewrite lookup_drop in Hi.
  destruct (inv_watcher _ _ (inv_reachable _ _ Hmax Hr) r) as [_ Hnum _ _ _].
  rewrite (Hnum _ _ Hi). lia.
Qed.

(** What every accepted option keeps. *)
Definition options_ok (o : SoakOptions) : Prop :=
  1 <= dropMinMs o <= max_safe_integer /\ 1 <= dropMaxMs o <= max_safe_integer /\
  1 <= pollIntervalMs o <= max_safe_integer /\
  is_finite (durationMinutes o) = true /\ num_gt_Z (durationMinutes o) 0 = true.

Lemma positive_int_ok raw flag z : parsePositiveInt raw flag = Ok z -> 1 <= z <= max_safe_integer.
Proof.
  unfold parsePositiveInt. destruct (is_empty raw || _); [done|].
  destruct (num_safe_integer (parse_int raw)) as [p|] eqn:Hp; [|done].
  destruct (0 <? p) eqn:Hz; [|done]. intros [= <-]. apply Z.ltb_lt in Hz.
  apply num_safe_integer_Some in Hp as [_ Hp]. lia.
Qed.

Lemma option_ok parseFloat token next o o' :
  options_ok o -> parse_option parseFloat token next o = Some (Ok o') -> options_ok o'.
Proof.
  unfold options_ok. intros Ho. unfold parse_option.
  repeat match goal with |- context [String.eqb ?a ?b] => destruct (String.eqb a b) end; try done;
    intros H; apply (inj Some) in H; try (apply rbind_Ok in H as (v & Hv & H));
    apply (inj Ok) in H; subst o'; cbn; try (apply positive_int_ok in Hv; split_and!; tauto || lia);
    try tauto.
  unfold parsePositiveNumber in Hv. cbv zeta in Hv.
  destruct (is_finite (parseFloat next)) eqn:Hf, (num_gt_Z (parseFloat next) 0) eqn:Hz;
    cbn [negb orb] in Hv; try discriminate Hv.
  injection Hv as <-. tauto.
Qed.

Lemma args_ok parseFloat n args o o' :
  (length args <= n)%nat -> options_ok o -> parse_args parseFloat args o = Ok o' -> options_ok o'.
Proof.
  revert args o. induction n as [|n IH]; intros [|token [|next args]] o Hl Ho; simpl; try done;
    try (intros [= <-]; done); [simpl in Hl; lia|].
  destruct (is_empty next); [done|].
  destruct (parse_option parseFloat token next o) as [r|] eqn:Hp; [|done].
  rewrite rbind_Ok. intros (o1 & -> & H). eapply IH; [|by eapply option_ok|exact H]. simpl in Hl. lia.
Qed.

(** ** Theorems *)

(** Accepted options are usable: the drop interval is a non-empty range of
    positive safe integers, the poll interval a positive one, the duration a
    positive finite number; so every drop delay drawn lies in its range. *)
Theorem soak_options_ok parseFloat argv o draw :
  parseOptions parseFloat argv = Ok o ->
  0 <= draw <= dropMaxMs o - dropMinMs o ->
  options_ok o /\ dropMinMs o <= dropMaxMs o /\
  dropMinMs o <= randomIntInclusive draw (dropMinMs o) (dropMaxMs o) <= dropMaxMs o.
Proof.
  unfold parseOptions. rewrite rbind_Ok. intros (o1 & Ha & H).
  destruct (dropMaxMs o1 <? dropMinMs o1) eqn:Hd; [done|]. injection H as ->. apply Z.ltb_ge in Hd.
  intros Hdraw. split_and!; [|lia| |].
  - refine (args_ok _ _ _ _ _ (le_n _) _ Ha). unfold options_ok, max_safe_integer. cbn. split_and!; done || lia.
  - unfold randomIntInclusive. destruct (_ =? _) eqn:He; [apply Z.eqb_eq in He; lia|lia].
  - unfold randomIntInclusive. destruct (_ =? _) eqn:He; [apply Z.eqb_eq in He; lia|lia].
Qed.

(** What a clean connection proves: when a segment adds no mismatch, the
    cursor has advanced by exactly the number of outputs counted, every number
    passed over was seen, and nothing outside that range was. *)
Theorem clean_segment_is_complete s outs :
  let s' := segment s outs in
  replayMismatchCount s' = replayMismatchCount s ->
  reconnectCursor s' - reconnectCursor s = outputEventsSeen s' - outputEventsSeen s /\
  (forall k, reconnectCursor s < k <= reconnectCursor s' -> exists o, o ∈ outs /\ out_seq o = k) /\
  Forall (fun o => reconnectCursor s <= out_seq o <= reconnectCursor s') outs.
Proof.
  cbv zeta. unfold segment.
  set (s0 := Soak (cycles s + 1) (reconnectCursor s) (outputEventsSeen s) (replayMismatchCount s)).
  change (reconnectCursor s) with (reconnectCursor s0).
  change (outputEventsSeen s) with (outputEventsSeen s0).
  change (replayMismatchCount s) with (replayMismatchCount s0).
  clearbody s0. revert s0. induction outs as [|o outs IH]; intros s0 Hm.
  - simpl in *. split_and!; [lia|lia|done].
  - simpl in *. destruct (observe_bounds s0 o) as (H1 & _ & H3 & _ & H5).
    destruct (observe_all_bounds (observe s0 o) outs) as (G1 & G2 & _).
    destruct (H5 ltac:(lia)) as (Hc & Ho & Hr).
    destruct (IH (observe s0 o) ltac:(lia)) as (I1 & I2 & I3).
    split_and!; [lia| |constructor; [lia|]].
    + intros k Hk. destruct (decide (k <= reconnectCursor (observe s0 o))) as [Hle|Hgt].
      * exists o. split; [by left|]. destruct Ho as [Ho|Ho]; [lia|].
        assert (Hs : reconnectCursor (observe s0 o) <= reconnectCursor s0 + 1); [|lia].
        destruct (observe_bounds s0 o) as (_ & ? & _). lia.
      * destruct (I2 k ltac:(lia)) as (o' & Ho' & He). exists o'. split; [by right|done].
    + eapply Forall_impl; [exact I3|]. simpl. intros o' ?. lia.
Qed.

(** C19. The bridge passes its soak.  In every reachable state of the engine, a
    probe that reconnects with the cursor it had, while the missing events are
    still in the history, counts no mismatch over any part of what the attach
    sends, and gets exactly the missing events in order. *)
Theorem reconnect_is_clean max e c p r s m :
  0 <= max -> reachable max e -> jm_get p (panes (eng e)) = Some r ->
  let n := streamSeq (watcher_at r (eng e)) in
  0 < reconnectCursor s <= n -> n - reconnectCursor s <= max ->
  let seen := Z.min (Z.of_nat m) (n - reconnectCursor s) in
  segment s (take m (sent_to c (attachStart c p (attach_lastSeq s) (eng e)).1.2)) =
    Soak (cycles s + 1) (reconnectCursor s + seen) (outputEventsSeen s + seen) (replayMismatchCount s).
Proof.
  intros Hmax Hr Hg n Hk Hn. cbv zeta.
  pose proof (inv_reachable _ _ Hmax Hr) as Hi.
  pose proof (wok_seq _ _ _ (inv_watcher _ _ Hi r)) as Hseq. fold n in Hseq.
  assert (Hne : log r (published e) <> []) by (intros Hl; rewrite Hl in Hseq; simpl in Hseq; lia).
  unfold attach_lastSeq. rewrite (proj2 (Z.ltb_lt _ _)) by lia.
  rewrite (attach_streamed max e c p r _ Hmax Hi Hg Hne). cbn [mbind option_bind].
  rewrite num_to_Z_int. unfold resumable. rewrite <- Hseq. unfold segment.
  case_decide as Hd; cbn [snd].
  - rewrite sent_to_outputs, <- (fmap_take output_of). change (output_of <$> ?l) with (map output_of l).
    rewrite observe_follows.
    + cbn [cycles reconnectCursor outputEventsSeen replayMismatchCount].
      rewrite length_take, length_drop. f_equal; lia.
    + apply follows_take. apply (log_follows max); [done|done|cbn [reconnectCursor]; lia].
  - assert (reconnectCursor s = n) as Hkn by lia.
    replace (Z.min (Z.of_nat m) (n - reconnectCursor s)) with 0 by lia. rewrite !Z.add_0_r.
    change [Output c ?ev] with (map (Output c) [ev]). rewrite sent_to_outputs.
    destruct m as [|m]; [done|]. simpl. unfold observe. simpl.
    rewrite Hkn, Z.eqb_refl. by destruct m.
Qed.

(** The first probe is not protected: it attaches without a [lastSeq], so
    when the anchor's stream already has a second event it gets a snapshot
    numbered past 1, counts a mismatch and fails the soak, whatever follows. *)
Theorem late_first_probe_fails max e c p r outs longEnough :
  0 <= max -> reachable max e -> jm_get p (panes (eng e)) = Some r ->
  2 <= streamSeq (watcher_at r (eng e)) ->
  pass (segment new_soak (sent_to c (attachStart c p (attach_lastSeq new_soak) (eng e)).1.2 ++ outs))
    longEnough = false.
Proof.
  intros Hmax Hr Hg Hn.
  pose proof (inv_reachable _ _ Hmax Hr) as Hi.
  pose proof (wok_seq _ _ _ (inv_watcher _ _ Hi r)) as Hseq. rewrite Hseq in Hn.
  assert (Hne : log r (published e) <> []) by (intros Hl; rewrite Hl in Hn; simpl in Hn; lia).
  change (attach_lastSeq new_soak) with (@None num).
  rewrite (attach_streamed max e c p r _ Hmax Hi Hg Hne). cbn [mbind option_bind snd].
  change [Output c ?ev] with (map (Output c) [ev]). rewrite sent_to_outputs.
  unfold segment. cbn [map app foldl].
  match goal with |- context [foldl observe ?s outs] =>
    destruct (observe_all_bounds s outs) as (_ & Hm & _); assert (1 <= replayMismatchCount s) end.
  { unfold observe. simpl. rewrite !(proj2 (Z.eqb_neq _ _)) by lia. simpl. lia. }
  unfold pass. rewrite (proj2 (Z.eqb_neq _ _)) by lia. done.
Qed.

(** The synthetic pane only ever grows: each capture is the one before with
    one line appended, so the engine's diff of two captures in a row is exactly
    the new line. *)
Theorem captures_append t :
  nextLineNumber t = Z.of_nat (length (lines t)) + 1 -> 
  let '(first, t1) := capturePane t in
  let '(second, t2) := capturePane t1 in
  computeDelta first second = Some (Delta, (soak_line (nextLineNumber t1) +:+ newline_text)%string) /\
  nextLineNumber t2 = Z.of_nat (length (lines t2)) + 1.
Proof.
  intros Hn. unfold capturePane. cbn [lines nextLineNumber].
  set (ls := lines t ++ [soak_line (nextLineNumber t)]).
  assert (Hls : ls <> []) by (subst ls; by destruct (lines t)).
  rewrite join_snoc by done. rewrite <- !str_app_assoc.
  split; [|subst ls; rewrite !length_app; simpl; lia].
  rewrite (str_app_assoc (join newline_text ls) newline_text).
  set (first := (join newline_text ls +:+ newline_text)%string). set (new := (soak_line _ +:+ newline_text)%string).
  unfold computeDelta. destruct (String.eqb_spec (first +:+ new) first) as [He|Hne].
  - exfalso. apply (f_equal String.length) in He. rewrite str_app_length in He.
    assert (0 < String.length new)%nat; [|lia]. subst new. unfold soak_line. rewrite !str_app_length. simpl. lia.
  - rewrite starts_with_app, str_drop_app. done.
Qed.

(** ** Witnesses *)

Lemma soak_options_ok_witness :
  let argv := ["node"; "soak"; "--drop-min-ms"; "5"; "--output"; "run.json"]%string in
  exists o, parseOptions (fun _ => NaN) argv = Ok o /\
  (options_ok o /\ dropMinMs o <= dropMaxMs o /\
   dropMinMs o <= randomIntInclusive 7 (dropMinMs o) (dropMaxMs o) <= dropMaxMs o).
Proof.
  intros argv. exists (SoakOptions_ (num_of_Z 30) 5 1600 80 (Some "run.json"%string)).
  assert (H : parseOptions (fun _ => NaN) argv = Ok (SoakOptions_ (num_of_Z 30) 5 1600 80 (Some "run.json"%string)))
    by (vm_compute; reflexivity).
  split; [exact H|]. apply (soak_options_ok _ _ _ 7 H). cbn. lia.
Defined.

Lemma clean_segment_is_complete_witness :
  let outs := [OutputMessage (Some "snapshot"%string) 4; OutputMessage (Some "delta"%string) 5;
               OutputMessage (Some "delta"%string) 6] in
  let s := Soak 3 4 9 0 in
  reconnectCursor (segment s outs) - reconnectCursor s = 2 /\
  (forall k, 4 < k <= 6 -> exists o, o ∈ outs /\ out_seq o = k).
Proof.
  intros outs s. destruct (clean_segment_is_complete s outs ltac:(vm_compute; reflexivity)) as (_ & H & _).
  split; [reflexivity|exact H].
Defined.

Lemma reconnect_is_clean_witness :
  let e := (execs 2 demo_actions init).2 in
  segment (Soak 1 1 1 0) (take 1 (sent_to "cat" (attachStart "cat" "%1" (Some (num_of_Z 1)) (eng e)).1.2)) =
    Soak 2 2 2 0.
Proof.
  intros e. apply (reconnect_is_clean 2 e "cat" "%1" 0 (Soak 1 1 1 0) 1);
    [lia|by exists demo_actions|reflexivity|split; [reflexivity|vm_compute; discriminate]|vm_compute; discriminate].
Defined.

Lemma late_first_probe_fails_witness :
  let e := (execs 2 demo_actions init).2 in
  pass (segment new_soak (sent_to "cat" (attachStart "cat" "%1" None (eng e)).1.2 ++ [])) true = false.
Proof.
  intros e. apply (late_first_probe_fails 2 e "cat" "%1" 0 [] true);
    [lia|by exists demo_actions|reflexivity|vm_compute; discriminate].
Defined.

Lemma captures_append_witness :
  computeDelta (capturePane newSynthetic).1 (capturePane (capturePane newSynthetic).2).1 =
    Some (Delta, ("soak-line-00002" +:+ newline_text)%string).
Proof. apply (captures_append newSynthetic). reflexivity. Defined.
