(* ===== verification/Fixtures.v ===== *)
(** * Evidence from the tmux fixtures

    [scripts/tmux-fixtures]: the options of the evidence run
    ([evidence-cli.ts]), what [emit-fixture-output.sh] prints, the reading of
    panes and captures ([evidence-commands.ts]), the ordering assertions
    ([evidence-assertions.ts]) and the decision of the run
    ([run-fixture-evidence.ts]).  The scripts and tmux itself are the
    environment; the Markdown report is left out. *)

From S2P Require Import Prelude.
Local Open Scope Z_scope.
Local Open Scope js_scope.

(** ** Options *)

Record Options : Type := Options_ {
  session : string;
  window : string;
  panes : Z;
  profile : string;
  cycles : Z;
  linesPerCycle : Z;
  delayMs : Z;
  outputPath : option string;
  keepFixture : bool;
  help : bool
}.

Definition DEFAULT_OPTIONS : Options :=
  Options_ "fixture_a2_evidence" "fixture" 3 "replay" 4 3 0 None false false.

(** The value of [Number.parseInt] on digits.  [Infinity], which more than 308
    digits give, stands above every double. *)
Definition INFINITY : Z := 2 ^ 1024.
Definition double_value (digits : string) : Z :=
  match num_to_Z (parse_int digits) with Some z => z | None => INFINITY end.

Definition all_digits (s : string) : bool := negb (is_empty s) && str_forallb is_digit s.

Definition parsePositiveInteger (rawValue optionName : string) : result string Z :=
  let wrong := Throw (optionName +:+ " must be an integer >= 1")%string in
  if negb (all_digits rawValue) then wrong
  else if double_value rawValue <? 1 then wrong else Ok (double_value rawValue).

Definition parseNonNegativeInteger (rawValue optionName : string) : result string Z :=
  if negb (all_digits rawValue) then Throw (optionName +:+ " must be an integer >= 0")%string
  else Ok (double_value rawValue).

(** A flag that takes a value. *)
Definition set_option (argument next : string) (o : Options) : result string Options :=
  let '(Options_ s w p pr c l d out k h) := o in
  if String.eqb argument "--session" then Ok (Options_ next w p pr c l d out k h)
  else if String.eqb argument "--window" then Ok (Options_ s next p pr c l d out k h)
  else if String.eqb argument "--panes" then
    let! v := parsePositiveInteger next "--panes" in Ok (Options_ s w v pr c l d out k h)
  else if String.eqb argument "--profile" then
    if String.eqb next "replay" || String.eqb next "load" then Ok (Options_ s w p next c l d out k h)
    else Throw ("--profile must be replay or load (received: " +:+ next +:+ ")")%string
  else if String.eqb argument "--cycles" then
    let! v := parsePositiveInteger next "--cycles" in Ok (Options_ s w p pr v l d out k h)
  else if String.eqb argument "--lines-per-cycle" then
    let! v := parsePositiveInteger next "--lines-per-cycle" in Ok (Options_ s w p pr c v d out k h)
  else if String.eqb argument "--delay-ms" then
    let! v := parseNonNegativeInteger next "--delay-ms" in Ok (Options_ s w p pr c l v out k h)
  else if String.eqb argument "--output" then Ok (Options_ s w p pr c l d (Some next) k h)
  else Throw ("unknown argument: " +:+ argument)%string.

Definition set_help (o : Options) : Options :=
  Options_ (session o) (window o) (panes o) (profile o) (cycles o) (linesPerCycle o) (delayMs o)
    (outputPath o) (keepFixture o) true.
Definition set_keepFixture (o : Options) : Options :=
  Options_ (session o) (window o) (panes o) (profile o) (cycles o) (linesPerCycle o) (delayMs o)
    (outputPath o) true (help o).

Fixpoint parse_from (argv : list string) (o : Options) : result string Options :=
  match argv with
  | [] => Ok o
  | argument :: rest =>
      if String.eqb argument "--help" || String.eqb argument "-h" then parse_from rest (set_help o)
      else if String.eqb argument "--keep-fixture" then parse_from rest (set_keepFixture o)
      else
        match rest with
        | next :: rest' =>
            if is_empty next then Throw ("missing value for " +:+ argument)%string
            else let! o' := set_option argument next o in parse_from rest' o'
        | [] => Throw ("missing value for " +:+ argument)%string
        end
  end.

Definition parseArgs (argv : list string) : result string Options := parse_from argv DEFAULT_OPTIONS.

(** ** Panes and events *)

Record PaneRow : Type := PaneRow_ { paneIndex : Z; paneId : string }.

Record FixtureEvent : Type := FixtureEvent_ {
  ev_profile : string;
  seq : Z;
  pane : Z;
  cycle : Z;
  line : Z;
  raw : string
}.

Definition strip (p s : string) : option string :=
  if starts_with p s then Some (str_drop (String.length p) s) else None.

(** [(\d+)] and what follows. *)
Definition read_number (s : string) : option (Z * string) :=
  let digits := take_while is_digit s in
  if is_empty digits then None else Some (double_value digits, str_drop (String.length digits) s).

(** A character [.] does not match. *)
Definition line_terminator (c : ascii) : bool := Ascii.eqb c "010" || Ascii.eqb c "013".

(** [/^(\d+)(?:\\t|\s+)(.+)$/] on a trimmed row. *)
Definition parse_pane_row (row : string) : result string PaneRow :=
  let invalid := Throw ("invalid pane row: " +:+ row)%string in
  match read_number row with
  | None => invalid
  | Some (n, rest) =>
      let after :=
        match strip "\t" rest with
        | Some r => Some r
        | None =>
            let spaces := take_while is_space rest in
            if is_empty spaces then None else Some (str_drop (String.length spaces) rest)
        end in
      match after with
      | Some id =>
          if is_empty id || negb (str_forallb (fun c => negb (line_terminator c)) id) then invalid
          else if (INFINITY <=? n) || is_empty (trim id) then invalid
          else Ok (PaneRow_ n (trim id))
      | None => invalid
      end
  end.

Fixpoint map_ok {A B} (f : A -> result string B) (l : list A) : result string (list B) :=
  match l with
  | [] => Ok []
  | x :: l => let! y := f x in let! ys := map_ok f l in Ok (y :: ys)
  end.

Definition trimmed_lines (s : string) : list string :=
  filter (fun row => is_empty row = false) (map trim (split_on "010" s)).

(** [listPanes] on the standard output of tmux. *)
Definition listPanes (stdout : string) : result string (list PaneRow) :=
  let! rows := map_ok parse_pane_row (trimmed_lines (trim stdout)) in
  Ok (js_sort (fun a b => paneIndex a - paneIndex b) rows).

(** [ pane=(\d+) cycle=(\d+) line=(\d+)] at the start of [s]. *)
Definition match_tail (s : string) : option (Z * Z * Z) :=
  s ← strip " pane=" s; '(p, s) ← read_number s;
  s ← strip " cycle=" s; '(c, s) ← read_number s;
  s ← strip " line=" s; '(l, _) ← read_number s;
  Some (p, c, l).

(** [.*] is greedy: the last position at which the rest matches, and no line
    terminator before it. *)
Fixpoint last_tail (s : string) : option (Z * Z * Z) :=
  match s with
  | EmptyString => match_tail s
  | String c r =>
      if line_terminator c then match_tail s
      else match last_tail r with Some m => Some m | None => match_tail s end
  end.

Definition is_lower (c : ascii) : bool := let n := code c in ((97 <=? n) && (n <=? 122))%N.

(** [FIXTURE_LINE_PATTERN]. *)
Definition parseFixtureEvent (l : string) : option FixtureEvent :=
  s ← strip "[fixture profile=" l;
  let profile := take_while is_lower s in
  if is_empty profile then None
  else
    s ← strip " seq=" (str_drop (String.length profile) s);
    '(n, s) ← read_number s;
    s ← strip "] " s;
    '(p, c, i) ← last_tail s;
    Some (FixtureEvent_ profile n p c i l).

(** One turn of the loop of [extractFixtureCandidateLines]. *)
Definition stitch (acc : list string * string) (l : string) : list string * string :=
  let '(fixtures, current) := acc in
  if starts_with "[fixture profile=" l
  then ((if is_empty current then fixtures else fixtures ++ [current]), l)
  else if is_empty current then (fixtures, current)
  else (fixtures, (current +:+ l)%string).

Definition extractFixtureCandidateLines (captureOutput : string) : list string :=
  let '(fixtures, current) := foldl stitch ([], EmptyString) (trimmed_lines captureOutput) in
  if is_empty current then fixtures else fixtures ++ [current].

(** [uniqueBySeq]: the first event with a number stays. *)
Definition add_unique (acc : list FixtureEvent) (e : FixtureEvent) : list FixtureEvent :=
  if existsb (fun e' => seq e' =? seq e) acc then acc else acc ++ [e].

Definition by_seq (a b : FixtureEvent) : Z := seq a - seq b.

(** [capturePane] on the standard output of tmux. *)
Definition capturePane (profile stdout : string) : list FixtureEvent :=
  let events := omap parseFixtureEvent (extractFixtureCandidateLines (trim stdout)) in
  let events := filter (fun e => ev_profile e = profile) events in
  js_sort by_seq (foldl add_unique [] events).

(** ** Assertions *)

Record AssertionResult : Type := AssertionResult_ {
  name : string;
  passed : bool;
  detail : string
}.

(** An entry of [expected]. *)
Record Expected : Type := Expected_ { ex_seq : Z; ex_pane : Z; ex_cycle : Z; ex_line : Z }.

#[export] Instance expected_eq_dec : EqDecision Expected.
Proof. solve_decision. Defined.

(** The cycle, line and pane of every line, in the order of the three loops. *)
Definition schedule (rows : list PaneRow) (cycles linesPerCycle : Z) : list (Z * Z * PaneRow) :=
  c ← seqZ 1 cycles; l ← seqZ 1 linesPerCycle; row ← rows; [(c, l, row)].

Definition expected_of (i : nat) (x : Z * Z * PaneRow) : Expected :=
  Expected_ (Z.of_nat i + 1) (paneIndex x.2) x.1.1 x.1.2.

Definition expected_events (rows : list PaneRow) (cycles linesPerCycle : Z) : list Expected :=
  imap expected_of (schedule rows cycles linesPerCycle).

Fixpoint find_gap (index : Z) (events : list FixtureEvent) : Z :=
  match events with
  | [] => index + 1
  | e :: events => if negb (seq e =? index + 1) then index + 1 else find_gap (index + 1) events
  end.
Definition findFirstSequenceGap (events : list FixtureEvent) : Z := find_gap 0 events.

Fixpoint continuous (index : Z) (events : list FixtureEvent) : bool :=
  match events with
  | [] => true
  | e :: events => (seq e =? index + 1) && continuous (index + 1) events
  end.

Definition number_text (z : Z) : string := if z =? INFINITY then "Infinity" else int_to_string z.

Definition agrees (e : FixtureEvent) (x : Expected) : bool :=
  (seq e =? ex_seq x) && (pane e =? ex_pane x) && (cycle e =? ex_cycle x) && (line e =? ex_line x).

Definition mismatch_detail (e : FixtureEvent) (x : Expected) : string :=
  ("seq=" +:+ number_text (ex_seq x) +:+ " expected pane=" +:+ number_text (ex_pane x) +:+
   " cycle=" +:+ number_text (ex_cycle x) +:+ " line=" +:+ number_text (ex_line x) +:+
   ", actual pane=" +:+ number_text (pane e) +:+ " cycle=" +:+ number_text (cycle e) +:+
   " line=" +:+ number_text (line e))%string.

(** The loop over two lists of the same length, up to the first difference. *)
Fixpoint first_mismatch (events : list FixtureEvent) (expected : list Expected) : option string :=
  match events, expected with
  | e :: events, x :: expected =>
      if agrees e x then first_mismatch events expected else Some (mismatch_detail e x)
  | _, _ => None
  end.

Definition assertOrdering (capturedEvents : list FixtureEvent) (paneRows : list PaneRow)
    (cycles linesPerCycle : Z) : list AssertionResult :=
  let sortedBySeq := js_sort by_seq capturedEvents in
  let expected := expected_events paneRows cycles linesPerCycle in
  let count {A} (l : list A) := int_to_string (Z.of_nat (length l)) in
  let sequenceIsContinuous := continuous 0 sortedBySeq in
  let mismatch :=
    if (length sortedBySeq =? length expected)%nat then first_mismatch sortedBySeq expected
    else Some ("expected " +:+ count expected +:+ " ordered events, actual " +:+ count sortedBySeq)%string in
  [AssertionResult_ "global_sequence_continuous" sequenceIsContinuous
     (if sequenceIsContinuous then "validated " +:+ count sortedBySeq +:+ " events"
      else "expected seq " +:+ number_text (findFirstSequenceGap sortedBySeq) +:+ " at first mismatch")%string;
   AssertionResult_ "replay_order_matches_emit_schedule" (bool_decide (mismatch = None))
     (default "all events matched expected replay ordering"%string mismatch)].

(** ** What the emitting script prints *)

(** [printf '%0nd'] of a natural number. *)
Definition padded (n : nat) (z : Z) : string := padStart n (int_to_string z).

(** [profile_payload]. *)
Definition profile_payload (profile : string) (pane cycle line : Z) : string :=
  let where_ := (" pane=" +:+ int_to_string pane +:+ " cycle=" +:+ padded 3 cycle +:+
                 " line=" +:+ padded 2 line)%string in
  if String.eqb profile "replay" then
    ("topic=stream_" +:+ int_to_string (pane mod 4) +:+ " state=ok" +:+ where_ +:+
     " body=" +:+ in_quotes "delta packet")%string
  else
    ("topic=load_" +:+ int_to_string (pane mod 8) +:+ " state=queued" +:+ where_ +:+
     " bytes=512 checksum=" +:+ padded 4 ((cycle * 97 + line * 13 + pane) mod 10000))%string.

Definition formatted (profile : string) (x : Expected) : string :=
  ("[fixture profile=" +:+ profile +:+ " seq=" +:+ padded 5 (ex_seq x) +:+ "] " +:+
   profile_payload profile (ex_pane x) (ex_cycle x) (ex_line x))%string.

(** ** The run *)

Inductive stage : Type := CreateFixture | EmitOutput | ListPanes | CapturePane (row : PaneRow) | Teardown.

Record outcome : Type := Outcome {
  ran : list stage;
  assertions : list AssertionResult;
  overallPassed : bool;
  failureSummary : string
}.

Section Run.
(** What the scripts and tmux answer: an error message or the output. *)
Variables (create emit teardown panes_listing : result string string) (pane_capture : PaneRow -> result string string).
Variable options : Options.

Definition buildAssertion (name : string) (passed : bool) (detail : string) : AssertionResult :=
  AssertionResult_ name passed detail.

Definition count_detail (expected actual : Z) : string :=
  ("expected " +:+ number_text expected +:+ ", actual " +:+ number_text actual)%string.

(** The captures, pane by pane, up to the first that fails. *)
Fixpoint capture_panes (rows : list PaneRow) (ran : list stage) :
    list stage * result string (list (PaneRow * list FixtureEvent)) :=
  match rows with
  | [] => (ran, Ok [])
  | row :: rows =>
      let ran := ran ++ [CapturePane row] in
      match pane_capture row with
      | Throw e => (ran, Throw e)
      | Ok stdout =>
          let '(ran, r) := capture_panes rows ran in
          (ran, let! captures := r in Ok ((row, capturePane (profile options) stdout) :: captures))
      end
  end.

(** The [try] block: the stages it ran, whether the fixture was created, the
    assertions made before an error, and the error. *)
Definition body : list stage * bool * list AssertionResult * option string :=
  match create with
  | Throw e => ([CreateFixture], false, [], Some e)
  | Ok _ =>
      match emit with
      | Throw e => ([CreateFixture; EmitOutput], true, [], Some e)
      | Ok _ =>
          let ran := [CreateFixture; EmitOutput; ListPanes] in
          match (let! stdout := panes_listing in listPanes stdout) with
          | Throw e => (ran, true, [], Some e)
          | Ok paneRows =>
              let actual := Z.of_nat (length paneRows) in
              let a1 := buildAssertion "pane_count_matches_expected" (actual =? panes options)
                          (count_detail (panes options) actual) in
              match capture_panes paneRows ran with
              | (ran, Throw e) => (ran, true, [a1], Some e)
              | (ran, Ok captures) =>
                  let capturedEvents := concat (map snd captures) in
                  let total := panes options * cycles options * linesPerCycle options in
                  let a2 := buildAssertion "total_event_count" (Z.of_nat (length capturedEvents) =? total)
                              (count_detail total (Z.of_nat (length capturedEvents))) in
                  let perPane := cycles options * linesPerCycle options in
                  let per := map (fun c =>
                    buildAssertion ("pane_" +:+ int_to_string (paneIndex c.1) +:+ "_event_count")%string
                      (Z.of_nat (length c.2) =? perPane) (count_detail perPane (Z.of_nat (length c.2)))) captures in
                  (ran, true,
                   [a1; a2] ++ per ++
                     assertOrdering capturedEvents paneRows (cycles options) (linesPerCycle options), None)
              end
          end
      end
  end.

(** [main] after the options: the [finally] block and the verdict. *)
Definition run_evidence : outcome :=
  let '(ran, createdFixture, assertionResults, error) := body in
  let failureSummary := default EmptyString error in
  let ok := bool_decide (error = None) in
  let '(ran, ok, failureSummary) :=
    if createdFixture && negb (keepFixture options) then
      match teardown with
      | Ok _ => (ran ++ [Teardown], ok, failureSummary)
      | Throw e =>
          (ran ++ [Teardown], false,
           (if is_empty failureSummary then "teardown failed: " +:+ e
            else failureSummary +:+ "; teardown failed: " +:+ e)%string)
      end
    else (ran, ok, failureSummary) in
  match List.find (fun a : AssertionResult => negb (passed a)) assertionResults with
  | Some a =>
      Outcome ran assertionResults false
        (if is_empty failureSummary then name a +:+ ": " +:+ detail a else failureSummary)%string
  | None => Outcome ran assertionResults ok failureSummary
  end.
End Run.

(** ** Reading what was emitted *)

Lemma take_while_drop f a c b : str_forallb f a = true -> f c = false ->
  str_drop (String.length (take_while f (a +:+ String c b)%string)) (a +:+ String c b)%string = String c b.
Proof. intros Ha Hc. rewrite take_while_app by done. apply str_drop_app. Qed.

Lemma strip_app p s : strip p (p +:+ s)%string = Some s.
Proof. unfold strip. by rewrite starts_with_app, str_drop_app. Qed.

Lemma read_zeros n s : read_digits (Some 0) (zeros n +:+ s)%string = read_digits (Some 0) s.
Proof.
  induction n as [|n IH]; [by rewrite str_app_nil_l|].
  change (zeros (S n)) with (String "0" (zeros n)). rewrite str_app_cons. exact IH.
Qed.

Lemma zeros_digits n : str_forallb is_digit (zeros n) = true.
Proof. by induction n. Qed.

Lemma padded_digits n z : 0 <= z -> str_forallb is_digit (padded n z) = true.
Proof. intros Hz. unfold padded, padStart. rewrite str_forallb_app, zeros_digits. by apply int_to_string_digits. Qed.

Lemma padded_zero z : padded 0 z = int_to_string z.
Proof. unfold padded, padStart. simpl. apply str_app_nil_l. Qed.

Lemma padded_head n z : 0 <= z -> exists c r d, padded n z = String c r /\ digit_of c = Some d.
Proof.
  intros Hz. pose proof (padded_digits n z Hz) as Hd.
  destruct (padded n z) as [|c r] eqn:Hp.
  - exfalso. unfold padded, padStart in Hp. destruct (int_to_string_head z Hz) as (c & r & d & Hs & _).
    rewrite Hs in Hp. by destruct (zeros _).
  - simpl in Hd. apply andb_true_iff in Hd as [Hd _]. unfold is_digit in Hd.
    destruct (digit_of c) as [d|] eqn:Hc; [|done]. by exists c, r, d.
Qed.

Lemma parse_digits s c r d : s = String c r -> digit_of c = Some d ->
  parse_int_exact s = read_digits (Some 0) s.
Proof.
  intros -> Hc. unfold parse_int_exact.
  assert (Hs : trim_start (String c r) = String c r).
  { simpl. destruct (is_space c) eqn:Hsp; [|done]. by destruct c as [[] [] [] [] [] [] [] []]. }
  rewrite Hs. rewrite <- (read_digits_head (String c r) c r d eq_refl Hc).
  by destruct c as [[] [] [] [] [] [] [] []].
Qed.

Lemma double_value_padded n z : 0 <= z <= max_safe_integer -> double_value (padded n z) = z.
Proof.
  intros Hz. unfold double_value, parse_int.
  destruct (padded_head n z ltac:(lia)) as (c & r & d & Hs & Hd).
  destruct (int_to_string_head z ltac:(lia)) as (c' & r' & d' & Hs' & Hd').
  rewrite (parse_digits _ _ _ _ Hs Hd). unfold padded, padStart. rewrite read_zeros.
  rewrite <- (parse_digits _ _ _ _ Hs' Hd'), parse_int_exact_to_string by lia.
  rewrite round_to_double_small by lia. by rewrite num_to_Z_int.
Qed.

Lemma read_padded n z c s : 0 <= z <= max_safe_integer -> is_digit c = false ->
  read_number (padded n z +:+ String c s)%string = Some (z, String c s).
Proof.
  intros Hz Hc. unfold read_number. pose proof (padded_digits n z ltac:(lia)) as Hd.
  rewrite take_while_drop, take_while_app by done.
  destruct (padded_head n z ltac:(lia)) as (c' & r' & d' & Hs & _).
  destruct (is_empty (padded n z)) eqn:He; [by rewrite Hs in He|]. by rewrite double_value_padded.
Qed.

(** ** The greedy search *)

(** Neither a space nor a line terminator. *)
Definition solid (c : ascii) : bool := negb (Ascii.eqb c " ") && negb (line_terminator c).

Lemma last_tail_step c r :
  line_terminator c = false -> match_tail (String c r) = None -> last_tail (String c r) = last_tail r.
Proof. intros Hc Hm. simpl. rewrite Hc. rewrite Hm. by destruct (last_tail r). Qed.

Lemma match_tail_head c r : Ascii.eqb c " " = false -> match_tail (String c r) = None.
Proof.
  intros Hc. unfold match_tail, strip.
  assert (starts_with " pane=" (String c r) = false) as ->; [|done].
  by destruct c as [[] [] [] [] [] [] [] []].
Qed.

Lemma last_tail_word w r : str_forallb solid w = true -> last_tail (w +:+ r)%string = last_tail r.
Proof.
  induction w as [|c w IH]; [by rewrite str_app_nil_l|]. cbn [str_forallb]. intros [Hc Hw]%andb_true_iff.
  unfold solid in Hc. apply andb_true_iff in Hc as [Hc Ht]. apply negb_true_iff in Hc, Ht.
  rewrite str_app_cons, last_tail_step by (done || by apply match_tail_head). by apply IH.
Qed.

Lemma last_tail_space r : starts_with "pane=" r = false -> last_tail (String " " r) = last_tail r.
Proof.
  intros Hr. apply last_tail_step; [done|]. unfold match_tail, strip.
  change (starts_with " pane=" (String " " r)) with (starts_with "pane=" r). by rewrite Hr.
Qed.

Lemma digits_solid s : str_forallb is_digit s = true -> str_forallb solid s = true.
Proof.
  apply str_forallb_impl. intros c. unfold is_digit. by destruct c as [[] [] [] [] [] [] [] []].
Qed.

(** A number the script prints and the reader gets back. *)
Definition small (z : Z) : Prop := 0 <= z <= max_safe_integer.

Definition tail_text (p c l : Z) (rest : string) : string :=
  (" pane=" +:+ padded 0 p +:+ " cycle=" +:+ padded 3 c +:+ " line=" +:+ padded 2 l +:+ String " " rest)%string.

Lemma match_tail_text p c l rest : small p -> small c -> small l ->
  match_tail (tail_text p c l rest) = Some (p, c, l).
Proof.
  intros Hp Hc Hl. unfold match_tail, tail_text. rewrite strip_app. cbn [mbind option_bind].
  change (" cycle=" +:+ ?s)%string with (String " " ("cycle=" +:+ s)).
  rewrite (read_padded 0 p " " _ Hp eq_refl). cbn [mbind option_bind].
  change (String " " ("cycle=" +:+ ?s)%string) with (" cycle=" +:+ s)%string. rewrite strip_app. cbn [mbind option_bind].
  change (" line=" +:+ ?s)%string with (String " " ("line=" +:+ s)).
  rewrite (read_padded 3 c " " _ Hc eq_refl). cbn [mbind option_bind].
  change (String " " ("line=" +:+ ?s)%string) with (" line=" +:+ s)%string. rewrite strip_app. cbn [mbind option_bind].
  by rewrite (read_padded 2 l " " _ Hl eq_refl).
Qed.

Lemma last_tail_text p c l rest :
  last_tail rest = None -> starts_with "pane=" rest = false -> small p -> small c -> small l ->
  last_tail (tail_text p c l rest) = Some (p, c, l).
Proof.
  intros Hrest Hs Hp Hc Hl. pose proof (match_tail_text p c l rest Hp Hc Hl) as Hm.
  assert (Hd : forall n z, small z -> str_forallb solid (padded n z) = true).
  { intros n z [Hz _]. by apply digits_solid, padded_digits. }
  assert (Hnone : last_tail ("pane=" +:+ padded 0 p +:+ String " " ("cycle=" +:+ padded 3 c +:+
                    String " " ("line=" +:+ padded 2 l +:+ String " " rest)))%string = None).
  { repeat (rewrite last_tail_word by (reflexivity || by apply Hd)).
    rewrite last_tail_space by done. repeat (rewrite last_tail_word by (reflexivity || by apply Hd)).
    rewrite last_tail_space by done. repeat (rewrite last_tail_word by (reflexivity || by apply Hd)).
    by rewrite last_tail_space. }
  change (tail_text p c l rest) with (String " " ("pane=" +:+ padded 0 p +:+ String " " ("cycle=" +:+ padded 3 c +:+
                    String " " ("line=" +:+ padded 2 l +:+ String " " rest)))%string) in *.
  cbn [last_tail line_terminator Ascii.eqb]. 
  match goal with |- context [last_tail ?x] => change x with ("pane=" +:+ padded 0 p +:+ String " " ("cycle=" +:+ padded 3 c +:+
                    String " " ("line=" +:+ padded 2 l +:+ String " " rest)))%string end.
  rewrite Hnone. exact Hm.
Qed.

Definition fits (x : Expected) : Prop :=
  small (ex_seq x) /\ small (ex_pane x) /\ small (ex_cycle x) /\ small (ex_line x).

Definition event_of (profile : string) (x : Expected) : FixtureEvent :=
  FixtureEvent_ profile (ex_seq x) (ex_pane x) (ex_cycle x) (ex_line x) (formatted profile x).

(** The two profiles, as [--profile] admits them. *)
Definition known (profile : string) : Prop := profile = "replay"%string \/ profile = "load"%string.

(** The payload: some words, the numbers, and a rest in which they do not occur again. *)
Lemma payload_shape profile p c l : known profile -> small p -> small c -> small l ->
  exists w n rest, profile_payload profile p c l =
      (w +:+ padded 0 n +:+ String " " (rest.1 +:+ tail_text p c l rest.2))%string /\
    small n /\ str_forallb solid w = true /\ str_forallb solid rest.1 = true /\
    starts_with "pane=" (rest.1 +:+ tail_text p c l rest.2)%string = false /\
    last_tail rest.2 = None /\ starts_with "pane=" rest.2 = false.
Proof.
  intros Hk Hp Hc Hl. unfold small in *.
  destruct Hk as [-> | ->].
  - exists "topic=stream_"%string, (p mod 4), ("state=ok"%string, ("body=" +:+ in_quotes "delta packet")%string).
    cbn [fst snd]. split_and!; [|apply Z.mod_pos_bound; lia| |done|done|done|done|done].
    + unfold profile_payload. cbn [String.eqb Ascii.eqb Bool.eqb]. unfold tail_text. rewrite (padded_zero (p mod 4)), (padded_zero p).
      by rewrite <- !str_app_assoc.
    + pose proof (Z.mod_pos_bound p 4 ltac:(lia)). unfold max_safe_integer. lia.
  - exists "topic=load_"%string, (p mod 8), ("state=queued"%string,
      ("bytes=512 checksum=" +:+ padded 4 ((c * 97 + l * 13 + p) mod 10000))%string).
    cbn [fst snd]. split_and!; [|apply Z.mod_pos_bound; lia| |done|done|done| |done].
    + unfold profile_payload. cbn [String.eqb Ascii.eqb Bool.eqb]. unfold tail_text. rewrite (padded_zero (p mod 8)), (padded_zero p).
      by rewrite <- !str_app_assoc.
    + pose proof (Z.mod_pos_bound p 8 ltac:(lia)). unfold max_safe_integer. lia.
    + change ("bytes=512 checksum=" +:+ ?x)%string with ("bytes=512" +:+ String " " ("checksum=" +:+ x))%string.
      rewrite last_tail_word, last_tail_space by done. rewrite last_tail_word by done.
      set (sum := (c * 97 + l * 13 + p) mod 10000).
      rewrite <- (str_app_nil_r (padded 4 sum)), last_tail_word; [done|].
      apply digits_solid, padded_digits, Z.mod_pos_bound. lia.
Qed.

Lemma last_tail_payload profile p c l : known profile -> small p -> small c -> small l ->
  last_tail (profile_payload profile p c l) = Some (p, c, l).
Proof.
  intros Hk Hp Hc Hl.
  destruct (payload_shape profile _ _ _ Hk Hp Hc Hl) as (w & n & [v rest] & -> & Hn & Hw & Hv & Hpre & Hlast & Hrest).
  cbn [fst snd] in *. rewrite last_tail_word by done.
  rewrite last_tail_word by (apply digits_solid, padded_digits; apply Hn).
  rewrite last_tail_space, last_tail_word by done. by apply last_tail_text.
Qed.

Lemma profile_read profile s : known profile ->
  take_while is_lower (profile +:+ String " " s)%string = profile.
Proof. by intros [-> | ->]. Qed.

Lemma parse_formatted profile x : known profile -> fits x ->
  parseFixtureEvent (formatted profile x) = Some (event_of profile x).
Proof.
  intros Hk (Hs & Hp & Hc & Hl). unfold event_of.
  assert (Hf : forall text, text = formatted profile x ->
    (s ← strip "[fixture profile=" text;
     let profile := take_while is_lower s in
     if is_empty profile then None
     else s ← strip " seq=" (str_drop (String.length profile) s); '(n, s) ← read_number s;
          s ← strip "] " s; '(p, c, i) ← last_tail s; Some (FixtureEvent_ profile n p c i text)) =
    Some (FixtureEvent_ profile (ex_seq x) (ex_pane x) (ex_cycle x) (ex_line x) text)); [|by apply Hf].
  intros text Ht. rewrite Ht at 1. unfold formatted. rewrite strip_app. cbn [mbind option_bind]. cbv zeta.
  change (" seq=" +:+ ?s)%string with (String " " ("seq=" +:+ s)).
  rewrite (profile_read _ _ Hk), str_drop_app.
  destruct (is_empty profile) eqn:He; [by destruct Hk as [-> | ->]|].
  change (String " " ("seq=" +:+ ?s)%string) with (" seq=" +:+ s)%string. rewrite strip_app. cbn [mbind option_bind].
  change ("] " +:+ ?s)%string with (String "]" (" " +:+ s)).
  rewrite (read_padded 5 _ "]" _ Hs eq_refl). cbn [mbind option_bind].
  change (String "]" (" " +:+ ?s)%string) with ("] " +:+ s)%string. rewrite strip_app. cbn [mbind option_bind].
  by rewrite last_tail_payload.
Qed.

(** ** The capture of a pane *)

Lemma last_solid a b : b <> EmptyString -> str_forallb (fun c => negb (is_space c)) b = true ->
  exists a' d, (a +:+ b)%string = (a' +:+ String d "")%string /\ is_space d = false.
Proof.
  revert a. induction b as [|c b IH]; intros a Hn; [done|]. cbn [str_forallb].
  intros [Hc%negb_true_iff Hb]%andb_true_iff. destruct b as [|c' b]; [by exists a, c|].
  destruct (IH (a +:+ String c "")%string ltac:(done) Hb) as (a' & d & He & Hd).
  exists a', d. split; [|done]. by rewrite <- He, <- str_app_assoc.
Qed.

Lemma formatted_trim profile x : known profile -> fits x -> trim (formatted profile x) = formatted profile x.
Proof.
  intros Hk (Hs & Hp & Hc & Hl).
  assert (Hlast : exists a b, formatted profile x = (a +:+ b)%string /\ b <> EmptyString /\
            str_forallb (fun c => negb (is_space c)) b = true).
  { unfold formatted, profile_payload. destruct Hk as [-> | ->]; cbn [String.eqb Ascii.eqb Bool.eqb].
    - eexists _, (String dquote ""). split; [|done]. unfold in_quotes.
      change (String dquote "" +:+ "delta packet" +:+ String dquote "")%string with
        (String dquote "delta packet" +:+ String dquote "")%string.
      rewrite !str_app_assoc. reflexivity.
    - set (sum := (_ mod 10000)). assert (Hsum : 0 <= sum) by (apply Z.mod_pos_bound; lia).
      eexists _, (padded 4 sum). split; [rewrite !str_app_assoc; reflexivity|].
      destruct (padded_head 4 sum Hsum) as (? & ? & ? & He & _). split; [by rewrite He|].
      eapply str_forallb_impl; [|by apply padded_digits].
      intros c. by destruct c as [[] [] [] [] [] [] [] []]. }
  destruct Hlast as (a & b & Hf & Hn & Hb). destruct (last_solid a b Hn Hb) as (a' & d & He & Hd).
  rewrite <- Hf in He. by apply (trim_id _ _ _ a' d eq_refl).
Qed.

Lemma formatted_one_line profile x : known profile -> fits x -> index_of "010" (formatted profile x) = None.
Proof.
  intros Hk (Hs & Hp & Hc & Hl). apply index_of_None_forallb.
  assert (Hd : forall n z, 0 <= z -> str_forallb (fun c => negb (Ascii.eqb "010" c)) (padded n z) = true).
  { intros n z Hz. eapply str_forallb_impl; [|by apply (padded_digits n)].
    intros c. by destruct c as [[] [] [] [] [] [] [] []]. }
  assert (Hi : forall z, 0 <= z -> str_forallb (fun c => negb (Ascii.eqb "010" c)) (int_to_string z) = true).
  { intros z Hz. rewrite <- padded_zero. by apply Hd. }
  unfold small in *. unfold formatted, profile_payload.
  destruct Hk as [-> | ->]; cbn [String.eqb Ascii.eqb Bool.eqb]; rewrite !str_forallb_app, !Hd, !Hi; try done;
    try lia; try (apply Z.mod_pos_bound; lia).
Qed.

Lemma formatted_start profile x :
  starts_with "[fixture profile=" (formatted profile x) = true /\ is_empty (formatted profile x) = false.
Proof. unfold formatted. by rewrite starts_with_app. Qed.

Lemma stitch_formatted profile xs fixtures current :
  foldl stitch (fixtures, current) (map (formatted profile) xs) =
    match last xs with
    | None => (fixtures, current)
    | Some x => ((if is_empty current then fixtures else fixtures ++ [current]) ++
                   map (formatted profile) (removelast xs), formatted profile x)
    end.
Proof.
  revert fixtures current. induction xs as [|x xs IH]; intros fixtures current; [done|].
  destruct (formatted_start profile x) as [Hs He]. cbn [map foldl]. unfold stitch at 2. rewrite Hs, IH.
  destruct xs as [|y xs]; [cbn [last removelast map]; by rewrite app_nil_r|].
  change (last (x :: y :: xs)) with (last (y :: xs)).
  destruct (last (y :: xs)) eqn:Hl; [|by apply last_None in Hl].
  rewrite He. by rewrite <- app_assoc.
Qed.

Lemma extract_formatted profile xs : known profile -> Forall fits xs ->
  extractFixtureCandidateLines (join newline_text (map (formatted profile) xs)) = map (formatted profile) xs.
Proof.
  intros Hk Hf. unfold extractFixtureCandidateLines.
  assert (Ht : trimmed_lines (join newline_text (map (formatted profile) xs)) = map (formatted profile) xs).
  { unfold trimmed_lines. destruct xs as [|x xs]; [done|].
    change newline_text with (String "010" ""). rewrite split_on_join; [|done|].
    - assert (Hmap : map trim (map (formatted profile) (x :: xs)) = map (formatted profile) (x :: xs)).
      { rewrite map_map. apply map_ext_in. intros y Hy. apply formatted_trim; [done|].
        by eapply Forall_forall; [|apply list_elem_of_In]. }
      rewrite Hmap. apply filter_all, Forall_forall. intros y Hy. apply list_elem_of_fmap in Hy as (z & -> & _).
      apply formatted_start.
    - apply Forall_forall. intros y Hy. apply list_elem_of_fmap in Hy as (z & -> & Hz).
      apply formatted_one_line; [done|]. by eapply Forall_forall in Hf. }
  rewrite Ht, stitch_formatted. destruct (last xs) as [x|] eqn:Hl; [|by apply last_None in Hl as ->].
  destruct (formatted_start profile x) as [_ ->]. cbn [is_empty app].
  apply last_Some in Hl as [xs' ->]. by rewrite removelast_last, map_app.
Qed.

(** Dropping repetitions keeps one copy of every event, when numbers identify events. *)
Lemma unique_spec acc es :
  (forall e e', e ∈ acc ++ es -> e' ∈ acc ++ es -> seq e = seq e' -> e = e') -> NoDup acc ->
  NoDup (foldl add_unique acc es) /\ forall e, e ∈ foldl add_unique acc es <-> e ∈ acc ++ es.
Proof.
  revert acc. induction es as [|e es IH]; intros acc Hinj Hnd; cbn [foldl].
  - by rewrite app_nil_r.
  - assert (Hstep : NoDup (add_unique acc e) /\ forall x, x ∈ add_unique acc e <-> x ∈ acc \/ x = e).
    { unfold add_unique. destruct (existsb _ acc) eqn:Hx.
      - apply existsb_exists in Hx as (e' & Hin & Hs%Z.eqb_eq). apply list_elem_of_In in Hin.
        assert (e' = e) as -> by (apply Hinj; [set_solver..|done]). split; [done|]. set_solver.
      - split; [|intros x; rewrite elem_of_app, list_elem_of_singleton; done].
        apply NoDup_app. split_and!; [done| |apply NoDup_singleton].
        intros x Hin ->%list_elem_of_singleton. apply not_true_iff_false in Hx. apply Hx.
        apply existsb_exists. exists e. split; [by apply list_elem_of_In|apply Z.eqb_refl]. }
    destruct Hstep as [Hnd' Hin]. destruct (IH (add_unique acc e)) as [H1 H2]; [|done|].
    + intros x y. rewrite !elem_of_app, !Hin. intros Hx Hy. apply Hinj; set_solver.
    + split; [done|]. intros x. rewrite H2, !elem_of_app, Hin. set_solver.
Qed.

Lemma event_of_inj profile xs x y :
  NoDup (map ex_seq xs) -> x ∈ xs -> y ∈ xs -> seq (event_of profile x) = seq (event_of profile y) -> x = y.
Proof.
  intros Hnd Hx Hy Hs. cbn [event_of seq] in Hs.
  apply list_elem_of_lookup in Hx as [i Hi], Hy as [j Hj].
  assert (i = j); [|by simplify_eq].
  apply (NoDup_lookup _ i j (ex_seq x) Hnd); [by rewrite list_lookup_fmap, Hi|by rewrite list_lookup_fmap, Hj, Hs].
Qed.

Lemma capture_formatted profile stdout xs ys :
  known profile -> Forall fits ys -> NoDup (map ex_seq ys) -> (forall x, x ∈ xs <-> x ∈ ys) ->
  trim stdout = join newline_text (map (formatted profile) xs) ->
  capturePane profile stdout ≡ₚ map (event_of profile) ys.
Proof.
  intros Hk Hf Hnd Hxy Ht. unfold capturePane.
  assert (Hfx : Forall fits xs).
  { apply Forall_forall. intros x Hx. apply Hxy in Hx. by eapply Forall_forall in Hf. }
  rewrite Ht, extract_formatted by done.
  assert (Hp : omap parseFixtureEvent (map (formatted profile) xs) = map (event_of profile) xs).
  { clear Hxy Ht. induction Hfx as [|x xs Hx _ IH]; [done|]. simpl. rewrite (parse_formatted _ _ Hk Hx). by f_equal. }
  rewrite Hp, filter_all by (apply Forall_forall; intros e (x & -> & _)%list_elem_of_fmap; done).
  rewrite js_sort_perm.
  destruct (unique_spec [] (map (event_of profile) xs)) as [H1 H2]; [|constructor|].
  - intros e e' (x & -> & Hx)%list_elem_of_fmap (y & -> & Hy)%list_elem_of_fmap Hs.
    f_equal. apply (event_of_inj profile ys); [done|by apply Hxy|by apply Hxy|done].
  - apply NoDup_Permutation; [done| |].
    + apply (NoDup_fmap_1 seq). rewrite map_map. exact Hnd.
    + intros e. rewrite H2. cbn [app]. rewrite !list_elem_of_fmap. by setoid_rewrite Hxy.
Qed.

(** ** The ordering assertions *)

Definition fields (e : FixtureEvent) : Expected := Expected_ (seq e) (pane e) (cycle e) (line e).

Lemma agrees_iff e x : agrees e x = true <-> fields e = x.
Proof.
  unfold agrees, fields. rewrite !andb_true_iff, !Z.eqb_eq. destruct x as [a b c d]. simpl.
  split; [intros (((-> & ->) & ->) & ->); done|intros [= -> -> -> ->]; done].
Qed.

Lemma first_mismatch_none events expected :
  length events = length expected ->
  first_mismatch events expected = None <-> map fields events = expected.
Proof.
  revert expected. induction events as [|e events IH]; intros [|x expected]; try done.
  simpl. intros [= Hl]. destruct (agrees e x) eqn:Ha.
  - apply agrees_iff in Ha as <-. rewrite (IH _ Hl). split; [by intros ->|by intros [= ->]].
  - split; [done|]. intros [= Hx _]. apply agrees_iff in Hx. congruence.
Qed.

Lemma imap_length {A B} (f : nat -> A -> B) l : length (imap f l) = length l.
Proof. by rewrite length_imap. Qed.

Lemma continuous_numbered events expected :
  (forall i x, expected !! i = Some x -> ex_seq x = Z.of_nat i + 1) ->
  map fields events = expected -> continuous 0 events = true.
Proof.
  intros Hn <-. change 0 with (Z.of_nat 0). assert (H : forall k i e, events !! i = Some e -> k = 0%nat -> seq e = Z.of_nat (k + i) + 1).
  { intros k i e Hi ->. apply (Hn i (fields e)). by rewrite list_lookup_fmap, Hi. }
  clear Hn. assert (H' : forall i e, events !! i = Some e -> seq e = Z.of_nat (0 + i) + 1) by (intros; by apply H).
  clear H. revert H'. generalize 0%nat. induction events as [|e events IH]; intros k H; [done|].
  simpl. rewrite (H 0%nat e eq_refl), Nat.add_0_r, Z.eqb_refl. simpl.
  replace (Z.of_nat k + 1) with (Z.of_nat (S k)) by lia. apply IH.
  intros i e' Hi. rewrite (H (S i) e' Hi). lia.
Qed.

Lemma expected_seq rows c l i x : expected_events rows c l !! i = Some x -> ex_seq x = Z.of_nat i + 1.
Proof.
  unfold expected_events. rewrite list_lookup_imap. intros (y & _ & ->)%fmap_Some. done.
Qed.

Lemma expected_NoDup rows c l : NoDup (map ex_seq (expected_events rows c l)).
Proof.
  apply NoDup_alt. intros i j s. rewrite !list_lookup_fmap.
  intros (x & Hx & ->)%fmap_Some (y & Hy & Hs)%fmap_Some.
  rewrite (expected_seq _ _ _ _ _ Hx), (expected_seq _ _ _ _ _ Hy) in Hs. lia.
Qed.

Lemma StronglySorted_map {A B} (f : A -> B) (R : B -> B -> Prop) l :
  StronglySorted (fun a b => R (f a) (f b)) l -> StronglySorted R (map f l).
Proof.
  induction 1 as [|x l _ IH Hx]; simpl; constructor; [done|]. by apply Forall_fmap.
Qed.

Lemma numbered_sorted (l : list Expected) k :
  (forall i x, l !! i = Some x -> ex_seq x = Z.of_nat i + k) ->
  StronglySorted (fun a b => ex_seq a <= ex_seq b) l.
Proof.
  revert k. induction l as [|x l IH]; intros k H; constructor.
  - apply (IH (k + 1)). intros i y Hi. rewrite (H (S i) y Hi). lia.
  - apply Forall_lookup. intros i y Hi. rewrite (H 0%nat x eq_refl), (H (S i) y Hi). lia.
Qed.

Lemma ordered_iff evs rows c l :
  map fields (js_sort by_seq evs) = expected_events rows c l <->
  map fields evs ≡ₚ expected_events rows c l.
Proof.
  split; intros H.
  - rewrite <- H. apply Permutation_map. symmetry. apply js_sort_perm.
  - apply (StronglySorted_unique_strong (fun a b => ex_seq a <= ex_seq b)).
    + intros x y Hx%list_elem_of_lookup Hy%list_elem_of_lookup Hxy Hyx.
      destruct Hy as [j Hj].
      assert (Hx' : x ∈ expected_events rows c l).
      { rewrite <- H. destruct Hx as [i Hi]. apply list_elem_of_lookup_2 in Hi.
        apply list_elem_of_fmap in Hi as (e & -> & He). apply list_elem_of_fmap. exists e.
        split; [done|]. by rewrite <- (js_sort_perm by_seq). }
      apply list_elem_of_lookup in Hx' as [i Hi].
      pose proof (expected_seq _ _ _ _ _ Hi). pose proof (expected_seq _ _ _ _ _ Hj).
      assert (i = j) by lia. by simplify_eq.
    + apply StronglySorted_map.
      assert (Hs : StronglySorted (fun a b => by_seq a b <= 0) (js_sort by_seq evs))
        by (apply js_sort_sorted; unfold by_seq; lia).
      eapply StronglySorted_weaken; [|exact Hs]. unfold by_seq. simpl. intros. lia.
    + apply (numbered_sorted _ 1). intros i x. apply expected_seq.
    + rewrite <- H. apply Permutation_map, js_sort_perm.
Qed.

Lemma ordering_iff evs rows c l :
  forallb passed (assertOrdering evs rows c l) = true <-> map fields evs ≡ₚ expected_events rows c l.
Proof.
  rewrite <- ordered_iff. unfold assertOrdering. cbn [forallb passed]. rewrite andb_true_r, andb_true_iff.
  set (evs' := js_sort by_seq evs). set (ex := expected_events rows c l).
  rewrite bool_decide_eq_true. split.
  - intros [_ H]. destruct (Nat.eqb_spec (length evs') (length ex)); [|done]. by apply first_mismatch_none.
  - intros H. split; [eapply continuous_numbered; [|exact H]; by apply expected_seq|].
    assert (Hl : length evs' = length ex) by (by rewrite <- H, length_map).
    rewrite Hl, Nat.eqb_refl. by apply first_mismatch_none.
Qed.

Lemma ordering_assertions_hold evs rows c l a :
  map fields evs ≡ₚ expected_events rows c l -> a ∈ assertOrdering evs rows c l -> passed a = true.
Proof.
  intros H%ordering_iff Ha. rewrite forallb_forall in H. apply H. by apply list_elem_of_In.
Qed.

(** ** The schedule of one pane *)

Lemma concat_by_key {A B} `{EqDecision B} (key : A -> B) (ks : list B) (xs : list A) :
  NoDup ks -> Forall (fun x => key x ∈ ks) xs ->
  concat (map (fun k => filter (fun x => key x = k) xs) ks) ≡ₚ xs.
Proof.
  intros Hnd. induction xs as [|x xs IH]; intros Hk.
  - clear. by induction ks.
  - apply Forall_cons in Hk as [Hx Hk]. etrans; [|constructor; apply (IH Hk)]. clear IH Hk.
    induction ks as [|k ks IHk]; [by apply not_elem_of_nil in Hx|].
    apply NoDup_cons in Hnd as [Hnk Hnd]. cbn [map concat]. rewrite filter_cons.
    destruct (decide (key x = k)) as [He|Hne].
    + cbn [app]. constructor. apply Permutation_app_head.
      assert (Hsame : map (fun k => filter (fun y => key y = k) (x :: xs)) ks =
                      map (fun k => filter (fun y => key y = k) xs) ks); [|by rewrite Hsame].
      apply map_ext_in. intros k' Hk'. rewrite filter_cons, decide_False; [done|].
      intros Hkk. apply Hnk. rewrite <- He, Hkk. by apply list_elem_of_In.
    + apply elem_of_cons in Hx as [Hx|Hx]; [done|]. rewrite (IHk Hnd Hx).
      symmetry. by rewrite <- Permutation_middle.
Qed.

Definition pane_expected (options : Options) (rows : list PaneRow) (row : PaneRow) : list Expected :=
  filter (fun x => ex_pane x = paneIndex row) (expected_events rows (cycles options) (linesPerCycle options)).

Lemma filter_bind {A B} (P : B -> Prop) `{!forall x, Decision (P x)} (f : A -> list B) l :
  filter P (l ≫= f) = l ≫= (fun x => filter P (f x)).
Proof. induction l as [|x l IH]; [done|]. csimpl. by rewrite filter_app, IH. Qed.

Lemma length_bind_const {A B} (f : A -> list B) l n :
  (forall x, length (f x) = n) -> length (l ≫= f) = (length l * n)%nat.
Proof. intros H. induction l as [|x l IH]; [done|]. csimpl. by rewrite length_app, H, IH. Qed.

Lemma filter_imap_length {A B} (f : nat -> A -> B) (P : B -> Prop) (Q : A -> Prop)
    `{!forall x, Decision (P x), !forall x, Decision (Q x)} l :
  (forall i x, P (f i x) <-> Q x) -> length (filter P (imap f l)) = length (filter Q l).
Proof.
  intros Hf. revert f Hf. induction l as [|x l IH]; intros f Hf; [done|].
  cbn [imap]. rewrite !filter_cons.
  destruct (decide (P (f 0%nat x))) as [Hp|Hp]; [rewrite decide_True by (by apply (Hf 0%nat))|
    rewrite decide_False by (by rewrite <- (Hf 0%nat))]; simpl; rewrite (IH (f ∘ S)); try done; intros; apply Hf.
Qed.

Lemma schedule_pane rows c l row :
  0 <= c -> 0 <= l -> NoDup (map paneIndex rows) -> row ∈ rows ->
  length (filter (fun x => ex_pane x = paneIndex row) (expected_events rows c l)) = Z.to_nat (c * l).
Proof.
  intros Hc Hl Hnd Hrow. unfold expected_events.
  rewrite (filter_imap_length expected_of _ (fun x => paneIndex x.2 = paneIndex row)) by done.
  unfold schedule. rewrite filter_bind.
  rewrite (length_bind_const _ _ (Z.to_nat l)); [rewrite length_seqZ, Z2Nat.inj_mul by done; done|].
  intros cy. rewrite filter_bind. rewrite (length_bind_const _ _ 1%nat); [rewrite length_seqZ; lia|].
  intros li. rewrite filter_bind. clear -Hnd Hrow.
  induction rows as [|r rows IH]; [by apply not_elem_of_nil in Hrow|].
  csimpl. cbn [map] in Hnd. apply NoDup_cons in Hnd as [Hr Hnd].
  rewrite filter_cons, filter_nil. cbn [snd].
  assert (Hnone : forall p, p ∉ map paneIndex rows ->
    (rows ≫= (fun r => filter (fun x : Z * Z * PaneRow => paneIndex x.2 = p) [(cy, li, r)])) = []).
  { clear. intros p. induction rows as [|r rows IH]; [done|]. cbn [map]. intros [Hr Hp]%not_elem_of_cons.
    csimpl. rewrite filter_cons, decide_False by (simpl; congruence). simpl. by apply IH. }
  destruct (decide (paneIndex r = paneIndex row)) as [He|Hne].
  - cbn [app length]. rewrite He in Hr. by rewrite Hnone.
  - cbn [app]. apply IH; [done|]. apply elem_of_cons in Hrow as [-> |]; done.
Qed.

Lemma expected_length rows c l :
  0 <= c -> 0 <= l -> Z.of_nat (length (expected_events rows c l)) = Z.of_nat (length rows) * c * l.
Proof.
  intros Hc Hl. unfold expected_events. rewrite length_imap. unfold schedule.
  rewrite (length_bind_const _ _ (Z.to_nat l * length rows)%nat).
  - rewrite length_seqZ. lia.
  - intros cy. rewrite (length_bind_const _ _ (length rows)); [by rewrite length_seqZ|].
    intros li. rewrite (length_bind_const _ _ 1%nat) by done. lia.
Qed.

Lemma expected_pane_known rows c l : Forall (fun x => ex_pane x ∈ map paneIndex rows) (expected_events rows c l).
Proof.
  apply Forall_lookup. intros i x. unfold expected_events. rewrite list_lookup_imap.
  intros (y & Hy & ->)%fmap_Some. apply list_elem_of_lookup_2 in Hy. unfold schedule in Hy.
  apply list_elem_of_bind in Hy as (cy & Hy & _). apply list_elem_of_bind in Hy as (li & Hy & _).
  apply list_elem_of_bind in Hy as (row & Hy & Hrow). apply list_elem_of_singleton in Hy as ->.
  simpl. apply list_elem_of_fmap. by exists row.
Qed.

Lemma NoDup_map_filter {A B} (f : A -> B) (P : A -> Prop) `{!forall x, Decision (P x)} l :
  NoDup (map f l) -> NoDup (map f (filter P l)).
Proof.
  induction l as [|x l IH]; [done|]. cbn [map]. intros [Hx Hl]%NoDup_cons. rewrite filter_cons.
  case_decide; [|by apply IH]. cbn [map]. constructor; [|by apply IH].
  intros (y & He & Hy)%list_elem_of_fmap. apply Hx. rewrite He. apply list_elem_of_fmap. exists y.
  split; [done|]. by apply list_elem_of_filter in Hy as [_ Hy].
Qed.

Section Verdict.
Context (create emit teardown panes_listing : result string string)
  (pane_capture : PaneRow -> result string string) (options : Options).

(** A pane whose capture shows the lines emitted to it, in any order and any
    number of times, with blank lines around. *)
Definition shows (rows : list PaneRow) (row : PaneRow) : Prop :=
  exists stdout xs, pane_capture row = Ok stdout /\
    trim stdout = join newline_text (map (formatted (profile options)) xs) /\
    forall x, x ∈ xs <-> x ∈ pane_expected options rows row.

Lemma capture_panes_ok rows all ran :
  known (profile options) -> Forall fits (expected_events all (cycles options) (linesPerCycle options)) ->
  Forall (shows all) rows ->
  exists captures,
    capture_panes pane_capture options rows ran = (ran ++ map CapturePane rows, Ok captures) /\
    map fst captures = rows /\
    Forall (fun c => c.2 ≡ₚ map (event_of (profile options)) (pane_expected options all c.1)) captures.
Proof.
  intros Hk Hf Hs. revert ran. induction Hs as [|row rows (stdout & xs & Hc & Ht & Hx) _ IH]; intros ran.
  - exists []. by rewrite app_nil_r.
  - destruct (IH (ran ++ [CapturePane row])) as (captures & He & Hfst & Hall).
    exists ((row, Fixtures.capturePane (profile options) stdout) :: captures). cbn [capture_panes].
    rewrite Hc, He, <- app_assoc. split_and!; [done|by cbn; rewrite Hfst|]. constructor; [|done]. cbn [fst snd].
    eapply capture_formatted; [done| | |exact Hx|exact Ht].
    + by apply Forall_filter_l.
    + apply NoDup_map_filter, expected_NoDup.
Qed.

Lemma captured_events all captures :
  NoDup (map paneIndex all) -> map fst captures = all ->
  Forall (fun c => c.2 ≡ₚ map (event_of (profile options)) (pane_expected options all c.1)) captures ->
  map fields (concat (map snd captures)) ≡ₚ expected_events all (cycles options) (linesPerCycle options).
Proof.
  intros Hnd Hfst Hall.
  assert (Hf : map fields (concat (map snd captures)) ≡ₚ concat (map (pane_expected options all) (map fst captures))).
  { clear Hfst. induction Hall as [|c captures Hc _ IH]; [done|]. cbn [map concat].
    rewrite map_app, IH. apply Permutation_app_tail. rewrite Hc, map_map.
    assert (Hid : map (fun x => fields (event_of (profile options) x)) (pane_expected options all c.1) =
                  pane_expected options all c.1) by (rewrite <- map_id; apply map_ext; by intros []).
    by rewrite Hid. }
  rewrite Hf, Hfst. etrans; [|apply (concat_by_key ex_pane (map paneIndex all)); [done|apply expected_pane_known]].
  by rewrite map_map.
Qed.
End Verdict.

(** ** Theorems *)

(** The emitted line is read back: for both profiles, whatever the numbers,
    the reader of captures finds in a line the script printed exactly the
    profile, number, pane, cycle and line it was printed for. *)
Theorem fixture_line_roundtrip profile x :
  known profile -> fits x ->
  parseFixtureEvent (formatted profile x) =
    Some (FixtureEvent_ profile (ex_seq x) (ex_pane x) (ex_cycle x) (ex_line x) (formatted profile x)).
Proof. apply parse_formatted. Qed.

(** The ordering assertions say exactly what they are for: both pass if and
    only if the captured events are, in some order, the scheduled ones. *)
Theorem ordering_assertions_exact evs rows c l :
  (forall a, a ∈ assertOrdering evs rows c l -> passed a = true) <-> map fields evs ≡ₚ expected_events rows c l.
Proof.
  rewrite <- ordering_iff, forallb_forall. split; intros H a Ha; apply H; by apply list_elem_of_In.
Qed.

(** C30. A faithful run passes.  When every script succeeds, tmux lists the panes
    asked for with distinct indices, and every pane shows exactly the lines
    emitted to it (in any order, any number of times, with blank lines around),
    the evidence run passes with every assertion passed and no failure text. *)
Theorem faithful_run_passes created emitted torn listing pane_capture options rows :
  known (profile options) -> 0 <= cycles options -> 0 <= linesPerCycle options ->
  listPanes listing = Ok rows -> Z.of_nat (length rows) = panes options -> NoDup (map paneIndex rows) ->
  Forall fits (expected_events rows (cycles options) (linesPerCycle options)) ->
  Forall (shows pane_capture options rows) rows ->
  let o := run_evidence (Ok created) (Ok emitted) (Ok torn) (Ok listing) pane_capture options in
  overallPassed o = true /\ failureSummary o = EmptyString /\ Forall (fun a => passed a = true) (assertions o).
Proof.
  intros Hk Hc Hl Hlist Hn Hnd Hf Hs. cbv zeta.
  destruct (capture_panes_ok pane_capture options rows rows [CreateFixture; EmitOutput; ListPanes] Hk Hf Hs)
    as (captures & Hcap & Hfst & Hall).
  pose proof (captured_events options rows captures Hnd Hfst Hall) as Hperm.
  unfold run_evidence, body. cbn [rbind]. rewrite Hlist, Hcap.
  match goal with |- context [List.find _ ?as_] => set (results := as_) end.
  assert (Hres : Forall (fun a => passed a = true) results).
  { subst results. repeat rewrite Forall_app. split_and!.
    - repeat constructor; cbn [buildAssertion passed]; apply Z.eqb_eq; [done|].
      rewrite <- (length_map fields), (Permutation_length Hperm), expected_length by done. by rewrite Hn.
    - apply Forall_fmap, Forall_forall. intros c Hin. cbn [buildAssertion passed]. apply Z.eqb_eq.
      assert (Hrow : c.1 ∈ rows) by (rewrite <- Hfst; apply list_elem_of_fmap; by exists c).
      pose proof (proj1 (Forall_forall _ _) Hall c Hin) as Hc'. rewrite (Permutation_length Hc'), length_map.
      unfold pane_expected. rewrite schedule_pane by done. lia.
    - apply Forall_forall. intros a. by apply ordering_assertions_hold. }
  destruct (List.find _ results) as [a|] eqn:Hfind.
  - apply List.find_some in Hfind as [Hin Hp]. apply list_elem_of_In in Hin.
    eapply Forall_forall in Hres; [|exact Hin]. by rewrite Hres in Hp.
  - by destruct (true && negb (keepFixture options)).
Qed.

Lemma capture_panes_ran pane_capture options rows ran :
  Teardown ∈ (capture_panes pane_capture options rows ran).1 <-> Teardown ∈ ran.
Proof.
  revert ran. induction rows as [|row rows IH]; intros ran; [done|]. cbn [capture_panes].
  destruct (pane_capture row) as [stdout|e].
  - specialize (IH (ran ++ [CapturePane row])). destruct (capture_panes _ _ rows _) as [ran' r].
    cbn [fst] in *. rewrite IH, elem_of_app, list_elem_of_singleton. split; [by intros [|]|by left].
  - cbn [fst]. rewrite elem_of_app, list_elem_of_singleton. split; [by intros [|]|by left].
Qed.

Lemma body_ran create emit panes_listing pane_capture options :
  let '(ran, created, _, _) := body create emit panes_listing pane_capture options in
  Teardown ∉ ran /\ (created = true <-> exists s, create = Ok s).
Proof.
  unfold body. destruct create as [c|e]; [|split; [set_solver|split; [done|by intros [? [=]]]]].
  assert (Hc : true = true <-> exists s, @Ok string string c = Ok s) by (split; eauto).
  destruct emit; [|split; [set_solver|done]].
  destruct (rbind panes_listing listPanes) as [rows|e]; [|split; [set_solver|done]].
  pose proof (capture_panes_ran pane_capture options rows [CreateFixture; EmitOutput; ListPanes]) as Hr.
  destruct (capture_panes _ _ rows _) as [ran [captures|e]]; cbn [fst] in Hr; (split; [|done]); rewrite Hr; set_solver.
Qed.

(** The fixture is torn down at the end exactly when it was created and is
    not to be kept, whatever failed in between; a failed teardown fails the run. *)
Theorem fixture_torn_down create emit teardown panes_listing pane_capture options :
  let o := run_evidence create emit teardown panes_listing pane_capture options in
  (Teardown ∈ ran o <-> (exists s, create = Ok s) /\ keepFixture options = false) /\
  (Teardown ∈ ran o -> last (ran o) = Some Teardown) /\
  (Teardown ∈ ran o -> overallPassed o = true -> exists s, teardown = Ok s).
Proof.
  cbv zeta. unfold run_evidence. pose proof (body_ran create emit panes_listing pane_capture options) as Hb.
  destruct (body _ _ _ _ _) as [[[r created] results] error]. destruct Hb as [Hr Hcr]. cbv zeta.
  destruct created, (keepFixture options); cbn [andb negb].
  2: { assert (Hin : Teardown ∈ r ++ [Teardown]) by set_solver.
       destruct teardown as [t|e]; destruct (List.find _ results); cbn [ran overallPassed];
         rewrite last_snoc; (split_and!; [split; [intros _; split; [by apply Hcr|done]|done]|done|]); try done;
         intros _ _; by exists t. }
  all: destruct (List.find _ results); cbn [ran overallPassed];
    (split_and!; [split; [done|]|done|done]); intros [Hs Hk]; try done; by apply Hcr in Hs.
Qed.

(** A passed run is evidence: everything succeeded, tmux listed as many
    panes as asked for, and the events captured are the scheduled ones, each
    once, with its pane, cycle and line. *)
Theorem passed_run_sound create emit teardown panes_listing pane_capture options :
  overallPassed (run_evidence create emit teardown panes_listing pane_capture options) = true ->
  exists rows ran captures,
    (let! stdout := panes_listing in listPanes stdout) = Ok rows /\
    Z.of_nat (length rows) = panes options /\
    capture_panes pane_capture options rows [CreateFixture; EmitOutput; ListPanes] = (ran, Ok captures) /\
    map fields (concat (map snd captures)) ≡ₚ expected_events rows (cycles options) (linesPerCycle options).
Proof.
  unfold run_evidence. destruct (body _ _ _ _ _) as [[[r created] results] error] eqn:Hb. cbv zeta.
  intros Hp.
  assert (error = None /\ List.find (fun a : AssertionResult => negb (passed a)) results = None) as [-> Hfind].
  { destruct (created && _); [destruct teardown|]; destruct (List.find _ results) eqn:Hf; try done;
      cbn [overallPassed] in Hp; apply bool_decide_eq_true in Hp; done. }
  assert (Hall : forall a, In a results -> passed a = true).
  { intros a Ha. pose proof (List.find_none _ _ Hfind a Ha) as Hn. by apply negb_false_iff in Hn. }
  clear Hp Hfind. unfold body in Hb. destruct create; [|done]. destruct emit; [|done].
  destruct (rbind panes_listing listPanes) as [rows|e] eqn:Hl; [|done].
  destruct (capture_panes _ _ rows _) as [ran [captures|e]] eqn:Hc; [|done].
  injection Hb as <- <- <-. exists rows, ran, captures.
  split_and!; [done| |done|].
  - apply Z.eqb_eq. pose proof (Hall _ (or_introl eq_refl)) as Hpanes. exact Hpanes.
  - apply ordering_iff, forallb_forall. intros a Ha. apply Hall. right. right. apply in_or_app. by right.
Qed.

(** ** Witnesses *)

Lemma fixture_line_roundtrip_witness :
  parseFixtureEvent (formatted "load" (Expected_ 123456 12 1000 7)) =
    Some (FixtureEvent_ "load" 123456 12 1000 7
      "[fixture profile=load seq=123456] topic=load_4 state=queued pane=12 cycle=1000 line=07 bytes=512 checksum=7103").
Proof.
  apply (fixture_line_roundtrip "load" (Expected_ 123456 12 1000 7)); [by right|].
  unfold fits, small, max_safe_integer. cbn. lia.
Defined.

Definition demo_options : Options := Options_ "s" "w" 2 "replay" 1 2 0 None false false.
Definition demo_rows : list PaneRow := [PaneRow_ 0 "%1"; PaneRow_ 1 "%2"].

(** The second pane shows every line twice, as a shell that echoes does. *)
Definition demo_capture (row : PaneRow) : result string string :=
  let xs := pane_expected demo_options demo_rows row in
  Ok (newline_text +:+ join newline_text (map (formatted "replay") (if (paneIndex row =? 0)%Z then xs else xs ++ xs)) +:+ newline_text)%string.

Lemma faithful_run_passes_witness :
  let o := run_evidence (Ok "created") (Ok "emitted") (Ok "gone") (Ok ("1 %2" +:+ newline_text +:+ "0\t%1")%string)
             demo_capture demo_options in
  overallPassed o = true /\ failureSummary o = EmptyString /\ Forall (fun a => passed a = true) (assertions o).
Proof.
  apply (faithful_run_passes "created" "emitted" "gone" ("1 %2" +:+ newline_text +:+ "0\t%1")%string
           demo_capture demo_options demo_rows).
  - by left.
  - done.
  - done.
  - vm_compute. reflexivity.
  - reflexivity.
  - apply (bool_decide_unpack _). vm_compute. exact I.
  - change (expected_events _ _ _) with [Expected_ 1 0 1 1; Expected_ 2 1 1 1; Expected_ 3 0 1 2; Expected_ 4 1 1 2].
    repeat constructor; unfold fits, small, max_safe_integer; cbn; lia.
  - constructor; [|constructor; [|constructor]].
    + eexists _, (pane_expected demo_options demo_rows (PaneRow_ 0 "%1")).
      split; [reflexivity|]. split; [vm_compute; reflexivity|]. done.
    + eexists _, (pane_expected demo_options demo_rows (PaneRow_ 1 "%2") ++
                  pane_expected demo_options demo_rows (PaneRow_ 1 "%2")).
      split; [reflexivity|]. split; [vm_compute; reflexivity|]. intros x. rewrite elem_of_app. tauto.
Defined.

Lemma passed_run_sound_witness :
  exists rows ran captures,
    (let! stdout := Ok ("1 %2" +:+ newline_text +:+ "0\t%1")%string in listPanes stdout) = Ok rows /\
    Z.of_nat (length rows) = 2 /\
    capture_panes demo_capture demo_options rows [CreateFixture; EmitOutput; ListPanes] = (ran, Ok captures) /\
    map fields (concat (map snd captures)) ≡ₚ expected_events rows 1 2.
Proof.
  apply (passed_run_sound (Ok "created") (Ok "emitted") (Ok "gone") _ demo_capture demo_options).
  vm_compute. reflexivity.
Defined.

(** Stitching drops the space at which a terminal broke a line, and glues what
    follows the last event to it. *)
Example break_at_space :
  extractFixtureCandidateLines
    ("[fixture profile=replay seq=00001]" +:+ newline_text +:+ " topic=stream_0 state=ok pane=0 cycle=001 line=01" +:+
     newline_text +:+ "$ exit")%string =
  ["[fixture profile=replay seq=00001]topic=stream_0 state=ok pane=0 cycle=001 line=01$ exit"%string].
Proof. vm_compute. reflexivity. Qed.
