(* ===== verification/NetWrappers.v ===== *)
(** * Compatibility wrappers of the bridge

    [src/net/outbound-http.ts] and [src/net/proxy-agent-factory.ts]: the bridge's
    own names for the HTTP client ([HttpClient]) and the agent factory
    ([ProxyAgents]), with fewer options and fewer result fields. *)

From S2P Require Import Prelude JsMap ProxyCore AgentCache ProxyAgents HttpClient.
Local Open Scope Z_scope.

(** ** [outbound-http.ts] *)

Module Outbound.

(** [JsonRequestOptions] of the wrapper: the method is always given. *)
Record Options : Type := Options_ {
  method : string;
  headers : option OutgoingHttpHeaders;
  body : jsval;
  timeoutMs : option num
}.

Record Response : Type := Response_ {
  status : Z;
  response_headers : IncomingHttpHeaders;
  response_body : jsval
}.

(** What the wrapper hands to the client: a status never throws. *)
Definition primitive_options (o : Options) : JsonRequestOptions :=
  RequestOptions (Some (method o)) (headers o) (body o) (timeoutMs o) None None (Some false) true.

(** What it keeps of the answer. *)
Definition wrap (r : JsonResponse) : Response :=
  Response_ (HttpClient.status r) (HttpClient.response_headers r) (HttpClient.body r).

Section Outbound.
Context (URL_parse : string -> option url) (JSON_stringify : jsval -> result unit (option string)).
Context (JSON_parse : string -> option jsval) (utf8_decode : string -> string).

(** [requestJson] over the events of one exchange; [None]: not settled yet. *)
Definition requestJson (t : request_target) (o : Options) (answer : resolver_answer)
    (evs : list exchange_event) : option (result http_error Response) :=
  match prepareRequest URL_parse JSON_stringify t (primitive_options o) answer None with
  | Throw e => Some (Throw e)
  | Ok p =>
      (fun r => rbind r (fun v => Ok (wrap v))) <$>
        settled (exchange_run JSON_parse utf8_decode p None evs (start p None (Failures None None) None))
  end.

(** What a complete answer of a request that could be prepared is worth. *)
Definition delivered (p : ExecuteJsonRequestParams) (statusCode : option Z) (hs : IncomingHttpHeaders)
    (cs : list string) (v : jsval) : Prop :=
  (forall declared, parseContentLength hs = Some declared -> declared <= p_maxResponseBytes p) /\
  too_large p 0 cs = None /\
  let raw := utf8_decode (String.concat "" cs) in
  (raw = EmptyString /\ v = JNull \/ raw <> EmptyString /\ JSON_parse raw = Some v).

(** Through the wrapper every status is an answer: when the request could be
    prepared and its response arrives completely, within the limit and as JSON
    (or empty), the caller gets status, headers and body, for a 404 or a 500 as
    for a 200, where the client on its own options would throw. *)
Theorem every_status_is_returned t o answer p statusCode hs cs v :
  prepareRequest URL_parse JSON_stringify t (primitive_options o) answer None = Ok p ->
  delivered p statusCode hs cs v ->
  requestJson t o answer (OnResponse statusCode hs :: (OnData <$> cs) ++ [OnEnd]) =
    Some (Ok (Response_ (default 0 statusCode) hs v)).
Proof.
  intros Hp (Hd & Hl & Hv). unfold requestJson. rewrite Hp, exchange_complete by done.
  destruct (prepare_fields _ _ _ _ _ _ _ Hp) as (_ & _ & _ & Ht). cbn in Ht.
  assert (He : expected_outcome JSON_parse utf8_decode p statusCode hs cs =
               Ok (HttpClient.Response (default 0 statusCode) hs v (utf8_decode (String.concat "" cs)))); [|by rewrite He].
  unfold expected_outcome. rewrite Hl.
  assert (Ho : outcome JSON_parse p (default 0 statusCode) hs (utf8_decode (String.concat "" cs)) =
               Ok (HttpClient.Response (default 0 statusCode) hs v (utf8_decode (String.concat "" cs)))).
  { unfold outcome. rewrite Ht. cbv zeta in Hv. destruct Hv as [[-> ->]|[Hn Hj]]; [done|].
    destruct (is_empty _) eqn:He; [by destruct (utf8_decode _)|]. by rewrite Hj. }
  rewrite Ho. destruct (parseContentLength hs) as [declared|] eqn:Hc; [|done].
  specialize (Hd _ eq_refl). by rewrite (proj2 (Z.ltb_ge _ _)).
Qed.
End Outbound.
End Outbound.

(** ** [proxy-agent-factory.ts] *)

Module Agents.

Record AgentResolution : Type := Resolution_ {
  agent : option nat;
  proxyUrl : option string;
  viaProxy : bool
}.

Definition narrow (r : ProxyAgentResolution) : AgentResolution :=
  Resolution_ (ProxyAgents.agent r) (ProxyAgents.proxyUrl r) (ProxyAgents.viaProxy r).

Section Agents.
Context (URL_parse : string -> option url) (isIP : string -> Z) (constructs : agent_spec -> bool)
  (has : agent_spec -> cleanup -> bool).

(** The constructor: settings of the caller or of the environment. *)
Definition newFactory (settings : option Settings.ProxySettings) (env : ProxyEnvironment)
    (maxCacheEntries : option num) : ProxyAgentFactory :=
  ProxyAgents.newFactory URL_parse isIP
    (Some (default (agent_loadProxySettings URL_parse isIP (compatibilityEnv env)) settings)) env
    maxCacheEntries (AgentOptions None None None None None).

Definition resolve (t : target) (f : ProxyAgentFactory) :
    result agent_error AgentResolution * ProxyAgentFactory :=
  let (r, f) := ProxyAgents.resolve URL_parse constructs has t f in
  (rbind r (fun v => Ok (narrow v)), f).

Definition clear (f : ProxyAgentFactory) : ProxyAgentFactory := ProxyAgents.destroy has f.

(** What the environment variables other than the four read by the wrapper say. *)
Definition same_proxy_variables (env env' : ProxyEnvironment) : Prop :=
  forall name, name ∈ ["http_proxy"; "HTTP_PROXY"; "https_proxy"; "HTTPS_PROXY"; "all_proxy"; "ALL_PROXY";
                        "no_proxy"; "NO_PROXY"]%string -> env name = env' name.

(** The wrapper's factory depends on the eight proxy variables alone.  In
    particular it does not see [REQUEST_METHOD]: the package's protection, which
    ignores [HTTP_PROXY] in a CGI environment, is lost on this way. *)
Theorem wrapper_ignores_cgi env env' n :
  same_proxy_variables env env' -> newFactory None env n = newFactory None env' n.
Proof.
  intros He. unfold newFactory, ProxyAgents.newFactory. cbn [default from_option].
  assert (Hc : forall name, compatibilityEnv env name = compatibilityEnv env' name).
  { intros name. unfold compatibilityEnv. rewrite !He by set_solver. done. }
  assert (Hs : agent_loadProxySettings URL_parse isIP (compatibilityEnv env) =
               agent_loadProxySettings URL_parse isIP (compatibilityEnv env')); [|by rewrite Hs].
  unfold agent_loadProxySettings, ProxyCore.loadProxySettings, is_cgi, readProxyEnv, readRawEnv. by rewrite !Hc.
Qed.
End Agents.
End Agents.

(** ** Concrete inputs *)

Definition demo_url_parse (s : string) : option url := Some (Url "http:" "h" "" s).
Definition demo_stringify (v : jsval) : result unit (option string) := Ok (Some "{}"%string).
Definition demo_outbound : Outbound.Options := Outbound.Options_ "GET" None JUndefined None.

Lemma every_status_is_returned_witness :
  Outbound.requestJson demo_url_parse demo_stringify demo_json (fun s => s)
    (RequestString "http://h/") demo_outbound NoResolver [OnResponse (Some 404) []; OnData "{}"; OnEnd] =
  Some (Ok (Outbound.Response_ 404 [] (JObj []))).
Proof.
  apply (Outbound.every_status_is_returned demo_url_parse demo_stringify demo_json (fun s => s)
    (RequestString "http://h/") demo_outbound NoResolver
    (Params (Url "http:" "h" "" "http://h/") "GET" None (buildHeaders [] None) (num_of_Z 8000) 1048576 false None)
    (Some 404) [] ["{}"%string] (JObj [])); [vm_compute; reflexivity|].
  split; [done|]. split; [reflexivity|]. right. split; [discriminate|reflexivity].
Defined.

(** The client on its own options throws for the same answer. *)
Example client_throws_for_the_same :
  settled (exchange_run demo_json (fun s => s) demo_params None [OnResponse (Some 404) []; OnData "{}"; OnEnd]
             (start demo_params None (Failures None None) None)) =
  Some (Throw (HttpStatusError 404 [] (JObj []) "{}")).
Proof. reflexivity. Qed.

Lemma wrapper_ignores_cgi_witness :
  let env : ProxyEnvironment := fun name => if bool_decide (name = "HTTP_PROXY"%string) then Some "http://evil/"%string else None in
  let cgi : ProxyEnvironment := fun name => if bool_decide (name = "REQUEST_METHOD"%string) then Some "GET"%string else env name in
  Agents.newFactory demo_url_parse (fun _ => 0) None env None = Agents.newFactory demo_url_parse (fun _ => 0) None cgi None.
Proof.
  intros env cgi. apply Agents.wrapper_ignores_cgi. intros name Hin. unfold cgi.
  case_bool_decide as Hn; [|done]. exfalso. subst name. revert Hin.
  apply (bool_decide_unpack _). vm_compute. exact I.
Defined.
