(* ===== verification/ModuleLoader.v ===== *)
(** * Loading of sibling packages at run time

    [packages/commandrelay-client/src/protocol-runtime-loader.ts] and
    [packages/commandrelay-tui/src/commandrelay-client-loader.ts]: the package by
    its name, else the first build output found around the module.  [import], the
    file system and the working directory are the environment; paths are those of
    [NodePath]. *)

From S2P Require Import Prelude JsMap NodePath.
Local Open Scope Z_scope.

(** ** Paths *)

Module PathMore.
Import Path.

Fixpoint drop_while (f : ascii -> bool) (s : string) : string :=
  match s with String c r => if f c then drop_while f r else s | EmptyString => EmptyString end.

Definition is_slash (c : ascii) : bool := Ascii.eqb slash c.

(** [path.dirname]: the last separator that is followed by a name, wherever it is. *)
Definition dirname (path : string) : string :=
  let hasRoot := starts_with "/" path in
  let before_name := drop_while (fun c => negb (is_slash c)) (drop_while is_slash (String.rev path)) in
  match before_name with
  | EmptyString => if hasRoot then "/" else "."
  | String _ rest =>
      if is_empty rest then "/"
      else if hasRoot && String.eqb rest "/" then "//"
      else String.rev rest
  end.

(** [path.join]. *)
Definition join_path (paths : list string) : string :=
  let joined := join "/" (filter (fun p => p <> ""%string) paths) in
  if is_empty joined then "." else normalize joined.
End PathMore.

(** ** Candidates *)

Module Loader.
Import Path PathMore.

(** The loop over the ancestors of the module's directory. *)
Fixpoint climb (fuel : nat) (cursor : string) : option string :=
  match fuel with
  | O => None
  | S fuel =>
      if String.eqb cursor (dirname cursor) then None
      else if String.eqb (basename cursor) "packages" then Some cursor
      else climb fuel (dirname cursor)
  end.

(** A path has fewer ancestors than characters. *)
Definition packages_root (moduleDir : string) : option string := climb (String.length moduleDir) moduleDir.

(** [packageRootCandidates[0]]. *)
Definition fallback_root (cwd moduleDir : string) : string :=
  default (resolve cwd [cwd; "packages"%string]) (packages_root moduleDir).

(** The two outputs a build of [pkg] may have below [base]. *)
Definition outputs (pkg : string) (base : list string) : list string :=
  [join_path (base ++ [pkg; "dist"; "index.js"]%string);
   join_path (base ++ [pkg; "dist"; pkg; "src"; "index.js"]%string)].

(** [new Set(...)]: the first of equal candidates stays. *)
Definition unique (l : list string) : list string := foldl (fun set x => js_add x set) [] l.

(** [collectProtocolFallbackPaths]. *)
Definition collectProtocolFallbackPaths (moduleDir cwd : string) : list string :=
  let pkg := "commandrelay-protocol"%string in
  unique (map normalize
    (outputs pkg [cwd; "packages"]%string ++ outputs pkg [fallback_root cwd moduleDir] ++
     outputs pkg [moduleDir; ".."; ".."]%string ++ outputs pkg [moduleDir; ".."; ".."; ".."]%string)).

(** [collectFallbackPaths] of the terminal client. *)
Definition collectFallbackPaths (moduleDir cwd : string) : list string :=
  let pkg := "commandrelay-client"%string in
  outputs pkg [cwd; "packages"]%string ++ outputs pkg [fallback_root cwd moduleDir] ++
  outputs pkg [moduleDir; ".."]%string ++
  [join_path [moduleDir; ".."; "dist"; pkg; "src"; "index.js"]%string].

(** ** Loading *)

(** What [import] throws: whether it is an object with a [code], and its message
    when it is an [Error]. *)
Record import_error : Type := ImportError {
  err_code : option string;
  err_message : string
}.

Section Load.
Context {M : Type}.

(** The world at one moment. *)
Record world : Type := World {
  imports : string -> result import_error M;
  exists_file : string -> bool
}.

(** An error that says that the package is not installed. *)
Definition not_found (specifier : string) (e : import_error) : bool :=
  match err_code e with
  | Some code => String.eqb code "ERR_MODULE_NOT_FOUND" || includes "ERR_MODULE_NOT_FOUND" (err_message e)
  | None => false
  end ||
  includes ("Cannot find package '" +:+ specifier +:+ "'") (err_message e) ||
  includes ("Cannot find package " +:+ in_quotes specifier) (err_message e).

Definition importFromSpecifier (w : world) (specifier : string) : result import_error (option M) :=
  match imports w specifier with
  | Ok m => Ok (Some m)
  | Throw e => if not_found specifier e then Ok None else Throw e
  end.

Definition unresolved (specifier : string) : import_error :=
  ImportError None ("Unable to resolve " +:+ specifier +:+
    ". Run `pnpm install` at repo root or rebuild packages via `pnpm -r run build`.").

(** The loop over the candidates; [accepts] is the check of the imported module. *)
Fixpoint import_first (w : world) (accepts : M -> bool) (specifier : string) (candidates : list string) :
    result import_error M :=
  match candidates with
  | [] => Throw (unresolved specifier)
  | c :: rest =>
      if exists_file w c then
        match imports w c with
        | Throw e => Throw e
        | Ok m => if accepts m then Ok m else import_first w accepts specifier rest
        end
      else import_first w accepts specifier rest
  end.

Definition load_module (w : world) (accepts : M -> bool) (specifier : string) (candidates : list string) :
    result import_error M :=
  match importFromSpecifier w specifier with
  | Throw e => Throw e
  | Ok (Some m) => Ok m
  | Ok None => import_first w accepts specifier candidates
  end.

(** The module-level promise: set by the first call, whatever becomes of it. *)
Definition cached_load (load : world -> result import_error M)
    (promise : option (result import_error M)) (w : world) :
    result import_error M * option (result import_error M) :=
  match promise with
  | Some r => (r, promise)
  | None => (load w, Some (load w))
  end.

(** [loadProtocolRuntime] and [loadCommandRelayClientModule], called in [w]. *)
Definition loadProtocolRuntime (moduleDir cwd : string) :=
  cached_load (fun w => load_module w (fun _ => true) "@commandrelay/protocol"
                          (collectProtocolFallbackPaths moduleDir cwd)).
Definition loadCommandRelayClientModule (is_client : M -> bool) (moduleDir cwd : string) :=
  cached_load (fun w => load_module w is_client "@commandrelay/client" (collectFallbackPaths moduleDir cwd)).

(** The results of calls made one after the other, in changing worlds. *)
Fixpoint calls (f : option (result import_error M) -> world -> result import_error M * option (result import_error M))
    (promise : option (result import_error M)) (ws : list world) : list (result import_error M) :=
  match ws with
  | [] => []
  | w :: ws => let (r, promise) := f promise w in r :: calls f promise ws
  end.
End Load.
End Loader.

(** ** Lemmas *)

Section Lemmas.
Import Path PathMore Loader.

Lemma drop_while_all f a b : str_forallb f a = true -> drop_while f (a +:+ b)%string = drop_while f b.
Proof.
  induction a as [|c a IH]; [by rewrite str_app_nil_l|]. cbn [str_forallb]. intros [Hc Ha]%andb_true_iff.
  rewrite str_app_cons. cbn [drop_while]. rewrite Hc. by apply IH.
Qed.

Lemma drop_while_stop f c r : f c = false -> drop_while f (String c r) = String c r.
Proof. intros H. cbn [drop_while]. by rewrite H. Qed.

Lemma no_slash_chars x : index_of slash x = None -> str_forallb (fun c => negb (is_slash c)) x = true.
Proof. by rewrite index_of_None_forallb. Qed.

Lemma absolute_snoc segs x :
  absolute (segs ++ [x]) = ((if bool_decide (segs = []) then "" else absolute segs) +:+ String slash x)%string.
Proof.
  destruct segs as [|s segs]; [done|]. rewrite bool_decide_false by done.
  by rewrite (absolute_app (s :: segs) [x]).
Qed.

Lemma rev_nonempty s : is_empty (String.rev s) = is_empty s.
Proof.
  destruct s as [|c s]; [done|]. rewrite rev_cons. by destruct (String.rev s).
Qed.

Lemma dirname_absolute segs x :
  Forall proper segs -> proper x -> dirname (absolute (segs ++ [x])) = absolute segs.
Proof.
  intros Hs (Hne & _ & _ & Hx%no_slash_chars). unfold dirname. rewrite absolute_snoc.
  set (front := if bool_decide (segs = []) then ""%string else absolute segs).
  change (String slash x) with (String slash "" +:+ x)%string. rewrite !rev_app.
  change (String.rev (String slash "")) with (String slash "").
  assert (Hskip : drop_while is_slash ((String.rev x +:+ String slash "") +:+ String.rev front)%string =
                  ((String.rev x +:+ String slash "") +:+ String.rev front)%string).
  { pose proof Hx as Hr. rewrite <- str_forallb_rev in Hr. pose proof (rev_nonempty x) as Hn.
    destruct (String.rev x) as [|c r]; [by destruct x|]. cbn [str_forallb] in Hr.
    apply andb_true_iff in Hr as [Hc%negb_true_iff _]. rewrite !str_app_cons. by apply drop_while_stop. }
  rewrite Hskip, <- str_app_assoc, drop_while_all by (by rewrite str_forallb_rev).
  rewrite str_app_cons, str_app_nil_l. cbn [drop_while]. unfold is_slash. rewrite Ascii.eqb_refl. cbn [negb].
  subst front. rewrite rev_nonempty. destruct segs as [|s segs]; [done|].
  rewrite bool_decide_false by done. cbn [is_empty absolute].
  destruct (String.eqb (String.rev (absolute (s :: segs))) "/") eqn:He; [|by rewrite andb_false_r, rev_involutive].
  apply String.eqb_eq in He. apply (f_equal String.rev) in He. rewrite rev_involutive in He.
  unfold absolute in He. destruct (join_ends (s :: segs)) as (Hj & _); [done|done|].
  destruct (join "/" (s :: segs)); [done|discriminate He].
Qed.

Lemma basename_absolute segs x : proper x -> basename (absolute (segs ++ [x])) = x.
Proof.
  intros (_ & _ & _ & Hx). unfold basename. rewrite absolute_snoc, split_on_app, (split_on_none _ x) by done.
  by rewrite List.last_last.
Qed.

Lemma absolute_not_fixed segs x : Forall proper segs -> proper x ->
  String.eqb (absolute (segs ++ [x])) (absolute segs) = false.
Proof.
  intros Hs Hx. apply String.eqb_neq. intros He. apply (f_equal names) in He.
  rewrite !names_absolute in He by (try apply Forall_app; auto). apply (f_equal length) in He.
  rewrite length_app in He. simpl in He. lia.
Qed.

Lemma absolute_length segs : Forall proper segs -> (length segs <= String.length (absolute segs))%nat.
Proof.
  induction segs as [|x segs IH] using rev_ind; [simpl; lia|]. intros [Hs Hx]%Forall_app.
  apply Forall_cons in Hx as [(Hne & _) _]. rewrite absolute_snoc, str_app_length, length_app.
  cbn [String.length length]. specialize (IH Hs). case_bool_decide; [subst; simpl; lia|]. lia.
Qed.

Lemma climb_absolute fuel segs : Forall proper segs -> (length segs <= fuel)%nat ->
  forall root, climb fuel (absolute segs) = Some root <->
    exists a b, segs = a ++ "packages"%string :: b /\ "packages"%string ∉ b /\ root = absolute (a ++ ["packages"%string]).
Proof.
  revert fuel. induction segs as [|x segs IH] using rev_ind; intros fuel Hp Hl root.
  - assert (Hn : climb fuel (absolute []) = None) by (by destruct fuel).
    rewrite Hn. split; [done|]. intros (a & b & H & _). by destruct a.
  - apply Forall_app in Hp as [Hs Hx]. apply Forall_cons in Hx as [Hx _].
    rewrite length_app in Hl. simpl in Hl. destruct fuel as [|fuel]; [lia|]. cbn [climb].
    rewrite dirname_absolute, absolute_not_fixed, basename_absolute by done.
    destruct (String.eqb_spec x "packages") as [->|Hne].
    + split.
      * intros [= <-]. exists segs, []. split_and!; [done|apply not_elem_of_nil|done].
      * intros (a & b & He & Hb & ->). destruct b as [|y b _] using rev_ind.
        -- apply app_inj_tail in He as [-> _]. done.
        -- rewrite app_comm_cons, app_assoc in He. apply app_inj_tail in He as [_ <-]. set_solver.
    + rewrite IH by (done || lia). split.
      * intros (a & b & -> & Hb & ->). exists a, (b ++ [x]). rewrite <- app_assoc. split_and!; [done| |done].
        rewrite elem_of_app, list_elem_of_singleton. intros [|]; [done|congruence].
      * intros (a & b & He & Hb & ->). destruct b as [|y b _] using rev_ind.
        -- apply app_inj_tail in He as [_ ?]. done.
        -- rewrite app_comm_cons, app_assoc in He. apply app_inj_tail in He as [-> <-]. exists a, b.
           split_and!; [done| |done]. set_solver.
Qed.

Lemma calls_cached {M} (load : world (M := M) -> result import_error M) promise ws r :
  promise = Some r -> calls (cached_load load) promise ws = replicate (length ws) r.
Proof. intros ->. induction ws as [|w ws IH]; [done|]. simpl. by rewrite IH. Qed.

Lemma unique_NoDup (l acc : list string) : NoDup acc -> NoDup (foldl (fun set x => js_add x set) acc l).
Proof. revert acc. induction l as [|x l IH]; intros acc H; [done|]. simpl. by apply IH, NoDup_js_add. Qed.

Lemma import_first_iff {M} (w : world (M := M)) accepts specifier candidates m :
  import_first w accepts specifier candidates = Ok m <->
  exists pre c post, candidates = pre ++ c :: post /\ exists_file w c = true /\ imports w c = Ok m /\ accepts m = true /\
    Forall (fun c' => exists_file w c' = true -> exists m', imports w c' = Ok m' /\ accepts m' = false) pre.
Proof.
  induction candidates as [|c rest IH]; simpl; [split; [done|by intros ([] & ? & ? & ? & _)]|].
  assert (Hskip : (exists_file w c = true -> exists m', imports w c = Ok m' /\ accepts m' = false) ->
    import_first w accepts specifier rest = Ok m <->
    exists pre d post, c :: rest = pre ++ d :: post /\ exists_file w d = true /\ imports w d = Ok m /\ accepts m = true /\
      Forall (fun c' => exists_file w c' = true -> exists m', imports w c' = Ok m' /\ accepts m' = false) pre).
  { intros Hc. rewrite IH. split.
    - intros (pre & d & post & -> & Hd & Hi & Ha & Hpre). exists (c :: pre), d, post. split_and!; auto.
    - intros ([|c' pre] & d & post & [= -> He] & Hd & Hi & Ha & Hpre).
      + destruct (Hc Hd) as (m' & Hm & Hf). congruence.
      + apply Forall_cons in Hpre as [_ Hpre]. exists pre, d, post. auto. }
  destruct (exists_file w c) eqn:Hx; [|by apply Hskip].
  destruct (imports w c) as [m'|e] eqn:Hi.
  - destruct (accepts m') eqn:Ha; [|by apply Hskip; eauto]. split.
    + intros [= ->]. exists [], c, rest. by split_and!.
    + intros ([|c' pre] & d & post & [= -> He] & Hd & Hd' & Ha' & Hpre); [congruence|].
      apply Forall_cons in Hpre as [Hpre _]. destruct (Hpre Hx) as (m0 & Hm0 & Hf0). congruence.
  - split; [done|]. intros ([|c' pre] & d & post & [= -> He] & Hd & Hd' & Ha' & Hpre); [congruence|].
    apply Forall_cons in Hpre as [Hpre _]. destruct (Hpre Hx) as (m0 & Hm0 & _). congruence.
Qed.
End Lemmas.

(** ** Theorems *)

Section Theorems.
Import Path PathMore Loader.

(** The search for the root of the packages ends, and finds the nearest
    directory called [packages] at or above the module, or nothing when there is
    none; the working directory is used only then. *)
Theorem nearest_packages_root segs cwd root :
  Forall proper segs ->
  (packages_root (absolute segs) = Some root <->
     exists a b, segs = a ++ "packages"%string :: b /\ "packages"%string ∉ b /\
       root = absolute (a ++ ["packages"%string])) /\
  (packages_root (absolute segs) = None <-> "packages"%string ∉ segs) /\
  ("packages"%string ∉ segs -> fallback_root cwd (absolute segs) = resolve cwd [cwd; "packages"%string]).
Proof.
  intros Hp. pose proof (climb_absolute (String.length (absolute segs)) segs Hp (absolute_length segs Hp)) as Hc.
  fold (packages_root (absolute segs)) in Hc. split; [apply Hc|].
  assert (Hn : packages_root (absolute segs) = None <-> "packages"%string ∉ segs).
  { split.
    - intros H Hin. destruct (list_elem_of_split_r segs "packages"%string Hin) as (a & b & He & Hb).
      assert (packages_root (absolute segs) = Some (absolute (a ++ ["packages"%string]))) as Hs
        by (apply Hc; by exists a, b). congruence.
    - intros H. destruct (packages_root (absolute segs)) as [r|]; [|done].
      destruct (proj1 (Hc r) eq_refl) as (a & b & -> & _). exfalso. apply H. set_solver. }
  split; [exact Hn|]. intros H. unfold fallback_root. by rewrite (proj2 Hn H).
Qed.

(** Loading gives a module exactly when the package itself resolves, or it is
    not installed and some candidate exists, imports and is accepted, all before
    it being absent or not accepted; a candidate that fails to import ends the
    search. *)
Theorem load_module_iff {M} (w : world (M := M)) accepts specifier candidates m :
  load_module w accepts specifier candidates = Ok m <->
  imports w specifier = Ok m \/
  (exists e, imports w specifier = Throw e /\ not_found specifier e = true) /\
  exists pre c post, candidates = pre ++ c :: post /\ exists_file w c = true /\ imports w c = Ok m /\ accepts m = true /\
    Forall (fun c' => exists_file w c' = true -> exists m', imports w c' = Ok m' /\ accepts m' = false) pre.
Proof.
  unfold load_module, importFromSpecifier. destruct (imports w specifier) as [m'|e] eqn:Hi.
  - split; [intros [= ->]; by left|]. intros [[= ->]|[(e & [=] & _) _]]. done.
  - destruct (not_found specifier e) eqn:Hn.
    + rewrite import_first_iff. split; [intros H; right; split; [by eauto|exact H]|]. by intros [[=]|[_ H]].
    + split; [done|]. intros [[=]|[(e' & [= <-] & He) _]]. congruence.
Qed.

(** The first call decides for the life of the process: every later call gives
    the same result, so a package that could not be found is never looked for
    again, even after it has been built or installed. *)
Theorem first_load_decides {M} (w : world (M := M)) ws moduleDir cwd :
  calls (loadProtocolRuntime moduleDir cwd) None (w :: ws) =
  replicate (S (length ws))
    (load_module w (fun _ => true) "@commandrelay/protocol" (collectProtocolFallbackPaths moduleDir cwd)).
Proof. unfold loadProtocolRuntime. simpl. f_equal. by apply calls_cached. Qed.

(** The protocol's candidates are all different. *)
Theorem candidates_distinct moduleDir cwd : NoDup (collectProtocolFallbackPaths moduleDir cwd).
Proof. unfold collectProtocolFallbackPaths, unique. apply unique_NoDup, NoDup_nil_2. Qed.

Lemma nearest_packages_root_witness :
  packages_root "/srv/packages/app/packages/client/dist" = Some "/srv/packages/app/packages"%string.
Proof.
  apply (nearest_packages_root ["srv"; "packages"; "app"; "packages"; "client"; "dist"]%string "/" "/srv/packages/app/packages").
  - repeat (constructor; [by split_and!|]). constructor.
  - exists ["srv"; "packages"; "app"]%string, ["client"; "dist"]%string. split_and!; [done|set_solver|done].
Defined.

(** Nothing is built at first; the build does not help the second call. *)
Example failure_is_remembered :
  let missing := World (M := nat) (fun _ => Throw (ImportError (Some "ERR_MODULE_NOT_FOUND"%string) "")) (fun _ => false) in
  let built := World (M := nat) (fun s => if String.eqb s "/r/packages/commandrelay-protocol/dist/index.js"
                                          then Ok 7%nat else Throw (ImportError (Some "ERR_MODULE_NOT_FOUND"%string) "")) (fun _ => true) in
  calls (loadProtocolRuntime "/r/packages/commandrelay-client/src" "/r") None [missing; built] =
    [Throw (unresolved "@commandrelay/protocol"); Throw (unresolved "@commandrelay/protocol")] /\
  calls (loadProtocolRuntime "/r/packages/commandrelay-client/src" "/r") None [built] = [Ok 7%nat].
Proof. vm_compute. split; reflexivity. Qed.
End Theorems.
