(* ===== verification/Benchmark.v ===== *)
(** * The benchmark client

    [scripts/perf/bridge-perf-common.ts]: the common arguments, the decoding of
    envelopes, the wait for one envelope with its time-out, the connection up to
    the [hello] of the bridge, requests and authentication.  The socket and the
    timers are events, [JSON.parse], [randomUUID] and [String] of a value outside;
    the statistics are left out. *)

From S2P Require Import Prelude.
Local Open Scope Z_scope.
Local Open Scope js_scope.

(** ** Arguments *)

Record CommonPerfArgs : Type := PerfArgs {
  url : string;
  token : option string;
  timeoutMs : Z;
  iterations : Z;
  intervalMs : Z;
  pretty : bool;
  help : bool
}.

(** [Partial<CommonPerfArgs>] of the caller, without [help]. *)
Record Defaults : Type := Defaults_ {
  d_url : option string;
  d_token : option string;
  d_timeoutMs : option Z;
  d_iterations : option Z;
  d_intervalMs : option Z;
  d_pretty : option bool
}.

Definition nullish {A} (a b : option A) : option A := match a with Some _ => a | None => b end.

Definition initial_options (env : string -> option string) (d : Defaults) : CommonPerfArgs :=
  PerfArgs
    (default "ws://127.0.0.1:8787/ws" (nullish (d_url d) (env "COMMANDRELAY_BRIDGE_WS_URL")))
    (nullish (d_token d) (env "COMMANDRELAY_AUTH_TOKEN"))
    (default 5000 (d_timeoutMs d)) (default 10 (d_iterations d)) (default 0 (d_intervalMs d))
    (default true (d_pretty d)) false.

Definition coerceToken (token : string) : option string :=
  if is_empty (trim token) then None else Some (trim token).

Definition requireValue (flag : string) (value : option string) : result string string :=
  match value with
  | Some v => if is_empty v then Throw (flag +:+ " requires a value")%string else Ok v
  | None => Throw (flag +:+ " requires a value")%string
  end.

(** [Number.parseInt(raw, 10)] when it is finite and at least [least]. *)
Definition parse_at_least (least : Z) (message flag raw : string) : result string Z :=
  match num_to_Z (parse_int raw) with
  | Some value => if value <? least then Throw (flag +:+ message)%string else Ok value
  | None => Throw (flag +:+ message)%string
  end.
Definition parsePositiveInt := parse_at_least 1 " must be a positive integer".
Definition parseNonNegativeInt := parse_at_least 0 " must be a non-negative integer".

(** The options with a value, in the order in which the code looks for them. *)
Inductive option_name : Type := UrlOption | TokenOption | TimeoutOption | IterationsOption | IntervalOption.

Definition flag_of (n : option_name) : string :=
  match n with
  | UrlOption => "--url"
  | TokenOption => "--token"
  | TimeoutOption => "--timeout-ms"
  | IterationsOption => "--iterations"
  | IntervalOption => "--interval-ms"
  end.

Definition option_names : list option_name :=
  [UrlOption; TokenOption; TimeoutOption; IterationsOption; IntervalOption].

Definition assign (n : option_name) (v : string) (o : CommonPerfArgs) : result string CommonPerfArgs :=
  let '(PerfArgs u t ms it iv p h) := o in
  match n with
  | UrlOption => Ok (PerfArgs v t ms it iv p h)
  | TokenOption => Ok (PerfArgs u (coerceToken v) ms it iv p h)
  | TimeoutOption => let! z := parsePositiveInt "--timeout-ms" v in Ok (PerfArgs u t z it iv p h)
  | IterationsOption => let! z := parsePositiveInt "--iterations" v in Ok (PerfArgs u t ms z iv p h)
  | IntervalOption => let! z := parseNonNegativeInt "--interval-ms" v in Ok (PerfArgs u t ms it z p h)
  end.

Definition set_help (o : CommonPerfArgs) : CommonPerfArgs :=
  PerfArgs (url o) (token o) (timeoutMs o) (iterations o) (intervalMs o) (pretty o) true.
Definition set_pretty (b : bool) (o : CommonPerfArgs) : CommonPerfArgs :=
  PerfArgs (url o) (token o) (timeoutMs o) (iterations o) (intervalMs o) b (help o).

(** How an argument names an option: [--name=value], [--name], or not at all. *)
Inductive named : Type := Inline (n : option_name) (value : string) | Separate (n : option_name).

Definition name_of (arg : string) : option named :=
  head (omap (fun n =>
    let inline := (flag_of n +:+ "=")%string in
    if starts_with inline arg then Some (Inline n (str_drop (String.length inline) arg))
    else if String.eqb arg (flag_of n) then Some (Separate n) else None) option_names).

Fixpoint parse_args (argv : list string) (o : CommonPerfArgs) : result string CommonPerfArgs :=
  match argv with
  | [] => Ok o
  | arg :: rest =>
      if String.eqb arg "--help" || String.eqb arg "-h" then parse_args rest (set_help o)
      else if String.eqb arg "--pretty" then parse_args rest (set_pretty true o)
      else if String.eqb arg "--compact" then parse_args rest (set_pretty false o)
      else
        match name_of arg with
        | Some (Inline n v) => let! o' := assign n v o in parse_args rest o'
        | Some (Separate n) =>
            let! v := requireValue (flag_of n) (head rest) in
            let! o' := assign n v o in
            match rest with _ :: rest' => parse_args rest' o' | [] => Ok o' end
        | None => Throw ("unknown argument: " +:+ arg)%string
        end
  end.

Definition parseCommonPerfArgs (env : string -> option string) (d : Defaults) (argv : list string) :
    result string CommonPerfArgs := parse_args argv (initial_options env d).

(** ** Envelopes *)

Record BridgeEnvelope : Type := Envelope {
  v : option num;
  type : string;
  requestId : option string;
  timestamp : option num;
  payload : list (string * jsval)
}.

Definition number_field (x : jsval) : option num := match x with JNum n => Some n | _ => None end.
Definition string_field (x : jsval) : option string := match x with JStr s => Some s | _ => None end.

Section Client.
Context (JSON_parse : string -> option jsval) (String_of : jsval -> string).

Definition parseRawEnvelope (text : string) : option BridgeEnvelope :=
  match JSON_parse text with
  | Some (JObj fields) =>
      match field "type" fields, field "payload" fields with
      | JStr t, JObj p =>
          Some (Envelope (number_field (field "v" fields)) t (string_field (field "requestId" fields))
                  (number_field (field "timestamp" fields)) p)
      | _, _ => None
      end
  | _ => None
  end.

(** ** Waiting for an envelope *)

(** What the socket and the timers do; [Microtasks] is the point at which the code
    behind an [await] goes on. *)
Inductive socket_event : Type :=
| OpenEvent
| MessageEvent (raw : string)
| ErrorEvent (message : string)
| CloseEvent
| TimerFires
| Microtasks.

#[export] Instance socket_event_eq_dec : EqDecision socket_event.
Proof. solve_decision. Defined.

(** [listening]: the three listeners are on the socket; [race]: what the caller's
    promise is settled with; [timer]: the time-out is armed. *)
Record wait : Type := Wait {
  listening : bool;
  race : option (result string BridgeEnvelope);
  timer : bool
}.

Definition new_wait : wait := Wait true None true.

(** The inner promise settles: its listeners are removed, and the race is won
    unless the time-out was first. *)
Definition settle_wait (r : result string BridgeEnvelope) (w : wait) : wait :=
  match race w with
  | None => Wait false (Some r) false
  | Some _ => Wait false (race w) (timer w)
  end.

Definition wait_step (matcher : BridgeEnvelope -> bool) (w : wait) (e : socket_event) : wait :=
  match e with
  | MessageEvent raw =>
      if listening w then
        match parseRawEnvelope raw with
        | Some envelope => if matcher envelope then settle_wait (Ok envelope) w else w
        | None => w
        end
      else w
  | ErrorEvent m => if listening w then settle_wait (Throw m) w else w
  | CloseEvent => if listening w then settle_wait (Throw "websocket_closed"%string) w else w
  | TimerFires => if timer w then Wait (listening w) (Some (Throw "wait_for_envelope_timeout"%string)) false else w
  | OpenEvent | Microtasks => w
  end.

Definition waitForEnvelope (matcher : BridgeEnvelope -> bool) (evs : list socket_event) : wait :=
  foldl (wait_step matcher) new_wait evs.

(** ** Connecting *)

Inductive phase : Type :=
| Connecting
| Opened                                    (* the open promise is settled, its [await] not yet resumed *)
| Waiting (w : wait)
| Failed (message : string)
| Connected (hello : BridgeEnvelope).

Definition is_hello (e : BridgeEnvelope) : bool := String.eqb (type e) "hello".

Definition after_wait (w : wait) : phase :=
  match race w with
  | Some (Ok hello) => Connected hello
  | Some (Throw m) => Failed m
  | None => Waiting w
  end.

Definition connect_step (p : phase) (e : socket_event) : phase :=
  match p, e with
  | Connecting, OpenEvent => Opened
  | Connecting, ErrorEvent m => Failed m
  | Connecting, CloseEvent => Failed "websocket_closed_before_open"
  | Connecting, TimerFires => Failed "websocket_open_timeout"
  | Opened, Microtasks => Waiting new_wait
  | Waiting w, e => after_wait (wait_step is_hello w e)
  | _, _ => p
  end.

Definition connectAndWaitForHello (evs : list socket_event) : phase := foldl connect_step Connecting evs.

(** ** Requests *)

(** The answers a request waits for. *)
Definition answers (id : string) (expectedTypes : list string) (e : BridgeEnvelope) : bool :=
  bool_decide (requestId e = Some id) &&
  (bool_decide (type e ∈ expectedTypes) || String.eqb (type e) "error" || String.eqb (type e) "auth_error").

(** [requestRoundtrip] with the id [id]: the listeners are there before the request is sent. *)
Definition requestRoundtrip (id : string) (expectedTypes : list string) (evs : list socket_event) : wait :=
  waitForEnvelope (answers id expectedTypes) evs.

Inductive auth_result : Type :=
| NotAttempted
| Authenticated (mode : option string).

(** [authenticateIfNeeded]; [None] while the answer is awaited. *)
Definition authenticateIfNeeded (id : string) (hello : BridgeEnvelope) (token : option string)
    (evs : list socket_event) : option (result string auth_result) :=
  let requiresAuth := match field "requiresAuth" (payload hello) with JBool b => b | _ => false end in
  let no_token := match token with Some t => is_empty t | None => true end in
  if negb requiresAuth && no_token then Some (Ok NotAttempted)
  else if requiresAuth && no_token then
    Some (Throw "bridge requires auth but no token was provided (--token or COMMANDRELAY_AUTH_TOKEN)"%string)
  else
    match race (requestRoundtrip id ["auth_ok"; "auth_error"]%string evs) with
    | None => None
    | Some (Throw m) => Some (Throw m)
    | Some (Ok response) =>
        if negb (String.eqb (type response) "auth_ok") then
          let code := field "code" (payload response) in
          let shown :=
            match code with JNull | JUndefined => "auth_failed"%string | _ => String_of code end in
          Some (Throw ("auth failed: " +:+ shown)%string)
        else Some (Ok (Authenticated (string_field (field "mode" (payload response)))))
    end.
End Client.

(** ** Lemmas *)

(** Numbers an option accepts. *)
Lemma at_least_ok least message flag raw z :
  parse_at_least least message flag raw = Ok z -> least <= z.
Proof.
  unfold parse_at_least. destruct (num_to_Z (parse_int raw)) as [x|]; [|done].
  destruct (Z.ltb_spec x least); [done|]. by intros [= <-].
Qed.

Lemma at_least_text least message flag z :
  0 <= least <= z -> z <= max_safe_integer -> parse_at_least least message flag (int_to_string z) = Ok z.
Proof.
  intros Hz Hm. unfold parse_at_least. rewrite parse_int_to_string by lia. rewrite num_to_Z_int.
  by rewrite (proj2 (Z.ltb_ge _ _)) by lia.
Qed.

Definition args_ok (o : CommonPerfArgs) : Prop :=
  1 <= timeoutMs o /\ 1 <= iterations o /\ 0 <= intervalMs o.

Lemma assign_ok n value o o' : args_ok o -> assign n value o = Ok o' -> args_ok o'.
Proof.
  destruct o as [u t ms it iv p h]. unfold args_ok. cbn. intros (H1 & H2 & H3).
  destruct n; cbn [assign]; try (intros [= <-]; cbn; tauto);
    rewrite rbind_Ok; intros (z & Hz%at_least_ok & [= <-]); cbn; lia.
Qed.

Lemma parse_args_ok n argv o o' : (length argv <= n)%nat -> args_ok o -> parse_args argv o = Ok o' -> args_ok o'.
Proof.
  revert argv o. induction n as [|n IH]; intros [|arg rest] o Hl Ho; cbn [parse_args];
    try (by intros [= <-]); [simpl in Hl; lia|]. simpl in Hl.
  destruct (String.eqb arg "--help" || _); [by apply IH; [lia|]|].
  destruct (String.eqb arg "--pretty"); [by apply IH; [lia|]|].
  destruct (String.eqb arg "--compact"); [by apply IH; [lia|]|].
  destruct (name_of arg) as [[name value|name]|]; [| |done].
  - rewrite rbind_Ok. intros (o1 & Ha & Hp). eapply IH; [|by eapply assign_ok|exact Hp]. lia.
  - rewrite rbind_Ok. intros (value & _ & Hp). apply rbind_Ok in Hp as (o1 & Ha & Hp).
    apply assign_ok in Ha; [|done]. destruct rest as [|x rest]; [by injection Hp as <-|].
    eapply IH; [|exact Ha|exact Hp]. simpl in Hl. lia.
Qed.

(** An inline option sets its field and leaves the rest to the following arguments. *)
Lemma parse_inline n value rest o :
  parse_args ((flag_of n +:+ "=" +:+ value)%string :: rest) o =
    rbind (assign n value o) (parse_args rest).
Proof.
  assert (Hn : name_of (flag_of n +:+ "=" +:+ value)%string = Some (Inline n value)).
  { unfold name_of, option_names. destruct n; cbn [omap list_omap flag_of];
      repeat (rewrite starts_with_app || rewrite str_drop_app || cbn); try done. }
  cbn [parse_args]. rewrite Hn. by destruct n.
Qed.

Section ClientLemmas.
Context (JSON_parse : string -> option jsval) (String_of : jsval -> string).
Context (matcher : BridgeEnvelope -> bool).

(** What an event of the socket settles the inner promise with. *)
Definition verdict (e : socket_event) : option (result string BridgeEnvelope) :=
  match e with
  | MessageEvent raw =>
      match parseRawEnvelope JSON_parse raw with
      | Some envelope => if matcher envelope then Some (Ok envelope) else None
      | None => None
      end
  | ErrorEvent m => Some (Throw m)
  | CloseEvent => Some (Throw "websocket_closed"%string)
  | _ => None
  end.

Definition socket_decides (e : socket_event) : bool := match verdict e with Some _ => true | None => false end.
Definition decides (e : socket_event) : bool := socket_decides e || bool_decide (e = TimerFires).

Lemma step_verdict w e : e <> TimerFires ->
  wait_step JSON_parse matcher w e =
    match verdict e with
    | Some r => if listening w then settle_wait r w else w
    | None => w
    end.
Proof.
  intros Ht. destruct e; simpl; try done. destruct (listening w); destruct (parseRawEnvelope JSON_parse raw); try done;
    by destruct (matcher b).
Qed.

Lemma no_decision_run evs w : Forall (fun e => decides e = false) evs ->
  foldl (wait_step JSON_parse matcher) w evs = w.
Proof.
  revert w. induction evs as [|e evs IH]; intros w H; [done|]. apply Forall_cons in H as [He H].
  unfold decides in He. apply orb_false_iff in He as [He Ht]. apply bool_decide_eq_false in Ht.
  simpl. rewrite step_verdict by done. unfold socket_decides in He. destruct (verdict e); [done|]. by apply IH.
Qed.

(** Once the race is over its result and the timer stay; the listeners go with
    the next event that decides. *)
Lemma over_run evs w r : race w = Some r -> timer w = false ->
  race (foldl (wait_step JSON_parse matcher) w evs) = Some r /\
  timer (foldl (wait_step JSON_parse matcher) w evs) = false /\
  (listening (foldl (wait_step JSON_parse matcher) w evs) = true <->
     listening w = true /\ Forall (fun e => socket_decides e = false) evs).
Proof.
  revert w. induction evs as [|e evs IH]; intros w Hr Ht; [simpl; split_and!; try done; split; [|tauto]; intros; by split|].
  cbn [foldl].
  assert (Hs : race (wait_step JSON_parse matcher w e) = Some r /\ timer (wait_step JSON_parse matcher w e) = false /\
               (listening (wait_step JSON_parse matcher w e) = true <-> listening w = true /\ socket_decides e = false)).
  { destruct (decide (e = TimerFires)) as [->|Hne]; [simpl; rewrite Ht; by split_and!; tauto|].
    rewrite step_verdict by done. unfold socket_decides. destruct (verdict e) as [o|]; [|by split_and!; tauto].
    destruct (listening w) eqn:Hl; [|by rewrite Hl; split_and!; try done; split; [|intros [? _]]].
    unfold settle_wait. rewrite Hr. cbn. split_and!; try done. split; [done|by intros [_ ?]]. }
  destruct Hs as (H1 & H2 & H3). destruct (IH _ H1 H2) as (I1 & I2 & I3). split_and!; [done|done|].
  rewrite I3, H3, Forall_cons. tauto.
Qed.

(** The wait after its first decisive event. *)
Lemma decided_run pre e post :
  Forall (fun x => decides x = false) pre -> decides e = true ->
  let w := waitForEnvelope JSON_parse matcher (pre ++ e :: post) in
  race w = Some (default (Throw "wait_for_envelope_timeout"%string) (verdict e)) /\ timer w = false /\
  (listening w = true <-> e = TimerFires /\ Forall (fun x => socket_decides x = false) post).
Proof.
  intros Hpre He. cbv zeta. unfold waitForEnvelope. rewrite foldl_app, (no_decision_run pre) by done. cbn [foldl].
  assert (Hstep : wait_step JSON_parse matcher new_wait e =
    Wait (bool_decide (e = TimerFires)) (Some (default (Throw "wait_for_envelope_timeout"%string) (verdict e))) false).
  { destruct (decide (e = TimerFires)) as [->|Hne]; [done|]. rewrite step_verdict, bool_decide_false by done.
    unfold decides, socket_decides in He. rewrite bool_decide_false, orb_false_r in He by done.
    by destruct (verdict e). }
  rewrite Hstep.
  destruct (over_run post (Wait (bool_decide (e = TimerFires))
    (Some (default (Throw "wait_for_envelope_timeout"%string) (verdict e))) false) _ eq_refl eq_refl) as (H1 & H2 & H3).
  split_and!; [done|done|]. rewrite H3. cbn [listening]. by rewrite bool_decide_eq_true.
Qed.
End ClientLemmas.

(** ** Theorems *)

(** How the arguments of a benchmark can be written. *)
Definition render (o : CommonPerfArgs) : list string :=
  [flag_of UrlOption +:+ "=" +:+ url o; flag_of TokenOption +:+ "=" +:+ default "" (token o);
   flag_of TimeoutOption +:+ "=" +:+ int_to_string (timeoutMs o);
   flag_of IterationsOption +:+ "=" +:+ int_to_string (iterations o);
   flag_of IntervalOption +:+ "=" +:+ int_to_string (intervalMs o)]%string ++
  [if pretty o then "--pretty" else "--compact"]%string.

(** Every usable set of arguments can be given on the command line, whatever
    the environment and the defaults say, and what is accepted is always usable:
    at least one iteration, a positive time-out, no negative interval. *)
Theorem perf_args_roundtrip env d o :
  args_ok o -> timeoutMs o <= max_safe_integer -> iterations o <= max_safe_integer ->
  intervalMs o <= max_safe_integer -> help o = false ->
  (forall t, token o = Some t -> t <> EmptyString /\ trim t = t) ->
  parseCommonPerfArgs env d (render o) = Ok o /\
  (forall argv o', args_ok (initial_options env d) -> parseCommonPerfArgs env d argv = Ok o' -> args_ok o').
Proof.
  intros (H1 & H2 & H3) M1 M2 M3 Hh Ht. split.
  - unfold parseCommonPerfArgs, render. destruct (initial_options env d) as [u0 t0 ms0 it0 iv0 p0 h0] eqn:Hi.
    assert (h0 = false) as -> by (by unfold initial_options in Hi; injection Hi).
    destruct o as [u t ms it iv p h]. unfold args_ok in *.
    cbn [url token timeoutMs iterations intervalMs pretty help app] in *. subst h.
    assert (Hc : coerceToken (default "" t) = t).
    { unfold coerceToken. destruct t as [t|]; [|done]. destruct (Ht t eq_refl) as [Hn Htr]. cbn. rewrite Htr.
      by destruct t. }
    rewrite (parse_inline UrlOption). cbn [assign rbind]. rewrite (parse_inline TokenOption). cbn [assign rbind]. rewrite Hc.
    rewrite (parse_inline TimeoutOption). cbn [assign]. unfold parsePositiveInt.
    rewrite at_least_text by lia. cbn [rbind]. rewrite (parse_inline IterationsOption). cbn [assign]. unfold parsePositiveInt.
    rewrite at_least_text by lia. cbn [rbind]. rewrite (parse_inline IntervalOption). cbn [assign]. unfold parseNonNegativeInt.
    rewrite at_least_text by lia. by destruct p.
  - intros argv o' Hok Hp. eapply parse_args_ok; [reflexivity|exact Hok|exact Hp].
Qed.

Section Waits.
Context (JSON_parse : string -> option jsval) (String_of : jsval -> string).
Local Abbreviation decides := (decides JSON_parse).

(** A wait is settled by the first thing that matters: a matching envelope, an
    error, the close or the time-out, and by nothing that comes later.  After a
    time-out the three listeners stay on the socket until something of the first
    three kinds happens: with a connection that stays quiet they are never removed. *)
Theorem wait_settles_first matcher pre e post :
  Forall (fun x => decides matcher x = false) pre -> decides matcher e = true ->
  let w := waitForEnvelope JSON_parse matcher (pre ++ e :: post) in
  race w = Some (default (Throw "wait_for_envelope_timeout"%string) (verdict JSON_parse matcher e)) /\
  timer w = false /\
  (listening w = true <-> e = TimerFires /\ Forall (fun x => socket_decides JSON_parse matcher x = false) post).
Proof. apply decided_run. Qed.

Lemma connect_stays p evs : (exists m, p = Failed m) \/ (exists h, p = Connected h) ->
  foldl (connect_step JSON_parse) p evs = p.
Proof. intros Hp. induction evs as [|e evs IH]; [done|]. simpl. by destruct Hp as [(m & ->)|(h & ->)]. Qed.

Lemma opened_waits evs : Forall (fun e => e <> Microtasks) evs -> foldl (connect_step JSON_parse) Opened evs = Opened.
Proof.
  induction evs as [|e evs IH]; [done|]. intros [He H]%Forall_cons. simpl. by destruct e; try apply IH.
Qed.

Lemma waiting_run w evs : race w = None ->
  foldl (connect_step JSON_parse) (Waiting w) evs = after_wait (foldl (wait_step JSON_parse is_hello) w evs).
Proof.
  revert w. induction evs as [|e evs IH]; intros w Hw; [simpl; unfold after_wait; by rewrite Hw|].
  cbn [foldl connect_step]. set (w' := wait_step JSON_parse is_hello w e). unfold after_wait at 1.
  destruct (race w') as [r|] eqn:Hr; [|by apply IH].
  assert (Htimer : timer w' = false).
  { subst w'. destruct e; cbn in Hr |- *; unfold settle_wait in *; rewrite ?Hw in Hr |- *;
      repeat case_match; simplify_eq; done || congruence. }
  assert (Hover : race (foldl (wait_step JSON_parse is_hello) w' evs) = Some r)
    by (by apply over_run). unfold after_wait. rewrite Hover.
  destruct r as [h|m]; (rewrite connect_stays; [done|]); eauto.
Qed.

(** Connecting hears the socket only before it opens and again after the
    pending promise has been resumed.  What arrives in between is lost: a [hello]
    that comes together with the opening of the socket is not seen, and the
    connection then ends with the time-out although the bridge did answer. *)
Theorem hello_with_open_is_lost early late :
  Forall (fun e => e <> Microtasks) early ->
  Forall (fun e => decides is_hello e = false) late ->
  connectAndWaitForHello JSON_parse (OpenEvent :: early ++ Microtasks :: late ++ [TimerFires]) =
    Failed "wait_for_envelope_timeout".
Proof.
  intros He Hl. unfold connectAndWaitForHello. cbn [foldl connect_step]. rewrite foldl_app, opened_waits by done.
  cbn [foldl connect_step]. rewrite waiting_run by done.
  change (foldl (wait_step JSON_parse is_hello) new_wait (late ++ [TimerFires])) with
    (waitForEnvelope JSON_parse is_hello (late ++ [TimerFires])).
  destruct (decided_run JSON_parse is_hello late TimerFires [] Hl eq_refl) as (Hr & _).
  unfold after_wait. by rewrite Hr.
Qed.

(** Authentication never believes the wrong answer: it succeeds only with a
    non-empty token and when the first envelope that answers its own request id,
    before an error, a close or the time-out, is an [auth_ok]. *)
Theorem auth_needs_own_answer id hello token evs mode :
  authenticateIfNeeded JSON_parse String_of id hello token evs = Some (Ok (Authenticated mode)) ->
  (exists t, token = Some t /\ t <> EmptyString) /\
  exists pre raw post response, evs = pre ++ MessageEvent raw :: post /\
    Forall (fun x => decides (answers id ["auth_ok"; "auth_error"]%string) x = false) pre /\
    parseRawEnvelope JSON_parse raw = Some response /\ requestId response = Some id /\
    type response = "auth_ok"%string /\ mode = string_field (field "mode" (payload response)).
Proof.
  unfold authenticateIfNeeded. set (req := match field _ _ with JBool b => b | _ => false end).
  set (m := answers id _). set (no_token := match token with Some t => is_empty t | None => true end).
  destruct no_token eqn:Hnt; [by destruct req|]. rewrite !andb_false_r.
  intros H. split; [subst no_token; destruct token as [t|]; [|done]; exists t; split; [done|by intros ->]|].
  unfold requestRoundtrip in H. fold m in H.
  destruct (first_split (decides m) evs) as [Hq|(pre & e & post & -> & Hpre & He)].
  - unfold waitForEnvelope in H. by rewrite no_decision_run in H.
  - destruct (decided_run JSON_parse m pre e post Hpre He) as (Hr & _). rewrite Hr in H.
    destruct (verdict JSON_parse m e) as [[response|]|] eqn:Hv; cbn [default from_option] in H; unfold Datatypes.id in H; try done.
    destruct e as [|raw| | | |]; try done. cbn [verdict] in Hv.
    destruct (parseRawEnvelope JSON_parse raw) as [env|] eqn:Hp; [|done].
    destruct (m env) eqn:Hm; [|done]. injection Hv as <-. subst m. unfold answers in Hm.
    apply andb_true_iff in Hm as [Hid _]. apply bool_decide_eq_true in Hid.
    destruct (String.eqb_spec (type env) "auth_ok") as [Ht|];
      cbn [negb] in H; [|discriminate H].
    apply (inj Some) in H. injection H as <-. exists pre, raw, post, env. by split_and!.
Qed.
End Waits.

(** ** Concrete inputs *)

Definition demo_frame (type : string) (more payload : list (string * jsval)) : jsval :=
  JObj ([("type", JStr type)]%string ++ more ++ [("payload", JObj payload)]%string).
Definition demo_parse (s : string) : option jsval :=
  if String.eqb s "hello" then Some (demo_frame "hello" [] [("requiresAuth", JBool true)]%string)
  else if String.eqb s "ok" then Some (demo_frame "auth_ok" [("requestId", JStr "r1")]%string [("mode", JStr "token")]%string)
  else None.

Lemma perf_args_roundtrip_witness :
  let o := PerfArgs "ws://h/ws" (Some "t"%string) 100 3 0 false false in
  parseCommonPerfArgs (fun _ => None) (Defaults_ None None None None None None) (render o) = Ok o.
Proof.
  intros o. apply (perf_args_roundtrip (fun _ => None) (Defaults_ None None None None None None) o);
    unfold args_ok, max_safe_integer; cbn; try lia; try reflexivity.
  intros t [= <-]. split; [discriminate|reflexivity].
Defined.

Lemma wait_settles_first_witness :
  let w := waitForEnvelope demo_parse is_hello ([MessageEvent "noise"] ++ TimerFires :: [MessageEvent "ok"]) in
  race w = Some (Throw "wait_for_envelope_timeout"%string) /\ listening w = true.
Proof.
  destruct (wait_settles_first demo_parse is_hello [MessageEvent "noise"] TimerFires [MessageEvent "ok"]) as (H1 & _ & H2).
  - repeat constructor.
  - reflexivity.
  - split; [exact H1|]. apply H2. split; [reflexivity|]. repeat constructor.
Defined.

Lemma hello_with_open_is_lost_witness :
  connectAndWaitForHello demo_parse (OpenEvent :: [MessageEvent "hello"] ++ Microtasks :: [] ++ [TimerFires]) =
    Failed "wait_for_envelope_timeout" /\
  connectAndWaitForHello demo_parse [OpenEvent; Microtasks; MessageEvent "hello"] =
    Connected (Envelope None "hello" None None [("requiresAuth", JBool true)]%string).
Proof.
  split; [|reflexivity].
  apply (hello_with_open_is_lost demo_parse [MessageEvent "hello"] []); [|constructor].
  constructor; [discriminate|constructor].
Defined.

Lemma auth_needs_own_answer_witness :
  exists t, Some "t"%string = Some t /\ t <> EmptyString.
Proof.
  apply (auth_needs_own_answer demo_parse (fun _ => EmptyString) "r1"
    (Envelope None "hello" None None [("requiresAuth", JBool true)]%string) (Some "t"%string)
    [MessageEvent "hello"; MessageEvent "ok"; CloseEvent] (Some "token"%string)).
  vm_compute. reflexivity.
Defined.
